(* ===== verification/_CoqProject ===== *)
-Q . S2P
Prelude.v
Concurrency.v
Interference.v
Memory.v
CommunicationManager.v
Pthreads.v
PthreadsSpec.v
CircularBuffer.v
Channel.v
TokenBuffer.v
FixedSPSC.v
FixedSPSCSpec.v
AtomicCopies.v
CriticalSections.v
LockedCopies.v
FixedSPSCConcurrent.v
FixedMPSC.v
FixedMPSCSpec.v
FixedMPSCConcurrent.v
HelperQueue.v
FixedMPSCNonlocking.v
VariableSPSC.v
VariableSPSCSpec.v
VariableSPSCConcurrent.v
VariableMPSC.v
VariableMPSCSpec.v
VariableMPSCNonlocking.v
Tasking.v
TaskingSpec.v
Compute.v
Worker.v
WorkerSpec.v
Exceptions.v
Json.v
Topology.v
TopologySpec.v
HwlocTopology.v
InstanceManager.v
MemoryManager.v
HwlocDiscovery.v
ObjectStore.v
RPCEngine.v
Frame.v
RPCEngineSpec.v
RPCReturnSpec.v
RPCWiringSpec.v
RPCDemo.v
Mpi.v
MpiSpec.v
MpiDestroy.v
MpiExchange.v
MpiManagers.v
MpiDemo.v
Lpf.v
LpfSpec.v
LpfExchange.v
LpfCopies.v
LpfDestroy.v
LpfMemory.v
LpfDemo.v
Nosv.v
NosvSpec.v
Accelerators.v
Acl.v
AclSpec.v
AclTopology.v
AclMemory.v
AclCompute.v
AclComputeSpec.v
AclDemo.v
Opencl.v
OpenclCompute.v
OpenclSpec.v
OpenclKernels.v
OpenclUnits.v
OpenclMemory.v
OpenclTopology.v
OpenclDemo.v
PthreadsThreads.v
PthreadsThreadsSpec.v
