(* ===== verification/Prelude.v ===== *)
(** * A verification of HiCR

    HiCR is a header-only C++ runtime layer ([include/hicr] in the repository).
    Its [core] directory has the abstract managers and the objects they hand
    out, its [backends] implement the virtual operations of those managers over
    a library or the operating system, and its [frontends] (channels, tasking,
    object store, RPC engine) are built on the core alone.  This development
    models the communication half (memory slots, the communication manager, the
    pthreads backend and all six channels), the computing half (execution
    states, tasks, processing units, the compute manager with its boost,
    pthreads and nOS-V backends, and workers), the description of the machine (topologies,
    their serialization and their discovery with hwloc, memory managers,
    instances), the two frontends that use all of these (the object store
    and the RPC engine), the MPI and LPF backends as one process sees them, and
    the ACL and OpenCL backends for accelerators.

    ** How code becomes definitions

    Code is a program of the resumption monad [prog] of this file: one [Step]
    per atomic access to the shared state, an exception ([Raise]) per
    [HICR_THROW_*], a [Crash] per undefined behaviour or exception that leaves a
    [noexcept] function, and an [Await] per busy wait.  [run] executes a program
    without interference and is total; its outcome is a result, an exception, a
    crash or a wait that does not end, each with the final state.  Pools of
    threads ([Concurrency.v]) interleave programs step by step.  [size_t]
    arithmetic wraps around at 2^64 ([wrap64], [+w], [-w], [*w]).

    Objects that the code shares through [std::shared_ptr] live in a store and
    are referred to by identifiers, so aliasing between slots, managers and
    channels is that of the code.  The constructor arguments of an object are
    the arguments of its [make].

    ** Files

    - [Prelude]: machine integers, exceptions, the monad with its rules, hint
      databases and tactics.  [Concurrency]: interleavings of programs.
      [Interference]: contracts of threads that run at the same time (rely,
      guarantee, what blocks).
    - [Memory]: the byte-addressed heap, [core/localMemorySlot.hpp],
      [core/globalMemorySlot.hpp], and the fields of a communication manager.
    - [CommunicationManager]: [core/communicationManager.hpp].  Its virtual
      functions are the class [CommBackend]; what channels rely on is the class
      [CommSpec].
    - [Pthreads]: [backends/pthreads/core.hpp] and [communicationManager.hpp]
      with the lock of [backends/hwloc/globalMemorySlot.hpp]; an instance of
      both classes.  [PthreadBarrier] there is the [pthread_barrier_t] of the
      system as POSIX describes it, on which [Core.fence] is one call.
      [PthreadsSpec]: its theorems.
    - [CircularBuffer], [Channel], [TokenBuffer]: [frontends/channel/circularBuffer.hpp],
      the three [base.hpp], and the invariant of a buffer of tokens.
    - [FixedSPSC], [FixedMPSC], [FixedMPSCNonlocking], [VariableSPSC],
      [VariableMPSC], [VariableMPSCNonlocking]: the producer and the consumer of
      each channel under [frontends/channel], one module per class; the [Spec]
      files have their theorems.  [HelperQueue] has what the two non-locking
      consumers share.
    - [AtomicCopies], [FixedSPSCConcurrent]: the class
      [CommAtomic] of backends whose copies take effect in one step, and the two
      ends of a fixed-size SPSC channel in two threads; [VariableSPSCConcurrent]: those of
      a variable-size one.  [CriticalSections],
      [LockedCopies], [FixedMPSCConcurrent]: what threads do between acquiring and
      releasing the lock of a slot, and the producers and the consumer of a locking
      channel in as many threads.
    - [Tasking]: [core/executionState.hpp], [frontends/tasking/callbackMap.hpp]
      and [task.hpp], the class [ExecBackend] and its two instances,
      [backends/boost] (coroutines) and [backends/pthreads].  [TaskingSpec]: the
      theorems.
    - [Compute]: [core/processingUnit.hpp], [core/computeManager.hpp], the class
      [ComputeBackend], its pthreads instance and the boost one, which refuses all.
      [PthreadsThreads], [PthreadsThreadsSpec]: the thread of a pthreads processing
      unit, its affinity, its barrier and its signals, and the theorems.
    - [Exceptions]: [core/exceptions.hpp].
    - [Nosv], [NosvSpec]: [backends/nosv], whose tasks run in threads of the nOS-V
      library (the class [NOSV]), and their theorems.
    - [Worker], [WorkerSpec]: [frontends/tasking/worker.hpp] and its theorems.
    - [Json]: JSON values, the accesses to them that the serialization uses, and
      whether their text can be put into a message.
    - [Topology], [TopologySpec]: [core/topology.hpp], [core/device.hpp],
      [core/memorySpace.hpp], [core/computeResource.hpp].  [HwlocTopology]: the
      derived classes of [backends/hwloc] and its topology manager's reader.
      [HwlocDiscovery]: the discovery of NUMA domains, processing units and
      caches in the tree of hwloc objects.
    - [InstanceManager]: [core/instanceManager.hpp], [core/instance.hpp] and the
      pthreads backend.  [MemoryManager]: [core/memoryManager.hpp] with the
      class [MemoryBackend], and [backends/hwloc/memoryManager.hpp]; what clients
      rely on is [MemorySpec] and [RecycleSpec].
    - [ObjectStore]: [frontends/objectStore], over the class [PromotionBackend] of
      the backends that promote and serialize slots.
    - [RPCEngine]: [frontends/RPCEngine/RPCEngine.hpp].  [Frame]: what copies and
      channels leave alone.  [RPCEngineSpec], [RPCReturnSpec], [RPCWiringSpec]:
      requests, return values and the construction of the channels; [RPCDemo]:
      a concrete engine for their witnesses.
    - [Mpi]: [backends/mpi/communicationManager.hpp] and the slots of the MPI
      backend, another instance of [CommBackend], over the functions of the MPI
      library (the class [MPI]).  [MpiSpec]: what is relied on of them, copies and
      the layout of gathered arrays; [MpiDestroy], [MpiExchange]: the two
      collective operations.  [MpiManagers]: memory and instances.  [MpiDemo]: a
      small library for the witnesses.
    - [Lpf]: [backends/lpf/communicationManager.hpp], the slots and the [CHECK] of
      the LPF backend, over the functions of the LPF library (the class [LPF]).
      [LpfSpec]: what is relied on of them, and the gathering of arrays;
      [LpfExchange], [LpfDestroy]: the two collective operations; [LpfCopies]:
      copies, fences, promotion and serialization;
      [LpfMemory]: [backends/lpf/memoryManager.hpp], and the object store over
      LPF; [LpfDemo]: a small library
      for the witnesses.
    - [Accelerators]: what the next two share.  [Acl], [AclCompute]:
      [backends/acl], over the functions of the ACL library (the class [ACL]);
      [AclSpec]: what is relied on of them; [AclTopology], [AclMemory],
      [AclComputeSpec]: the theorems on devices, on slots and copies, and on
      kernels in streams; [AclDemo]: a small library for the witnesses.
    - [Opencl], [OpenclCompute]: [backends/opencl], over the functions of the OpenCL
      library (the class [OPENCL]); [OpenclSpec]: what is relied on of them, and the
      values of slots; [OpenclKernels], [OpenclUnits], [OpenclMemory],
      [OpenclTopology]: the theorems on copies and kernels, processing units, slots
      and devices; [OpenclDemo]: a small library for the witnesses.

    ** What the theorems show

    Channels.  The representation predicates ([channel_rep], [mpsc_content],
    [vrep], [vlcontent], [nonlocking_rep], [vnonlocking_rep]) tie the bytes of
    the buffers and counters to an abstract list of tokens or messages.  Every
    operation is characterised on every branch, for every communication backend
    that satisfies [CommSpec]; for the SPSC channels and the fixed-size locking
    channel whole traces of clients refine an abstract bounded FIFO queue.  These
    statements are about operations that run one after the other; for both
    SPSC channels the producer and the consumer also run at the same
    time, interleaved at every access to memory, and every token or message arrives;
    for the fixed-size locking channel any number of producers and the consumer do, and
    what they accept and receive is one sequence.  The loss of
    tokens by a push of several, the two miscounting pops of several, and the
    lock left held by a failing pop are theorems too.

    Pthreads backend.  Threads that exchange slots and fence are never stuck,
    whatever their interleaving, and afterwards all their managers have registered
    the same slots ([fence_meeting] is the rule for programs that meet at the
    fence).  What a single exchange or fence does is described on its own;
    deregistration, destruction and the copy counters are described as they are.

    Computing.  A task over coroutines has, over its runs, the effect of its
    uninterrupted body and ends after one run more than it suspends.  Over nOS-V
    it has the same effect whatever the interleaving of the thread that runs it
    and of its own, and nothing is ever stuck.  A pthreads processing unit that is
    started and awaited runs its execution state on its processor whatever the
    interleaving with its thread; that a resumed unit may stay suspended is a theorem.
    Processing units and workers follow their state diagrams under all requests; what
    a processing unit is left with when its backend throws is part of the statement.
    That over nOS-V no thread throws rests on what [NosvSpec] says of pauses and
    submissions; a comment of the code reports the exception that this excludes.
    The races and dead ends of the worker's state variable are theorems.

    Topologies.  Serialization and reading are inverse to each other for every
    topology, reading of an arbitrary JSON value is a reference parser, errors and
    what they leave behind included, and
    [isSubset] is exact when the devices of a type are interchangeable.  The
    discovery finds the NUMA domains and processing units of the tree of hwloc
    objects, each processing unit in the domain of its affinity, and the result
    is well formed.

    Instances and memory.  All instance managers of a process agree on the list
    of instances whatever the interleaving of their constructors.  Allocation
    gives fresh memory on success and is described on every error branch.

    Object store and RPC engine.  These are the compositions: over LPF, an object that
    is created, published and serialized by one process and deserialized, fetched and
    fenced by another arrives there with its bytes, and destroying it gives the memory
    and the registrations back; a request is delivered to
    the function of its name, its return value comes back with its bytes, and
    the cases in which it does not are theorems.  The RPC engine is proved against
    the classes [CommSpec], [MemorySpec], [RecycleSpec] and [RunsUnits].

    MPI backend.  The collective operations are described for one process, from
    what all the processes contribute: an exchange gives every process one
    registered slot per entry, in the same order everywhere and with three windows
    of its own, and moves the own ones into the new memory of their data windows; a fence destroys exactly the slots that
    some process has marked, in the order of their keys.  Copies to and from
    another process are inverse to each other and leave no lock, unless the
    library fails.  The instances are the ranks.  Memory that is leaked by an
    exchange, and a lock left by a failing copy, are theorems.

    LPF backend.  Exchange and fence are described in the same way, with what they
    register and deregister; a promoted and serialized slot reaches the same memory
    from the process that reads it.  Copies are complete after the fence of their
    local slot, whose counters stay those of the library.  That failures of a
    transfer are not noticed, and that a slot of another backend is dereferenced,
    are theorems.

    Accelerators.  Over ACL, where kernels wait in a stream, a processing unit that is
    started, asked for its completion until it says yes or a given number of times,
    and waited for has performed its kernels in order, whatever the
    stream has executed in between; copies between host and devices bring the same
    bytes, where the library makes a copy only of the right kind and in the context of
    the device concerned.  Over OpenCL, where the buffer of a slot is unmapped while the device
    works on it and mapped elsewhere afterwards, copies and kernels refine operations
    on the values of slots ([store]).  Slots that are allocated and freed leave the
    others alone.  The devices of a library are found; that the topologies of both
    backends are lost when they are serialized is a theorem for each.

    ** Bounds

    Loops of the code whose number of iterations is known on entry are
    [for_loop] and [for_each].  Busy waits are [Await]; in the concurrent channels
    any number of single polls may come first.  The main loop of a worker has no
    bound in the code; [WorkerOps.mainLoop] takes a number of rounds and says whether
    it has returned, and the theorems that need the loop to end or to fail fix a
    number of rounds that is enough.  The polling loops of the RPC engine
    ([listen], [getReturnValue]) take a number of rounds in the same way; two
    rounds are enough in the theorems that state delivery, and with nothing
    pending the loop has not returned whatever the number.  The recursion over
    the tree of hwloc objects takes the height of the tree as fuel, and the
    theorems hold for every fuel from there on.  The MPI backend keeps counts,
    displacements and sizes as [int]; its theorems are for values below 2^31.  Buffer sizes are at most 2^63 - 1
    bytes, the largest object of the platform, and counters are below 2^64 (the
    hypotheses of the traces bound the number of bytes or tokens sent, and
    [head_counter_wraps] shows what happens beyond).

    ** What is not modelled

    The expansion of format strings and the instrumentation macros.  The sequential
    consistency of the steps stands for the C++ memory model: a copy of bytes and
    an access to a counter are one step each.  Parsing of JSON text, the text that is
    printed for a value (but not whether the printing throws)
    and the end of a process that aborts are left out.  A signal is delivered in a step of
    its own, and a thread in the handler of the suspend signal makes no step.  Of MPI,
    the memory of a window that several processes change at the same time is not modelled, nor that an own window and the local slot
    in it are the same memory.  Of LPF, the memory of another process changes only
    by the transfers of this one; the handles of the object store have room for
    serialized slots of one size, which is a hypothesis of its theorem.  Commands of OpenCL take effect when they are put
    into a queue, which executes them in order; operations of an ACL stream take
    effect when the library is asked about an event or waited for.  The file of an ACL
    kernel is given by its size and content. *)

From Stdlib Require Import ZArith Lia.
From Stdlib.Strings Require Import Byte.
From stdpp Require Import base list gmap option.

#[global] Open Scope Z_scope.

Declare Scope hicr_scope.
Delimit Scope hicr_scope with hicr.
#[global] Open Scope hicr_scope.

(** ** Machine integers: [size_t] is 64 bits wide and wraps around *)

Definition SIZE_BOUND : Z := 2 ^ 64.

Definition wrap64 (z : Z) : Z := z mod SIZE_BOUND.

Definition is_size (z : Z) : Prop := 0 <= z < SIZE_BOUND.

(** No object is larger than [PTRDIFF_MAX] bytes. *)
Definition PTRDIFF_MAX : Z := 2 ^ 63 - 1.

Notation "a +w b" := (wrap64 (a + b)) (at level 50, left associativity) : hicr_scope.
Notation "a -w b" := (wrap64 (a - b)) (at level 50, left associativity) : hicr_scope.
Notation "a *w b" := (wrap64 (a * b)) (at level 40, left associativity) : hicr_scope.

(** [(ssize_t) z]. *)
Definition to_ssize (z : Z) : Z := if z <=? PTRDIFF_MAX then z else z - SIZE_BOUND.

(** [sizeof(size_t)]. *)
Definition SIZEOF_SIZE_T : Z := 8.

(** ** Exceptions: the three kinds thrown by the [HICR_THROW_*] macros *)

Inductive exception_t : Type :=
| logic
| runtime
| fatal.

(** What can be thrown: the exceptions of HiCR, the [std::out_of_range] of the
    standard containers' [at], and the type errors of the JSON library. *)
Inductive exn : Type :=
| hicr_exn (e : exception_t)
| out_of_range
| json_type_error.

Coercion hicr_exn : exception_t >-> exn.

(** The ways a program stops without a catchable exception: an exception that
    leaves a [noexcept] function calls [std::terminate]; [undefined] marks
    undefined behaviour (a null or dangling pointer, an access outside an
    allocation, a division by zero). *)
Inductive crash_t : Type :=
| terminated
| undefined.

#[global] Instance exception_t_eq_dec : EqDecision exception_t.
Proof. solve_decision. Defined.

#[global] Instance exn_eq_dec : EqDecision exn.
Proof. solve_decision. Defined.

#[global] Instance crash_t_eq_dec : EqDecision crash_t.
Proof. solve_decision. Defined.

(** ** Programs: a resumption monad over a shared state

    [Step f k] is one atomic access to the state: it replaces [s] by [f s] and
    continues with [k s] (so [k] sees the value read).  [Await c k] blocks
    until [c] holds. *)
Inductive prog (S A : Type) : Type :=
| Ret (a : A)
| Raise (e : exn)
| Crash (c : crash_t)
| Step (f : S -> S) (k : S -> prog S A)
| Await (c : S -> bool) (k : prog S A).

Arguments Ret {S A} a.
Arguments Raise {S A} e.
Arguments Crash {S A} c.
Arguments Step {S A} f k.
Arguments Await {S A} c k.

Fixpoint bind {S A B : Type} (p : prog S A) (k : A -> prog S B) : prog S B :=
  match p with
  | Ret a => k a
  | Raise e => Raise e
  | Crash c => Crash c
  | Step f q => Step f (fun s => bind (q s) k)
  | Await c q => Await c (bind q k)
  end.

#[global] Instance prog_mbind (S : Type) : MBind (prog S) := fun A B k p => bind p k.
#[global] Instance prog_mret (S : Type) : MRet (prog S) := fun A a => Ret a.

(** A [noexcept] function: any exception leaving it terminates the program. *)
Fixpoint noexcept {S A : Type} (p : prog S A) : prog S A :=
  match p with
  | Ret a => Ret a
  | Raise _ => Crash terminated
  | Crash c => Crash c
  | Step f q => Step f (fun s => noexcept (q s))
  | Await c q => Await c (noexcept q)
  end.

(** Reading the state, changing it, and reading a part that may be missing. *)
Definition gets {S A : Type} (f : S -> A) : prog S A := Step (fun s => s) (fun s => Ret (f s)).

Definition modify {S : Type} (f : S -> S) : prog S unit := Step f (fun _ => Ret tt).

Definition fetch {S A : Type} (f : S -> option A) : prog S A :=
  Step (fun s => s) (fun s => match f s with Some a => Ret a | None => Crash undefined end).

(** An update that is undefined behaviour when it is not possible. *)
Definition update {S : Type} (f : S -> option S) : prog S unit :=
  Step (fun s => default s (f s))
       (fun s => match f s with Some _ => Ret tt | None => Crash undefined end).

(** [if (b) throw e;] *)
Definition throw_if {S : Type} (b : bool) (e : exn) : prog S unit :=
  if b then Raise e else Ret tt.

(** [for (i = first; i < first + n; i++) body(i)]. *)
Fixpoint for_loop {S : Type} (n : nat) (first : Z) (body : Z -> prog S unit) : prog S unit :=
  match n with
  | O => Ret tt
  | Datatypes.S n' => _ ← body first; for_loop n' (first + 1) body
  end.

(** [for (x : l) body(x)]. *)
Fixpoint for_each {S X : Type} (l : list X) (body : X -> prog S unit) : prog S unit :=
  match l with
  | [] => Ret tt
  | x :: l' => _ ← body x; for_each l' body
  end.

(** [for (x : l) r.push_back(f(x))]. *)
Fixpoint map_each {S X Y : Type} (f : X -> prog S Y) (l : list X) : prog S (list Y) :=
  match l with
  | [] => Ret []
  | x :: l' => y ← f x; ys ← map_each f l'; Ret (y :: ys)
  end.

(** [assert(b)]; a failed assertion aborts the program. *)
Definition assert_ {S : Type} (b : bool) : prog S unit :=
  if b then Ret tt else Crash terminated.

(** A program that uses only the first component of the state. *)
Fixpoint on_fst {S T A : Type} (p : prog S A) : prog (S * T) A :=
  match p with
  | Ret a => Ret a
  | Raise e => Raise e
  | Crash c => Crash c
  | Step f k => Step (fun st => (f st.1, st.2)) (fun st => on_fst (k st.1))
  | Await c k => Await (fun st => c st.1) (on_fst k)
  end.

(** A program on a part of the state; when the part is not there, using it is
    undefined behaviour. *)
Fixpoint zoom {S T A : Type} (get : T -> option S) (put : S -> T -> T) (p : prog S A) : prog T A :=
  match p with
  | Ret a => Ret a
  | Raise e => Raise e
  | Crash c => Crash c
  | Step f k =>
      Step (fun t => match get t with Some s => put (f s) t | None => t end)
           (fun t => match get t with Some s => zoom get put (k s) | None => Crash undefined end)
  | Await c k => Await (fun t => match get t with Some s => c s | None => false end) (zoom get put k)
  end.

(** A constructor: [p] runs on the new object, which is the result. *)
Fixpoint construct {S T : Type} (p : prog T unit) (new : T) : prog S T :=
  match p with
  | Ret _ => Ret new
  | Raise e => Raise e
  | Crash c => Crash c
  | Step f k => construct (k new) (f new)
  | Await c k => if c new then construct k new else Await (fun _ => false) (Ret new)
  end.

(** A program with a local object, which goes away at its end. *)
Fixpoint with_local {S T A : Type} (p : prog (S * T) A) (o : T) : prog S A :=
  match p with
  | Ret a => Ret a
  | Raise e => Raise e
  | Crash c => Crash c
  | Step f k => Step (fun s => (f (s, o)).1) (fun s => with_local (k (s, o)) (f (s, o)).2)
  | Await c k => Await (fun s => c (s, o)) (with_local k o)
  end.

(** [while (!test()) body();], at most [n] times; the loop blocks when the test
    has never succeeded. *)
Fixpoint poll {S : Type} (n : nat) (test : prog S bool) (body : prog S unit) : prog S unit :=
  match n with
  | O => Await (fun _ => false) (Ret tt)
  | Datatypes.S n' => b ← test; if (b : bool) then Ret tt else _ ← body; poll n' test body
  end.

(** Reading and changing the object [this], the second component. *)
Definition this {S T A : Type} (f : T -> A) : prog (S * T) A := gets (fun st => f st.2).

Definition set_this {S T : Type} (f : T -> T) : prog (S * T) unit := modify (fun st => (st.1, f st.2)).

(** ** Sequential execution *)

Inductive outcome (S A : Type) : Type :=
| Done (a : A) (s : S)
| Thrown (e : exn) (s : S)
| Crashed (c : crash_t) (s : S)
| Blocked (s : S).

Arguments Done {S A} a s.
Arguments Thrown {S A} e s.
Arguments Crashed {S A} c s.
Arguments Blocked {S A} s.

Fixpoint run {S A : Type} (p : prog S A) (s : S) : outcome S A :=
  match p with
  | Ret a => Done a s
  | Raise e => Thrown e s
  | Crash c => Crashed c s
  | Step f k => run (k s) (f s)
  | Await c k => if c s then run k s else Blocked s
  end.

(** ** Bytes, and the little-endian representation of a [size_t] *)

Abbreviation byte := Byte.byte.

Definition byte_of_Z (z : Z) : byte := default x00 (Byte.of_N (Z.to_N (z mod 256))).

Definition Z_of_byte (b : byte) : Z := Z.of_N (Byte.to_N b).

Fixpoint le_bytes (n : nat) (z : Z) : list byte :=
  match n with
  | O => []
  | Datatypes.S n' => byte_of_Z z :: le_bytes n' (z / 256)
  end.

Fixpoint le_value (l : list byte) : Z :=
  match l with
  | [] => 0
  | b :: l' => Z_of_byte b + 256 * le_value l'
  end.

(** ** Windows of a byte array *)

Definition read_at (off n : nat) (l : list byte) : option (list byte) :=
  if bool_decide (off + n <= length l)%nat then Some (take n (drop off l)) else None.

Definition write_at (off : nat) (bs : list byte) (l : list byte) : option (list byte) :=
  if bool_decide (off + length bs <= length l)%nat
  then Some (take off l ++ bs ++ drop (off + length bs) l)
  else None.

(** ** Tactics and hint databases *)

Create HintDb hicr.

(** Case analysis on the comparisons the code makes. *)
Ltac case_bool :=
  match goal with
  | |- context [bool_decide ?P] => case_bool_decide
  | |- context [Z.ltb ?a ?b] => destruct (Z.ltb_spec a b)
  | |- context [Z.leb ?a ?b] => destruct (Z.leb_spec a b)
  | |- context [Z.eqb ?a ?b] => destruct (Z.eqb_spec a b)
  | |- context [Z.gtb ?a ?b] => rewrite (Z.gtb_ltb a b); destruct (Z.ltb_spec b a)
  | |- context [Z.geb ?a ?b] => rewrite (Z.geb_leb a b); destruct (Z.leb_spec b a)
  end.

(** [lia] with the unsigned bounds and the width unfolded. *)
Ltac size_lia := unfold is_size, wrap64, PTRDIFF_MAX, SIZE_BOUND, SIZEOF_SIZE_T in *; lia.

(** ** Sequential execution of the program combinators *)

Lemma run_bind {S A B : Type} (p : prog S A) (k : A -> prog S B) (s : S) :
  run (p ≫= k) s =
  match run p s with
  | Done a s' => run (k a) s'
  | Thrown e s' => Thrown e s'
  | Crashed c s' => Crashed c s'
  | Blocked s' => Blocked s'
  end.
Proof.
  unfold mbind, prog_mbind. revert s.
  induction p as [a|e|c|f q IH|c q IH]; intros s; cbn;
    [done | done | done | apply IH | destruct (c s); [apply IH | done]].
Qed.

Lemma run_ret {S A : Type} (a : A) (s : S) : run (mret a) s = Done a s.
Proof. done. Qed.

Lemma run_gets {S A : Type} (f : S -> A) (s : S) : run (gets f) s = Done (f s) s.
Proof. done. Qed.

Lemma run_modify {S : Type} (f : S -> S) (s : S) : run (modify f) s = Done tt (f s).
Proof. done. Qed.

Lemma run_fetch {S A : Type} (f : S -> option A) (s : S) (a : A) :
  f s = Some a -> run (fetch f) s = Done a s.
Proof. intros E. unfold fetch. cbn. by rewrite E. Qed.

Lemma run_update {S : Type} (f : S -> option S) (s s' : S) :
  f s = Some s' -> run (update f) s = Done tt s'.
Proof. intros E. unfold update. cbn. by rewrite E. Qed.

Lemma run_throw_if_false {S : Type} (b : bool) (e : exn) (s : S) :
  b = false -> run (throw_if b e) s = Done tt s.
Proof. by intros ->. Qed.

Lemma run_throw_if_true {S : Type} (b : bool) (e : exn) (s : S) :
  b = true -> run (throw_if b e) s = Thrown e s.
Proof. by intros ->. Qed.

Lemma run_noexcept {S A : Type} (p : prog S A) (s : S) :
  run (noexcept p) s =
  match run p s with Thrown _ s' => Crashed terminated s' | o => o end.
Proof.
  revert s. induction p as [a|e|c|f q IH|c q IH]; intros s; cbn;
    [done | done | done | apply IH | destruct (c s); [apply IH | done]].
Qed.

Lemma run_noexcept_Done {S A : Type} (p : prog S A) (s s' : S) (a : A) :
  run p s = Done a s' -> run (noexcept p) s = Done a s'.
Proof. intros E. by rewrite run_noexcept, E. Qed.

Lemma run_construct {S T : Type} (p : prog T unit) (new : T) (s : S) :
  run (construct p new) s =
  match run p new with
  | Done _ o => Done o s
  | Thrown e _ => Thrown e s
  | Crashed c _ => Crashed c s
  | Blocked _ => Blocked s
  end.
Proof.
  revert new. induction p as [a|e|c|f q IH|c q IH]; intros new; cbn; [done..|apply IH|].
  destruct (c new); [apply IH|done].
Qed.

Lemma run_bind_Done {S A B : Type} (p : prog S A) (k : A -> prog S B) (s s' : S) (a : A) :
  run p s = Done a s' -> run (p ≫= k) s = run (k a) s'.
Proof. intros E. by rewrite run_bind, E. Qed.

Lemma run_bind_inv {S A B : Type} (p : prog S A) (k : A -> prog S B) (s s' : S) (b : B) :
  run (p ≫= k) s = Done b s' -> exists a s1, run p s = Done a s1 /\ run (k a) s1 = Done b s'.
Proof. rewrite run_bind. destruct (run p s) as [a s1| | |]; [eauto|done..]. Qed.

Lemma run_on_fst {S T A : Type} (p : prog S A) (s : S) (o : T) :
  run (on_fst p) (s, o) =
  match run p s with
  | Done a s' => Done a (s', o)
  | Thrown e s' => Thrown e (s', o)
  | Crashed c s' => Crashed c (s', o)
  | Blocked s' => Blocked (s', o)
  end.
Proof.
  revert s. induction p as [a|e|c|f q IH|c q IH]; intros s; cbn;
    [done | done | done | apply IH | destruct (c s); [apply IH | done]].
Qed.

Lemma run_on_fst_Done {S T A : Type} (p : prog S A) (s s' : S) (o : T) (a : A) :
  run p s = Done a s' -> run (on_fst p) (s, o) = Done a (s', o).
Proof. intros E. by rewrite run_on_fst, E. Qed.

Lemma run_with_local {S T A : Type} (p : prog (S * T) A) (s : S) (o : T) :
  run (with_local p o) s =
  match run p (s, o) with
  | Done a s' => Done a s'.1
  | Thrown e s' => Thrown e s'.1
  | Crashed c s' => Crashed c s'.1
  | Blocked s' => Blocked s'.1
  end.
Proof.
  revert s o. induction p as [a|e|c|f q IH|c q IH]; intros s o; cbn; [done..| |].
  - rewrite IH. by destruct (f (s, o)).
  - destruct (c (s, o)); [apply IH|done].
Qed.

(** Polling for what does not happen does not end. *)
Lemma run_poll_never {S : Type} (test : prog S bool) (body : prog S unit) (s : S) n :
  run test s = Done false s -> run body s = Done tt s -> run (poll n test body) s = Blocked s.
Proof.
  intros Ht Hb. induction n as [|n IH]; [done|]. cbn [poll]. rewrite (run_bind_Done _ _ _ _ _ Ht).
  by rewrite (run_bind_Done _ _ _ _ _ Hb).
Qed.

(** What a program on a part does to the whole. *)
Lemma run_zoom {S T A : Type} (get : T -> option S) (put : S -> T -> T) (p : prog S A) (t : T) (s : S) :
  get t = Some s -> put s t = t -> (forall s' t', is_Some (get t') -> get (put s' t') = Some s') ->
  (forall s1 s2 t', put s1 (put s2 t') = put s1 t') ->
  run (zoom get put p) t =
  match run p s with
  | Done a s' => Done a (put s' t)
  | Thrown e s' => Thrown e (put s' t)
  | Crashed c s' => Crashed c (put s' t)
  | Blocked s' => Blocked (put s' t)
  end.
Proof.
  intros Hg Hp Hgp Hpp. revert t s Hg Hp.
  induction p as [a|e|c|f q IH|c q IH]; intros t s Hg Hp; cbn; try by rewrite Hp.
  - rewrite Hg. rewrite (IH s (put (f s) t) (f s)); [by destruct (run (q s) (f s)); rewrite ?Hpp|by apply Hgp; rewrite Hg; eexists|apply Hpp].
  - rewrite Hg. destruct (c s); [by apply IH|by rewrite Hp].
Qed.

Lemma run_this {S T A : Type} (f : T -> A) (s : S) (o : T) : run (this f) (s, o) = Done (f o) (s, o).
Proof. done. Qed.

Lemma run_set_this {S T : Type} (f : T -> T) (s : S) (o : T) : run (set_this f) (s, o) = Done tt (s, f o).
Proof. done. Qed.

(** Reads that do not change the state. *)
Lemma run_map_each_pure {S X Y : Type} (f : X -> prog S Y) (l : list X) (ys : list Y) (s : S) :
  Forall2 (fun x y => run (f x) s = Done y s) l ys -> run (map_each f l) s = Done ys s.
Proof.
  induction 1 as [|x y l ys Hx _ IH]; [done|]. cbn [map_each].
  by rewrite (run_bind_Done _ _ _ _ _ Hx), (run_bind_Done _ _ _ _ _ IH).
Qed.

Lemma run_bind_assoc {S A B C : Type} (p : prog S A) (k : A -> prog S B) (h : B -> prog S C) (s : S) :
  run ((p ≫= k) ≫= h) s = run (p ≫= (fun a => k a ≫= h)) s.
Proof. rewrite !run_bind. by destruct (run p s); rewrite ?run_bind. Qed.

(** One symbolic step of a sequential run, by the equation of its first action. *)
Ltac run_with lem :=
  erewrite run_bind_Done; [ | eapply lem; eauto with hicr ]; cbn beta.

(** A loop that preserves an indexed invariant runs to completion. *)
Lemma run_for_loop_inv {S : Type} (I : Z -> S -> Prop) (body : Z -> prog S unit) (n : nat) :
  forall (first : Z) (s : S),
  I first s ->
  (forall i t, first <= i < first + Z.of_nat n -> I i t ->
     exists t', run (body i) t = Done tt t' /\ I (i + 1) t') ->
  exists s', run (for_loop n first body) s = Done tt s' /\ I (first + Z.of_nat n) s'.
Proof.
  induction n as [|n IH]; intros first s HI Hb.
  - exists s. split; [done|]. by rewrite Z.add_0_r.
  - destruct (Hb first s) as (t & Ht & HIt); [lia|done|].
    destruct (IH (first + 1) t HIt) as (t' & Ht' & HIt').
    { intros i u Hi. apply Hb. lia. }
    exists t'. split.
    + cbn [for_loop]. by rewrite (run_bind_Done _ _ _ _ _ Ht).
    + by replace (first + Z.of_nat (Datatypes.S n)) with (first + 1 + Z.of_nat n) by lia.
Qed.

Lemma run_for_each_inv {S X : Type} (I : list X -> S -> Prop) (body : X -> prog S unit) (l : list X) :
  forall (done : list X) (s : S),
  I done s ->
  (forall pre x t, (exists post, done ++ l = pre ++ x :: post) -> I pre t ->
     exists t', run (body x) t = Done tt t' /\ I (pre ++ [x]) t') ->
  exists s', run (for_each l body) s = Done tt s' /\ I (done ++ l) s'.
Proof.
  induction l as [|x l IH]; intros dn s HI Hb.
  - exists s. split; [done|]. by rewrite app_nil_r.
  - destruct (Hb dn x s) as (t & Ht & HIt); [eauto|done|].
    destruct (IH (dn ++ [x]) t HIt) as (t' & Ht' & HIt').
    { intros pre y u (post & E). apply Hb. exists post. by rewrite <- E, <- app_assoc. }
    exists t'. split.
    + cbn [for_each]. by rewrite (run_bind_Done _ _ _ _ _ Ht).
    + by rewrite <- app_assoc in HIt'.
Qed.

(** ** Unsigned arithmetic *)

Lemma wrap64_small (z : Z) : is_size z -> wrap64 z = z.
Proof. intros. apply Z.mod_small. size_lia. Qed.

Lemma wrap64_bound (z : Z) : is_size (wrap64 z).
Proof. apply Z.mod_pos_bound. done. Qed.

#[export] Hint Resolve wrap64_bound : hicr.

(** Two positions of a window no longer than the capacity do not collide. *)
(** Counting the elements of a list that satisfy a predicate. *)
Lemma length_filter_insert {A : Type} (P : A -> Prop) `{!forall x, Decision (P x)} (l : list A) i x y :
  l !! i = Some y ->
  (length (filter P (<[i := x]> l)) + (if decide (P y) then 1 else 0) = length (filter P l) + (if decide (P x) then 1 else 0))%nat.
Proof.
  revert i. induction l as [|z l IH]; intros [|i] Hi; [done..| |].
  - injection Hi as ->. change (<[0%nat := x]> (y :: l)) with (x :: l). rewrite !filter_cons. repeat case_decide; cbn [length]; lia.
  - change (<[Datatypes.S i := x]> (z :: l)) with (z :: <[i := x]> l). rewrite !filter_cons. specialize (IH i Hi).
    repeat case_decide; cbn [length]; lia.
Qed.

Lemma length_filter_all {A : Type} (P : A -> Prop) `{!forall x, Decision (P x)} (l : list A) :
  length (filter P l) = length l <-> Forall P l.
Proof.
  induction l as [|x l IH]; [done|]. rewrite filter_cons. pose proof (length_filter P l) as Hle. case_decide as Hx; cbn; split.
  - intros E. constructor; [done|]. apply IH. lia.
  - intros [_ E%IH]%Forall_cons_1. lia.
  - lia.
  - by intros [? _]%Forall_cons_1.
Qed.

Lemma mod_window_inj (cap a i j : Z) :
  0 <= i < cap -> 0 <= j < cap -> (a + i) mod cap = (a + j) mod cap -> i = j.
Proof.
  intros Hi Hj E.
  assert (Hd : (i - j) mod cap = 0).
  { replace (i - j) with ((a + i) - (a + j)) by lia.
    rewrite Zminus_mod, E, Z.sub_diag. apply Z.mod_0_l. lia. }
  apply Z.mod_divide in Hd as [k Hk]; [|lia].
  destruct (Z.lt_trichotomy k 0) as [?|[->|?]]; nia.
Qed.

(** ** Little-endian round trip *)

Lemma Z_of_byte_bound (b : byte) : 0 <= Z_of_byte b < 256.
Proof. unfold Z_of_byte. pose proof (Byte.to_N_bounded b). lia. Qed.

Lemma Z_of_byte_of_Z (z : Z) : Z_of_byte (byte_of_Z z) = z mod 256.
Proof.
  unfold Z_of_byte, byte_of_Z.
  pose proof (Z.mod_pos_bound z 256 ltac:(lia)).
  destruct (Byte.of_N (Z.to_N (z mod 256))) as [b|] eqn:E; cbn.
  - apply Byte.to_of_N in E. rewrite E. lia.
  - apply Byte.of_N_None_iff in E. lia.
Qed.

Lemma length_le_bytes (n : nat) (z : Z) : length (le_bytes n z) = n.
Proof. revert z. induction n as [|n IH]; intros z; cbn; [done | by rewrite IH]. Qed.

Lemma le_value_bound (l : list byte) : 0 <= le_value l < 256 ^ Z.of_nat (length l).
Proof.
  induction l as [|b l IH]; cbn [le_value length]; [lia|].
  pose proof (Z_of_byte_bound b). rewrite Nat2Z.inj_succ, Z.pow_succ_r by lia. lia.
Qed.

Lemma le_value_bytes (n : nat) (z : Z) : le_value (le_bytes n z) = z mod 256 ^ Z.of_nat n.
Proof.
  revert z. induction n as [|n IH]; intros z; cbn [le_bytes le_value].
  - by rewrite Z.mod_1_r.
  - rewrite IH, Z_of_byte_of_Z, Nat2Z.inj_succ, Z.pow_succ_r by lia.
    rewrite Z.rem_mul_r by (try apply Z.pow_nonzero; lia). lia.
Qed.

Lemma le_value_size (z : Z) : is_size z -> le_value (le_bytes 8 z) = z.
Proof. intros. rewrite le_value_bytes. apply Z.mod_small. size_lia. Qed.

Lemma le_value_is_size (l : list byte) : length l = 8%nat -> is_size (le_value l).
Proof. intros H. pose proof (le_value_bound l) as B. rewrite H in B. size_lia. Qed.

(** ** Reads and writes of a window *)

Lemma read_at_Some (off n : nat) (l bs : list byte) :
  read_at off n l = Some bs -> length bs = n /\ (off + n <= length l)%nat.
Proof.
  unfold read_at. case_bool_decide; [|done]. intros [= <-].
  rewrite length_take, length_drop. lia.
Qed.

Lemma is_Some_read_at (off n : nat) (l : list byte) :
  is_Some (read_at off n l) <-> (off + n <= length l)%nat.
Proof. unfold read_at. case_bool_decide; split; intros H'; try lia; [eauto | by destruct H']. Qed.

Lemma write_at_length (off : nat) (bs l l' : list byte) :
  write_at off bs l = Some l' -> length l' = length l.
Proof.
  unfold write_at. case_bool_decide; [|done]. intros [= <-].
  rewrite !length_app, length_take, length_drop. lia.
Qed.

Lemma read_write_same (off : nat) (bs l l' : list byte) :
  write_at off bs l = Some l' -> read_at off (length bs) l' = Some bs.
Proof.
  intros E. pose proof (write_at_length _ _ _ _ E) as HL. revert E.
  unfold write_at, read_at. case_bool_decide; [|done]. intros [= <-].
  rewrite bool_decide_true by lia.
  rewrite drop_app_ge, length_take by (rewrite length_take; lia).
  replace (off - off `min` length l)%nat with 0%nat by lia.
  by rewrite drop_0, take_app_length.
Qed.

Lemma write_at_lookup (off i : nat) (bs l l' : list byte) :
  write_at off bs l = Some l' -> (i < off \/ off + length bs <= i)%nat -> l' !! i = l !! i.
Proof.
  unfold write_at. case_bool_decide; [|done]. intros [= <-] [Hi|Hi].
  - rewrite lookup_app_l by (rewrite length_take; lia). by rewrite lookup_take_lt.
  - rewrite lookup_app_r, length_take by (rewrite length_take; lia).
    rewrite lookup_app_r by lia. rewrite lookup_drop. f_equal. lia.
Qed.

Lemma read_write_disjoint (off off' n : nat) (bs l l' : list byte) :
  write_at off bs l = Some l' ->
  (off' + n <= off \/ off + length bs <= off')%nat ->
  read_at off' n l' = read_at off' n l.
Proof.
  intros E Hd. pose proof (write_at_length _ _ _ _ E) as HL.
  unfold read_at. rewrite HL. case_bool_decide; [|done]. f_equal.
  apply list_eq. intros i. destruct (decide (i < n)%nat).
  - rewrite !lookup_take_lt, !lookup_drop by done. apply (write_at_lookup _ _ _ _ _ E). lia.
  - by rewrite !lookup_take_ge by lia.
Qed.

Lemma write_at_is_Some (off : nat) (bs l : list byte) :
  (off + length bs <= length l)%nat -> is_Some (write_at off bs l).
Proof. intros H. unfold write_at. rewrite bool_decide_true by done. eauto. Qed.
