(* ===== verification/Concurrency.v ===== *)
(** * Interleavings of programs

    A pool of threads shares one state; a step of the pool is one atomic action
    of one of them, a wait whose condition holds included. *)

From S2P Require Import Prelude.
From stdpp Require Import base list relations.

Section Threads.
Context {S A : Type}.

Inductive thread_step : prog S A -> S -> prog S A -> S -> Prop :=
| thread_act (f : S -> S) (k : S -> prog S A) (s : S) : thread_step (Step f k) s (k s) (f s)
| thread_wake (c : S -> bool) (k : prog S A) (s : S) : c s = true -> thread_step (Await c k) s k s.

Inductive pool_step : list (prog S A) * S -> list (prog S A) * S -> Prop :=
| pool_act (ps : list (prog S A)) (i : nat) (p p' : prog S A) (s s' : S) :
    ps !! i = Some p -> thread_step p s p' s' -> pool_step (ps, s) (<[i := p']> ps, s').

Definition pool_steps : relation (list (prog S A) * S) := rtc pool_step.

(** A schedule names the thread of each step; [None] when it cannot move. *)
Definition step_thread (p : prog S A) (s : S) : option (prog S A * S) :=
  match p with
  | Step f k => Some (k s, f s)
  | Await c k => if c s then Some (k, s) else None
  | _ => None
  end.

Fixpoint schedule (ks : list nat) (ps : list (prog S A)) (s : S) : option (list (prog S A) * S) :=
  match ks with
  | [] => Some (ps, s)
  | i :: ks' => p ← ps !! i; '(p', s') ← step_thread p s; schedule ks' (<[i := p']> ps) s'
  end.

Lemma step_thread_step p s p' s' : step_thread p s = Some (p', s') <-> thread_step p s p' s'.
Proof.
  split.
  - intros E. destruct p as [| | |f k|c k]; try done; cbn in E; [by injection E as <- <-; constructor|].
    destruct (c s) eqn:Ec; [|done]. injection E as <- <-. by constructor.
  - intros Ht. destruct Ht as [f k s|c k s Ec]; cbn; [done|]. by rewrite Ec.
Qed.

Lemma schedule_steps ks ps s ps' s' : schedule ks ps s = Some (ps', s') -> pool_steps (ps, s) (ps', s').
Proof.
  revert ps s. induction ks as [|i ks IH]; intros ps s E; cbn in E; [by injection E as -> ->|].
  destruct (ps !! i) as [p|] eqn:Ei; [|done]. cbn in E. destruct (step_thread p s) as [[p1 s1]|] eqn:Et; [|done].
  eapply rtc_l; [|by apply IH]. apply pool_act with p; [done|]. by apply step_thread_step.
Qed.

(** A pool can move or is stuck. *)
Lemma pool_can_step ps s : (exists st, pool_step (ps, s) st) \/ (forall st, ~ pool_step (ps, s) st).
Proof.
  destruct (decide (Exists (fun p => step_thread p s <> None) ps)) as [H|H].
  - apply Exists_exists in H as (p & [i Hi]%list_elem_of_lookup & Hp). destruct (step_thread p s) as [[p' s']|] eqn:E; [|done].
    left. eexists. apply pool_act with p; [done|]. by apply step_thread_step.
  - right. intros st Hst. inversion Hst as [? i p p' ? s' Hi Ht]; subst. apply H, Exists_exists. exists p.
    split; [by eapply list_elem_of_lookup_2|]. apply step_thread_step in Ht. by rewrite Ht.
Qed.

(** An invariant of every step holds of every reachable pool. *)
Lemma pool_invariant (I : list (prog S A) -> S -> Prop) ps s ps' s' :
  (forall qs u i p p' u', I qs u -> qs !! i = Some p -> thread_step p u p' u' -> I (<[i := p']> qs) u') ->
  I ps s -> pool_steps (ps, s) (ps', s') -> I ps' s'.
Proof.
  intros Hstep HI H. remember (ps, s) as a eqn:Ea. remember (ps', s') as b eqn:Eb. revert ps s Ea HI.
  induction H as [x|x y z Hxy _ IH]; intros ps s -> HI.
  - by injection Eb as <- <-.
  - inversion Hxy as [? i p p' ? u' Hi Ht]; subst. eapply IH; [done..|]. by eapply Hstep.
Qed.

Lemma pool_steps_length ps s ps' s' : pool_steps (ps, s) (ps', s') -> length ps' = length ps.
Proof.
  intros H. apply (pool_invariant (fun qs _ => length qs = length ps) ps s ps' s'); [|done|done].
  intros qs u i p p' u' Hl _ _. by rewrite length_insert.
Qed.

(** A program all of whose actions preserve [Inv]. *)
Fixpoint keeps (Inv : S -> Prop) (p : prog S A) : Prop :=
  match p with
  | Ret _ | Raise _ | Crash _ => True
  | Step f k => forall s, Inv s -> Inv (f s) /\ keeps Inv (k s)
  | Await _ k => keeps Inv k
  end.

Lemma keeps_step Inv p s p' s' : keeps Inv p -> Inv s -> thread_step p s p' s' -> Inv s' /\ keeps Inv p'.
Proof. intros Hk HI Ht. destruct Ht; cbn in Hk; [by apply Hk|done]. Qed.

(** A run that neither blocks nor stops early is a sequence of steps of that thread. *)
Lemma run_thread_steps (p : prog S A) s a s' :
  run p s = Done a s' -> pool_steps ([p], s) ([Ret a], s').
Proof.
  revert s. induction p as [x|e|c|f k IH|c k IH]; intros s E; cbn in E; try done.
  - injection E as <- <-. done.
  - eapply rtc_l; [|by apply (IH s)]. by apply (pool_act [Step f k] 0 (Step f k) (k s)); [|constructor].
  - destruct (c s) eqn:Ec; [|done]. eapply rtc_l; [|by apply IH].
    by apply (pool_act [Await c k] 0 (Await c k) k); [|constructor].
Qed.

End Threads.

Lemma keeps_bind {S A B : Type} (Inv : S -> Prop) (p : prog S A) (k : A -> prog S B) :
  keeps Inv p -> (forall a, keeps Inv (k a)) -> keeps Inv (p ≫= k).
Proof.
  intros Hp Hk. unfold mbind, prog_mbind. induction p as [a|e|c|f q IH|c q IH]; cbn in *; [done..| |by apply IH].
  intros s Hs. destruct (Hp s Hs). auto.
Qed.

(** ** Threads in sequence *)

Lemma thread_step_bind {S A B : Type} (q : prog S A) (k : A -> prog S B) s p' s' :
  thread_step (q ≫= k) s p' s' ->
  (exists a, q = Ret a /\ thread_step (k a) s p' s') \/ (exists q', thread_step q s q' s' /\ p' = q' ≫= k).
Proof.
  unfold mbind, prog_mbind. destruct q as [a|e|c|f h|c h]; cbn; intros Ht.
  - left. by exists a.
  - inversion Ht.
  - inversion Ht.
  - right. inversion Ht; subst. eexists. by split; [constructor|].
  - right. inversion Ht; subst. eexists. by split; [constructor|].
Qed.

Lemma bind_thread_step {S A B : Type} (q q' : prog S A) (k : A -> prog S B) s s' :
  thread_step q s q' s' -> thread_step (q ≫= k) s (q' ≫= k) s'.
Proof. intros Ht. unfold mbind, prog_mbind. destruct Ht; cbn; by constructor. Qed.

Definition finished {S A : Type} (p : prog S A) : Prop := match p with Ret _ => True | _ => False end.

#[global] Instance finished_dec {S A : Type} (p : prog S A) : Decision (finished p).
Proof. destruct p; cbn; apply _. Defined.
