(* ===== verification/Interference.v ===== *)
(** * Threads that interfere: rely, guarantee and what blocks

    A contract says what a thread may assume of the others between its own
    steps ([rely]), what each of its steps does to the state ([guar]), and what
    holds when it is blocked ([waiting]).  [triple c P p Q]: from a state with
    [P] the program [p] neither throws nor crashes whatever the others do, its
    steps satisfy the guarantee, and its result satisfies [Q].  Programs that
    honour contracts compatible with each other are safe in a pool, and a pool
    runs to its end unless all of its unfinished threads are blocked. *)

From S2P Require Import Prelude Concurrency.
From Stdlib Require Import ZArith Lia.
From stdpp Require Import base list relations.

Local Open Scope Z_scope.

Record contract (S : Type) : Type := mkContract {
  rely : relation S;
  guar : relation S;
  waiting : S -> Prop
}.

Arguments mkContract {S} _ _ _.
Arguments rely {S} _ _ _.
Arguments guar {S} _ _ _.
Arguments waiting {S} _ _.

Class Contract {S : Type} (c : contract S) : Prop := {
  rely_preorder :: PreOrder (rely c);
  guar_refl :: Reflexive (guar c)
}.

Definition stable {S : Type} (c : contract S) (P : S -> Prop) : Prop := forall s s', P s -> rely c s s' -> P s'.

Fixpoint safe {S A : Type} (c : contract S) (p : prog S A) (Q : A -> S -> Prop) (s : S) : Prop :=
  match p with
  | Ret a => Q a s
  | Raise _ | Crash _ => False
  | Step f k => forall s', rely c s s' -> guar c s' (f s') /\ safe c (k s') Q (f s')
  | Await b k => forall s', rely c s s' -> (b s' = false -> waiting c s') /\ (b s' = true -> safe c k Q s')
  end.

Definition triple {S A : Type} (c : contract S) (P : S -> Prop) (p : prog S A) (Q : A -> S -> Prop) : Prop :=
  forall s, P s -> safe c p Q s.

(** ** Rules *)

Section Rules.
Context {S : Type} (c : contract S) `{!Contract c}.
Implicit Types (P : S -> Prop) (s : S).

Lemma safe_mono {A : Type} (p : prog S A) (Q Q' : A -> S -> Prop) s :
  (forall a u, Q a u -> Q' a u) -> safe c p Q s -> safe c p Q' s.
Proof.
  intros HQ. revert s. induction p as [a|e|x|f k IH|b k IH]; intros s H; cbn in *; [by apply HQ|done..| |].
  - intros s' Hr. destruct (H s' Hr). auto.
  - intros s' Hr. destruct (H s' Hr). auto.
Qed.

Lemma safe_bind {A B : Type} (p : prog S A) (k : A -> prog S B) Q s :
  safe c p (fun a => safe c (k a) Q) s -> safe c (p ≫= k) Q s.
Proof.
  unfold mbind, prog_mbind. revert s.
  induction p as [a|e|x|f q IH|b q IH]; intros s H; cbn in *; [done..| |]; intros s' Hr; destruct (H s' Hr); auto.
Qed.

Lemma triple_bind {A B : Type} P (p : prog S A) M (k : A -> prog S B) Q :
  triple c P p M -> (forall a, triple c (M a) (k a) Q) -> triple c P (p ≫= k) Q.
Proof. intros Hp Hk s Hs. apply safe_bind. eapply safe_mono; [|by apply Hp]. intros a u. apply Hk. Qed.

Lemma triple_assoc {A B C : Type} (p : prog S A) (k : A -> prog S B) (k' : B -> prog S C) P Q :
  triple c P (a ← p; b ← k a; k' b) Q -> triple c P (b ← (a ← p; k a); k' b) Q.
Proof.
  intros H s Hs. specialize (H s Hs). clear Hs. revert s H. unfold mbind, prog_mbind.
  induction p as [a|e|x|f q IH|b q IH]; intros s H; cbn in *; [done..| |]; intros s' Hr; destruct (H s' Hr); auto.
Qed.

Lemma triple_assoc_back {A B C : Type} (p : prog S A) (k : A -> prog S B) (k' : B -> prog S C) P Q :
  triple c P (b ← (a ← p; k a); k' b) Q -> triple c P (a ← p; b ← k a; k' b) Q.
Proof.
  intros H s Hs. specialize (H s Hs). clear Hs. revert s H. unfold mbind, prog_mbind.
  induction p as [a|e|x|f q IH|b q IH]; intros s H; cbn in *; [done..| |]; intros s' Hr; destruct (H s' Hr); auto.
Qed.

Lemma triple_conseq {A : Type} P P' (p : prog S A) (Q Q' : A -> S -> Prop) :
  triple c P' p Q' -> (forall s, P s -> P' s) -> (forall a s, Q' a s -> Q a s) -> triple c P p Q.
Proof. intros H HP HQ s Hs. eapply safe_mono; [exact HQ|]. by apply H, HP. Qed.

Lemma triple_ret {A : Type} (a : A) P Q : (forall s, P s -> Q a s) -> triple c P (Ret a) Q.
Proof. intros H s Hs. by apply H. Qed.

(** A part of the precondition that does not depend on the state. *)
Lemma triple_pure {A : Type} (F : Prop) P (p : prog S A) Q :
  (F -> triple c P p Q) -> triple c (fun s => F /\ P s) p Q.
Proof. intros H s [HF HP]. by apply H. Qed.

Lemma triple_exists {X A : Type} (P : X -> S -> Prop) (p : prog S A) Q :
  (forall x, triple c (P x) p Q) -> triple c (fun s => exists x, P x s) p Q.
Proof. intros H s [x Hx]. by eapply H. Qed.

(** Reading: what was read is known of the state at that moment, and of later
    ones as far as it is stable. *)
Lemma triple_fetch {A : Type} (f : S -> option A) P Q :
  stable c P -> (forall s, P s -> exists a, f s = Some a /\ Q a s) -> triple c P (fetch f) Q.
Proof.
  intros HP Hf s Hs s' Hr. destruct (Hf s' (HP s s' Hs Hr)) as (a & E & HQ).
  split; [done|]. by rewrite E.
Qed.

(** Reading a part that the others leave alone. *)
Lemma triple_fetch_const {A B : Type} (f : S -> option A) a (k : A -> prog S B) P Q :
  stable c P -> (forall s, P s -> f s = Some a) -> triple c P (k a) Q -> triple c P (fetch f ≫= k) Q.
Proof.
  intros HP Hf Hk. apply triple_bind with (fun x s => x = a /\ P s).
  - apply triple_fetch; [done|]. intros s Hs. exists a. auto.
  - intros x. apply triple_pure. by intros ->.
Qed.

Lemma triple_update (f : S -> option S) P Q :
  stable c P -> (forall s, P s -> exists s', f s = Some s' /\ guar c s s' /\ Q s') ->
  triple c P (update f) (fun _ => Q).
Proof.
  intros HP Hf s Hs s' Hr. destruct (Hf s' (HP s s' Hs Hr)) as (u & E & HG & HQ). cbn. by rewrite E.
Qed.

Lemma triple_modify (f : S -> S) P Q :
  stable c P -> (forall s, P s -> guar c s (f s) /\ Q (f s)) -> triple c P (modify f) (fun _ => Q).
Proof. intros HP Hf s Hs s' Hr. by apply Hf, (HP s). Qed.

Lemma triple_gets {A : Type} (f : S -> A) P Q : stable c P -> (forall s, P s -> Q (f s) s) -> triple c P (gets f) Q.
Proof. intros HP Hf s Hs s' Hr. split; [done|]. by apply Hf, (HP s). Qed.

Lemma triple_throw_if {B : Type} b e (k : unit -> prog S B) P Q :
  b = false -> triple c P (k tt) Q -> triple c P (throw_if b e ≫= k) Q.
Proof. by intros ->. Qed.

Lemma triple_await {A : Type} (b : S -> bool) (k : prog S A) P M Q :
  stable c P -> (forall s, P s -> b s = false -> waiting c s) -> (forall s, P s -> b s = true -> M s) ->
  triple c M k Q -> triple c P (Await b k) Q.
Proof.
  intros HP Hw HM Hk s Hs s' Hr. pose proof (HP s s' Hs Hr). split; [by auto|]. intros Hb. by apply Hk, HM.
Qed.

Lemma triple_noexcept {A : Type} (p : prog S A) P Q : triple c P p Q -> triple c P (noexcept p) Q.
Proof.
  intros H s Hs. specialize (H s Hs). clear Hs. revert s H.
  induction p as [a|e|x|f k IH|b k IH]; intros s H; cbn in *; [done..| |]; intros s' Hr; destruct (H s' Hr); auto.
Qed.

Lemma safe_for_loop (I : Z -> S -> Prop) n (body : Z -> prog S unit) : forall i s,
  (forall j u, i <= j < i + Z.of_nat n -> I j u -> safe c (body j) (fun _ => I (j + 1)) u) -> I i s ->
  safe c (for_loop n i body) (fun _ => I (i + Z.of_nat n)) s.
Proof.
  induction n as [|n IH]; intros i s Hb Hi; [by rewrite Z.add_0_r|]. cbn [for_loop]. apply safe_bind.
  eapply safe_mono; [|by apply Hb; [lia|]]. intros ? u Hu. rewrite Nat2Z.inj_succ.
  assert (E : i + Z.succ (Z.of_nat n) = i + 1 + Z.of_nat n) by lia. rewrite E.
  apply IH; [|done]. intros j u' Hj. apply Hb. lia.
Qed.

(** A thread's state of knowledge survives the others, and its steps preserve it. *)
Lemma safe_stable {A : Type} (p : prog S A) (Q : A -> S -> Prop) s s' :
  (forall a, stable c (Q a)) -> safe c p Q s -> rely c s s' -> safe c p Q s'.
Proof.
  intros HQ H Hr. destruct p; cbn in *; [by eapply HQ|done..| |]; intros u Hu; apply H; by etransitivity.
Qed.

Lemma safe_step {A : Type} (p : prog S A) Q s p' s' :
  safe c p Q s -> thread_step p s p' s' -> guar c s s' /\ safe c p' Q s'.
Proof.
  intros H Ht. destruct Ht as [f k s|b k s Hb]; [by apply (H s)|]. split; [done|]. by apply (H s).
Qed.

(** A safe thread has finished, can move, or waits. *)
Lemma safe_progress {A : Type} (p : prog S A) Q s :
  safe c p Q s ->
  (exists a, p = Ret a /\ Q a s) \/ (exists p' s', thread_step p s p' s') \/ ((forall a, p <> Ret a) /\ waiting c s).
Proof.
  intros H. destruct p as [a|e|x|f k|b k]; cbn in H; [by eauto|done..| |].
  - right; left. do 2 eexists. constructor.
  - destruct (H s ltac:(done)) as [Hf _], (b s) eqn:Eb.
    + right; left. do 2 eexists. by constructor.
    + right; right. by split; [|apply Hf].
Qed.

(** A program on a part of the state that the others leave alone does what it does
    without them; [J] is what holds of the rest. *)
Lemma safe_zoom {T A : Type} (get : S -> option T) (put : T -> S -> S) (J : S -> Prop) (p : prog T A) (x : T) (a : A) (x' : T) s :
  (forall u u', J u -> rely c u u' -> J u' /\ get u' = get u) ->
  (forall u y z, J u -> get u = Some y -> guar c u (put z u) /\ J (put z u) /\ get (put z u) = Some z) ->
  run p x = Done a x' -> get s = Some x -> J s -> safe c (zoom get put p) (fun b u => b = a /\ J u /\ get u = Some x') s.
Proof.
  intros HJ HG. revert x s. induction p as [b|e|d|f k IH|b k IH]; intros x s E Hx Hs; cbn in *; try done.
  - by injection E as <- <-.
  - intros s' Hr. destruct (HJ s s' Hs Hr) as [Hs' Hg]. rewrite Hx in Hg. rewrite Hg. destruct (HG s' x (f x) Hs' Hg) as (? & ? & ?).
    split; [done|]. by apply (IH x (f x)).
  - intros s' Hr. destruct (HJ s s' Hs Hr) as [Hs' Hg]. rewrite Hx in Hg. rewrite Hg. destruct (b x); [|done]. split; [done|]. intros _. by apply (IH x).
Qed.

End Rules.

(** ** Pools of threads that honour their contracts *)

Section Pools.
Context {S A : Type}.
Implicit Types (cs : nat -> contract S) (Qs : nat -> A -> S -> Prop) (ps : list (prog S A)) (s : S).

(** The thread [i] of a pool of [n] has the contract [cs i] and promises [Qs i]. *)
Record compatible (n : nat) cs Qs : Prop := mkCompatible {
  comp_contract : forall i, (i < n)%nat -> Contract (cs i);
  comp_post : forall i a, (i < n)%nat -> stable (cs i) (Qs i a);
  comp_guar : forall i j s s', (i < n)%nat -> (j < n)%nat -> i <> j -> guar (cs i) s s' -> rely (cs j) s s'
}.

Definition pool_safe cs Qs ps s : Prop := forall i p, ps !! i = Some p -> safe (cs i) p (Qs i) s.

Lemma pool_safe_step cs Qs ps s ps' s' :
  compatible (length ps) cs Qs -> pool_safe cs Qs ps s -> pool_step (ps, s) (ps', s') -> pool_safe cs Qs ps' s'.
Proof.
  intros [Hc HQ Hg] HI Hst. inversion Hst as [? i p p' ? ? Hi Ht]; subst. pose proof (lookup_lt_Some _ _ _ Hi).
  pose proof (Hc i ltac:(done)). destruct (safe_step (cs i) p (Qs i) s p' s' (HI _ _ Hi) Ht) as [HG Hp']. intros j q Eq.
  destruct (decide (i = j)) as [<-|Hij].
  - rewrite list_lookup_insert_eq in Eq by done. by simplify_eq.
  - rewrite list_lookup_insert_ne in Eq by done. pose proof (lookup_lt_Some _ _ _ Eq). pose proof (Hc j ltac:(done)).
    apply safe_stable with s; [done|by auto|by apply HI|]. by apply (Hg i j).
Qed.

Lemma pool_safe_steps cs Qs ps s ps' s' :
  compatible (length ps) cs Qs -> pool_safe cs Qs ps s -> pool_steps (ps, s) (ps', s') -> pool_safe cs Qs ps' s'.
Proof.
  intros Hc HI. set (n := length ps) in Hc.
  intros H. apply (pool_invariant (fun qs u => length qs = n /\ pool_safe cs Qs qs u) ps s ps' s'); [|done|done].
  intros qs u i p p' u' [Hl Hq] Hi Ht. split; [by rewrite length_insert|].
  eapply pool_safe_step; [by rewrite Hl|done|]. by apply pool_act with p.
Qed.

(** Every execution is finite: a step replaces a program by a smaller one. *)
Definition prog_lt (p' p : prog S A) : Prop := exists s s', thread_step p s p' s'.

Lemma prog_lt_wf p : Acc prog_lt p.
Proof.
  induction p as [a|e|x|f k IH|b k IH]; constructor; intros q (s & s' & Ht); inversion Ht; subst; auto.
Qed.

Definition pool_lt ps' ps : Prop := exists i p p', ps !! i = Some p /\ prog_lt p' p /\ ps' = <[i := p']> ps.

Lemma pool_lt_wf ps : Acc pool_lt ps.
Proof.
  induction ps as [|p ps IH]; [constructor; by intros ? (i & ? & ? & ? & _)|].
  revert ps IH. induction (prog_lt_wf p) as [p _ IHp]. intros ps. induction 1 as [ps Hps IHps].
  constructor. intros qs ([|i] & q & q' & E & Hq & ->); cbn in E.
  - injection E as <-. cbn. apply IHp; [done|by constructor].
  - cbn. apply IHps. by exists i, q, q'.
Qed.

Lemma pool_step_wf (st : list (prog S A) * S) : Acc (flip pool_step) st.
Proof.
  destruct st as [ps s]. revert s. induction (pool_lt_wf ps) as [ps _ IH]. intros s. constructor.
  intros [ps' s'] H. inversion H; subst. apply IH. eexists _, _, _. split_and!; [done| |done]. by do 2 eexists.
Qed.

(** A pool that always can move until it has finished reaches its end. *)
Lemma pool_reaches (I F : list (prog S A) -> S -> Prop) ps s :
  (forall qs u qs' u', I qs u -> pool_step (qs, u) (qs', u') -> I qs' u') ->
  (forall qs u, I qs u -> F qs u \/ exists st, pool_step (qs, u) st) ->
  I ps s -> exists ps' s', pool_steps (ps, s) (ps', s') /\ F ps' s'.
Proof.
  intros Hstep Hprog. remember (ps, s) as st eqn:Est. revert ps s Est.
  induction (pool_step_wf st) as [st _ IH]. intros ps s -> HI.
  destruct (Hprog ps s HI) as [HF|[[ps1 s1] H1]]; [by exists ps, s|].
  destruct (IH (ps1, s1) H1 ps1 s1 eq_refl) as (ps' & s' & Hs & HF); [by eapply Hstep|].
  exists ps', s'. split; [by eapply rtc_l|done].
Qed.

End Pools.
