(* ===== verification/Memory.v ===== *)
(** * Memory: the heap, local and global memory slots, and the shared machine

    Models [core/localMemorySlot.hpp] and [core/globalMemorySlot.hpp], and the
    byte-addressed memory their pointers refer to.  Slots are shared objects
    (the code passes [std::shared_ptr]s), so the machine keeps a store of them
    and every reference is an identifier: two channels that hold the same slot
    see each other's updates. *)

From S2P Require Import Prelude.
From Stdlib Require Import ZArith Lia.
From stdpp Require Import base list gmap option.

Local Open Scope Z_scope.
Local Open Scope hicr_scope.

(** ** The heap *)

(** A pointer is null or an offset into an allocation. *)
Inductive ptr : Type :=
| nullptr
| Ptr (block : nat) (off : Z).

#[global] Instance ptr_eq_dec : EqDecision ptr.
Proof. solve_decision. Defined.

Definition ptr_add (p : ptr) (k : Z) : ptr :=
  match p with nullptr => nullptr | Ptr b o => Ptr b (o + k) end.

Definition mem_load (h : gmap nat (list byte)) (p : ptr) (n : Z) : option (list byte) :=
  match p with
  | nullptr => None
  | Ptr b o =>
      l ← h !! b;
      if bool_decide (0 <= o /\ 0 <= n) then read_at (Z.to_nat o) (Z.to_nat n) l else None
  end.

Definition mem_store (h : gmap nat (list byte)) (p : ptr) (bs : list byte) : option (gmap nat (list byte)) :=
  match p with
  | nullptr => None
  | Ptr b o =>
      l ← h !! b;
      if bool_decide (0 <= o)
      then (fun l' => <[b := l']> h) <$> write_at (Z.to_nat o) bs l
      else None
  end.

(** Access to a [size_t] object. *)
Definition load_size (h : gmap nat (list byte)) (p : ptr) : option Z :=
  le_value <$> mem_load h p SIZEOF_SIZE_T.

Definition store_size (h : gmap nat (list byte)) (p : ptr) (v : Z) : option (gmap nat (list byte)) :=
  mem_store h p (le_bytes 8 v).

(** The [n] bytes at [p] and the [k] bytes at [q] do not overlap. *)
Definition disjoint_ranges (p : ptr) (n : Z) (q : ptr) (k : Z) : Prop :=
  match p, q with
  | Ptr b o, Ptr b' o' => b <> b' \/ o + n <= o' \/ o' + k <= o
  | _, _ => True
  end.

(** The [n] bytes at [p] lie inside an allocation. *)
Definition accessible (h : gmap nat (list byte)) (p : ptr) (n : Z) : Prop :=
  is_Some (mem_load h p n).

(** ** Local memory slots ([core/localMemorySlot.hpp]) *)

Module LocalMemorySlot.

(** [_memorySpace] is the identifier of the memory space, if any.  The message
    counters are reached through pointers that always point to the slot's own
    storage, so the two fields hold the counts themselves. *)
Record t : Type := mk {
  _pointer : ptr;
  _size : Z;
  _memorySpace : option nat;
  _messagesRecv : Z;
  _messagesSent : Z
}.

(** The constructor. *)
Definition make (pointer : ptr) (size : Z) (memorySpace : option nat) : t :=
  mk pointer size memorySpace 0 0.

Definition setMessagesRecv (count : Z) (s : t) : t :=
  mk (_pointer s) (_size s) (_memorySpace s) count (_messagesSent s).

Definition setMessagesSent (count : Z) (s : t) : t :=
  mk (_pointer s) (_size s) (_memorySpace s) (_messagesRecv s) count.

Definition increaseMessagesRecv (s : t) : t := setMessagesRecv (_messagesRecv s +w 1) s.

Definition increaseMessagesSent (s : t) : t := setMessagesSent (_messagesSent s +w 1) s.

End LocalMemorySlot.

(** ** Global memory slots ([core/globalMemorySlot.hpp]) *)

Module GlobalMemorySlot.

(** [_sourceLocalMemorySlot] is [None] for a slot that is not local. *)
Record t : Type := mk {
  _globalTag : Z;
  _globalKey : Z;
  _sourceLocalMemorySlot : option nat
}.

Definition setSourceLocalMemorySlot (l : option nat) (g : t) : t :=
  mk (_globalTag g) (_globalKey g) l.

End GlobalMemorySlot.

(** ** The fields of a communication manager ([core/communicationManager.hpp]) *)

Module CommunicationManagerFields.

Record t : Type := mk {
  _globalMemorySlotTagKeyMap : gmap Z (gmap Z nat);
  _globalMemorySlotsToDestroyPerTag : gmap Z (list nat)
}.

Definition empty : t := mk ∅ ∅.

End CommunicationManagerFields.

(** ** The machine: everything the threads of a program share

    [X] is the state a backend adds. *)
Record Machine (X : Type) : Type := mkMachine {
  heap : gmap nat (list byte);
  locals : gmap nat LocalMemorySlot.t;
  globals : gmap nat GlobalMemorySlot.t;
  managers : gmap nat CommunicationManagerFields.t;
  backend : X
}.

Arguments mkMachine {X} _ _ _ _ _.
Arguments heap {X} _.
Arguments locals {X} _.
Arguments globals {X} _.
Arguments managers {X} _.
Arguments backend {X} _.

Section Access.
Context {X : Type}.

Definition set_heap (h : gmap nat (list byte)) (m : Machine X) : Machine X :=
  mkMachine h (locals m) (globals m) (managers m) (backend m).

Definition set_locals (ls : gmap nat LocalMemorySlot.t) (m : Machine X) : Machine X :=
  mkMachine (heap m) ls (globals m) (managers m) (backend m).

Definition set_globals (gs : gmap nat GlobalMemorySlot.t) (m : Machine X) : Machine X :=
  mkMachine (heap m) (locals m) gs (managers m) (backend m).

Definition set_managers (ms : gmap nat CommunicationManagerFields.t) (m : Machine X) : Machine X :=
  mkMachine (heap m) (locals m) (globals m) ms (backend m).

Definition set_backend (b : X) (m : Machine X) : Machine X :=
  mkMachine (heap m) (locals m) (globals m) (managers m) b.

(** Dereferencing a slot pointer; a dangling one is undefined behaviour. *)
Definition local_slot (l : nat) : prog (Machine X) LocalMemorySlot.t :=
  fetch (fun m => locals m !! l).

Definition global_slot (g : nat) : prog (Machine X) GlobalMemorySlot.t :=
  fetch (fun m => globals m !! g).

Definition getPointer (l : nat) : prog (Machine X) ptr :=
  s ← local_slot l; mret (LocalMemorySlot._pointer s).

Definition getSize (l : nat) : prog (Machine X) Z :=
  s ← local_slot l; mret (LocalMemorySlot._size s).

Definition getMessagesRecv (l : nat) : prog (Machine X) Z :=
  s ← local_slot l; mret (LocalMemorySlot._messagesRecv s).

Definition getMessagesSent (l : nat) : prog (Machine X) Z :=
  s ← local_slot l; mret (LocalMemorySlot._messagesSent s).

Definition getSourceLocalMemorySlot (g : nat) : prog (Machine X) (option nat) :=
  s ← global_slot g; mret (GlobalMemorySlot._sourceLocalMemorySlot s).

(** In-place change of a slot's counters. *)
Definition update_local (f : LocalMemorySlot.t -> LocalMemorySlot.t) (l : nat) : prog (Machine X) unit :=
  update (fun m => s ← locals m !! l; Some (set_locals (<[l := f s]> (locals m)) m)).

(** Loads and stores through a pointer. *)
Definition read_size (p : ptr) : prog (Machine X) Z := fetch (fun m => load_size (heap m) p).

Definition write_size (p : ptr) (v : Z) : prog (Machine X) unit :=
  update (fun m => h ← store_size (heap m) p v; Some (set_heap h m)).

Definition read_bytes (p : ptr) (n : Z) : prog (Machine X) (list byte) :=
  fetch (fun m => mem_load (heap m) p n).

(** [std::memcpy]: one atomic step of the model. *)
Definition std_memcpy (dst src : ptr) (n : Z) : prog (Machine X) unit :=
  update (fun m => bs ← mem_load (heap m) src n; h ← mem_store (heap m) dst bs; Some (set_heap h m)).

(** [std::memset]. *)
Definition std_memset (dst : ptr) (value : byte) (n : Z) : prog (Machine X) unit :=
  update (fun m => h ← mem_store (heap m) dst (replicate (Z.to_nat n) value); Some (set_heap h m)).

End Access.

(** ** Machines equal up to message counters

    The counters of a local slot only matter to the backends' fences; channels
    never read them.  [machine_sim] ignores them. *)
Definition slot_sim (s s' : LocalMemorySlot.t) : Prop :=
  LocalMemorySlot._pointer s = LocalMemorySlot._pointer s' /\
  LocalMemorySlot._size s = LocalMemorySlot._size s' /\
  LocalMemorySlot._memorySpace s = LocalMemorySlot._memorySpace s'.

Definition locals_sim (ls ls' : gmap nat LocalMemorySlot.t) : Prop :=
  forall l, option_Forall2 slot_sim (ls !! l) (ls' !! l).

Record machine_sim {X : Type} (m m' : Machine X) : Prop := mkSim {
  sim_heap : heap m = heap m';
  sim_locals : locals_sim (locals m) (locals m');
  sim_globals : globals m = globals m';
  sim_managers : managers m = managers m';
  sim_backend : backend m = backend m'
}.

(** ** Properties of the heap *)

Lemma ptr_add_add (p : ptr) (a b : Z) : ptr_add (ptr_add p a) b = ptr_add p (a + b).
Proof. destruct p; cbn; [done|]. f_equal. lia. Qed.

Lemma ptr_add_0 (p : ptr) : ptr_add p 0 = p.
Proof. destruct p; cbn; [done|]. f_equal. lia. Qed.

Lemma mem_load_length h p n bs : mem_load h p n = Some bs -> Z.of_nat (length bs) = n /\ 0 <= n.
Proof.
  destruct p as [|b o]; cbn; [done|]. destruct (h !! b) as [l|]; cbn; [|done].
  case_bool_decide; [|done]. intros E%read_at_Some. lia.
Qed.

(** A part of a loaded range. *)
Lemma mem_load_sub h p n bs d k :
  mem_load h p n = Some bs -> 0 <= d -> 0 <= k -> d + k <= n ->
  mem_load h (ptr_add p d) k = Some (take (Z.to_nat k) (drop (Z.to_nat d) bs)).
Proof.
  destruct p as [|b o]; cbn; [done|]. destruct (h !! b) as [l|]; cbn; [|done].
  case_bool_decide; [|done]. unfold read_at. case_bool_decide; [|done]. intros [= <-] ???.
  rewrite !bool_decide_true by lia. f_equal.
  rewrite skipn_firstn_comm, take_take, drop_drop. f_equal; [lia|]. f_equal. lia.
Qed.

(** Equal ranges have equal parts. *)
Lemma mem_load_sub_eq h h' p q n bs d k :
  mem_load h p n = Some bs -> mem_load h' q n = Some bs -> 0 <= d -> 0 <= k -> d + k <= n ->
  mem_load h (ptr_add p d) k = mem_load h' (ptr_add q d) k.
Proof. intros. by rewrite (mem_load_sub _ p n bs), (mem_load_sub _ q n bs). Qed.

Lemma accessible_iff h b o n :
  accessible h (Ptr b o) n <-> exists l, h !! b = Some l /\ 0 <= o /\ 0 <= n /\ o + n <= Z.of_nat (length l).
Proof.
  unfold accessible; cbn. destruct (h !! b) as [l|]; cbn.
  - case_bool_decide as Hb.
    + rewrite is_Some_read_at. split; [intros; exists l; repeat split; lia|].
      intros (l' & [= <-] & ?). lia.
    + split; [by intros []|]. intros (l' & [= <-] & ?). lia.
  - split; [by intros []|]. by intros (? & ? & _).
Qed.

Lemma accessible_sub h p n d k :
  accessible h p n -> 0 <= d -> 0 <= k -> d + k <= n -> accessible h (ptr_add p d) k.
Proof.
  destruct p as [|b o]; [by intros []|]. cbn [ptr_add]. rewrite !accessible_iff.
  intros (l & ? & ?) ???. exists l. repeat split; [done|lia..].
Qed.

Lemma accessible_app h p d n k :
  0 <= n -> 0 <= k -> accessible h (ptr_add p d) n -> accessible h (ptr_add p (d + n)) k ->
  accessible h (ptr_add p d) (n + k).
Proof.
  destruct p as [|b o]; [by intros _ _ []|]. cbn [ptr_add]. rewrite !accessible_iff.
  intros ?? (l & E & ?) (l' & E' & ?). rewrite E in E'. injection E' as <-.
  exists l. repeat split; [done|lia..].
Qed.

Lemma mem_store_accessible h p bs :
  accessible h p (Z.of_nat (length bs)) -> exists h', mem_store h p bs = Some h'.
Proof.
  destruct p as [|b o]; [by intros []|]. rewrite accessible_iff. intros (l & E & ?).
  cbn. rewrite E. cbn. rewrite bool_decide_true by lia.
  destruct (write_at_is_Some (Z.to_nat o) bs l) as [l' ->]; [lia|]. cbn. eauto.
Qed.

Lemma mem_store_inv h b o bs h' :
  mem_store h (Ptr b o) bs = Some h' ->
  exists l l', h !! b = Some l /\ 0 <= o /\ write_at (Z.to_nat o) bs l = Some l' /\ h' = <[b := l']> h.
Proof.
  cbn. destruct (h !! b) as [l|]; cbn; [|done]. case_bool_decide; [|done].
  destruct (write_at (Z.to_nat o) bs l) as [l'|] eqn:E; cbn; [|done]. intros [= <-]. eauto 10.
Qed.

Lemma mem_store_accessible_iff h p bs h' q n :
  mem_store h p bs = Some h' -> accessible h' q n <-> accessible h q n.
Proof.
  destruct p as [|b o]; [done|]. intros (l & l' & Hl & ? & E & ->)%mem_store_inv.
  destruct q as [|b' o']; [done|]. rewrite !accessible_iff, lookup_insert.
  case_decide as Hb; [subst|done]. rewrite Hl. pose proof (write_at_length _ _ _ _ E) as HL.
  split; intros (x & [= <-] & ?); eexists; (split; [done|]); lia.
Qed.

Lemma mem_load_store_same h p bs h' :
  mem_store h p bs = Some h' -> mem_load h' p (Z.of_nat (length bs)) = Some bs.
Proof.
  destruct p as [|b o]; [done|]. intros (l & l' & Hl & ? & E & ->)%mem_store_inv.
  cbn. rewrite lookup_insert_eq. cbn. rewrite bool_decide_true by lia.
  rewrite Nat2Z.id. by apply (read_write_same _ _ l).
Qed.

Lemma mem_load_store_disjoint h p bs h' q n :
  mem_store h p bs = Some h' -> disjoint_ranges p (Z.of_nat (length bs)) q n ->
  mem_load h' q n = mem_load h q n.
Proof.
  destruct p as [|b o]; [done|]. intros (l & l' & Hl & ? & E & ->)%mem_store_inv.
  destruct q as [|b' o']; [done|]. cbn. rewrite lookup_insert. intros Hd.
  case_decide as Hb; [subst b'|done]. rewrite Hl. cbn. case_bool_decide; [|done].
  apply (read_write_disjoint _ _ _ _ _ _ E). lia.
Qed.

Lemma disjoint_ranges_sym p n q k : disjoint_ranges p n q k -> disjoint_ranges q k p n.
Proof. destruct p, q; cbn; try done. intros [H|[H|H]]; [left; congruence|lia..]. Qed.

Lemma disjoint_ranges_sub p n q k d n' e k' :
  disjoint_ranges p n q k -> 0 <= d -> d + n' <= n -> 0 <= e -> e + k' <= k ->
  disjoint_ranges (ptr_add p d) n' (ptr_add q e) k'.
Proof. destruct p, q; cbn; try done. lia. Qed.

Lemma disjoint_ranges_sub_l p n q k d n' :
  disjoint_ranges p n q k -> 0 <= d -> d + n' <= n -> disjoint_ranges (ptr_add p d) n' q k.
Proof. destruct p, q; cbn; try done. lia. Qed.

Lemma disjoint_ranges_sub_r p n q k e k' :
  disjoint_ranges p n q k -> 0 <= e -> e + k' <= k -> disjoint_ranges p n (ptr_add q e) k'.
Proof. destruct p, q; cbn; try done. lia. Qed.

Lemma disjoint_ranges_same p d n e k :
  d + n <= e \/ e + k <= d -> disjoint_ranges (ptr_add p d) n (ptr_add p e) k.
Proof. destruct p; cbn; [done|]. lia. Qed.

(** ** Loading what was stored *)

Lemma load_size_store h p v h' :
  is_size v -> store_size h p v = Some h' -> load_size h' p = Some v.
Proof.
  intros Hv E. unfold load_size. pose proof (mem_load_store_same _ _ _ _ E) as L.
  rewrite length_le_bytes in L. change (Z.of_nat 8) with SIZEOF_SIZE_T in L.
  rewrite L. cbn -[le_bytes le_value]. by rewrite le_value_size.
Qed.

Lemma load_size_store_disjoint h p bs h' q :
  mem_store h p bs = Some h' -> disjoint_ranges p (Z.of_nat (length bs)) q 8 ->
  load_size h' q = load_size h q.
Proof. intros E Hd. unfold load_size, SIZEOF_SIZE_T. by rewrite (mem_load_store_disjoint _ _ _ _ _ _ E Hd). Qed.

Lemma load_size_is_size h p v : load_size h p = Some v -> is_size v.
Proof.
  unfold load_size. destruct (mem_load h p SIZEOF_SIZE_T) as [bs|] eqn:E; cbn; [|done].
  intros [= <-]. apply mem_load_length in E. apply le_value_is_size. size_lia.
Qed.

Lemma load_size_accessible h p v : load_size h p = Some v -> accessible h p 8.
Proof. unfold load_size, accessible, SIZEOF_SIZE_T. destruct (mem_load h p 8); [eauto|done]. Qed.

Lemma accessible_load_size h p : accessible h p 8 -> exists v, load_size h p = Some v.
Proof. intros [bs E]. unfold load_size, SIZEOF_SIZE_T. rewrite E. cbn. eauto. Qed.

(** ** Simulation up to counters *)

Lemma slot_sim_refl s : slot_sim s s.
Proof. done. Qed.

#[global] Instance slot_sim_equiv : Equivalence slot_sim.
Proof.
  split; [done|..].
  - intros x y (?&?&?). by split_and!.
  - intros x y z (?&?&?) (?&?&?). split_and!; by etransitivity.
Qed.

#[global] Instance locals_sim_equiv : Equivalence locals_sim.
Proof.
  split.
  - intros ls l. destruct (ls !! l); by constructor.
  - intros x y H l. symmetry. apply H.
  - intros x y z H1 H2 l. etransitivity; [apply H1 | apply H2].
Qed.

#[global] Instance machine_sim_equiv {X : Type} : Equivalence (@machine_sim X).
Proof.
  split.
  - done.
  - intros x y []. by split.
  - intros x y z [] []. split; try congruence. by etransitivity.
Qed.

Lemma locals_sim_insert ls l s s' :
  ls !! l = Some s -> slot_sim s s' -> locals_sim ls (<[l := s']> ls).
Proof.
  intros E Hs k. rewrite lookup_insert. case_decide as Hk; [subst; rewrite E; by constructor|].
  destruct (ls !! k); by constructor.
Qed.

Lemma locals_sim_lookup ls ls' l s :
  locals_sim ls ls' -> ls !! l = Some s -> exists s', ls' !! l = Some s' /\ slot_sim s s'.
Proof. intros H E. specialize (H l). rewrite E in H. inversion H; subst. eauto. Qed.
