(* ===== verification/CommunicationManager.v ===== *)
(** * The communication manager and the interface of its backends

    Models the base class [HiCR::CommunicationManager] of
    [core/communicationManager.hpp]: its non-virtual operations are definitions
    of this file, and its virtual ones are the fields of the class
    [CommBackend].  [CommSpec] states what a channel relies on; every backend
    discharges it, and the channels' theorems are proved against it. *)

From S2P Require Import Prelude Memory.
From Stdlib Require Import ZArith Lia.
From stdpp Require Import base list gmap option relations.

Local Open Scope Z_scope.
Local Open Scope hicr_scope.

(** The virtual operations.  The first argument of each is the manager
    ([this]); [memcpyImplGL] writes to a global slot, [memcpyImplLG] reads from
    one.  [locked], [lock_slot] and [unlock_slot] describe the lock that the
    backend attaches to a global slot ([locked b g = None]: the slot is of
    another backend and has no lock here). *)
Class CommBackend (X : Type) : Type := {
  getGlobalMemorySlotImpl : nat -> Z -> Z -> prog (Machine X) (option nat);
  exchangeGlobalMemorySlotsImpl : nat -> Z -> list (Z * nat) -> prog (Machine X) unit;
  queryMemorySlotUpdatesImpl : nat -> nat -> prog (Machine X) unit;
  deregisterGlobalMemorySlotImpl : nat -> nat -> prog (Machine X) unit;
  memcpyImplLL : nat -> nat -> Z -> nat -> Z -> Z -> prog (Machine X) unit;
  memcpyImplGL : nat -> nat -> Z -> nat -> Z -> Z -> prog (Machine X) unit;
  memcpyImplLG : nat -> nat -> Z -> nat -> Z -> Z -> prog (Machine X) unit;
  fenceImplTag : nat -> Z -> prog (Machine X) unit;
  fenceImplLocal : nat -> nat -> Z -> Z -> prog (Machine X) unit;
  fenceImplGlobal : nat -> nat -> Z -> Z -> prog (Machine X) unit;
  acquireGlobalLockImpl : nat -> nat -> prog (Machine X) bool;
  releaseGlobalLockImpl : nat -> nat -> prog (Machine X) unit;
  flushSent : nat -> prog (Machine X) unit;
  flushReceived : nat -> prog (Machine X) unit;
  locked : X -> nat -> option bool;
  lock_slot : nat -> X -> X;
  unlock_slot : nat -> X -> X
}.

Module CommunicationManager.
Section Base.
Context {X : Type}.

(** The fields of the manager [this]. *)
Definition fields (this : nat) : prog (Machine X) CommunicationManagerFields.t :=
  fetch (fun m => managers m !! this).

Definition set_fields (this : nat) (f : CommunicationManagerFields.t -> CommunicationManagerFields.t) :
    prog (Machine X) unit :=
  update (fun m => c ← managers m !! this; Some (set_managers (<[this := f c]> (managers m)) m)).

Definition with_tag_key_map (tkm : gmap Z (gmap Z nat)) (c : CommunicationManagerFields.t) :
    CommunicationManagerFields.t :=
  CommunicationManagerFields.mk tkm (CommunicationManagerFields._globalMemorySlotsToDestroyPerTag c).

Definition with_to_destroy (d : gmap Z (list nat)) (c : CommunicationManagerFields.t) :
    CommunicationManagerFields.t :=
  CommunicationManagerFields.mk (CommunicationManagerFields._globalMemorySlotTagKeyMap c) d.

(** [_globalMemorySlotTagKeyMap[tag][globalKey] = memorySlot]: both entries are
    created when missing. *)
Definition registerGlobalMemorySlot (this : nat) (memorySlot : nat) : prog (Machine X) unit :=
  g ← global_slot memorySlot;
  let tag := GlobalMemorySlot._globalTag g in
  let globalKey := GlobalMemorySlot._globalKey g in
  set_fields this (fun c =>
    let tkm := CommunicationManagerFields._globalMemorySlotTagKeyMap c in
    with_tag_key_map (<[tag := <[globalKey := memorySlot]> (default ∅ (tkm !! tag))]> tkm) c).

Definition setGlobalMemorySlotTagKeyMap (this : nat) (tkm : gmap Z (gmap Z nat)) : prog (Machine X) unit :=
  set_fields this (with_tag_key_map tkm).

(** Marks a slot for destruction at the next fence on its tag. *)
Definition destroyGlobalMemorySlot (this : nat) (memorySlot : nat) : prog (Machine X) unit :=
  g ← global_slot memorySlot;
  let tag := GlobalMemorySlot._globalTag g in
  set_fields this (fun c =>
    let d := CommunicationManagerFields._globalMemorySlotsToDestroyPerTag c in
    with_to_destroy (<[tag := default [] (d !! tag) ++ [memorySlot]]> d) c).

(** The default implementations of the optional virtual operations. *)
Definition serializeGlobalMemorySlot (this : nat) (globalSlot : option nat) : prog (Machine X) (list byte) :=
  Raise logic.

Definition deserializeGlobalMemorySlot (this : nat) (buffer : list byte) (tag : Z) : prog (Machine X) nat :=
  Raise logic.

Definition promoteLocalMemorySlot (this : nat) (localMemorySlot : option nat) (tag : Z) : prog (Machine X) nat :=
  Raise logic.

Definition destroyPromotedGlobalMemorySlot (this : nat) (memorySlot : nat) : prog (Machine X) unit :=
  Raise logic.

(** Local-to-local copy, over the backend's implementation [impl]. *)
Definition memcpyLL_with (impl : nat -> nat -> Z -> nat -> Z -> Z -> prog (Machine X) unit)
    (this destination : nat) (dst_offset : Z) (source : nat) (src_offset size : Z) : prog (Machine X) unit :=
  srcSize ← getSize source;
  dstSize ← getSize destination;
  let actualSrcSize := size +w src_offset in
  let actualDstSize := size +w dst_offset in
  _ ← throw_if (actualSrcSize >? srcSize) runtime;
  _ ← throw_if (actualDstSize >? dstSize) runtime;
  impl this destination dst_offset source src_offset size.

End Base.

Section Virtual.
Context {X : Type} {B : CommBackend X}.

Definition exchangeGlobalMemorySlots (this : nat) (tag : Z) (memorySlots : list (Z * nat)) : prog (Machine X) unit :=
  exchangeGlobalMemorySlotsImpl this tag memorySlots.

Definition getGlobalMemorySlot (this : nat) (tag globalKey : Z) : prog (Machine X) nat :=
  globalSlotImpl ← getGlobalMemorySlotImpl this tag globalKey;
  match globalSlotImpl with
  | Some g => mret g
  | None =>
      c ← fields this;
      match CommunicationManagerFields._globalMemorySlotTagKeyMap c !! tag with
      | None => Raise logic
      | Some keyMap =>
          match keyMap !! globalKey with
          | None => Raise logic
          | Some value => mret value
          end
      end
  end.

Definition deregisterGlobalMemorySlot (this : nat) (memorySlot : nat) : prog (Machine X) unit :=
  g ← global_slot memorySlot;
  let tag := GlobalMemorySlot._globalTag g in
  let globalKey := GlobalMemorySlot._globalKey g in
  c ← fields this;
  match CommunicationManagerFields._globalMemorySlotTagKeyMap c !! tag with
  | None => Raise logic
  | Some keyMap =>
      _ ← set_fields this (fun c =>
            with_tag_key_map
              (<[tag := delete globalKey keyMap]> (CommunicationManagerFields._globalMemorySlotTagKeyMap c)) c);
      deregisterGlobalMemorySlotImpl this memorySlot
  end.

Definition queryMemorySlotUpdates (this : nat) (memorySlot : nat) : prog (Machine X) unit :=
  queryMemorySlotUpdatesImpl this memorySlot.

Definition memcpyLL (this destination : nat) (dst_offset : Z) (source : nat) (src_offset size : Z) :
    prog (Machine X) unit :=
  memcpyLL_with memcpyImplLL this destination dst_offset source src_offset size.

(** Local-to-global copy: only the source is checked. *)
Definition memcpyGL (this destination : nat) (dst_offset : Z) (source : nat) (src_offset size : Z) :
    prog (Machine X) unit :=
  srcSize ← getSize source;
  let actualSrcSize := size +w src_offset in
  _ ← throw_if (actualSrcSize >? srcSize) runtime;
  memcpyImplGL this destination dst_offset source src_offset size.

(** Global-to-local copy: only the destination is checked. *)
Definition memcpyLG (this destination : nat) (dst_offset : Z) (source : nat) (src_offset size : Z) :
    prog (Machine X) unit :=
  dstSize ← getSize destination;
  let actualDstSize := size +w dst_offset in
  _ ← throw_if (actualDstSize >? dstSize) runtime;
  memcpyImplLG this destination dst_offset source src_offset size.

(** The collective fence: the slots marked for destruction are then forgotten. *)
Definition fence (this : nat) (tag : Z) : prog (Machine X) unit :=
  _ ← fenceImplTag this tag;
  set_fields this (fun c =>
    with_to_destroy (delete tag (CommunicationManagerFields._globalMemorySlotsToDestroyPerTag c)) c).

Definition fenceLocal (this slot : nat) (expectedSent expectedRecvd : Z) : prog (Machine X) unit :=
  fenceImplLocal this slot expectedSent expectedRecvd.

Definition fenceGlobal (this slot : nat) (expectedSent expectedRecvd : Z) : prog (Machine X) unit :=
  fenceImplGlobal this slot expectedSent expectedRecvd.

(** The tag/key pair of the slot must be registered with this manager. *)
Definition checkRegistered (this memorySlot : nat) : prog (Machine X) unit :=
  g ← global_slot memorySlot;
  c ← fields this;
  match CommunicationManagerFields._globalMemorySlotTagKeyMap c !! GlobalMemorySlot._globalTag g with
  | None => Raise logic
  | Some keyMap =>
      match keyMap !! GlobalMemorySlot._globalKey g with
      | None => Raise logic
      | Some _ => mret tt
      end
  end.

Definition acquireGlobalLock (this memorySlot : nat) : prog (Machine X) bool :=
  _ ← checkRegistered this memorySlot;
  acquireGlobalLockImpl this memorySlot.

Definition releaseGlobalLock (this memorySlot : nat) : prog (Machine X) unit :=
  _ ← checkRegistered this memorySlot;
  releaseGlobalLockImpl this memorySlot.

End Virtual.
End CommunicationManager.

(** ** What a channel relies on

    A copy between slots moves the bytes and changes nothing else that a
    channel reads; slot fences, queries and flushes do nothing a channel can
    observe; a slot lock is taken when it is free and refused when it is held. *)

(** The slot [l] of [m] has pointer [p] and size [n]. *)
Definition slot_at {X : Type} (m : Machine X) (l : nat) (p : ptr) (n : Z) : Prop :=
  exists s, locals m !! l = Some s /\ LocalMemorySlot._pointer s = p /\ LocalMemorySlot._size s = n.

(** The global slot [g] of [m] is backed by the local slot [l]. *)
Definition backed_by {X : Type} (m : Machine X) (g l : nat) : Prop :=
  exists s, globals m !! g = Some s /\ GlobalMemorySlot._sourceLocalMemorySlot s = Some l.

(** The global slot [g] is registered with the manager [this]. *)
Definition registered {X : Type} (m : Machine X) (this g : nat) : Prop :=
  exists s c km g', globals m !! g = Some s /\ managers m !! this = Some c /\
    CommunicationManagerFields._globalMemorySlotTagKeyMap c !! GlobalMemorySlot._globalTag s = Some km /\
    km !! GlobalMemorySlot._globalKey s = Some g'.

(** [m'] is [m] after the bytes [bs] have been stored at [p], up to counters. *)
Definition stored {X : Type} (m : Machine X) (p : ptr) (bs : list byte) (m' : Machine X) : Prop :=
  exists h, mem_store (heap m) p bs = Some h /\ machine_sim (set_heap h m) m'.

Class CommSpec (X : Type) {B : CommBackend X} : Prop := {
  memcpyImplLL_ok : forall this d dO s sO n (m : Machine X) dp ds sp ss bs,
    slot_at m d dp ds -> slot_at m s sp ss ->
    mem_load (heap m) (ptr_add sp sO) n = Some bs -> accessible (heap m) (ptr_add dp dO) n ->
    exists m', run (memcpyImplLL this d dO s sO n) m = Done tt m' /\ stored m (ptr_add dp dO) bs m';
  memcpyImplGL_ok : forall this g d dO s sO n (m : Machine X) dp ds sp ss bs,
    backed_by m g d -> slot_at m d dp ds -> slot_at m s sp ss ->
    is_size (n + dO) -> n + dO <= ds -> is_size (n + sO) -> n + sO <= ss ->
    mem_load (heap m) (ptr_add sp sO) n = Some bs -> accessible (heap m) (ptr_add dp dO) n ->
    exists m', run (memcpyImplGL this g dO s sO n) m = Done tt m' /\ stored m (ptr_add dp dO) bs m';
  memcpyImplLG_ok : forall this d dO g s sO n (m : Machine X) dp ds sp ss bs,
    backed_by m g s -> slot_at m d dp ds -> slot_at m s sp ss ->
    is_size (n + dO) -> n + dO <= ds -> is_size (n + sO) -> n + sO <= ss ->
    mem_load (heap m) (ptr_add sp sO) n = Some bs -> accessible (heap m) (ptr_add dp dO) n ->
    exists m', run (memcpyImplLG this d dO g sO n) m = Done tt m' /\ stored m (ptr_add dp dO) bs m';
  fenceImplLocal_ok : forall this l a b (m : Machine X), run (fenceImplLocal this l a b) m = Done tt m;
  queryMemorySlotUpdatesImpl_ok : forall this l (m : Machine X),
    run (queryMemorySlotUpdatesImpl this l) m = Done tt m;
  flushReceived_ok : forall this (m : Machine X), run (flushReceived this) m = Done tt m;
  acquire_free : forall this g (m : Machine X),
    locked (backend m) g = Some false ->
    run (acquireGlobalLockImpl this g) m = Done true (set_backend (lock_slot g (backend m)) m);
  acquire_held : forall this g (m : Machine X),
    locked (backend m) g = Some true ->
    run (acquireGlobalLockImpl this g) m = Done false m;
  release_held : forall this g (m : Machine X),
    locked (backend m) g = Some true ->
    run (releaseGlobalLockImpl this g) m = Done tt (set_backend (unlock_slot g (backend m)) m);
  lock_slot_locked : forall g (b : X), locked (lock_slot g b) g = Some true;
  unlock_lock : forall g (b : X), locked b g = Some false -> unlock_slot g (lock_slot g b) = b
}.

(** ** The observations respect the counter-blind equivalence *)

#[global] Instance slot_at_proper {X : Type} :
  Proper (machine_sim ==> eq ==> eq ==> eq ==> iff) (@slot_at X).
Proof.
  intros m m' Hm l l' <- p p' <- n n' <-.
  assert (aux : forall a b : Machine X, machine_sim a b -> slot_at a l p n -> slot_at b l p n).
  { intros a b Hab (s & E & <- & <-).
    destruct (locals_sim_lookup _ _ _ _ (sim_locals _ _ Hab) E) as (s' & E' & Hp & Hn & _).
    exists s'. by rewrite Hp, Hn. }
  split; apply aux; [done|by symmetry].
Qed.

#[global] Instance backed_by_proper {X : Type} :
  Proper (machine_sim ==> eq ==> eq ==> iff) (@backed_by X).
Proof. intros m m' Hm g g' <- l l' <-. unfold backed_by. by rewrite (sim_globals _ _ Hm). Qed.

#[global] Instance registered_proper {X : Type} :
  Proper (machine_sim ==> eq ==> eq ==> iff) (@registered X).
Proof.
  intros m m' Hm t t' <- g g' <-. unfold registered.
  by rewrite (sim_globals _ _ Hm), (sim_managers _ _ Hm).
Qed.

Section StoredFacts.
Context {X : Type}.
Implicit Types m : Machine X.

Lemma stored_slot_at m p bs m' l q n : stored m p bs m' -> slot_at m' l q n <-> slot_at m l q n.
Proof. intros (h & _ & Hs). by rewrite <- Hs. Qed.

Lemma stored_backed_by m p bs m' g l : stored m p bs m' -> backed_by m' g l <-> backed_by m g l.
Proof. intros (h & _ & Hs). by rewrite <- Hs. Qed.

Lemma stored_registered m p bs m' t g : stored m p bs m' -> registered m' t g <-> registered m t g.
Proof. intros (h & _ & Hs). by rewrite <- Hs. Qed.

Lemma stored_heap m p bs m' : stored m p bs m' -> mem_store (heap m) p bs = Some (heap m').
Proof. intros (h & E & Hs). by rewrite <- (sim_heap _ _ Hs). Qed.

Lemma stored_accessible m p bs m' q n :
  stored m p bs m' -> accessible (heap m') q n <-> accessible (heap m) q n.
Proof. intros H%stored_heap. by eapply mem_store_accessible_iff. Qed.

Lemma stored_backend m p bs m' : stored m p bs m' -> backend m' = backend m.
Proof. intros (h & _ & Hs). by rewrite <- (sim_backend _ _ Hs). Qed.

Lemma stored_same m p bs m' : stored m p bs m' -> mem_load (heap m') p (Z.of_nat (length bs)) = Some bs.
Proof. intros H%stored_heap. by eapply mem_load_store_same. Qed.

Lemma stored_disjoint m p bs m' q n :
  stored m p bs m' -> disjoint_ranges p (Z.of_nat (length bs)) q n ->
  mem_load (heap m') q n = mem_load (heap m) q n.
Proof. intros H%stored_heap. by eapply mem_load_store_disjoint. Qed.

Lemma stored_globals m p bs m' : stored m p bs m' -> globals m' = globals m.
Proof. intros (h & _ & Hs). by rewrite <- (sim_globals _ _ Hs). Qed.

End StoredFacts.

(** ** Sequences of stores, and where they write

    A footprint is a list of ranges (pointer and size).  [writes R m m']: [m']
    is reached from [m] by stores inside the ranges of [R]. *)
Definition within (p : ptr) (n : Z) (r : ptr * Z) : Prop :=
  exists d, p = ptr_add r.1 d /\ 0 <= d /\ d + n <= r.2.

Definition writes {X : Type} (R : list (ptr * Z)) : relation (Machine X) :=
  rtc (fun a b => exists p bs r, stored a p bs b /\ r ∈ R /\ within p (Z.of_nat (length bs)) r).

(** The [k] bytes at [q] are outside the footprint. *)
Definition apart (R : list (ptr * Z)) (q : ptr) (k : Z) : Prop :=
  Forall (fun r => disjoint_ranges r.1 r.2 q k) R.

(** The ranges of a list do not overlap each other. *)
Fixpoint all_apart (R : list (ptr * Z)) : Prop :=
  match R with
  | [] => True
  | r :: R' => apart R' r.1 r.2 /\ all_apart R'
  end.

Section WritesFacts.
Context {X : Type}.
Implicit Types (m : Machine X) (R : list (ptr * Z)).

Lemma writes_refl R m : writes R m m.
Proof. apply rtc_refl. Qed.

Lemma writes_stored R m q d bs m' k :
  stored m (ptr_add q d) bs m' -> (q, k) ∈ R -> 0 <= d -> d + Z.of_nat (length bs) <= k -> writes R m m'.
Proof. intros. apply rtc_once. eexists _, _, (q, k). split_and!; [done..|]. by exists d. Qed.

Lemma writes_trans R m1 m2 m3 : writes R m1 m2 -> writes R m2 m3 -> writes R m1 m3.
Proof. intros H1 H2. by etransitivity. Qed.

Lemma writes_mono R R' m m' : writes R m m' -> R ⊆ R' -> writes R' m m'.
Proof.
  intros W HR. revert W. apply rtc_subrel. intros a b (p & bs & r & ? & ? & ?). exists p, bs, r. auto.
Qed.

(** What every store keeps, a sequence of stores keeps. *)
Lemma writes_ind_iff (P : Machine X -> Prop) R m m' :
  (forall a p bs b, stored a p bs b -> P b <-> P a) -> writes R m m' -> P m' <-> P m.
Proof.
  intros HP. induction 1 as [|a b c (p & bs & r & St & _) _ IH]; [done|]. by rewrite IH, (HP _ _ _ _ St).
Qed.

Lemma writes_slot_at R m m' l q n : writes R m m' -> slot_at m' l q n <-> slot_at m l q n.
Proof. apply (writes_ind_iff (fun m => slot_at m l q n)). intros *. apply stored_slot_at. Qed.

Lemma writes_backed_by R m m' g l : writes R m m' -> backed_by m' g l <-> backed_by m g l.
Proof. apply (writes_ind_iff (fun m => backed_by m g l)). intros *. apply stored_backed_by. Qed.

Lemma writes_registered R m m' t g : writes R m m' -> registered m' t g <-> registered m t g.
Proof. apply (writes_ind_iff (fun m => registered m t g)). intros *. apply stored_registered. Qed.

Lemma writes_accessible R m m' q n : writes R m m' -> accessible (heap m') q n <-> accessible (heap m) q n.
Proof. apply (writes_ind_iff (fun m => accessible (heap m) q n)). intros *. apply stored_accessible. Qed.

Lemma writes_backend R m m' : writes R m m' -> backend m' = backend m.
Proof.
  induction 1 as [|a b c (p & bs & r & St & _) _ IH]; [done|]. by rewrite IH, (stored_backend _ _ _ _ St).
Qed.

Lemma writes_globals R m m' : writes R m m' -> globals m' = globals m.
Proof.
  induction 1 as [|a b c (p & bs & r & St & _) _ IH]; [done|]. by rewrite IH, (stored_globals _ _ _ _ St).
Qed.

(** The bytes outside the footprint are kept. *)
Lemma writes_load R m m' q k :
  writes R m m' -> apart R q k -> mem_load (heap m') q k = mem_load (heap m) q k.
Proof.
  intros W Hap. induction W as [|a b c (p & bs & r & St & Hr & d & -> & ? & ?) _ IH]; [done|].
  rewrite IH. apply (stored_disjoint _ _ _ _ _ _ St).
  eapply disjoint_ranges_sub_l; [|done|done]. eapply Forall_forall in Hap; [exact Hap|done].
Qed.

Lemma stored_set_backend b m p bs m' :
  stored m p bs m' -> stored (set_backend b m) p bs (set_backend b m').
Proof. intros (h & E & [? ? ? ? ?]). exists h. split; [exact E|]. by split. Qed.

Lemma writes_set_backend b R m m' : writes R m m' -> writes R (set_backend b m) (set_backend b m').
Proof.
  induction 1 as [|x y z (p & bs & r & St & ? & ?) _ IH]; [apply rtc_refl|].
  eapply rtc_l; [|exact IH]. exists p, bs, r. by split_and!; [apply stored_set_backend|..].
Qed.

Lemma set_backend_id m : set_backend (backend m) m = m.
Proof. by destruct m. Qed.

Lemma set_backend_back b m : set_backend (backend m) (set_backend b m) = m.
Proof. by destruct m. Qed.

Lemma apart_sub R q k d n : apart R q k -> 0 <= d -> d + n <= k -> apart R (ptr_add q d) n.
Proof. intros H ??. eapply Forall_impl; [exact H|]. intros r Hr.
  eapply disjoint_ranges_sub_r; [exact Hr|lia..].
Qed.

Lemma apart_nil q k : apart [] q k.
Proof. by apply Forall_nil_2. Qed.

Lemma apart_cons p n R q k : disjoint_ranges p n q k -> apart R q k -> apart ((p, n) :: R) q k.
Proof. intros. by apply Forall_cons_2. Qed.

Lemma apart_cons_sym p n R q k : disjoint_ranges q k p n -> apart R q k -> apart ((p, n) :: R) q k.
Proof. intros H%disjoint_ranges_sym ?. by apply Forall_cons_2. Qed.

Lemma apart_mono R R' q k : R ⊆ R' -> apart R' q k -> apart R q k.
Proof. unfold apart. rewrite !Forall_forall. auto. Qed.

Lemma footprint_nil R : [] ⊆ R.
Proof. by intros ? []%not_elem_of_nil. Qed.

Lemma footprint_cons r R R' : r ∈ R' -> R ⊆ R' -> r :: R ⊆ R'.
Proof. intros Hr HR x [->|Hx]%elem_of_cons; auto. Qed.

Lemma footprint_here r R : r ∈ r :: R.
Proof. by apply elem_of_cons; left. Qed.

Lemma footprint_there r r' R : r ∈ R -> r ∈ r' :: R.
Proof. intros. by apply elem_of_cons; right. Qed.

End WritesFacts.

#[export] Hint Resolve apart_nil apart_cons apart_cons_sym writes_trans writes_refl : hicr.
#[export] Hint Resolve footprint_nil footprint_cons footprint_here footprint_there : hicr.

(** The pairwise facts of an [all_apart] hypothesis, as hypotheses. *)
Ltac apart_row H :=
  lazymatch type of H with
  | Forall _ (_ :: _) =>
      let D := fresh "D" in
      pose proof (Forall_inv H) as D; cbn [fst snd] in D; apply Forall_inv_tail in H; apart_row H
  | _ => clear H
  end.

Ltac apart_facts H :=
  hnf in H;
  lazymatch type of H with
  | _ /\ _ =>
      let H1 := fresh "D" in let H2 := fresh "D" in
      destruct H as [H1 H2]; unfold apart in H1; apart_row H1; apart_facts H2
  | _ => clear H
  end.

(** [writes_by W1 ... Wn] chains sequences of stores into a larger footprint. *)
Ltac writes_one W := apply (writes_mono _ _ _ _ W); by auto 20 with hicr.

Tactic Notation "writes_by" constr(W1) := writes_one W1.
Tactic Notation "writes_by" constr(W1) constr(W2) := eapply writes_trans; [writes_one W1|writes_by W2].
Tactic Notation "writes_by" constr(W1) constr(W2) constr(W3) :=
  eapply writes_trans; [writes_one W1|writes_by W2 W3].
Tactic Notation "writes_by" constr(W1) constr(W2) constr(W3) constr(W4) :=
  eapply writes_trans; [writes_one W1|writes_by W2 W3 W4].

(** ** The checked copies *)

Section Copies.
Context {X : Type} {B : CommBackend X} `{!CommSpec X}.
Implicit Types m : Machine X.
Import CommunicationManager.

Lemma run_local_slot m l s : locals m !! l = Some s -> run (local_slot l) m = Done s m.
Proof. apply (run_fetch (fun m => locals m !! l)). Qed.

Lemma run_global_slot m g s : globals m !! g = Some s -> run (global_slot g) m = Done s m.
Proof. apply (run_fetch (fun m => globals m !! g)). Qed.

Lemma run_fields m this c : managers m !! this = Some c -> run (fields this) m = Done c m.
Proof. apply (run_fetch (fun m => managers m !! this)). Qed.

Lemma run_getSize m l p n : slot_at m l p n -> run (getSize l) m = Done n m.
Proof.
  intros (s & E & _ & <-). unfold getSize.
  by rewrite (run_bind_Done _ _ _ _ _ (run_local_slot _ _ _ E)).
Qed.

Lemma run_getPointer m l p n : slot_at m l p n -> run (getPointer l) m = Done p m.
Proof.
  intros (s & E & <- & _). unfold getPointer.
  by rewrite (run_bind_Done _ _ _ _ _ (run_local_slot _ _ _ E)).
Qed.

Lemma run_getSource m g l :
  backed_by m g l -> run (getSourceLocalMemorySlot g) m = Done (Some l) m.
Proof.
  intros (s & E & <-). unfold getSourceLocalMemorySlot.
  by rewrite (run_bind_Done _ _ _ _ _ (run_global_slot _ _ _ E)).
Qed.

Lemma gtb_wrap_false n o s : is_size (n + o) -> n + o <= s -> (n +w o >? s) = false.
Proof. intros. rewrite wrap64_small by done. case_bool; lia. Qed.

Lemma run_memcpyLL_ok this d dO s sO n m dp ds sp ss bs :
  slot_at m d dp ds -> slot_at m s sp ss ->
  is_size (n + dO) -> n + dO <= ds -> is_size (n + sO) -> n + sO <= ss ->
  mem_load (heap m) (ptr_add sp sO) n = Some bs -> accessible (heap m) (ptr_add dp dO) n ->
  exists m', run (memcpyLL this d dO s sO n) m = Done tt m' /\ stored m (ptr_add dp dO) bs m'.
Proof.
  intros Hd Hs ???? HL HA. unfold memcpyLL, memcpyLL_with.
  rewrite (run_bind_Done _ _ _ _ _ (run_getSize _ _ _ _ Hs)).
  rewrite (run_bind_Done _ _ _ _ _ (run_getSize _ _ _ _ Hd)). cbv zeta.
  do 2 (erewrite run_bind_Done by (by apply run_throw_if_false, gtb_wrap_false)).
  by eapply memcpyImplLL_ok.
Qed.

Lemma run_memcpyGL_ok this g d dO s sO n m dp ds sp ss bs :
  backed_by m g d -> slot_at m d dp ds -> slot_at m s sp ss ->
  is_size (n + dO) -> n + dO <= ds -> is_size (n + sO) -> n + sO <= ss ->
  mem_load (heap m) (ptr_add sp sO) n = Some bs -> accessible (heap m) (ptr_add dp dO) n ->
  exists m', run (memcpyGL this g dO s sO n) m = Done tt m' /\ stored m (ptr_add dp dO) bs m'.
Proof.
  intros Hb Hd Hs ???? HL HA. unfold memcpyGL.
  rewrite (run_bind_Done _ _ _ _ _ (run_getSize _ _ _ _ Hs)). cbv zeta.
  erewrite run_bind_Done by (by apply run_throw_if_false, gtb_wrap_false).
  by eapply memcpyImplGL_ok.
Qed.

Lemma run_memcpyLG_ok this d dO g s sO n m dp ds sp ss bs :
  backed_by m g s -> slot_at m d dp ds -> slot_at m s sp ss ->
  is_size (n + dO) -> n + dO <= ds -> is_size (n + sO) -> n + sO <= ss ->
  mem_load (heap m) (ptr_add sp sO) n = Some bs -> accessible (heap m) (ptr_add dp dO) n ->
  exists m', run (memcpyLG this d dO g sO n) m = Done tt m' /\ stored m (ptr_add dp dO) bs m'.
Proof.
  intros Hb Hd Hs ???? HL HA. unfold memcpyLG.
  rewrite (run_bind_Done _ _ _ _ _ (run_getSize _ _ _ _ Hd)). cbv zeta.
  erewrite run_bind_Done by (by apply run_throw_if_false, gtb_wrap_false).
  by eapply memcpyImplLG_ok.
Qed.

Lemma run_checkRegistered this g m : registered m this g -> run (checkRegistered this g) m = Done tt m.
Proof.
  intros (s & c & km & g' & E & F & K & L). unfold checkRegistered.
  rewrite (run_bind_Done _ _ _ _ _ (run_global_slot _ _ _ E)).
  rewrite (run_bind_Done _ _ _ _ _ (run_fields _ _ _ F)). by rewrite K, L.
Qed.

Lemma registered_global m this g : registered m this g -> is_Some (globals m !! g).
Proof. intros (s & ? & ? & ? & E & _). eauto. Qed.

(** The bounds check of the local-to-local copy is complete on both sides: a
    copy that does not fit either slot throws and changes nothing. *)
Lemma run_memcpyLL_reject this d dO s sO n m dp ds sp ss :
  slot_at m d dp ds -> slot_at m s sp ss -> ss < n +w sO \/ ds < n +w dO ->
  run (memcpyLL this d dO s sO n) m = Thrown runtime m.
Proof.
  intros Hd Hs Hx. unfold memcpyLL, memcpyLL_with.
  rewrite (run_bind_Done _ _ _ _ _ (run_getSize _ _ _ _ Hs)).
  rewrite (run_bind_Done _ _ _ _ _ (run_getSize _ _ _ _ Hd)). cbv zeta.
  rewrite !run_bind. unfold throw_if. case_bool; [done|].
  cbn [run]. rewrite run_bind. case_bool; [done|lia].
Qed.

(** ** The slot lock *)

Lemma run_acquire_free this g m :
  registered m this g -> locked (backend m) g = Some false ->
  run (acquireGlobalLock this g) m = Done true (set_backend (lock_slot g (backend m)) m).
Proof.
  intros Hr Hl. unfold acquireGlobalLock.
  rewrite (run_bind_Done _ _ _ _ _ (run_checkRegistered _ _ _ Hr)). by apply acquire_free.
Qed.

Lemma run_acquire_held this g m :
  registered m this g -> locked (backend m) g = Some true -> run (acquireGlobalLock this g) m = Done false m.
Proof.
  intros Hr Hl. unfold acquireGlobalLock.
  rewrite (run_bind_Done _ _ _ _ _ (run_checkRegistered _ _ _ Hr)). by apply acquire_held.
Qed.

(** Releasing the lock after a critical section that only stored. *)
Lemma run_release this g b R m m' :
  registered m this g -> locked b g = Some false -> b = backend m ->
  writes R (set_backend (lock_slot g b) m) m' ->
  run (releaseGlobalLock this g) m' = Done tt (set_backend b m') /\ writes R m (set_backend b m').
Proof.
  intros Hr Hl -> W. pose proof (writes_backend _ _ _ W) as Eb. cbn in Eb. split.
  - unfold releaseGlobalLock. rewrite (run_bind_Done _ _ _ _ _ (run_checkRegistered this g m' ltac:(by apply (writes_registered _ _ _ _ _ W)))).
    rewrite release_held by (by rewrite Eb, lock_slot_locked). by rewrite Eb, unlock_lock.
  - apply (writes_set_backend (backend m)) in W.
    change (writes R (set_backend (backend m) m) (set_backend (backend m) m')) in W.
    by rewrite set_backend_id in W.
Qed.

(** A critical section that only stores runs when the lock is free, and the
    lock is free again after it. *)
Lemma run_critical {A : Type} this g (body : prog (Machine X) A) (refused : A) R m a m' :
  registered m this g -> locked (backend m) g = Some false ->
  run body (set_backend (lock_slot g (backend m)) m) = Done a m' ->
  writes R (set_backend (lock_slot g (backend m)) m) m' ->
  run (acquired ← acquireGlobalLock this g;
       if negb acquired then mret refused
       else r ← body; _ ← releaseGlobalLock this g; mret r) m = Done a (set_backend (backend m) m') /\
  writes R m (set_backend (backend m) m').
Proof.
  intros Hr Hl E W. destruct (run_release this g (backend m) R m m') as [Er Wr]; [done..|]. split; [|done].
  rewrite (run_bind_Done _ _ _ _ _ (run_acquire_free _ _ _ Hr Hl)). cbn [negb].
  by rewrite (run_bind_Done _ _ _ _ _ E), (run_bind_Done _ _ _ _ _ Er).
Qed.

(** When the lock is held the operation is refused and nothing changes. *)
Lemma run_contended {A : Type} this g (body : prog (Machine X) A) (refused : A) m :
  registered m this g -> locked (backend m) g = Some true ->
  run (acquired ← acquireGlobalLock this g;
       if negb acquired then mret refused
       else r ← body; _ ← releaseGlobalLock this g; mret r) m = Done refused m.
Proof. intros Hr Hl. by rewrite (run_bind_Done _ _ _ _ _ (run_acquire_held _ _ _ Hr Hl)). Qed.

End Copies.

(** ** The slots of a manager *)

Section Slots.
Context {X : Type}.
Implicit Types m : Machine X.

(** The slot that a manager has registered under a tag and a key. *)
Definition registered_slot (this : nat) (tag key : Z) (m : Machine X) : option nat :=
  c ← managers m !! this; default ∅ (CommunicationManagerFields._globalMemorySlotTagKeyMap c !! tag) !! key.

(** Registering a slot changes what is found under its own tag and key only. *)
Lemma run_register_slot this g tag key src c m :
  managers m !! this = Some c -> globals m !! g = Some (GlobalMemorySlot.mk tag key src) ->
  exists c', let m' := set_managers (<[this := c']> (managers m)) m in
    run (CommunicationManager.registerGlobalMemorySlot this g) m = Done tt m' /\
    registered_slot this tag key m' = Some g /\
    forall tag' key', (tag', key') <> (tag, key) -> registered_slot this tag' key' m' = registered_slot this tag' key' m.
Proof.
  intros Hc Hg. eexists. split.
  - unfold CommunicationManager.registerGlobalMemorySlot. erewrite run_bind_Done; [|apply run_fetch; exact Hg]. cbv zeta.
    apply run_update. rewrite Hc. reflexivity.
  - unfold registered_slot. cbn. rewrite lookup_insert_eq. cbn. rewrite lookup_insert_eq. cbn. split; [apply lookup_insert_eq|].
    intros tag' key' Hne. rewrite Hc. cbn. rewrite lookup_insert. case_decide as Et; [subst tag'|done]. cbn.
    rewrite lookup_insert_ne; [done|]. congruence.
Qed.

End Slots.
