(* ===== verification/Pthreads.v ===== *)
(** * The pthreads backend

    Models [backends/pthreads/core.hpp] (the state shared by the threads of a
    process), [backends/pthreads/communicationManager.hpp] and the lock of
    [backends/hwloc/globalMemorySlot.hpp], and discharges the interface
    [CommSpec] that the channels rely on.

    The critical sections of [Core] (its two mutexes only protect straight-line
    accesses to one map) are single steps of the machine.  [getKeyMemorySlots]
    copies the map of its tag just after it has released the mutex; the copy is
    part of the step. *)

From S2P Require Import Prelude Memory CommunicationManager.
From Stdlib Require Import ZArith Lia.
From stdpp Require Import base list gmap option sorting.

Local Open Scope Z_scope.
Local Open Scope hicr_scope.

(** ** Instances ([backends/pthreads/instance.hpp]) *)

Module Instance.

Record t : Type := mk {
  _id : Z;
  _pthreadId : Z;
  _rootInstanceId : Z
}.

Definition isRootInstance (i : t) : bool := _id i =? _rootInstanceId i.

End Instance.

(** ** Barriers of the system

    [pthread_barrier_t] as POSIX describes it: the calls of [pthread_barrier_wait]
    block until [count] threads, the number given to [pthread_barrier_init], have
    made one; then all of them return, and the barrier is as it was after its
    initialization.  [get] and [put] say where the object is in the state. *)

Module PthreadBarrier.

Record t : Type := mk {
  count : Z;
  waiting : Z;
  cycle : Z
}.

Definition init (count : Z) : t := mk count 0 0.

(** Whether the next call is the one the others wait for. *)
Definition completes (b : t) : bool := waiting b + 1 =? count b.

Definition enter (b : t) : t :=
  if completes b then mk (count b) 0 (cycle b + 1) else mk (count b) (waiting b + 1) (cycle b).

Definition wait {S : Type} (get : S -> t) (put : t -> S -> S) : prog S unit :=
  Step (fun s => put (enter (get s)) s)
       (fun s => if completes (get s) then Ret tt
                 else Await (fun s' => negb (cycle (get s') =? cycle (get s))) (Ret tt)).

End PthreadBarrier.

(** ** The shared core *)

Module Core.

(** [_mutexes] holds the [std::mutex] of every [hwloc::GlobalMemorySlot];
    [_instanceMutex] tells whether the mutex of the instances was left locked by
    an exception. *)
Record t : Type := mk {
  _fenceCount : Z;
  _barrier : PthreadBarrier.t;
  _globalMemorySlots : gmap Z (gmap Z nat);
  _currentInstanceId : Z;
  _pthreadsInstanceMap : gmap Z Instance.t;
  _mutexes : gmap nat bool;
  _instanceMutex : bool
}.

Definition make (instanceCount : Z) : t :=
  mk instanceCount (PthreadBarrier.init instanceCount) ∅ 0 ∅ ∅ false.

Definition set_barrier (b : PthreadBarrier.t) (c : t) : t :=
  mk (_fenceCount c) b (_globalMemorySlots c) (_currentInstanceId c) (_pthreadsInstanceMap c) (_mutexes c) (_instanceMutex c).

Definition set_slots (s : gmap Z (gmap Z nat)) (c : t) : t :=
  mk (_fenceCount c) (_barrier c) s (_currentInstanceId c) (_pthreadsInstanceMap c) (_mutexes c) (_instanceMutex c).

Definition set_instances (i : Z) (im : gmap Z Instance.t) (c : t) : t :=
  mk (_fenceCount c) (_barrier c) (_globalMemorySlots c) i im (_mutexes c)
     (_instanceMutex c).

Definition set_mutexes (ms : gmap nat bool) (c : t) : t :=
  mk (_fenceCount c) (_barrier c) (_globalMemorySlots c) (_currentInstanceId c)
     (_pthreadsInstanceMap c) ms (_instanceMutex c).

Definition set_instanceMutex (b : bool) (c : t) : t :=
  mk (_fenceCount c) (_barrier c) (_globalMemorySlots c) (_currentInstanceId c)
     (_pthreadsInstanceMap c) (_mutexes c) b.

Definition modify_core (f : t -> t) : prog (Machine t) unit :=
  modify (fun m => set_backend (f (backend m)) m).

Definition insertGlobalSlot (tag key : Z) (slot : nat) : prog (Machine t) unit :=
  modify_core (fun c =>
    set_slots (<[tag := <[key := slot]> (default ∅ (_globalMemorySlots c !! tag))]> (_globalMemorySlots c)) c).

Definition getGlobalSlot (tag key : Z) : prog (Machine t) (option nat) :=
  gets (fun m => km ← _globalMemorySlots (backend m) !! tag; (km : gmap Z nat) !! key).

Definition removeGlobalSlot (tag key : Z) : prog (Machine t) unit :=
  modify_core (fun c =>
    match _globalMemorySlots c !! tag with
    | None => c
    | Some km => set_slots (<[tag := delete key km]> (_globalMemorySlots c)) c
    end).

Definition getKeyMemorySlots (tag : Z) : prog (Machine t) (gmap Z nat) :=
  gets (fun m => default ∅ (_globalMemorySlots (backend m) !! tag)).

Definition fence : prog (Machine t) unit :=
  PthreadBarrier.wait (fun m => _barrier (backend m)) (fun b m => set_backend (set_barrier b (backend m)) m).

(** The entries of a [std::map], in key order. *)
Definition key_le {A : Type} (a b : Z * A) : Prop := a.1 <= b.1.

#[global] Instance key_le_dec {A : Type} : RelDecision (@key_le A).
Proof. intros a b. unfold key_le. apply _. Defined.

Definition by_key {A : Type} (km : gmap Z A) : list (Z * A) := merge_sort key_le (map_to_list km).

(** A critical section under [_instanceMutex]: one step, unless an exception has
    left the mutex locked; nobody unlocks it then. *)
Definition instance_section {A : Type} (f : t -> t) (k : t -> prog (Machine t) A) : prog (Machine t) A :=
  Step (fun m => if _instanceMutex (backend m) then m else set_backend (f (backend m)) m)
       (fun m => if _instanceMutex (backend m) then Await (fun _ => false) (k (backend m)) else k (backend m)).

Definition getInstances : prog (Machine t) (list Instance.t) :=
  instance_section (fun c => c) (fun c => Ret (by_key (_pthreadsInstanceMap c)).*2).

Definition addInstance (pthreadId : Z) : prog (Machine t) Instance.t :=
  instance_section
    (fun c => set_instances (_currentInstanceId c +w 1)
                (<[pthreadId := Instance.mk (_currentInstanceId c) pthreadId 0]> (_pthreadsInstanceMap c)) c)
    (fun c => Ret (Instance.mk (_currentInstanceId c) pthreadId 0)).

(** [at] throws while the mutex is locked. *)
Definition getInstance (pthreadId : Z) : prog (Machine t) Instance.t :=
  instance_section
    (fun c => match _pthreadsInstanceMap c !! pthreadId with Some _ => c | None => set_instanceMutex true c end)
    (fun c => match _pthreadsInstanceMap c !! pthreadId with Some i => Ret i | None => Raise out_of_range end).

Definition getRootInstanceId : Z := 0.

End Core.

(** ** The communication manager *)

Module PthreadsCommunicationManager.

(** [std::make_shared<hwloc::GlobalMemorySlot>(tag, key, memorySlot)]: a fresh
    object with an unlocked mutex. *)
Definition new_global_slot (tag key : Z) (memorySlot : option nat) : prog (Machine Core.t) nat :=
  Step (fun m =>
          let g := fresh (dom (globals m)) in
          set_backend (Core.set_mutexes (<[g := false]> (Core._mutexes (backend m))) (backend m))
            (set_globals (<[g := GlobalMemorySlot.mk tag key memorySlot]> (globals m)) m))
       (fun m => Ret (fresh (dom (globals m)))).

Definition getGlobalMemorySlotImpl (this : nat) (tag globalKey : Z) : prog (Machine Core.t) (option nat) :=
  Core.getGlobalSlot tag globalKey.

Definition promoteLocalMemorySlot (this : nat) (memorySlot : option nat) (tag : Z) : prog (Machine Core.t) nat :=
  new_global_slot tag 0 memorySlot.

Definition destroyPromotedGlobalMemorySlot (this memorySlot : nat) : prog (Machine Core.t) unit := mret tt.

Definition exchangeGlobalMemorySlotsImpl (this : nat) (tag : Z) (memorySlots : list (Z * nat)) :
    prog (Machine Core.t) unit :=
  for_each memorySlots (fun entry =>
    g ← new_global_slot tag entry.1 (Some entry.2);
    Core.insertGlobalSlot tag entry.1 g).

Definition queryMemorySlotUpdatesImpl (this memorySlot : nat) : prog (Machine Core.t) unit := mret tt.

Definition fenceImpl (this : nat) (tag : Z) : prog (Machine Core.t) unit :=
  _ ← Core.fence;
  slots ← Core.getKeyMemorySlots tag;
  for_each (Core.by_key slots) (fun entry => CommunicationManager.registerGlobalMemorySlot this entry.2).

Definition increaseMessageRecvCounter (l : nat) : prog (Machine Core.t) unit :=
  update_local LocalMemorySlot.increaseMessagesRecv l.

Definition increaseMessageSentCounter (l : nat) : prog (Machine Core.t) unit :=
  update_local LocalMemorySlot.increaseMessagesSent l.

Definition memcpyImplLL (this destination : nat) (dst_offset : Z) (source : nat) (src_offset size : Z) :
    prog (Machine Core.t) unit :=
  srcPtr ← getPointer source;
  dstPtr ← getPointer destination;
  _ ← std_memcpy (ptr_add dstPtr dst_offset) (ptr_add srcPtr src_offset) size;
  _ ← increaseMessageRecvCounter destination;
  increaseMessageSentCounter source.

Definition destroyGlobalMemorySlotImpl (this memorySlot : nat) : prog (Machine Core.t) unit :=
  g ← global_slot memorySlot;
  Core.removeGlobalSlot (GlobalMemorySlot._globalTag g) (GlobalMemorySlot._globalKey g).

Definition memcpyImplGL (this destination : nat) (dst_offset : Z) (source : nat) (src_offset size : Z) :
    prog (Machine Core.t) unit :=
  d ← getSourceLocalMemorySlot destination;
  match d with
  | None => Raise logic
  | Some d =>
      _ ← CommunicationManager.memcpyLL_with memcpyImplLL this d dst_offset source src_offset size;
      _ ← increaseMessageRecvCounter d;
      increaseMessageSentCounter source
  end.

Definition memcpyImplLG (this destination : nat) (dst_offset : Z) (source : nat) (src_offset size : Z) :
    prog (Machine Core.t) unit :=
  s ← getSourceLocalMemorySlot source;
  match s with
  | None => Raise logic
  | Some s =>
      _ ← CommunicationManager.memcpyLL_with memcpyImplLL this destination dst_offset s src_offset size;
      _ ← increaseMessageRecvCounter destination;
      increaseMessageSentCounter s
  end.

(** [std::mutex::try_lock] on the slot's mutex; the dynamic cast fails for a
    slot that is not an [hwloc::GlobalMemorySlot]. *)
Definition acquireGlobalLockImpl (this memorySlot : nat) : prog (Machine Core.t) bool :=
  Step (fun m =>
          match Core._mutexes (backend m) !! memorySlot with
          | Some false =>
              set_backend (Core.set_mutexes (<[memorySlot := true]> (Core._mutexes (backend m))) (backend m)) m
          | _ => m
          end)
       (fun m =>
          match Core._mutexes (backend m) !! memorySlot with
          | None => Raise logic
          | Some b => Ret (negb b)
          end).

(** Unlocking a mutex that is not locked is undefined behaviour. *)
Definition releaseGlobalLockImpl (this memorySlot : nat) : prog (Machine Core.t) unit :=
  Step (fun m =>
          match Core._mutexes (backend m) !! memorySlot with
          | Some true =>
              set_backend (Core.set_mutexes (<[memorySlot := false]> (Core._mutexes (backend m))) (backend m)) m
          | _ => m
          end)
       (fun m =>
          match Core._mutexes (backend m) !! memorySlot with
          | None => Raise logic
          | Some true => Ret tt
          | Some false => Crash undefined
          end).

End PthreadsCommunicationManager.

#[global] Instance pthreads_backend : CommBackend Core.t := {
  getGlobalMemorySlotImpl := PthreadsCommunicationManager.getGlobalMemorySlotImpl;
  exchangeGlobalMemorySlotsImpl := PthreadsCommunicationManager.exchangeGlobalMemorySlotsImpl;
  queryMemorySlotUpdatesImpl := PthreadsCommunicationManager.queryMemorySlotUpdatesImpl;
  deregisterGlobalMemorySlotImpl := fun _ _ => mret tt;
  memcpyImplLL := PthreadsCommunicationManager.memcpyImplLL;
  memcpyImplGL := PthreadsCommunicationManager.memcpyImplGL;
  memcpyImplLG := PthreadsCommunicationManager.memcpyImplLG;
  fenceImplTag := PthreadsCommunicationManager.fenceImpl;
  fenceImplLocal := fun _ _ _ _ => mret tt;
  fenceImplGlobal := fun _ _ _ _ => mret tt;
  acquireGlobalLockImpl := PthreadsCommunicationManager.acquireGlobalLockImpl;
  releaseGlobalLockImpl := PthreadsCommunicationManager.releaseGlobalLockImpl;
  flushSent := fun _ => mret tt;
  flushReceived := fun _ => mret tt;
  locked := fun c g => Core._mutexes c !! g;
  lock_slot := fun g c => Core.set_mutexes (<[g := true]> (Core._mutexes c)) c;
  unlock_slot := fun g c => Core.set_mutexes (<[g := false]> (Core._mutexes c)) c
}.

(** ** The interface holds *)

Module PthreadsFacts.
Import PthreadsCommunicationManager.
Implicit Types m : Machine Core.t.

Lemma run_update_local f l m s :
  locals m !! l = Some s -> run (update_local f l) m = Done tt (set_locals (<[l := f s]> (locals m)) m).
Proof. intros E. unfold update_local. apply run_update. by rewrite E. Qed.

Lemma count_sim f l m p n :
  (forall s, slot_sim s (f s)) -> slot_at m l p n ->
  exists m', run (update_local f l) m = Done tt m' /\ machine_sim m m'.
Proof.
  intros Hf (s & E & _). eexists. split; [by apply run_update_local|].
  split; try done. apply (locals_sim_insert _ _ _ _ E (Hf s)).
Qed.

(** Both counters of a copy are bumped, which no channel observes. *)
Lemma counters_sim d s m dp ds sp ss :
  slot_at m d dp ds -> slot_at m s sp ss ->
  exists m', run (_ ← increaseMessageRecvCounter d; increaseMessageSentCounter s) m = Done tt m' /\ machine_sim m m'.
Proof.
  intros Hd Hs.
  destruct (count_sim LocalMemorySlot.increaseMessagesRecv d m dp ds) as (m1 & E1 & S1); [done|done|].
  destruct (count_sim LocalMemorySlot.increaseMessagesSent s m1 sp ss) as (m2 & E2 & S2); [done|by rewrite <- S1|].
  exists m2. split; [by rewrite (run_bind_Done _ _ _ _ _ E1)|by etransitivity].
Qed.

Lemma run_std_memcpy m dst src n bs h :
  mem_load (heap m) src n = Some bs -> mem_store (heap m) dst bs = Some h ->
  run (std_memcpy dst src n) m = Done tt (set_heap h m).
Proof. intros E F. apply run_update. by rewrite E; cbn; rewrite F. Qed.

Lemma stored_sim m p bs m1 m2 : stored m p bs m1 -> machine_sim m1 m2 -> stored m p bs m2.
Proof. intros (h & E & H) H2. exists h. split; [done|by etransitivity]. Qed.

Lemma memcpyImplLL_stores this d dO s sO n m dp ds sp ss bs :
  slot_at m d dp ds -> slot_at m s sp ss ->
  mem_load (heap m) (ptr_add sp sO) n = Some bs -> accessible (heap m) (ptr_add dp dO) n ->
  exists m', run (memcpyImplLL this d dO s sO n) m = Done tt m' /\ stored m (ptr_add dp dO) bs m'.
Proof.
  intros Hd Hs HL HA. unfold memcpyImplLL.
  run_with (run_getPointer m s). run_with (run_getPointer m d).
  destruct (mem_load_length _ _ _ _ HL) as [Hn _].
  destruct (mem_store_accessible (heap m) (ptr_add dp dO) bs) as [h Eh]; [by rewrite Hn|].
  run_with (run_std_memcpy m).
  destruct (counters_sim d s (set_heap h m) dp ds sp ss) as (m' & E' & S'); [done..|].
  exists m'. split; [done|]. by exists h.
Qed.

Lemma memcpyLL_with_stores this d dO s sO n m dp ds sp ss bs :
  slot_at m d dp ds -> slot_at m s sp ss ->
  is_size (n + dO) -> n + dO <= ds -> is_size (n + sO) -> n + sO <= ss ->
  mem_load (heap m) (ptr_add sp sO) n = Some bs -> accessible (heap m) (ptr_add dp dO) n ->
  exists m', run (CommunicationManager.memcpyLL_with memcpyImplLL this d dO s sO n) m = Done tt m'
             /\ stored m (ptr_add dp dO) bs m'.
Proof.
  intros Hd Hs ???? HL HA. unfold CommunicationManager.memcpyLL_with.
  run_with (run_getSize m s). run_with (run_getSize m d). cbv zeta.
  do 2 (erewrite run_bind_Done by (by apply run_throw_if_false, gtb_wrap_false)).
  by eapply memcpyImplLL_stores.
Qed.

(** A local copy followed by a second bump of the two counters. *)
Lemma copy_and_count this d dO s sO n m dp ds sp ss bs :
  slot_at m d dp ds -> slot_at m s sp ss ->
  is_size (n + dO) -> n + dO <= ds -> is_size (n + sO) -> n + sO <= ss ->
  mem_load (heap m) (ptr_add sp sO) n = Some bs -> accessible (heap m) (ptr_add dp dO) n ->
  exists m', run (_ ← CommunicationManager.memcpyLL_with memcpyImplLL this d dO s sO n;
                  _ ← increaseMessageRecvCounter d; increaseMessageSentCounter s) m = Done tt m'
             /\ stored m (ptr_add dp dO) bs m'.
Proof.
  intros Hd Hs ???? HL HA.
  destruct (memcpyLL_with_stores this d dO s sO n m dp ds sp ss bs) as (m1 & E1 & St); [done..|].
  destruct (counters_sim d s m1 dp ds sp ss) as (m2 & E2 & S2);
    [by apply (stored_slot_at _ _ _ _ _ _ _ St)..|].
  exists m2. split; [by rewrite (run_bind_Done _ _ _ _ _ E1)|by eapply stored_sim].
Qed.

End PthreadsFacts.

#[global] Instance pthreads_spec : CommSpec Core.t.
Proof.
  split.
  - intros. by eapply PthreadsFacts.memcpyImplLL_stores.
  - intros * Hb Hd Hs ???? HL HA. cbn [memcpyImplGL pthreads_backend].
    unfold PthreadsCommunicationManager.memcpyImplGL. run_with (run_getSource m g).
    by eapply PthreadsFacts.copy_and_count.
  - intros * Hb Hd Hs ???? HL HA. cbn [memcpyImplLG pthreads_backend].
    unfold PthreadsCommunicationManager.memcpyImplLG. run_with (run_getSource m g).
    by eapply PthreadsFacts.copy_and_count.
  - done.
  - done.
  - done.
  - intros this g m E. cbn in *. by rewrite E.
  - intros this g m E. cbn in *. by rewrite E.
  - intros this g m E. cbn in *. by rewrite E.
  - intros g b. cbn. apply lookup_insert_eq.
  - intros g b E. cbn in *. destruct b; cbn in *. unfold Core.set_mutexes; cbn.
    by rewrite insert_insert_eq, insert_id.
Qed.
