(* ===== verification/PthreadsSpec.v ===== *)
(** * Behaviour of the pthreads backend

    Theorems on [Pthreads.v].  [fence_meeting] is the rule for threads that meet at
    the fence of the core, with contracts for what each does before and behind it;
    [exchange_meets] applies it to threads that exchange slots and fence.  The other
    theorems are about one thread: exchanged slots are found and, after a fence,
    registered; and what copies, deregistration and destruction do and do not
    change. *)

From S2P Require Import Prelude Concurrency Interference Memory CommunicationManager Pthreads.
From Stdlib Require Import ZArith Lia.
From Stdlib.Strings Require Import Byte.
From stdpp Require Import base gmap option sorting list.

Local Open Scope Z_scope.
Local Open Scope hicr_scope.

(** ** Threads that meet at the fence *)

(** The state of the barrier of the core. *)
Definition barrier (m : Machine Core.t) : PthreadBarrier.t := Core._barrier (backend m).
Definition cycle (m : Machine Core.t) : Z := PthreadBarrier.cycle (barrier m).
Definition arrived (m : Machine Core.t) : Z := PthreadBarrier.waiting (barrier m).
Definition expected (m : Machine Core.t) : Z := PthreadBarrier.count (barrier m).

Definition at_barrier (b : PthreadBarrier.t) (m : Machine Core.t) : Machine Core.t :=
  set_backend (Core.set_barrier b (backend m)) m.

(** Held at the fence in the cycle [c], with [q] to come. *)
Definition held (c : Z) (q : prog (Machine Core.t) unit) : prog (Machine Core.t) unit :=
  Await (fun m => negb (cycle m =? c)) q.

(** [p] calls the fence and goes on with [q]. *)
Definition fence_then (p q : prog (Machine Core.t) unit) : Prop :=
  exists k, p = Step (fun m => at_barrier (PthreadBarrier.enter (barrier m)) m) k /\
    forall m, k m = if PthreadBarrier.completes (barrier m) then q else held (cycle m) q.

Section Meeting.

(** [n] threads: the thread [k] runs [pre k], the fence, and [post k].  On the
    way to the fence they honour the contracts [cs], and [P k] holds when [pre k]
    is done; behind it they honour the contracts [ds] and end with [Q k]. *)
Context (n : nat) (pre fenced post : nat -> prog (Machine Core.t) unit).
Context (cs ds : nat -> contract (Machine Core.t)) (P Q : nat -> Machine Core.t -> Prop).
Implicit Types (m : Machine Core.t) (ps : list (prog (Machine Core.t) unit)) (k : nat).

Record meets : Prop := mkMeets {
  meet_pre : compatible n cs (fun k (_ : unit) => P k);
  meet_post : compatible n ds (fun k (_ : unit) => Q k);
  meet_before : forall k m m', (k < n)%nat -> guar (cs k) m m' -> barrier m' = barrier m;
  meet_after : forall k m m', (k < n)%nat -> guar (ds k) m m' -> barrier m' = barrier m;
  meet_running : forall k m, (k < n)%nat -> ~ waiting (cs k) m /\ ~ waiting (ds k) m;
  meet_enter : forall k m b, (k < n)%nat -> rely (cs k) m (at_barrier b m);
  meet_open : forall m b k, (forall j, (j < n)%nat -> P j m) -> (k < n)%nat -> safe (ds k) (post k) (fun _ => Q k) (at_barrier b m);
  meet_fence : forall k, (k < n)%nat -> fence_then (fenced k) (post k)
}.

(** A thread on its way to the fence, or held there. *)
Definition coming (c : Z) m k (p : prog (Machine Core.t) unit) (w : bool) : Prop :=
  if w then p = held c (post k) /\ P k m
  else exists q : prog (Machine Core.t) unit, p = (q ≫= fun _ => fenced k) /\ safe (cs k) q (fun _ => P k) m.

(** A thread that may leave the fence, or has left it. *)
Definition leaving (c : Z) m k (p : prog (Machine Core.t) unit) : Prop :=
  p = held c (post k) /\ safe (ds k) (post k) (fun _ => Q k) m \/ safe (ds k) p (fun _ => Q k) m.

Definition held_count (ws : list bool) : nat := length (filter (fun w => w = true) ws).

Inductive meeting (c : Z) ps m : Prop :=
| gathering (ws : list bool) :
    length ps = n -> length ws = n -> cycle m = c -> expected m = Z.of_nat n -> arrived m = Z.of_nat (held_count ws) ->
    (held_count ws < n)%nat -> (forall k p w, ps !! k = Some p -> ws !! k = Some w -> coming c m k p w) -> meeting c ps m
| released : length ps = n -> cycle m <> c -> (forall k p, ps !! k = Some p -> leaving c m k p) -> meeting c ps m.

Hypothesis H : meets.

Lemma coming_stable c m m' k p w : (k < n)%nat -> rely (cs k) m m' -> coming c m k p w -> coming c m' k p w.
Proof.
  intros Hk Hr. pose proof (comp_contract _ _ _ (meet_pre H) k Hk). pose proof (fun a => comp_post _ _ _ (meet_pre H) k a Hk) as HP.
  destruct w; cbn.
  - intros [-> Hp]. split; [done|]. by apply (HP tt m m').
  - intros (q & -> & Hq). exists q. split; [done|]. by eapply safe_stable.
Qed.

Lemma leaving_stable c m m' k p : (k < n)%nat -> rely (ds k) m m' -> leaving c m k p -> leaving c m' k p.
Proof.
  intros Hk Hr. pose proof (comp_contract _ _ _ (meet_post H) k Hk). pose proof (fun a => comp_post _ _ _ (meet_post H) k a Hk).
  intros [[-> Hp]|Hp]; [left; split; [done|]|right]; by eapply safe_stable.
Qed.

Lemma held_all (ws : list bool) k : ws !! k = Some false -> (held_count ws + 1 = length ws)%nat ->
  forall j w, ws !! j = Some w -> j <> k -> w = true.
Proof.
  intros Hk Hc j w Hj Hne. assert (Hall : Forall (fun w => w = true) (<[k := true]> ws)).
  { apply (length_filter_all (fun w => w = true)). pose proof (length_filter_insert (fun w => w = true) ws k true false Hk) as Hi.
    rewrite decide_False, decide_True in Hi by done. rewrite length_insert. unfold held_count in Hc. lia. }
  apply (Forall_lookup_1 _ _ j w Hall). by rewrite list_lookup_insert_ne.
Qed.

(** The last one arrives: everybody is let go. *)
Lemma meeting_opens c ps m ws k p q :
  length ps = n -> length ws = n -> cycle m = c -> ws !! k = Some false -> (held_count ws + 1 = n)%nat ->
  (forall j p w, ps !! j = Some p -> ws !! j = Some w -> coming c m j p w) -> ps !! k = Some p ->
  P k m -> cycle (at_barrier q m) <> c -> meeting c (<[k := post k]> ps) (at_barrier q m).
Proof.
  intros Hl Hw Hc Hk Hn Hall Hp HP Hne. apply released; [by rewrite length_insert|done|].
  assert (HPs : forall j, (j < n)%nat -> P j m).
  { intros j Hj. destruct (decide (j = k)) as [->|Hjk]; [done|].
    destruct (lookup_lt_is_Some_2 ps j) as [pj Hpj]; [lia|]. destruct (lookup_lt_is_Some_2 ws j) as [w Hwj]; [lia|].
    pose proof (held_all ws k Hk ltac:(lia) j w Hwj Hjk) as ->. by destruct (Hall j pj true Hpj Hwj). }
  intros j pj Hj. assert (Hjn : (j < n)%nat) by (apply lookup_lt_Some in Hj; rewrite length_insert in Hj; lia).
  pose proof (meet_open H m q j HPs Hjn) as Hs. apply list_lookup_insert_Some in Hj as [(<- & <- & _)|(Hjk & Hj)]; [by right|].
  destruct (lookup_lt_is_Some_2 ws j) as [w Hwj]; [lia|].
  pose proof (held_all ws k Hk ltac:(lia) j w Hwj ltac:(done)) as ->. destruct (Hall j pj true Hj Hwj) as [-> _]. by left.
Qed.

(** One step of one thread. *)
Lemma meeting_step c ps m k p p' m' :
  meeting c ps m -> ps !! k = Some p -> thread_step p m p' m' -> meeting c (<[k := p']> ps) m'.
Proof.
  intros [ws Hl Hw Hc He Ha Ho Hall|Hl Hc Hall] Hp Ht; (assert (Hk : (k < n)%nat) by (apply lookup_lt_Some in Hp; lia)).
  - destruct (lookup_lt_is_Some_2 ws k) as [w Hwk]; [lia|]. pose proof (Hall k p w Hp Hwk) as Hcom. destruct w.
    { destruct Hcom as [-> _]. inversion Ht as [|b q s Hb]; subst. by rewrite Z.eqb_refl in Hb. }
    destruct Hcom as (q & -> & Hq). pose proof (comp_contract _ _ _ (meet_pre H) k Hk).
    apply thread_step_bind in Ht as [([] & -> & Ht)|(q' & Ht & ->)].
    + destruct (meet_fence H k Hk) as (kf & Ef & Hkf). rewrite Ef in Ht. inversion Ht; subst; clear Ht. rewrite Hkf.
      assert (Ec : PthreadBarrier.completes (barrier m) = bool_decide (held_count ws + 1 = n)%nat).
      { unfold PthreadBarrier.completes. change (PthreadBarrier.waiting _) with (arrived m). change (PthreadBarrier.count _) with (expected m).
        rewrite Ha, He. case_bool_decide; [apply Z.eqb_eq|apply Z.eqb_neq]; lia. }
      unfold PthreadBarrier.enter. rewrite Ec. case_bool_decide as E.
      * eapply meeting_opens; try done. unfold cycle, barrier, at_barrier. cbn. lia.
      * pose proof (length_filter_insert (fun w => w = true) ws k true false Hwk) as Hi. rewrite decide_False, decide_True in Hi by done.
        apply gathering with (<[k := true]> ws); rewrite ?length_insert; try done; unfold held_count in *; [| |].
        { unfold arrived, barrier, at_barrier in *. cbn. lia. }
        { lia. }
        intros j pj wj Hj Hwj. assert (Hjn : (j < n)%nat) by (apply lookup_lt_Some in Hwj; rewrite length_insert in Hwj; lia).
        eapply coming_stable; [done|by apply (meet_enter H)|].
        apply list_lookup_insert_Some in Hj as [(<- & <- & _)|(Hjk & Hj)].
        { rewrite list_lookup_insert_eq in Hwj by lia. by injection Hwj as <-. }
        { rewrite list_lookup_insert_ne in Hwj by done. by apply Hall. }
    + destruct (safe_step (cs k) q _ m q' m' Hq Ht) as [HG Hq']. pose proof (meet_before H k m m' Hk HG) as Eb.
      apply gathering with ws; unfold cycle, expected, arrived in *; rewrite ?length_insert, ?Eb; try done.
      intros j pj wj Hj Hwj. assert (Hjn : (j < n)%nat) by (apply lookup_lt_Some in Hwj; lia).
      apply list_lookup_insert_Some in Hj as [(<- & <- & _)|(Hjk & Hj)].
      { rewrite Hwk in Hwj. injection Hwj as <-. by exists q'. }
      { eapply coming_stable; [done|by apply (comp_guar _ _ _ (meet_pre H) k j)|by apply Hall]. }
  - assert (Hthis : forall u, barrier u = barrier m -> leaving c u k p' -> (forall j, (j < n)%nat -> j <> k -> rely (ds j) m u) ->
                    meeting c (<[k := p']> ps) u).
    { intros u Eb Hu Hr. apply released; [by rewrite length_insert|unfold cycle; by rewrite Eb|].
      intros j pj Hj. apply list_lookup_insert_Some in Hj as [(<- & <- & _)|(Hjk & Hj)]; [done|].
      assert (Hjn : (j < n)%nat) by (apply lookup_lt_Some in Hj; lia). eapply leaving_stable; [done|by apply Hr|by apply Hall]. }
    pose proof (comp_contract _ _ _ (meet_post H) k Hk). destruct (Hall k p Hp) as [[-> Hs]|Hs].
    + inversion Ht as [|b q s Hb]; subst. apply Hthis; [done|by right|]. intros j Hj _. by pose proof (comp_contract _ _ _ (meet_post H) j Hj).
    + destruct (safe_step (ds k) p _ m p' m' Hs Ht) as [HG Hs']. apply Hthis; [by apply (meet_after H k)|by right|].
      intros j Hj Hne. by apply (comp_guar _ _ _ (meet_post H) k j).
Qed.

(** A thread that is not held and not done can move. *)
Lemma meeting_progress c ps m : meeting c ps m -> Forall finished ps \/ exists next, pool_step (ps, m) next.
Proof.
  intros [ws Hl Hw Hc He Ha Ho Hall|Hl Hc Hall].
  - right. assert (Hn : ~ Forall (fun w => w = true) ws).
    { intros Hf. apply (length_filter_all (fun w => w = true)) in Hf. unfold held_count in Ho. lia. }
    apply not_Forall_Exists in Hn; [|intros x; apply _]. apply Exists_exists in Hn as (w & [k Hk]%list_elem_of_lookup & Hne).
    destruct w; [by destruct Hne|]. assert (Hkn : (k < n)%nat) by (apply lookup_lt_Some in Hk; lia).
    destruct (lookup_lt_is_Some_2 ps k) as [p Hp]; [lia|]. destruct (Hall k p false Hp Hk) as (q & -> & Hq).
    pose proof (comp_contract _ _ _ (meet_pre H) k Hkn).
    destruct (safe_progress (cs k) q _ m Hq) as [([] & -> & _)|[(q' & m' & Ht)|[_ Hwt]]].
    + destruct (meet_fence H k Hkn) as (kf & Ef & _).
      assert (Ht : thread_step (fenced k) m (kf m) (at_barrier (PthreadBarrier.enter (barrier m)) m)) by (rewrite Ef; exact (thread_act _ kf m)).
      eexists. eapply pool_act; [exact Hp|exact Ht].
    + eexists. eapply pool_act; [exact Hp|]. by apply bind_thread_step.
    + by destruct (meet_running H k m Hkn).
  - destruct (decide (Forall finished ps)) as [Hf|Hn]; [by left|right].
    apply not_Forall_Exists in Hn; [|intros x; apply _]. apply Exists_exists in Hn as (p & [k Hk]%list_elem_of_lookup & Hne).
    assert (Hkn : (k < n)%nat) by (apply lookup_lt_Some in Hk; lia). pose proof (comp_contract _ _ _ (meet_post H) k Hkn).
    destruct (Hall k p Hk) as [[-> _]|Hs].
    + eexists. eapply pool_act; [exact Hk|]. constructor. by apply negb_true_iff, Z.eqb_neq.
    + destruct (safe_progress (ds k) p _ m Hs) as [(a & -> & _)|[(q' & m' & Ht)|[_ Hwt]]]; [by destruct Hne| |].
      * eexists. by eapply pool_act.
      * by destruct (meet_running H k m Hkn).
Qed.

Lemma meeting_end c ps m k : (0 < n)%nat -> meeting c ps m -> Forall finished ps -> (k < n)%nat -> ps !! k = Some (Ret tt) /\ Q k m.
Proof.
  intros Hn [ws Hl Hw Hc He Ha Ho Hall|Hl Hc Hall] Hf Hk; (destruct (lookup_lt_is_Some_2 ps k) as [p Hp]; [lia|]);
    pose proof (Forall_lookup_1 _ _ _ _ Hf Hp) as Hfin; (destruct p as [[]| | | |]; [|done..]).
  - exfalso. destruct (lookup_lt_is_Some_2 ws k) as [w Hwk]; [lia|]. pose proof (Hall k _ w Hp Hwk) as Hcom. destruct w; [by destruct Hcom|].
    destruct Hcom as (q & Eq & _), (meet_fence H k Hk) as (kf & Ef & _). rewrite Ef in Eq. by destruct q.
  - split; [done|]. by destruct (Hall k _ Hp) as [[E _]|Hs].
Qed.

(** The rule for [n] threads that meet once. *)
Lemma fence_meeting m ps' m' :
  (0 < n)%nat -> expected m = Z.of_nat n -> arrived m = 0 ->
  (forall k, (k < n)%nat -> safe (cs k) (pre k) (fun _ => P k) m) ->
  pool_steps (map (fun k => pre k ≫= fun _ => fenced k) (seq 0 n), m) (ps', m') ->
  (Forall finished ps' \/ exists next, pool_step (ps', m') next) /\
  (Forall finished ps' -> forall k, (k < n)%nat -> ps' !! k = Some (Ret tt) /\ Q k m').
Proof.
  intros Hn He Ha Hpre Hs. assert (Hm : meeting (cycle m) ps' m').
  { apply (pool_invariant (meeting (cycle m)) (map (fun k => pre k ≫= fun _ => fenced k) (seq 0 n)) m ps' m'); [|  |exact Hs].
    - intros qs u i p p' u' Hi Hp Ht. by eapply meeting_step.
    - assert (Hc : held_count (replicate n false) = 0%nat).
      { unfold held_count. clear. induction n as [|j IH]; [done|]. cbn [replicate]. by rewrite filter_cons, decide_False. }
      apply gathering with (replicate n false); rewrite ?Hc; try done.
      + by rewrite length_map, length_seq.
      + by rewrite length_replicate.
      + intros k p w Hp Hw. apply lookup_replicate in Hw as [-> Hk]. apply list_lookup_fmap_Some in Hp as (j & -> & Hj).
        apply lookup_seq in Hj as [-> _]. exists (pre k). split; [done|]. by apply Hpre. }
  split; [by eapply meeting_progress|]. intros Hf k Hk. by eapply meeting_end.
Qed.

End Meeting.

(** ** Exchanging and registering slots *)

(** Every slot of the core was made for the tag and key it is filed under. *)
Definition core_wf (m : Machine Core.t) : Prop :=
  forall tag km key g, Core._globalMemorySlots (backend m) !! tag = Some km -> km !! key = Some g ->
    exists src, globals m !! g = Some (GlobalMemorySlot.mk tag key src).

(** The slot of the core under a tag and a key. *)
Definition core_slot (m : Machine Core.t) (tag key : Z) : option nat :=
  km ← Core._globalMemorySlots (backend m) !! tag; (km : gmap Z nat) !! key.

Section Exchange.
Implicit Types m : Machine Core.t.
Import PthreadsCommunicationManager.

Lemma core_slot_wf m tag key g : core_wf m -> core_slot m tag key = Some g ->
  exists src, globals m !! g = Some (GlobalMemorySlot.mk tag key src).
Proof. unfold core_slot. intros Hw H. destruct (_ !! tag) as [km|] eqn:E; [|done]. by eapply Hw. Qed.

(** One slot is made and filed. *)
Lemma run_exchange_one m tag key l :
  core_wf m ->
  exists g m', run (g ← new_global_slot tag key (Some l); Core.insertGlobalSlot tag key g) m = Done tt m' /\
    core_wf m' /\ globals m !! g = None /\ globals m' = <[g := GlobalMemorySlot.mk tag key (Some l)]> (globals m) /\
    Core._mutexes (backend m') = <[g := false]> (Core._mutexes (backend m)) /\
    (forall t k, core_slot m' t k = if decide (t = tag /\ k = key) then Some g else core_slot m t k).
Proof.
  intros Hw. set (g := fresh (dom (globals m))). assert (Hg : globals m !! g = None) by (apply not_elem_of_dom; unfold g; apply is_fresh).
  eexists g, _. split; [reflexivity|]. split_and!; [|done|done|done|].
  - intros t km k g' Ht Hk. cbn in *. destruct (decide (t = tag)) as [->|Hne].
    + rewrite lookup_insert_eq in Ht. injection Ht as <-. destruct (decide (k = key)) as [->|Hkn].
      * rewrite lookup_insert_eq in Hk. injection Hk as <-. exists (Some l). by rewrite lookup_insert_eq.
      * rewrite lookup_insert_ne in Hk by done. destruct (Core._globalMemorySlots (backend m) !! tag) as [km|] eqn:E; [|done].
        destruct (Hw _ _ _ _ E Hk) as [src Hs]. exists src. rewrite lookup_insert_ne; [done|]. fold g. congruence.
    + rewrite lookup_insert_ne in Ht by done. destruct (Hw _ _ _ _ Ht Hk) as [src Hs]. exists src.
      rewrite lookup_insert_ne; [done|]. fold g. congruence.
  - intros t k. unfold core_slot. cbn. destruct (decide (t = tag)) as [->|Hne].
    + rewrite lookup_insert_eq. cbn. destruct (decide (k = key)) as [->|Hkn].
      * rewrite decide_True by done. by rewrite lookup_insert_eq.
      * rewrite decide_False by (by intros []). rewrite lookup_insert_ne by done.
        by destruct (Core._globalMemorySlots (backend m) !! tag).
    + rewrite decide_False by (by intros []). by rewrite lookup_insert_ne.
Qed.

(** What an exchange of [slots] under [tag] does to the machine. *)
Record exchanged (m : Machine Core.t) (tag : Z) (slots : list (Z * nat)) (m' : Machine Core.t) : Prop := mkExchanged {
  ex_wf : core_wf m';
  ex_found : forall key l, (key, l) ∈ slots -> exists g, core_slot m' tag key = Some g /\
    globals m' !! g = Some (GlobalMemorySlot.mk tag key (Some l)) /\ Core._mutexes (backend m') !! g = Some false;
  ex_other : forall t key, t <> tag \/ key ∉ slots.*1 -> core_slot m' t key = core_slot m t key;
  ex_globals : globals m ⊆ globals m';
  ex_mutexes : forall g, is_Some (globals m !! g) -> Core._mutexes (backend m') !! g = Core._mutexes (backend m) !! g
}.

Lemma run_exchange tag : forall slots m,
  core_wf m -> NoDup slots.*1 ->
  exists m', run (exchangeGlobalMemorySlotsImpl 0 tag slots) m = Done tt m' /\ exchanged m tag slots m'.
Proof.
  unfold exchangeGlobalMemorySlotsImpl. induction slots as [|[key l] slots IH]; intros m Hw Hnd.
  { exists m. split; [done|]. split; [done|by intros ?? ?%not_elem_of_nil|done..]. }
  cbn [fmap list_fmap fst] in Hnd. apply NoDup_cons in Hnd as [Hk Hnd]. cbn [for_each].
  destruct (run_exchange_one m tag key l Hw) as (g & m1 & E1 & Hw1 & Hg & Hgl & Hmx & Hcs).
  destruct (IH m1 Hw1 Hnd) as (m2 & E2 & Hx). exists m2. cbn [fst snd]. split; [by rewrite (run_bind_Done _ _ _ _ _ E1)|].
  pose proof Hx as [Hw2 Hf Ho Hsub Hmu]. split; [done| | | |].
  - intros k l' [[= -> ->]|Hin]%elem_of_cons; [|by apply Hf].
    exists g. rewrite Ho, Hcs, decide_True by auto. split_and!; [done| |].
    + eapply lookup_weaken; [|exact Hsub]. by rewrite Hgl, lookup_insert_eq.
    + rewrite Hmu by (by rewrite Hgl, lookup_insert_eq; eexists). by rewrite Hmx, lookup_insert_eq.
  - intros t k Hne. cbn [fmap list_fmap fst] in Hne. rewrite not_elem_of_cons in Hne. rewrite Ho by (destruct Hne as [?|[? ?]]; auto).
    rewrite Hcs, decide_False by (intros [-> ->]; destruct Hne as [?|[? ?]]; done). done.
  - etransitivity; [|exact Hsub]. rewrite Hgl. by apply insert_subseteq.
  - intros x [y Hy]. assert (x <> g) by congruence. rewrite Hmu by (rewrite Hgl, lookup_insert_ne by done; by eexists).
    by rewrite Hmx, lookup_insert_ne.
Qed.

(** Exchanging local slots under a tag with distinct keys makes each of them
    available to every manager: it finds under the tag and the key a global slot
    with that tag, that key, the local slot as its source and a free lock.
    Slots under other tags and keys stay as they were. *)
Theorem exchange_publishes this tag slots m :
  core_wf m -> NoDup slots.*1 ->
  exists m', run (CommunicationManager.exchangeGlobalMemorySlots this tag slots) m = Done tt m' /\ core_wf m' /\
    (forall key l other, (key, l) ∈ slots -> exists g,
       run (CommunicationManager.getGlobalMemorySlot other tag key) m' = Done g m' /\
       globals m' !! g = Some (GlobalMemorySlot.mk tag key (Some l)) /\ locked (backend m') g = Some false) /\
    (forall t key, t <> tag \/ key ∉ slots.*1 -> core_slot m' t key = core_slot m t key).
Proof.
  intros Hw Hnd. destruct (run_exchange tag slots m Hw Hnd) as (m' & E & [Hw' Hf Ho _ _]).
  exists m'. split_and!; [done|done| |done]. intros key l other Hin. destruct (Hf _ _ Hin) as (g & Hc & Hg & Hm).
  exists g. split_and!; [|done|done]. unfold CommunicationManager.getGlobalMemorySlot.
  rewrite run_bind. cbn. change (_ ≫= _) with (core_slot m' tag key). by rewrite Hc.
Qed.

End Exchange.

(** ** The collective fence registers the slots of its tag *)

Section Fence.
Implicit Types m : Machine Core.t.
Import PthreadsCommunicationManager.

(** The slots a manager has registered under a tag. *)
Definition registered_under (c : CommunicationManagerFields.t) (tag : Z) : gmap Z nat :=
  default ∅ (CommunicationManagerFields._globalMemorySlotTagKeyMap c !! tag).

Lemma run_register this g m c tag key src :
  managers m !! this = Some c -> globals m !! g = Some (GlobalMemorySlot.mk tag key src) ->
  run (CommunicationManager.registerGlobalMemorySlot this g) m =
  Done tt (set_managers (<[this := CommunicationManager.with_tag_key_map
      (<[tag := <[key := g]> (registered_under c tag)]> (CommunicationManagerFields._globalMemorySlotTagKeyMap c)) c]> (managers m)) m).
Proof.
  intros Hc Hg. unfold CommunicationManager.registerGlobalMemorySlot.
  rewrite (run_bind_Done _ _ _ _ _ (run_global_slot _ _ _ Hg)). cbv zeta. unfold CommunicationManager.set_fields.
  apply run_update. by rewrite Hc.
Qed.

(** The loop over the slots of the tag. *)
Lemma run_register_all this tag : forall (entries : list (Z * nat)) m c,
  managers m !! this = Some c -> NoDup entries.*1 ->
  (forall key g, (key, g) ∈ entries -> exists src, globals m !! g = Some (GlobalMemorySlot.mk tag key src)) ->
  exists c', run (for_each entries (fun e => CommunicationManager.registerGlobalMemorySlot this e.2)) m =
      Done tt (set_managers (<[this := c']> (managers m)) m) /\
    CommunicationManagerFields._globalMemorySlotsToDestroyPerTag c' = CommunicationManagerFields._globalMemorySlotsToDestroyPerTag c /\
    registered_under c' tag = list_to_map entries ∪ registered_under c tag /\
    forall t, t <> tag -> registered_under c' t = registered_under c t.
Proof.
  induction entries as [|[key g] entries IH]; intros m c Hc Hnd Hg.
  { exists c. cbn. split_and!; [|done| |done].
    - rewrite insert_id by done. by destruct m.
    - by rewrite (left_id_L ∅ (∪)). }
  cbn [fmap list_fmap fst] in Hnd. apply NoDup_cons in Hnd as [Hk Hnd]. cbn [for_each].
  destruct (Hg key g) as [src Hs]; [by left|].
  set (c1 := CommunicationManager.with_tag_key_map
      (<[tag := <[key := g]> (registered_under c tag)]> (CommunicationManagerFields._globalMemorySlotTagKeyMap c)) c).
  destruct (IH (set_managers (<[this := c1]> (managers m)) m) c1) as (c' & E & Hd & Hr & Ho);
    [apply lookup_insert_eq|done|intros k g' Hin; apply (Hg k g'); by right|].
  exists c'. split_and!.
  - cbn [snd]. rewrite (run_bind_Done _ _ _ _ _ (run_register this g m c tag key src Hc Hs)). fold c1. rewrite E.
    cbn. by rewrite insert_insert_eq.
  - by rewrite Hd.
  - rewrite Hr. unfold registered_under at 1. cbn. rewrite lookup_insert_eq. cbn.
    rewrite <- insert_union_r by (by apply not_elem_of_list_to_map_1). by rewrite insert_union_l.
  - intros t Ht. rewrite Ho by done. unfold registered_under. cbn. by rewrite lookup_insert_ne.
Qed.

Lemma by_key_perm {A : Type} (km : gmap Z A) : Core.by_key km ≡ₚ map_to_list km.
Proof. apply merge_sort_Permutation. Qed.

(** The last thread to arrive runs through the fence. *)
Lemma run_fence_last this tag m c :
  core_wf m -> managers m !! this = Some c ->
  arrived m + 1 = expected m ->
  let b := Core.set_barrier (PthreadBarrier.mk (expected m) 0 (cycle m + 1)) (backend m) in
  exists c', run (CommunicationManager.fence this tag) m =
      Done tt (set_managers (<[this := c']> (managers m)) (set_backend b m)) /\
    CommunicationManagerFields._globalMemorySlotsToDestroyPerTag c' =
      delete tag (CommunicationManagerFields._globalMemorySlotsToDestroyPerTag c) /\
    registered_under c' tag = default ∅ (Core._globalMemorySlots (backend m) !! tag) ∪ registered_under c tag /\
    forall t, t <> tag -> registered_under c' t = registered_under c t.
Proof.
  intros Hw Hc Hl b. set (km := default ∅ (Core._globalMemorySlots (backend m) !! tag)).
  set (m1 := set_backend b m).
  destruct (run_register_all this tag (Core.by_key km) m1 c) as (c' & E & Hd & Hr & Ho).
  { done. }
  { rewrite by_key_perm. apply NoDup_fst_map_to_list. }
  { intros key g Hin. rewrite by_key_perm in Hin. apply elem_of_map_to_list in Hin. unfold km in Hin.
    destruct (Core._globalMemorySlots (backend m) !! tag) as [km'|] eqn:Ek; [|done]. exact (Hw _ _ _ _ Ek Hin). }
  eexists. split; [|split_and!; cycle 1].
  - unfold CommunicationManager.fence. cbn [fenceImplTag pthreads_backend]. unfold fenceImpl.
    erewrite run_bind_Done; cycle 1.
    { assert (Ec : PthreadBarrier.completes (barrier m) = true) by (by apply Z.eqb_eq).
      unfold Core.fence, PthreadBarrier.wait, PthreadBarrier.enter. rewrite run_bind. cbn. unfold barrier in Ec. rewrite Ec. cbn. exact E. }
    unfold CommunicationManager.set_fields. apply run_update. cbn. rewrite lookup_insert_eq. cbn. by rewrite insert_insert_eq.
  - unfold registered_under at 1. cbn. etransitivity; [exact Hr|]. f_equal.
    rewrite (list_to_map_proper (Core.by_key km) (map_to_list km)); [apply list_to_map_to_list| |apply by_key_perm].
    rewrite by_key_perm. apply NoDup_fst_map_to_list.
  - intros t Ht. by rewrite <- (Ho t Ht).
  - cbn. by rewrite Hd.
Qed.

(** A fence on a tag blocks until the last of the threads arrives; for it,
    every slot of the core under the tag is registered with its manager, on top
    of what was registered before, so that its lock can be taken; other tags and
    the heap are unchanged, and nothing stays marked for destruction under the tag. *)
Theorem fence_registers this tag m c :
  core_wf m -> managers m !! this = Some c ->
  if arrived m + 1 =? expected m
  then exists m' c', run (CommunicationManager.fence this tag) m = Done tt m' /\ heap m' = heap m /\ globals m' = globals m /\
    managers m' = <[this := c']> (managers m) /\ arrived m' = 0 /\
    CommunicationManagerFields._globalMemorySlotsToDestroyPerTag c' !! tag = None /\
    (forall key g, core_slot m tag key = Some g -> registered m' this g) /\
    registered_under c' tag = default ∅ (Core._globalMemorySlots (backend m) !! tag) ∪ registered_under c tag /\
    (forall t, t <> tag -> registered_under c' t = registered_under c t)
  else exists m', run (CommunicationManager.fence this tag) m = Blocked m' /\
    arrived m' = arrived m + 1 /\ managers m' = managers m.
Proof.
  intros Hw Hc. destruct (Z.eqb_spec (arrived m + 1) (expected m)) as [Hl|Hl].
  - destruct (run_fence_last this tag m c Hw Hc Hl) as (c' & E & Hd & Hr & Ho).
    eexists _, c'. split; [exact E|]. split_and!; [done|done|done|done| | |done|done].
    + by rewrite Hd, lookup_delete_eq.
    + intros key g Hg. destruct (core_slot_wf _ _ _ _ Hw Hg) as [src Hs].
      assert (Hk : registered_under c' tag !! key = Some g).
      { rewrite Hr. apply lookup_union_Some_l. unfold core_slot in Hg. by destruct (_ !! tag). }
      unfold registered_under in Hk. destruct (CommunicationManagerFields._globalMemorySlotTagKeyMap c' !! tag) as [km|] eqn:Et; [|done].
      exists (GlobalMemorySlot.mk tag key src), c', km, g. cbn. by rewrite lookup_insert_eq.
  - set (b := Core.set_barrier (PthreadBarrier.mk (expected m) (arrived m + 1) (cycle m)) (backend m)).
    exists (set_backend b m). split_and!; [|done|done].
    unfold CommunicationManager.fence. cbn [fenceImplTag pthreads_backend]. unfold fenceImpl, Core.fence.
    assert (Ec : PthreadBarrier.completes (barrier m) = false) by (by apply Z.eqb_neq). unfold barrier in Ec.
    unfold PthreadBarrier.wait, PthreadBarrier.enter. rewrite !run_bind. cbn. rewrite Ec. cbn. by rewrite Z.eqb_refl.
Qed.

(** Deregistering a slot takes it out of the manager's map, so its lock can no
    longer be taken through this manager, but [getGlobalMemorySlot] still returns
    it, because the shared core is asked first. *)
Theorem deregister_still_found this tag key g src m c km :
  globals m !! g = Some (GlobalMemorySlot.mk tag key src) -> core_slot m tag key = Some g ->
  managers m !! this = Some c -> CommunicationManagerFields._globalMemorySlotTagKeyMap c !! tag = Some km ->
  exists m', run (CommunicationManager.deregisterGlobalMemorySlot this g) m = Done tt m' /\
    run (CommunicationManager.getGlobalMemorySlot this tag key) m' = Done g m' /\
    run (CommunicationManager.acquireGlobalLock this g) m' = Thrown logic m'.
Proof.
  intros Hg Hs Hc Hk.
  set (c' := CommunicationManager.with_tag_key_map (<[tag := delete key km]> (CommunicationManagerFields._globalMemorySlotTagKeyMap c)) c).
  set (m' := set_managers (<[this := c']> (managers m)) m). exists m'. split_and!.
  - unfold CommunicationManager.deregisterGlobalMemorySlot.
    rewrite (run_bind_Done _ _ _ _ _ (run_global_slot _ _ _ Hg)). cbv zeta.
    rewrite (run_bind_Done _ _ _ _ _ (run_fields _ _ _ Hc)). cbn [GlobalMemorySlot._globalTag GlobalMemorySlot._globalKey].
    rewrite Hk. erewrite run_bind_Done; [done|]. unfold CommunicationManager.set_fields. apply run_update. by rewrite Hc.
  - unfold CommunicationManager.getGlobalMemorySlot. rewrite run_bind. cbn.
    change (_ ≫= _) with (core_slot m tag key). by rewrite Hs.
  - unfold CommunicationManager.acquireGlobalLock, CommunicationManager.checkRegistered. rewrite run_bind.
    rewrite (run_bind_Done _ _ _ _ _ (run_global_slot m' _ _ Hg)).
    assert (Hc' : managers m' !! this = Some c') by apply lookup_insert_eq.
    rewrite (run_bind_Done _ _ _ _ _ (run_fields _ _ _ Hc')). cbn. by rewrite lookup_insert_eq, lookup_delete_eq.
Qed.

(** Marking a slot for destruction and completing the fence of its tag empties
    the list of marked slots, but destroys nothing: the slot is still in the
    shared core, is found under its tag and key, and is registered with the
    manager. *)
Theorem destroy_keeps_slot this tag key g src m c :
  core_wf m -> managers m !! this = Some c -> core_slot m tag key = Some g ->
  globals m !! g = Some (GlobalMemorySlot.mk tag key src) ->
  arrived m + 1 = expected m ->
  exists m', run (_ ← CommunicationManager.destroyGlobalMemorySlot this g; CommunicationManager.fence this tag) m = Done tt m' /\
    run (CommunicationManager.getGlobalMemorySlot this tag key) m' = Done g m' /\
    globals m' !! g = Some (GlobalMemorySlot.mk tag key src) /\
    exists c', managers m' !! this = Some c' /\ registered_under c' tag !! key = Some g /\
      CommunicationManagerFields._globalMemorySlotsToDestroyPerTag c' !! tag = None.
Proof.
  intros Hw Hc Hs Hg Hl.
  set (d := CommunicationManagerFields._globalMemorySlotsToDestroyPerTag c).
  set (c1 := CommunicationManager.with_to_destroy (<[tag := default [] (d !! tag) ++ [g]]> d) c).
  set (m1 := set_managers (<[this := c1]> (managers m)) m).
  assert (E1 : run (CommunicationManager.destroyGlobalMemorySlot this g) m = Done tt m1).
  { unfold CommunicationManager.destroyGlobalMemorySlot. rewrite (run_bind_Done _ _ _ _ _ (run_global_slot _ _ _ Hg)).
    unfold CommunicationManager.set_fields. apply run_update. by rewrite Hc. }
  destruct (run_fence_last this tag m1 c1) as (c' & E & Hd & Hr & _); [done|apply lookup_insert_eq|done|].
  eexists. split; [by rewrite (run_bind_Done _ _ _ _ _ E1)|]. split_and!; [|done|].
  - unfold CommunicationManager.getGlobalMemorySlot. rewrite run_bind. cbn.
    change (_ ≫= _) with (core_slot m tag key). by rewrite Hs.
  - exists c'. cbn. rewrite lookup_insert_eq. split_and!; [done| |by rewrite Hd, lookup_delete_eq].
    rewrite Hr. apply lookup_union_Some_l. unfold core_slot in Hs. cbn. by destruct (_ !! tag).
Qed.

End Fence.

(** ** Threads that exchange slots and meet *)

(** The slots of the core under a tag. *)
Definition tag_slots (m : Machine Core.t) (tag : Z) : gmap Z nat := default ∅ (Core._globalMemorySlots (backend m) !! tag).

Lemma core_slot_tag m tag key : core_slot m tag key = tag_slots m tag !! key.
Proof. unfold core_slot, tag_slots. by destruct (Core._globalMemorySlots (backend m) !! tag). Qed.

Section Collective.
Import PthreadsCommunicationManager.

(** Each thread has a manager and the local slots it offers, with their keys. *)
Context (tag : Z) (ts : list (nat * list (Z * nat))) (m0 : Machine Core.t).
Implicit Types (m : Machine Core.t) (this : nat) (slots : list (Z * nat)).

Definition keys : list Z := ts ≫= fun t => t.2.*1.

Definition exchange_and_fence (t : nat * list (Z * nat)) : prog (Machine Core.t) unit :=
  _ ← CommunicationManager.exchangeGlobalMemorySlots t.1 tag t.2;
  CommunicationManager.fence t.1 tag.

(** The local slot [l] can be reached by every thread under [key]. *)
Definition published (key : Z) (l : nat) m : Prop :=
  exists g, core_slot m tag key = Some g /\ globals m !! g = Some (GlobalMemorySlot.mk tag key (Some l)) /\
    Core._mutexes (backend m) !! g = Some false.

(** A step before the fence: global slots are made and filed under [touched] keys. *)
Record publishing (touched : Z -> Prop) m m' : Prop := mkPublishing {
  pb_heap : heap m' = heap m;
  pb_locals : locals m' = locals m;
  pb_managers : managers m' = managers m;
  pb_globals : globals m ⊆ globals m';
  pb_mutexes : forall g, is_Some (globals m !! g) -> Core._mutexes (backend m') !! g = Core._mutexes (backend m) !! g;
  pb_wf : core_wf m -> core_wf m';
  pb_slots : forall t key, t <> tag \/ ~ touched key -> core_slot m' t key = core_slot m t key
}.

#[local] Instance publishing_preorder touched : PreOrder (publishing touched).
Proof.
  split; [done|]. intros x y z [] []. split; try congruence; auto.
  - by transitivity (globals y).
  - intros g [s Hs]. rewrite pb_mutexes1, pb_mutexes0; [done|by eexists|]. eexists. by eapply lookup_weaken.
  - intros t key Hk. by rewrite pb_slots1, pb_slots0.
Qed.

Lemma publishing_weaken (A B : Z -> Prop) m m' : (forall key, A key -> B key) -> publishing A m m' -> publishing B m m'.
Proof. intros HAB []. split; try done. intros t key [Ht|Hk]; apply pb_slots0; [by left|right; auto]. Qed.

Lemma published_stable touched key l m m' : publishing touched m m' -> ~ touched key -> published key l m -> published key l m'.
Proof.
  intros [] Hn (g & Hc & Hg & Hm). exists g. rewrite pb_slots0, pb_mutexes0 by (auto || by eexists).
  split_and!; [done| |done]. by eapply lookup_weaken.
Qed.

(** A thread that has filed [done]. *)
Record filed (done : list (Z * nat)) m : Prop := mkFiled {
  fi_base : publishing (fun key => key ∈ keys) m0 m;
  fi_wf : core_wf m;
  fi_published : forall key l, (key, l) ∈ done -> published key l m
}.

Definition filing (slots : list (Z * nat)) : contract (Machine Core.t) :=
  mkContract (publishing (fun key => key ∈ keys /\ key ∉ slots.*1))
             (fun m m' => publishing (fun key => key ∈ slots.*1) m m' /\ barrier m' = barrier m) (fun _ => False).

#[local] Instance filing_Contract slots : Contract (filing slots).
Proof. split; [apply _|]. by intros m. Qed.

Lemma filed_stable slots done : done ⊆ slots -> stable (filing slots) (filed done).
Proof.
  intros Hsub m m' [] Hr. split.
  - etransitivity; [done|]. eapply publishing_weaken; [|exact Hr]. by intros key [].
  - by apply Hr.
  - intros key l Hin. eapply published_stable; [exact Hr| |auto]. intros [_ Hn]. apply Hn, list_elem_of_fmap. exists (key, l). auto.
Qed.

Lemma elem_of_keys t key : t ∈ ts -> key ∈ t.2.*1 -> key ∈ keys.
Proof. intros Ht Hk. apply list_elem_of_bind. by exists t. Qed.

(** ** Before the fence *)

Section Offer.
Context (slots : list (Z * nat)) (Hkeys : forall key, key ∈ slots.*1 -> key ∈ keys).

Lemma triple_new_global_slot done key l :
  done ⊆ slots -> key ∈ slots.*1 ->
  triple (filing slots) (filed done) (new_global_slot tag key (Some l))
    (fun g m => filed done m /\ globals m !! g = Some (GlobalMemorySlot.mk tag key (Some l)) /\ Core._mutexes (backend m) !! g = Some false).
Proof.
  intros Hsub Hk m Hm m' Hr. pose proof (filed_stable slots done Hsub m m' Hm Hr) as Hf. cbn.
  set (g := fresh (dom (globals m'))). assert (Hg : globals m' !! g = None) by (apply not_elem_of_dom; unfold g; apply is_fresh).
  match goal with |- (publishing _ _ ?u /\ _) /\ _ => set (m1 := u) end.
  assert (Hp : forall touched, publishing touched m' m1).
  { intros touched. split; try done; cbn.
    - by apply insert_subseteq.
    - intros x [y Hy]. rewrite lookup_insert_ne; [done|]. intros <-. fold g in Hg. congruence.
    - intros Hw t km k x Ht Hx. destruct (Hw t km k x Ht Hx) as [src Hs]. exists src. cbn. rewrite lookup_insert_ne; [done|].
      intros <-. fold g in Hg. congruence. }
  split; [by split|]. split_and!; [|by cbn; rewrite lookup_insert_eq..]. destruct Hf. split.
  - etransitivity; [done|]. apply Hp.
  - by apply (pb_wf _ _ _ (Hp (fun _ => False))).
  - intros k x Hin. apply (published_stable (fun _ => False) _ _ _ _ (Hp _)); auto.
Qed.

Lemma triple_insertGlobalSlot done key l g :
  done ⊆ slots -> key ∈ slots.*1 -> key ∉ done.*1 ->
  triple (filing slots)
    (fun m => filed done m /\ globals m !! g = Some (GlobalMemorySlot.mk tag key (Some l)) /\ Core._mutexes (backend m) !! g = Some false)
    (Core.insertGlobalSlot tag key g) (fun _ => filed (done ++ [(key, l)])).
Proof.
  intros Hsub Hk Hnew. apply triple_modify.
  { intros m m' (Hf & Hg & Hm) Hr. split_and!; [by eapply filed_stable|eapply lookup_weaken; [exact Hg|apply Hr]|].
    by rewrite (pb_mutexes _ _ _ Hr) by (by eexists). }
  intros m (Hf & Hg & Hm). match goal with |- guar _ _ ?u /\ _ => set (m1 := u) end.
  assert (Hcs : forall t k, core_slot m1 t k = if decide (t = tag /\ k = key) then Some g else core_slot m t k).
  { intros t k. unfold core_slot. cbn. destruct (decide (t = tag)) as [->|Hne].
    - rewrite lookup_insert_eq. cbn. destruct (decide (k = key)) as [->|Hkn].
      + rewrite decide_True by done. by rewrite lookup_insert_eq.
      + rewrite decide_False by (by intros []). rewrite lookup_insert_ne by done. by destruct (Core._globalMemorySlots (backend m) !! tag).
    - rewrite decide_False by (by intros []). by rewrite lookup_insert_ne. }
  assert (Hp : publishing (fun k => k = key) m m1).
  { split; try done.
    - intros Hw t km k x Ht Hx. assert (Hx' : core_slot m1 t k = Some x) by (unfold core_slot; by rewrite Ht).
      rewrite Hcs in Hx'. case_decide as E; [destruct E as [-> ->]; injection Hx' as <-; by exists (Some l)|]. by apply (core_slot_wf m).
    - intros t k Hne. rewrite Hcs, decide_False; [done|]. intros [-> ->]; destruct Hne as [Hn|Hn]; by apply Hn. }
  split.
  - split; [|done]. by eapply publishing_weaken; [|exact Hp]; intros ? ->.
  - destruct Hf. split.
    + etransitivity; [done|]. eapply publishing_weaken; [|exact Hp]. intros ? ->. by apply Hkeys.
    + by apply (pb_wf _ _ _ Hp).
    + intros k x [Hin|[= -> ->]%list_elem_of_singleton]%elem_of_app.
      * eapply published_stable; [exact Hp| |auto]. intros ->. apply Hnew, list_elem_of_fmap. by exists (key, x).
      * exists g. rewrite Hcs, decide_True by done. done.
Qed.

Lemma triple_exchange this todo : forall done,
  slots = done ++ todo -> NoDup slots.*1 ->
  triple (filing slots) (filed done) (exchangeGlobalMemorySlotsImpl this tag todo) (fun _ => filed slots).
Proof.
  unfold exchangeGlobalMemorySlotsImpl. induction todo as [|[key l] todo IH]; intros done Es Hnd.
  { apply triple_ret. by rewrite Es, app_nil_r. }
  assert (Hsub : done ⊆ slots) by (rewrite Es; intros x Hx; apply elem_of_app; by left).
  assert (Hk : key ∈ slots.*1) by (rewrite Es, fmap_app; apply elem_of_app; right; by left).
  assert (Hn : key ∉ done.*1).
  { rewrite Es, fmap_app in Hnd. apply NoDup_app in Hnd as (_ & Hd & _). intros Hin. apply (Hd key Hin). by left. }
  cbn [for_each fst snd]. apply triple_bind with (fun _ => filed (done ++ [(key, l)])); [|intros []; apply (IH (done ++ [(key, l)])); [by rewrite <- app_assoc|done]].
  eapply triple_bind; [by apply triple_new_global_slot|]. intros g. by apply triple_insertGlobalSlot.
Qed.

End Offer.

(** ** Behind the fence *)

(** Everything has been exchanged. *)
Record complete m : Prop := mkComplete {
  co_heap : heap m = heap m0;
  co_locals : locals m = locals m0;
  co_globals : globals m0 ⊆ globals m;
  co_mutexes : forall g, is_Some (globals m0 !! g) -> Core._mutexes (backend m) !! g = Core._mutexes (backend m0) !! g;
  co_wf : core_wf m;
  co_slots : forall t key, t <> tag \/ key ∉ keys -> core_slot m t key = core_slot m0 t key;
  co_published : forall this slots key l, (this, slots) ∈ ts -> (key, l) ∈ slots -> published key l m;
  co_managers : forall j, j ∉ ts.*1 -> managers m !! j = managers m0 !! j
}.

(** Only managers in [mine] change. *)
Record registering (mine : nat -> Prop) m m' : Prop := mkRegistering {
  rg_heap : heap m' = heap m;
  rg_locals : locals m' = locals m;
  rg_globals : globals m' = globals m;
  rg_backend : backend m' = backend m;
  rg_managers : forall j, ~ mine j -> managers m' !! j = managers m !! j
}.

#[local] Instance registering_preorder mine : PreOrder (registering mine).
Proof. split; [done|]. intros x y z [] []. split; try congruence. intros j Hj. by rewrite rg_managers1, rg_managers0. Qed.

Lemma complete_registering mine m m' : (forall j, mine j -> j ∈ ts.*1) -> registering mine m m' -> complete m -> complete m'.
Proof.
  intros Hmine [] []. split; unfold published, core_wf, core_slot in *; rewrite ?rg_heap0, ?rg_locals0, ?rg_globals0, ?rg_backend0; try done.
  intros j Hj. rewrite rg_managers0; [auto|]. intros Hm. by apply Hj, Hmine.
Qed.

Definition noting this : contract (Machine Core.t) :=
  mkContract (registering (fun j => j ∈ ts.*1 /\ j <> this)) (registering (fun j => j = this)) (fun _ => False).

#[local] Instance noting_Contract this : Contract (noting this).
Proof. split; apply _. Qed.

(** What a manager with the fields [c] has after the fence. *)
Definition has_registered (c : CommunicationManagerFields.t) m (c' : CommunicationManagerFields.t) : Prop :=
  CommunicationManagerFields._globalMemorySlotsToDestroyPerTag c' = delete tag (CommunicationManagerFields._globalMemorySlotsToDestroyPerTag c) /\
  registered_under c' tag = tag_slots m tag ∪ registered_under c tag /\
  forall t, t <> tag -> registered_under c' t = registered_under c t.

Definition noted this m : Prop :=
  complete m /\ exists c c', managers m0 !! this = Some c /\ managers m !! this = Some c' /\ has_registered c m c'.

Lemma complete_stable this : stable (noting this) complete.
Proof. intros m m' Hc Hr. by eapply complete_registering; [|exact Hr|]; [intros j []|]. Qed.

Lemma manager_stable this c : stable (noting this) (fun m => managers m !! this = Some c).
Proof. intros m m' Hc Hr. rewrite (rg_managers _ _ _ Hr); [done|]. by intros []. Qed.

(** At its manager, with the slots of the tag read. *)
Definition at_manager this (km : gmap Z nat) (c : CommunicationManagerFields.t) m : Prop :=
  complete m /\ tag_slots m tag = km /\ managers m !! this = Some c.

Lemma at_manager_stable this km c : stable (noting this) (at_manager this km c).
Proof.
  intros m m' (Hc & Hk & Hm) Hr. split_and!; [by eapply complete_stable| |by apply (manager_stable this c m)].
  unfold tag_slots in *. by rewrite (rg_backend _ _ _ Hr).
Qed.

Lemma noted_stable this : stable (noting this) (noted this).
Proof.
  intros m m' (Hc & c & c' & H0 & Hm & Hr & Hu & Ho) Hrel. split; [by eapply complete_stable|]. exists c, c'.
  split; [done|]. split; [by apply (manager_stable this c' m)|]. split; [done|]. split; [|done]. unfold tag_slots in *. by rewrite (rg_backend _ _ _ Hrel).
Qed.

(** The fields of its manager change. *)
Lemma triple_set_fields this km c f :
  this ∈ ts.*1 ->
  triple (noting this) (at_manager this km c) (CommunicationManager.set_fields this f) (fun _ => at_manager this km (f c)).
Proof.
  intros Hthis. apply triple_update; [apply at_manager_stable|]. intros m (Hc & Hk & Hm). rewrite Hm. cbn. eexists. split; [done|].
  match goal with |- _ /\ at_manager _ _ _ ?u => set (m1 := u) end. assert (Hr : registering (fun j => j = this) m m1).
  { split; try done. intros j Hj. cbn. by rewrite lookup_insert_ne. }
  split; [exact Hr|]. split; [by eapply complete_registering; [|exact Hr|]; [intros j ->|]|]. split; [done|apply lookup_insert_eq].
Qed.

Lemma triple_registerGlobalMemorySlot this km c key g :
  this ∈ ts.*1 -> km !! key = Some g ->
  triple (noting this) (at_manager this km c) (CommunicationManager.registerGlobalMemorySlot this g)
    (fun _ => at_manager this km (CommunicationManager.with_tag_key_map
       (<[tag := <[key := g]> (registered_under c tag)]> (CommunicationManagerFields._globalMemorySlotTagKeyMap c)) c)).
Proof.
  intros Hthis Hk. unfold CommunicationManager.registerGlobalMemorySlot.
  apply triple_bind with (fun s m => at_manager this km c m /\ GlobalMemorySlot._globalTag s = tag /\ GlobalMemorySlot._globalKey s = key).
  - apply triple_fetch; [apply _|apply at_manager_stable|]. intros m Hm. pose proof Hm as (Hc & Et & _).
    destruct (core_slot_wf m tag key g (co_wf _ Hc)) as [src Hs]; [by rewrite core_slot_tag, Et|]. eexists. by split.
  - intros s m (Hm & Ht & Hkey). cbv zeta. rewrite Ht, Hkey.
    exact (triple_set_fields this km c (fun c => CommunicationManager.with_tag_key_map
       (<[tag := <[key := g]> (registered_under c tag)]> (CommunicationManagerFields._globalMemorySlotTagKeyMap c)) c) Hthis m Hm).
Qed.

Lemma triple_register_all this km : forall (entries : list (Z * nat)) c,
  this ∈ ts.*1 -> NoDup entries.*1 -> (forall key g, (key, g) ∈ entries -> km !! key = Some g) ->
  triple (noting this) (at_manager this km c) (for_each entries (fun e => CommunicationManager.registerGlobalMemorySlot this e.2))
    (fun _ m => exists c', at_manager this km c' m /\
       CommunicationManagerFields._globalMemorySlotsToDestroyPerTag c' = CommunicationManagerFields._globalMemorySlotsToDestroyPerTag c /\
       registered_under c' tag = list_to_map entries ∪ registered_under c tag /\
       forall t, t <> tag -> registered_under c' t = registered_under c t).
Proof.
  induction entries as [|[key g] entries IH]; intros c Hthis Hnd Hg.
  { apply triple_ret. intros m Hm. exists c. split_and!; [done|done| |done]. symmetry. apply (left_id_L ∅ (∪)). }
  cbn [fmap list_fmap fst] in Hnd. apply NoDup_cons in Hnd as [Hk Hnd]. cbn [for_each snd].
  eapply triple_bind; [apply triple_registerGlobalMemorySlot; [done|by apply Hg; left]|]. intros [].
  eapply triple_conseq; [apply IH; [done|done|by intros; apply Hg; right]|done|].
  intros [] m (c' & Hm & Hd & Hr & Ho). exists c'. split_and!; [done|by rewrite Hd| |].
  - rewrite Hr. unfold registered_under at 1. cbn. rewrite lookup_insert_eq. cbn.
    rewrite <- insert_union_r by (by apply not_elem_of_list_to_map_1). by rewrite insert_union_l.
  - intros t Ht. rewrite Ho by done. unfold registered_under. cbn. by rewrite lookup_insert_ne.
Qed.

(** What follows the fence in [CommunicationManager.fence]. *)
Definition register_after_fence (t : nat * list (Z * nat)) : prog (Machine Core.t) unit :=
  _ ← (slots ← Core.getKeyMemorySlots tag;
       for_each (Core.by_key slots) (fun entry => CommunicationManager.registerGlobalMemorySlot t.1 entry.2));
  CommunicationManager.set_fields t.1 (fun c =>
    CommunicationManager.with_to_destroy (delete tag (CommunicationManagerFields._globalMemorySlotsToDestroyPerTag c)) c).

Lemma fence_then_register (t : nat * list (Z * nat)) : fence_then (CommunicationManager.fence t.1 tag) (register_after_fence t).
Proof.
  eexists. split; [reflexivity|]. intros m. cbn. change (Core._barrier (backend m)) with (barrier m).
  by destruct (PthreadBarrier.completes (barrier m)).
Qed.

Lemma triple_after_fence (t : nat * list (Z * nat)) c :
  t.1 ∈ ts.*1 -> managers m0 !! t.1 = Some c ->
  triple (noting t.1) (fun m => complete m /\ managers m !! t.1 = Some c) (register_after_fence t) (fun _ => noted t.1).
Proof.
  intros Hthis H0. unfold register_after_fence. apply triple_assoc.
  apply triple_bind with (fun km => at_manager t.1 km c).
  { apply triple_gets; [apply _| |by intros m []]. intros m m' [Hc Hm] Hr.
    split; [by eapply complete_stable|by apply (manager_stable t.1 c m)]. }
  intros km. eapply triple_bind.
  { apply (triple_register_all t.1 km (Core.by_key km) c Hthis).
    - rewrite by_key_perm. apply NoDup_fst_map_to_list.
    - intros key g Hin. rewrite by_key_perm in Hin. by apply elem_of_map_to_list in Hin. }
  intros []. apply triple_exists. intros c'. intros m (Hm & Hd & Hr & Ho).
  eapply safe_mono; [|by apply triple_set_fields]. intros [] u (Hc & Hk & Hu). split; [done|]. eexists c, _. split_and!; [done|exact Hu|].
  split_and!; [by cbn; rewrite Hd| |exact Ho]. rewrite Hk. etransitivity; [exact Hr|]. f_equal.
  rewrite (list_to_map_proper (Core.by_key km) (map_to_list km)); [apply list_to_map_to_list| |apply by_key_perm].
  rewrite by_key_perm. apply NoDup_fst_map_to_list.
Qed.

(** ** The threads together *)

Lemma bind_NoDup {A B : Type} (f : A -> list B) (l : list A) : NoDup (l ≫= f) ->
  (forall x, x ∈ l -> NoDup (f x)) /\
  (forall i j x y b, l !! i = Some x -> l !! j = Some y -> i <> j -> b ∈ f x -> b ∉ f y).
Proof.
  induction l as [|z l IH]; [by split; [intros ? ?%not_elem_of_nil|]|]. cbn. intros (Hz & Hd & Hl)%NoDup_app.
  destruct (IH Hl) as [IH1 IH2].
  assert (Hin : forall j y b, l !! j = Some y -> b ∈ f y -> b ∈ l ≫= f).
  { intros j y b Hj Hb. apply list_elem_of_bind. exists y. split; [done|]. by eapply list_elem_of_lookup_2. }
  split; [by intros x [->|Hx]%elem_of_cons; [|apply IH1]|].
  intros [|i] [|j] x y b Hi Hj Hne Hb Hb'; [done|..]; cbn in Hi, Hj.
  - injection Hi as ->. exact (Hd b Hb (Hin _ _ _ Hj Hb')).
  - injection Hj as ->. exact (Hd b Hb' (Hin _ _ _ Hi Hb)).
  - exact (IH2 i j x y b Hi Hj ltac:(congruence) Hb Hb').
Qed.

Section Together.
Hypotheses (Hkeys : NoDup keys) (Hmanagers : NoDup ts.*1).
Hypothesis Hfields : forall this, this ∈ ts.*1 -> is_Some (managers m0 !! this).

Definition thread (k : nat) : nat * list (Z * nat) := nth k ts (0%nat, []).

Lemma thread_lookup k : (k < length ts)%nat -> ts !! k = Some (thread k).
Proof. intros Hk. destruct (lookup_lt_is_Some_2 ts k Hk) as [t Ht]. rewrite Ht. f_equal. symmetry. by apply nth_lookup_Some. Qed.

Lemma thread_in k : (k < length ts)%nat -> thread k ∈ ts.
Proof. intros Hk. by eapply list_elem_of_lookup_2, thread_lookup. Qed.

Lemma thread_manager k : (k < length ts)%nat -> (thread k).1 ∈ ts.*1.
Proof. intros Hk. by apply list_elem_of_fmap_2, thread_in. Qed.

Lemma thread_manager_ne i j : (i < length ts)%nat -> (j < length ts)%nat -> i <> j -> (thread i).1 <> (thread j).1.
Proof.
  intros Hi Hj Hne E. apply Hne, (NoDup_lookup ts.*1 i j (thread i).1 Hmanagers).
  - by rewrite list_lookup_fmap, thread_lookup.
  - by rewrite list_lookup_fmap, thread_lookup, E.
Qed.

(** All have filed their slots: everything is there, and a barrier that moves on
    makes no difference to that. *)
Lemma filed_complete b m : ts <> [] -> (forall k, (k < length ts)%nat -> filed (thread k).2 m) -> complete (at_barrier b m).
Proof.
  intros Hne Hall. assert (Hn : (0 < length ts)%nat) by (destruct ts; cbn; [done|lia]). destruct (Hall 0%nat Hn) as [[] Hw _].
  split; try done.
  - intros this slots key l [k Hk]%list_elem_of_lookup Hin. pose proof (lookup_lt_Some _ _ _ Hk) as Hl. rewrite thread_lookup in Hk by done.
    injection Hk as Hk. apply (fi_published _ _ (Hall k Hl) key l). by rewrite Hk.
  - intros j _. cbn. by rewrite pb_managers0.
Qed.

Lemma collective_meets :
  ts <> [] ->
  meets (length ts) (fun k => CommunicationManager.fence (thread k).1 tag) (fun k => register_after_fence (thread k))
    (fun k => filing (thread k).2) (fun k => noting (thread k).1) (fun k => filed (thread k).2) (fun k => noted (thread k).1).
Proof.
  intros Hne. destruct (bind_NoDup _ _ Hkeys) as [Hown Hdis]. split.
  - split; [apply _|by intros; apply filed_stable|]. intros i j m m' Hi Hj Hij [Hp _]. eapply publishing_weaken; [|exact Hp].
    intros key Hk. split; [by eapply elem_of_keys, Hk; apply thread_in|].
    by apply (Hdis i j (thread i) (thread j)); [apply thread_lookup..|done|].
  - split; [apply _|intros; apply noted_stable|]. intros i j m m' Hi Hj Hij []. split; try done.
    intros x Hx. apply rg_managers0. intros ->. apply Hx. split; [by apply thread_manager|by apply thread_manager_ne].
  - by intros k m m' _ [].
  - intros k m m' _ []. unfold barrier. by rewrite rg_backend0.
  - intros k m _. by split; intros [].
  - intros k m b _. by split.
  - intros m b k Hall Hk. destruct (Hfields (thread k).1) as [c Hc]; [by apply thread_manager|].
    apply (triple_after_fence (thread k) c); [by apply thread_manager|done|]. split; [by apply filed_complete|].
    change (managers m !! (thread k).1 = Some c). by rewrite (pb_managers _ _ _ (fi_base _ _ (Hall k Hk))).
  - intros k _. apply fence_then_register.
Qed.

Lemma map_threads {B : Type} (f : nat * list (Z * nat) -> B) : map f ts = map (fun k => f (thread k)) (seq 0 (length ts)).
Proof.
  apply list_eq. intros k. rewrite !list_lookup_fmap. destruct (decide (k < length ts)%nat) as [Hk|Hk].
  - rewrite lookup_seq_lt by done. cbn. by rewrite thread_lookup.
  - rewrite !lookup_ge_None_2; [done|rewrite length_seq; lia|lia].
Qed.

End Together.
End Collective.

(** C7: [N] threads of a process, each with a communication manager of its own,
    exchange slots under one tag, all keys distinct, and call the fence of the
    tag.  In every interleaving: they are never stuck before all have returned;
    and when all have, each local slot that any of them offered is found under
    the tag and its key as a global slot with this source and a free lock, the
    same one for all, which every manager has registered; every manager has
    registered the slots of the core under the tag and kept what it had under
    other tags, and has forgotten what was marked for destruction under the tag;
    memory, local slots, other managers, older global slots and what the core has
    under other tags and keys are as before. *)
Theorem exchange_meets tag (ts : list (nat * list (Z * nat))) (m m' : Machine Core.t) ps' :
  ts <> [] -> NoDup ts.*1 -> NoDup (keys ts) -> core_wf m ->
  (forall this, this ∈ ts.*1 -> is_Some (managers m !! this)) ->
  expected m = Z.of_nat (length ts) -> arrived m = 0 ->
  pool_steps (map (exchange_and_fence tag) ts, m) (ps', m') ->
  (Forall finished ps' \/ exists next, pool_step (ps', m') next) /\
  (Forall finished ps' ->
     (forall k, (k < length ts)%nat -> ps' !! k = Some (Ret tt)) /\
     (forall this slots key l, (this, slots) ∈ ts -> (key, l) ∈ slots -> exists g,
        core_slot m' tag key = Some g /\ globals m' !! g = Some (GlobalMemorySlot.mk tag key (Some l)) /\
        locked (backend m') g = Some false /\
        forall other, other ∈ ts.*1 -> exists c, managers m' !! other = Some c /\ registered_under c tag !! key = Some g) /\
     (forall this c, this ∈ ts.*1 -> managers m !! this = Some c -> exists c', managers m' !! this = Some c' /\ has_registered tag c m' c') /\
     complete tag ts m m').
Proof.
  intros Hne Hm Hk Hw Hf He Ha Hs. assert (Hn : (0 < length ts)%nat) by (destruct ts; cbn; [done|lia]).
  rewrite (map_threads ts) in Hs. unfold exchange_and_fence in Hs.
  destruct (fence_meeting (length ts) (fun k => CommunicationManager.exchangeGlobalMemorySlots (thread ts k).1 tag (thread ts k).2)
              _ _ _ _ _ _ (collective_meets tag ts m Hk Hm Hf Hne) m ps' m' Hn He Ha) as [Hp Hend]; [|exact Hs|].
  { intros k Hkn. apply (triple_exchange tag ts m (thread ts k).2) with (done := []); [|done| |].
    - intros key. by apply elem_of_keys, thread_in.
    - by apply (proj1 (bind_NoDup _ _ Hk)), thread_in.
    - split; [by apply publishing_preorder|done|by intros ?? ?%not_elem_of_nil]. }
  split; [done|]. intros Hfin. specialize (Hend Hfin). pose proof (Hend 0%nat Hn) as [_ [Hco _]].
  assert (Hnoted : forall this, this ∈ ts.*1 -> exists c c', managers m !! this = Some c /\ managers m' !! this = Some c' /\ has_registered tag c m' c').
  { intros this (t & -> & [k Ht]%list_elem_of_lookup)%list_elem_of_fmap. pose proof (lookup_lt_Some _ _ _ Ht) as Hl.
    destruct (Hend k Hl) as [_ [_ Hn']]. rewrite thread_lookup in Ht by done. injection Ht as <-. exact Hn'. }
  split_and!; [by intros k Hkn; apply Hend| | |done].
  - intros this slots key l Hin Hkl. destruct (co_published _ _ _ _ Hco _ _ _ _ Hin Hkl) as (g & Hc & Hg & Hmx). exists g.
    split_and!; [done|done|done|]. intros other Ho. destruct (Hnoted other Ho) as (c & c' & _ & Hc' & _ & Hr & _). exists c'. split; [done|].
    rewrite Hr. apply lookup_union_Some_l. by rewrite <- core_slot_tag.
  - intros this c Hin Hc. destruct (Hnoted this Hin) as (c0 & c' & H0 & Hc' & Hr). exists c'. split; [done|]. congruence.
Qed.

(** ** Copies *)

Section Copies.
Implicit Types m : Machine Core.t.
Import PthreadsCommunicationManager.

(** The message counters after a copy between two different slots. *)
Definition counted (n : nat) (d s : nat) (m m' : Machine Core.t) : Prop :=
  exists sd ss, locals m !! d = Some sd /\ locals m !! s = Some ss /\
    locals m' = <[s := Nat.iter n LocalMemorySlot.increaseMessagesSent ss]>
                  (<[d := Nat.iter n LocalMemorySlot.increaseMessagesRecv sd]> (locals m)).

Lemma run_counters d s m sd ss :
  d <> s -> locals m !! d = Some sd -> locals m !! s = Some ss ->
  run (_ ← increaseMessageRecvCounter d; increaseMessageSentCounter s) m =
  Done tt (set_locals (<[s := LocalMemorySlot.increaseMessagesSent ss]>
             (<[d := LocalMemorySlot.increaseMessagesRecv sd]> (locals m))) m).
Proof.
  intros Hne Hd Hs. unfold increaseMessageRecvCounter, increaseMessageSentCounter.
  rewrite (run_bind_Done _ _ _ _ _ (PthreadsFacts.run_update_local _ _ _ _ Hd)).
  rewrite (PthreadsFacts.run_update_local _ _ _ ss); [done|]. cbn. by rewrite lookup_insert_ne.
Qed.

Lemma run_memcpyImplLL_counts this d s m sd ss dO sO n bs :
  d <> s -> locals m !! d = Some sd -> locals m !! s = Some ss ->
  mem_load (heap m) (ptr_add (LocalMemorySlot._pointer ss) sO) n = Some bs ->
  accessible (heap m) (ptr_add (LocalMemorySlot._pointer sd) dO) n ->
  exists h, mem_store (heap m) (ptr_add (LocalMemorySlot._pointer sd) dO) bs = Some h /\
    run (memcpyImplLL this d dO s sO n) m =
    Done tt (set_locals (<[s := LocalMemorySlot.increaseMessagesSent ss]>
               (<[d := LocalMemorySlot.increaseMessagesRecv sd]> (locals m))) (set_heap h m)).
Proof.
  intros Hne Hd Hs HL HA. destruct (mem_load_length _ _ _ _ HL) as [Hn _].
  destruct (mem_store_accessible (heap m) (ptr_add (LocalMemorySlot._pointer sd) dO) bs) as [h Eh]; [by rewrite Hn|].
  exists h. split; [done|]. unfold memcpyImplLL.
  erewrite run_bind_Done by (eapply run_getPointer; exists ss; split_and!; [exact Hs|done|done]).
  erewrite run_bind_Done by (eapply run_getPointer; exists sd; split_and!; [exact Hd|done|done]).
  rewrite (run_bind_Done _ _ _ _ _ (PthreadsFacts.run_std_memcpy _ _ _ _ _ _ HL Eh)).
  by rewrite (run_counters d s (set_heap h m) sd ss).
Qed.

(** A copy between two local slots that fits in both moves the bytes and
    counts one message received by the destination and one sent by the source;
    one that does not fit throws and changes nothing.  The same copy addressed
    through the global slot of the destination counts both twice. *)
Theorem memcpy_counts_twice this d s g gs m sd ss dO sO n bs :
  d <> s -> locals m !! d = Some sd -> locals m !! s = Some ss -> 
  globals m !! g = Some gs -> GlobalMemorySlot._sourceLocalMemorySlot gs = Some d ->
  is_size (n + dO) -> is_size (n + sO) ->
  mem_load (heap m) (ptr_add (LocalMemorySlot._pointer ss) sO) n = Some bs ->
  accessible (heap m) (ptr_add (LocalMemorySlot._pointer sd) dO) n ->
  if (n + sO <=? LocalMemorySlot._size ss) && (n + dO <=? LocalMemorySlot._size sd)
  then exists h m1 m2, mem_store (heap m) (ptr_add (LocalMemorySlot._pointer sd) dO) bs = Some h /\
    run (CommunicationManager.memcpyLL this d dO s sO n) m = Done tt m1 /\ heap m1 = h /\ counted 1 d s m m1 /\
    run (CommunicationManager.memcpyGL this g dO s sO n) m = Done tt m2 /\ heap m2 = h /\ counted 2 d s m m2
  else run (CommunicationManager.memcpyLL this d dO s sO n) m = Thrown runtime m /\
       run (CommunicationManager.memcpyGL this g dO s sO n) m = Thrown runtime m.
Proof.
  intros Hne Hd Hs Hg Hsrc Hzd Hzs HL HA.
  assert (Sd : slot_at m d (LocalMemorySlot._pointer sd) (LocalMemorySlot._size sd)) by (by exists sd).
  assert (Ss : slot_at m s (LocalMemorySlot._pointer ss) (LocalMemorySlot._size ss)) by (by exists ss).
  assert (Bd : backed_by m g d) by (by exists gs).
  destruct ((n + sO <=? LocalMemorySlot._size ss) && (n + dO <=? LocalMemorySlot._size sd)) eqn:Ef.
  - apply andb_true_iff in Ef as [Es%Z.leb_le Ed%Z.leb_le].
    destruct (run_memcpyImplLL_counts this d s m sd ss dO sO n bs Hne Hd Hs HL HA) as (h & Hst & E).
    assert (EL : run (CommunicationManager.memcpyLL_with memcpyImplLL this d dO s sO n) m =
      Done tt (set_locals (<[s := LocalMemorySlot.increaseMessagesSent ss]>
               (<[d := LocalMemorySlot.increaseMessagesRecv sd]> (locals m))) (set_heap h m))).
    { unfold CommunicationManager.memcpyLL_with. rewrite (run_bind_Done _ _ _ _ _ (run_getSize _ _ _ _ Ss)).
      rewrite (run_bind_Done _ _ _ _ _ (run_getSize _ _ _ _ Sd)). cbv zeta.
      do 2 (erewrite run_bind_Done by (by apply run_throw_if_false, gtb_wrap_false)). exact E. }
    eexists h, _, _. split; [done|]. split; [exact EL|]. split; [done|]. split; [by exists sd, ss|]. split; [|split].
    + unfold CommunicationManager.memcpyGL. rewrite (run_bind_Done _ _ _ _ _ (run_getSize _ _ _ _ Ss)). cbv zeta.
      erewrite run_bind_Done by (by apply run_throw_if_false, gtb_wrap_false). cbn [CommunicationManager.memcpyImplGL pthreads_backend].
      unfold PthreadsCommunicationManager.memcpyImplGL. rewrite (run_bind_Done _ _ _ _ _ (run_getSource _ _ _ Bd)).
      rewrite (run_bind_Done _ _ _ _ _ EL).
      apply (run_counters d s _ (LocalMemorySlot.increaseMessagesRecv sd) (LocalMemorySlot.increaseMessagesSent ss));
        cbn; [done|by rewrite lookup_insert_ne, lookup_insert_eq|by rewrite lookup_insert_eq].
    + done.
    + exists sd, ss. split_and!; [done|done|]. cbn. apply map_eq. intros i. destruct (decide (i = s)) as [->|His].
      * by rewrite !lookup_insert_eq.
      * destruct (decide (i = d)) as [->|Hid].
        -- by rewrite (lookup_insert_ne _ s), lookup_insert_eq, (lookup_insert_ne _ s), lookup_insert_eq by done.
        -- by rewrite !lookup_insert_ne by done.
  - assert (EL : run (CommunicationManager.memcpyLL this d dO s sO n) m = Thrown runtime m).
    { eapply run_memcpyLL_reject; [exact Sd|exact Ss|]. rewrite !wrap64_small by done.
      apply andb_false_iff in Ef as [E%Z.leb_gt|E%Z.leb_gt]; lia. }
    split; [exact EL|]. unfold CommunicationManager.memcpyGL.
    rewrite (run_bind_Done _ _ _ _ _ (run_getSize _ _ _ _ Ss)). cbv zeta.
    destruct (n +w sO >? LocalMemorySlot._size ss); [done|].
    erewrite run_bind_Done by (by apply run_throw_if_false). cbn [CommunicationManager.memcpyImplGL pthreads_backend].
    unfold PthreadsCommunicationManager.memcpyImplGL. rewrite (run_bind_Done _ _ _ _ _ (run_getSource _ _ _ Bd)).
    rewrite run_bind. unfold CommunicationManager.memcpyLL in EL. cbn [CommunicationManager.memcpyImplLL pthreads_backend] in EL. by rewrite EL.
Qed.

(** The bounds checks of a copy add the size and the offset modulo 2^64.  For
    an offset and a size whose sum wraps around to something small the checks
    pass, and the copy then reads far outside the source. *)
Theorem memcpy_check_wraps this d s m sd ss b o block sO n :
  locals m !! d = Some sd -> locals m !! s = Some ss -> LocalMemorySlot._pointer ss = Ptr b o -> 0 <= o ->
  heap m !! b = Some block -> Z.of_nat (length block) <= PTRDIFF_MAX ->
  is_size n -> is_size sO -> SIZE_BOUND <= n + sO ->
  n + sO - SIZE_BOUND <= LocalMemorySlot._size ss -> n + sO - SIZE_BOUND <= LocalMemorySlot._size sd ->
  run (CommunicationManager.memcpyLL this d sO s sO n) m = Crashed undefined m.
Proof.
  intros Hd Hs Hp Ho Hb Hlen Hn HsO Hwrap Hs' Hd'.
  assert (Sd : slot_at m d (LocalMemorySlot._pointer sd) (LocalMemorySlot._size sd)) by (by exists sd).
  assert (Ss : slot_at m s (LocalMemorySlot._pointer ss) (LocalMemorySlot._size ss)) by (by exists ss).
  assert (Ew : n +w sO = n + sO - SIZE_BOUND).
  { unfold wrap64. symmetry. apply (Z.mod_unique _ _ 1); unfold is_size in *; lia. }
  unfold CommunicationManager.memcpyLL, CommunicationManager.memcpyLL_with.
  rewrite (run_bind_Done _ _ _ _ _ (run_getSize _ _ _ _ Ss)), (run_bind_Done _ _ _ _ _ (run_getSize _ _ _ _ Sd)). cbv zeta.
  rewrite Ew. do 2 erewrite run_bind_Done by (apply run_throw_if_false; case_bool; lia).
  cbn [CommunicationManager.memcpyImplLL pthreads_backend]. unfold PthreadsCommunicationManager.memcpyImplLL.
  rewrite (run_bind_Done _ _ _ _ _ (run_getPointer _ _ _ _ Ss)), (run_bind_Done _ _ _ _ _ (run_getPointer _ _ _ _ Sd)).
  assert (HL : mem_load (heap m) (ptr_add (LocalMemorySlot._pointer ss) sO) n = None).
  { rewrite Hp. cbn. rewrite Hb. cbn. case_bool_decide; [|done]. unfold read_at. rewrite bool_decide_false; [done|].
    unfold is_size, PTRDIFF_MAX, SIZE_BOUND in *. lia. }
  rewrite run_bind. unfold std_memcpy, update. cbn [run]. by rewrite HL.
Qed.

End Copies.

(** ** Concrete machines *)

Module PthreadsDemo.

Definition slot (b : nat) (n : Z) : LocalMemorySlot.t := LocalMemorySlot.make (Ptr b 0) n None.

(** Two local slots of eight bytes, one global slot for the first under tag 7
    and key 3, in the core and registered with manager 0, a barrier for [n]
    threads. *)
Definition machine (n : Z) : Machine Core.t :=
  mkMachine
    (<[0%nat := replicate 8 x00]> (<[1%nat := [x01; x02; x03; x04; x05; x06; x07; x08]]> ∅))
    (<[0%nat := slot 0 8]> (<[1%nat := slot 1 8]> ∅))
    (<[10%nat := GlobalMemorySlot.mk 7 3 (Some 0%nat)]> ∅)
    (<[0%nat := CommunicationManagerFields.mk (<[7 := <[3 := 10%nat]> ∅]> ∅) ∅]> ∅)
    (Core.mk n (PthreadBarrier.init n) (<[7 := <[3 := 10%nat]> ∅]> ∅) 0 ∅ (<[10%nat := false]> ∅) false).

Lemma core_wf_demo n : core_wf (machine n).
Proof.
  intros tag km key g Ht Hk. cbn in Ht. apply lookup_insert_Some in Ht as [[<- <-]|[_ Ht]]; [|done].
  apply lookup_insert_Some in Hk as [[<- <-]|[_ Hk]]; [|done]. by exists (Some 0%nat).
Qed.

(** Two managers, a barrier for two threads; the first offers slot 1 under key 4,
    the second slot 0 under key 5, both under tag 7. *)
Definition two_managers : Machine Core.t :=
  set_managers (<[1%nat := CommunicationManagerFields.mk ∅ (<[7 := [10%nat]]> ∅)]> (managers (machine 2))) (machine 2).

Definition two_threads : list (nat * list (Z * nat)) := [(0%nat, [(4, 1%nat)]); (1%nat, [(5, 0%nat)])].

(** The first thread arrives, the second one arrives and returns, then the first
    returns. *)
Definition both_returned : option (list (prog (Machine Core.t) unit) * Machine Core.t) :=
  schedule ([0%nat; 0%nat; 0%nat; 1%nat; 1%nat; 1%nat] ++ replicate 8 1%nat ++ replicate 9 0%nat)
           (map (exchange_and_fence 7) two_threads) two_managers.

Definition met_machine : Machine Core.t := default two_managers (snd <$> both_returned).

Lemma exchange_meets_witness :
  both_returned = Some ([Ret tt; Ret tt], met_machine) /\
  (exists g, core_slot met_machine 7 5 = Some g /\ globals met_machine !! g = Some (GlobalMemorySlot.mk 7 5 (Some 0%nat)) /\
     locked (backend met_machine) g = Some false /\
     forall other, other ∈ [0%nat; 1%nat] -> exists c, managers met_machine !! other = Some c /\ registered_under c 7 !! 5 = Some g) /\
  complete 7 two_threads two_managers met_machine.
Proof.
  assert (E : both_returned = Some ([Ret tt; Ret tt], met_machine)) by (vm_compute; reflexivity).
  split; [exact E|].
  destruct (exchange_meets 7 two_threads two_managers met_machine [Ret tt; Ret tt]) as [_ Hend].
  - done.
  - vm_compute. repeat constructor; by intros ?%list_elem_of_singleton || by intros ?%not_elem_of_nil.
  - vm_compute. repeat constructor; by intros ?%list_elem_of_singleton || by intros ?%not_elem_of_nil.
  - exact (core_wf_demo 2).
  - intros this Hin. cbn in Hin. apply elem_of_cons in Hin as [->|Hin]; [by eexists|]. apply list_elem_of_singleton in Hin as ->. by eexists.
  - reflexivity.
  - reflexivity.
  - eapply schedule_steps. exact E.
  - destruct Hend as (_ & Hfound & _ & Hco); [by repeat constructor|]. split; [|exact Hco].
    apply (Hfound 1%nat [(5, 0%nat)] 5 0%nat); [right; left|left].
Defined.

Lemma exchange_publishes_witness :
  exists m', run (CommunicationManager.exchangeGlobalMemorySlots 0 9 [(4, 1%nat); (5, 0%nat)]) (machine 1) = Done tt m' /\ core_wf m' /\
    (forall key l other, (key, l) ∈ [(4, 1%nat); (5, 0%nat)] -> exists g,
       run (CommunicationManager.getGlobalMemorySlot other 9 key) m' = Done g m' /\
       globals m' !! g = Some (GlobalMemorySlot.mk 9 key (Some l)) /\ locked (backend m') g = Some false) /\
    (forall t key, t <> 9 \/ key ∉ [4; 5] -> core_slot m' t key = core_slot (machine 1) t key).
Proof.
  apply (exchange_publishes 0 9 [(4, 1%nat); (5, 0%nat)] (machine 1) (core_wf_demo 1)).
  cbn. apply NoDup_cons. split; [by intros Hin%list_elem_of_singleton|apply NoDup_singleton].
Defined.

Lemma fence_registers_witness :
  exists m' c', run (CommunicationManager.fence 0 7) (machine 1) = Done tt m' /\ heap m' = heap (machine 1) /\
    globals m' = globals (machine 1) /\ managers m' = <[0%nat := c']> (managers (machine 1)) /\
    arrived m' = 0 /\
    CommunicationManagerFields._globalMemorySlotsToDestroyPerTag c' !! 7 = None /\
    (forall key g, core_slot (machine 1) 7 key = Some g -> registered m' 0 g) /\
    registered_under c' 7 = <[3 := 10%nat]> ∅ ∪ <[3 := 10%nat]> ∅ /\
    (forall t, t <> 7 -> registered_under c' t = default ∅ ((<[7 := <[3 := 10%nat]> ∅]> ∅ : gmap Z (gmap Z nat)) !! t)).
Proof. exact (fence_registers 0 7 (machine 1) _ (core_wf_demo 1) eq_refl). Defined.

Lemma deregister_still_found_witness :
  exists m', run (CommunicationManager.deregisterGlobalMemorySlot 0 10) (machine 1) = Done tt m' /\
    run (CommunicationManager.getGlobalMemorySlot 0 7 3) m' = Done 10%nat m' /\
    run (CommunicationManager.acquireGlobalLock 0 10) m' = Thrown logic m'.
Proof. exact (deregister_still_found 0 7 3 10 (Some 0%nat) (machine 1) _ _ eq_refl eq_refl eq_refl eq_refl). Defined.

Lemma destroy_keeps_slot_witness :
  exists m', run (_ ← CommunicationManager.destroyGlobalMemorySlot 0 10; CommunicationManager.fence 0 7) (machine 1) = Done tt m' /\
    run (CommunicationManager.getGlobalMemorySlot 0 7 3) m' = Done 10%nat m' /\
    globals m' !! 10%nat = Some (GlobalMemorySlot.mk 7 3 (Some 0%nat)) /\
    exists c', managers m' !! 0%nat = Some c' /\ registered_under c' 7 !! 3 = Some 10%nat /\
      CommunicationManagerFields._globalMemorySlotsToDestroyPerTag c' !! 7 = None.
Proof.
  exact (destroy_keeps_slot 0 7 3 10 (Some 0%nat) (machine 1) _ (core_wf_demo 1) eq_refl eq_refl eq_refl eq_refl).
Defined.

Lemma memcpy_counts_twice_witness :
  exists h m1 m2, mem_store (heap (machine 1)) (Ptr 0 2) [x01; x02; x03] = Some h /\
    run (CommunicationManager.memcpyLL 0 0 2 1 0 3) (machine 1) = Done tt m1 /\ heap m1 = h /\ counted 1 0 1 (machine 1) m1 /\
    run (CommunicationManager.memcpyGL 0 10 2 1 0 3) (machine 1) = Done tt m2 /\ heap m2 = h /\ counted 2 0 1 (machine 1) m2.
Proof.
  exact (memcpy_counts_twice 0 0 1 10 _ (machine 1) _ _ 2 0 3 [x01; x02; x03] ltac:(lia) eq_refl eq_refl eq_refl eq_refl
           ltac:(by vm_compute) ltac:(by vm_compute) eq_refl ltac:(by eexists)).
Defined.

(** A copy of 2^64 - 8 bytes from offset 12: the sum wraps around to 4. *)
Lemma memcpy_check_wraps_witness :
  run (CommunicationManager.memcpyLL 0 0 12 1 12 18446744073709551608) (machine 1) = Crashed undefined (machine 1).
Proof.
  exact (memcpy_check_wraps 0 0 1 (machine 1) _ _ 1 0 _ 12 18446744073709551608 eq_refl eq_refl eq_refl ltac:(lia) eq_refl
           ltac:(by vm_compute) ltac:(by vm_compute) ltac:(by vm_compute) ltac:(by vm_compute) ltac:(by vm_compute) ltac:(by vm_compute)).
Defined.

End PthreadsDemo.
