(* ===== verification/CircularBuffer.v ===== *)
(** * The circular buffer of the channels

    Models [frontends/channel/circularBuffer.hpp]: two advance counters kept in
    memory that the remote side also writes, and the positions, depth and
    bounds computed from them. *)

From S2P Require Import Prelude Memory CommunicationManager.
From Stdlib Require Import ZArith Lia.
From stdpp Require Import base list gmap option.

Local Open Scope Z_scope.
Local Open Scope hicr_scope.

Module CircularBuffer.

(** The counters are reached through [volatile] pointers. *)
Record t : Type := mk {
  _capacity : Z;
  _headAdvanceCounter : ptr;
  _tailAdvanceCounter : ptr
}.

Section Operations.
Context {X : Type}.

(** Unsigned remainder; by zero it is undefined behaviour. *)
Definition size_mod (a b : Z) : prog (Machine X) Z :=
  if b =? 0 then Crash undefined else mret (a mod b).

Definition getHeadPosition (c : t) : prog (Machine X) Z :=
  h ← read_size (_headAdvanceCounter c); size_mod h (_capacity c).

Definition getTailPosition (c : t) : prog (Machine X) Z :=
  t ← read_size (_tailAdvanceCounter c); size_mod t (_capacity c).

Definition getCapacity (c : t) : Z := _capacity c.

(** A head behind the tail is a fatal error. *)
Definition calculateDepth (headAdvanceCounter tailAdvanceCounter : Z) : prog (Machine X) Z :=
  _ ← throw_if (headAdvanceCounter <? tailAdvanceCounter) fatal;
  mret (headAdvanceCounter -w tailAdvanceCounter).

(** [noexcept]: the fatal exception of [calculateDepth] terminates. *)
Definition getDepth (c : t) : prog (Machine X) Z :=
  noexcept (h ← read_size (_headAdvanceCounter c);
            t ← read_size (_tailAdvanceCounter c);
            calculateDepth h t).

Definition isFull (c : t) : prog (Machine X) bool :=
  d ← getDepth c; mret (d =? _capacity c).

Definition isEmpty (c : t) : prog (Machine X) bool :=
  h ← read_size (_headAdvanceCounter c);
  t ← read_size (_tailAdvanceCounter c);
  mret (h =? t).

Definition advanceHead (c : t) (n : Z) : prog (Machine X) unit :=
  curDepth ← getDepth c;
  let newDepth := curDepth +w n in
  _ ← throw_if (newDepth >? _capacity c) fatal;
  h ← read_size (_headAdvanceCounter c);
  write_size (_headAdvanceCounter c) (h +w n).

Definition advanceTail (c : t) (n : Z) : prog (Machine X) unit :=
  curDepth ← getDepth c;
  _ ← throw_if (n >? curDepth) fatal;
  t ← read_size (_tailAdvanceCounter c);
  write_size (_tailAdvanceCounter c) (t +w n).

End Operations.
End CircularBuffer.

(** ** The representation invariant

    [cb_at c h t m]: the counters of [c] hold [h] and [t] in [m].  [cb_wf]: the
    depth is between zero and the capacity. *)
Definition cb_at {X : Type} (c : CircularBuffer.t) (h t : Z) (m : Machine X) : Prop :=
  load_size (heap m) (CircularBuffer._headAdvanceCounter c) = Some h /\
  load_size (heap m) (CircularBuffer._tailAdvanceCounter c) = Some t.

Definition cb_separate (c : CircularBuffer.t) : Prop :=
  disjoint_ranges (CircularBuffer._headAdvanceCounter c) 8 (CircularBuffer._tailAdvanceCounter c) 8.

Definition cb_wf (c : CircularBuffer.t) (h t : Z) : Prop :=
  0 < CircularBuffer._capacity c < SIZE_BOUND /\ 0 <= t <= h /\ h - t <= CircularBuffer._capacity c /\ h < SIZE_BOUND.

Section Facts.
Context {X : Type}.
Implicit Types (m : Machine X) (c : CircularBuffer.t).
Import CircularBuffer.

Lemma run_read_size m p v : load_size (heap m) p = Some v -> run (read_size p) m = Done v m.
Proof. apply (run_fetch (fun m => load_size (heap m) p)). Qed.

Lemma run_write_size m p v :
  accessible (heap m) p 8 -> exists m', run (write_size p v) m = Done tt m' /\ stored m p (le_bytes 8 v) m'.
Proof.
  intros HA. destruct (mem_store_accessible (heap m) p (le_bytes 8 v)) as [h E].
  { by rewrite length_le_bytes. }
  exists (set_heap h m). split; [|by exists h].
  apply run_update. unfold store_size. by rewrite E.
Qed.

Lemma stored_size_same m p v m' : is_size v -> stored m p (le_bytes 8 v) m' -> load_size (heap m') p = Some v.
Proof. intros Hv E%stored_heap. by eapply load_size_store. Qed.

Lemma stored_size_disjoint m p bs m' q :
  stored m p bs m' -> disjoint_ranges p (Z.of_nat (length bs)) q 8 -> load_size (heap m') q = load_size (heap m) q.
Proof. intros E%stored_heap. by eapply load_size_store_disjoint. Qed.

Lemma cb_at_is_size c h t m : cb_at c h t m -> is_size h /\ is_size t.
Proof. intros [Hh Ht]. split; by eapply load_size_is_size. Qed.

(** The depth is the difference of the counters, whatever it is; when the head
    is behind the tail the program terminates. *)
Lemma run_getDepth c h t m :
  cb_at c h t m -> run (getDepth c) m = if h <? t then Crashed terminated m else Done (h - t) m.
Proof.
  intros Hc. destruct (cb_at_is_size _ _ _ _ Hc) as [? ?]. destruct Hc as [Hh Ht].
  unfold getDepth. rewrite run_noexcept.
  run_with (run_read_size m). run_with (run_read_size m).
  unfold calculateDepth, throw_if. case_bool; [done|]. cbn.
  rewrite wrap64_small by size_lia. done.
Qed.

Lemma run_getDepth_ok c h t m : cb_at c h t m -> t <= h -> run (getDepth c) m = Done (h - t) m.
Proof. intros Hc ?. rewrite (run_getDepth c h t) by done. case_bool; [lia|done]. Qed.

Lemma run_getTailPosition c h t m :
  cb_at c h t m -> 0 < _capacity c -> run (getTailPosition c) m = Done (t mod _capacity c) m.
Proof.
  intros [_ Ht] ?. unfold getTailPosition. run_with (run_read_size m).
  unfold size_mod. by case_bool; [lia|].
Qed.

Lemma run_getHeadPosition c h t m :
  cb_at c h t m -> 0 < _capacity c -> run (getHeadPosition c) m = Done (h mod _capacity c) m.
Proof.
  intros [Hh _] ?. unfold getHeadPosition. run_with (run_read_size m).
  unfold size_mod. by case_bool; [lia|].
Qed.

Lemma run_isEmpty c h t m : cb_at c h t m -> run (isEmpty c) m = Done (h =? t) m.
Proof. intros [Hh Ht]. unfold isEmpty. run_with (run_read_size m). run_with (run_read_size m). done. Qed.

Lemma run_advanceHead_ok c h t m n :
  cb_at c h t m -> t <= h -> 0 <= n -> h - t + n <= _capacity c < SIZE_BOUND -> h + n < SIZE_BOUND ->
  exists m', run (advanceHead c n) m = Done tt m' /\
    stored m (_headAdvanceCounter c) (le_bytes 8 (h + n)) m'.
Proof.
  intros Hc ????. destruct (cb_at_is_size _ _ _ _ Hc) as [? ?]. unfold advanceHead.
  rewrite (run_bind_Done _ _ _ _ _ (run_getDepth_ok c h t m Hc ltac:(lia))). cbv zeta.
  rewrite wrap64_small by size_lia.
  erewrite run_bind_Done by (apply run_throw_if_false; case_bool; lia).
  rewrite (run_bind_Done _ _ _ _ _ (run_read_size _ _ _ (proj1 Hc))).
  rewrite wrap64_small by size_lia.
  apply run_write_size. eapply load_size_accessible, Hc.
Qed.

Lemma run_advanceTail_ok c h t m n :
  cb_at c h t m -> 0 <= n <= h - t ->
  exists m', run (advanceTail c n) m = Done tt m' /\
    stored m (_tailAdvanceCounter c) (le_bytes 8 (t + n)) m'.
Proof.
  intros Hc ?. destruct (cb_at_is_size _ _ _ _ Hc) as [? ?]. unfold advanceTail.
  rewrite (run_bind_Done _ _ _ _ _ (run_getDepth_ok c h t m Hc ltac:(lia))).
  erewrite run_bind_Done by (apply run_throw_if_false; case_bool; lia).
  rewrite (run_bind_Done _ _ _ _ _ (run_read_size _ _ _ (proj2 Hc))).
  rewrite wrap64_small by size_lia.
  apply run_write_size. eapply load_size_accessible, Hc.
Qed.

Lemma stored_head c h t m v m' :
  cb_at c h t m -> cb_separate c -> is_size v ->
  stored m (_headAdvanceCounter c) (le_bytes 8 v) m' -> cb_at c v t m'.
Proof.
  intros [Hh Ht] Hs Hv E. split; [by eapply stored_size_same|].
  by rewrite (stored_size_disjoint _ _ _ _ _ E) by (by rewrite length_le_bytes).
Qed.

Lemma stored_tail c h t m v m' :
  cb_at c h t m -> cb_separate c -> is_size v ->
  stored m (_tailAdvanceCounter c) (le_bytes 8 v) m' -> cb_at c h v m'.
Proof.
  intros [Hh Ht] Hs Hv E. split; [|by eapply stored_size_same].
  rewrite (stored_size_disjoint _ _ _ _ _ E); [done|].
  rewrite length_le_bytes. by apply disjoint_ranges_sym.
Qed.

End Facts.

(** ** Theorems *)

Section Theorems.
Context {X : Type}.
Implicit Types (m : Machine X) (c : CircularBuffer.t).
Import CircularBuffer.

(** C26: the depth stays between zero and the capacity.  [advanceHead] adds [n] to
    the head when the new depth fits and throws otherwise, [advanceTail] adds
    [n] to the tail when there are [n] elements and throws otherwise; a call
    that throws changes nothing, one that succeeds keeps the invariant. *)
Theorem advance_spec c h t m n :
  cb_at c h t m -> cb_separate c -> cb_wf c h t -> 0 <= n -> h + n < SIZE_BOUND ->
  (if h - t + n <=? _capacity c
   then exists m', run (advanceHead c n) m = Done tt m' /\ cb_at c (h + n) t m' /\ cb_wf c (h + n) t
   else run (advanceHead c n) m = Thrown fatal m) /\
  (if n <=? h - t
   then exists m', run (advanceTail c n) m = Done tt m' /\ cb_at c h (t + n) m' /\ cb_wf c h (t + n)
   else run (advanceTail c n) m = Thrown fatal m).
Proof.
  intros Hc Hs (Hcap & Ht & Hd & Hb) Hn Ho. split; case_bool.
  - destruct (run_advanceHead_ok c h t m n) as (m' & E & St); [done|lia..|].
    exists m'. split; [done|]. split; [eapply stored_head; eauto; size_lia|]. repeat split; lia.
  - unfold advanceHead.
    rewrite (run_bind_Done _ _ _ _ _ (run_getDepth_ok c h t m Hc ltac:(lia))). cbv zeta.
    rewrite wrap64_small by size_lia. rewrite run_bind, run_throw_if_true; [done|]. case_bool; lia.
  - destruct (run_advanceTail_ok c h t m n) as (m' & E & St); [done|lia|].
    exists m'. split; [done|]. split; [eapply stored_tail; eauto; size_lia|]. repeat split; lia.
  - unfold advanceTail.
    rewrite (run_bind_Done _ _ _ _ _ (run_getDepth_ok c h t m Hc ltac:(lia))).
    rewrite run_bind, run_throw_if_true; [done|]. case_bool; lia.
Qed.

(** The counters are not reduced modulo the capacity: when the head counter
    passes 2^64 - 1 it wraps around to zero, behind the tail, and from then on
    the depth, although it is asked for in a [noexcept] function, raises the
    fatal error, which terminates the program. *)
Theorem head_counter_wraps c t m n :
  cb_at c (SIZE_BOUND - 1) t m -> cb_separate c -> cb_wf c (SIZE_BOUND - 1) t ->
  1 <= n -> SIZE_BOUND - 1 - t + n <= _capacity c ->
  exists m', run (advanceHead c n) m = Done tt m' /\ cb_at c (n - 1) t m' /\
    run (getDepth c) m' = if n <=? t then Crashed terminated m' else Done (n - 1 - t) m'.
Proof.
  intros Hc Hs (Hcap & Ht & Hd & Hb) Hn Hroom.
  destruct (run_write_size m (_headAdvanceCounter c) (n - 1)) as (m' & E & St); [eapply load_size_accessible, Hc|].
  assert (Hat : cb_at c (n - 1) t m') by (eapply stored_head; eauto; size_lia).
  exists m'. split_and!; [|done|].
  - unfold advanceHead. rewrite (run_bind_Done _ _ _ _ _ (run_getDepth_ok c _ t m Hc ltac:(lia))). cbv zeta.
    rewrite wrap64_small by size_lia. erewrite run_bind_Done by (apply run_throw_if_false; case_bool; lia).
    rewrite (run_bind_Done _ _ _ _ _ (run_read_size _ _ _ (proj1 Hc))).
    replace (wrap64 (SIZE_BOUND - 1 + n)) with (n - 1); [done|].
    unfold wrap64. apply (Z.mod_unique _ _ 1); [size_lia|lia].
  - rewrite (run_getDepth _ _ _ _ Hat). replace (n - 1 <? t) with (n <=? t); [done|]. repeat case_bool; lia.
Qed.

End Theorems.

(** ** Concrete buffers *)

Module CircularDemo.

Definition buffer : CircularBuffer.t := CircularBuffer.mk 4 (Ptr 0 0) (Ptr 0 8).

Definition machine (h t : Z) : Machine unit :=
  mkMachine (<[0%nat := le_bytes 8 h ++ le_bytes 8 t]> ∅) ∅ ∅ ∅ tt.

Lemma buffer_separate : cb_separate buffer.
Proof. apply (disjoint_ranges_same (Ptr 0 0) 0 8 8 8). lia. Qed.

Lemma advance_spec_witness :
  run (CircularBuffer.advanceHead buffer 2) (machine 7 4) = Thrown fatal (machine 7 4) /\
  exists m', run (CircularBuffer.advanceTail buffer 2) (machine 7 4) = Done tt m' /\ cb_at buffer 7 6 m' /\ cb_wf buffer 7 6.
Proof.
  exact (advance_spec buffer 7 4 (machine 7 4) 2 ltac:(by split) buffer_separate ltac:(by vm_compute) ltac:(lia) ltac:(by vm_compute)).
Defined.

Lemma head_counter_wraps_witness :
  exists m', run (CircularBuffer.advanceHead buffer 1) (machine (SIZE_BOUND - 1) (SIZE_BOUND - 3)) = Done tt m' /\
    cb_at buffer 0 (SIZE_BOUND - 3) m' /\ run (CircularBuffer.getDepth buffer) m' = Crashed terminated m'.
Proof.
  exact (head_counter_wraps buffer (SIZE_BOUND - 3) (machine (SIZE_BOUND - 1) (SIZE_BOUND - 3)) 1 ltac:(by split) buffer_separate
           ltac:(by vm_compute) ltac:(lia) ltac:(by vm_compute)).
Defined.

End CircularDemo.
