(* ===== verification/Channel.v ===== *)
(** * Channel bases

    Models [frontends/channel/base.hpp], [frontends/channel/fixedSize/base.hpp]
    and [frontends/channel/variableSize/base.hpp]: the coordination buffers,
    their initialization, the checks of the constructors and the circular
    buffers they create. *)

From S2P Require Import Prelude Memory CommunicationManager CircularBuffer.
From Stdlib Require Import ZArith Lia.
From Stdlib.Strings Require Import Byte.
From stdpp Require Import base list gmap option.

Local Open Scope Z_scope.
Local Open Scope hicr_scope.

Definition _HICR_CHANNEL_COORDINATION_BUFFER_ELEMENT_COUNT : Z := 2.
Definition _HICR_CHANNEL_HEAD_ADVANCE_COUNT_IDX : Z := 0.
Definition _HICR_CHANNEL_TAIL_ADVANCE_COUNT_IDX : Z := 1.

(** ** [HiCR::channel::Base] *)

Module Base.

Record t : Type := mk {
  _coordinationCommunicationManager : nat;
  _payloadCommunicationManager : nat;
  _coordinationBuffer : nat;
  _tokenSize : Z;
  _circularBuffer : CircularBuffer.t
}.

Definition getTokenSize (b : t) : Z := _tokenSize b.

Definition getCoordinationBufferSize : Z :=
  _HICR_CHANNEL_COORDINATION_BUFFER_ELEMENT_COUNT *w SIZEOF_SIZE_T.

Definition getTokenBufferSize (tokenSize capacity : Z) : Z := tokenSize *w capacity.

Section Operations.
Context {X : Type}.

(** Resets both counters, after a size check. *)
Definition initializeCoordinationBuffer (coordinationBuffer : nat) : prog (Machine X) unit :=
  let requiredSize := getCoordinationBufferSize in
  size ← getSize coordinationBuffer;
  _ ← throw_if (size <? requiredSize) logic;
  bufferPtr ← getPointer coordinationBuffer;
  std_memset bufferPtr Byte.x00 getCoordinationBufferSize.

(** The circular buffer over the two counters of a coordination buffer at [p]. *)
Definition circular_buffer_at (capacity : Z) (p : ptr) : CircularBuffer.t :=
  CircularBuffer.mk capacity
    (ptr_add p (_HICR_CHANNEL_HEAD_ADVANCE_COUNT_IDX * SIZEOF_SIZE_T))
    (ptr_add p (_HICR_CHANNEL_TAIL_ADVANCE_COUNT_IDX * SIZEOF_SIZE_T)).

(** The constructor. *)
Definition make (ccm pcm coordinationBuffer : nat) (tokenSize capacity : Z) : prog (Machine X) t :=
  _ ← throw_if (tokenSize =? 0) logic;
  _ ← throw_if (capacity =? 0) logic;
  let requiredCoordinationBufferSize := getCoordinationBufferSize in
  providedCoordinationBufferSize ← getSize coordinationBuffer;
  _ ← throw_if (providedCoordinationBufferSize <? requiredCoordinationBufferSize) logic;
  p ← getPointer coordinationBuffer;
  mret (mk ccm pcm coordinationBuffer tokenSize (circular_buffer_at capacity p)).

Definition getDepth (b : t) : prog (Machine X) Z := CircularBuffer.getDepth (_circularBuffer b).

Definition isFull (b : t) : prog (Machine X) bool := CircularBuffer.isFull (_circularBuffer b).

Definition isEmpty (b : t) : prog (Machine X) bool := CircularBuffer.isEmpty (_circularBuffer b).

End Operations.
End Base.

(** ** [HiCR::channel::variableSize::Base] *)

Module VariableBase.

(** [base] is the inherited [channel::Base], built over the counts buffer with
    [sizeof(size_t)] as the token size. *)
Record t : Type := mk {
  base : Base.t;
  _circularBufferForCounts : CircularBuffer.t;
  _circularBufferForPayloads : CircularBuffer.t;
  _coordinationBufferForCounts : nat;
  _coordinationBufferForPayloads : nat
}.

Section Operations.
Context {X : Type}.

Definition make (ccm pcm coordinationBufferForCounts coordinationBufferForPayloads : nat)
    (capacity payloadCapacity : Z) : prog (Machine X) t :=
  b ← Base.make ccm pcm coordinationBufferForCounts SIZEOF_SIZE_T capacity;
  _ ← throw_if (capacity =? 0) logic;
  let requiredCoordinationBufferSize := 4 *w SIZEOF_SIZE_T in
  sizePayloads ← getSize coordinationBufferForPayloads;
  sizeCounts ← getSize coordinationBufferForCounts;
  let providedCoordinationBufferSize := sizePayloads +w sizeCounts in
  _ ← throw_if (providedCoordinationBufferSize <? requiredCoordinationBufferSize) logic;
  pc ← getPointer coordinationBufferForCounts;
  pp ← getPointer coordinationBufferForPayloads;
  mret (mk b (Base.circular_buffer_at capacity pc) (Base.circular_buffer_at payloadCapacity pp)
           coordinationBufferForCounts coordinationBufferForPayloads).

End Operations.
End VariableBase.

(** ** Facts *)

Section Facts.
Context {X : Type}.
Implicit Types m : Machine X.

Lemma cb_separate_at cap p : cb_separate (Base.circular_buffer_at cap p).
Proof. apply disjoint_ranges_same. left. by compute. Qed.

Lemma cb_at_unfold cap p h t m :
  cb_at (Base.circular_buffer_at cap p) h t m <->
  load_size (heap m) (ptr_add p 0) = Some h /\ load_size (heap m) (ptr_add p 8) = Some t.
Proof. done. Qed.

(** Stores outside the coordination buffer keep its counters. *)
Lemma writes_load_size R m m' q : writes R m m' -> apart R q 8 -> load_size (heap m') q = load_size (heap m) q.
Proof. intros W Ha. unfold load_size, SIZEOF_SIZE_T. by rewrite (writes_load _ _ _ _ _ W Ha). Qed.

Lemma cb_at_writes R cap p h t m m' :
  writes R m m' -> apart R p 16 ->
  cb_at (Base.circular_buffer_at cap p) h t m -> cb_at (Base.circular_buffer_at cap p) h t m'.
Proof.
  rewrite !cb_at_unfold. intros W Ha [Hh Ht].
  split; (rewrite (writes_load_size _ _ _ _ W); [done|]; eapply apart_sub; [exact Ha|lia..]).
Qed.

Lemma stored_counter m p bs m' :
  stored m p bs m' -> length bs = 8%nat -> load_size (heap m') p = Some (le_value bs).
Proof.
  intros St Hl. pose proof (stored_same _ _ _ _ St) as HL. rewrite Hl in HL.
  unfold load_size. change SIZEOF_SIZE_T with (Z.of_nat 8). by rewrite HL.
Qed.

Lemma stored_counter_head cap p h t m bs m' :
  stored m (ptr_add p 0) bs m' -> length bs = 8%nat ->
  cb_at (Base.circular_buffer_at cap p) h t m -> cb_at (Base.circular_buffer_at cap p) (le_value bs) t m'.
Proof.
  rewrite !cb_at_unfold. intros St Hl [Hh Ht]. split; [by eapply stored_counter|].
  rewrite (stored_size_disjoint _ _ _ _ _ St); [done|]. apply disjoint_ranges_same. lia.
Qed.

Lemma stored_counter_tail cap p h t m bs m' :
  stored m (ptr_add p 8) bs m' -> length bs = 8%nat ->
  cb_at (Base.circular_buffer_at cap p) h t m -> cb_at (Base.circular_buffer_at cap p) h (le_value bs) m'.
Proof.
  rewrite !cb_at_unfold. intros St Hl [Hh Ht]. split; [|by eapply stored_counter].
  rewrite (stored_size_disjoint _ _ _ _ _ St); [done|]. apply disjoint_ranges_same. lia.
Qed.

(** A counter can be stored. *)
Lemma store_counter cap q h t m d v :
  cb_at (Base.circular_buffer_at cap q) h t m -> d = 0 \/ d = 8 ->
  exists hm, store_size (heap m) (ptr_add q d) v = Some hm /\ stored m (ptr_add q d) (le_bytes 8 v) (set_heap hm m) /\
    writes [(q, 16)] m (set_heap hm m).
Proof.
  intros Hcb Hd. destruct (mem_store_accessible (heap m) (ptr_add q d) (le_bytes 8 v)) as [hm E].
  { rewrite length_le_bytes. destruct Hd as [->| ->]; eapply load_size_accessible; apply Hcb. }
  assert (St : stored m (ptr_add q d) (le_bytes 8 v) (set_heap hm m)) by (by exists hm).
  exists hm. split_and!; [done|done|]. eapply writes_stored; [exact St|constructor|lia|rewrite length_le_bytes; lia].
Qed.

Lemma load_size_bytes h p v :
  load_size h p = Some v -> exists bs, mem_load h p 8 = Some bs /\ length bs = 8%nat /\ le_value bs = v.
Proof.
  unfold load_size, SIZEOF_SIZE_T. destruct (mem_load h p 8) as [bs|] eqn:E; [|done].
  intros [= <-]. exists bs. split_and!; [done| |done]. apply mem_load_length in E. lia.
Qed.

(** ** The local update of a counter *)

Lemma run_advanceHead_at cap p h t m n :
  cb_at (Base.circular_buffer_at cap p) h t m ->
  t <= h -> 0 <= n -> h - t + n <= cap < SIZE_BOUND -> h + n < SIZE_BOUND ->
  exists m', run (CircularBuffer.advanceHead (Base.circular_buffer_at cap p) n) m = Done tt m' /\
    writes [(p, 16)] m m' /\ cb_at (Base.circular_buffer_at cap p) (h + n) t m'.
Proof.
  intros Hc ????. destruct (cb_at_is_size _ _ _ _ Hc) as [? ?].
  destruct (run_advanceHead_ok _ h t m n Hc) as (m' & E & St); [cbn; lia..|].
  exists m'. split_and!; [done| |].
  - eapply writes_stored; [exact St|constructor|by compute|by rewrite length_le_bytes].
  - eapply stored_head; [exact Hc|apply cb_separate_at|size_lia|done].
Qed.

Lemma run_advanceTail_at cap p h t m n :
  cb_at (Base.circular_buffer_at cap p) h t m -> 0 <= n <= h - t ->
  exists m', run (CircularBuffer.advanceTail (Base.circular_buffer_at cap p) n) m = Done tt m' /\
    writes [(p, 16)] m m' /\ cb_at (Base.circular_buffer_at cap p) h (t + n) m'.
Proof.
  intros Hc ?. destruct (cb_at_is_size _ _ _ _ Hc) as [? ?].
  destruct (run_advanceTail_ok _ h t m n Hc) as (m' & E & St); [lia|].
  exists m'. split_and!; [done| |].
  - eapply writes_stored; [exact St|constructor|by compute|by rewrite length_le_bytes].
  - eapply stored_tail; [exact Hc|apply cb_separate_at|size_lia|done].
Qed.

(** ** The remote update of the counters *)

Section Remote.
Context {B : CommBackend X} `{!CommSpec X}.

(** The eight bytes of the local counter at offset [o] are copied to the same
    place of the remote coordination buffer. *)
Lemma run_copy_counter this g l s o m dp ds sp ss v w :
  backed_by m g l -> slot_at m l dp ds -> slot_at m s sp ss -> 0 <= o <= 8 -> 16 <= ds -> 16 <= ss ->
  load_size (heap m) (ptr_add sp o) = Some v -> load_size (heap m) (ptr_add dp o) = Some w ->
  exists m' bs, run (CommunicationManager.memcpyGL this g o s o SIZEOF_SIZE_T) m = Done tt m' /\
    stored m (ptr_add dp o) bs m' /\ length bs = 8%nat /\ le_value bs = v.
Proof.
  intros Hb Hd Hs Ho ?? (bs & HL & Hlen & Hv)%load_size_bytes Hw%load_size_accessible.
  destruct (run_memcpyGL_ok this g l o s o 8 m dp ds sp ss bs) as (m' & E & St); try done; try size_lia.
  by exists m', bs.
Qed.

Lemma run_copy_head this g l s m rp rn lp ln cap cap' h t hr tr :
  backed_by m g l -> slot_at m l rp rn -> slot_at m s lp ln -> 16 <= rn -> 16 <= ln ->
  cb_at (Base.circular_buffer_at cap lp) h t m -> cb_at (Base.circular_buffer_at cap' rp) hr tr m ->
  exists m', run (CommunicationManager.memcpyGL this g 0 s 0 SIZEOF_SIZE_T) m = Done tt m' /\
    writes [(rp, 16)] m m' /\ cb_at (Base.circular_buffer_at cap' rp) h tr m'.
Proof.
  intros ????? HL HR. destruct (run_copy_counter this g l s 0 m rp rn lp ln h hr)
    as (m' & bs & E & St & Hlen & Hv); try done; [apply HL|apply HR|].
  exists m'. split_and!; [done| |].
  - eapply writes_stored; [exact St|constructor|lia|lia].
  - rewrite <- Hv. by eapply stored_counter_head.
Qed.

Lemma run_copy_tail this g l s m rp rn lp ln cap cap' h t hr tr :
  backed_by m g l -> slot_at m l rp rn -> slot_at m s lp ln -> 16 <= rn -> 16 <= ln ->
  cb_at (Base.circular_buffer_at cap lp) h t m -> cb_at (Base.circular_buffer_at cap' rp) hr tr m ->
  exists m', run (CommunicationManager.memcpyGL this g 8 s 8 SIZEOF_SIZE_T) m = Done tt m' /\
    writes [(rp, 16)] m m' /\ cb_at (Base.circular_buffer_at cap' rp) hr t m'.
Proof.
  intros ????? HL HR. destruct (run_copy_counter this g l s 8 m rp rn lp ln t tr)
    as (m' & bs & E & St & Hlen & Hv); try done; [apply HL|apply HR|].
  exists m'. split_and!; [done| |].
  - eapply writes_stored; [exact St|constructor|lia|lia].
  - rewrite <- Hv. by eapply stored_counter_tail.
Qed.

(** Storing the sixteen bytes of one coordination buffer over another. *)
Lemma stored_counters m p bs m' q cap cap' h t :
  cb_at (Base.circular_buffer_at cap q) h t m -> mem_load (heap m) q 16 = Some bs -> stored m p bs m' ->
  cb_at (Base.circular_buffer_at cap' p) h t m'.
Proof.
  rewrite !cb_at_unfold. intros [Hh Ht] HL St. pose proof (mem_load_length _ _ _ _ HL) as [Hlen _].
  pose proof (stored_same _ _ _ _ St) as HS. rewrite Hlen in HS. unfold load_size, SIZEOF_SIZE_T in *.
  by rewrite (mem_load_sub_eq (heap m') (heap m) p q 16 bs 0 8), (mem_load_sub_eq (heap m') (heap m) p q 16 bs 8 8)
    by (done || lia).
Qed.

Lemma cb_at_accessible cap p h t m : cb_at (Base.circular_buffer_at cap p) h t m -> accessible (heap m) p 16.
Proof.
  rewrite cb_at_unfold. intros [Hh%load_size_accessible Ht%load_size_accessible].
  rewrite <- (ptr_add_0 p). by apply (accessible_app _ p 0 8 8).
Qed.

(** Copies of a whole coordination buffer, to and from a remote one. *)
Lemma run_send_counters this g l s m rp rn lp ln cap cap' h t :
  backed_by m g l -> slot_at m l rp rn -> slot_at m s lp ln -> 16 <= rn -> 16 <= ln ->
  cb_at (Base.circular_buffer_at cap lp) h t m -> accessible (heap m) rp 16 ->
  exists m', run (CommunicationManager.memcpyGL this g 0 s 0 Base.getCoordinationBufferSize) m = Done tt m' /\
    writes [(rp, 16)] m m' /\ cb_at (Base.circular_buffer_at cap' rp) h t m'.
Proof.
  intros ????? HL HA. destruct (cb_at_accessible _ _ _ _ _ HL) as [bs Hbs].
  change Base.getCoordinationBufferSize with 16. pose proof (mem_load_length _ _ _ _ Hbs) as [Hlen _].
  destruct (run_memcpyGL_ok this g l 0 s 0 16 m rp rn lp ln bs) as (m' & E & St);
    rewrite ?ptr_add_0; try done; try size_lia.
  exists m'. split_and!; [done|eapply writes_stored; [exact St|constructor|lia..]|].
  rewrite ptr_add_0 in St. by eapply stored_counters.
Qed.

Lemma run_fetch_counters this g l s m rp rn lp ln cap cap' h t :
  backed_by m g l -> slot_at m l rp rn -> slot_at m s lp ln -> 16 <= rn -> 16 <= ln ->
  cb_at (Base.circular_buffer_at cap rp) h t m -> accessible (heap m) lp 16 ->
  exists m', run (CommunicationManager.memcpyLG this s 0 g 0 Base.getCoordinationBufferSize) m = Done tt m' /\
    writes [(lp, 16)] m m' /\ cb_at (Base.circular_buffer_at cap' lp) h t m'.
Proof.
  intros ????? HL HA. destruct (cb_at_accessible _ _ _ _ _ HL) as [bs Hbs].
  change Base.getCoordinationBufferSize with 16. pose proof (mem_load_length _ _ _ _ Hbs) as [Hlen _].
  destruct (run_memcpyLG_ok this s 0 g l 0 16 m lp ln rp rn bs) as (m' & E & St);
    rewrite ?ptr_add_0; try done; try size_lia.
  exists m'. split_and!; [done|eapply writes_stored; [exact St|constructor|lia..]|].
  rewrite ptr_add_0 in St. by eapply stored_counters.
Qed.

End Remote.

Lemma run_std_memset m p (b : byte) n :
  0 <= n -> accessible (heap m) p n ->
  exists m', run (std_memset p b n) m = Done tt m' /\ stored m p (replicate (Z.to_nat n) b) m'.
Proof.
  intros Hn HA. destruct (mem_store_accessible (heap m) p (replicate (Z.to_nat n) b)) as [h E].
  { rewrite length_replicate. by rewrite Z2Nat.id. }
  exists (set_heap h m). split; [apply run_update; by rewrite E|]. by exists h.
Qed.

(** The two parts of what was stored can be loaded back. *)
Lemma mem_load_app h p n k l1 l2 :
  mem_load h p (n + k) = Some (l1 ++ l2) -> Z.of_nat (length l1) = n -> 0 <= k ->
  mem_load h (ptr_add p 0) n = Some l1 /\ mem_load h (ptr_add p n) k = Some l2.
Proof.
  intros E Hn Hk. destruct (mem_load_length _ _ _ _ E) as [Hl _]. rewrite length_app in Hl.
  rewrite (mem_load_sub _ _ _ _ 0 n E), (mem_load_sub _ _ _ _ n k E) by lia.
  rewrite drop_0, !take_app_le, firstn_all2, drop_app_length' by lia.
  by rewrite firstn_all2 by lia.
Qed.

(** Initializing a large enough coordination buffer makes an empty circular
    buffer, whatever the capacity; a smaller one is refused. *)
Lemma run_initializeCoordinationBuffer m l p n cap :
  slot_at m l p n -> accessible (heap m) p n ->
  if n <? 16
  then run (Base.initializeCoordinationBuffer l) m = Thrown logic m
  else exists m', run (Base.initializeCoordinationBuffer l) m = Done tt m' /\
         cb_at (Base.circular_buffer_at cap p) 0 0 m' /\
         writes [(p, 16)] m m'.
Proof.
  intros Hs HA. unfold Base.initializeCoordinationBuffer.
  rewrite (run_bind_Done _ _ _ _ _ (run_getSize _ _ _ _ Hs)).
  change Base.getCoordinationBufferSize with 16. case_bool.
  - by rewrite run_bind, run_throw_if_true.
  - erewrite run_bind_Done by (by apply run_throw_if_false).
    rewrite (run_bind_Done _ _ _ _ _ (run_getPointer _ _ _ _ Hs)).
    destruct (run_std_memset m p Byte.x00 16) as (m' & E & St); [lia| |].
    { rewrite <- (ptr_add_0 p). by eapply accessible_sub; [exact HA|lia..]. }
    exists m'. split; [done|]. split; cycle 1.
    { eapply writes_stored; [by rewrite <- (ptr_add_0 p) in St|constructor|done|done]. }
    pose proof (stored_same _ _ _ _ St) as HL.
    change (mem_load (heap m') p (8 + 8) = Some (le_bytes 8 0 ++ le_bytes 8 0)) in HL.
    apply mem_load_app in HL as [HL1 HL2]; [|done|lia].
    apply cb_at_unfold. unfold load_size, SIZEOF_SIZE_T. by rewrite HL1, HL2.
Qed.

(** The constructor of a channel base refuses a zero token size, a zero
    capacity and a small coordination buffer, and touches no memory. *)
Lemma run_Base_make m ccm pcm l ts cap p n :
  slot_at m l p n ->
  run (Base.make ccm pcm l ts cap) m =
    if (ts =? 0) || (cap =? 0) || (n <? 16) then Thrown logic m
    else Done (Base.mk ccm pcm l ts (Base.circular_buffer_at cap p)) m.
Proof.
  intros Hs. unfold Base.make.
  rewrite run_bind. unfold throw_if at 1. destruct (ts =? 0); [done|]. cbn [run].
  rewrite run_bind. unfold throw_if at 1. destruct (cap =? 0); [done|]. cbn [run orb].
  rewrite (run_bind_Done _ _ _ _ _ (run_getSize _ _ _ _ Hs)).
  change Base.getCoordinationBufferSize with 16.
  rewrite run_bind. unfold throw_if at 1. destruct (n <? 16); [done|]. cbn [run].
  by rewrite (run_bind_Done _ _ _ _ _ (run_getPointer _ _ _ _ Hs)).
Qed.

End Facts.

(** The counters of a coordination buffer outside the footprint of [W]. *)
Ltac cb_frame W := eapply (cb_at_writes _ _ _ _ _ _ _ W); [by eauto with hicr|].
