(* ===== verification/TokenBuffer.v ===== *)
(** * Token buffers

    The buffer of fixed-size tokens that the channels share: the consumer's
    buffer of a fixed-size channel, and the buffer of message sizes of a
    variable-size one.  A token of index [i] lies at position [i] modulo the
    capacity. *)

From S2P Require Import Prelude Memory CommunicationManager CircularBuffer Channel.
From Stdlib Require Import ZArith Lia.
From stdpp Require Import base list gmap option.

Local Open Scope Z_scope.
Local Open Scope hicr_scope.

Record token_buffer : Type := mkTokenBuffer {
  gTokenSize : Z;
  gCapacity : Z;
  gTokens : ptr;
  gTokensSlot : nat
}.

(** The bytes of the buffer. *)
Abbreviation token_range g := (gTokens g, gTokenSize g * gCapacity g) (only parsing).

Definition token_sizes (g : token_buffer) : Prop :=
  0 < gTokenSize g /\ 0 < gCapacity g /\ gTokenSize g * gCapacity g <= PTRDIFF_MAX.

(** The global slot [tb] is the buffer [g]. *)
Record is_token_buffer {X : Type} (g : token_buffer) (tb : nat) (m : Machine X) : Prop := mkIsTokenBuffer {
  tb_sizes : token_sizes g;
  tb_slot : exists n, gTokenSize g * gCapacity g <= n /\ slot_at m (gTokensSlot g) (gTokens g) n;
  tb_backed : backed_by m tb (gTokensSlot g);
  tb_access : accessible (heap m) (gTokens g) (gTokenSize g * gCapacity g)
}.

(** The bytes of the token buffer at position [i]. *)
Definition token_at {X : Type} (g : token_buffer) (m : Machine X) (i : Z) : option (list byte) :=
  mem_load (heap m) (ptr_add (gTokens g) (gTokenSize g * (i mod gCapacity g))) (gTokenSize g).

(** The tokens [q] are in the buffer, the oldest at index [t]. *)
Definition holds_tokens {X : Type} (g : token_buffer) (m : Machine X) (t : Z) (q : list (list byte)) : Prop :=
  forall i tok, q !! i = Some tok -> token_at g m (t + Z.of_nat i) = Some tok.

Section Facts.
Context {X : Type}.
Implicit Types (m : Machine X) (g : token_buffer).

Lemma is_token_buffer_writes R g tb m m' : writes R m m' -> is_token_buffer g tb m -> is_token_buffer g tb m'.
Proof.
  intros W []. split; try done; rewrite ?(writes_backed_by _ _ _ _ _ W), ?(writes_accessible _ _ _ _ _ W); try done.
  by setoid_rewrite (writes_slot_at _ _ _ _ _ _ W).
Qed.

Lemma token_bounds ts cap i : 0 < ts -> 0 < cap -> 0 <= ts * (i mod cap) /\ ts * (i mod cap) + ts <= ts * cap.
Proof. intros. pose proof (Z.mod_pos_bound i cap). nia. Qed.

Lemma capacity_bound g : token_sizes g -> gCapacity g <= PTRDIFF_MAX.
Proof. intros (? & ? & ?). nia. Qed.

Lemma token_at_writes R g m m' i :
  token_sizes g -> writes R m m' -> apart R (gTokens g) (gTokenSize g * gCapacity g) ->
  token_at g m' i = token_at g m i.
Proof.
  intros (Ht & Hc & _) W Ha. unfold token_at. apply (writes_load _ _ _ _ _ W).
  pose proof (token_bounds (gTokenSize g) (gCapacity g) i Ht Hc). eapply apart_sub; [done|lia..].
Qed.

Lemma holds_tokens_writes R g m m' t q :
  token_sizes g -> writes R m m' -> apart R (gTokens g) (gTokenSize g * gCapacity g) ->
  holds_tokens g m t q -> holds_tokens g m' t q.
Proof. intros ??? Hh i tok Hi. erewrite token_at_writes by done. by apply Hh. Qed.

(** Writing a token keeps those at the other positions. *)
Lemma token_at_stored_other g m i tok m' j :
  token_sizes g -> i mod gCapacity g <> j mod gCapacity g -> Z.of_nat (length tok) = gTokenSize g ->
  stored m (ptr_add (gTokens g) (gTokenSize g * (i mod gCapacity g))) tok m' ->
  token_at g m' j = token_at g m j.
Proof.
  intros (? & ? & _) ? Hl St. apply (stored_disjoint _ _ _ _ _ _ St). rewrite Hl.
  apply disjoint_ranges_same. nia.
Qed.

Lemma token_at_stored_same g m i tok m' :
  Z.of_nat (length tok) = gTokenSize g ->
  stored m (ptr_add (gTokens g) (gTokenSize g * (i mod gCapacity g))) tok m' -> token_at g m' i = Some tok.
Proof. intros Hl St. unfold token_at. rewrite <- Hl at 2. by eapply stored_same. Qed.

(** Writing the token after the newest one keeps the others. *)
Lemma holds_tokens_push g m t q tok m' :
  token_sizes g -> Z.of_nat (length q) < gCapacity g ->
  Z.of_nat (length tok) = gTokenSize g -> holds_tokens g m t q ->
  stored m (ptr_add (gTokens g) (gTokenSize g * ((t + Z.of_nat (length q)) mod gCapacity g))) tok m' ->
  holds_tokens g m' t (q ++ [tok]).
Proof.
  intros Hs Hq Hl Hh St i x [Hi|[Hi Hx]]%lookup_app_Some.
  - pose proof (lookup_lt_Some _ _ _ Hi).
    erewrite token_at_stored_other; [by apply Hh|done| |done|exact St].
    intros E%mod_window_inj; lia.
  - apply list_lookup_singleton_Some in Hx as [Hn <-].
    replace (t + Z.of_nat i) with (t + Z.of_nat (length q)) by lia. by eapply token_at_stored_same.
Qed.

Lemma holds_tokens_drop g m t q n :
  holds_tokens g m t q -> holds_tokens g m (t + Z.of_nat n) (drop n q).
Proof.
  intros Hh i tok Hi. rewrite lookup_drop in Hi. apply Hh in Hi.
  by replace (t + Z.of_nat n + Z.of_nat i) with (t + Z.of_nat (n + i)) by lia.
Qed.

Lemma stored_token_writes g m i tok m' :
  token_sizes g -> Z.of_nat (length tok) = gTokenSize g ->
  stored m (ptr_add (gTokens g) (gTokenSize g * (i mod gCapacity g))) tok m' -> writes [token_range g] m m'.
Proof.
  intros (? & ? & _) Hl St. pose proof (token_bounds (gTokenSize g) (gCapacity g) i).
  eapply writes_stored; [exact St|constructor|lia..].
Qed.

(** The copy of a token of a source slot, [o] bytes into it, to the position of
    the head counter [h]. *)
Lemma run_copy_token `{CommSpec X} this g tb m src sp ss o h t tok p :
  is_token_buffer g tb m -> cb_at (Base.circular_buffer_at (gCapacity g) p) h t m -> slot_at m src sp ss ->
  0 <= o -> is_size (gTokenSize g + o) -> gTokenSize g + o <= ss ->
  mem_load (heap m) (ptr_add sp o) (gTokenSize g) = Some tok ->
  exists m',
    run (pos ← CircularBuffer.getHeadPosition (Base.circular_buffer_at (gCapacity g) p);
         CommunicationManager.memcpyGL this tb (gTokenSize g *w pos) src o (gTokenSize g)) m = Done tt m' /\
    stored m (ptr_add (gTokens g) (gTokenSize g * (h mod gCapacity g))) tok m'.
Proof.
  intros [(Ht & Hcap & Hmul) (n & Hn & Hsl) Hb Ha] Hcb Hs Ho Hsz Hss HL.
  rewrite (run_bind_Done _ _ _ _ _ (run_getHeadPosition _ _ _ _ Hcb Hcap)).
  cbn [CircularBuffer._capacity Base.circular_buffer_at].
  pose proof (token_bounds _ _ h Ht Hcap) as [? ?]. rewrite wrap64_small by size_lia.
  eapply run_memcpyGL_ok; eauto; try size_lia. eapply accessible_sub; [exact Ha|lia..].
Qed.

End Facts.
