(* ===== verification/FixedSPSC.v ===== *)
(** * The fixed-size single-producer single-consumer channel

    Models [frontends/channel/fixedSize/spsc/producer.hpp] and [consumer.hpp].
    The producer and the consumer each own a pair of counters; a push copies
    the token into the consumer's buffer and then the head counter into the
    consumer's coordination buffer, a pop copies the tail counter back.

    The theorems show that the pair of endpoints implements a bounded FIFO
    queue of tokens ([FixedSPSCSpec.v] lifts this to whole client traces). *)

From S2P Require Import Prelude Memory CommunicationManager CircularBuffer Channel TokenBuffer.
From Stdlib Require Import ZArith Lia.
From stdpp Require Import base list gmap option.

Local Open Scope Z_scope.
Local Open Scope hicr_scope.

Module Producer.

Record t : Type := mk {
  base : Base.t;
  _tokenBuffer : nat;
  _consumerCoordinationBuffer : nat
}.

Section Operations.
Context {X : Type} {B : CommBackend X}.

Definition ccm (p : t) : nat := Base._coordinationCommunicationManager (base p).
Definition pcm (p : t) : nat := Base._payloadCommunicationManager (base p).
Definition circular (p : t) : CircularBuffer.t := Base._circularBuffer (base p).
Definition coordination (p : t) : nat := Base._coordinationBuffer (base p).

Definition make (ccm pcm tokenBuffer internalCoordinationBuffer consumerCoordinationBuffer : nat)
    (tokenSize capacity : Z) : prog (Machine X) t :=
  b ← Base.make ccm pcm internalCoordinationBuffer tokenSize capacity;
  mret (mk b tokenBuffer consumerCoordinationBuffer).

Definition updateDepth (p : t) : prog (Machine X) unit :=
  CommunicationManager.queryMemorySlotUpdates (ccm p) (coordination p).

(** The loop copies the [n] tokens of the source to the head position. *)
Definition push (p : t) (sourceSlot : nat) (n : Z) : prog (Machine X) unit :=
  let tokenSize := Base.getTokenSize (base p) in
  let requiredBufferSize := tokenSize *w n in
  providedBufferSize ← getSize sourceSlot;
  _ ← throw_if (providedBufferSize <? requiredBufferSize) logic;
  _ ← updateDepth p;
  curDepth ← CircularBuffer.getDepth (circular p);
  _ ← throw_if (curDepth +w n >? CircularBuffer.getCapacity (circular p)) runtime;
  _ ← for_loop (Z.to_nat n) 0 (fun i =>
        pos ← CircularBuffer.getHeadPosition (circular p);
        CommunicationManager.memcpyGL (pcm p) (_tokenBuffer p) (tokenSize *w pos)
          sourceSlot (i *w tokenSize) tokenSize);
  _ ← CommunicationManager.fenceLocal (pcm p) sourceSlot n 0;
  _ ← CircularBuffer.advanceHead (circular p) n;
  _ ← CommunicationManager.memcpyGL (ccm p) (_consumerCoordinationBuffer p)
        (_HICR_CHANNEL_HEAD_ADVANCE_COUNT_IDX *w SIZEOF_SIZE_T)
        (coordination p) (_HICR_CHANNEL_HEAD_ADVANCE_COUNT_IDX *w SIZEOF_SIZE_T) SIZEOF_SIZE_T;
  CommunicationManager.fenceLocal (ccm p) (coordination p) 1 0.

End Operations.
End Producer.

Module Consumer.

Record t : Type := mk {
  base : Base.t;
  _tokenBuffer : nat;
  _producerCoordinationBuffer : nat
}.

Section Operations.
Context {X : Type} {B : CommBackend X}.

Definition ccm (c : t) : nat := Base._coordinationCommunicationManager (base c).
Definition pcm (c : t) : nat := Base._payloadCommunicationManager (base c).
Definition circular (c : t) : CircularBuffer.t := Base._circularBuffer (base c).
Definition coordination (c : t) : nat := Base._coordinationBuffer (base c).

Definition make (ccm pcm tokenBuffer internalCoordinationBuffer producerCoordinationBuffer : nat)
    (tokenSize capacity : Z) : prog (Machine X) t :=
  b ← Base.make ccm pcm internalCoordinationBuffer tokenSize capacity;
  src ← getSourceLocalMemorySlot tokenBuffer;
  match src with
  | None => Raise logic
  | Some s =>
      let requiredTokenBufferSize := Base.getTokenBufferSize (Base.getTokenSize b) capacity in
      providedTokenBufferSize ← getSize s;
      _ ← throw_if (providedTokenBufferSize <? requiredTokenBufferSize) logic;
      mret (mk b tokenBuffer producerCoordinationBuffer)
  end.

Definition updateDepth (c : t) : prog (Machine X) unit := mret tt.

(** The position, inside the token buffer, of the token [pos] places after the
    oldest one. *)
Definition peek (c : t) (pos : Z) : prog (Machine X) Z :=
  _ ← throw_if (pos >=? CircularBuffer.getCapacity (circular c)) logic;
  _ ← flushReceived (ccm c);
  _ ← flushReceived (pcm c);
  _ ← updateDepth c;
  depth ← CircularBuffer.getDepth (circular c);
  _ ← throw_if (pos >=? depth) runtime;
  tail ← CircularBuffer.getTailPosition (circular c);
  CircularBuffer.size_mod (tail +w pos) (CircularBuffer.getCapacity (circular c)).

Definition pop (c : t) (n : Z) : prog (Machine X) unit :=
  _ ← throw_if (n >? CircularBuffer.getCapacity (circular c)) logic;
  _ ← updateDepth c;
  depth ← CircularBuffer.getDepth (circular c);
  _ ← throw_if (n >? depth) runtime;
  _ ← CircularBuffer.advanceTail (circular c) n;
  _ ← CommunicationManager.memcpyGL (ccm c) (_producerCoordinationBuffer c)
        (_HICR_CHANNEL_TAIL_ADVANCE_COUNT_IDX *w SIZEOF_SIZE_T)
        (coordination c) (_HICR_CHANNEL_TAIL_ADVANCE_COUNT_IDX *w SIZEOF_SIZE_T) SIZEOF_SIZE_T;
  CommunicationManager.fenceLocal (ccm c) (coordination c) 1 0.

Definition getTokenBuffer (c : t) : nat := _tokenBuffer c.

End Operations.
End Consumer.

(** ** The representation of a channel

    [geometry] records where the buffers of a connected producer and consumer
    lie; [connected] that the two endpoints are built over them and that the
    buffers do not overlap. *)
Record geometry : Type := mkGeometry {
  gBuffer :> token_buffer;
  gProducer : ptr;
  gConsumer : ptr
}.

Section Representation.
Context {X : Type}.

Record connected (g : geometry) (p : Producer.t) (c : Consumer.t) (m : Machine X) : Prop := mkConnected {
  con_ptoken : Base._tokenSize (Producer.base p) = gTokenSize g;
  con_ctoken : Base._tokenSize (Consumer.base c) = gTokenSize g;
  con_pcircular : Producer.circular p = Base.circular_buffer_at (gCapacity g) (gProducer g);
  con_ccircular : Consumer.circular c = Base.circular_buffer_at (gCapacity g) (gConsumer g);
  con_pslot : exists n, 16 <= n /\ slot_at m (Producer.coordination p) (gProducer g) n;
  con_cslot : exists n, 16 <= n /\ slot_at m (Consumer.coordination c) (gConsumer g) n;
  con_ptokens : is_token_buffer g (Producer._tokenBuffer p) m;
  con_ctokens : is_token_buffer g (Consumer._tokenBuffer c) m;
  con_pccoord : backed_by m (Producer._consumerCoordinationBuffer p) (Consumer.coordination c);
  con_cpcoord : backed_by m (Consumer._producerCoordinationBuffer c) (Producer.coordination p);
  con_disj_pc : disjoint_ranges (gProducer g) 16 (gConsumer g) 16;
  con_disj_pt : disjoint_ranges (gProducer g) 16 (gTokens g) (gTokenSize g * gCapacity g);
  con_disj_ct : disjoint_ranges (gConsumer g) 16 (gTokens g) (gTokenSize g * gCapacity g)
}.

(** Between operations both endpoints agree on the counters: the tokens [q] are
    in the channel, the oldest at index [t]. *)
Definition channel_rep (g : geometry) (p : Producer.t) (c : Consumer.t) (m : Machine X)
    (t : Z) (q : list (list byte)) : Prop :=
  connected g p c m /\
  cb_at (Base.circular_buffer_at (gCapacity g) (gProducer g)) (t + Z.of_nat (length q)) t m /\
  cb_at (Base.circular_buffer_at (gCapacity g) (gConsumer g)) (t + Z.of_nat (length q)) t m /\
  Z.of_nat (length q) <= gCapacity g /\
  holds_tokens g m t q.

End Representation.

(** What the operations of the two endpoints may write. *)
Abbreviation coordination_footprint g := [(gProducer g, 16); (gConsumer g, 16)] (only parsing).
Abbreviation push_footprint g := [token_range g; (gProducer g, 16); (gConsumer g, 16)] (only parsing).

(** ** Helper lemmas *)

(** The facts of a [connected] hypothesis, under fixed names. *)
Ltac connected_facts H :=
  pose proof H as [Hptok Hctok Hpcb Hccb Hpsl Hcsl Hptb Hctb Hpcc Hcpc Hdpc Hdpt Hdct];
  pose proof (tb_sizes _ _ _ Hptb) as Hsizes.

Section Facts.
Context {X : Type} {B : CommBackend X} `{!CommSpec X}.
Implicit Types m : Machine X.

Lemma connected_sizes g p c m : connected g p c m -> token_sizes g.
Proof. intros Hc. apply (con_ptokens _ _ _ _ Hc). Qed.

Lemma connected_writes R g p c m m' : writes R m m' -> connected g p c m -> connected g p c m'.
Proof.
  intros W Hc. connected_facts Hc. split; try done; try (by eapply is_token_buffer_writes);
    rewrite ?(writes_backed_by _ _ _ _ _ W); try done; by setoid_rewrite (writes_slot_at _ _ _ _ _ _ W).
Qed.

(** The representation is kept by stores to other memory. *)
Lemma channel_rep_writes R g p c m m' t q :
  channel_rep g p c m t q -> writes R m m' -> apart R (gProducer g) 16 -> apart R (gConsumer g) 16 ->
  apart R (gTokens g) (gTokenSize g * gCapacity g) -> channel_rep g p c m' t q.
Proof.
  intros (Hc & HP & HC & Hlen & Hh) W ???. pose proof (connected_sizes _ _ _ _ Hc). split_and!; [|..|done|].
  - by eapply connected_writes.
  - by eapply cb_at_writes.
  - by eapply cb_at_writes.
  - by eapply holds_tokens_writes.
Qed.

(** The second half of a push: the head is advanced and published. *)
Lemma run_publish g p c m h t hc tc n src :
  connected g p c m ->
  cb_at (Base.circular_buffer_at (gCapacity g) (gProducer g)) h t m ->
  cb_at (Base.circular_buffer_at (gCapacity g) (gConsumer g)) hc tc m ->
  t <= h -> 0 <= n -> h - t + n <= gCapacity g -> h + n < SIZE_BOUND ->
  exists m',
    run (_ ← CommunicationManager.fenceLocal (Producer.pcm p) src n 0;
         _ ← CircularBuffer.advanceHead (Producer.circular p) n;
         _ ← CommunicationManager.memcpyGL (Producer.ccm p) (Producer._consumerCoordinationBuffer p)
               (_HICR_CHANNEL_HEAD_ADVANCE_COUNT_IDX *w SIZEOF_SIZE_T)
               (Producer.coordination p) (_HICR_CHANNEL_HEAD_ADVANCE_COUNT_IDX *w SIZEOF_SIZE_T) SIZEOF_SIZE_T;
         CommunicationManager.fenceLocal (Producer.ccm p) (Producer.coordination p) 1 0) m = Done tt m' /\
    writes (coordination_footprint g) m m' /\
    cb_at (Base.circular_buffer_at (gCapacity g) (gProducer g)) (h + n) t m' /\
    cb_at (Base.circular_buffer_at (gCapacity g) (gConsumer g)) (h + n) tc m'.
Proof.
  intros Hc HP HC ????. connected_facts Hc. pose proof (capacity_bound _ Hsizes).
  rewrite (run_bind_Done _ _ _ _ _ (fenceImplLocal_ok (Producer.pcm p) src n 0 m)). rewrite Hpcb.
  destruct (run_advanceHead_at _ _ h t m n HP) as (m1 & E1 & W1 & HP1); [size_lia..|].
  rewrite (run_bind_Done _ _ _ _ _ E1).
  assert (HC1 : cb_at (Base.circular_buffer_at (gCapacity g) (gConsumer g)) hc tc m1).
  { eapply cb_at_writes; eauto with hicr. }
  destruct Hpsl as (np & ? & Hp), Hcsl as (nc & ? & Hcs).
  destruct (run_copy_head (Producer.ccm p) (Producer._consumerCoordinationBuffer p) (Consumer.coordination c)
              (Producer.coordination p) m1 (gConsumer g) nc (gProducer g) np _ _ _ _ _ _
              ltac:(by apply (writes_backed_by _ _ _ _ _ W1)) ltac:(by apply (writes_slot_at _ _ _ _ _ _ W1))
              ltac:(by apply (writes_slot_at _ _ _ _ _ _ W1)) ltac:(done) ltac:(done) HP1 HC1)
    as (m2 & E2 & W2 & HC2).
  exists m2. split_and!.
  - erewrite run_bind_Done by exact E2. apply fenceImplLocal_ok.
  - writes_by W1 W2.
  - eapply cb_at_writes; eauto with hicr.
  - done.
Qed.

(** The first half of a push, up to the copies. *)
Lemma run_push_prefix g p c m src sp ss n h t :
  connected g p c m -> cb_at (Base.circular_buffer_at (gCapacity g) (gProducer g)) h t m -> slot_at m src sp ss ->
  t <= h -> 0 <= n -> gTokenSize g * n <= ss -> is_size ss -> h - t + n <= gCapacity g ->
  run (Producer.push p src n) m =
  run (_ ← for_loop (Z.to_nat n) 0 (fun i =>
         pos ← CircularBuffer.getHeadPosition (Base.circular_buffer_at (gCapacity g) (gProducer g));
         CommunicationManager.memcpyGL (Producer.pcm p) (Producer._tokenBuffer p)
           (gTokenSize g *w pos) src (i *w gTokenSize g) (gTokenSize g));
       _ ← CommunicationManager.fenceLocal (Producer.pcm p) src n 0;
       _ ← CircularBuffer.advanceHead (Producer.circular p) n;
       _ ← CommunicationManager.memcpyGL (Producer.ccm p) (Producer._consumerCoordinationBuffer p)
             (_HICR_CHANNEL_HEAD_ADVANCE_COUNT_IDX *w SIZEOF_SIZE_T)
             (Producer.coordination p) (_HICR_CHANNEL_HEAD_ADVANCE_COUNT_IDX *w SIZEOF_SIZE_T) SIZEOF_SIZE_T;
       CommunicationManager.fenceLocal (Producer.ccm p) (Producer.coordination p) 1 0) m.
Proof.
  intros Hc HP Hs ?????. connected_facts Hc. pose proof (capacity_bound _ Hsizes).
  destruct Hsizes as (Ht & Hcap & Hmul), (cb_at_is_size _ _ _ _ HP) as [? ?].
  unfold Producer.push, Base.getTokenSize. cbv zeta. rewrite Hptok, Hpcb.
  rewrite (run_bind_Done _ _ _ _ _ (run_getSize _ _ _ _ Hs)).
  erewrite run_bind_Done by (apply run_throw_if_false; rewrite wrap64_small by size_lia; case_bool; lia).
  erewrite run_bind_Done by apply queryMemorySlotUpdatesImpl_ok.
  rewrite (run_bind_Done _ _ _ _ _ (run_getDepth_ok _ _ _ _ HP ltac:(lia))).
  erewrite run_bind_Done; [done|].
  apply run_throw_if_false. cbn. rewrite wrap64_small by size_lia. case_bool; lia.
Qed.

Lemma run_push_one g p c m src sp ss t q tok :
  channel_rep g p c m t q -> slot_at m src sp ss -> is_size ss -> gTokenSize g <= ss ->
  mem_load (heap m) sp (gTokenSize g) = Some tok ->
  Z.of_nat (length q) < gCapacity g -> t + Z.of_nat (length q) + 1 < SIZE_BOUND ->
  exists m', run (Producer.push p src 1) m = Done tt m' /\ writes (push_footprint g) m m' /\
    channel_rep g p c m' t (q ++ [tok]).
Proof.
  intros (Hc & HP & HC & Hq & Hh) Hs Hss Hts HL Hroom Hov. connected_facts Hc.
  rewrite (run_push_prefix g p c m src sp ss 1 (t + Z.of_nat (length q)) t) by (done || size_lia).
  pose proof (mem_load_length _ _ _ _ HL) as [Hl _].
  destruct (run_copy_token (Producer.pcm p) g _ m src sp ss 0 _ _ tok _ Hptb HP Hs) as (m1 & E1 & St1);
    rewrite ?ptr_add_0; try done; try size_lia.
  pose proof (stored_token_writes _ _ _ _ _ Hsizes Hl St1) as W1.
  change (Z.to_nat 1) with 1%nat. cbn [for_loop].
  erewrite run_bind_Done by (erewrite run_bind_Done by exact E1; reflexivity).
  pose proof (connected_writes _ _ _ _ _ _ W1 Hc) as Hc1.
  destruct (run_publish g p c m1 (t + Z.of_nat (length q)) t (t + Z.of_nat (length q)) t 1 src Hc1)
    as (m2 & E2 & W2 & HP2 & HC2); [eapply cb_at_writes; eauto with hicr..|lia|lia|lia|lia|].
  exists m2. split; [exact E2|]. split; [writes_by W1 W2|].
  unfold channel_rep. rewrite length_app. cbn [length].
  replace (t + Z.of_nat (length q + 1)) with (t + Z.of_nat (length q) + 1) by lia.
  split_and!; [by eapply connected_writes|done|done|lia|].
  eapply holds_tokens_writes; [done|exact W2|eauto with hicr|]. by eapply holds_tokens_push.
Qed.

(** A source smaller than the tokens to push is refused first. *)
Lemma run_push_small g p c m src sp ss n :
  connected g p c m -> slot_at m src sp ss -> is_size (gTokenSize g * n) -> ss < gTokenSize g * n ->
  run (Producer.push p src n) m = Thrown logic m.
Proof.
  intros Hc Hs Hz Hn. unfold Producer.push. cbv zeta. rewrite (run_bind_Done _ _ _ _ _ (run_getSize _ _ _ _ Hs)).
  rewrite run_bind, run_throw_if_true; [done|].
  unfold Base.getTokenSize. rewrite (con_ptoken _ _ _ _ Hc), wrap64_small by done. case_bool; lia.
Qed.

(** A push of [n] tokens that do not fit is refused without any effect. *)
Lemma run_push_refuse g p c m src sp ss t q n :
  channel_rep g p c m t q -> slot_at m src sp ss -> 0 <= n -> gTokenSize g * n <= ss <= PTRDIFF_MAX ->
  gCapacity g < Z.of_nat (length q) + n -> run (Producer.push p src n) m = Thrown runtime m.
Proof.
  intros (Hc & HP & _ & Hq & _) Hs Hn Hss Hfull. connected_facts Hc. pose proof (capacity_bound _ Hsizes).
  destruct Hsizes as (Ht & Hcap & Hmul). assert (n <= ss) by nia.
  unfold Producer.push, Base.getTokenSize. cbv zeta. rewrite Hptok, Hpcb.
  rewrite (run_bind_Done _ _ _ _ _ (run_getSize _ _ _ _ Hs)).
  erewrite run_bind_Done by (apply run_throw_if_false; rewrite wrap64_small by size_lia; case_bool; lia).
  erewrite run_bind_Done by apply queryMemorySlotUpdatesImpl_ok.
  rewrite (run_bind_Done _ _ _ _ _ (run_getDepth_ok _ _ _ _ HP ltac:(lia))).
  rewrite run_bind, run_throw_if_true; [done|]. cbn. rewrite wrap64_small by size_lia. case_bool; lia.
Qed.

Lemma run_peek_prefix g p c m t q pos :
  channel_rep g p c m t q -> 0 <= pos < gCapacity g ->
  run (Consumer.peek c pos) m =
  run (_ ← throw_if (pos >=? Z.of_nat (length q)) runtime;
       tail ← CircularBuffer.getTailPosition (Consumer.circular c);
       CircularBuffer.size_mod (tail +w pos) (gCapacity g)) m.
Proof.
  intros (Hc & _ & HC & _) Hp. unfold Consumer.peek. rewrite (con_ccircular _ _ _ _ Hc).
  cbn [CircularBuffer.getCapacity CircularBuffer._capacity Base.circular_buffer_at].
  erewrite run_bind_Done by (apply run_throw_if_false; case_bool; lia).
  do 2 erewrite run_bind_Done by apply flushReceived_ok.
  erewrite run_bind_Done by done.
  rewrite (run_bind_Done _ _ _ _ _ (run_getDepth_ok _ _ _ _ HC ltac:(lia))).
  by replace (t + Z.of_nat (length q) - t) with (Z.of_nat (length q)) by lia.
Qed.

(** [peek] returns the position of the requested token. *)
Lemma run_peek g p c m t q pos tok :
  channel_rep g p c m t q -> 0 <= pos -> q !! Z.to_nat pos = Some tok ->
  exists i, run (Consumer.peek c pos) m = Done i m /\ 0 <= i < gCapacity g /\
    mem_load (heap m) (ptr_add (gTokens g) (gTokenSize g * i)) (gTokenSize g) = Some tok.
Proof.
  intros Hrep Hp Hq. pose proof (lookup_lt_Some _ _ _ Hq). pose proof Hrep as (Hc & _ & HC & Hlen & Hh).
  connected_facts Hc. pose proof (capacity_bound _ Hsizes). destruct Hsizes as (Ht & Hcap & Hmul).
  rewrite (run_peek_prefix g p c m t q) by (done || lia).
  erewrite run_bind_Done by (apply run_throw_if_false; case_bool; lia). rewrite Hccb.
  rewrite (run_bind_Done _ _ _ _ _ (run_getTailPosition _ _ _ _ HC Hcap)).
  cbn [CircularBuffer._capacity Base.circular_buffer_at].
  pose proof (Z.mod_pos_bound t (gCapacity g) Hcap).
  unfold CircularBuffer.size_mod. case_bool; [lia|].
  exists ((t + pos) mod gCapacity g). split_and!; [|apply Z.mod_pos_bound; lia..|].
  - rewrite wrap64_small by size_lia. by rewrite Z.add_mod_idemp_l by lia.
  - specialize (Hh _ _ Hq). unfold token_at in Hh. by rewrite Z2Nat.id in Hh by lia.
Qed.

Lemma run_pop_prefix g p c m t q n :
  channel_rep g p c m t q -> 0 <= n <= gCapacity g ->
  run (Consumer.pop c n) m =
  run (_ ← throw_if (n >? Z.of_nat (length q)) runtime;
       _ ← CircularBuffer.advanceTail (Consumer.circular c) n;
       _ ← CommunicationManager.memcpyGL (Consumer.ccm c) (Consumer._producerCoordinationBuffer c)
             (_HICR_CHANNEL_TAIL_ADVANCE_COUNT_IDX *w SIZEOF_SIZE_T)
             (Consumer.coordination c) (_HICR_CHANNEL_TAIL_ADVANCE_COUNT_IDX *w SIZEOF_SIZE_T) SIZEOF_SIZE_T;
       CommunicationManager.fenceLocal (Consumer.ccm c) (Consumer.coordination c) 1 0) m.
Proof.
  intros (Hc & _ & HC & _) Hp. unfold Consumer.pop. rewrite (con_ccircular _ _ _ _ Hc).
  cbn [CircularBuffer.getCapacity CircularBuffer._capacity Base.circular_buffer_at].
  erewrite run_bind_Done by (apply run_throw_if_false; case_bool; lia).
  erewrite run_bind_Done by done.
  rewrite (run_bind_Done _ _ _ _ _ (run_getDepth_ok _ _ _ _ HC ltac:(lia))).
  by replace (t + Z.of_nat (length q) - t) with (Z.of_nat (length q)) by lia.
Qed.

(** The tail is advanced and published to the producer. *)
Lemma run_retire g p c m h t hp tp n :
  connected g p c m ->
  cb_at (Base.circular_buffer_at (gCapacity g) (gProducer g)) hp tp m ->
  cb_at (Base.circular_buffer_at (gCapacity g) (gConsumer g)) h t m -> 0 <= n <= h - t ->
  exists m',
    run (_ ← CircularBuffer.advanceTail (Consumer.circular c) n;
         _ ← CommunicationManager.memcpyGL (Consumer.ccm c) (Consumer._producerCoordinationBuffer c)
               (_HICR_CHANNEL_TAIL_ADVANCE_COUNT_IDX *w SIZEOF_SIZE_T)
               (Consumer.coordination c) (_HICR_CHANNEL_TAIL_ADVANCE_COUNT_IDX *w SIZEOF_SIZE_T) SIZEOF_SIZE_T;
         CommunicationManager.fenceLocal (Consumer.ccm c) (Consumer.coordination c) 1 0) m = Done tt m' /\
    writes (coordination_footprint g) m m' /\
    cb_at (Base.circular_buffer_at (gCapacity g) (gProducer g)) hp (t + n) m' /\
    cb_at (Base.circular_buffer_at (gCapacity g) (gConsumer g)) h (t + n) m'.
Proof.
  intros Hc HP HC Hn. connected_facts Hc. rewrite Hccb.
  destruct (run_advanceTail_at _ _ h t m n HC Hn) as (m1 & E1 & W1 & HC1).
  rewrite (run_bind_Done _ _ _ _ _ E1).
  assert (HP1 : cb_at (Base.circular_buffer_at (gCapacity g) (gProducer g)) hp tp m1).
  { eapply cb_at_writes; eauto with hicr. }
  destruct Hpsl as (np & ? & Hp), Hcsl as (nc & ? & Hcs).
  destruct (run_copy_tail (Consumer.ccm c) (Consumer._producerCoordinationBuffer c) (Producer.coordination p)
              (Consumer.coordination c) m1 (gProducer g) np (gConsumer g) nc _ _ _ _ _ _
              ltac:(by apply (writes_backed_by _ _ _ _ _ W1)) ltac:(by apply (writes_slot_at _ _ _ _ _ _ W1))
              ltac:(by apply (writes_slot_at _ _ _ _ _ _ W1)) ltac:(done) ltac:(done) HC1 HP1)
    as (m2 & E2 & W2 & HP2).
  exists m2. split_and!.
  - erewrite run_bind_Done by exact E2. apply fenceImplLocal_ok.
  - writes_by W1 W2.
  - done.
  - eapply cb_at_writes; eauto with hicr.
Qed.

Lemma run_pop g p c m t q n :
  channel_rep g p c m t q -> 0 <= n <= Z.of_nat (length q) ->
  exists m', run (Consumer.pop c n) m = Done tt m' /\ writes (coordination_footprint g) m m' /\
    channel_rep g p c m' (t + n) (drop (Z.to_nat n) q).
Proof.
  intros Hrep Hn. pose proof Hrep as (Hc & HP & HC & Hlen & Hh). connected_facts Hc.
  rewrite (run_pop_prefix g p c m t q) by (done || lia).
  erewrite run_bind_Done by (apply run_throw_if_false; case_bool; lia).
  destruct (run_retire g p c m _ _ _ _ n Hc HP HC) as (m' & E & W & HP' & HC'); [lia|].
  exists m'. do 2 (split; [done|]). unfold channel_rep. rewrite length_drop.
  replace (t + n + Z.of_nat (length q - Z.to_nat n)) with (t + Z.of_nat (length q)) by lia.
  split_and!; [by eapply connected_writes|done|done|lia|].
  eapply holds_tokens_writes; [done|exact W|eauto with hicr|].
  pose proof (holds_tokens_drop g m t q (Z.to_nat n) Hh) as Hd. by rewrite Z2Nat.id in Hd by lia.
Qed.

End Facts.
