(* ===== verification/FixedSPSCSpec.v ===== *)
(** * The fixed-size SPSC channel is a bounded FIFO queue

    The theorems of the fixed-size single-producer single-consumer channel
    ([FixedSPSC.v]): the behaviour of [push], [peek] and [pop] on every branch,
    the loss of tokens of a push of several, and a refinement theorem from
    client traces to an abstract bounded queue.  The section [Demo] builds a
    small machine over the pthreads backend on which the theorems apply. *)

From S2P Require Import Prelude Memory CommunicationManager Pthreads CircularBuffer Channel TokenBuffer FixedSPSC.
From Stdlib Require Import ZArith Lia.
From Stdlib.Strings Require Import Byte.
From stdpp Require Import base list gmap option.

Local Open Scope Z_scope.
Local Open Scope hicr_scope.

(** ** The abstract specification: a bounded queue of tokens *)

Module BoundedQueue.

Inductive op : Type :=
| Send (tok : list byte)
| Receive.

Inductive result : Type :=
| Sent
| Received (tok : list byte)
| Refused (e : exn)
| Broken.

Definition step (capacity : Z) (q : list (list byte)) (o : op) : list (list byte) * result :=
  match o with
  | Send tok => if Z.of_nat (length q) <? capacity then (q ++ [tok], Sent) else (q, Refused runtime)
  | Receive => match q with [] => (q, Refused runtime) | tok :: q' => (q', Received tok) end
  end.

Fixpoint steps (capacity : Z) (q : list (list byte)) (l : list op) : list (list byte) * list result :=
  match l with
  | [] => (q, [])
  | o :: l' =>
      let '(q', r) := step capacity q o in
      let '(q'', rs) := steps capacity q' l' in (q'', r :: rs)
  end.

End BoundedQueue.

(** ** A client of the channel

    As the examples and tests use it: the token is written to a send buffer
    and pushed; it is received by peeking the position of the oldest token,
    reading it from the token buffer and popping it. *)

Module Client.
Section Client.
Context {X : Type} {B : CommBackend X}.

Definition send (p : Producer.t) (src : nat) (tok : list byte) : prog (Machine X) unit :=
  dst ← getPointer src;
  _ ← update (fun m => h ← mem_store (heap m) dst tok; Some (set_heap h m));
  Producer.push p src 1.

Definition receive (c : Consumer.t) : prog (Machine X) (list byte) :=
  pos ← Consumer.peek c 0;
  src ← getSourceLocalMemorySlot (Consumer.getTokenBuffer c);
  match src with
  | None => Crash undefined
  | Some l =>
      tokens ← getPointer l;
      let tokenSize := Base.getTokenSize (Consumer.base c) in
      tok ← read_bytes (ptr_add tokens (tokenSize * pos)) tokenSize;
      _ ← Consumer.pop c 1;
      mret tok
  end.

(** Setting up a channel: both coordination buffers are reset, then the two
    endpoints are built; [pg] and [cg] are the global slots of the two
    coordination buffers, each handed to the other side. *)
Definition open (ccm pcm tokenBuffer pCoordination cCoordination pg cg : nat) (tokenSize capacity : Z) :
    prog (Machine X) (Producer.t * Consumer.t) :=
  _ ← Base.initializeCoordinationBuffer pCoordination;
  _ ← Base.initializeCoordinationBuffer cCoordination;
  p ← Producer.make ccm pcm tokenBuffer pCoordination cg tokenSize capacity;
  c ← Consumer.make ccm pcm tokenBuffer cCoordination pg tokenSize capacity;
  mret (p, c).

(** The client catches the exceptions of the channel and carries on. *)
Definition exec (p : Producer.t) (c : Consumer.t) (src : nat) (m : Machine X) (o : BoundedQueue.op) :
    Machine X * BoundedQueue.result :=
  match o with
  | BoundedQueue.Send tok =>
      match run (send p src tok) m with
      | Done _ m' => (m', BoundedQueue.Sent)
      | Thrown e m' => (m', BoundedQueue.Refused e)
      | Crashed _ m' | Blocked m' => (m', BoundedQueue.Broken)
      end
  | BoundedQueue.Receive =>
      match run (receive c) m with
      | Done tok m' => (m', BoundedQueue.Received tok)
      | Thrown e m' => (m', BoundedQueue.Refused e)
      | Crashed _ m' | Blocked m' => (m', BoundedQueue.Broken)
      end
  end.

Fixpoint exec_all (p : Producer.t) (c : Consumer.t) (src : nat) (m : Machine X) (l : list BoundedQueue.op) :
    Machine X * list BoundedQueue.result :=
  match l with
  | [] => (m, [])
  | o :: l' =>
      let '(m', r) := exec p c src m o in
      let '(m'', rs) := exec_all p c src m' l' in (m'', r :: rs)
  end.

End Client.
End Client.

(** The send buffer: large enough for a token and apart from the channel's buffers. *)
Record send_buffer {X : Type} (g : geometry) (src : nat) (sp : ptr) (ss : Z) (m : Machine X) : Prop := mkSendBuffer {
  sb_slot : slot_at m src sp ss;
  sb_size : gTokenSize g <= ss <= PTRDIFF_MAX;
  sb_access : accessible (heap m) sp ss;
  sb_producer : disjoint_ranges sp ss (gProducer g) 16;
  sb_consumer : disjoint_ranges sp ss (gConsumer g) 16;
  sb_tokens : disjoint_ranges sp ss (gTokens g) (gTokenSize g * gCapacity g)
}.

(** Buffers that are ready for a channel to be set up on. *)
Record layout {X : Type} (g : geometry) (tokenBuffer pl cl pg cg : nat) (m : Machine X) : Prop := mkLayout {
  lay_sizes : token_sizes g;
  lay_pslot : slot_at m pl (gProducer g) 16;
  lay_cslot : slot_at m cl (gConsumer g) 16;
  lay_tslot : slot_at m (gTokensSlot g) (gTokens g) (gTokenSize g * gCapacity g);
  lay_tokens : backed_by m tokenBuffer (gTokensSlot g);
  lay_pg : backed_by m pg pl;
  lay_cg : backed_by m cg cl;
  lay_paccess : accessible (heap m) (gProducer g) 16;
  lay_caccess : accessible (heap m) (gConsumer g) 16;
  lay_access : accessible (heap m) (gTokens g) (gTokenSize g * gCapacity g);
  lay_disj_pc : disjoint_ranges (gProducer g) 16 (gConsumer g) 16;
  lay_disj_pt : disjoint_ranges (gProducer g) 16 (gTokens g) (gTokenSize g * gCapacity g);
  lay_disj_ct : disjoint_ranges (gConsumer g) 16 (gTokens g) (gTokenSize g * gCapacity g)
}.

(** The number of tokens a trace tries to send, and that they have the size of the channel's tokens. *)
Fixpoint sends (l : list BoundedQueue.op) : Z :=
  match l with
  | [] => 0
  | BoundedQueue.Send _ :: l' => 1 + sends l'
  | BoundedQueue.Receive :: l' => sends l'
  end.

Definition op_fits (g : geometry) (o : BoundedQueue.op) : Prop :=
  match o with BoundedQueue.Send tok => Z.of_nat (length tok) = gTokenSize g | BoundedQueue.Receive => True end.

(** ** A concrete channel over the pthreads backend *)

Module Demo.

Definition geom : geometry := mkGeometry (mkTokenBuffer 2 3 (Ptr 2 0) 2) (Ptr 0 0) (Ptr 1 0).

Definition slot (b : nat) (n : Z) : LocalMemorySlot.t := LocalMemorySlot.make (Ptr b 0) n None.

Definition core : Core.t :=
  Core.mk 1 (PthreadBarrier.init 1) ∅ 0 ∅ (<[10%nat := false]> (<[11%nat := false]> (<[12%nat := false]> ∅))) false.

Definition fields : CommunicationManagerFields.t :=
  CommunicationManagerFields.mk
    (<[7 := <[0 := 10%nat]> (<[1 := 11%nat]> (<[2 := 12%nat]> ∅))]> ∅) ∅.

(** Two 16-byte coordination buffers, a buffer of three 2-byte tokens, and a
    send buffer of two tokens. *)
Definition machine_with (coordination tokens : list byte) : Machine Core.t :=
  mkMachine
    (<[0%nat := coordination]> (<[1%nat := coordination]>
      (<[2%nat := tokens]> (<[3%nat := [x0a; x0b; x0c; x0d]]> ∅))))
    (<[0%nat := slot 0 16]> (<[1%nat := slot 1 16]> (<[2%nat := slot 2 6]> (<[3%nat := slot 3 4]> ∅))))
    (<[10%nat := GlobalMemorySlot.mk 7 0 (Some 0%nat)]> (<[11%nat := GlobalMemorySlot.mk 7 1 (Some 1%nat)]>
      (<[12%nat := GlobalMemorySlot.mk 7 2 (Some 2%nat)]> ∅)))
    (<[0%nat := fields]> ∅)
    core.

(** The empty channel, and the channel after four pushes and two pops, whose two
    tokens lie around the end of the token buffer. *)
Definition machine : Machine Core.t := machine_with (replicate 16 x00) (replicate 6 x00).

Definition loaded : Machine Core.t :=
  machine_with (le_bytes 8 4 ++ le_bytes 8 2) [x03; x04; x00; x00; x01; x02].

Definition producer : Producer.t := Producer.mk (Base.mk 0 0 0 2 (Base.circular_buffer_at 3 (Ptr 0 0))) 12 11.

Definition consumer : Consumer.t := Consumer.mk (Base.mk 0 0 1 2 (Base.circular_buffer_at 3 (Ptr 1 0))) 12 10.

(** The endpoints are what the constructors build on this machine. *)
Example make_producer : run (Producer.make 0 0 12 0 11 2 3) machine = Done producer machine.
Proof. vm_compute. reflexivity. Qed.

Example make_consumer : run (Consumer.make 0 0 12 1 10 2 3) machine = Done consumer machine.
Proof. vm_compute. reflexivity. Qed.

Lemma connected_demo coordination tokens :
  length coordination = 16%nat -> length tokens = 6%nat ->
  connected geom producer consumer (machine_with coordination tokens).
Proof.
  intros Hco Hto.
  assert (Hb : is_token_buffer geom 12 (machine_with coordination tokens)).
  { split; [done|by exists 6; split; [cbn; lia|]; eexists|by eexists|]. apply is_Some_read_at. by rewrite Hto. }
  split; try done; try (by exists 16; split; [lia|]; eexists); try (by eexists); cbn; lia.
Qed.

Lemma rep_demo : channel_rep geom producer consumer machine 0 [].
Proof. split_and!; [by apply connected_demo|by split|by split|cbn; lia|]. intros i tok Hi. done. Qed.

Lemma rep_loaded : channel_rep geom producer consumer loaded 2 [[x01; x02]; [x03; x04]].
Proof.
  split_and!; [by apply connected_demo|by split|by split|cbn; lia|].
  intros [|[|i]] tok Hi; by simplify_eq.
Qed.

Lemma layout_demo : layout geom 12 0 1 10 11 (machine_with (replicate 16 xff) (replicate 6 x00)).
Proof. split; try (by eexists); try (cbn; lia). Qed.

Lemma send_buffer_demo : send_buffer geom 3 (Ptr 3 0) 4 machine.
Proof. split; [by eexists|cbn; size_lia|by eexists|cbn; lia|cbn; lia|cbn; lia]. Qed.

End Demo.

(** ** Helper lemmas *)

Section Facts.
Context {X : Type} {B : CommBackend X} `{!CommSpec X}.
Implicit Types m : Machine X.

(** A send buffer remains one. *)
Lemma send_buffer_writes R g src sp ss m m' :
  send_buffer g src sp ss m -> writes R m m' -> send_buffer g src sp ss m'.
Proof.
  intros [] W. split; try done; by rewrite ?(writes_slot_at _ _ _ _ _ _ W), ?(writes_accessible _ _ _ _ _ W).
Qed.

(** One iteration of the loop of a push, in terms of what is observed. *)
Lemma run_push_iteration g p c m src sp ss i h t :
  connected g p c m -> cb_at (Base.circular_buffer_at (gCapacity g) (gProducer g)) h t m ->
  send_buffer g src sp ss m -> 0 <= i -> gTokenSize g + i * gTokenSize g <= ss ->
  exists m',
    run (pos ← CircularBuffer.getHeadPosition (Base.circular_buffer_at (gCapacity g) (gProducer g));
         CommunicationManager.memcpyGL (Producer.pcm p) (Producer._tokenBuffer p)
           (gTokenSize g *w pos) src (i *w gTokenSize g) (gTokenSize g)) m = Done tt m' /\
    writes [token_range g] m m' /\
    token_at g m' h = mem_load (heap m) (ptr_add sp (i * gTokenSize g)) (gTokenSize g) /\
    forall j, j mod gCapacity g <> h mod gCapacity g -> token_at g m' j = token_at g m j.
Proof.
  intros Hc HP [Hsbs Hsbn Hsba _ _ _] Hi Hss. connected_facts Hc. pose proof Hsizes as (Ht & Hcap & _).
  destruct (accessible_sub (heap m) sp ss (i * gTokenSize g) (gTokenSize g)) as [tok Htok]; [done|nia..|].
  destruct (mem_load_length _ _ _ _ Htok) as [Hl _].
  destruct (run_copy_token (Producer.pcm p) g _ m src sp ss (i * gTokenSize g) h t tok _ Hptb HP Hsbs)
    as (m' & E & St); [nia|size_lia|done..|].
  exists m'. rewrite (wrap64_small (i * gTokenSize g)) by size_lia. split_and!; [exact E|..].
  - by eapply stored_token_writes.
  - rewrite Htok. by eapply token_at_stored_same.
  - intros j Hj. eapply token_at_stored_other; [done| |done|exact St]. congruence.
Qed.

(** The loop of a push of [n] tokens: every one is copied to the same place. *)
Lemma run_push_loop g p c m src sp ss n h t :
  connected g p c m -> cb_at (Base.circular_buffer_at (gCapacity g) (gProducer g)) h t m ->
  send_buffer g src sp ss m -> 0 < n -> gTokenSize g * n <= ss ->
  exists m',
    run (for_loop (Z.to_nat n) 0 (fun i =>
           pos ← CircularBuffer.getHeadPosition (Base.circular_buffer_at (gCapacity g) (gProducer g));
           CommunicationManager.memcpyGL (Producer.pcm p) (Producer._tokenBuffer p)
             (gTokenSize g *w pos) src (i *w gTokenSize g) (gTokenSize g))) m = Done tt m' /\
    writes [token_range g] m m' /\
    token_at g m' h = mem_load (heap m) (ptr_add sp ((n - 1) * gTokenSize g)) (gTokenSize g) /\
    forall j, j mod gCapacity g <> h mod gCapacity g -> token_at g m' j = token_at g m j.
Proof.
  intros Hc HP Hsb Hn Hss. connected_facts Hc. pose proof Hsizes as (Ht & Hcap & _).
  set (I := fun i (u : Machine X) => writes [token_range g] m u /\
    (0 < i -> token_at g u h = mem_load (heap m) (ptr_add sp ((i - 1) * gTokenSize g)) (gTokenSize g)) /\
    (forall j, j mod gCapacity g <> h mod gCapacity g -> token_at g u j = token_at g m j)).
  edestruct (run_for_loop_inv I) as (m' & E & HI); cycle 2.
  - exists m'. split; [exact E|]. rewrite Z2Nat.id, Z.add_0_l in HI by lia.
    destruct HI as (? & Hlast & ?). split_and!; try done. by apply Hlast.
  - by split_and!; [apply rtc_refl|lia|].
  - intros i u Hi (Wu & _ & Hother). rewrite Z2Nat.id in Hi by lia.
    destruct (run_push_iteration g p c u src sp ss i h t) as (u' & Eu & Wu' & Hlast & Hoth);
      [by eapply connected_writes|eapply cb_at_writes; eauto with hicr|by eapply send_buffer_writes|lia|nia|].
    exists u'. split; [exact Eu|]. split_and!; [writes_by Wu Wu'|intros _; rewrite Hlast|].
    + replace (i + 1 - 1) with i by lia. apply (writes_load _ _ _ _ _ Wu).
      eapply apart_sub; [apply apart_cons_sym, apart_nil; apply Hsb|nia..].
    + intros j Hj. rewrite Hoth by done. by apply Hother.
Qed.

(** The sent token is written to the send buffer and then pushed. *)
Lemma run_send g p c m t q src sp ss tok :
  channel_rep g p c m t q -> send_buffer g src sp ss m -> Z.of_nat (length tok) = gTokenSize g ->
  t + Z.of_nat (length q) + 1 < SIZE_BOUND ->
  exists m', channel_rep g p c m' t (BoundedQueue.step (gCapacity g) q (BoundedQueue.Send tok)).1 /\
    send_buffer g src sp ss m' /\
    run (Client.send p src tok) m =
      if Z.of_nat (length q) <? gCapacity g then Done tt m' else Thrown runtime m'.
Proof.
  intros Hrep Hsb Hlen Hov. pose proof Hsb as [Hsbs Hsbn Hsba Hsbp Hsbc Hsbt].
  unfold Client.send. rewrite (run_bind_Done _ _ _ _ _ (run_getPointer _ _ _ _ Hsbs)).
  destruct (mem_store_accessible (heap m) sp tok) as [h Eh].
  { rewrite Hlen, <- (ptr_add_0 sp). pose proof (connected_sizes _ _ _ _ (proj1 Hrep)) as (? & _).
    eapply accessible_sub; [exact Hsba|lia..]. }
  set (m1 := set_heap h m). assert (St : stored m (ptr_add sp 0) tok m1) by (rewrite ptr_add_0; by exists h).
  erewrite run_bind_Done by (apply (run_update _ _ m1); by rewrite Eh).
  pose proof (writes_stored [(sp, ss)] m sp 0 tok m1 ss St ltac:(auto with hicr) ltac:(lia) ltac:(lia)) as W1.
  assert (Hrep1 : channel_rep g p c m1 t q) by (eapply channel_rep_writes; eauto with hicr).
  pose proof (send_buffer_writes _ _ _ _ _ _ _ Hsb W1) as Hsb1.
  cbn [BoundedQueue.step]. case_bool; cbn [fst].
  - pose proof (stored_same _ _ _ _ St) as HL. rewrite Hlen, ptr_add_0 in HL.
    pose proof (connected_sizes _ _ _ _ (proj1 Hrep)) as (? & _).
    destruct (run_push_one g p c m1 src sp ss t q tok) as (m2 & E2 & W2 & Hrep2);
      [done|apply Hsb1|size_lia|lia|done|lia|done|].
    exists m2. split_and!; [done| |done]. by eapply send_buffer_writes.
  - exists m1. split_and!; [done..|].
    by rewrite (run_push_refuse g p c m1 src sp ss t q) by first [done | apply Hsb1 | lia].
Qed.

Lemma run_peek_empty g p c m t pos :
  channel_rep g p c m t [] -> 0 <= pos < gCapacity g -> run (Consumer.peek c pos) m = Thrown runtime m.
Proof.
  intros Hrep Hp. rewrite (run_peek_prefix g p c m t []) by done.
  rewrite run_bind, run_throw_if_true; [done|]. cbn. case_bool; lia.
Qed.

(** The oldest token is read where [peek] says it is, and then popped. *)
Lemma run_receive g p c m t tok q :
  channel_rep g p c m t (tok :: q) ->
  exists m', run (Client.receive c) m = Done tok m' /\ writes (coordination_footprint g) m m' /\ channel_rep g p c m' (t + 1) q.
Proof.
  intros Hrep. destruct (run_peek g p c m t (tok :: q) 0 tok) as (i & Ei & Hi & HL); [done..|].
  destruct (run_pop g p c m t (tok :: q) 1) as (m' & Em & W & Hrep'); [done|cbn; lia|].
  exists m'. split; [|by split]. pose proof (proj1 Hrep) as Hc. connected_facts Hc.
  destruct Hctb as [_ (n & _ & Hts) Hctb _].
  unfold Client.receive, Consumer.getTokenBuffer, Base.getTokenSize. rewrite Hctok.
  rewrite (run_bind_Done _ _ _ _ _ Ei), (run_bind_Done _ _ _ _ _ (run_getSource _ _ _ Hctb)). rewrite (run_bind_Done _ _ _ _ _ (run_getPointer _ _ _ _ Hts)). cbv zeta.
  erewrite run_bind_Done by exact (run_fetch (fun m => mem_load (heap m) _ _) m tok HL).
  by rewrite (run_bind_Done _ _ _ _ _ Em).
Qed.

(** One operation of the client simulates one step of the queue. *)
Lemma exec_step g p c m t q src sp ss o :
  channel_rep g p c m t q -> send_buffer g src sp ss m -> op_fits g o ->
  t + Z.of_nat (length q) + sends [o] < SIZE_BOUND ->
  (Client.exec p c src m o).2 = (BoundedQueue.step (gCapacity g) q o).2 /\
  send_buffer g src sp ss (Client.exec p c src m o).1 /\
  exists t', channel_rep g p c (Client.exec p c src m o).1 t' (BoundedQueue.step (gCapacity g) q o).1 /\
    t' + Z.of_nat (length (BoundedQueue.step (gCapacity g) q o).1) <= t + Z.of_nat (length q) + sends [o].
Proof.
  intros Hrep Hsb Hfit Hov. pose proof (connected_sizes _ _ _ _ (proj1 Hrep)) as (_ & Hcap & _).
  destruct o as [tok|].
  - change (sends [BoundedQueue.Send tok]) with 1 in *.
    destruct (run_send g p c m t q src sp ss tok) as (m' & Hrep' & Hsb' & E); [done..|].
    cbn [Client.exec BoundedQueue.step] in *. rewrite E. revert Hrep'. case_bool; cbn; intros Hrep'.
    + split_and!; [done..|]. exists t. split; [done|]. rewrite length_app. cbn. lia.
    + split_and!; [done..|]. exists t. split; [done|]. lia.
  - change (sends [BoundedQueue.Receive]) with 0 in *. destruct q as [|tok q]; cbn [Client.exec BoundedQueue.step].
    + unfold Client.receive. rewrite run_bind, (run_peek_empty g p c m t 0) by (done || lia). cbn.
      split_and!; [done..|]. exists t. split; [done|lia].
    + destruct (run_receive g p c m t tok q Hrep) as (m' & E & W & Hrep'). rewrite E. cbn.
      split_and!; [done|by eapply send_buffer_writes|]. exists (t + 1). split; [done|lia].
Qed.

Lemma sends_cons o l : sends (o :: l) = sends [o] + sends l.
Proof. destruct o; cbn; lia. Qed.

Lemma sends_nonneg l : 0 <= sends l.
Proof. induction l as [|[]]; cbn; lia. Qed.

(** ** Theorems *)

(** C4: the client of a connected channel sees a bounded FIFO queue.  For every
    sequence of sends and receives, with fewer than 2^64 tokens in all, the
    results (including the refusals of a full and of an empty channel) are
    those of the abstract queue, and the channel then holds the abstract
    queue's content; no operation crashes or blocks. *)
Theorem channel_refines_queue g p c src sp ss (l : list BoundedQueue.op) :
  forall m t q,
  channel_rep g p c m t q -> send_buffer g src sp ss m -> Forall (op_fits g) l ->
  t + Z.of_nat (length q) + sends l < SIZE_BOUND ->
  (Client.exec_all p c src m l).2 = (BoundedQueue.steps (gCapacity g) q l).2 /\
  exists t', channel_rep g p c (Client.exec_all p c src m l).1 t' (BoundedQueue.steps (gCapacity g) q l).1.
Proof.
  induction l as [|o l IH]; intros m t q Hrep Hsb Hf Hov; [split; [done|by exists t]|].
  apply Forall_cons_1 in Hf as [Ho Hf]. rewrite sends_cons in Hov. pose proof (sends_nonneg l).
  destruct (exec_step g p c m t q src sp ss o) as (Hr & Hsb' & t' & Hrep' & Ht'); [done..|lia|].
  cbn [Client.exec_all BoundedQueue.steps].
  destruct (Client.exec p c src m o) as [m' r], (BoundedQueue.step (gCapacity g) q o) as [q' r']. cbn in *. subst r'.
  destruct (IH m' t' q' Hrep' Hsb' Hf ltac:(lia)) as [Hrs Hend].
  destruct (Client.exec_all p c src m' l), (BoundedQueue.steps (gCapacity g) q' l). cbn in *. by subst.
Qed.

(** [push] of one token, on every branch: a send buffer smaller than a token
    is refused, a full channel refuses without any effect, and otherwise the
    channel holds one more token, the newest. *)
Theorem push_spec g p c m t q src sp ss tok :
  channel_rep g p c m t q -> slot_at m src sp ss -> 0 <= ss <= PTRDIFF_MAX ->
  (gTokenSize g <= ss -> mem_load (heap m) sp (gTokenSize g) = Some tok) ->
  t + Z.of_nat (length q) + 1 < SIZE_BOUND ->
  if ss <? gTokenSize g then run (Producer.push p src 1) m = Thrown logic m
  else if Z.of_nat (length q) <? gCapacity g
  then exists m', run (Producer.push p src 1) m = Done tt m' /\ writes (push_footprint g) m m' /\ channel_rep g p c m' t (q ++ [tok])
  else run (Producer.push p src 1) m = Thrown runtime m.
Proof.
  intros Hrep Hs Hss HL Hov. pose proof (connected_sizes _ _ _ _ (proj1 Hrep)) as (? & ? & ?). repeat case_bool.
  - assert (gTokenSize g <= PTRDIFF_MAX) by nia.
    by rewrite (run_push_small g p c m src sp ss 1) by (apply Hrep || done || size_lia).
  - eapply run_push_one; eauto; size_lia.
  - by rewrite (run_push_refuse g p c m src sp ss t q) by (done || lia).
Qed.

(** A [push] of [n] tokens advances the channel by [n], but every token of
    the source is copied to the position of the first: the last one is kept
    there, and the following [n - 1] positions still hold what they held. *)
Theorem push_many_keeps_last g p c m t q src sp ss n :
  channel_rep g p c m t q -> send_buffer g src sp ss m -> 1 <= n -> gTokenSize g * n <= ss ->
  Z.of_nat (length q) + n <= gCapacity g -> t + Z.of_nat (length q) + n < SIZE_BOUND ->
  exists m', run (Producer.push p src n) m = Done tt m' /\
    cb_at (Consumer.circular c) (t + Z.of_nat (length q) + n) t m' /\
    token_at g m' (t + Z.of_nat (length q)) =
      mem_load (heap m) (ptr_add sp ((n - 1) * gTokenSize g)) (gTokenSize g) /\
    forall k, 0 < k < n ->
      token_at g m' (t + Z.of_nat (length q) + k) = token_at g m (t + Z.of_nat (length q) + k).
Proof.
  intros (Hc & HP & HC & Hq & Hh) Hsb Hn Hss Hroom Hov. pose proof Hsb as [Hsbs Hsbn _ _ _ _].
  connected_facts Hc. pose proof Hsizes as (Ht & Hcap & _).
  rewrite (run_push_prefix g p c m src sp ss n (t + Z.of_nat (length q)) t) by (done || size_lia).
  destruct (run_push_loop g p c m src sp ss n (t + Z.of_nat (length q)) t)
    as (m1 & E1 & W1 & Hlast & Hother); [done..|lia|done|].
  rewrite (run_bind_Done _ _ _ _ _ E1).
  destruct (run_publish g p c m1 (t + Z.of_nat (length q)) t (t + Z.of_nat (length q)) t n src
              (connected_writes _ _ _ _ _ _ W1 Hc)) as (m2 & E2 & W2 & _ & HC2);
    [eapply cb_at_writes; eauto with hicr..|lia|lia|lia|lia|].
  assert (Htok : forall j, token_at g m2 j = token_at g m1 j) by (intros; eapply token_at_writes; eauto with hicr).
  exists m2. split_and!; [exact E2|by rewrite Hccb|by rewrite Htok|]. intros k Hk. rewrite Htok. apply Hother.
  intros E. rewrite <- (Z.add_0_r (t + _)) in E at 2. apply mod_window_inj in E; lia.
Qed.

(** [peek] on every branch.  A position beyond the capacity is a logic error,
    one beyond the depth a runtime error; otherwise the result is the place of
    the requested token in the token buffer. *)
Theorem peek_spec g p c m t q pos :
  channel_rep g p c m t q -> 0 <= pos ->
  match q !! Z.to_nat pos with
  | Some tok => exists i, run (Consumer.peek c pos) m = Done i m /\ 0 <= i < gCapacity g /\
      mem_load (heap m) (ptr_add (gTokens g) (gTokenSize g * i)) (gTokenSize g) = Some tok
  | None => run (Consumer.peek c pos) m = Thrown (if pos <? gCapacity g then runtime else logic) m
  end.
Proof.
  intros Hrep Hp. destruct (q !! Z.to_nat pos) as [tok|] eqn:E; [by eapply run_peek|].
  apply lookup_ge_None in E. case_bool.
  - rewrite (run_peek_prefix g p c m t q) by done.
    rewrite run_bind, run_throw_if_true; [done|]. case_bool; lia.
  - unfold Consumer.peek. rewrite run_bind, run_throw_if_true; [done|].
    rewrite (con_ccircular _ _ _ _ (proj1 Hrep)). cbn. case_bool; lia.
Qed.

(** [pop] on every branch.  Popping more than the capacity is a logic error,
    more than the depth a runtime error; otherwise the [n] oldest tokens leave
    the channel and the rest keep their order. *)
Theorem pop_spec g p c m t q n :
  channel_rep g p c m t q -> 0 <= n ->
  if n <=? Z.of_nat (length q)
  then exists m', run (Consumer.pop c n) m = Done tt m' /\ writes (coordination_footprint g) m m' /\
         channel_rep g p c m' (t + n) (drop (Z.to_nat n) q)
  else run (Consumer.pop c n) m = Thrown (if n <=? gCapacity g then runtime else logic) m.
Proof.
  intros Hrep Hn. repeat case_bool.
  - eapply run_pop; [done|lia].
  - rewrite (run_pop_prefix g p c m t q) by (done || lia).
    rewrite run_bind, run_throw_if_true; [done|]. case_bool; lia.
  - unfold Consumer.pop. rewrite run_bind, run_throw_if_true; [done|].
    rewrite (con_ccircular _ _ _ _ (proj1 Hrep)). cbn. case_bool; lia.
Qed.

Lemma layout_writes R g tb pl cl pg cg m m' :
  writes R m m' -> layout g tb pl cl pg cg m -> layout g tb pl cl pg cg m'.
Proof.
  intros W []. split; try done;
    by rewrite ?(writes_slot_at _ _ _ _ _ _ W), ?(writes_backed_by _ _ _ _ _ W), ?(writes_accessible _ _ _ _ _ W).
Qed.

(** The constructors of the two endpoints on such buffers. *)
Lemma run_open_endpoints g tb pl cl pg cg m ccm pcm :
  layout g tb pl cl pg cg m ->
  exists p c,
    run (p ← Producer.make ccm pcm tb pl cg (gTokenSize g) (gCapacity g);
         c ← Consumer.make ccm pcm tb cl pg (gTokenSize g) (gCapacity g); mret (p, c)) m = Done (p, c) m /\
    connected g p c m.
Proof.
  intros []. pose proof lay_sizes0 as (Ht & Hcap & Hmul).
  exists (Producer.mk (Base.mk ccm pcm pl (gTokenSize g) (Base.circular_buffer_at (gCapacity g) (gProducer g))) tb cg),
         (Consumer.mk (Base.mk ccm pcm cl (gTokenSize g) (Base.circular_buffer_at (gCapacity g) (gConsumer g))) tb pg).
  split; cycle 1.
  - assert (Htb : is_token_buffer g tb m) by (split; [done|by exists (gTokenSize g * gCapacity g)|done|done]).
    split; cbn; try done; by exists 16.
  - unfold Producer.make, Consumer.make.
    assert (Ek : (gTokenSize g =? 0) || (gCapacity g =? 0) || (16 <? 16) = false) by (repeat case_bool; cbn; lia).
    do 2 (rewrite !run_bind; erewrite run_Base_make by done; rewrite Ek; cbn [run mret prog_mret]).
    rewrite run_bind, (run_getSource _ _ _ lay_tokens0), run_bind, (run_getSize _ _ _ _ lay_tslot0).
    unfold Base.getTokenBufferSize, Base.getTokenSize. cbn [Base._tokenSize]. rewrite wrap64_small by size_lia.
    rewrite run_bind, run_throw_if_false by (case_bool; lia). done.
Qed.

(** C24: setting up a channel on fresh buffers establishes the invariant with an
    empty queue, whatever bytes the buffers held before. *)
Theorem open_spec g tb pl cl pg cg m ccm pcm :
  layout g tb pl cl pg cg m ->
  exists p c m', run (Client.open ccm pcm tb pl cl pg cg (gTokenSize g) (gCapacity g)) m = Done (p, c) m' /\
    channel_rep g p c m' 0 [].
Proof.
  intros L0. unfold Client.open.
  destruct (run_initializeCoordinationBuffer m pl (gProducer g) 16 (gCapacity g)) as (m1 & E1 & HP1 & W1);
    [apply L0..|]. rewrite (run_bind_Done _ _ _ _ _ E1).
  pose proof (layout_writes _ _ _ _ _ _ _ _ _ W1 L0) as L1.
  destruct (run_initializeCoordinationBuffer m1 cl (gConsumer g) 16 (gCapacity g)) as (m2 & E2 & HC2 & W2);
    [apply L1..|]. rewrite (run_bind_Done _ _ _ _ _ E2).
  pose proof (layout_writes _ _ _ _ _ _ _ _ _ W2 L1) as L2.
  assert (HP2 : cb_at (Base.circular_buffer_at (gCapacity g) (gProducer g)) 0 0 m2).
  { eapply cb_at_writes; [exact W2| |exact HP1]. apply apart_cons_sym; [apply L1|apply apart_nil]. }
  destruct (run_open_endpoints g tb pl cl pg cg m2 ccm pcm L2) as (p & c & E & Hc).
  exists p, c, m2. split; [exact E|]. destruct (connected_sizes _ _ _ _ Hc) as (_ & ? & _).
  split_and!; [done..|cbn; lia|]. by intros [].
Qed.

End Facts.

(** ** The theorems on the concrete channel *)

Module Witnesses.
Import BoundedQueue.

Definition trace : list op :=
  [Send [x01; x02]; Receive; Receive; Send [x03; x04]; Send [x05; x06]; Send [x07; x08]; Send [x09; x0a]; Receive].

Lemma channel_refines_queue_witness :
  (Client.exec_all Demo.producer Demo.consumer 3 Demo.machine trace).2 =
  [Sent; Received [x01; x02]; Refused runtime; Sent; Sent; Sent; Refused runtime; Received [x03; x04]].
Proof.
  refine (proj1 (channel_refines_queue Demo.geom Demo.producer Demo.consumer 3 (Ptr 3 0) 4 trace
                   Demo.machine 0 [] Demo.rep_demo Demo.send_buffer_demo _ _)); [|by vm_compute].
  by repeat constructor.
Defined.

Lemma open_spec_witness :
  exists p c m', run (Client.open 0 0 12 0 1 10 11 2 3) (Demo.machine_with (replicate 16 xff) (replicate 6 x00))
      = Done (p, c) m' /\ channel_rep Demo.geom p c m' 0 [].
Proof. apply (open_spec Demo.geom 12 0 1 10 11 _ 0 0), Demo.layout_demo. Defined.

Lemma push_spec_witness :
  exists m', run (Producer.push Demo.producer 3 1) Demo.machine = Done tt m' /\ writes (push_footprint Demo.geom) Demo.machine m' /\
    channel_rep Demo.geom Demo.producer Demo.consumer m' 0 [[x0a; x0b]].
Proof.
  apply (push_spec Demo.geom Demo.producer Demo.consumer Demo.machine 0 [] 3 (Ptr 3 0) 4 [x0a; x0b]);
    [apply Demo.rep_demo|apply Demo.send_buffer_demo|by vm_compute|done|done].
Defined.

(** Pushing the two tokens of the send buffer stores the second one, at the
    place of the first, and leaves the next place untouched. *)
Lemma push_many_keeps_last_witness :
  exists m', run (Producer.push Demo.producer 3 2) Demo.machine = Done tt m' /\
    cb_at (Consumer.circular Demo.consumer) 2 0 m' /\
    token_at Demo.geom m' 0 = Some [x0c; x0d] /\ token_at Demo.geom m' 1 = Some [x00; x00].
Proof.
  destruct (push_many_keeps_last Demo.geom Demo.producer Demo.consumer Demo.machine 0 [] 3 (Ptr 3 0) 4 2)
    as (m' & E & Hcb & H0 & H1); [apply Demo.rep_demo|apply Demo.send_buffer_demo|by vm_compute..|].
  exists m'. split_and!; [done|done|exact H0|exact (H1 1 ltac:(lia))].
Defined.

Lemma peek_spec_witness :
  exists i, run (Consumer.peek Demo.consumer 1) Demo.loaded = Done i Demo.loaded /\ 0 <= i < 3 /\
    mem_load (heap Demo.loaded) (Ptr 2 (2 * i)) 2 = Some [x03; x04].
Proof.
  exact (peek_spec Demo.geom Demo.producer Demo.consumer Demo.loaded 2 _ 1 Demo.rep_loaded ltac:(lia)).
Defined.

Lemma pop_spec_witness :
  exists m', run (Consumer.pop Demo.consumer 1) Demo.loaded = Done tt m' /\ writes (coordination_footprint Demo.geom) Demo.loaded m' /\
    channel_rep Demo.geom Demo.producer Demo.consumer m' 3 [[x03; x04]].
Proof.
  exact (pop_spec Demo.geom Demo.producer Demo.consumer Demo.loaded 2 _ 1 Demo.rep_loaded ltac:(lia)).
Defined.

End Witnesses.
