(* ===== verification/AtomicCopies.v ===== *)
(** * Copies as seen by other threads

    A copy between slots is several steps: the slots are looked up, the bytes
    are moved, and the message counters are changed.  [CommAtomic] states what a
    client whose peers run at the same time relies on: of these steps only one,
    the move of the bytes, can be noticed.  The pthreads backend is an instance. *)

From S2P Require Import Prelude Memory CommunicationManager Pthreads Concurrency Interference.
From Stdlib Require Import ZArith Lia.
From stdpp Require Import base list gmap option.

Local Open Scope Z_scope.
Local Open Scope hicr_scope.

(** An assertion that the others keep, that does not look at message counters,
    and whose thread may change message counters. *)
Record quiet {X : Type} (c : contract (Machine X)) (P : Machine X -> Prop) : Prop := mkQuiet {
  quiet_stable : stable c P;
  quiet_sim : forall m m', P m -> machine_sim m m' -> P m' /\ guar c m m'
}.

Class CommAtomic (X : Type) {B : CommBackend X} : Prop := {
  memcpyImplGL_atomic : forall (c : contract (Machine X)) this gl d dO s sO n dp ds sp ss (P Q : Machine X -> Prop),
    Contract c -> quiet c P -> quiet c Q ->
    (forall m, P m -> backed_by m gl d) ->
    (forall m, P m \/ Q m -> slot_at m d dp ds /\ slot_at m s sp ss) ->
    is_size (n + dO) -> n + dO <= ds -> is_size (n + sO) -> n + sO <= ss ->
    (forall m, P m -> exists bs h, mem_load (heap m) (ptr_add sp sO) n = Some bs /\
       mem_store (heap m) (ptr_add dp dO) bs = Some h /\ guar c m (set_heap h m) /\ Q (set_heap h m)) ->
    triple c P (memcpyImplGL this gl dO s sO n) (fun _ => Q);
  memcpyImplLG_atomic : forall (c : contract (Machine X)) this d dO gl s sO n dp ds sp ss (P Q : Machine X -> Prop),
    Contract c -> quiet c P -> quiet c Q ->
    (forall m, P m -> backed_by m gl s) ->
    (forall m, P m \/ Q m -> slot_at m d dp ds /\ slot_at m s sp ss) ->
    is_size (n + dO) -> n + dO <= ds -> is_size (n + sO) -> n + sO <= ss ->
    (forall m, P m -> exists bs h, mem_load (heap m) (ptr_add sp sO) n = Some bs /\
       mem_store (heap m) (ptr_add dp dO) bs = Some h /\ guar c m (set_heap h m) /\ Q (set_heap h m)) ->
    triple c P (memcpyImplLG this d dO gl sO n) (fun _ => Q);
  fenceImplLocal_atomic : forall (c : contract (Machine X)) this l a b (P : Machine X -> Prop),
    Contract c -> quiet c P -> triple c P (fenceImplLocal this l a b) (fun _ => P);
  queryMemorySlotUpdatesImpl_atomic : forall (c : contract (Machine X)) this l (P : Machine X -> Prop),
    Contract c -> quiet c P -> triple c P (queryMemorySlotUpdatesImpl this l) (fun _ => P);
  flushReceived_atomic : forall (c : contract (Machine X)) this (P : Machine X -> Prop),
    Contract c -> quiet c P -> triple c P (flushReceived this) (fun _ => P)
}.

(** A lock is tried and given back in one step each. *)
Class LockAtomic (X : Type) {B : CommBackend X} : Prop := {
  acquire_step : forall this g, exists f k, acquireGlobalLockImpl this g = Step f k /\
    (forall m, locked (backend m) g = Some false -> f m = set_backend (lock_slot g (backend m)) m /\ k m = Ret true) /\
    (forall m, locked (backend m) g = Some true -> f m = m /\ k m = Ret false);
  release_step : forall this g, exists f k, releaseGlobalLockImpl this g = Step f k /\
    (forall m, locked (backend m) g = Some true -> f m = set_backend (unlock_slot g (backend m)) m /\ k m = Ret tt);
  unlock_slot_locked : forall g (b : X), is_Some (locked b g) -> locked (unlock_slot g b) g = Some false
}.

(** ** Message counters *)

Section Counters.
Context {X : Type}.
Implicit Types m : Machine X.

Lemma accessible_0 h q n : accessible h q n -> accessible h q 0.
Proof.
  destruct q as [|b o]; [by intros []|]. rewrite !accessible_iff. intros (l & ? & ?). exists l. split_and!; [done|lia..].
Qed.

(** A change of message counters is a store of nothing. *)
Lemma sim_writes_in R q k n m m' :
  machine_sim m m' -> accessible (heap m) q n -> (q, k) ∈ R -> 0 <= k -> writes R m m'.
Proof.
  intros Hs [l Hl]%accessible_0 HR Hk. destruct (mem_store_accessible (heap m) q []) as [h Eh]; [by exists l|].
  assert (h = heap m) as ->.
  { destruct q as [|b o]; [done|]. apply mem_store_inv in Eh as (l1 & l2 & E1 & _ & E2 & ->).
    unfold write_at in E2. case_bool_decide; [|done]. injection E2 as <-.
    cbn. rewrite Nat.add_0_r, take_drop. by apply insert_id. }
  apply (writes_stored _ _ q 0 [] m' k); [|done|done|done].
  rewrite ptr_add_0. exists (heap m). split; [done|]. etransitivity; [|exact Hs]. by destruct m.
Qed.

Lemma sim_writes q n m m' : machine_sim m m' -> accessible (heap m) q n -> writes [(q, 0)] m m'.
Proof. intros Hs HA. eapply sim_writes_in; [done|exact HA|constructor|done]. Qed.

End Counters.

(** ** Accesses to the machine *)

Section Accesses.
Context {X : Type} (c : contract (Machine X)) `{!Contract c}.
Implicit Types (m : Machine X) (P : Machine X -> Prop).

(** The pointer and the size of a slot do not change, its counters may. *)
Lemma triple_local_slot {A : Type} l q n P (k : LocalMemorySlot.t -> prog (Machine X) A) Q :
  stable c P -> (forall m, P m -> slot_at m l q n) ->
  (forall s, LocalMemorySlot._pointer s = q -> LocalMemorySlot._size s = n -> triple c P (k s) Q) ->
  triple c P (local_slot l ≫= k) Q.
Proof.
  intros HP Hs Hk. apply triple_bind with
    (fun s m => (LocalMemorySlot._pointer s = q /\ LocalMemorySlot._size s = n) /\ P m).
  - apply triple_fetch; [done..|]. intros m Hm. destruct (Hs m Hm) as (s & E & ? & ?). eauto.
  - intros s. apply triple_pure. intros [? ?]. by apply Hk.
Qed.

Lemma triple_getSize {A : Type} l q n P (k : Z -> prog (Machine X) A) Q :
  stable c P -> (forall m, P m -> slot_at m l q n) -> triple c P (k n) Q -> triple c P (getSize l ≫= k) Q.
Proof. intros HP Hs Hk. apply triple_assoc. eapply triple_local_slot; [done..|]. by intros s _ <-. Qed.

Lemma triple_getPointer {A : Type} l q n P (k : ptr -> prog (Machine X) A) Q :
  stable c P -> (forall m, P m -> slot_at m l q n) -> triple c P (k q) Q -> triple c P (getPointer l ≫= k) Q.
Proof. intros HP Hs Hk. apply triple_assoc. eapply triple_local_slot; [done..|]. by intros s <- _. Qed.

Lemma triple_getPointer_any {A : Type} l q P (k : ptr -> prog (Machine X) A) Q :
  stable c P -> (forall m, P m -> exists n, slot_at m l q n) -> triple c P (k q) Q -> triple c P (getPointer l ≫= k) Q.
Proof.
  intros HP Hs Hk. apply triple_assoc. apply triple_bind with (fun s m => LocalMemorySlot._pointer s = q /\ P m).
  - apply triple_fetch; [done..|]. intros m Hm. destruct (Hs m Hm) as (n & s & E & ? & ?). eauto.
  - intros s. apply triple_pure. by intros <-.
Qed.

Lemma triple_getSource {A : Type} g l P (k : option nat -> prog (Machine X) A) Q :
  stable c P -> (forall m, P m -> backed_by m g l) -> triple c P (k (Some l)) Q ->
  triple c P (getSourceLocalMemorySlot g ≫= k) Q.
Proof.
  intros HP Hs Hk. apply triple_assoc. apply triple_bind with
    (fun s m => GlobalMemorySlot._sourceLocalMemorySlot s = Some l /\ P m).
  - apply triple_fetch; [done..|]. intros m Hm. destruct (Hs m Hm) as (s & E & ?). eauto.
  - intros s. apply triple_pure. by intros Es; cbn; rewrite Es.
Qed.

Lemma triple_read_size {A : Type} q v P (k : Z -> prog (Machine X) A) Q :
  stable c P -> (forall m, P m -> load_size (heap m) q = Some v) -> triple c P (k v) Q ->
  triple c P (read_size q ≫= k) Q.
Proof. intros HP Hv Hk. by apply triple_fetch_const with v. Qed.

Lemma triple_count f l q n P :
  (forall s, slot_sim s (f s)) -> quiet c P -> (forall m, P m -> slot_at m l q n) ->
  triple c P (update_local f l) (fun _ => P).
Proof.
  intros Hf [HP Hq] Hs. apply triple_update; [done|]. intros m Hm. destruct (Hs m Hm) as (s & E & _).
  eexists. rewrite E. cbn. split; [done|].
  destruct (Hq m (set_locals (<[l := f s]> (locals m)) m) Hm) as [? ?]; [|done].
  split; try done. by apply (locals_sim_insert _ _ s).
Qed.

(** The bytes of a copy are moved in one step. *)
Lemma triple_std_memcpy dst src n P Q :
  stable c P ->
  (forall m, P m -> exists bs h, mem_load (heap m) src n = Some bs /\
     mem_store (heap m) dst bs = Some h /\ guar c m (set_heap h m) /\ Q (set_heap h m)) ->
  triple c P (std_memcpy dst src n) (fun _ => Q).
Proof.
  intros HP H. apply triple_update; [done|]. intros m Hm. destruct (H m Hm) as (bs & h & E1 & E2 & HG & HQ).
  exists (set_heap h m). rewrite E1. cbn. by rewrite E2.
Qed.

End Accesses.

(** ** The checked copy *)

Lemma triple_memcpyGL `{CommAtomic X} (c : contract (Machine X)) `{!Contract c} this gl d dO s sO n dp ds sp ss P Q :
  quiet c P -> quiet c Q -> (forall m, P m -> backed_by m gl d) ->
  (forall m, P m \/ Q m -> slot_at m d dp ds /\ slot_at m s sp ss) ->
  is_size (n + dO) -> n + dO <= ds -> is_size (n + sO) -> n + sO <= ss ->
  (forall m, P m -> exists bs h, mem_load (heap m) (ptr_add sp sO) n = Some bs /\
     mem_store (heap m) (ptr_add dp dO) bs = Some h /\ guar c m (set_heap h m) /\ Q (set_heap h m)) ->
  triple c P (CommunicationManager.memcpyGL this gl dO s sO n) (fun _ => Q).
Proof.
  intros HP HQ Hb Hs ???? Hcp. unfold CommunicationManager.memcpyGL.
  eapply triple_getSize; [done|apply HP|intros m Hm; apply Hs; by left|]. cbv zeta.
  apply triple_throw_if; [by apply gtb_wrap_false|]. by eapply memcpyImplGL_atomic.
Qed.

Lemma triple_memcpyLG `{CommAtomic X} (c : contract (Machine X)) `{!Contract c} this d dO gl s sO n dp ds sp ss P Q :
  quiet c P -> quiet c Q -> (forall m, P m -> backed_by m gl s) ->
  (forall m, P m \/ Q m -> slot_at m d dp ds /\ slot_at m s sp ss) ->
  is_size (n + dO) -> n + dO <= ds -> is_size (n + sO) -> n + sO <= ss ->
  (forall m, P m -> exists bs h, mem_load (heap m) (ptr_add sp sO) n = Some bs /\
     mem_store (heap m) (ptr_add dp dO) bs = Some h /\ guar c m (set_heap h m) /\ Q (set_heap h m)) ->
  triple c P (CommunicationManager.memcpyLG this d dO gl sO n) (fun _ => Q).
Proof.
  intros HP HQ Hb Hs ???? Hcp. unfold CommunicationManager.memcpyLG.
  eapply triple_getSize; [done|apply HP|intros m Hm; apply Hs; by left|]. cbv zeta.
  apply triple_throw_if; [by apply gtb_wrap_false|]. by eapply memcpyImplLG_atomic.
Qed.

(** When the others only store, slots stay where they are, and their sizes need not be
    known beforehand. *)
Lemma triple_copyGL `{CommAtomic X} (c : contract (Machine X)) `{!Contract c} R this gl d dO s sO n dp sp P Q :
  (forall m m', rely c m m' -> writes R m m') -> quiet c P -> quiet c Q ->
  (forall m, P m -> backed_by m gl d /\ (exists ds, n + dO <= ds /\ slot_at m d dp ds) /\ (exists ss, n + sO <= ss /\ slot_at m s sp ss)) ->
  is_size (n + dO) -> is_size (n + sO) ->
  (forall m, P m -> exists bs h, mem_load (heap m) (ptr_add sp sO) n = Some bs /\
     mem_store (heap m) (ptr_add dp dO) bs = Some h /\ guar c m (set_heap h m) /\ Q (set_heap h m)) ->
  triple c P (CommunicationManager.memcpyGL this gl dO s sO n) (fun _ => Q).
Proof.
  intros Hr HP HQ Hs ?? Hcp m0 Hm0. destruct (Hs m0 Hm0) as (_ & (ds & ? & Hd0) & (ss & ? & Hs0)).
  assert (Hq : forall J : Machine X -> Prop, quiet c J -> quiet c (fun m => J m /\ slot_at m d dp ds /\ slot_at m s sp ss)).
  { intros J [HJ1 HJ2]. split.
    - intros m m' (? & ? & ?) Hm. rewrite !(writes_slot_at _ _ _ _ _ _ (Hr _ _ Hm)). split_and!; [by eapply HJ1|done..].
    - intros m m' (? & ? & ?) Hm. destruct (HJ2 m m') as [? ?]; [done..|]. split; [|done]. split_and!; [done|by rewrite <- Hm..]. }
  revert m0 Hm0 Hd0 Hs0. cut (triple c (fun m => P m /\ slot_at m d dp ds /\ slot_at m s sp ss) (CommunicationManager.memcpyGL this gl dO s sO n) (fun _ => Q)).
  { intros Ht m0 ? ? ?. by apply Ht. }
  eapply triple_conseq with (Q' := fun _ m => Q m /\ slot_at m d dp ds /\ slot_at m s sp ss); [|intros m Hm; exact Hm|by intros ? m []].
  eapply triple_memcpyGL with (dp := dp) (ds := ds) (sp := sp) (ss := ss); try done; [by apply Hq|by apply Hq|..].
  - intros m []. by apply Hs.
  - intros m [[? ?]|[? ?]]; done.
  - intros m (Hm & ? & ?). destruct (Hcp m Hm) as (bs & h & ? & ? & ? & ?). by exists bs, h.
Qed.

(** ** The pthreads backend *)

Section Pthreads.
Import PthreadsCommunicationManager.
Context (c : contract (Machine Core.t)) `{!Contract c}.
Implicit Types P Q : Machine Core.t -> Prop.

Lemma triple_counters d s dp ds sp ss Q :
  quiet c Q -> (forall m, Q m -> slot_at m d dp ds /\ slot_at m s sp ss) ->
  triple c Q (_ ← increaseMessageRecvCounter d; increaseMessageSentCounter s) (fun _ => Q).
Proof.
  intros HQ Hs. apply triple_bind with (fun _ => Q).
  - eapply triple_count; [done|done|intros m Hm; by apply Hs].
  - intros _. eapply triple_count; [done|done|intros m Hm; by apply Hs].
Qed.

Lemma triple_memcpyImplLL this d dO s sO n dp ds sp ss P Q :
  quiet c P -> quiet c Q -> (forall m, P m \/ Q m -> slot_at m d dp ds /\ slot_at m s sp ss) ->
  (forall m, P m -> exists bs h, mem_load (heap m) (ptr_add sp sO) n = Some bs /\
     mem_store (heap m) (ptr_add dp dO) bs = Some h /\ guar c m (set_heap h m) /\ Q (set_heap h m)) ->
  triple c P (memcpyImplLL this d dO s sO n) (fun _ => Q).
Proof.
  intros HP HQ Hs Hcp. unfold memcpyImplLL.
  eapply triple_getPointer; [done|apply HP|intros m Hm; apply Hs; by left|].
  eapply triple_getPointer; [done|apply HP|intros m Hm; apply Hs; by left|].
  apply triple_bind with (fun _ => Q); [by apply triple_std_memcpy; [apply HP|]|].
  intros _. eapply triple_counters; [done|]. intros m Hm. apply Hs. by right.
Qed.

(** The checked local copy, then a second change of the counters. *)
Lemma triple_copy_and_count this d dO s sO n dp ds sp ss P Q :
  quiet c P -> quiet c Q -> (forall m, P m \/ Q m -> slot_at m d dp ds /\ slot_at m s sp ss) ->
  is_size (n + dO) -> n + dO <= ds -> is_size (n + sO) -> n + sO <= ss ->
  (forall m, P m -> exists bs h, mem_load (heap m) (ptr_add sp sO) n = Some bs /\
     mem_store (heap m) (ptr_add dp dO) bs = Some h /\ guar c m (set_heap h m) /\ Q (set_heap h m)) ->
  triple c P (_ ← CommunicationManager.memcpyLL_with memcpyImplLL this d dO s sO n;
              _ ← increaseMessageRecvCounter d; increaseMessageSentCounter s) (fun _ => Q).
Proof.
  intros HP HQ Hs ???? Hcp. unfold CommunicationManager.memcpyLL_with. apply triple_bind with (fun _ => Q).
  - eapply triple_getSize; [done|apply HP|intros m Hm; apply Hs; by left|].
    eapply triple_getSize; [done|apply HP|intros m Hm; apply Hs; by left|]. cbv zeta.
    do 2 (apply triple_throw_if; [by apply gtb_wrap_false|]). by eapply triple_memcpyImplLL.
  - intros _. eapply triple_counters; [done|]. intros m Hm. apply Hs. by right.
Qed.

End Pthreads.

#[global] Instance pthreads_atomic : CommAtomic Core.t.
Proof.
  split.
  - intros * ? HP HQ Hb Hs ???? Hcp. cbn [memcpyImplGL pthreads_backend]. unfold PthreadsCommunicationManager.memcpyImplGL.
    eapply triple_getSource; [done|apply HP|done|]. cbv iota beta. by eapply triple_copy_and_count.
  - intros * ? HP HQ Hb Hs ???? Hcp. cbn [memcpyImplLG pthreads_backend]. unfold PthreadsCommunicationManager.memcpyImplLG.
    eapply triple_getSource; [done|apply HP|done|]. cbv iota beta. by eapply triple_copy_and_count.
  - intros * ? HP. by apply triple_ret.
  - intros * ? HP. by apply triple_ret.
  - intros * ? HP. by apply triple_ret.
Qed.

#[global] Instance pthreads_lock_atomic : LockAtomic Core.t.
Proof.
  split.
  - intros this g. do 2 eexists. split; [reflexivity|]. split; intros m E; cbn in *; by rewrite E.
  - intros this g. do 2 eexists. split; [reflexivity|]. intros m E; cbn in *; by rewrite E.
  - intros g b _. cbn. apply lookup_insert_eq.
Qed.
