(* ===== verification/CriticalSections.v ===== *)
(** * Threads whose shared state is protected by one lock

    A pool of threads shares a state [S] with a lock.  Ghost states [A] describe
    what the shared state means: [idle a s] while the lock is free, and the part
    [visible a s] of it also while some thread is inside its critical section.  A
    thread outside of its critical sections only reads; inside, nobody else
    changes the state, and the ghost state is advanced when the lock is released.
    [guarded] says that a program keeps to this; a pool of such programs never
    throws or crashes, and ends in an idle state. *)

From S2P Require Import Prelude Concurrency Interference.
From stdpp Require Import base list relations.

(** The lock, and what the ghost states mean.  [others i] is what a thread [i] can
    assume of the changes that the other threads make to the ghost state, [own i]
    what it may do itself. *)
Record protocol (S A : Type) : Type := mkProtocol {
  held : S -> bool;
  visible : A -> S -> Prop;
  idle : A -> S -> Prop;
  others : nat -> relation A;
  own : nat -> relation A
}.

Arguments mkProtocol {S A} _ _ _ _ _.
Arguments held {S A} _ _.
Arguments visible {S A} _ _ _.
Arguments idle {S A} _ _ _.
Arguments others {S A} _ _ _ _.
Arguments own {S A} _ _ _ _.

Class Protocol {S A : Type} (pr : protocol S A) : Prop := {
  others_preorder :: forall i, PreOrder (others pr i);
  idle_visible : forall a s, idle pr a s -> visible pr a s;
  own_others : forall i j a a', i <> j -> own pr i a a' -> others pr j a a'
}.

Section Guarded.
Context {S A : Type} (pr : protocol S A) `{!Protocol pr}.
Implicit Types (a : A) (s : S).

(** The program [p] of thread [i], inside its critical section and at the state
    [s], or outside, where the state is whatever the others make of it. *)
Fixpoint guarded {R : Type} (i : nat) (inside : bool) (p : prog S R) (Q : R -> A -> Prop) a s : Prop :=
  match p with
  | Ret r => inside = false /\ Q r a
  | Raise _ | Crash _ => False
  | Await b k => inside = true /\ b s = true /\ guarded i inside k Q a s
  | Step f k =>
      if inside then
        (held pr (f s) = true /\ visible pr a (f s) /\ guarded i true (k s) Q a (f s)) \/
        (exists a', held pr (f s) = false /\ own pr i a a' /\ idle pr a' (f s) /\ guarded i false (k s) Q a' (f s))
      else
        forall a' s', others pr i a a' -> visible pr a' s' ->
          (held pr s' = true -> f s' = s' /\ guarded i false (k s') Q a' s') /\
          (held pr s' = false -> idle pr a' s' ->
             (f s' = s' /\ guarded i false (k s') Q a' s') \/
             (held pr (f s') = true /\ visible pr a' (f s') /\ guarded i true (k s') Q a' (f s')))
  end.

(** Outside, the state does not matter. *)
Definition outside {R : Type} (i : nat) (p : prog S R) (Q : R -> A -> Prop) a : Prop := forall s, guarded i false p Q a s.

Definition settled (i : nat) (P : A -> Prop) : Prop := forall a a', P a -> others pr i a a' -> P a'.

Lemma guarded_outside {R : Type} i (p : prog S R) Q a s s' : guarded i false p Q a s -> guarded i false p Q a s'.
Proof. destruct p; cbn; [done..|naive_solver]. Qed.

Lemma guarded_mono {R : Type} i (p : prog S R) : forall inside (Q Q' : R -> A -> Prop) a s,
  (forall r u, Q r u -> Q' r u) -> guarded i inside p Q a s -> guarded i inside p Q' a s.
Proof.
  induction p as [r|e|x|f k IH|b k IH]; intros inside Q Q' a s HQ H; cbn in *; [naive_solver|done|done| |naive_solver].
  destruct inside.
  - destruct H as [(? & ? & ?)|(a' & ? & ? & ? & ?)]; [left|right; exists a']; split_and!; try done; by eapply IH.
  - intros a' s' Hr Hv. destruct (H a' s' Hr Hv) as [H1 H2]. split.
    + intros Hh. destruct (H1 Hh). split; [done|]. by eapply IH.
    + intros Hh Hi. destruct (H2 Hh Hi) as [[? ?]|(? & ? & ?)]; [left|right]; split_and!; try done; by eapply IH.
Qed.

Lemma guarded_bind {R R' : Type} i (p : prog S R) (k : R -> prog S R') Q : forall inside a s,
  guarded i inside p (fun r a' => outside i (k r) Q a') a s -> guarded i inside (p ≫= k) Q a s.
Proof.
  unfold mbind, prog_mbind. induction p as [r|e|x|f q IH|b q IH]; intros inside a s H; cbn in *;
    [destruct H as [-> H]; by apply H|done|done| |naive_solver].
  destruct inside.
  - destruct H as [(? & ? & ?)|(a' & ? & ? & ? & ?)]; [left|right; exists a']; split_and!; try done; by apply IH.
  - intros a' s' Hr Hv. destruct (H a' s' Hr Hv) as [H1 H2]. split.
    + intros Hh. destruct (H1 Hh). split; [done|]. by apply IH.
    + intros Hh Hi. destruct (H2 Hh Hi) as [[? ?]|(? & ? & ?)]; [left|right]; split_and!; try done; by apply IH.
Qed.

Lemma guarded_assoc {R R' R'' : Type} i (p : prog S R) (k : R -> prog S R') (k' : R' -> prog S R'') Q : forall inside a s,
  guarded i inside (r ← p; r' ← k r; k' r') Q a s -> guarded i inside (r' ← (r ← p; k r); k' r') Q a s.
Proof.
  unfold mbind, prog_mbind. induction p as [r|e|x|f q IH|b q IH]; intros inside a s H; cbn in *; [done|done|done| |naive_solver].
  destruct inside.
  - destruct H as [(? & ? & ?)|(a' & ? & ? & ? & ?)]; [left|right; exists a']; split_and!; try done; by apply IH.
  - intros a' s' Hr Hv. destruct (H a' s' Hr Hv) as [H1 H2]. split.
    + intros Hh. destruct (H1 Hh). split; [done|]. by apply IH.
    + intros Hh Hi. destruct (H2 Hh Hi) as [[? ?]|(? & ? & ?)]; [left|right]; split_and!; try done; by apply IH.
Qed.

(** *** Outside *)

Lemma outside_bind {R R' : Type} i (p : prog S R) (k : R -> prog S R') M Q a :
  outside i p M a -> (forall r a', M r a' -> outside i (k r) Q a') -> outside i (p ≫= k) Q a.
Proof. intros H Hk s. apply guarded_bind. eapply guarded_mono; [exact Hk|apply H]. Qed.

Lemma outside_ret {R : Type} i (r : R) (Q : R -> A -> Prop) a : Q r a -> outside i (Ret r) Q a.
Proof. by intros H s. Qed.

(** Reading something that is visible: its value, or what is known of it. *)
Lemma outside_read {R R' : Type} i (f : S -> option R) (k : R -> prog S R') (F : R -> Prop) P Q a :
  settled i P -> P a -> (forall a' s, P a' -> visible pr a' s -> exists r, f s = Some r /\ F r) ->
  (forall r a', F r -> P a' -> outside i (k r) Q a') -> outside i (fetch f ≫= k) Q a.
Proof.
  intros HP Ha Hf Hk. apply outside_bind with (fun r a' => F r /\ P a').
  - intros s a' s' Hr Hv. pose proof (HP _ _ Ha Hr) as Ha'. destruct (Hf a' s' Ha' Hv) as (r & -> & Fr).
    split; intros; [|left]; (split; [done|]); by cbn.
  - intros r a' [? ?]. by apply Hk.
Qed.

Lemma outside_fetch {R R' : Type} i (f : S -> option R) (k : R -> prog S R') r P Q a :
  settled i P -> P a -> (forall a' s, P a' -> visible pr a' s -> f s = Some r) -> (forall a', P a' -> outside i (k r) Q a') ->
  outside i (fetch f ≫= k) Q a.
Proof.
  intros HP Ha Hf Hk. apply outside_read with (eq r) P; [done|done| |by intros ? a' <-; apply Hk].
  intros a' s Ha' Hv. exists r. split; [by eapply Hf|done].
Qed.

(** Trying to take the lock; [enter] is the state with the lock taken. *)
Lemma outside_try {R R' : Type} i (f : S -> S) (g : S -> prog S R) (k : R -> prog S R') (enter : S -> S) yes no P Q a :
  settled i P -> P a ->
  (forall a' s, P a' -> visible pr a' s -> held pr s = true -> f s = s /\ g s = Ret no) ->
  (forall a' s, P a' -> idle pr a' s -> held pr s = false -> f s = enter s /\ g s = Ret yes /\ held pr (enter s) = true /\ visible pr a' (enter s)) ->
  (forall a', P a' -> outside i (k no) Q a') ->
  (forall a' s, P a' -> idle pr a' s -> held pr s = false -> guarded i true (k yes) Q a' (enter s)) ->
  outside i (Step f g ≫= k) Q a.
Proof.
  intros HP Ha Hno Hyes Hkno Hkyes s a' s' Hr Hv. pose proof (HP _ _ Ha Hr) as Ha'. split.
  - intros Hh. destruct (Hno a' s' Ha' Hv Hh) as [-> ->]. split; [done|]. by apply Hkno.
  - intros Hh Hi. destruct (Hyes a' s' Ha' Hi Hh) as (-> & -> & ? & ?). right. split_and!; [done|done|]. by apply Hkyes.
Qed.

(** *** Inside *)

(** Nobody else acts, and every step keeps the lock and what is visible. *)
Definition inside_contract (a : A) : contract S :=
  mkContract eq (fun s s' => held pr s = true /\ visible pr a s -> held pr s' = true /\ visible pr a s') (fun _ => False).

#[global] Instance inside_contract_ok a : Contract (inside_contract a).
Proof. split; [split; [by intros s|intros x y z; cbn; congruence]|intros s; cbn; tauto]. Qed.

Lemma stable_inside a (P : S -> Prop) : stable (inside_contract a) P.
Proof. by intros s s' HP <-. Qed.

Lemma guarded_inside {R R' : Type} i (p : prog S R) (k : R -> prog S R') M Q a : forall s,
  safe (inside_contract a) p M s -> held pr s = true -> visible pr a s ->
  (forall r s', M r s' -> held pr s' = true -> visible pr a s' -> guarded i true (k r) Q a s') ->
  guarded i true (p ≫= k) Q a s.
Proof.
  unfold mbind, prog_mbind. induction p as [r|e|x|f q IH|b q IH]; intros s H Hh Hv Hk; cbn in *; [by apply Hk|done|done| |].
  - left. destruct (H s eq_refl) as [HG Hs]. destruct (HG (conj Hh Hv)). split_and!; [done|done|]. by apply IH.
  - destruct (H s eq_refl) as [Hw Hs]. destruct (b s) eqn:Eb; [|by destruct Hw]. split_and!; [done|done|]. apply IH; auto.
Qed.

(** Giving the lock back. *)
Lemma guarded_release {R R' : Type} i (f : S -> S) (g : S -> prog S R) (k : R -> prog S R') r a a' s Q :
  held pr (f s) = false -> g s = Ret r -> own pr i a a' -> idle pr a' (f s) -> outside i (k r) Q a' ->
  guarded i true (Step f g ≫= k) Q a s.
Proof. intros ? Eg ?? Hk. right. exists a'. split_and!; [done..|]. rewrite Eg. by apply Hk. Qed.

(** ** Pools *)

Section Pools.
Context {R : Type} (Qs : nat -> R -> A -> Prop).
Context (HQs : forall i r, settled i (Qs i r)).
Implicit Types ps : list (prog S R).

(** At most one thread, [owner], is inside. *)
Definition pool_guarded ps s : Prop :=
  exists a owner, visible pr a s /\
    match owner with
    | None => held pr s = false /\ idle pr a s
    | Some i => held pr s = true /\ (i < length ps)%nat
    end /\
    forall i p, ps !! i = Some p -> guarded i (bool_decide (owner = Some i)) p (Qs i) a s.

Lemma outside_others i (p : prog S R) a a' s s' :
  guarded i false p (Qs i) a s -> others pr i a a' -> guarded i false p (Qs i) a' s'.
Proof.
  intros H Hr. destruct p as [r|e|x|f k|b k]; cbn in *; [|done|done| |naive_solver].
  - destruct H as [_ H]. split; [done|]. by eapply HQs.
  - intros a2 s2 Hr2 Hv. apply H; [by etransitivity|done].
Qed.

Lemma pool_guarded_step ps s ps' s' : pool_guarded ps s -> pool_step (ps, s) (ps', s') -> pool_guarded ps' s'.
Proof.
  intros (a & owner & Hv & Ho & HI) Hst. inversion Hst as [? i p p' ? ? Hi Ht]; subst. pose proof (HI i p Hi) as Hp.
  assert (Hput : forall a' (own' : option nat),
    (forall j q, j <> i -> ps !! j = Some q -> guarded j (bool_decide (own' = Some j)) q (Qs j) a' s') ->
    guarded i (bool_decide (own' = Some i)) p' (Qs i) a' s' ->
    forall j q, <[i := p']> ps !! j = Some q -> guarded j (bool_decide (own' = Some j)) q (Qs j) a' s').
  { intros a' own' Hoth Hown j q Hj. apply list_lookup_insert_Some in Hj as [(<- & <- & _)|(Hne & Hj)]; [done|]. by apply Hoth. }
  destruct owner as [o|]; [destruct Ho as [Hh Hlt]; destruct (decide (o = i)) as [->|Hne]|destruct Ho as [Hh Hid]].
  - (* the owner moves *)
    rewrite bool_decide_true in Hp by done. inversion Ht as [f k u|b k u Hb]; subst; cbn in Hp.
    + destruct Hp as [(Hh' & Hv' & Hp)|(a' & Hh' & Hg & Hid & Hp)].
      * exists a, (Some i). rewrite length_insert. split_and!; [done|done|done|]. apply Hput; [|by rewrite bool_decide_true].
        intros j q Hj Hq. specialize (HI j q Hq). rewrite bool_decide_false in HI |- * by congruence. by eapply guarded_outside.
      * exists a', None. split_and!; [by apply idle_visible|done|done|]. apply Hput; [|done].
        intros j q Hj Hq. specialize (HI j q Hq). rewrite bool_decide_false in HI |- * by congruence.
        eapply outside_others; [exact HI|]. eapply own_others; [|done]. done.
    + destruct Hp as (_ & _ & Hp). exists a, (Some i). rewrite length_insert. split_and!; [done|done|done|].
      apply Hput; [|by rewrite bool_decide_true]. intros j q Hj Hq. by apply HI.
  - (* another thread moves while the lock is held *)
    rewrite bool_decide_false in Hp by congruence. inversion Ht as [f k u|b k u Hb]; subst; cbn in Hp; [|naive_solver].
    destruct (Hp a s ltac:(done) Hv) as [Hs _]. destruct (Hs Hh) as [Ef Hp']. rewrite Ef in *.
    exists a, (Some o). rewrite length_insert. split_and!; [done|done|done|].
    apply Hput; [|by rewrite bool_decide_false by congruence]. intros j q Hj Hq. by apply HI.
  - (* the lock is free *)
    rewrite bool_decide_false in Hp by done. inversion Ht as [f k u|b k u Hb]; subst; cbn in Hp; [|naive_solver].
    destruct (Hp a s ltac:(done) Hv) as [_ Hs]. destruct (Hs Hh Hid) as [[Ef Hp']|(Hh' & Hv' & Hp')].
    + rewrite Ef in *. exists a, None. split_and!; [done..|]. apply Hput; [|done]. intros j q Hj Hq. by apply HI.
    + exists a, (Some i). rewrite length_insert. split_and!; [done|done|by eapply lookup_lt_Some|].
      apply Hput; [|by rewrite bool_decide_true]. intros j q Hj Hq. specialize (HI j q Hq).
      rewrite bool_decide_false in HI |- * by congruence. by eapply guarded_outside.
Qed.

Lemma pool_guarded_steps ps s ps' s' : pool_guarded ps s -> pool_steps (ps, s) (ps', s') -> pool_guarded ps' s'.
Proof.
  intros HI H. apply (pool_invariant pool_guarded ps s ps' s'); [|done|done].
  intros qs u i p p' u' Hq Hi Ht. eapply pool_guarded_step; [exact Hq|]. by apply pool_act with p.
Qed.

(** No thread has failed, and every unfinished one can move. *)
Lemma pool_guarded_moves ps s i p :
  pool_guarded ps s -> ps !! i = Some p -> (exists r, p = Ret r) \/ exists p' s', thread_step p s p' s'.
Proof.
  intros (a & owner & Hv & Ho & HI) Hi. specialize (HI i p Hi). destruct p as [r|e|x|f k|b k]; cbn in HI; [by eauto|done|done| |].
  - right. do 2 eexists. constructor.
  - destruct HI as (_ & Hb & _). right. do 2 eexists. by constructor.
Qed.

(** When all have finished the shared state is idle. *)
Lemma pool_guarded_end (rs : list R) s :
  pool_guarded (map Ret rs) s -> exists a, idle pr a s /\ forall i r, rs !! i = Some r -> Qs i r a.
Proof.
  intros (a & owner & Hv & Ho & HI). assert (H : forall i r, rs !! i = Some r -> owner <> Some i /\ Qs i r a).
  { intros i r Hi. destruct (HI i (Ret r)) as [Hb HQ]; [by apply list_lookup_fmap_Some; eauto|]. by apply bool_decide_eq_false in Hb. }
  exists a. split; [|intros i r Hi; by apply H]. destruct owner as [i|]; [|by destruct Ho]. destruct Ho as [_ Hlt].
  rewrite length_map in Hlt. destruct (lookup_lt_is_Some_2 rs i Hlt) as [r Hi]. by destruct (H i r Hi).
Qed.

Lemma pool_finished ps s : pool_guarded ps s -> (forall st, ~ pool_step (ps, s) st) -> exists rs, ps = map Ret rs.
Proof.
  intros HG Hst. assert (Hall : Forall (fun p => exists r, p = Ret r) ps).
  { apply Forall_lookup_2. intros i p Hi. destruct (pool_guarded_moves ps s i p HG Hi) as [?|(p' & s' & Ht)]; [done|].
    destruct (Hst (<[i := p']> ps, s')). by apply pool_act with p. }
  clear - Hall. induction Hall as [|p ps [r ->] _ [rs ->]]; [by exists []|]. by exists (r :: rs).
Qed.

End Pools.
End Guarded.
