(* ===== verification/LockedCopies.v ===== *)
(** * Critical sections over the lock of a global slot

    The rules of [CriticalSections.v] for machines whose lock is that of a global
    slot, as the locking channels use it: taking and giving back the lock, copies
    and reads inside a critical section. *)

From S2P Require Import Prelude Memory CommunicationManager CircularBuffer Channel Concurrency Interference AtomicCopies CriticalSections.
From Stdlib Require Import ZArith Lia.
From stdpp Require Import base list gmap option.

Local Open Scope Z_scope.
Local Open Scope hicr_scope.

(** ** Programs that only read *)

Fixpoint silent {S A : Type} (p : prog S A) : Prop :=
  match p with
  | Ret _ | Raise _ | Crash _ => True
  | Step f k => (forall s, f s = s) /\ forall s, silent (k s)
  | Await _ k => silent k
  end.

Lemma silent_bind {S A B : Type} (p : prog S A) (k : A -> prog S B) : silent p -> (forall a, silent (k a)) -> silent (p ≫= k).
Proof. unfold mbind, prog_mbind. intros Hp Hk. induction p as [a|e|x|f q IH|b q IH]; cbn in *; naive_solver. Qed.

Lemma silent_fetch {S A : Type} (f : S -> option A) : silent (fetch f).
Proof. split; [done|]. intros s. cbn. by destruct (f s). Qed.

Lemma silent_throw_if {S : Type} b e : silent (throw_if (S := S) b e).
Proof. by destruct b. Qed.

Lemma silent_noexcept {S A : Type} (p : prog S A) : silent p -> silent (noexcept p).
Proof. induction p as [a|e|x|f q IH|b q IH]; cbn; naive_solver. Qed.

Lemma silent_getDepth {X : Type} c : silent (CircularBuffer.getDepth (X := X) c).
Proof.
  apply silent_noexcept, silent_bind; [apply silent_fetch|]. intros h. apply silent_bind; [apply silent_fetch|].
  intros t. apply silent_bind; [apply silent_throw_if|done].
Qed.

Lemma silent_size_mod {X : Type} a b : silent (CircularBuffer.size_mod (X := X) a b).
Proof. unfold CircularBuffer.size_mod. by destruct (b =? 0). Qed.

Section Silent.
Context {S A : Type} (pr : protocol S A).

(** Inside a critical section they do what they do alone. *)
Lemma inside_silent {R : Type} a (p : prog S R) r s :
  silent p -> run p s = Done r s -> safe (inside_contract pr a) p (fun r' s' => r' = r /\ s' = s) s.
Proof.
  induction p as [x|e|c|f q IH|b q IH]; cbn; intros Hs E; [by injection E as ->|done|done| |].
  - intros s' <-. destruct Hs as [Hf Hq]. rewrite Hf in *. split; [done|]. by apply IH.
  - intros s' <-. destruct (b s) eqn:Eb; [|done]. split; [done|]. intros _. by apply IH.
Qed.

Lemma safe_silent_bind {R R' : Type} a (p : prog S R) (k : R -> prog S R') r Q s :
  silent p -> run p s = Done r s -> safe (inside_contract pr a) (k r) Q s -> safe (inside_contract pr a) (p ≫= k) Q s.
Proof.
  intros Hs E Hk. apply safe_bind. eapply safe_mono; [|by apply inside_silent]. by intros r' u [-> ->].
Qed.

End Silent.

(** ** Machines *)

Section Machines.
Context {X : Type} {B : CommBackend X} `{!CommAtomic X} `{!LockAtomic X} `{!CommSpec X} {A : Type} (pr : protocol (Machine X) A) `{!Protocol pr}.
Implicit Types (a : A) (m : Machine X).

(** The lock is that of [lock], whose record is [sl]; [users] have it registered. *)
Context (lock : nat) (sl : GlobalMemorySlot.t) (users : nat -> Prop).

Record slot_lock : Prop := mkSlotLock {
  sk_held : forall m, held pr m = bool_decide (locked (backend m) lock = Some true);
  sk_locked : forall a m, visible pr a m -> is_Some (locked (backend m) lock);
  sk_global : forall a m, visible pr a m -> globals m !! lock = Some sl;
  sk_users : forall a m this, visible pr a m -> users this -> registered m this lock;
  sk_sim : forall a m m', visible pr a m -> machine_sim m m' -> visible pr a m';
  sk_enter : forall a m, visible pr a m -> visible pr a (set_backend (lock_slot lock (backend m)) m)
}.

Context (SL : slot_lock).

Lemma held_true m : held pr m = true <-> locked (backend m) lock = Some true.
Proof. rewrite (sk_held SL). apply bool_decide_eq_true. Qed.

Lemma held_false a m : visible pr a m -> held pr m = false -> locked (backend m) lock = Some false.
Proof.
  intros Hv. rewrite (sk_held SL), bool_decide_eq_false. destruct (sk_locked SL a m Hv) as [[] ->]; [done|done].
Qed.

Lemma held_sim m m' : machine_sim m m' -> held pr m' = held pr m.
Proof. intros Hs. by rewrite !(sk_held SL), (sim_backend _ _ Hs). Qed.

Lemma guar_sim a m m' : machine_sim m m' -> guar (inside_contract pr a) m m'.
Proof. intros Hs [Hh Hv]. rewrite (held_sim m m') by done. split; [done|]. by eapply (sk_sim SL). Qed.

(** *** The lock *)

Lemma silent_checkRegistered this g : silent (CommunicationManager.checkRegistered (X := X) this g).
Proof.
  apply silent_bind; [apply silent_fetch|]. intros s. apply silent_bind; [apply silent_fetch|]. intros c.
  destruct (_ !! _) as [km|]; [|done]. by destruct (km !! _).
Qed.

Lemma outside_checkRegistered {R : Type} i this (k : unit -> prog (Machine X) R) P Q a :
  settled pr i P -> P a -> users this -> (forall a', P a' -> outside pr i (k tt) Q a') ->
  outside pr i (CommunicationManager.checkRegistered this lock ≫= k) Q a.
Proof.
  intros HP Ha Hu Hk s. apply guarded_assoc. revert s. apply outside_fetch with sl P; [done|done| |].
  { intros a' m _ Hv. by apply (sk_global SL a'). }
  intros a1 Ha1 s. apply guarded_assoc. revert s.
  apply outside_bind with (fun c a' => P a' /\ exists km g', CommunicationManagerFields._globalMemorySlotTagKeyMap c !! GlobalMemorySlot._globalTag sl = Some km /\
    km !! GlobalMemorySlot._globalKey sl = Some g').
  - intros s a' m Hr Hv. pose proof (HP _ _ Ha1 Hr). destruct (sk_users SL a' m this Hv Hu) as (s' & c & km & g' & E1 & E2 & E3 & E4).
    rewrite (sk_global SL a' m Hv) in E1. injection E1 as <-. cbn. rewrite E2.
    split; intros; [|left]; (split; [done|]); (split; [done|]); eauto.
  - intros c a' (Ha' & km & g' & E3 & E4). rewrite E3, E4. by apply Hk.
Qed.

(** A critical section as the channels write it: the operation is refused when the
    lock is taken.  The body runs from the state with the lock taken, and ends in a
    state that is idle, for the ghost state of its choice, once the lock is free. *)
Lemma outside_critical {R : Type} i this (body : prog (Machine X) R) refused P Q a :
  settled pr i P -> P a -> users this -> (forall a', P a' -> Q refused a') ->
  (forall a' m, P a' -> idle pr a' m -> held pr m = false ->
     safe (inside_contract pr a') body
       (fun r m' => exists a'', own pr i a' a'' /\ idle pr a'' (set_backend (unlock_slot lock (backend m')) m') /\ Q r a'')
       (set_backend (lock_slot lock (backend m)) m)) ->
  outside pr i (acquired ← CommunicationManager.acquireGlobalLock this lock;
                if negb acquired then mret refused else
                r ← body; _ ← CommunicationManager.releaseGlobalLock this lock; mret r) Q a.
Proof.
  intros HP Ha Hu Href Hbody s. apply guarded_assoc. revert s. apply outside_checkRegistered with P; [done|done|done|].
  intros a1 Ha1. destruct (acquire_step this lock) as (f & k & -> & Hfree & Hheld).
  apply outside_try with (enter := fun m => set_backend (lock_slot lock (backend m)) m) (yes := true) (no := false) (P := P);
    [done|done| | | |].
  - intros a' m _ _ Hh. by apply Hheld, held_true.
  - intros a' m _ Hi Hh. destruct (Hfree m) as [-> ->]; [by apply (held_false a'), Hh; apply idle_visible|].
    split_and!; [done|done| |by apply (sk_enter SL), idle_visible]. apply held_true. cbn. apply lock_slot_locked.
  - intros a' Ha'. apply outside_ret. by apply Href.
  - intros a' m Ha' Hi Hh. cbn [negb]. eapply guarded_inside; [by apply Hbody| | |].
    + apply held_true. cbn. apply lock_slot_locked.
    + by apply (sk_enter SL), idle_visible.
    + intros r m' (a'' & Ho & Hid & HQ) Hh' Hv'. apply guarded_assoc.
      destruct (sk_users SL a' m' this Hv' Hu) as (s' & c & km & g' & E1 & E2 & E3 & E4).
      eapply guarded_inside; [apply (inside_silent pr a' _ tt m')|done|done|].
      * apply silent_checkRegistered.
      * unfold CommunicationManager.checkRegistered. rewrite (run_bind_Done _ _ _ _ _ (run_global_slot _ _ _ E1)).
        rewrite (run_bind_Done _ _ _ _ _ (run_fields _ _ _ E2)). by rewrite E3, E4.
      * intros [] u [_ ->] _ _. destruct (release_step this lock) as (f' & k' & -> & Hrel).
        destruct (Hrel m' ltac:(by apply held_true)) as [Ef Ek].
        eapply guarded_release; rewrite ?Ef; [|done|exact Ho|exact Hid|by apply outside_ret].
        rewrite (sk_held SL), bool_decide_eq_false. cbn. rewrite unlock_slot_locked; [done|]. by apply held_true in Hh'; eexists.
Qed.

(** *** Reading slots outside of the critical sections *)

Lemma outside_local_slot {R : Type} i l (F : ptr -> Z -> Prop) (k : LocalMemorySlot.t -> prog (Machine X) R) P Q a :
  settled pr i P -> P a -> (forall a' m, visible pr a' m -> exists q n, slot_at m l q n /\ F q n) ->
  (forall s a', F (LocalMemorySlot._pointer s) (LocalMemorySlot._size s) -> P a' -> outside pr i (k s) Q a') ->
  outside pr i (local_slot l ≫= k) Q a.
Proof.
  intros HP Ha Hs Hk. apply outside_read with (fun s => F (LocalMemorySlot._pointer s) (LocalMemorySlot._size s)) P; [done|done|..].
  - intros a' m _ Hv. destruct (Hs a' m Hv) as (q & n & (s & E & <- & <-) & ?). eauto.
  - intros s a' ?. by apply Hk.
Qed.

Lemma outside_getSize {R : Type} i l n (k : Z -> prog (Machine X) R) P Q a :
  settled pr i P -> P a -> (forall a' m, visible pr a' m -> exists q, slot_at m l q n) -> (forall a', P a' -> outside pr i (k n) Q a') ->
  outside pr i (getSize l ≫= k) Q a.
Proof.
  intros HP Ha Hs Hk s. apply guarded_assoc. revert s. apply outside_local_slot with (fun _ n' => n' = n) P; [done|done| |].
  - intros a' m Hv. destruct (Hs a' m Hv) as [q ?]. eauto.
  - intros s a' <- Ha'. by apply Hk.
Qed.

Lemma outside_getPointer {R : Type} i l q (k : ptr -> prog (Machine X) R) P Q a :
  settled pr i P -> P a -> (forall a' m, visible pr a' m -> exists n, slot_at m l q n) -> (forall a', P a' -> outside pr i (k q) Q a') ->
  outside pr i (getPointer l ≫= k) Q a.
Proof.
  intros HP Ha Hs Hk s. apply guarded_assoc. revert s. apply outside_local_slot with (fun q' _ => q' = q) P; [done|done| |].
  - intros a' m Hv. destruct (Hs a' m Hv) as [n ?]. eauto.
  - intros s a' <- Ha'. by apply Hk.
Qed.

Lemma outside_getSource {R : Type} i gl l (k : option nat -> prog (Machine X) R) P Q a :
  settled pr i P -> P a -> (forall a' m, visible pr a' m -> backed_by m gl l) -> (forall a', P a' -> outside pr i (k (Some l)) Q a') ->
  outside pr i (getSourceLocalMemorySlot gl ≫= k) Q a.
Proof.
  intros HP Ha Hs Hk s. apply guarded_assoc. revert s.
  apply outside_read with (fun s => GlobalMemorySlot._sourceLocalMemorySlot s = Some l) P; [done|done|..].
  - intros a' m _ Hv. destruct (Hs a' m Hv) as (s & E & ?). eauto.
  - intros s a' Es Ha'. cbn. rewrite Es. by apply Hk.
Qed.

Lemma outside_throw_if {R : Type} i b e (k : unit -> prog (Machine X) R) Q a :
  b = false -> outside pr i (k tt) Q a -> outside pr i (throw_if b e ≫= k) Q a.
Proof. by intros ->. Qed.

(** *** Copies and stores *)

(** A copy whose store keeps what is visible. *)
Definition store_ok (a : A) (m : Machine X) (p : ptr) (bs : list byte) : Prop :=
  forall u u', machine_sim m u -> stored u p bs u' -> visible pr a u -> visible pr a u'.

Lemma stored_trans_sim m p bs u u' : stored m p bs u -> machine_sim u u' -> stored m p bs u'.
Proof. intros (h & E & Hs) Hs'. exists h. split; [done|]. by etransitivity. Qed.

Lemma stored_sim_l m u p bs u' : machine_sim m u -> stored u p bs u' -> stored m p bs u'.
Proof.
  intros Hs (h & E & Hs'). exists h. rewrite (sim_heap _ _ Hs). split; [done|]. etransitivity; [|exact Hs'].
  destruct Hs as [? ? ? ? ?]. by split.
Qed.

Lemma quiet_from m a : quiet (inside_contract pr a) (machine_sim m).
Proof. split; [apply stable_inside|]. intros u u' Hu Hs. split; [by etransitivity|by apply guar_sim]. Qed.

Lemma quiet_stored m a p bs : quiet (inside_contract pr a) (stored m p bs).
Proof. split; [apply stable_inside|]. intros u u' Hu Hs. split; [by eapply stored_trans_sim|by apply guar_sim]. Qed.

(** The store of a copy, from the machine [m] up to message counters. *)
Lemma copy_step a m src n dst bs u :
  mem_load (heap m) src n = Some bs -> accessible (heap m) dst n -> store_ok a m dst bs -> machine_sim m u ->
  exists bs' h, mem_load (heap u) src n = Some bs' /\ mem_store (heap u) dst bs' = Some h /\
    guar (inside_contract pr a) u (set_heap h u) /\ stored m dst bs (set_heap h u).
Proof.
  intros HL HA Hok Hs. rewrite <- (sim_heap _ _ Hs). destruct (mem_load_length _ _ _ _ HL) as [Hl _].
  destruct (mem_store_accessible (heap m) dst bs) as [h Eh]; [by rewrite Hl|]. exists bs, h.
  assert (St : stored u dst bs (set_heap h u)) by (exists h; split; [by rewrite <- (sim_heap _ _ Hs)|done]).
  split_and!; [done|done| |by eapply stored_sim_l].
  intros [Hh Hv]. rewrite (sk_held SL) in *. split; [done|]. by eapply Hok.
Qed.

Lemma inside_memcpyGL this gl d dO s sO n dp ds sp ss bs a m :
  backed_by m gl d -> slot_at m d dp ds -> slot_at m s sp ss ->
  is_size (n + dO) -> n + dO <= ds -> is_size (n + sO) -> n + sO <= ss ->
  mem_load (heap m) (ptr_add sp sO) n = Some bs -> accessible (heap m) (ptr_add dp dO) n -> store_ok a m (ptr_add dp dO) bs ->
  safe (inside_contract pr a) (CommunicationManager.memcpyGL this gl dO s sO n) (fun _ => stored m (ptr_add dp dO) bs) m.
Proof.
  intros Hb Hd Hs ???? HL HA Hok.
  eapply (triple_memcpyGL (inside_contract pr a)) with (P := machine_sim m); [apply quiet_from|apply quiet_stored| | |done..| |done].
  - intros u Hu. by rewrite <- Hu.
  - intros u [Hu|Hu]; [by rewrite <- Hu|]. by rewrite !(stored_slot_at _ _ _ _ _ _ _ Hu).
  - intros u Hu. by eapply copy_step.
Qed.

Lemma inside_memcpyLG this gl d dO s sO n dp ds sp ss bs a m :
  backed_by m gl s -> slot_at m d dp ds -> slot_at m s sp ss ->
  is_size (n + dO) -> n + dO <= ds -> is_size (n + sO) -> n + sO <= ss ->
  mem_load (heap m) (ptr_add sp sO) n = Some bs -> accessible (heap m) (ptr_add dp dO) n -> store_ok a m (ptr_add dp dO) bs ->
  safe (inside_contract pr a) (CommunicationManager.memcpyLG this d dO gl sO n) (fun _ => stored m (ptr_add dp dO) bs) m.
Proof.
  intros Hb Hd Hs ???? HL HA Hok.
  eapply (triple_memcpyLG (inside_contract pr a)) with (P := machine_sim m); [apply quiet_from|apply quiet_stored| | |done..| |done].
  - intros u Hu. by rewrite <- Hu.
  - intros u [Hu|Hu]; [by rewrite <- Hu|]. by rewrite !(stored_slot_at _ _ _ _ _ _ _ Hu).
  - intros u Hu. by eapply copy_step.
Qed.

(** A store of a counter. *)
Lemma inside_write_size p v a m :
  accessible (heap m) p 8 -> store_ok a m p (le_bytes 8 v) ->
  safe (inside_contract pr a) (write_size p v) (fun _ => stored m p (le_bytes 8 v)) m.
Proof.
  intros HA Hok. destruct (mem_store_accessible (heap m) p (le_bytes 8 v)) as [h E]; [by rewrite length_le_bytes|].
  assert (St : stored m p (le_bytes 8 v) (set_heap h m)) by (by exists h).
  apply (triple_update (inside_contract pr a) _ (eq m)); [apply stable_inside| |done]. intros u <-. exists (set_heap h m).
  unfold store_size. rewrite E. split_and!; [done| |done]. intros [Hh Hv]. rewrite (sk_held SL) in *. split; [done|]. by eapply Hok.
Qed.

(** A fence, and a flush of the messages received, change message counters at most. *)
Lemma inside_fence this l x y a m :
  safe (inside_contract pr a) (CommunicationManager.fenceLocal this l x y) (fun _ => machine_sim m) m.
Proof. by apply (fenceImplLocal_atomic (inside_contract pr a)); [apply _|apply quiet_from|]. Qed.

Lemma inside_flush this a m u :
  machine_sim m u -> safe (inside_contract pr a) (flushReceived this) (fun _ => machine_sim m) u.
Proof. by apply (flushReceived_atomic (inside_contract pr a)); [apply _|apply quiet_from]. Qed.

(** The counters of a circular buffer. *)
Lemma inside_advanceHead cap q h t n a m :
  cb_at (Base.circular_buffer_at cap q) h t m -> t <= h -> 0 <= n -> h - t + n <= cap < SIZE_BOUND -> h + n < SIZE_BOUND ->
  store_ok a m (ptr_add q 0) (le_bytes 8 (h + n)) ->
  safe (inside_contract pr a) (CircularBuffer.advanceHead (Base.circular_buffer_at cap q) n)
    (fun _ => stored m (ptr_add q 0) (le_bytes 8 (h + n))) m.
Proof.
  intros Hc ???? Hok. destruct (cb_at_is_size _ _ _ _ Hc) as [? ?]. unfold CircularBuffer.advanceHead.
  eapply safe_silent_bind; [apply silent_getDepth|by apply (run_getDepth_ok _ h t)|]. cbv zeta.
  cbn [CircularBuffer._capacity Base.circular_buffer_at]. rewrite wrap64_small by size_lia.
  eapply safe_silent_bind; [apply silent_throw_if|apply run_throw_if_false; case_bool; lia|].
  eapply safe_silent_bind; [apply silent_fetch|apply (run_read_size _ _ _ (proj1 Hc))|].
  rewrite wrap64_small by size_lia. apply inside_write_size; [eapply load_size_accessible, Hc|done].
Qed.

Lemma inside_advanceTail cap q h t n a m :
  cb_at (Base.circular_buffer_at cap q) h t m -> 0 <= n <= h - t -> store_ok a m (ptr_add q 8) (le_bytes 8 (t + n)) ->
  safe (inside_contract pr a) (CircularBuffer.advanceTail (Base.circular_buffer_at cap q) n)
    (fun _ => stored m (ptr_add q 8) (le_bytes 8 (t + n))) m.
Proof.
  intros Hc ? Hok. destruct (cb_at_is_size _ _ _ _ Hc) as [? ?]. unfold CircularBuffer.advanceTail.
  eapply safe_silent_bind; [apply silent_getDepth|apply (run_getDepth_ok _ h t); [done|lia]|].
  eapply safe_silent_bind; [apply silent_throw_if|apply run_throw_if_false; case_bool; lia|].
  eapply safe_silent_bind; [apply silent_fetch|apply (run_read_size _ _ _ (proj2 Hc))|].
  rewrite wrap64_small by size_lia. apply inside_write_size; [eapply load_size_accessible, Hc|done].
Qed.

(** The counters of one coordination buffer are copied over those of another. *)
Lemma inside_fetch_counters this gl l s rp rn lp ln cap cap' h t a m :
  backed_by m gl l -> slot_at m l rp rn -> slot_at m s lp ln -> 16 <= rn -> 16 <= ln ->
  cb_at (Base.circular_buffer_at cap rp) h t m -> accessible (heap m) lp 16 ->
  (forall bs, length bs = 16%nat -> store_ok a m (ptr_add lp 0) bs) ->
  safe (inside_contract pr a) (CommunicationManager.memcpyLG this s 0 gl 0 Base.getCoordinationBufferSize)
    (fun _ u => writes [(lp, 16)] m u /\ cb_at (Base.circular_buffer_at cap' lp) h t u) m.
Proof.
  intros ????? HL HA Hok. destruct (cb_at_accessible _ _ _ _ _ HL) as [bs Hbs].
  change Base.getCoordinationBufferSize with 16. pose proof (mem_load_length _ _ _ _ Hbs) as [Hlen _].
  eapply safe_mono; [|eapply (inside_memcpyLG this gl s 0 l 0 16 lp ln rp rn bs)]; rewrite ?ptr_add_0; try done; try size_lia.
  - intros _ u St. split; [|by eapply stored_counters].
    eapply (writes_stored _ _ lp 0); [by rewrite ptr_add_0|constructor|lia..].
  - specialize (Hok bs). rewrite ptr_add_0 in Hok. apply Hok. lia.
Qed.

Lemma inside_send_counters this gl l s rp rn lp ln cap cap' h t a m :
  backed_by m gl l -> slot_at m l rp rn -> slot_at m s lp ln -> 16 <= rn -> 16 <= ln ->
  cb_at (Base.circular_buffer_at cap lp) h t m -> accessible (heap m) rp 16 ->
  (forall bs, length bs = 16%nat -> store_ok a m (ptr_add rp 0) bs) ->
  safe (inside_contract pr a) (CommunicationManager.memcpyGL this gl 0 s 0 Base.getCoordinationBufferSize)
    (fun _ u => writes [(rp, 16)] m u /\ cb_at (Base.circular_buffer_at cap' rp) h t u) m.
Proof.
  intros ????? HL HA Hok. destruct (cb_at_accessible _ _ _ _ _ HL) as [bs Hbs].
  change Base.getCoordinationBufferSize with 16. pose proof (mem_load_length _ _ _ _ Hbs) as [Hlen _].
  eapply safe_mono; [|eapply (inside_memcpyGL this gl l 0 s 0 16 rp rn lp ln bs)]; rewrite ?ptr_add_0; try done; try size_lia.
  - intros _ u St. split; [|by eapply stored_counters].
    eapply (writes_stored _ _ rp 0); [by rewrite ptr_add_0|constructor|lia..].
  - specialize (Hok bs). rewrite ptr_add_0 in Hok. apply Hok. lia.
Qed.

End Machines.
