(* ===== verification/FixedSPSCConcurrent.v ===== *)
(** * The two ends of a fixed-size SPSC channel at the same time

    A producer and a consumer of one channel ([FixedSPSC.v]) run in two threads,
    interleaved at every access to the shared memory, as the examples use them:
    the producer waits while the channel is full and pushes, the consumer waits
    while it is empty, reads the oldest token and pops it.  The theorem is that
    neither ever throws or crashes, that the consumer receives what was sent, in
    order, and that the two cannot block each other.

    The copies of the counters make the two ends disagree for a while: the
    producer's own head [hp] is ahead of the head [hc] that the consumer knows,
    and the consumer's tail [tc] is ahead of the tail [tp] that the producer
    knows.  [chan] relates the four and the tokens that are in the buffer. *)

From S2P Require Import Prelude Memory CommunicationManager Pthreads CircularBuffer Channel TokenBuffer FixedSPSC FixedSPSCSpec.
From S2P Require Import Concurrency Interference AtomicCopies.
From Stdlib Require Import ZArith Lia.
From Stdlib.Strings Require Import Byte.
From stdpp Require Import base list gmap option.

Local Open Scope Z_scope.
Local Open Scope hicr_scope.

(** ** The client threads *)

Module Threads.
Section Threads.
Context {X : Type} {B : CommBackend X}.

(** [while (busy()) body();] polls [polls] times and from then on sleeps until a
    poll would end the loop. *)
Fixpoint busy_wait (polls : nat) (busy : prog (Machine X) bool) (body : prog (Machine X) unit) : prog (Machine X) unit :=
  match polls with
  | O => Await (fun m => match run busy m with Done b _ => negb b | _ => true end) (Ret tt)
  | S polls' => b ← busy; if (b : bool) then _ ← body; busy_wait polls' busy body else Ret tt
  end.

Fixpoint produce (polls : nat) (p : Producer.t) (src : nat) (toks : list (list byte)) :
    prog (Machine X) (list (list byte)) :=
  match toks with
  | [] => Ret []
  | tok :: toks' =>
      _ ← busy_wait polls (Base.isFull (Producer.base p)) (Producer.updateDepth p);
      _ ← Client.send p src tok;
      produce polls p src toks'
  end.

Fixpoint consume (polls : nat) (c : Consumer.t) (n : nat) : prog (Machine X) (list (list byte)) :=
  match n with
  | O => Ret []
  | S n' =>
      _ ← busy_wait polls (Base.isEmpty (Consumer.base c)) (Consumer.updateDepth c);
      tok ← Client.receive c;
      toks ← consume polls c n';
      Ret (tok :: toks)
  end.

End Threads.
End Threads.

(** ** The channel while both ends are at work *)

Section Protocol.
Context {X : Type} {B : CommBackend X} `{!CommAtomic X}.
Implicit Types m : Machine X.

(** All tokens of the exchange, [all], are numbered from [t0]. *)
Context (g : geometry) (p : Producer.t) (c : Consumer.t) (src : nat) (sp : ptr) (ss np nc nt : Z).
Context (t0 : Z) (all : list (list byte)).
Context (Hall : Forall (fun tok => Z.of_nat (length tok) = gTokenSize g) all).
Context (Hbound : t0 + Z.of_nat (length all) < SIZE_BOUND).

Local Abbreviation pcb := (Base.circular_buffer_at (gCapacity g) (gProducer g)).
Local Abbreviation ccb := (Base.circular_buffer_at (gCapacity g) (gConsumer g)).
Local Abbreviation last := (t0 + Z.of_nat (length all)).

Record chan (hp hc tc tp : Z) (m : Machine X) : Prop := mkChan {
  ch_connected : connected g p c m;
  ch_send : send_buffer g src sp ss m;
  ch_pslot : 16 <= np /\ slot_at m (Producer.coordination p) (gProducer g) np;
  ch_cslot : 16 <= nc /\ slot_at m (Consumer.coordination c) (gConsumer g) nc;
  ch_tslot : gTokenSize g * gCapacity g <= nt /\ slot_at m (gTokensSlot g) (gTokens g) nt;
  ch_producer : cb_at pcb hp tp m;
  ch_consumer : cb_at ccb hc tc m;
  ch_order : t0 <= tp <= tc /\ tc <= hc <= hp /\ hp <= tp + gCapacity g /\ hp <= last;
  ch_tokens : forall i, tc <= i < hp -> token_at g m i = all !! Z.to_nat (i - t0)
}.

(** The tokens and the token in the send buffer are the same. *)
Definition unmoved (m m' : Machine X) : Prop :=
  (forall i, token_at g m' i = token_at g m i) /\
  mem_load (heap m') sp (gTokenSize g) = mem_load (heap m) sp (gTokenSize g).

(** What the consumer does to the producer, and the other way round. *)
Definition consumer_acts : relation (Machine X) := fun m m' =>
  forall hp hc tc tp, chan hp hc tc tp m -> exists tc' tp', chan hp hc tc' tp' m' /\ tp <= tp' /\
    unmoved m m'.

Definition producer_acts : relation (Machine X) := fun m m' =>
  forall hp hc tc tp, chan hp hc tc tp m -> exists hp' hc', chan hp' hc' tc tp m' /\ hc <= hc'.

(** The producer is blocked when the channel is full, the consumer when it is
    empty, each with tokens still to come. *)
Definition producer_contract : contract (Machine X) :=
  mkContract consumer_acts producer_acts
    (fun m => exists hp tc tp, chan hp hp tc tp m /\ hp = tp + gCapacity g /\ hp < last).

Definition consumer_contract : contract (Machine X) :=
  mkContract producer_acts consumer_acts
    (fun m => exists hp tc, chan hp tc tc tc m /\ tc < last).

#[local] Instance producer_contract_ok : Contract producer_contract.
Proof.
  split; [split|].
  - intros m hp hc tc tp Hc. exists tc, tp. by split_and!.
  - intros m1 m2 m3 H1 H2 hp hc tc tp Hc. destruct (H1 _ _ _ _ Hc) as (tc1 & tp1 & Hc1 & ? & T1 & L1).
    destruct (H2 _ _ _ _ Hc1) as (tc2 & tp2 & Hc2 & ? & T2 & L2). exists tc2, tp2.
    split_and!; [done|lia|split; [intros i; by rewrite T2|by rewrite L2]].
  - intros m hp hc tc tp Hc. exists hp, hc. by split.
Qed.

#[local] Instance consumer_contract_ok : Contract consumer_contract.
Proof.
  split; [split|].
  - intros m hp hc tc tp Hc. exists hp, hc. by split.
  - intros m1 m2 m3 H1 H2 hp hc tc tp Hc. destruct (H1 _ _ _ _ Hc) as (hp1 & hc1 & Hc1 & ?).
    destruct (H2 _ _ _ _ Hc1) as (hp2 & hc2 & Hc2 & ?). exists hp2, hc2. split; [done|lia].
  - intros m hp hc tc tp Hc. exists tc, tp. by split_and!.
Qed.

(** The counters are determined by the memory. *)
Lemma chan_inj hp hc tc tp hp' hc' tc' tp' m :
  chan hp hc tc tp m -> chan hp' hc' tc' tp' m -> hp = hp' /\ hc = hc' /\ tc = tc' /\ tp = tp'.
Proof. intros [_ _ _ _ _ [] [] _ _] [_ _ _ _ _ [] [] _ _]. naive_solver. Qed.

Lemma chan_sizes hp hc tc tp m : chan hp hc tc tp m -> token_sizes g.
Proof. intros Hc. by eapply connected_sizes, ch_connected. Qed.

Lemma chan_bounds hp hc tc tp m :
  chan hp hc tc tp m -> 0 <= tp /\ tp <= tc <= hc /\ hc <= hp <= tp + gCapacity g /\ hp <= last /\ 0 < gCapacity g <= PTRDIFF_MAX.
Proof.
  intros Hc. pose proof (chan_sizes _ _ _ _ _ Hc) as Hs. pose proof (capacity_bound _ Hs). destruct Hs as (_ & ? & _).
  destruct Hc as [_ _ _ _ _ [_ Ht]%cb_at_is_size _ ? _]. size_lia.
Qed.

(** *** The stores of the two threads *)

(** Stores change the counters and the tokens, and nothing else of a channel. *)
Lemma chan_change R hp hc tc tp hp' hc' tc' tp' m m' :
  chan hp hc tc tp m -> writes R m m' -> cb_at pcb hp' tp' m' -> cb_at ccb hc' tc' m' ->
  t0 <= tp' <= tc' -> tc' <= hc' <= hp' -> hp' <= tp' + gCapacity g -> hp' <= last ->
  (forall i, tc' <= i < hp' -> token_at g m' i = all !! Z.to_nat (i - t0)) -> chan hp' hc' tc' tp' m'.
Proof.
  intros [Hc Hs Hp Hcs Ht _ _ _ _] W HP HC ?????. split; try done; rewrite ?(writes_slot_at _ _ _ _ _ _ W); try done.
  - by eapply connected_writes.
  - by eapply send_buffer_writes.
Qed.

(** Stores outside the buffers of the channel. *)
Lemma chan_writes R hp hc tc tp m m' :
  chan hp hc tc tp m -> writes R m m' -> apart R (gProducer g) 16 -> apart R (gConsumer g) 16 ->
  apart R (gTokens g) (gTokenSize g * gCapacity g) ->
  chan hp hc tc tp m' /\ forall i, token_at g m' i = token_at g m i.
Proof.
  intros Hch W ???. pose proof (chan_sizes _ _ _ _ _ Hch).
  assert (Ht : forall i, token_at g m' i = token_at g m i) by (intros i; by eapply token_at_writes).
  split; [|done]. destruct (ch_order _ _ _ _ _ Hch) as (? & ? & ? & ?).
  eapply chan_change; [done|exact W|..]; try done.
  - eapply cb_at_writes; [exact W|done|]. apply Hch.
  - eapply cb_at_writes; [exact W|done|]. apply Hch.
  - intros i Hi. rewrite Ht. by apply Hch.
Qed.

Lemma chan_sim hp hc tc tp m m' :
  chan hp hc tc tp m -> machine_sim m m' -> chan hp hc tc tp m'.
Proof.
  intros Hch Hs. pose proof (ch_connected _ _ _ _ _ Hch) as Hc. connected_facts Hc.
  assert (Ha : accessible (heap m) (ptr_add (gProducer g) 0) 8).
  { eapply load_size_accessible. apply (ch_producer _ _ _ _ _ Hch). }
  rewrite ptr_add_0 in Ha. pose proof (sim_writes _ _ _ _ Hs Ha) as W.
  eapply chan_writes; [done|exact W|..]; (apply apart_cons, apart_nil).
  - destruct (gProducer g); cbn; lia.
  - rewrite <- (ptr_add_0 (gProducer g)). eapply disjoint_ranges_sub_l; [exact Hdpc|lia..].
  - rewrite <- (ptr_add_0 (gProducer g)). eapply disjoint_ranges_sub_l; [exact Hdpt|lia..].
Qed.

(** The token after the newest one is stored. *)
Lemma chan_place hp hc tc tp tok m m' :
  chan hp hc tc tp m -> hp < tp + gCapacity g -> Z.of_nat (length tok) = gTokenSize g ->
  stored m (ptr_add (gTokens g) (gTokenSize g * (hp mod gCapacity g))) tok m' ->
  chan hp hc tc tp m' /\ token_at g m' hp = Some tok.
Proof.
  intros Hch Hroom Hl St. pose proof (ch_connected _ _ _ _ _ Hch) as Hc. connected_facts Hc.
  pose proof (stored_token_writes _ _ _ _ _ Hsizes Hl St) as W.
  split; [|by eapply token_at_stored_same]. destruct (ch_order _ _ _ _ _ Hch) as (? & ? & ? & ?).
  eapply chan_change; [done|exact W|..]; try done.
  - eapply cb_at_writes; [exact W|eauto with hicr|]. apply Hch.
  - eapply cb_at_writes; [exact W|eauto with hicr|]. apply Hch.
  - intros i Hi. erewrite token_at_stored_other; [by apply Hch|done| |done|exact St].
    replace hp with (tc + (hp - tc)) by lia. replace i with (tc + (i - tc)) by lia. intros E%mod_window_inj; lia.
Qed.

(** Stores to a coordination buffer leave the tokens and the send buffer alone. *)
Lemma coordination_unmoved hp hc tc tp q m m' :
  chan hp hc tc tp m -> q = gProducer g \/ q = gConsumer g -> writes [(q, 16)] m m' -> unmoved m m'.
Proof.
  intros Hch Hq W. pose proof (ch_connected _ _ _ _ _ Hch) as Hc. connected_facts Hc.
  destruct (ch_send _ _ _ _ _ Hch) as [_ ? _ ? ? _].
  assert (disjoint_ranges q 16 (gTokens g) (gTokenSize g * gCapacity g)) by (by destruct Hq as [->| ->]).
  assert (disjoint_ranges sp ss q 16) by (by destruct Hq as [->| ->]). destruct Hsizes as (? & ? & ?). split.
  - intros i. eapply token_at_writes; [done|exact W|eauto with hicr].
  - apply (writes_load _ _ _ _ _ W). rewrite <- (ptr_add_0 sp). eapply apart_sub; [apply apart_cons_sym, apart_nil; done|lia..].
Qed.

(** A store to the producer's counters, and one to the consumer's. *)
Lemma chan_store_producer hp hc tc tp hp' tp' m m' :
  chan hp hc tc tp m -> writes [(gProducer g, 16)] m m' -> cb_at pcb hp' tp' m' ->
  t0 <= tp' <= tc -> hc <= hp' <= tp' + gCapacity g -> hp' <= last ->
  (forall i, hp <= i < hp' -> token_at g m i = all !! Z.to_nat (i - t0)) ->
  chan hp' hc tc tp' m' /\ unmoved m m'.
Proof.
  intros Hch W HP ??? Hnew. pose proof (coordination_unmoved _ _ _ _ _ _ _ Hch (or_introl eq_refl) W) as [Ht Hl].
  pose proof (ch_connected _ _ _ _ _ Hch) as Hc. connected_facts Hc. destruct (ch_order _ _ _ _ _ Hch) as (? & ? & ? & ?).
  split; [|done]. eapply chan_change; [done|exact W|done| |lia..|].
  - eapply cb_at_writes; [exact W|eauto with hicr|]. apply Hch.
  - intros i Hi. rewrite Ht. destruct (decide (i < hp)); [apply Hch; lia|apply Hnew; lia].
Qed.

Lemma chan_store_consumer hp hc tc tp hc' tc' m m' :
  chan hp hc tc tp m -> writes [(gConsumer g, 16)] m m' -> cb_at ccb hc' tc' m' ->
  tc <= tc' <= hc' -> hc' <= hp -> chan hp hc' tc' tp m' /\ unmoved m m'.
Proof.
  intros Hch W HC ??. pose proof (coordination_unmoved _ _ _ _ _ _ _ Hch (or_intror eq_refl) W) as [Ht Hl].
  pose proof (ch_connected _ _ _ _ _ Hch) as Hc. connected_facts Hc. destruct (ch_order _ _ _ _ _ Hch) as (? & ? & ? & ?).
  split; [|done]. eapply chan_change; [done|exact W| |done|lia..|].
  - eapply cb_at_writes; [exact W|eauto with hicr|]. apply Hch.
  - intros i Hi. rewrite Ht. apply Hch. lia.
Qed.

(** *** The producer

    Between its steps the producer knows both heads, a lower bound of the tails,
    the token it has written to the send buffer and the one it has stored. *)
Definition producing (hp hc lo : Z) (sent placed : option (list byte)) (m : Machine X) : Prop :=
  exists tc tp, chan hp hc tc tp m /\ lo <= tp /\
    (forall tok, sent = Some tok -> mem_load (heap m) sp (gTokenSize g) = Some tok) /\
    (forall tok, placed = Some tok -> token_at g m hp = Some tok).

Lemma producing_quiet hp hc lo sent placed : quiet producer_contract (producing hp hc lo sent placed).
Proof.
  split.
  - intros m m' (tc & tp & Hch & ? & Hs & Hp) Hr. destruct (Hr _ _ _ _ Hch) as (tc' & tp' & Hch' & ? & Ht & Hl).
    exists tc', tp'. split_and!; [done|lia|intros tok ->; rewrite Hl; by apply Hs|intros tok ->; rewrite Ht; by apply Hp].
  - intros m m' (tc & tp & Hch & ? & Hs & Hp) Hm. split.
    + exists tc, tp. unfold token_at. rewrite <- (sim_heap _ _ Hm). split_and!; [by eapply chan_sim|done..].
    + intros hp1 hc1 tc1 tp1 Hch1. exists hp1, hc1. split; [by eapply chan_sim|lia].
Qed.

Lemma producing_stable hp hc lo sent placed : stable producer_contract (producing hp hc lo sent placed).
Proof. apply producing_quiet. Qed.

Lemma producing_facts hp hc lo sent placed m :
  producing hp hc lo sent placed m -> exists tc tp, chan hp hc tc tp m.
Proof. intros (tc & tp & Hch & _). eauto. Qed.

(** The own counter is known, the consumer's is at least what is known of it. *)
Lemma triple_producer_depth {A : Type} hp hc lo sent placed (k : Z -> prog (Machine X) A) Q :
  (forall v, lo <= v -> hp - gCapacity g <= v <= hp -> 0 <= hp - v < SIZE_BOUND ->
     triple producer_contract (producing hp hc v sent placed) (k (hp - v)) Q) ->
  triple producer_contract (producing hp hc lo sent placed) (CircularBuffer.getDepth pcb ≫= k) Q.
Proof.
  intros Hk. apply triple_bind with (fun d m => exists v, (lo <= v /\ hp - gCapacity g <= v <= hp /\ 0 <= hp - v < SIZE_BOUND /\ d = hp - v) /\
    producing hp hc v sent placed m).
  - apply triple_noexcept.
    eapply triple_read_size; [apply _|apply producing_stable|intros m (tc & tp & Hch & _); apply Hch|].
    apply triple_bind with (fun v m => (lo <= v /\ hp - gCapacity g <= v <= hp /\ 0 <= hp - v < SIZE_BOUND) /\ producing hp hc v sent placed m).
    + apply triple_fetch; [apply _|apply producing_stable|]. intros m (tc & tp & Hch & ? & ? & ?). exists tp.
      pose proof (chan_bounds _ _ _ _ _ Hch). split; [apply Hch|]. split; [size_lia|]. by exists tc, tp.
    + intros v. apply triple_pure. intros (? & ? & ?). unfold CircularBuffer.calculateDepth.
      apply triple_throw_if; [case_bool; lia|]. apply triple_ret. intros m Hm. exists v. rewrite wrap64_small by size_lia. done.
  - intros d. apply triple_exists. intros v. apply triple_pure. intros (? & ? & ? & ->). by apply Hk.
Qed.

(** The slots of the channel are where they were. *)
Lemma producing_slots hp hc lo sent placed m :
  producing hp hc lo sent placed m ->
  slot_at m src sp ss /\ slot_at m (Producer.coordination p) (gProducer g) np /\
  slot_at m (Consumer.coordination c) (gConsumer g) nc /\ slot_at m (gTokensSlot g) (gTokens g) nt /\
  backed_by m (Producer._tokenBuffer p) (gTokensSlot g) /\
  backed_by m (Producer._consumerCoordinationBuffer p) (Consumer.coordination c).
Proof. intros (tc & tp & Hch & _). split_and!; apply Hch. Qed.

(** The geometry is known as soon as there is a channel. *)
Lemma triple_producing {A : Type} hp hc lo sent placed (k : prog (Machine X) A) Q :
  (forall tc tp m, chan hp hc tc tp m -> lo <= tp -> triple producer_contract (producing hp hc lo sent placed) k Q) ->
  triple producer_contract (producing hp hc lo sent placed) k Q.
Proof. intros H m Hm. pose proof Hm as (tc & tp & Hch & ? & _). by eapply H. Qed.

(** Writing a token to the send buffer. *)
Lemma triple_fill hp hc lo tok :
  Z.of_nat (length tok) = gTokenSize g ->
  triple producer_contract (producing hp hc lo None None)
    (update (fun m => h ← mem_store (heap m) sp tok; Some (set_heap h m)))
    (fun _ => producing hp hc lo (Some tok) None).
Proof.
  intros Hl. apply triple_update; [apply producing_stable|]. intros m (tc & tp & Hch & Hlo & _).
  pose proof (ch_send _ _ _ _ _ Hch) as Hsb. destruct (chan_sizes _ _ _ _ _ Hch) as (? & _).
  destruct (mem_store_accessible (heap m) sp tok) as [h Eh].
  { rewrite Hl, <- (ptr_add_0 sp). eapply accessible_sub; [apply Hsb|destruct Hsb; lia..]. }
  assert (St : stored m (ptr_add sp 0) tok (set_heap h m)) by (rewrite ptr_add_0; by exists h).
  assert (W : writes [(sp, ss)] m (set_heap h m)).
  { eapply (writes_stored [(sp, ss)] m sp 0 tok); [exact St|constructor|lia|destruct Hsb; lia]. }
  assert (Hk : forall hp1 hc1 tc1 tp1, chan hp1 hc1 tc1 tp1 m -> chan hp1 hc1 tc1 tp1 (set_heap h m)).
  { intros * Hch1. eapply chan_writes; [done|exact W|..]; (apply apart_cons, apart_nil; apply Hsb). }
  exists (set_heap h m). rewrite Eh. split; [done|]. split; [intros hp1 hc1 tc1 tp1 Hch1; exists hp1, hc1; split; [by apply Hk|lia]|].
  exists tc, tp. split_and!; [by apply Hk|done| |done]. intros ? [= <-].
  pose proof (stored_same _ _ _ _ St) as HL. by rewrite Hl, ptr_add_0 in HL.
Qed.

(** The copy of the token to the head position. *)
Lemma triple_place this hp hc lo tok :
  hp < lo + gCapacity g ->
  triple producer_contract (producing hp hc lo (Some tok) None)
    (pos ← CircularBuffer.getHeadPosition pcb;
     CommunicationManager.memcpyGL this (Producer._tokenBuffer p) (gTokenSize g *w pos) src (0 *w gTokenSize g) (gTokenSize g))
    (fun _ => producing hp hc lo (Some tok) (Some tok)).
Proof.
  intros Hroom. apply triple_producing. intros tc0 tp0 m0 Hch0 _.
  destruct (chan_sizes _ _ _ _ _ Hch0) as (Ht & Hcap & Hmul), (ch_send _ _ _ _ _ Hch0) as [_ Hss _ _ _ _].
  destruct (ch_tslot _ _ _ _ _ Hch0) as [Hnt _]. pose proof (token_bounds _ _ hp Ht Hcap) as [? ?].
  apply triple_assoc. eapply triple_read_size; [apply _|apply producing_stable|intros m (? & ? & Hch & _); apply Hch|].
  unfold CircularBuffer.size_mod. cbn [CircularBuffer._capacity Base.circular_buffer_at].
  case_bool; [lia|]. change (mret (hp mod gCapacity g)) with (Ret (S := Machine X) (hp mod gCapacity g)). cbn [mbind prog_mbind bind].
  rewrite !wrap64_small by size_lia. eapply triple_memcpyGL with (dp := gTokens g) (ds := nt) (sp := sp) (ss := ss);
    [apply _|apply producing_quiet|apply producing_quiet|intros m Hm; apply (producing_slots _ _ _ _ _ _ Hm)| |size_lia|lia|size_lia|lia|].
  - intros m [Hm|Hm]; destruct (producing_slots _ _ _ _ _ _ Hm) as (? & ? & ? & ? & _); done.
  - intros m (tc & tp & Hch & ? & Hs & _). specialize (Hs tok eq_refl).
    destruct (mem_load_length _ _ _ _ Hs) as [Hl _].
    destruct (mem_store_accessible (heap m) (ptr_add (gTokens g) (gTokenSize g * (hp mod gCapacity g))) tok) as [h Eh].
    { rewrite Hl. eapply accessible_sub; [apply (con_ptokens _ _ _ _ (ch_connected _ _ _ _ _ Hch))|lia..]. }
    assert (St : stored m (ptr_add (gTokens g) (gTokenSize g * (hp mod gCapacity g))) tok (set_heap h m)) by (by exists h).
    destruct (chan_place hp hc tc tp tok m (set_heap h m)) as [Hch' Ht']; [done|lia|done..|].
    exists tok, h. rewrite ptr_add_0. split_and!; [done|done| |].
    + intros hp1 hc1 tc1 tp1 Hch1. destruct (chan_inj _ _ _ _ _ _ _ _ _ Hch Hch1) as (-> & -> & -> & ->).
      exists hp1, hc1. split; [done|lia].
    + exists tc, tp. split_and!; [done|done| |by intros ? [= <-]]. intros ? [= <-].
      rewrite <- Hs. apply (stored_disjoint _ _ _ _ _ _ St). rewrite Hl. apply disjoint_ranges_sym.
      rewrite <- (ptr_add_0 sp). eapply disjoint_ranges_sub; [apply (sb_tokens _ _ _ _ _ (ch_send _ _ _ _ _ Hch))|lia..].
Qed.

(** The head is advanced over the stored token. *)
Lemma triple_advance hp hc lo sent tok :
  hp < lo + gCapacity g -> hp < last -> all !! Z.to_nat (hp - t0) = Some tok ->
  triple producer_contract (producing hp hc lo sent (Some tok)) (CircularBuffer.advanceHead pcb 1)
    (fun _ => producing (hp + 1) hc lo None None).
Proof.
  intros Hroom Hlast Htok. unfold CircularBuffer.advanceHead. apply triple_producer_depth. intros v Hv ? ?.
  apply triple_producing. intros tc0 tp0 m0 Hch0 _. pose proof (chan_bounds _ _ _ _ _ Hch0).
  cbv zeta. cbn [CircularBuffer._capacity Base.circular_buffer_at]. rewrite wrap64_small by size_lia.
  apply triple_throw_if; [case_bool; lia|].
  eapply triple_read_size; [apply _|apply producing_stable|intros m (? & ? & Hch & _); apply Hch|].
  rewrite wrap64_small by size_lia. apply triple_update; [apply producing_stable|].
  intros m (tc & tp & Hch & ? & _ & Hp). specialize (Hp tok eq_refl).
  destruct (store_counter _ _ _ _ m 0 (hp + 1) (ch_producer _ _ _ _ _ Hch)) as (hm & E & St & W); [by left|].
  exists (set_heap hm m). cbn [CircularBuffer._headAdvanceCounter Base.circular_buffer_at] in *.
  change (_HICR_CHANNEL_HEAD_ADVANCE_COUNT_IDX * SIZEOF_SIZE_T) with 0. rewrite E.
  pose proof (stored_head _ _ _ _ (hp + 1) _ (ch_producer _ _ _ _ _ Hch) (cb_separate_at _ _) ltac:(size_lia) St) as HP.
  pose proof (chan_bounds _ _ _ _ _ Hch). destruct (ch_order _ _ _ _ _ Hch) as (? & ? & ? & ?).
  assert (Hnew : chan (hp + 1) hc tc tp (set_heap hm m)).
  { eapply chan_store_producer; [done|exact W|done|lia..|]. intros i Hi. replace i with hp by lia. by rewrite Hp. }
  split_and!; [done| |exists tc, tp; by split_and!; [|lia|..]].
  intros hp1 hc1 tc1 tp1 Hch1. destruct (chan_inj _ _ _ _ _ _ _ _ _ Hch Hch1) as (-> & -> & -> & ->).
  exists (hp1 + 1), hc1. split; [done|lia].
Qed.

(** The head is copied to the consumer. *)
Lemma triple_publish this hp hc lo :
  triple producer_contract (producing hp hc lo None None)
    (CommunicationManager.memcpyGL this (Producer._consumerCoordinationBuffer p)
       (_HICR_CHANNEL_HEAD_ADVANCE_COUNT_IDX *w SIZEOF_SIZE_T)
       (Producer.coordination p) (_HICR_CHANNEL_HEAD_ADVANCE_COUNT_IDX *w SIZEOF_SIZE_T) SIZEOF_SIZE_T)
    (fun _ => producing hp hp lo None None).
Proof.
  apply triple_producing. intros tc0 tp0 m0 Hch0 _.
  destruct (ch_pslot _ _ _ _ _ Hch0) as [? _], (ch_cslot _ _ _ _ _ Hch0) as [? _].
  change (_HICR_CHANNEL_HEAD_ADVANCE_COUNT_IDX *w SIZEOF_SIZE_T) with 0. change SIZEOF_SIZE_T with 8.
  eapply triple_memcpyGL with (dp := gConsumer g) (ds := nc) (sp := gProducer g) (ss := np);
    [apply _|apply producing_quiet|apply producing_quiet|intros m Hm; apply (producing_slots _ _ _ _ _ _ Hm)| |size_lia|lia|size_lia|lia|].
  - intros m [Hm|Hm]; destruct (producing_slots _ _ _ _ _ _ Hm) as (? & ? & ? & ? & _); done.
  - intros m (tc & tp & Hch & ? & _).
    destruct (load_size_bytes _ _ _ (proj1 (ch_producer _ _ _ _ _ Hch))) as (bs & Ebs & Hl & Hv).
    destruct (mem_store_accessible (heap m) (ptr_add (gConsumer g) 0) bs) as [h Eh].
    { rewrite Hl. eapply load_size_accessible. apply (ch_consumer _ _ _ _ _ Hch). }
    assert (St : stored m (ptr_add (gConsumer g) 0) bs (set_heap h m)) by (by exists h).
    pose proof (stored_counter_head (gCapacity g) _ _ _ _ _ _ St Hl (ch_consumer _ _ _ _ _ Hch)) as HC. rewrite Hv in HC.
    pose proof (chan_bounds _ _ _ _ _ Hch).
    destruct (chan_store_consumer hp hc tc tp hp tc m (set_heap h m)) as [Hch' _];
      [done|eapply writes_stored; [exact St|constructor|lia|lia]|done|lia..|].
    exists bs, h. split_and!; [done|done| |exists tc, tp; by split_and!].
    intros hp1 hc1 tc1 tp1 Hch1. destruct (chan_inj _ _ _ _ _ _ _ _ _ Hch Hch1) as (-> & -> & -> & ->).
    exists hp1, hp1. split; [done|lia].
Qed.

Lemma triple_push hp lo tok :
  hp < lo + gCapacity g -> hp < last -> all !! Z.to_nat (hp - t0) = Some tok ->
  triple producer_contract (producing hp hp lo (Some tok) None) (Producer.push p src 1)
    (fun _ => producing (hp + 1) (hp + 1) lo None None).
Proof.
  intros Hroom Hlast Htok. apply triple_producing. intros tc0 tp0 m0 Hch0 _.
  pose proof (chan_bounds _ _ _ _ _ Hch0). pose proof (ch_connected _ _ _ _ _ Hch0) as Hc. connected_facts Hc.
  destruct Hsizes as (Ht & Hcap & Hmul), (ch_send _ _ _ _ _ Hch0) as [_ Hss _ _ _ _].
  unfold Producer.push, Base.getTokenSize. cbv zeta. rewrite Hptok, Hpcb.
  eapply triple_getSize; [apply _|apply producing_stable|intros m Hm; apply (producing_slots _ _ _ _ _ _ Hm)|].
  apply triple_throw_if; [rewrite wrap64_small by size_lia; case_bool; lia|].
  eapply triple_bind; [apply queryMemorySlotUpdatesImpl_atomic; [apply _|apply producing_quiet]|intros []; cbn beta].
  apply triple_producer_depth. intros v ? ? ?.
  apply triple_throw_if; [cbn; rewrite wrap64_small by size_lia; case_bool; lia|].
  change (Z.to_nat 1) with 1%nat. cbn [for_loop].
  apply triple_bind with (fun _ => producing hp hp v (Some tok) (Some tok)).
  { eapply triple_bind; [apply triple_place; lia|]. intros []; cbn beta. by apply triple_ret. }
  intros _. eapply triple_bind; [apply fenceImplLocal_atomic; [apply _|apply producing_quiet]|intros []; cbn beta].
  eapply triple_bind; [apply triple_advance; [lia|done..]|intros []; cbn beta].
  eapply triple_bind; [apply triple_publish|intros []; cbn beta].
  eapply triple_conseq; [apply fenceImplLocal_atomic; [apply _|apply producing_quiet]|done|].
  intros _ m (tc & tp & Hch & ? & ?). exists tc, tp. by split_and!; [|lia|..].
Qed.

Lemma triple_send hp lo tok :
  hp < lo + gCapacity g -> hp < last -> all !! Z.to_nat (hp - t0) = Some tok ->
  triple producer_contract (producing hp hp lo None None) (Client.send p src tok)
    (fun _ => producing (hp + 1) (hp + 1) lo None None).
Proof.
  intros Hroom Hlast Htok. unfold Client.send.
  eapply triple_getPointer; [apply _|apply producing_stable|intros m Hm; apply (producing_slots _ _ _ _ _ _ Hm)|].
  eapply triple_bind; [apply triple_fill|intros []; by apply triple_push].
  exact (Forall_lookup_1 _ _ _ _ Hall Htok).
Qed.

Lemma triple_wait_full polls hp lo :
  hp < last ->
  triple producer_contract (producing hp hp lo None None)
    (Threads.busy_wait polls (Base.isFull (Producer.base p)) (Producer.updateDepth p))
    (fun _ m => exists lo', hp < lo' + gCapacity g /\ producing hp hp lo' None None m).
Proof.
  intros Hlast. apply triple_producing. intros tc0 tp0 m0 Hch0 _.
  replace (Base.isFull (Producer.base p)) with (d ← CircularBuffer.getDepth pcb; mret (d =? gCapacity g) : prog (Machine X) bool);
    [|unfold Base.isFull, CircularBuffer.isFull; change (Base._circularBuffer (Producer.base p)) with (Producer.circular p);
      by rewrite (con_pcircular _ _ _ _ (ch_connected _ _ _ _ _ Hch0))].
  clear Hch0. revert lo. induction polls as [|polls IH]; intros lo; cbn [Threads.busy_wait].
  - assert (Hrun : forall m tc tp, chan hp hp tc tp m ->
      run (d ← CircularBuffer.getDepth pcb; mret (d =? gCapacity g)) m = Done (hp - tp =? gCapacity g) m).
    { intros m tc tp Hch. pose proof (chan_bounds _ _ _ _ _ Hch).
      by rewrite (run_bind_Done _ _ _ _ _ (run_getDepth_ok _ _ _ _ (ch_producer _ _ _ _ _ Hch) ltac:(lia))). }
    apply triple_await with (fun m => exists lo', hp < lo' + gCapacity g /\ producing hp hp lo' None None m);
      [apply producing_stable| | |by apply triple_ret]; intros m (tc & tp & Hch & _); cbn [CircularBuffer._capacity Base.circular_buffer_at];
      rewrite (Hrun _ _ _ Hch); pose proof (chan_bounds _ _ _ _ _ Hch); case_bool; intros Hb; try done.
    + exists hp, tc, tp. by split_and!; [|lia|].
    + exists tp. split; [lia|]. exists tc, tp. by split_and!.
  - apply triple_assoc, triple_producer_depth. intros v ???. cbn [mbind prog_mbind bind mret prog_mret].
    cbn [CircularBuffer._capacity Base.circular_buffer_at]. case_bool.
    + eapply triple_bind; [apply queryMemorySlotUpdatesImpl_atomic; [apply _|apply producing_quiet]|intros []; cbn beta]. apply IH.
    + apply triple_ret. intros m Hm. exists v. by split; [lia|].
Qed.

(** The whole producer: from the token [hp] on, everything is sent. *)
Lemma triple_produce polls toks : forall hp lo,
  t0 <= hp -> hp + Z.of_nat (length toks) = last -> drop (Z.to_nat (hp - t0)) all = toks ->
  triple producer_contract (producing hp hp lo None None) (Threads.produce polls p src toks)
    (fun r m => r = [] /\ exists lo', producing last last lo' None None m).
Proof.
  induction toks as [|tok toks IH]; intros hp lo H0 Hlen Hd; cbn [Threads.produce].
  - apply triple_ret. intros m Hm. split; [done|]. exists lo. cbn in Hlen. by replace last with hp by lia.
  - cbn in Hlen. assert (Htok : all !! Z.to_nat (hp - t0) = Some tok).
    { rewrite <- (Nat.add_0_r (Z.to_nat _)), <- lookup_drop. by rewrite Hd. }
    eapply triple_bind; [apply triple_wait_full; lia|]. intros []; cbn beta. apply triple_exists. intros lo'. apply triple_pure. intros Hroom.
    eapply triple_bind; [apply triple_send; [done|lia|done]|]. intros []; cbn beta. apply IH; [lia|lia|].
    replace (Z.to_nat (hp + 1 - t0)) with (S (Z.to_nat (hp - t0))) by lia.
    rewrite <- Nat.add_1_r, <- drop_drop, Hd. done.
Qed.

(** *** The consumer

    It knows both tails and a lower bound of the heads. *)
Definition consuming (tc tp lo : Z) (m : Machine X) : Prop := exists hp hc, chan hp hc tc tp m /\ lo <= hc.

Lemma consuming_quiet tc tp lo : quiet consumer_contract (consuming tc tp lo).
Proof.
  split.
  - intros m m' (hp & hc & Hch & ?) Hr. destruct (Hr _ _ _ _ Hch) as (hp' & hc' & Hch' & ?). exists hp', hc'. by split; [|lia].
  - intros m m' (hp & hc & Hch & ?) Hm. split; [exists hp, hc; by split; [eapply chan_sim|]|].
    intros hp1 hc1 tc1 tp1 Hch1. exists tc1, tp1. split_and!; [by eapply chan_sim|done|].
    unfold unmoved, token_at. by rewrite <- (sim_heap _ _ Hm).
Qed.

Lemma consuming_stable tc tp lo : stable consumer_contract (consuming tc tp lo).
Proof. apply consuming_quiet. Qed.

Lemma consuming_slots tc tp lo m :
  consuming tc tp lo m ->
  slot_at m (Producer.coordination p) (gProducer g) np /\ slot_at m (Consumer.coordination c) (gConsumer g) nc /\
  slot_at m (gTokensSlot g) (gTokens g) nt /\ backed_by m (Consumer._tokenBuffer c) (gTokensSlot g) /\
  backed_by m (Consumer._producerCoordinationBuffer c) (Producer.coordination p).
Proof. intros (hp & hc & Hch & _). split_and!; apply Hch. Qed.

Lemma triple_consuming {A : Type} tc tp lo (k : prog (Machine X) A) Q :
  (forall hp hc m, chan hp hc tc tp m -> lo <= hc -> triple consumer_contract (consuming tc tp lo) k Q) ->
  triple consumer_contract (consuming tc tp lo) k Q.
Proof. intros H m Hm. pose proof Hm as (hp & hc & Hch & ?). by eapply H. Qed.

Lemma triple_consumer_depth {A : Type} tc tp lo (k : Z -> prog (Machine X) A) Q :
  (forall v, lo <= v -> tc <= v -> 0 <= v - tc < SIZE_BOUND ->
     triple consumer_contract (consuming tc tp v) (k (v - tc)) Q) ->
  triple consumer_contract (consuming tc tp lo) (CircularBuffer.getDepth ccb ≫= k) Q.
Proof.
  intros Hk. apply triple_bind with
    (fun d m => exists v, (lo <= v /\ tc <= v /\ 0 <= v - tc < SIZE_BOUND /\ d = v - tc) /\ consuming tc tp v m).
  - apply triple_noexcept.
    apply triple_bind with (fun v m => (lo <= v /\ tc <= v /\ 0 <= v - tc < SIZE_BOUND) /\ consuming tc tp v m).
    + apply triple_fetch; [apply _|apply consuming_stable|]. intros m (hp & hc & Hch & ?). exists hc.
      pose proof (chan_bounds _ _ _ _ _ Hch). split; [apply Hch|]. split; [size_lia|]. by exists hp, hc.
    + intros v. apply triple_pure. intros (? & ? & ?).
      eapply triple_read_size; [apply _|apply consuming_stable|intros m (hp & hc & Hch & _); apply Hch|].
      unfold CircularBuffer.calculateDepth. apply triple_throw_if; [case_bool; lia|].
      apply triple_ret. intros m Hm. exists v. rewrite wrap64_small by size_lia. done.
  - intros d. apply triple_exists. intros v. apply triple_pure. intros (? & ? & ? & ->). by apply Hk.
Qed.

Lemma triple_peek tc tp lo :
  tc < lo ->
  triple consumer_contract (consuming tc tp lo) (Consumer.peek c 0)
    (fun pos m => pos = tc mod gCapacity g /\ consuming tc tp lo m).
Proof.
  intros Hlo. apply triple_consuming. intros hp0 hc0 m0 Hch0 _. pose proof (chan_bounds _ _ _ _ _ Hch0).
  unfold Consumer.peek. rewrite (con_ccircular _ _ _ _ (ch_connected _ _ _ _ _ Hch0)).
  cbn [CircularBuffer.getCapacity CircularBuffer._capacity Base.circular_buffer_at].
  apply triple_throw_if; [case_bool; lia|].
  do 2 (eapply triple_bind; [apply flushReceived_atomic; [apply _|apply consuming_quiet]|intros []; cbn beta]).
  unfold Consumer.updateDepth. cbn [mbind prog_mbind bind mret prog_mret]. apply triple_consumer_depth. intros v ???.
  apply triple_throw_if; [case_bool; lia|]. apply triple_assoc.
  eapply triple_read_size; [apply _|apply consuming_stable|intros m (hp & hc & Hch & _); apply Hch|].
  unfold CircularBuffer.size_mod. cbn [CircularBuffer._capacity Base.circular_buffer_at]. case_bool; [lia|].
  pose proof (Z.mod_pos_bound tc (gCapacity g)).
  change (mret (tc mod gCapacity g)) with (Ret (S := Machine X) (tc mod gCapacity g)). cbn [mbind prog_mbind bind].
  rewrite wrap64_small by size_lia. apply triple_ret. rewrite Z.add_0_r, Z.mod_mod by lia.
  intros m (hp & hc & Hch & ?). split; [done|]. exists hp, hc. by split; [|lia].
Qed.

(** The tail is advanced over the oldest token. *)
Lemma triple_retire tc tp lo :
  tc < lo ->
  triple consumer_contract (consuming tc tp lo) (CircularBuffer.advanceTail ccb 1)
    (fun _ => consuming (tc + 1) tp lo).
Proof.
  intros Hlo. unfold CircularBuffer.advanceTail. apply triple_consumer_depth. intros v ???.
  apply triple_consuming. intros hp0 hc0 m0 Hch0 ?. pose proof (chan_bounds _ _ _ _ _ Hch0).
  apply triple_throw_if; [case_bool; lia|].
  eapply triple_read_size; [apply _|apply consuming_stable|intros m (hp & hc & Hch & _); apply Hch|].
  rewrite wrap64_small by size_lia. apply triple_update; [apply consuming_stable|].
  intros m (hp & hc & Hch & ?). pose proof (chan_bounds _ _ _ _ _ Hch).
  destruct (store_counter _ _ _ _ m 8 (tc + 1) (ch_consumer _ _ _ _ _ Hch)) as (hm & E & St & W); [by right|].
  exists (set_heap hm m). cbn [CircularBuffer._tailAdvanceCounter Base.circular_buffer_at] in *.
  change (_HICR_CHANNEL_TAIL_ADVANCE_COUNT_IDX * SIZEOF_SIZE_T) with 8. rewrite E.
  pose proof (stored_tail _ _ _ _ (tc + 1) _ (ch_consumer _ _ _ _ _ Hch) (cb_separate_at _ _) ltac:(size_lia) St) as HC.
  destruct (chan_store_consumer hp hc tc tp hc (tc + 1) m (set_heap hm m)) as [Hnew Hu]; [done|exact W|done|lia..|].
  split_and!; [done| |exists hp, hc; by split; [|lia]].
  intros hp1 hc1 tc1 tp1 Hch1. destruct (chan_inj _ _ _ _ _ _ _ _ _ Hch Hch1) as (-> & -> & -> & ->).
  exists (tc1 + 1), tp1. by split_and!.
Qed.

(** The tail is copied to the producer. *)
Lemma triple_return this tc tp lo :
  triple consumer_contract (consuming tc tp lo)
    (CommunicationManager.memcpyGL this (Consumer._producerCoordinationBuffer c)
       (_HICR_CHANNEL_TAIL_ADVANCE_COUNT_IDX *w SIZEOF_SIZE_T)
       (Consumer.coordination c) (_HICR_CHANNEL_TAIL_ADVANCE_COUNT_IDX *w SIZEOF_SIZE_T) SIZEOF_SIZE_T)
    (fun _ => consuming tc tc lo).
Proof.
  apply triple_consuming. intros hp0 hc0 m0 Hch0 _.
  destruct (ch_pslot _ _ _ _ _ Hch0) as [? _], (ch_cslot _ _ _ _ _ Hch0) as [? _].
  change (_HICR_CHANNEL_TAIL_ADVANCE_COUNT_IDX *w SIZEOF_SIZE_T) with 8. change SIZEOF_SIZE_T with 8.
  eapply triple_memcpyGL with (dp := gProducer g) (ds := np) (sp := gConsumer g) (ss := nc);
    [apply _|apply consuming_quiet|apply consuming_quiet|intros m Hm; apply (consuming_slots _ _ _ _ Hm)| |size_lia|lia|size_lia|lia|].
  - intros m [Hm|Hm]; destruct (consuming_slots _ _ _ _ Hm) as (? & ? & _); done.
  - intros m (hp & hc & Hch & ?).
    destruct (load_size_bytes _ _ _ (proj2 (ch_consumer _ _ _ _ _ Hch))) as (bs & Ebs & Hl & Hv).
    destruct (mem_store_accessible (heap m) (ptr_add (gProducer g) 8) bs) as [h Eh].
    { rewrite Hl. eapply load_size_accessible. apply (ch_producer _ _ _ _ _ Hch). }
    assert (St : stored m (ptr_add (gProducer g) 8) bs (set_heap h m)) by (by exists h).
    pose proof (stored_counter_tail (gCapacity g) _ _ _ _ _ _ St Hl (ch_producer _ _ _ _ _ Hch)) as HP. rewrite Hv in HP.
    destruct (ch_order _ _ _ _ _ Hch) as (? & ? & ? & ?).
    destruct (chan_store_producer hp hc tc tp hp tc m (set_heap h m)) as [Hch' Hu];
      [done|eapply writes_stored; [exact St|constructor|lia|lia]|done|lia..|].
    exists bs, h. split_and!; [done|done| |by exists hp, hc].
    intros hp1 hc1 tc1 tp1 Hch1. destruct (chan_inj _ _ _ _ _ _ _ _ _ Hch Hch1) as (-> & -> & -> & ->).
    exists tc1, tc1. split_and!; [done|lia|done].
Qed.

Lemma triple_pop tc lo :
  tc < lo ->
  triple consumer_contract (consuming tc tc lo) (Consumer.pop c 1) (fun _ => consuming (tc + 1) (tc + 1) lo).
Proof.
  intros Hlo. apply triple_consuming. intros hp0 hc0 m0 Hch0 _. pose proof (chan_bounds _ _ _ _ _ Hch0).
  unfold Consumer.pop. rewrite (con_ccircular _ _ _ _ (ch_connected _ _ _ _ _ Hch0)).
  cbn [CircularBuffer.getCapacity CircularBuffer._capacity Base.circular_buffer_at].
  apply triple_throw_if; [case_bool; lia|]. unfold Consumer.updateDepth. cbn [mbind prog_mbind bind mret prog_mret].
  apply triple_consumer_depth. intros v ???. apply triple_throw_if; [case_bool; lia|].
  eapply triple_bind; [apply triple_retire; lia|intros []; cbn beta].
  eapply triple_bind; [apply triple_return|intros []; cbn beta].
  eapply triple_conseq; [apply fenceImplLocal_atomic; [apply _|apply consuming_quiet]|done|].
  intros _ m (hp & hc & Hch & ?). exists hp, hc. by split; [|lia].
Qed.

Lemma triple_receive tc lo :
  tc < lo ->
  triple consumer_contract (consuming tc tc lo) (Client.receive c)
    (fun tok m => all !! Z.to_nat (tc - t0) = Some tok /\ consuming (tc + 1) (tc + 1) lo m).
Proof.
  intros Hlo. apply triple_consuming. intros hp0 hc0 m0 Hch0 ?. destruct (ch_order _ _ _ _ _ Hch0) as (? & ? & ? & ?).
  destruct (lookup_lt_is_Some_2 all (Z.to_nat (tc - t0))) as [tok Htok]; [lia|].
  unfold Client.receive. eapply triple_bind; [by apply triple_peek|]. intros pos. apply triple_pure. intros ->.
  unfold Consumer.getTokenBuffer, Base.getTokenSize. rewrite (con_ctoken _ _ _ _ (ch_connected _ _ _ _ _ Hch0)).
  eapply triple_getSource; [apply _|apply consuming_stable|intros m Hm; apply (consuming_slots _ _ _ _ Hm)|]. cbv iota beta.
  eapply triple_getPointer; [apply _|apply consuming_stable|intros m Hm; apply (consuming_slots _ _ _ _ Hm)|]. cbv zeta.
  apply triple_fetch_const with tok; [apply _|apply consuming_stable| |].
  { intros m (hp & hc & Hch & ?). pose proof (chan_bounds _ _ _ _ _ Hch). rewrite <- Htok. apply (ch_tokens _ _ _ _ _ Hch). lia. }
  eapply triple_bind; [by apply triple_pop|intros []; cbn beta]. by apply triple_ret.
Qed.

Lemma triple_wait_empty polls tc lo :
  tc < last ->
  triple consumer_contract (consuming tc tc lo)
    (Threads.busy_wait polls (Base.isEmpty (Consumer.base c)) (Consumer.updateDepth c))
    (fun _ => consuming tc tc (tc + 1)).
Proof.
  intros Hlast. apply triple_consuming. intros hp0 hc0 m0 Hch0 _.
  replace (Base.isEmpty (Consumer.base c)) with (CircularBuffer.isEmpty ccb : prog (Machine X) bool);
    [|by rewrite <- (con_ccircular _ _ _ _ (ch_connected _ _ _ _ _ Hch0))].
  clear Hch0. revert lo. induction polls as [|polls IH]; intros lo; cbn [Threads.busy_wait].
  - apply triple_await with (consuming tc tc (tc + 1)); [apply consuming_stable| | |by apply triple_ret];
      intros m (hp & hc & Hch & _); pose proof (chan_bounds _ _ _ _ _ Hch);
      rewrite (run_isEmpty _ _ _ _ (ch_consumer _ _ _ _ _ Hch)); case_bool; intros Hb; try done.
    + exists hp, tc. by subst hc.
    + exists hp, hc. by split; [|lia].
  - unfold CircularBuffer.isEmpty at 1. apply triple_assoc.
    apply triple_bind with (fun v m => tc <= v /\ consuming tc tc v m).
    { apply triple_fetch; [apply _|apply consuming_stable|]. intros m (hp & hc & Hch & ?). exists hc.
      pose proof (chan_bounds _ _ _ _ _ Hch). split; [apply Hch|]. split; [lia|]. by exists hp, hc. }
    intros v. apply triple_pure. intros ?. apply triple_assoc.
    eapply triple_read_size; [apply _|apply consuming_stable|intros m (hp & hc & Hch & _); apply Hch|].
    cbn [mbind prog_mbind bind mret prog_mret]. case_bool; [apply IH|].
    apply triple_ret. intros m (hp & hc & Hch & ?). exists hp, hc. by split; [|lia].
Qed.

(** The whole consumer: from the token [tc] on, everything is received. *)
Lemma triple_consume polls n : forall tc lo,
  t0 <= tc -> tc + Z.of_nat n = last ->
  triple consumer_contract (consuming tc tc lo) (Threads.consume polls c n)
    (fun r m => r = drop (Z.to_nat (tc - t0)) all /\ exists lo', consuming last last lo' m).
Proof.
  induction n as [|n IH]; intros tc lo H0 Hlen; cbn [Threads.consume].
  - apply triple_ret. intros m Hm. split; [by rewrite drop_ge by lia|]. exists lo. by replace last with tc by lia.
  - eapply triple_bind; [apply triple_wait_empty; lia|]. intros []; cbn beta.
    eapply triple_bind; [apply triple_receive; lia|]. intros tok. apply triple_pure. intros Htok.
    eapply triple_bind; [apply IH; lia|]. intros toks. apply triple_pure. intros ->. apply triple_ret.
    intros m Hm. split; [|done]. rewrite (drop_S _ tok _ Htok). f_equal. f_equal. lia.
Qed.

(** *** Both together *)

Definition thread_contract (i : nat) : contract (Machine X) :=
  match i with O => producer_contract | S _ => consumer_contract end.

Definition thread_post (i : nat) (r : list (list byte)) (m : Machine X) : Prop :=
  match i with
  | O => r = [] /\ exists lo, producing last last lo None None m
  | S _ => r = all /\ exists lo, consuming last last lo m
  end.

Lemma threads_compatible : compatible 2 thread_contract thread_post.
Proof.
  split.
  - intros [|i] _; apply _.
  - intros [|i] r _ m m' [-> [lo Hm]] Hr; (split; [done|]; exists lo); [by eapply producing_stable|by eapply consuming_stable].
  - intros [|[|i]] [|[|j]] m m' ?? Hij HG; cbn in *; [done|exact HG|lia|exact HG|done|lia..].
Qed.

(** They cannot both be blocked, nor can one be when the other has finished. *)
Lemma threads_progress ps m :
  length ps = 2%nat -> pool_safe thread_contract thread_post ps m ->
  (ps = [Ret []; Ret all] /\ chan last last last last m) \/ exists st, pool_step (ps, m) st.
Proof.
  intros Hl HI. destruct ps as [|p1 [|p2 [|]]]; try done.
  assert (Hmove : forall i q q' m', [p1; p2] !! i = Some q -> thread_step q m q' m' -> exists st, pool_step ([p1; p2], m) st)
    by (intros; eexists; by eapply pool_act).
  destruct (safe_progress producer_contract p1 _ m (HI 0%nat p1 eq_refl)) as [(r1 & -> & -> & lo1 & tc1 & tp1 & Hch1 & _)|[(q & m' & Ht)|(_ & hp1 & tc1 & tp1 & Hch1 & Hb1)]];
    [|right; by eapply (Hmove 0%nat)|];
  (destruct (safe_progress consumer_contract p2 _ m (HI 1%nat p2 eq_refl)) as [(r2 & -> & -> & lo2 & hp2 & hc2 & Hch2 & _)|[(q & m' & Ht)|(_ & hp2 & tc2 & Hch2 & Hb2)]];
    [|right; by eapply (Hmove 1%nat)|]);
  destruct (chan_inj _ _ _ _ _ _ _ _ _ Hch1 Hch2) as (? & ? & ? & ?); subst;
  pose proof (chan_bounds _ _ _ _ _ Hch1); try lia.
  left. by split.
Qed.

(** What a pool of the two threads does. *)
Lemma threads_outcome ps m :
  length ps = 2%nat -> pool_safe thread_contract thread_post ps m ->
  (forall i e x, ps !! i <> Some (Raise e) /\ ps !! i <> Some (Crash x)) /\
  (forall r, ps !! 1%nat = Some (Ret r) -> r = all) /\
  ((forall st, ~ pool_step (ps, m) st) -> ps = [Ret []; Ret all]) /\
  (exists m', pool_steps (ps, m) ([Ret []; Ret all], m') /\ chan last last last last m').
Proof.
  intros Hl HI. split_and!.
  - intros i e x. split; intros Ei; by destruct (HI _ _ Ei).
  - intros r Ei. by destruct (HI _ _ Ei).
  - intros Hst. destruct (threads_progress ps m Hl HI) as [[-> _]|[st Hs]]; [done|by destruct (Hst st)].
  - destruct (pool_reaches (fun qs u => length qs = 2%nat /\ pool_safe thread_contract thread_post qs u)
      (fun qs u => qs = [Ret []; Ret all] /\ chan last last last last u) ps m) as (ps' & m' & Hs & -> & Hch); [..|by eauto].
    + intros qs u qs' u' [Hq Hu] Hst. split; [by rewrite (pool_steps_length _ _ _ _ (rtc_once _ _ Hst))|].
      eapply pool_safe_step; [|done..]. rewrite Hq. apply threads_compatible.
    + intros qs u [Hq Hu]. by apply threads_progress.
    + done.
Qed.

Lemma threads_start q toks polls polls' m :
  all = q ++ toks -> chan (t0 + Z.of_nat (length q)) (t0 + Z.of_nat (length q)) t0 t0 m ->
  pool_safe thread_contract thread_post
    [Threads.produce polls p src toks; Threads.consume polls' c (length q + length toks)] m.
Proof.
  intros Eall Hch [|[|i]] x Hx; [..|done]; injection Hx as <-; cbn.
  - apply (triple_produce polls toks (t0 + Z.of_nat (length q)) t0); [lia|rewrite Eall, length_app; lia| |by exists t0, t0].
    replace (Z.to_nat _) with (length q) by lia. rewrite Eall. apply drop_app_length.
  - eapply safe_mono; [|apply (triple_consume polls' (length q + length toks) t0 t0)].
    + intros r u. by rewrite Z.sub_diag.
    + lia.
    + rewrite Eall, length_app. lia.
    + do 2 eexists. split; [exact Hch|lia].
Qed.

End Protocol.

(** ** Theorem *)

Section Theorem_.
Context {X : Type} {B : CommBackend X} `{!CommSpec X} `{!CommAtomic X}.
Implicit Types m : Machine X.

(** Between operations the protocol holds with equal counters on both ends. *)
Lemma chan_start g p c src sp ss m t q toks :
  channel_rep g p c m t q -> send_buffer g src sp ss m -> exists np nc nt,
    chan g p c src sp ss np nc nt t (q ++ toks) (t + Z.of_nat (length q)) (t + Z.of_nat (length q)) t t m.
Proof.
  intros (Hc & HP & HC & Hq & Hh) Hsb. connected_facts Hc.
  destruct Hpsl as (np & ?), Hcsl as (nc & ?), (tb_slot _ _ _ Hptb) as (nt & ?). exists np, nc, nt.
  destruct Hsizes as (? & ? & ?). split; try done; [rewrite length_app; lia|]. intros i Hi.
  destruct (lookup_lt_is_Some_2 q (Z.to_nat (i - t))) as [tok E]; [lia|].
  rewrite lookup_app_l, E by lia. rewrite <- (Hh _ _ E). f_equal. lia.
Qed.

Lemma holds_tokens_sizes g m t q :
  holds_tokens g m t q -> Forall (fun tok => Z.of_nat (length tok) = gTokenSize g) q.
Proof. intros Hh. apply Forall_lookup_2. intros i tok Hi. by apply Hh, mem_load_length in Hi as [? _]. Qed.

(** C1: a producer that sends [toks] and a consumer that receives everything,
    interleaved in any way: neither throws nor crashes; the consumer's result
    is what was in the channel followed by what was sent, in order; the two are
    never stuck before both have finished; and the end can always be reached. *)
Theorem spsc_concurrent g p c src sp ss m t q toks polls polls' ps m' :
  channel_rep g p c m t q -> send_buffer g src sp ss m ->
  Forall (fun tok => Z.of_nat (length tok) = gTokenSize g) toks ->
  t + Z.of_nat (length q + length toks) < SIZE_BOUND ->
  pool_steps ([Threads.produce polls p src toks; Threads.consume polls' c (length q + length toks)], m) (ps, m') ->
  (forall i e x, ps !! i <> Some (Raise e) /\ ps !! i <> Some (Crash x)) /\
  (forall r, ps !! 1%nat = Some (Ret r) -> r = q ++ toks) /\
  ((forall st, ~ pool_step (ps, m') st) -> ps = [Ret []; Ret (q ++ toks)]) /\
  (exists m'', pool_steps (ps, m') ([Ret []; Ret (q ++ toks)], m'') /\
     channel_rep g p c m'' (t + Z.of_nat (length q + length toks)) []).
Proof.
  intros Hrep Hsb Htoks Hb Hsteps. destruct (chan_start g p c src sp ss m t q toks Hrep Hsb) as (np & nc & nt & Hch).
  assert (Hall : Forall (fun tok => Z.of_nat (length tok) = gTokenSize g) (q ++ toks)).
  { apply Forall_app. split; [|done]. eapply holds_tokens_sizes. apply Hrep. }
  rewrite <- length_app in Hb |- *.
  pose proof (threads_start _ _ _ _ _ _ _ _ _ _ _ Hall Hb q toks polls polls' m eq_refl Hch) as HI.
  pose proof (fun Hc => pool_safe_steps _ _ _ _ _ _ Hc HI Hsteps) as HI'. specialize (HI' (threads_compatible _ _ _ _ _ _ _ _ _ _ _)).
  destruct (threads_outcome _ _ _ _ _ _ _ _ _ _ _ ps m' (pool_steps_length _ _ _ _ Hsteps) HI') as (? & ? & ? & m2 & Hs2 & Hch2).
  split_and!; [done..|]. exists m2. split; [done|]. destruct (chan_sizes _ _ _ _ _ _ _ _ _ _ _ _ _ _ _ _ Hch2) as (_ & ? & _).
  unfold channel_rep. cbn [length]. rewrite Z.add_0_r. split_and!; [apply Hch2..|cbn; lia|done].
Qed.

End Theorem_.

(** ** A concrete interleaving *)

Module ConcurrentDemo.

(** Both threads of a channel of capacity three, taken in turn. *)
Definition pool : list (prog (Machine Core.t) (list (list byte))) :=
  [Threads.produce 0 Demo.producer 3 [[x01; x02]; [x03; x04]]; Threads.consume 0 Demo.consumer 2].

(** The two threads take turns; the consumer sleeps until the first token is
    there, and again until the second one is. *)
Example interleaved :
  fst <$> schedule (replicate 29 0%nat ++ concat (replicate 24 [1; 0]%nat) ++ replicate 9 0%nat ++ concat (replicate 4 [1; 0]%nat) ++
                    replicate 20 1%nat) pool Demo.machine = Some [Ret []; Ret [[x01; x02]; [x03; x04]]].
Proof. vm_compute. reflexivity. Qed.

Lemma spsc_concurrent_witness :
  exists m, pool_steps (pool, Demo.machine) ([Ret []; Ret [[x01; x02]; [x03; x04]]], m) /\
    channel_rep Demo.geom Demo.producer Demo.consumer m 2 [].
Proof.
  refine (proj2 (proj2 (proj2 (spsc_concurrent Demo.geom Demo.producer Demo.consumer 3 (Ptr 3 0) 4 Demo.machine 0 []
            [[x01; x02]; [x03; x04]] 0 0 _ _ Demo.rep_demo Demo.send_buffer_demo _ _ (rtc_refl _ _))))); [|by vm_compute].
  by repeat constructor.
Defined.

End ConcurrentDemo.
