(* ===== verification/FixedMPSC.v ===== *)
(** * The fixed-size multiple-producer single-consumer channel, locking version

    Models [frontends/channel/fixedSize/mpsc/locking/producer.hpp] and
    [consumer.hpp].  The only shared counters are those of the consumer's
    coordination buffer; an endpoint takes the lock of that buffer's global slot
    (and gives up when it is held), a producer refreshes its private copy of
    the counters, and writes it back after copying its tokens. *)

From S2P Require Import Prelude Memory CommunicationManager CircularBuffer Channel TokenBuffer.
From Stdlib Require Import ZArith Lia.
From stdpp Require Import base list gmap option.

Local Open Scope Z_scope.
Local Open Scope hicr_scope.

Module LockingProducer.

Record t : Type := mk {
  base : Base.t;
  _tokenBuffer : nat;
  _consumerCoordinationBuffer : nat
}.

Section Operations.
Context {X : Type} {B : CommBackend X}.

Definition ccm (p : t) : nat := Base._coordinationCommunicationManager (base p).
Definition pcm (p : t) : nat := Base._payloadCommunicationManager (base p).
Definition circular (p : t) : CircularBuffer.t := Base._circularBuffer (base p).
Definition coordination (p : t) : nat := Base._coordinationBuffer (base p).

Definition make (ccm pcm tokenBuffer internalCoordinationBuffer consumerCoordinationBuffer : nat)
    (tokenSize capacity : Z) : prog (Machine X) t :=
  b ← Base.make ccm pcm internalCoordinationBuffer tokenSize capacity;
  mret (mk b tokenBuffer consumerCoordinationBuffer).

(** The copies of the [n] tokens, each to the head position, which is then advanced. *)
Definition copy_tokens (p : t) (sourceSlot : nat) (n : Z) : prog (Machine X) unit :=
  let tokenSize := Base.getTokenSize (base p) in
  for_loop (Z.to_nat n) 0 (fun i =>
    pos ← CircularBuffer.getHeadPosition (circular p);
    _ ← CommunicationManager.memcpyGL (pcm p) (_tokenBuffer p) (tokenSize *w pos)
          sourceSlot (i *w tokenSize) tokenSize;
    CircularBuffer.advanceHead (circular p) 1).

(** The critical section of a push: its result is the success flag. *)
Definition push_locked (p : t) (sourceSlot : nat) (n : Z) : prog (Machine X) bool :=
  _ ← CommunicationManager.memcpyLG (ccm p) (coordination p) 0 (_consumerCoordinationBuffer p) 0
        Base.getCoordinationBufferSize;
  _ ← CommunicationManager.fenceLocal (ccm p) (coordination p) 0 1;
  depth ← Base.getDepth (base p);
  if depth +w n <=? CircularBuffer.getCapacity (circular p)
  then _ ← copy_tokens p sourceSlot n;
       _ ← CommunicationManager.fenceLocal (pcm p) sourceSlot n 0;
       _ ← CommunicationManager.memcpyGL (ccm p) (_consumerCoordinationBuffer p) 0 (coordination p) 0
             Base.getCoordinationBufferSize;
       _ ← CommunicationManager.fenceLocal (ccm p) (coordination p) 1 0;
       mret true
  else mret false.

Definition push (p : t) (sourceSlot : nat) (n : Z) : prog (Machine X) bool :=
  let requiredBufferSize := Base.getTokenSize (base p) *w n in
  providedBufferSize ← getSize sourceSlot;
  _ ← throw_if (providedBufferSize <? requiredBufferSize) logic;
  acquired ← CommunicationManager.acquireGlobalLock (ccm p) (_consumerCoordinationBuffer p);
  if negb acquired then mret false else
  successFlag ← push_locked p sourceSlot n;
  _ ← CommunicationManager.releaseGlobalLock (ccm p) (_consumerCoordinationBuffer p);
  mret successFlag.

End Operations.
End LockingProducer.

Module LockingConsumer.

Record t : Type := mk {
  base : Base.t;
  _tokenBuffer : nat;
  _consumerCoordinationBuffer : nat
}.

Section Operations.
Context {X : Type} {B : CommBackend X}.

Definition ccm (c : t) : nat := Base._coordinationCommunicationManager (base c).
Definition pcm (c : t) : nat := Base._payloadCommunicationManager (base c).
Definition circular (c : t) : CircularBuffer.t := Base._circularBuffer (base c).
Definition coordination (c : t) : nat := Base._coordinationBuffer (base c).

Definition make (ccm pcm tokenBuffer internalCoordinationBuffer consumerCoordinationBuffer : nat)
    (tokenSize capacity : Z) : prog (Machine X) t :=
  b ← Base.make ccm pcm internalCoordinationBuffer tokenSize capacity;
  mret (mk b tokenBuffer consumerCoordinationBuffer).

(** The critical sections of a peek and of a pop. *)
Definition peek_locked (c : t) (pos : Z) : prog (Machine X) Z :=
  _ ← flushReceived (ccm c);
  _ ← flushReceived (pcm c);
  curDepth ← Base.getDepth (base c);
  if pos <? curDepth
  then tail ← CircularBuffer.getTailPosition (circular c);
       r ← CircularBuffer.size_mod (tail +w pos) (CircularBuffer.getCapacity (circular c));
       mret (to_ssize r)
  else mret (-1).

Definition pop_locked (c : t) (n : Z) : prog (Machine X) bool :=
  depth ← Base.getDepth (base c);
  if n <=? depth
  then _ ← CircularBuffer.advanceTail (circular c) n; mret true
  else mret false.

(** [-1] stands for a refusal. *)
Definition peek (c : t) (pos : Z) : prog (Machine X) Z :=
  _ ← throw_if (pos >=? CircularBuffer.getCapacity (circular c)) logic;
  acquired ← CommunicationManager.acquireGlobalLock (ccm c) (_consumerCoordinationBuffer c);
  if negb acquired then mret (-1) else
  bufferPos ← peek_locked c pos;
  _ ← CommunicationManager.releaseGlobalLock (ccm c) (_consumerCoordinationBuffer c);
  mret bufferPos.

Definition pop (c : t) (n : Z) : prog (Machine X) bool :=
  _ ← throw_if (n >? CircularBuffer.getCapacity (circular c)) logic;
  acquired ← CommunicationManager.acquireGlobalLock (ccm c) (_consumerCoordinationBuffer c);
  if negb acquired then mret false else
  successFlag ← pop_locked c n;
  _ ← CommunicationManager.releaseGlobalLock (ccm c) (_consumerCoordinationBuffer c);
  mret successFlag.

Definition getTokenBuffer (c : t) : nat := _tokenBuffer c.

End Operations.
End LockingConsumer.

(** ** The representation of the channel *)

(** The buffers of the consumer. *)
Record mpsc_geometry : Type := mkMpscGeometry {
  mgBuffer :> token_buffer;
  mgConsumer : ptr
}.

Section Representation.
Context {X : Type} {B : CommBackend X}.

(** The consumer endpoint is built over the buffers of [g]. *)
Record consumer_ok (g : mpsc_geometry) (c : LockingConsumer.t) (m : Machine X) : Prop := mkConsumerOk {
  mc_token : Base._tokenSize (LockingConsumer.base c) = gTokenSize g;
  mc_circular : LockingConsumer.circular c = Base.circular_buffer_at (gCapacity g) (mgConsumer g);
  mc_slot : exists n, 16 <= n /\ slot_at m (LockingConsumer.coordination c) (mgConsumer g) n;
  mc_tokens : is_token_buffer g (LockingConsumer._tokenBuffer c) m;
  mc_backed : backed_by m (LockingConsumer._consumerCoordinationBuffer c) (LockingConsumer.coordination c);
  mc_registered : registered m (LockingConsumer.ccm c) (LockingConsumer._consumerCoordinationBuffer c);
  mc_disj : disjoint_ranges (mgConsumer g) 16 (gTokens g) (gTokenSize g * gCapacity g)
}.

(** The producer [p], whose private counters are at [pp], is attached to it.
    What its counters hold does not matter: they are refreshed under the lock. *)
Record attached (g : mpsc_geometry) (c : LockingConsumer.t) (pp : ptr) (p : LockingProducer.t) (m : Machine X) :
    Prop := mkAttached {
  mp_token : Base._tokenSize (LockingProducer.base p) = gTokenSize g;
  mp_circular : LockingProducer.circular p = Base.circular_buffer_at (gCapacity g) pp;
  mp_slot : exists n, 16 <= n /\ slot_at m (LockingProducer.coordination p) pp n;
  mp_access : accessible (heap m) pp 16;
  mp_tokens : is_token_buffer g (LockingProducer._tokenBuffer p) m;
  mp_coordination : LockingProducer._consumerCoordinationBuffer p = LockingConsumer._consumerCoordinationBuffer c;
  mp_registered : registered m (LockingProducer.ccm p) (LockingConsumer._consumerCoordinationBuffer c);
  mp_disj_c : disjoint_ranges pp 16 (mgConsumer g) 16;
  mp_disj_t : disjoint_ranges pp 16 (gTokens g) (gTokenSize g * gCapacity g)
}.

(** The tokens [q] are in the channel, the oldest at index [t]. *)
Definition mpsc_content (g : mpsc_geometry) (c : LockingConsumer.t) (m : Machine X)
    (t : Z) (q : list (list byte)) : Prop :=
  consumer_ok g c m /\
  cb_at (Base.circular_buffer_at (gCapacity g) (mgConsumer g)) (t + Z.of_nat (length q)) t m /\
  Z.of_nat (length q) <= gCapacity g /\
  holds_tokens g m t q.

(** Between operations the lock is free. *)
Definition lock_free (c : LockingConsumer.t) (m : Machine X) : Prop :=
  locked (backend m) (LockingConsumer._consumerCoordinationBuffer c) = Some false.

(** The tokens of a source buffer at [sp]. *)
Definition source_tokens (g : token_buffer) (m : Machine X) (sp : ptr) (toks : list (list byte)) : Prop :=
  forall i tok, toks !! i = Some tok ->
    mem_load (heap m) (ptr_add sp (Z.of_nat i * gTokenSize g)) (gTokenSize g) = Some tok.

End Representation.

(** What a push may write. *)
Abbreviation mpsc_footprint g pp := [token_range g; (pp, 16); (mgConsumer g, 16)] (only parsing).

(** ** Helper lemmas *)

Section Facts.
Context {X : Type} {B : CommBackend X} `{!CommSpec X}.
Implicit Types m : Machine X.

Lemma consumer_ok_writes R g c m m' : writes R m m' -> consumer_ok g c m -> consumer_ok g c m'.
Proof.
  intros W []. split; try done; try (by eapply is_token_buffer_writes);
    rewrite ?(writes_backed_by _ _ _ _ _ W), ?(writes_registered _ _ _ _ _ W); try done.
  by setoid_rewrite (writes_slot_at _ _ _ _ _ _ W).
Qed.

Lemma attached_writes R g c pp p m m' : writes R m m' -> attached g c pp p m -> attached g c pp p m'.
Proof.
  intros W []. split; try done; try (by eapply is_token_buffer_writes);
    rewrite ?(writes_backed_by _ _ _ _ _ W), ?(writes_registered _ _ _ _ _ W), ?(writes_accessible _ _ _ _ _ W); try done.
  by setoid_rewrite (writes_slot_at _ _ _ _ _ _ W).
Qed.

(** The lock is not part of what the endpoints are built over. *)
Lemma is_token_buffer_backend b g tb m : is_token_buffer g tb m -> is_token_buffer g tb (set_backend b m).
Proof. intros []. by split. Qed.

Lemma consumer_ok_backend b g c m : consumer_ok g c m -> consumer_ok g c (set_backend b m).
Proof. intros []. split; try done. by apply is_token_buffer_backend. Qed.

Lemma attached_backend b g c pp p m : attached g c pp p m -> attached g c pp p (set_backend b m).
Proof. intros []. split; try done. by apply is_token_buffer_backend. Qed.

Lemma mpsc_content_backend b g c m t q : mpsc_content g c m t q -> mpsc_content g c (set_backend b m) t q.
Proof. intros (Hc & HC & Hlen & Hh). split_and!; [by apply consumer_ok_backend|done..]. Qed.

Lemma mpsc_content_writes R g c m m' t q :
  mpsc_content g c m t q -> writes R m m' -> apart R (mgConsumer g) 16 ->
  apart R (gTokens g) (gTokenSize g * gCapacity g) -> mpsc_content g c m' t q.
Proof.
  intros (Hc & HC & Hlen & Hh) W ??. split_and!; [by eapply consumer_ok_writes|by eapply cb_at_writes|done|].
  eapply holds_tokens_writes; [apply (tb_sizes _ _ _ (mc_tokens _ _ _ Hc))|done..].
Qed.

(** One token is copied and the head advanced. *)
Lemma run_copy_one g c pp p m src sp ss i t q tok :
  attached g c pp p m ->
  cb_at (Base.circular_buffer_at (gCapacity g) pp) (t + Z.of_nat (length q)) t m ->
  slot_at m src sp ss -> ss <= PTRDIFF_MAX -> 0 <= i -> gTokenSize g + i * gTokenSize g <= ss ->
  mem_load (heap m) (ptr_add sp (i * gTokenSize g)) (gTokenSize g) = Some tok ->
  Z.of_nat (length q) < gCapacity g -> t + Z.of_nat (length q) + 1 < SIZE_BOUND ->
  holds_tokens g m t q ->
  exists m',
    run (pos ← CircularBuffer.getHeadPosition (LockingProducer.circular p);
         _ ← CommunicationManager.memcpyGL (LockingProducer.pcm p) (LockingProducer._tokenBuffer p)
               (Base.getTokenSize (LockingProducer.base p) *w pos) src
               (i *w Base.getTokenSize (LockingProducer.base p)) (Base.getTokenSize (LockingProducer.base p));
         CircularBuffer.advanceHead (LockingProducer.circular p) 1) m = Done tt m' /\
    writes [token_range g; (pp, 16)] m m' /\
    cb_at (Base.circular_buffer_at (gCapacity g) pp) (t + Z.of_nat (length (q ++ [tok]))) t m' /\
    holds_tokens g m' t (q ++ [tok]).
Proof.
  intros [Htk Hcb _ _ Htb _ _ _ Hdt] HP Hs ??? HL ?? Hh. pose proof (tb_sizes _ _ _ Htb) as Hsz.
  pose proof (capacity_bound _ Hsz). pose proof Hsz as (Ht & Hcap & _).
  unfold Base.getTokenSize. rewrite Htk, Hcb. rewrite (wrap64_small (i * gTokenSize g)) by size_lia.
  destruct (mem_load_length _ _ _ _ HL) as [Hl _].
  destruct (run_copy_token (LockingProducer.pcm p) g _ m src sp ss (i * gTokenSize g) _ _ tok pp Htb HP Hs)
    as (m1 & E1 & St1); try done; try nia; [size_lia|].
  pose proof (stored_token_writes _ _ _ _ _ Hsz Hl St1) as W1.
  destruct (run_advanceHead_at (gCapacity g) pp (t + Z.of_nat (length q)) t m1 1) as (m2 & E2 & W2 & HP2);
    [eapply cb_at_writes; eauto with hicr|size_lia..|].
  exists m2. split_and!.
  - rewrite run_bind in E1 |- *. destruct (run _ m) as [pos m0|?|?|?]; try done.
    by rewrite run_bind, E1.
  - writes_by W1 W2.
  - rewrite length_app. cbn [length]. by replace (t + Z.of_nat (length q + 1)) with (t + Z.of_nat (length q) + 1) by lia.
  - eapply holds_tokens_writes; [done|exact W2|eauto with hicr|]. by eapply holds_tokens_push.
Qed.

(** The loop of a push appends all the tokens of the source. *)
Lemma run_copy_tokens g c pp p m src sp ss t q toks :
  attached g c pp p m ->
  cb_at (Base.circular_buffer_at (gCapacity g) pp) (t + Z.of_nat (length q)) t m ->
  slot_at m src sp ss -> ss <= PTRDIFF_MAX -> gTokenSize g * Z.of_nat (length toks) <= ss ->
  disjoint_ranges sp ss pp 16 -> disjoint_ranges sp ss (gTokens g) (gTokenSize g * gCapacity g) ->
  source_tokens g m sp toks ->
  Z.of_nat (length q) + Z.of_nat (length toks) <= gCapacity g ->
  t + Z.of_nat (length q) + Z.of_nat (length toks) < SIZE_BOUND -> holds_tokens g m t q ->
  exists m', run (LockingProducer.copy_tokens p src (Z.of_nat (length toks))) m = Done tt m' /\
    writes [token_range g; (pp, 16)] m m' /\
    cb_at (Base.circular_buffer_at (gCapacity g) pp) (t + Z.of_nat (length (q ++ toks))) t m' /\
    holds_tokens g m' t (q ++ toks).
Proof.
  intros Ha HP Hs Hss Hn Dsp Dst Hsrc Hroom Hov Hh.
  set (I := fun i (u : Machine X) => writes [token_range g; (pp, 16)] m u /\
    cb_at (Base.circular_buffer_at (gCapacity g) pp) (t + Z.of_nat (length (q ++ take (Z.to_nat i) toks))) t u /\
    holds_tokens g u t (q ++ take (Z.to_nat i) toks)).
  unfold LockingProducer.copy_tokens. cbv zeta. rewrite Nat2Z.id.
  edestruct (run_for_loop_inv I) as (m' & E & HI); cycle 2.
  - exists m'. split; [exact E|]. unfold I in HI.
    rewrite Z.add_0_l, Nat2Z.id, firstn_all in HI. exact HI.
  - split_and!; [apply rtc_refl|by rewrite app_nil_r..].
  - intros i u Hi (Wu & HPu & Hhu).
    destruct (lookup_lt_is_Some_2 toks (Z.to_nat i)) as [tok Htok]; [lia|].
    specialize (Hsrc _ _ Htok). rewrite Z2Nat.id in Hsrc by lia.
    pose proof (tb_sizes _ _ _ (mp_tokens _ _ _ _ _ Ha)) as (? & ? & _).
    assert (Hlen : length (q ++ take (Z.to_nat i) toks) = (length q + Z.to_nat i)%nat)
      by (rewrite length_app, length_take; lia).
    destruct (run_copy_one g c pp p u src sp ss i t (q ++ take (Z.to_nat i) toks) tok)
      as (u' & Eu & Wu' & HPu' & Hhu');
      [by eapply attached_writes|done|by apply (writes_slot_at _ _ _ _ _ _ Wu)|done|lia|nia| |lia|lia|done|].
    { rewrite (writes_load _ _ _ _ _ Wu); [done|]. eapply apart_sub; [eauto with hicr|nia..]. }
    exists u'. split; [exact Eu|]. rewrite <- app_assoc, <- (take_S_r _ _ _ Htok) in HPu', Hhu'.
    unfold I. replace (Z.to_nat (i + 1)) with (S (Z.to_nat i)) by lia.
    split_and!; [writes_by Wu Wu'|done..].
Qed.

(** ** The critical sections *)

Lemma run_push_locked g c pp p m src sp ss t q toks :
  mpsc_content g c m t q -> attached g c pp p m ->
  slot_at m src sp ss -> gTokenSize g * Z.of_nat (length toks) <= ss <= PTRDIFF_MAX ->
  disjoint_ranges sp ss pp 16 -> disjoint_ranges sp ss (gTokens g) (gTokenSize g * gCapacity g) ->
  source_tokens g m sp toks -> t + Z.of_nat (length q) + Z.of_nat (length toks) < SIZE_BOUND ->
  exists m', let fits := Z.of_nat (length q) + Z.of_nat (length toks) <=? gCapacity g in
    run (LockingProducer.push_locked p src (Z.of_nat (length toks))) m = Done fits m' /\
    writes (mpsc_footprint g pp) m m' /\ mpsc_content g c m' t (if fits then q ++ toks else q).
Proof.
  intros (Hc & HC & Hlen & Hh) Ha Hs Hss Dsp Dst Hsrc Hov.
  pose proof Hc as [Htc _ (nc & ? & Hsc) _ Hbc _ Hdc].
  pose proof Ha as [Htp Hcb (np & ? & Hsp) Hacc Htb Heq _ Hdc' Hdt]. pose proof (tb_sizes _ _ _ Htb) as Hsz.
  pose proof (capacity_bound _ Hsz). pose proof Hsz as (Ht & Hcap & Hmul).
  unfold LockingProducer.push_locked, Base.getDepth.
  change (Base._circularBuffer (LockingProducer.base p)) with (LockingProducer.circular p).
  rewrite Heq, Hcb. cbn [CircularBuffer.getCapacity CircularBuffer._capacity Base.circular_buffer_at].
  destruct (run_fetch_counters (LockingProducer.ccm p) (LockingConsumer._consumerCoordinationBuffer c)
              (LockingConsumer.coordination c) (LockingProducer.coordination p) m (mgConsumer g) nc pp np
              (gCapacity g) (gCapacity g) _ _ Hbc Hsc Hsp ltac:(done) ltac:(done) HC Hacc) as (m1 & E1 & W1 & HP1).
  rewrite (run_bind_Done _ _ _ _ _ E1).
  rewrite (run_bind_Done _ _ _ _ _ (fenceImplLocal_ok _ _ 0 1 m1)).
  rewrite (run_bind_Done _ _ _ _ _ (run_getDepth_ok _ _ _ _ HP1 ltac:(lia))).
  replace (t + Z.of_nat (length q) - t) with (Z.of_nat (length q)) by lia.
  assert (Hc1 : mpsc_content g c m1 t q) by (eapply mpsc_content_writes; [by split_and!|eauto with hicr..]).
  assert (Z.of_nat (length toks) <= ss) by nia. rewrite wrap64_small by size_lia. case_bool; cycle 1.
  { exists m1. split_and!; [done|writes_by W1|done]. }
  destruct Hc1 as (Hok1 & HC1 & _ & Hh1).
  destruct (run_copy_tokens g c pp p m1 src sp ss t q toks) as (m2 & E2 & W2 & HP2 & Hh2);
    [by eapply attached_writes|done|by apply (writes_slot_at _ _ _ _ _ _ W1)|lia|lia|done|done| |lia|lia|done|].
  { intros i tok Hi. rewrite (writes_load _ _ _ _ _ W1); [by apply Hsrc|].
    pose proof (lookup_lt_Some _ _ _ Hi). eapply apart_sub; [eauto with hicr|nia..]. }
  rewrite (run_bind_Done _ _ _ _ _ E2), (run_bind_Done _ _ _ _ _ (fenceImplLocal_ok _ _ _ _ m2)).
  pose proof (writes_trans _ _ _ _ (writes_mono _ [token_range g; (pp, 16)] _ _ W1 ltac:(auto with hicr)) W2) as W12.
  destruct (run_send_counters (LockingProducer.ccm p) (LockingConsumer._consumerCoordinationBuffer c)
              (LockingConsumer.coordination c) (LockingProducer.coordination p) m2 (mgConsumer g) nc pp np
              (gCapacity g) (gCapacity g) _ _
              ltac:(by apply (writes_backed_by _ _ _ _ _ W12)) ltac:(by apply (writes_slot_at _ _ _ _ _ _ W12))
              ltac:(by apply (writes_slot_at _ _ _ _ _ _ W12)) ltac:(done) ltac:(done) HP2
              ltac:(apply (writes_accessible _ _ _ _ _ W12); by eapply cb_at_accessible)) as (m3 & E3 & W3 & HC3).
  exists m3. split_and!.
  - rewrite (run_bind_Done _ _ _ _ _ E3). by rewrite (run_bind_Done _ _ _ _ _ (fenceImplLocal_ok _ _ _ _ m3)).
  - writes_by W12 W3.
  - split_and!; [eapply consumer_ok_writes; [exact W3|]; by eapply consumer_ok_writes|done|rewrite length_app; lia|].
    eapply holds_tokens_writes; [done|exact W3|eauto with hicr|done].
Qed.

End Facts.
