(* ===== verification/FixedMPSCSpec.v ===== *)
(** * The locking MPSC channel is a bounded FIFO queue with many producers

    The theorems of [FixedMPSC.v]: the behaviour of [push], [peek] and [pop] on
    every branch, a held lock included; a push of several tokens appends them
    all; and a refinement theorem from traces of any number of producers and
    one consumer to an abstract bounded queue. *)

From S2P Require Import Prelude Memory CommunicationManager Pthreads CircularBuffer Channel TokenBuffer FixedMPSC.
From Stdlib Require Import ZArith Lia.
From Stdlib.Strings Require Import Byte.
From stdpp Require Import base list gmap option.

Local Open Scope Z_scope.
Local Open Scope hicr_scope.

(** ** The abstract specification *)

Module MultiQueue.

Inductive op : Type :=
| Send (producer : nat) (tok : list byte)
| Receive.

Inductive result : Type :=
| Sent
| Rejected
| Received (tok : list byte)
| Nothing
| Broken.

(** Whoever sends, the token goes to the back of the one queue. *)
Definition step (capacity : Z) (q : list (list byte)) (o : op) : list (list byte) * result :=
  match o with
  | Send _ tok => if Z.of_nat (length q) + 1 <=? capacity then (q ++ [tok], Sent) else (q, Rejected)
  | Receive => match q with [] => (q, Nothing) | tok :: q' => (q', Received tok) end
  end.

Fixpoint steps (capacity : Z) (q : list (list byte)) (l : list op) : list (list byte) * list result :=
  match l with
  | [] => (q, [])
  | o :: l' =>
      let '(q', r) := step capacity q o in
      let '(q'', rs) := steps capacity q' l' in (q'', r :: rs)
  end.

End MultiQueue.

(** ** The clients *)

Module LockingClient.
Section Client.
Context {X : Type} {B : CommBackend X}.

Definition send (p : LockingProducer.t) (src : nat) (tok : list byte) : prog (Machine X) bool :=
  dst ← getPointer src;
  _ ← update (fun m => h ← mem_store (heap m) dst tok; Some (set_heap h m));
  LockingProducer.push p src 1.

Definition receive (c : LockingConsumer.t) : prog (Machine X) (option (list byte)) :=
  pos ← LockingConsumer.peek c 0;
  if pos <? 0 then mret None else
  src ← getSourceLocalMemorySlot (LockingConsumer.getTokenBuffer c);
  match src with
  | None => Crash undefined
  | Some l =>
      tokens ← getPointer l;
      let tokenSize := Base.getTokenSize (LockingConsumer.base c) in
      tok ← read_bytes (ptr_add tokens (tokenSize * pos)) tokenSize;
      popped ← LockingConsumer.pop c 1;
      mret (if popped : bool then Some tok else None)
  end.

Definition exec (ps : list (LockingProducer.t * nat)) (c : LockingConsumer.t) (m : Machine X) (o : MultiQueue.op) :
    Machine X * MultiQueue.result :=
  match o with
  | MultiQueue.Send i tok =>
      match ps !! i with
      | None => (m, MultiQueue.Broken)
      | Some (p, src) =>
          match run (send p src tok) m with
          | Done b m' => (m', if b : bool then MultiQueue.Sent else MultiQueue.Rejected)
          | Thrown _ m' | Crashed _ m' | Blocked m' => (m', MultiQueue.Broken)
          end
      end
  | MultiQueue.Receive =>
      match run (receive c) m with
      | Done (Some tok) m' => (m', MultiQueue.Received tok)
      | Done None m' => (m', MultiQueue.Nothing)
      | Thrown _ m' | Crashed _ m' | Blocked m' => (m', MultiQueue.Broken)
      end
  end.

Fixpoint exec_all (ps : list (LockingProducer.t * nat)) (c : LockingConsumer.t) (m : Machine X)
    (l : list MultiQueue.op) : Machine X * list MultiQueue.result :=
  match l with
  | [] => (m, [])
  | o :: l' =>
      let '(m', r) := exec ps c m o in
      let '(m'', rs) := exec_all ps c m' l' in (m'', r :: rs)
  end.

End Client.
End LockingClient.

(** The source slot of a producer, apart from the buffers of the channel. *)
Record source_ok {X : Type} (g : mpsc_geometry) (pp : ptr) (src : nat) (sp : ptr) (ss : Z) (m : Machine X) :
    Prop := mkSourceOk {
  so_slot : slot_at m src sp ss;
  so_size : gTokenSize g <= ss <= PTRDIFF_MAX;
  so_access : accessible (heap m) sp ss;
  so_producer : disjoint_ranges sp ss pp 16;
  so_consumer : disjoint_ranges sp ss (mgConsumer g) 16;
  so_tokens : disjoint_ranges sp ss (gTokens g) (gTokenSize g * gCapacity g)
}.

(** Every producer of the list is attached and has a source slot. *)
Definition producers_ok {X : Type} (g : mpsc_geometry) (c : LockingConsumer.t)
    (ps : list (LockingProducer.t * nat)) (m : Machine X) : Prop :=
  forall i p src, ps !! i = Some (p, src) ->
    exists pp sp ss, attached g c pp p m /\ source_ok g pp src sp ss m.

(** The operations of a trace name existing producers and tokens of the right size. *)
Definition mop_fits (g : mpsc_geometry) (ps : list (LockingProducer.t * nat)) (o : MultiQueue.op) : Prop :=
  match o with
  | MultiQueue.Send i tok => (i < length ps)%nat /\ Z.of_nat (length tok) = gTokenSize g
  | MultiQueue.Receive => True
  end.

(** A trace tries to send at most as many tokens as it has operations. *)
Definition mpsc_rep {X : Type} {B : CommBackend X} (g : mpsc_geometry) (c : LockingConsumer.t) (m : Machine X)
    (t : Z) (q : list (list byte)) : Prop :=
  mpsc_content g c m t q /\ lock_free c m.

(** ** Helper lemmas *)

Section Facts.
Context {X : Type} {B : CommBackend X} `{!CommSpec X}.
Implicit Types m : Machine X.

Lemma lock_free_writes R c m m' : writes R m m' -> lock_free c m -> lock_free c m'.
Proof. intros W. unfold lock_free. by rewrite (writes_backend _ _ _ W). Qed.

Lemma source_ok_writes R g pp src sp ss m m' : writes R m m' -> source_ok g pp src sp ss m -> source_ok g pp src sp ss m'.
Proof.
  intros W []. split; try done; by rewrite ?(writes_slot_at _ _ _ _ _ _ W), ?(writes_accessible _ _ _ _ _ W).
Qed.

Lemma producers_ok_writes R g c ps m m' : writes R m m' -> producers_ok g c ps m -> producers_ok g c ps m'.
Proof.
  intros W Hp i p src Hi. destruct (Hp _ _ _ Hi) as (pp & sp & ss & Ha & Hs).
  exists pp, sp, ss. split; [by eapply attached_writes|by eapply source_ok_writes].
Qed.

(** The check of the source size, then the critical section. *)
Lemma run_push_mpsc g c pp p m src sp ss t q toks :
  mpsc_rep g c m t q -> attached g c pp p m ->
  slot_at m src sp ss -> gTokenSize g * Z.of_nat (length toks) <= ss <= PTRDIFF_MAX ->
  disjoint_ranges sp ss pp 16 -> disjoint_ranges sp ss (gTokens g) (gTokenSize g * gCapacity g) ->
  source_tokens g m sp toks -> t + Z.of_nat (length q) + Z.of_nat (length toks) < SIZE_BOUND ->
  exists m', let fits := Z.of_nat (length q) + Z.of_nat (length toks) <=? gCapacity g in
    run (LockingProducer.push p src (Z.of_nat (length toks))) m = Done fits m' /\
    writes (mpsc_footprint g pp) m m' /\ mpsc_rep g c m' t (if fits then q ++ toks else q).
Proof.
  intros [Hcon Hfree] Ha Hs Hss Dsp Dst Hsrc Hov. pose proof (tb_sizes _ _ _ (mp_tokens _ _ _ _ _ Ha)) as (? & ? & _).
  destruct (run_push_locked g c pp p (set_backend (lock_slot (LockingConsumer._consumerCoordinationBuffer c) (backend m)) m)
              src sp ss t q toks) as (m1 & E1 & W1 & Hcon1);
    try done; [by apply mpsc_content_backend|by apply attached_backend|].
  unfold LockingProducer.push, Base.getTokenSize. cbv zeta.
  rewrite (mp_token _ _ _ _ _ Ha), (mp_coordination _ _ _ _ _ Ha).
  rewrite (run_bind_Done _ _ _ _ _ (run_getSize _ _ _ _ Hs)).
  erewrite run_bind_Done by (apply run_throw_if_false; rewrite wrap64_small by size_lia; case_bool; lia).
  destruct (run_critical (LockingProducer.ccm p) (LockingConsumer._consumerCoordinationBuffer c)
              (LockingProducer.push_locked p src (Z.of_nat (length toks))) false _ m _ _
              (mp_registered _ _ _ _ _ Ha) Hfree E1 W1) as [E W].
  exists (set_backend (backend m) m1). split_and!; [exact E|exact W|].
  split; [by apply mpsc_content_backend|by eapply lock_free_writes].
Qed.

(** The depth the consumer sees. *)
Lemma run_depth_mpsc g c m t q :
  mpsc_content g c m t q -> run (Base.getDepth (LockingConsumer.base c)) m = Done (Z.of_nat (length q)) m.
Proof.
  intros (Hc & HC & _). unfold Base.getDepth.
  change (Base._circularBuffer _) with (LockingConsumer.circular c). rewrite (mc_circular _ _ _ Hc).
  rewrite (run_getDepth_ok _ _ _ _ HC) by lia. f_equal. lia.
Qed.

(** Where the token at [pos] is, once the counters are up to date. *)
Lemma run_peek_position g c m t q pos :
  mpsc_content g c m t q -> 0 <= pos < gCapacity g ->
  run (curDepth ← Base.getDepth (LockingConsumer.base c);
       if pos <? curDepth
       then tail ← CircularBuffer.getTailPosition (LockingConsumer.circular c);
            r ← CircularBuffer.size_mod (tail +w pos) (CircularBuffer.getCapacity (LockingConsumer.circular c));
            mret (to_ssize r)
       else mret (-1)) m = Done (if pos <? Z.of_nat (length q) then (t + pos) mod gCapacity g else -1) m.
Proof.
  intros Hcon Hp. pose proof Hcon as (Hc & HC & Hlen & _). pose proof (tb_sizes _ _ _ (mc_tokens _ _ _ Hc)) as Hsz.
  pose proof (capacity_bound _ Hsz). destruct Hsz as (? & Hcap & _).
  rewrite (run_bind_Done _ _ _ _ _ (run_depth_mpsc g c m t q Hcon)).
  case_bool; [|done]. rewrite (mc_circular _ _ _ Hc).
  rewrite (run_bind_Done _ _ _ _ _ (run_getTailPosition _ (t + Z.of_nat (length q)) t m HC Hcap)).
  cbn [CircularBuffer.getCapacity CircularBuffer._capacity Base.circular_buffer_at].
  pose proof (Z.mod_pos_bound t (gCapacity g) Hcap). pose proof (Z.mod_pos_bound (t + pos) (gCapacity g) Hcap).
  rewrite wrap64_small, <- (Z.add_mod_idemp_l t) by size_lia.
  unfold CircularBuffer.size_mod. case_bool; [lia|]. rewrite run_bind. cbn -[Z.modulo].
  unfold to_ssize. rewrite Z.add_mod_idemp_l by lia. case_bool; [done|lia].
Qed.

Lemma run_peek_mpsc g c m t q pos :
  mpsc_rep g c m t q -> 0 <= pos < gCapacity g ->
  run (LockingConsumer.peek c pos) m =
    Done (if pos <? Z.of_nat (length q) then (t + pos) mod gCapacity g else -1) m.
Proof.
  intros [Hcon Hfree] Hp. pose proof Hcon as (Hc & _).
  set (ml := set_backend (lock_slot (LockingConsumer._consumerCoordinationBuffer c) (backend m)) m).
  assert (E1 : run (LockingConsumer.peek_locked c pos) ml =
                 Done (if pos <? Z.of_nat (length q) then (t + pos) mod gCapacity g else -1) ml).
  { unfold LockingConsumer.peek_locked. do 2 erewrite run_bind_Done by apply flushReceived_ok.
    apply run_peek_position; [by apply mpsc_content_backend|done]. }
  unfold LockingConsumer.peek. rewrite (mc_circular _ _ _ Hc).
  erewrite run_bind_Done by (apply run_throw_if_false; cbn; case_bool; lia).
  destruct (run_critical (LockingConsumer.ccm c) (LockingConsumer._consumerCoordinationBuffer c)
              (LockingConsumer.peek_locked c pos) (-1) [] m _ _ (mc_registered _ _ _ Hc) Hfree E1
              (writes_refl _ _)) as [E _].
  rewrite E. f_equal. apply set_backend_back.
Qed.

Lemma run_pop_mpsc g c m t q n :
  mpsc_rep g c m t q -> 0 <= n <= gCapacity g ->
  exists m', let fits := n <=? Z.of_nat (length q) in
    run (LockingConsumer.pop c n) m = Done fits m' /\ writes [(mgConsumer g, 16)] m m' /\
    (if fits then mpsc_rep g c m' (t + n) (drop (Z.to_nat n) q) else m' = m).
Proof.
  intros [Hcon Hfree] Hn. pose proof Hcon as (Hc & HC & Hlen & Hh).
  set (ml := set_backend (lock_slot (LockingConsumer._consumerCoordinationBuffer c) (backend m)) m).
  assert (Hcl : mpsc_content g c ml t q) by by apply mpsc_content_backend.
  assert (E1 : exists m1, run (LockingConsumer.pop_locked c n) ml = Done (n <=? Z.of_nat (length q)) m1 /\
    writes [(mgConsumer g, 16)] ml m1 /\
    (if n <=? Z.of_nat (length q) then mpsc_content g c m1 (t + n) (drop (Z.to_nat n) q) else m1 = ml)).
  { unfold LockingConsumer.pop_locked. rewrite (run_bind_Done _ _ _ _ _ (run_depth_mpsc g c ml t q Hcl)).
    case_bool; [|exists ml; split_and!; [done|apply writes_refl|done]].
    rewrite (mc_circular _ _ _ Hc).
    destruct (run_advanceTail_at (gCapacity g) (mgConsumer g) (t + Z.of_nat (length q)) t ml n HC) as (m1 & E & W & HC1); [lia|].
    exists m1. split_and!; [by rewrite (run_bind_Done _ _ _ _ _ E)|done|]. destruct Hcl as (Hok & _ & _ & Hhl).
    pose proof (mc_disj _ _ _ Hok).
    split_and!; [by eapply consumer_ok_writes| |rewrite length_drop; lia|].
    - rewrite length_drop. by replace (t + n + Z.of_nat (length q - Z.to_nat n)) with (t + Z.of_nat (length q)) by lia.
    - eapply holds_tokens_writes; [apply (tb_sizes _ _ _ (mc_tokens _ _ _ Hok))|exact W|eauto with hicr|].
      pose proof (holds_tokens_drop g ml t q (Z.to_nat n) Hhl) as Hd. by rewrite Z2Nat.id in Hd by lia. }
  destruct E1 as (m1 & E1 & W1 & Hres). unfold LockingConsumer.pop. rewrite (mc_circular _ _ _ Hc).
  erewrite run_bind_Done by (apply run_throw_if_false; cbn; case_bool; lia).
  destruct (run_critical (LockingConsumer.ccm c) (LockingConsumer._consumerCoordinationBuffer c)
              (LockingConsumer.pop_locked c n) false _ m _ _ (mc_registered _ _ _ Hc) Hfree E1 W1) as [E W].
  exists (set_backend (backend m) m1). split_and!; [exact E|exact W|]. destruct (n <=? Z.of_nat (length q)).
  - split; [by apply mpsc_content_backend|by eapply lock_free_writes].
  - subst m1. apply set_backend_back.
Qed.

Lemma run_send_mpsc g c pp p m t q src sp ss tok :
  mpsc_rep g c m t q -> attached g c pp p m -> source_ok g pp src sp ss m ->
  Z.of_nat (length tok) = gTokenSize g -> t + Z.of_nat (length q) + 1 < SIZE_BOUND ->
  exists m', let fits := Z.of_nat (length q) + 1 <=? gCapacity g in
    run (LockingClient.send p src tok) m = Done fits m' /\
    writes ((sp, ss) :: mpsc_footprint g pp) m m' /\ mpsc_rep g c m' t (if fits then q ++ [tok] else q).
Proof.
  intros [Hcon Hfree] Ha [Hs Hss Hacc Dp Dc Dt] Hlen Hov.
  pose proof (tb_sizes _ _ _ (mp_tokens _ _ _ _ _ Ha)) as (? & _).
  unfold LockingClient.send. rewrite (run_bind_Done _ _ _ _ _ (run_getPointer _ _ _ _ Hs)).
  destruct (mem_store_accessible (heap m) sp tok) as [h Eh].
  { rewrite Hlen, <- (ptr_add_0 sp). eapply accessible_sub; [exact Hacc|lia..]. }
  set (m1 := set_heap h m). assert (St : stored m (ptr_add sp 0) tok m1) by (rewrite ptr_add_0; by exists h).
  erewrite run_bind_Done by (apply (run_update _ _ m1); by rewrite Eh).
  pose proof (writes_stored [(sp, ss)] m sp 0 tok m1 ss St ltac:(auto with hicr) ltac:(lia) ltac:(lia)) as W1.
  pose proof (stored_same _ _ _ _ St) as HL. rewrite Hlen in HL.
  destruct (run_push_mpsc g c pp p m1 src sp ss t q [tok]) as (m2 & E2 & W2 & Hrep2); try done.
  - split; [eapply mpsc_content_writes; eauto with hicr|by eapply lock_free_writes].
  - by eapply attached_writes.
  - cbn [length]. lia.
  - intros [|i] x Hx; [|done]. by injection Hx as <-.
  - exists m2. split_and!; [exact E2|writes_by W1 W2|exact Hrep2].
Qed.

Lemma run_receive_mpsc g c m t q :
  mpsc_rep g c m t q ->
  exists m', run (LockingClient.receive c) m = Done (head q) m' /\ writes [(mgConsumer g, 16)] m m' /\
    mpsc_rep g c m' (t + Z.of_nat (length q) - Z.of_nat (length (tail q))) (tail q).
Proof.
  intros Hrep. pose proof Hrep as [(Hc & _ & Hlen & Hh) _].
  destruct (mc_tokens _ _ _ Hc) as [(? & Hcap & _) (n & _ & Hts) Hb _].
  unfold LockingClient.receive. rewrite (run_bind_Done _ _ _ _ _ (run_peek_mpsc g c m t q 0 Hrep ltac:(lia))).
  destruct q as [|tok q]; cbn [length head tail].
  { exists m. split_and!; [done|apply writes_refl|]. by rewrite Z.add_simpl_r. }
  pose proof (Z.mod_pos_bound (t + 0) (gCapacity g) Hcap).
  rewrite (proj2 (Z.ltb_lt 0 _)) by lia. case_bool; [lia|]. unfold LockingConsumer.getTokenBuffer.
  rewrite (run_bind_Done _ _ _ _ _ (run_getSource _ _ _ Hb)).
  rewrite (run_bind_Done _ _ _ _ _ (run_getPointer _ _ _ _ Hts)). cbv zeta.
  unfold Base.getTokenSize. rewrite (mc_token _ _ _ Hc).
  pose proof (Hh 0%nat tok ltac:(done)) as HL. unfold token_at in HL.
  erewrite run_bind_Done by exact (run_fetch (fun m => mem_load (heap m) _ _) m tok HL).
  destruct (run_pop_mpsc g c m t (tok :: q) 1 Hrep) as (m' & E & W & Hrep'); [lia|].
  cbn [length] in *. assert (Hle : (1 <=? Z.of_nat (S (length q))) = true) by (case_bool; lia).
  rewrite Hle in *.
  exists m'. split_and!; [by rewrite (run_bind_Done _ _ _ _ _ E)|done|].
  by replace (t + Z.of_nat (S (length q)) - Z.of_nat (length q)) with (t + 1) by lia.
Qed.

(** One operation of a client simulates one step of the queue. *)
Lemma mpsc_exec_step g c ps m t q o :
  mpsc_rep g c m t q -> producers_ok g c ps m -> mop_fits g ps o -> t + Z.of_nat (length q) + 1 < SIZE_BOUND ->
  (LockingClient.exec ps c m o).2 = (MultiQueue.step (gCapacity g) q o).2 /\
  producers_ok g c ps (LockingClient.exec ps c m o).1 /\
  exists t', mpsc_rep g c (LockingClient.exec ps c m o).1 t' (MultiQueue.step (gCapacity g) q o).1 /\
    t' + Z.of_nat (length (MultiQueue.step (gCapacity g) q o).1) <= t + Z.of_nat (length q) + 1.
Proof.
  intros Hrep Hps Hfit Hov. destruct o as [i tok|].
  - destruct Hfit as [Hi Hlen]. destruct (lookup_lt_is_Some_2 ps i Hi) as [[p src] Hp].
    destruct (Hps i p src Hp) as (pp & sp & ss & Ha & Hs).
    destruct (run_send_mpsc g c pp p m t q src sp ss tok Hrep Ha Hs Hlen Hov) as (m' & E & W & Hrep').
    cbn [LockingClient.exec MultiQueue.step]. rewrite Hp, E.
    pose proof (producers_ok_writes _ _ _ _ _ _ W Hps).
    destruct (Z.of_nat (length q) + 1 <=? gCapacity g); cbn; (split_and!; [done..|]);
      exists t; (split; [done|]); rewrite ?length_app; cbn; lia.
  - destruct (run_receive_mpsc g c m t q Hrep) as (m' & E & W & Hrep').
    cbn [LockingClient.exec MultiQueue.step]. rewrite E. pose proof (producers_ok_writes _ _ _ _ _ _ W Hps).
    destruct q as [|tok q]; cbn in *; (split_and!; [done..|]); eexists; (split; [done|]); lia.
Qed.

(** ** Theorems *)

(** C6: any number of producers and one consumer of a locking channel see one
    bounded FIFO queue.  For every sequence of sends (by any of the attached
    producers) and receives, with fewer than 2^64 operations in all, every
    result is that of the abstract queue and the channel ends with the abstract
    queue's content; no operation throws, crashes or blocks, and the lock is
    free again after each.  A send that exceeds the capacity is answered with false
    and changes nothing; the documentation of push announces an exception for it. *)
Theorem locking_refines_queue g c ps (l : list MultiQueue.op) :
  forall m t q,
  mpsc_rep g c m t q -> producers_ok g c ps m -> Forall (mop_fits g ps) l ->
  t + Z.of_nat (length q) + Z.of_nat (length l) < SIZE_BOUND ->
  (LockingClient.exec_all ps c m l).2 = (MultiQueue.steps (gCapacity g) q l).2 /\
  exists t', mpsc_rep g c (LockingClient.exec_all ps c m l).1 t' (MultiQueue.steps (gCapacity g) q l).1.
Proof.
  induction l as [|o l IH]; intros m t q Hrep Hps Hf Hov; [split; [done|by exists t]|].
  apply Forall_cons_1 in Hf as [Ho Hf]. cbn [length] in Hov.
  destruct (mpsc_exec_step g c ps m t q o) as (Hr & Hps' & t' & Hrep' & Ht'); [done..|lia|].
  cbn [LockingClient.exec_all MultiQueue.steps].
  destruct (LockingClient.exec ps c m o) as [m' r], (MultiQueue.step (gCapacity g) q o) as [q' r'].
  cbn in *. subst r'. destruct (IH m' t' q' Hrep' Hps' Hf ltac:(lia)) as [Hrs Hend].
  destruct (LockingClient.exec_all ps c m' l), (MultiQueue.steps (gCapacity g) q' l). cbn in *. by subst.
Qed.

(** A locking [push] of any number of tokens, on every branch: a source
    smaller than the tokens is refused; tokens that do not all fit are refused
    ([false]) and the channel keeps its content; otherwise all of them are
    appended in order.  Only the token buffer and the two coordination buffers
    are written. *)
Theorem locking_push_spec g c pp p m src sp ss t q toks :
  mpsc_rep g c m t q -> attached g c pp p m -> slot_at m src sp ss -> 0 <= ss <= PTRDIFF_MAX ->
  disjoint_ranges sp ss pp 16 -> disjoint_ranges sp ss (gTokens g) (gTokenSize g * gCapacity g) ->
  is_size (gTokenSize g * Z.of_nat (length toks)) ->
  (gTokenSize g * Z.of_nat (length toks) <= ss -> source_tokens g m sp toks) ->
  t + Z.of_nat (length q) + Z.of_nat (length toks) < SIZE_BOUND ->
  if ss <? gTokenSize g * Z.of_nat (length toks)
  then run (LockingProducer.push p src (Z.of_nat (length toks))) m = Thrown logic m
  else exists m', let fits := Z.of_nat (length q) + Z.of_nat (length toks) <=? gCapacity g in
    run (LockingProducer.push p src (Z.of_nat (length toks))) m = Done fits m' /\
    writes (mpsc_footprint g pp) m m' /\ mpsc_rep g c m' t (if fits then q ++ toks else q).
Proof.
  intros Hrep Ha Hs Hss Dp Dt Hsz Hsrc Hov. case_bool.
  - unfold LockingProducer.push, Base.getTokenSize. cbv zeta. rewrite (mp_token _ _ _ _ _ Ha).
    rewrite (run_bind_Done _ _ _ _ _ (run_getSize _ _ _ _ Hs)).
    rewrite run_bind, run_throw_if_true; [done|]. rewrite wrap64_small by done. case_bool; lia.
  - eapply run_push_mpsc; eauto; lia.
Qed.

(** While another endpoint holds the lock, a push, a peek and a pop give up
    at once, with [false], [-1] and [false], and change nothing. *)
Theorem locking_contended g c pp p m src sp ss n pos k :
  consumer_ok g c m -> attached g c pp p m ->
  locked (backend m) (LockingConsumer._consumerCoordinationBuffer c) = Some true ->
  slot_at m src sp ss -> gTokenSize g * n <= ss -> is_size (gTokenSize g * n) ->
  pos < gCapacity g -> k <= gCapacity g ->
  run (LockingProducer.push p src n) m = Done false m /\
  run (LockingConsumer.peek c pos) m = Done (-1) m /\
  run (LockingConsumer.pop c k) m = Done false m.
Proof.
  intros Hc Ha Hl Hs Hss Hz Hpos Hk. split_and!.
  - unfold LockingProducer.push, Base.getTokenSize. cbv zeta.
    rewrite (mp_token _ _ _ _ _ Ha), (mp_coordination _ _ _ _ _ Ha).
    rewrite (run_bind_Done _ _ _ _ _ (run_getSize _ _ _ _ Hs)).
    erewrite run_bind_Done by (apply run_throw_if_false; rewrite wrap64_small by done; case_bool; lia).
    apply run_contended; [apply Ha|done].
  - unfold LockingConsumer.peek. rewrite (mc_circular _ _ _ Hc).
    erewrite run_bind_Done by (apply run_throw_if_false; cbn; case_bool; lia).
    apply run_contended; [apply Hc|done].
  - unfold LockingConsumer.pop. rewrite (mc_circular _ _ _ Hc).
    erewrite run_bind_Done by (apply run_throw_if_false; cbn; case_bool; lia).
    apply run_contended; [apply Hc|done].
Qed.

End Facts.

(** ** A concrete channel with two producers, over the pthreads backend *)

Module LockingDemo.

Definition geom : mpsc_geometry := mkMpscGeometry (mkTokenBuffer 2 3 (Ptr 3 0) 3) (Ptr 0 0).

Definition slot (b : nat) (n : Z) : LocalMemorySlot.t := LocalMemorySlot.make (Ptr b 0) n None.

Definition fields : CommunicationManagerFields.t :=
  CommunicationManagerFields.mk (<[7 := <[0 := 10%nat]> (<[1 := 11%nat]> ∅)]> ∅) ∅.

(** The consumer's coordination buffer (block 0), those of the two producers
    (blocks 1 and 2, with leftover content), three 2-byte tokens (block 3), and
    the producers' source slots (blocks 4 and 5); [held] tells whether the lock
    of the coordination buffer is held. *)
Definition machine_locked (held : bool) : Machine Core.t :=
  mkMachine
    (<[0%nat := replicate 16 x00]> (<[1%nat := replicate 16 xff]> (<[2%nat := replicate 16 x01]>
      (<[3%nat := replicate 6 x00]> (<[4%nat := [x0a; x0b; x0c; x0d]]> (<[5%nat := [x00; x00]]> ∅))))))
    (<[0%nat := slot 0 16]> (<[1%nat := slot 1 16]> (<[2%nat := slot 2 16]> (<[3%nat := slot 3 6]>
      (<[4%nat := slot 4 4]> (<[5%nat := slot 5 2]> ∅))))))
    (<[10%nat := GlobalMemorySlot.mk 7 0 (Some 0%nat)]> (<[11%nat := GlobalMemorySlot.mk 7 1 (Some 3%nat)]> ∅))
    (<[0%nat := fields]> ∅)
    (Core.mk 1 (PthreadBarrier.init 1) ∅ 0 ∅ (<[10%nat := held]> (<[11%nat := false]> ∅)) false).

Abbreviation machine := (machine_locked false).

Definition consumer : LockingConsumer.t :=
  LockingConsumer.mk (Base.mk 0 0 0 2 (Base.circular_buffer_at 3 (Ptr 0 0))) 11 10.

Definition producer (b : nat) : LockingProducer.t :=
  LockingProducer.mk (Base.mk 0 0 b 2 (Base.circular_buffer_at 3 (Ptr b 0))) 11 10.

Definition producers : list (LockingProducer.t * nat) := [(producer 1, 4%nat); (producer 2, 5%nat)].

Example make_locking_consumer : run (LockingConsumer.make 0 0 11 0 10 2 3) machine = Done consumer machine.
Proof. vm_compute. reflexivity. Qed.

Example make_locking_producer : run (LockingProducer.make 0 0 11 2 10 2 3) machine = Done (producer 2) machine.
Proof. vm_compute. reflexivity. Qed.

Lemma token_buffer_demo held : is_token_buffer geom 11 (machine_locked held).
Proof. split; [done|by exists 6; split; [cbn; lia|]; eexists|by eexists|by eexists]. Qed.

Lemma consumer_demo held : consumer_ok geom consumer (machine_locked held).
Proof.
  split; try done; [by exists 16; split; [lia|]; eexists|apply token_buffer_demo|by eexists| |cbn; lia].
  by eexists _, _, _, _.
Qed.

Lemma attached_demo b held : b = 1%nat \/ b = 2%nat -> attached geom consumer (Ptr b 0) (producer b) (machine_locked held).
Proof.
  intros [-> | ->]; (split; try done; [by exists 16; split; [lia|]; eexists|by eexists|apply token_buffer_demo| |cbn; lia..]);
    by eexists _, _, _, _.
Qed.

Lemma producers_demo : producers_ok geom consumer producers machine.
Proof.
  intros [|[|i]] p src Hi; [| |done]; injection Hi as <- <-.
  - exists (Ptr 1 0), (Ptr 4 0), 4. split; [apply attached_demo; by left|].
    split; [by eexists|cbn; size_lia|by eexists|cbn; lia..].
  - exists (Ptr 2 0), (Ptr 5 0), 2. split; [apply attached_demo; by right|].
    split; [by eexists|cbn; size_lia|by eexists|cbn; lia..].
Qed.

Lemma mpsc_rep_demo : mpsc_rep geom consumer machine 0 [].
Proof. split; [|done]. split_and!; [apply consumer_demo|by split|cbn; lia|by intros []]. Qed.

Import MultiQueue.

Definition trace : list op :=
  [Receive; Send 1 [x01; x02]; Send 0 [x03; x04]; Receive; Send 1 [x05; x06]; Send 0 [x07; x08]; Send 1 [x09; x0a]; Receive].

Lemma locking_refines_queue_witness :
  (LockingClient.exec_all producers consumer machine trace).2 =
  [Nothing; Sent; Sent; Received [x01; x02]; Sent; Sent; Rejected; Received [x03; x04]].
Proof.
  refine (proj1 (locking_refines_queue geom consumer producers trace machine 0 [] mpsc_rep_demo producers_demo _ _));
    [|by vm_compute]. repeat constructor; cbn; lia.
Defined.

Lemma locking_push_spec_witness :
  exists m', run (LockingProducer.push (producer 1) 4 2) machine = Done true m' /\
    writes (mpsc_footprint geom (Ptr 1 0)) machine m' /\ mpsc_rep geom consumer m' 0 [[x0a; x0b]; [x0c; x0d]].
Proof.
  apply (locking_push_spec geom consumer (Ptr 1 0) (producer 1) machine 4 (Ptr 4 0) 4 0 [] [[x0a; x0b]; [x0c; x0d]]);
    [apply mpsc_rep_demo|apply attached_demo; by left|by eexists|by vm_compute|cbn; lia|cbn; lia|by vm_compute| |by vm_compute].
  intros _ [|[|i]] tok Hi; [by injection Hi as <-..|done].
Defined.

Lemma locking_contended_witness :
  run (LockingProducer.push (producer 1) 4 2) (machine_locked true) = Done false (machine_locked true) /\
  run (LockingConsumer.peek consumer 0) (machine_locked true) = Done (-1) (machine_locked true) /\
  run (LockingConsumer.pop consumer 1) (machine_locked true) = Done false (machine_locked true).
Proof.
  apply (locking_contended geom consumer (Ptr 1 0) (producer 1) (machine_locked true) 4 (Ptr 4 0) 4 2 0 1);
    [apply consumer_demo|apply attached_demo; by left|done|by eexists|by vm_compute..].
Defined.

End LockingDemo.
