(* ===== verification/FixedMPSCConcurrent.v ===== *)
(** * Several producers and the consumer of a locking MPSC channel at the same time

    The endpoints of [FixedMPSC.v] run in threads of their own, interleaved at
    every access to the shared memory: each producer makes its requests to push,
    the consumer receives a number of times; a request that finds the lock taken
    is refused.  The theorem is that nobody ever throws or crashes, that every
    thread finishes, that the accepted requests of all producers form one
    sequence in which each producer's are in its order and each request's tokens
    are together, and that the consumer receives that sequence from its start.

    The lock protects the counters; the consumer reads a token after it has given
    the lock back, and the proof shows that no push of the meantime overwrites
    it. *)

From S2P Require Import Prelude Memory CommunicationManager Pthreads CircularBuffer Channel TokenBuffer FixedMPSC FixedMPSCSpec.
From S2P Require Import Concurrency Interference AtomicCopies CriticalSections LockedCopies.
From Stdlib Require Import ZArith Lia.
From Stdlib.Strings Require Import Byte.
From stdpp Require Import base list gmap option.

Local Open Scope Z_scope.
Local Open Scope hicr_scope.

(** ** The client threads *)

Module LockingThreads.

(** A request to push the tokens [rq_tokens], which are in the slot [rq_slot]. *)
Record request : Type := mkRequest {
  rq_slot : nat;
  rq_pointer : ptr;
  rq_size : Z;
  rq_tokens : list (list byte)
}.

(** A producer, the place of its private counters, and what it will push. *)
Record plan : Type := mkPlan {
  pl_producer : LockingProducer.t;
  pl_counters : ptr;
  pl_requests : list request
}.

Inductive outcome : Type :=
| Pushed (answers : list bool)
| Received (tokens : list (option (list byte))).

Section Threads.
Context {X : Type} {B : CommBackend X}.

Fixpoint push_all (p : LockingProducer.t) (rqs : list request) : prog (Machine X) (list bool) :=
  match rqs with
  | [] => Ret []
  | rq :: rqs' =>
      b ← LockingProducer.push p (rq_slot rq) (Z.of_nat (length (rq_tokens rq)));
      bs ← push_all p rqs';
      Ret (b :: bs)
  end.

Fixpoint receive_all (c : LockingConsumer.t) (n : nat) : prog (Machine X) (list (option (list byte))) :=
  match n with
  | O => Ret []
  | S n' => o ← LockingClient.receive c; os ← receive_all c n'; Ret (o :: os)
  end.

Definition producer_thread (pl : plan) : prog (Machine X) outcome :=
  bs ← push_all (pl_producer pl) (pl_requests pl); Ret (Pushed bs).

Definition consumer_thread (c : LockingConsumer.t) (n : nat) : prog (Machine X) outcome :=
  os ← receive_all c n; Ret (Received os).

(** Thread 0 is the consumer, thread [S i] the [i]-th producer. *)
Definition pool (c : LockingConsumer.t) (n : nat) (plans : list plan) : list (prog (Machine X) outcome) :=
  consumer_thread c n :: map producer_thread plans.

End Threads.

(** The requests that were accepted. *)
Definition accepted (bs : list bool) (rqs : list request) : list (list (list byte)) :=
  concat (zip_with (fun (b : bool) rq => if b then [rq_tokens rq] else []) bs rqs).

Definition demand (rqs : list request) : nat := sum_list (map (fun rq => length (rq_tokens rq)) rqs).

(** The requests of producer [i] in a sequence of requests of all of them. *)
Definition of_producer (i : nat) (log : list (nat * list (list byte))) : list (list (list byte)) :=
  (filter (fun e => e.1 = i) log).*2.

Lemma of_producer_same i l toks : of_producer i (l ++ [(i, toks)]) = of_producer i l ++ [toks].
Proof. unfold of_producer. by rewrite list_basics.list.filter_app, filter_cons_True, map_app. Qed.

Lemma of_producer_other i j l toks : j <> i -> of_producer i (l ++ [(j, toks)]) = of_producer i l.
Proof. intros. unfold of_producer. by rewrite list_basics.list.filter_app, filter_cons_False, app_nil_r. Qed.

End LockingThreads.

Import LockingThreads.

(** What the producers may write. *)
Definition pool_footprint (g : mpsc_geometry) (plans : list plan) : list (ptr * Z) :=
  token_range g :: (mgConsumer g, 16) :: map (fun pl => (pl_counters pl, 16)) plans.

(** The tokens of a request are in its slot, apart from all the channel's buffers. *)
Record request_ok {X : Type} (g : mpsc_geometry) (plans : list plan) (rq : request) (m : Machine X) : Prop := mkRequestOk {
  ro_slot : slot_at m (rq_slot rq) (rq_pointer rq) (rq_size rq);
  ro_size : gTokenSize g * Z.of_nat (length (rq_tokens rq)) <= rq_size rq <= PTRDIFF_MAX;
  ro_tokens : source_tokens g m (rq_pointer rq) (rq_tokens rq);
  ro_apart : apart (pool_footprint g plans) (rq_pointer rq) (rq_size rq)
}.

Record plan_ok {X : Type} (g : mpsc_geometry) (c : LockingConsumer.t) (plans : list plan) (pl : plan) (m : Machine X) : Prop := mkPlanOk {
  po_attached : attached g c (pl_counters pl) (pl_producer pl) m;
  po_requests : forall rq, rq ∈ pl_requests pl -> request_ok g plans rq m
}.

(** ** What the threads know of each other *)

(** The tokens the consumer has taken, the accepted requests with their producers
    in order, and how many tokens each producer may still push. *)
Record ghost : Type := mkGhost {
  popped : nat;
  log : list (nat * list (list byte));
  todo : list nat
}.

Section Protocol.
Context {X : Type} {B : CommBackend X} `{!CommSpec X} `{!CommAtomic X} `{!LockAtomic X}.
Implicit Types (m : Machine X) (a : ghost).

(** The channel starts with the tokens [q0], the oldest of which has index [t0]. *)
Context (g : mpsc_geometry) (c : LockingConsumer.t) (plans : list plan).
Context (t0 : Z) (q0 : list (list byte)) (sl : GlobalMemorySlot.t).

Local Abbreviation lock := (LockingConsumer._consumerCoordinationBuffer c).
Local Abbreviation ccb := (Base.circular_buffer_at (gCapacity g) (mgConsumer g)).

Definition everything a : list (list byte) := q0 ++ concat (log a).*2.
Definition queue a : list (list byte) := drop (popped a) (everything a).
Definition oldest a : Z := t0 + Z.of_nat (popped a).

Definition ghost_ok a : Prop :=
  (popped a <= length (everything a))%nat /\
  Z.of_nat (length (queue a)) <= gCapacity g /\
  t0 + Z.of_nat (length (everything a)) + Z.of_nat (sum_list (todo a)) < SIZE_BOUND /\
  Forall (fun e => (e.1 < length plans)%nat) (log a).

(** What the threads never change. *)
Record static m : Prop := mkStatic {
  st_consumer : consumer_ok g c m;
  st_lock : globals m !! lock = Some sl;
  st_plans : forall pl, pl ∈ plans -> plan_ok g c plans pl m;
  st_locked : is_Some (locked (backend m) lock)
}.

Definition mpsc_visible a m : Prop := static m /\ holds_tokens g m (oldest a) (queue a) /\ ghost_ok a.

Definition mpsc_idle a m : Prop :=
  mpsc_visible a m /\ cb_at ccb (oldest a + Z.of_nat (length (queue a))) (oldest a) m /\ lock_free c m.

(** The consumer relies on the log only growing, a producer on its own part of it. *)
Definition mpsc_others (i : nat) a a' : Prop :=
  match i with
  | O => popped a' = popped a /\ log a `prefix_of` log a'
  | S i => of_producer i (log a') = of_producer i (log a) /\ todo a' !! i = todo a !! i
  end.

Definition mpsc_own (i : nat) a a' : Prop :=
  match i with
  | O => log a' = log a /\ todo a' = todo a
  | S i => popped a' = popped a /\ (log a' = log a \/ exists toks, log a' = log a ++ [(i, toks)]) /\
           forall j, j <> i -> todo a' !! j = todo a !! j
  end.

Definition mpsc_protocol : protocol (Machine X) ghost :=
  mkProtocol (fun m => bool_decide (locked (backend m) lock = Some true)) mpsc_visible mpsc_idle mpsc_others mpsc_own.

#[local] Instance mpsc_protocol_ok : Protocol mpsc_protocol.
Proof.
  split.
  - intros [|i]; (split; [by split|]).
    + intros a1 a2 a3 [? ?] [? ?]. split; [congruence|by etransitivity].
    + intros a1 a2 a3 [? ?] [? ?]. split; congruence.
  - by intros a m [? _].
  - intros [|i] [|j] a a' Hne; cbn; [done|by intros [-> ->]| |].
    + intros (? & [->|[toks ->]] & _); (split; [done|]); [done|by apply prefix_app_r].
    + intros (_ & Hl & Ht). split; [|apply Ht; congruence]. destruct Hl as [->|[toks ->]]; [done|].
      apply of_producer_other. congruence.
Qed.

(** *** Stores of the threads *)

Lemma static_sizes m : static m -> token_sizes g.
Proof. intros Hs. apply (tb_sizes _ _ _ (mc_tokens _ _ _ (st_consumer _ Hs))). Qed.

Lemma request_ok_writes R rq m m' :
  R ⊆ pool_footprint g plans -> token_sizes g -> writes R m m' -> request_ok g plans rq m -> request_ok g plans rq m'.
Proof.
  intros HR (? & ? & _) W [Hs Hn Ht Ha]. split; [by rewrite (writes_slot_at _ _ _ _ _ _ W)|done| |done].
  intros i tok Hi. rewrite (writes_load _ _ _ _ _ W); [by apply Ht|].
  eapply apart_sub; [by eapply apart_mono|nia|]. apply lookup_lt_Some in Hi. nia.
Qed.

Lemma static_writes R m m' : R ⊆ pool_footprint g plans -> writes R m m' -> static m -> static m'.
Proof.
  intros HR W Hs. pose proof (static_sizes _ Hs). destruct Hs as [Hc Hl Hp Hk]. split.
  - by eapply consumer_ok_writes.
  - by rewrite (writes_globals _ _ _ W).
  - intros pl Hpl. destruct (Hp pl Hpl) as [Ha Hr]. split; [by eapply attached_writes|].
    intros rq Hrq. eapply request_ok_writes; [done..|by apply Hr].
  - by rewrite (writes_backend _ _ _ W).
Qed.

Lemma static_backend b m : is_Some (locked b lock) -> static m -> static (set_backend b m).
Proof.
  intros Hb [Hc Hl Hp _]. split; [by apply consumer_ok_backend|done| |done].
  intros pl Hpl. destruct (Hp pl Hpl) as [Ha Hr]. split; [by apply attached_backend|].
  intros rq Hrq. by destruct (Hr rq Hrq).
Qed.

(** The consumer's counters can be accessed. *)
Definition counters_ok m : Prop := accessible (heap m) (mgConsumer g) 16.

Lemma footprint_consumer : [(mgConsumer g, 16)] ⊆ pool_footprint g plans.
Proof. intros r Hr. apply list_elem_of_singleton in Hr as ->. right. left. Qed.

Lemma footprint_tokens : [token_range g] ⊆ pool_footprint g plans.
Proof. intros r Hr. apply list_elem_of_singleton in Hr as ->. left. Qed.

Lemma footprint_private pl : pl ∈ plans -> [(pl_counters pl, 16)] ⊆ pool_footprint g plans.
Proof. intros Hpl r Hr. apply list_elem_of_singleton in Hr as ->. do 2 right. by apply (list_elem_of_fmap_2 (fun pl => (pl_counters pl, 16))). Qed.

Lemma visible_sim a m m' : mpsc_visible a m -> machine_sim m m' -> mpsc_visible a m'.
Proof.
  intros (Hs & Hh & Ho) Hm. pose proof (mc_tokens _ _ _ (st_consumer _ Hs)) as Htb.
  assert (W : writes [token_range g] m m').
  { eapply sim_writes_in; [exact Hm|apply (tb_access _ _ _ Htb)|constructor|]. destruct (tb_sizes _ _ _ Htb) as (? & ? & _). nia. }
  split_and!; [|by intros i tok Hi; unfold token_at; rewrite <- (sim_heap _ _ Hm); apply Hh|done].
  eapply static_writes; [apply footprint_tokens|exact W|done].
Qed.

Definition endpoint (this : nat) : Prop :=
  this = LockingConsumer.ccm c \/ exists pl, pl ∈ plans /\ this = LockingProducer.ccm (pl_producer pl).

Lemma mpsc_slot_lock : slot_lock mpsc_protocol lock sl endpoint.
Proof.
  split.
  - done.
  - intros a m (Hs & _). apply Hs.
  - intros a m (Hs & _). apply Hs.
  - intros a m this (Hs & _) [->|(pl & Hpl & ->)]; [apply Hs|]. apply (po_attached _ _ _ _ _ (st_plans _ Hs pl Hpl)).
  - exact visible_sim.
  - intros a m (Hs & Hh & Ho). split_and!; [|done|done]. apply static_backend; [|done]. rewrite lock_slot_locked. by eexists.
Qed.

(** Stores to the counters, and of a token outside of the queue, keep what is visible. *)
Definition counters_of (q : ptr) : Prop := q = mgConsumer g \/ exists pl, pl ∈ plans /\ q = pl_counters pl.

Lemma counters_of_footprint q : counters_of q -> [(q, 16)] ⊆ pool_footprint g plans.
Proof. intros [->|(pl & Hpl & ->)]; [apply footprint_consumer|by apply footprint_private]. Qed.

Lemma counters_of_apart q m : static m -> counters_of q -> disjoint_ranges q 16 (gTokens g) (gTokenSize g * gCapacity g).
Proof.
  intros Hs [->|(pl & Hpl & ->)]; [apply Hs|]. apply (po_attached _ _ _ _ _ (st_plans _ Hs pl Hpl)).
Qed.

Lemma store_ok_counters a m q d bs :
  counters_of q -> 0 <= d -> d + Z.of_nat (length bs) <= 16 -> store_ok mpsc_protocol a m (ptr_add q d) bs.
Proof.
  intros Hq ?? u u' _ St (Hs & Hh & Ho). assert (W : writes [(q, 16)] u u') by (eapply writes_stored; [exact St|constructor|done..]).
  split_and!; [eapply static_writes; [by apply counters_of_footprint|exact W|done]| |done].
  eapply holds_tokens_writes; [by eapply static_sizes|exact W| |done]. apply apart_cons, apart_nil. by eapply counters_of_apart.
Qed.

Lemma store_ok_token a m k tok :
  token_sizes g -> Z.of_nat (length tok) = gTokenSize g ->
  oldest a + Z.of_nat (length (queue a)) <= k < oldest a + gCapacity g ->
  store_ok mpsc_protocol a m (ptr_add (gTokens g) (gTokenSize g * (k mod gCapacity g))) tok.
Proof.
  intros Hsz Hl Hk u u' _ St (Hs & Hh & Ho). pose proof (stored_token_writes _ _ _ _ _ Hsz Hl St) as W.
  split_and!; [eapply static_writes; [apply footprint_tokens|exact W|done]| |done].
  intros i x Hi. pose proof (lookup_lt_Some _ _ _ Hi). erewrite token_at_stored_other; [by apply Hh|done| |done|exact St].
  replace k with (oldest a + (k - oldest a)) by lia. intros E%mod_window_inj; lia.
Qed.

(** *** The critical section of a push *)

Local Abbreviation inside a := (inside_contract mpsc_protocol a).

Lemma cb_at_sim cb h t m m' : machine_sim m m' -> cb_at cb h t m -> cb_at cb h t m'.
Proof. intros Hm. unfold cb_at. by rewrite (sim_heap _ _ Hm). Qed.

Lemma holds_tokens_sim m m' t q : machine_sim m m' -> holds_tokens g m t q -> holds_tokens g m' t q.
Proof. intros Hm Hh i tok Hi. unfold token_at. rewrite <- (sim_heap _ _ Hm). by apply Hh. Qed.

Section Push.
Context (pl : plan) (rq : request) (Hpl : pl ∈ plans) (Hrq : rq ∈ pl_requests pl).

Local Abbreviation p := (pl_producer pl).
Local Abbreviation pp := (pl_counters pl).
Local Abbreviation pcb := (Base.circular_buffer_at (gCapacity g) pp).
Local Abbreviation toks := (rq_tokens rq).
Local Abbreviation area := (mpsc_footprint g pp).

Lemma area_footprint : area ⊆ pool_footprint g plans.
Proof.
  intros r Hr. rewrite !elem_of_cons, elem_of_nil in Hr. destruct Hr as [->|[->|[->|[]]]].
  - apply footprint_tokens. left.
  - apply (footprint_private pl); [done|left].
  - apply footprint_consumer. left.
Qed.

(** The private counters hold the window of the tokens [q]. *)
Definition copying m t q u : Prop := writes area m u /\ cb_at pcb (t + Z.of_nat (length q)) t u /\ holds_tokens g u t q.

Lemma copying_sim m t q u u' : static m -> copying m t q u -> machine_sim u u' -> copying m t q u'.
Proof.
  intros Hs (W & HP & Hh) Hu. split_and!; [|by eapply cb_at_sim|by eapply holds_tokens_sim].
  eapply writes_trans; [exact W|]. eapply (sim_writes_in _ pp 16); [done| |right; left|lia]. by eapply cb_at_accessible.
Qed.

(** One token is copied, and the private head advanced. *)
Lemma inside_copy_one a m q i tok u :
  static m -> copying m (oldest a) q u -> (length (queue a) <= length q)%nat -> Z.of_nat (length q) < gCapacity g ->
  oldest a + Z.of_nat (length q) + 1 < SIZE_BOUND -> 0 <= i -> toks !! Z.to_nat i = Some tok ->
  safe (inside a)
    (pos ← CircularBuffer.getHeadPosition (LockingProducer.circular p);
     _ ← CommunicationManager.memcpyGL (LockingProducer.pcm p) (LockingProducer._tokenBuffer p)
           (Base.getTokenSize (LockingProducer.base p) *w pos) (rq_slot rq)
           (i *w Base.getTokenSize (LockingProducer.base p)) (Base.getTokenSize (LockingProducer.base p));
     CircularBuffer.advanceHead (LockingProducer.circular p) 1)
    (fun _ => copying m (oldest a) (q ++ [tok])) u.
Proof.
  intros Hs (W & HP & Hh) Hq Hroom Hov Hi Htok. pose proof (static_writes _ _ _ area_footprint W Hs) as Hsu.
  destruct (st_plans _ Hsu pl Hpl) as [Ha Hr]. destruct (Hr rq Hrq) as [Hsl Hn Hsrc _].
  pose proof Ha as [Htk Hcb _ _ Htb _ _ _ Hdt]. pose proof (tb_sizes _ _ _ Htb) as Hsz.
  pose proof (capacity_bound _ Hsz). pose proof Hsz as (Ht & Hcap & Hmul). pose proof (lookup_lt_Some _ _ _ Htok).
  specialize (Hsrc _ _ Htok). rewrite Z2Nat.id in Hsrc by lia. destruct (mem_load_length _ _ _ _ Hsrc) as [Hl _].
  set (h := oldest a + Z.of_nat (length q)) in *. pose proof (token_bounds _ _ h Ht Hcap) as [? ?].
  destruct (tb_slot _ _ _ Htb) as (nt & ? & Hts). unfold Base.getTokenSize. rewrite Htk, Hcb.
  eapply safe_silent_bind; [apply silent_bind; [apply silent_fetch|intros ?; apply silent_size_mod]|by apply (run_getHeadPosition _ h (oldest a))|].
  cbn [CircularBuffer._capacity Base.circular_buffer_at]. assert (0 <= i * gTokenSize g /\ gTokenSize g + i * gTokenSize g <= rq_size rq) by nia.
  rewrite (wrap64_small (i * gTokenSize g)), (wrap64_small (gTokenSize g * _)) by size_lia.
  apply safe_bind. eapply safe_mono; [|eapply (inside_memcpyGL mpsc_protocol _ _ _ mpsc_slot_lock); [apply Htb|exact Hts|exact Hsl|..|exact Hsrc| |]];
    [|size_lia|lia|size_lia|nia|..].
  3: { apply store_ok_token; [done|done|]. unfold h. lia. }
  2: { eapply accessible_sub; [apply Htb|lia..]. }
  intros [] v St. pose proof (stored_token_writes _ _ _ _ _ Hsz Hl St) as Wv.
  assert (HPv : cb_at pcb h (oldest a) v) by (eapply cb_at_writes; [exact Wv|apply apart_cons_sym, apart_nil|]; done).
  eapply safe_mono; [|eapply (inside_advanceHead mpsc_protocol _ _ _ mpsc_slot_lock); [exact HPv|unfold h in *; size_lia..|]].
  2: { apply store_ok_counters; [right; by exists pl|lia|by rewrite length_le_bytes]. }
  intros [] w Sw. destruct (cb_at_is_size _ _ _ _ HPv) as [? ?].
  assert (Ww : writes [(pp, 16)] v w) by (eapply writes_stored; [exact Sw|constructor|lia|by rewrite length_le_bytes]).
  split_and!.
  - eapply writes_trans; [exact W|]. eapply writes_trans; [eapply writes_mono; [exact Wv|]|eapply writes_mono; [exact Ww|]]; auto with hicr.
  - rewrite length_app. cbn [length]. replace (oldest a + Z.of_nat (length q + 1)) with (h + 1) by lia.
    eapply (stored_head pcb); [exact HPv|apply cb_separate_at|size_lia|exact Sw].
  - eapply holds_tokens_writes; [done|exact Ww|apply apart_cons, apart_nil; done|]. by eapply holds_tokens_push.
Qed.

Lemma inside_copy_tokens a m u :
  static m -> copying m (oldest a) (queue a) u ->
  Z.of_nat (length (queue a)) + Z.of_nat (length toks) <= gCapacity g ->
  oldest a + Z.of_nat (length (queue a)) + Z.of_nat (length toks) < SIZE_BOUND ->
  safe (inside a) (LockingProducer.copy_tokens p (rq_slot rq) (Z.of_nat (length toks)))
    (fun _ => copying m (oldest a) (queue a ++ toks)) u.
Proof.
  intros Hs Hu Hroom Hov. unfold LockingProducer.copy_tokens. cbv zeta. rewrite Nat2Z.id.
  eapply safe_mono; [|apply (safe_for_loop _ (fun i => copying m (oldest a) (queue a ++ take (Z.to_nat i) toks)))].
  - intros [] v Hv. by rewrite Z.add_0_l, Nat2Z.id, firstn_all in Hv.
  - intros j v Hj Hv. destruct (lookup_lt_is_Some_2 toks (Z.to_nat j)) as [tok Htok]; [lia|].
    assert (Hlen : length (queue a ++ take (Z.to_nat j) toks) = (length (queue a) + Z.to_nat j)%nat) by (rewrite length_app, length_take; lia).
    eapply safe_mono; [|by eapply inside_copy_one; [done|exact Hv|lia..|]]. intros [] w Hw.
    rewrite <- app_assoc, <- (take_S_r _ _ _ Htok) in Hw. by replace (Z.to_nat (j + 1)) with (S (Z.to_nat j)) by lia.
  - by rewrite app_nil_r.
Qed.

Lemma safe_fence_bind {R : Type} a this l x y (k : unit -> prog (Machine X) R) Q u :
  (forall u', machine_sim u u' -> safe (inside a) (k tt) Q u') ->
  safe (inside a) (CommunicationManager.fenceLocal this l x y ≫= k) Q u.
Proof.
  intros Hk. apply safe_bind. eapply safe_mono; [|apply (inside_fence mpsc_protocol _ _ _ mpsc_slot_lock)].
  intros [] u' Hu. by apply Hk.
Qed.

(** The whole critical section does to the channel what it does alone. *)
Lemma inside_push_locked a m :
  static m -> mpsc_content g c m (oldest a) (queue a) ->
  oldest a + Z.of_nat (length (queue a)) + Z.of_nat (length toks) < SIZE_BOUND ->
  let fits := Z.of_nat (length (queue a)) + Z.of_nat (length toks) <=? gCapacity g in
  safe (inside a) (LockingProducer.push_locked p (rq_slot rq) (Z.of_nat (length toks)))
    (fun r u => r = fits /\ writes area m u /\ mpsc_content g c u (oldest a) (if fits then queue a ++ toks else queue a)) m.
Proof.
  intros Hs (Hc & HC & Hlen & Hh) Hov fits. destruct (st_plans _ Hs pl Hpl) as [Ha Hr]. destruct (Hr rq Hrq) as [Hsl Hn Hsrc _].
  pose proof Hc as [_ _ (nc & ? & Hsc) _ Hbc _ Hdc]. pose proof Ha as [_ Hcb (np & ? & Hsp) Hacc Htb Heq _ Hdc' Hdt].
  pose proof (tb_sizes _ _ _ Htb) as Hsz. pose proof (capacity_bound _ Hsz). pose proof Hsz as (? & ? & ?).
  assert (Z.of_nat (length toks) <= rq_size rq) by nia.
  unfold LockingProducer.push_locked, Base.getDepth. change (Base._circularBuffer (LockingProducer.base p)) with (LockingProducer.circular p).
  rewrite Heq, Hcb. cbn [CircularBuffer.getCapacity CircularBuffer._capacity Base.circular_buffer_at].
  apply safe_bind. eapply safe_mono; [|eapply (inside_fetch_counters mpsc_protocol _ _ _ mpsc_slot_lock); [exact Hbc|exact Hsc|exact Hsp|done|done|exact HC|done|]].
  2: { intros bs Hbs. apply store_ok_counters; [right; by exists pl|lia|lia]. }
  intros [] u1 [W1 HP1]. apply safe_fence_bind. intros u2 S12.
  assert (C2 : copying m (oldest a) (queue a) u2 /\ writes [(pp, 16)] m u2).
  { assert (W2 : writes [(pp, 16)] m u2) by (eapply writes_trans; [exact W1|]; eapply (sim_writes_in _ pp 16); [done|by eapply cb_at_accessible|left|lia]).
    split; [|done]. split_and!; [eapply writes_mono; [exact W2|]; auto with hicr|by eapply cb_at_sim|].
    eapply holds_tokens_writes; [done|exact W2|apply apart_cons, apart_nil; done|done]. }
  destruct C2 as [C2 W2]. pose proof C2 as (_ & HP2 & _).
  eapply safe_silent_bind; [apply silent_getDepth|apply (run_getDepth_ok _ _ _ _ HP2); lia|].
  replace (oldest a + Z.of_nat (length (queue a)) - oldest a) with (Z.of_nat (length (queue a))) by lia.
  rewrite wrap64_small by size_lia. fold fits. destruct fits eqn:Efits; unfold fits in Efits; cycle 1.
  { split_and!; [done|by apply C2|]. eapply mpsc_content_writes; [by split_and!|exact W2|apply apart_cons, apart_nil; done..]. }
  apply Z.leb_le in Efits. apply safe_bind. eapply safe_mono; [|apply (inside_copy_tokens a m u2); [done|done|lia|lia]].
  intros [] u3 C3. apply safe_fence_bind. intros u4 S34. pose proof (copying_sim _ _ _ _ _ Hs C3 S34) as (W4 & HP4 & Hh4).
  apply safe_bind. eapply safe_mono; [|eapply (inside_send_counters mpsc_protocol _ _ _ mpsc_slot_lock)].
  2: by apply (writes_backed_by _ _ _ _ _ W4). 2: by apply (writes_slot_at _ _ _ _ _ _ W4). 2: by apply (writes_slot_at _ _ _ _ _ _ W4).
  2: done. 2: done. 2: exact HP4. 2: by apply (writes_accessible _ _ _ _ _ W4); eapply cb_at_accessible.
  2: { intros bs Hbs. apply store_ok_counters; [by left|lia|lia]. }
  intros [] u5 [W5 HC5]. apply safe_fence_bind. intros u6 S56.
  assert (W6 : writes [(mgConsumer g, 16)] u4 u6)
    by (eapply writes_trans; [exact W5|]; eapply (sim_writes_in _ (mgConsumer g) 16); [done|by eapply cb_at_accessible|left|lia]).
  assert (W : writes area m u6) by (eapply writes_trans; [exact W4|]; eapply writes_mono; [exact W6|]; auto with hicr).
  split_and!; [done|exact W|]. split_and!; [by eapply consumer_ok_writes|by eapply cb_at_sim|rewrite length_app; lia|].
  eapply holds_tokens_writes; [done|exact W6|apply apart_cons, apart_nil; done|done].
Qed.

End Push.

(** *** The endpoints *)

Context (m0 : Machine X) (Hm0 : static m0).

Lemma idle_content a m : mpsc_idle a m -> mpsc_content g c m (oldest a) (queue a).
Proof. intros ((Hs & Hh & _ & ? & _ & _) & HC & _). split_and!; [apply Hs|done..]. Qed.

(** Once the lock is given back the channel is idle again. *)
Lemma idle_unlocked a m :
  static m -> ghost_ok a -> mpsc_content g c m (oldest a) (queue a) -> mpsc_idle a (set_backend (unlock_slot lock (backend m)) m).
Proof.
  intros Hs Ho (_ & HC & _ & Hh). pose proof (unlock_slot_locked lock (backend m) (st_locked _ Hs)) as Hu.
  split_and!; [|done|done]. split_and!; [|done|done]. apply static_backend; [|done]. rewrite Hu. by eexists.
Qed.

Lemma static_entered a m : mpsc_idle a m -> static (set_backend (lock_slot lock (backend m)) m).
Proof. intros ((Hs & _) & _). apply static_backend; [|done]. rewrite lock_slot_locked. by eexists. Qed.

(** A producer knows which of its requests were accepted and how many tokens it may still push. *)
Definition pushing (i : nat) (sent : list (list (list byte))) (need : nat) a : Prop :=
  of_producer i (log a) = sent /\ exists n, todo a !! i = Some n /\ (need <= n)%nat.

Lemma pushing_settled i sent need : settled mpsc_protocol (S i) (pushing i sent need).
Proof. intros a a' [? Hn] [E1 E2]. split; [congruence|]. by rewrite E2. Qed.

(** The ghost state after an accepted request of producer [i], which could push [n] tokens. *)
Definition ghost_pushed (i n : nat) toks a : ghost :=
  mkGhost (popped a) (log a ++ [(i, toks)]) (<[i := (n - length toks)%nat]> (todo a)).

Lemma everything_push i n toks a : everything (ghost_pushed i n toks a) = everything a ++ toks.
Proof. unfold everything. cbn. rewrite map_app, concat_app. cbn. by rewrite app_nil_r, app_assoc. Qed.

Lemma sum_list_insert (l : list nat) i n x : l !! i = Some n -> (sum_list (<[i := x]> l) + n = sum_list l + x)%nat.
Proof.
  revert i. induction l as [|y l IH]; intros [|i] Hi; [done|done|injection Hi as ->; cbn; lia|]. change (y + sum_list (<[i := x]> l) + n = y + sum_list l + x)%nat. specialize (IH i Hi). lia.
Qed.

Lemma ghost_push a i n toks :
  ghost_ok a -> (i < length plans)%nat -> todo a !! i = Some n -> (length toks <= n)%nat ->
  Z.of_nat (length (queue a)) + Z.of_nat (length toks) <= gCapacity g ->
  ghost_ok (ghost_pushed i n toks a) /\ queue (ghost_pushed i n toks a) = queue a ++ toks.
Proof.
  intros (Hp & Hq & Hb & Hl) Hi Hn Hle Hfit.
  assert (E : queue (ghost_pushed i n toks a) = queue a ++ toks) by (unfold queue at 1; rewrite everything_push; by apply drop_app_le).
  split; [|done]. unfold ghost_ok. rewrite E, everything_push, !length_app.
  pose proof (sum_list_insert (todo a) i n (n - length toks) Hn). cbn [ghost_pushed popped todo log].
  split_and!; [lia..|]. apply Forall_app. by split; [|constructor].
Qed.

Lemma outside_push i pl rq sent need a :
  plans !! i = Some pl -> rq ∈ pl_requests pl -> pushing i sent (length (rq_tokens rq) + need) a ->
  outside mpsc_protocol (S i) (LockingProducer.push (pl_producer pl) (rq_slot rq) (Z.of_nat (length (rq_tokens rq))))
    (fun b => pushing i (sent ++ if b then [rq_tokens rq] else []) need) a.
Proof.
  intros Hi Hrq Ha. assert (Hpl : pl ∈ plans) by (by eapply list_elem_of_lookup_2).
  assert (Hrefuse : forall a', pushing i sent (length (rq_tokens rq) + need) a' -> pushing i (sent ++ []) need a').
  { intros a' [? (n & ? & ?)]. rewrite app_nil_r. split; [done|]. exists n. split; [done|lia]. }
  unfold LockingProducer.push, Base.getTokenSize. cbv zeta.
  eapply outside_getSize; [apply pushing_settled|exact Ha| |].
  { intros a' m (Hs & _). exists (rq_pointer rq). apply (po_requests _ _ _ _ _ (st_plans _ Hs pl Hpl) rq Hrq). }
  clear a Ha. intros a Ha. destruct (st_plans _ Hm0 pl Hpl) as [[Htk _ _ _ Htb Heq _ _ _] Hr0].
  destruct (Hr0 rq Hrq) as [_ Hn _ _], (tb_sizes _ _ _ Htb) as (? & ? & _). rewrite Htk, Heq.
  apply outside_throw_if; [rewrite wrap64_small by size_lia; case_bool; lia|].
  eapply (outside_critical mpsc_protocol _ _ _ mpsc_slot_lock); [apply pushing_settled|exact Ha|right; by exists pl|done|].
  clear a Ha. intros a m Ha Hid _. pose proof (static_entered a m Hid) as Hs. pose proof Hid as ((_ & _ & Ho) & _).
  destruct Ha as [Hsent (n & Hn' & Hle)]. eapply safe_mono; [|apply (inside_push_locked pl rq Hpl Hrq a); [done|apply mpsc_content_backend, idle_content; done|]].
  - intros b u (-> & W & Hcon). pose proof (static_writes _ _ _ (area_footprint pl Hpl) W Hs) as Hsu. case_bool.
    + destruct (ghost_push a i n (rq_tokens rq)) as [Ho' Eq]; [done|by eapply lookup_lt_Some|done|lia|lia|].
      exists (ghost_pushed i n (rq_tokens rq) a). split_and!.
      * split; [done|]. split; [right; by eexists|]. intros j Hj. apply list_lookup_insert_ne. done.
      * apply idle_unlocked; [done|done|]. by rewrite Eq.
      * rewrite <- Hsent. split; [apply of_producer_same|]. cbn. exists (n - length (rq_tokens rq))%nat. split; [|lia]. apply list_lookup_insert_eq. by eapply lookup_lt_Some.
    + exists a. split_and!; [by split_and!; [|left|]|by apply idle_unlocked|apply Hrefuse]. split; [done|]. by exists n.
  - destruct Ho as (Hp & _ & Hb & _). unfold oldest, queue. rewrite length_drop.
    pose proof (sum_list_insert (todo a) i n 0 Hn'). lia.
Qed.

(** The consumer knows what it has received, which is the start of everything. *)
Definition receiving (got : list (list byte)) a : Prop := popped a = length got /\ got `prefix_of` everything a.

(** ... and perhaps the next token. *)
Definition pending (got : list (list byte)) (tok : list byte) a : Prop := receiving got a /\ everything a !! length got = Some tok.

Lemma everything_grows a a' : log a `prefix_of` log a' -> everything a `prefix_of` everything a'.
Proof. intros [k E]. unfold everything. rewrite E, map_app, concat_app, app_assoc. by apply prefix_app_r. Qed.

Lemma receiving_settled got : settled mpsc_protocol 0 (receiving got).
Proof. intros a a' [? ?] [E Hl]. split; [congruence|]. etransitivity; [done|by apply everything_grows]. Qed.

Lemma pending_settled got tok : settled mpsc_protocol 0 (pending got tok).
Proof.
  intros a a' [Hr Htok] Ho. split; [by eapply receiving_settled|]. destruct Ho as [_ Hl].
  destruct (everything_grows _ _ Hl) as [k ->]. by apply lookup_app_l_Some.
Qed.

Lemma pending_head got tok a : pending got tok a -> queue a !! 0%nat = Some tok /\ oldest a = t0 + Z.of_nat (length got).
Proof. intros [[Hp _] Htok]. unfold queue, oldest. rewrite lookup_drop, Nat.add_0_r, Hp. done. Qed.

Lemma outside_peek got a :
  receiving got a ->
  outside mpsc_protocol 0 (LockingConsumer.peek c 0)
    (fun pos a' => if pos <? 0 then receiving got a' else
       exists tok, pending got tok a' /\ pos = (t0 + Z.of_nat (length got)) mod gCapacity g) a.
Proof.
  intros Ha. pose proof (st_consumer _ Hm0) as Hc0. destruct (static_sizes _ Hm0) as (_ & Hcap & _).
  unfold LockingConsumer.peek. apply outside_throw_if; [rewrite (mc_circular _ _ _ Hc0); cbn; case_bool; lia|].
  eapply (outside_critical mpsc_protocol _ _ _ mpsc_slot_lock); [apply receiving_settled|exact Ha|by left|done|].
  clear a Ha. intros a m Ha Hid _. set (ml := set_backend _ m). pose proof (static_entered a m Hid) as Hs. fold ml in Hs.
  pose proof Hid as ((_ & _ & Ho) & _). unfold LockingConsumer.peek_locked.
  apply safe_bind. eapply safe_mono; [|by apply (inside_flush mpsc_protocol _ _ _ mpsc_slot_lock _ a ml)]. intros [] u1 Hu1.
  apply safe_bind. eapply safe_mono; [|by apply (inside_flush mpsc_protocol _ _ _ mpsc_slot_lock _ a ml)]. intros [] u Hu.
  assert (W : writes [(mgConsumer g, 16)] ml u).
  { eapply (sim_writes_in _ (mgConsumer g) 16); [done|eapply cb_at_accessible, Hid|left|lia]. }
  assert (Hcon : mpsc_content g c u (oldest a) (queue a)).
  { pose proof (idle_content a m Hid) as (? & HC & ? & Hh).
    split_and!; [|by eapply cb_at_sim; [exact Hu|]|done|by eapply holds_tokens_sim; [exact Hu|]].
    eapply consumer_ok_writes; [exact W|]. apply Hs. }
  eapply safe_mono; [|eapply inside_silent; [|apply (run_peek_position g c u (oldest a) (queue a) 0 Hcon); lia]]; cycle 1.
  { apply silent_bind; [apply silent_getDepth|]. intros d. destruct (0 <? d); [|done].
    apply silent_bind; [apply silent_bind; [apply silent_fetch|intros ?; apply silent_size_mod]|]. intros t.
    apply silent_bind; [apply silent_size_mod|done]. }
  intros pos v [-> ->]. exists a. split_and!; [done| |].
  { apply idle_unlocked; [|done|done]. eapply static_writes; [apply footprint_consumer|exact W|done]. }
  destruct Ha as [Hp Hpre]. rewrite Z.add_0_r. pose proof (Z.mod_pos_bound (oldest a) (gCapacity g) Hcap).
  destruct (queue a) as [|tok q] eqn:Eq; cbn [length]; [done|]. rewrite (proj2 (Z.ltb_lt 0 _)) by lia. case_bool; [lia|].
  exists tok. unfold oldest in *. rewrite Hp. split; [|done]. split; [done|].
  assert (Hq : queue a !! 0%nat = Some tok) by by rewrite Eq. unfold queue in Hq. by rewrite lookup_drop, Nat.add_0_r, Hp in Hq.
Qed.

(** The ghost state after a token was taken. *)
Definition ghost_popped a : ghost := mkGhost (S (popped a)) (log a) (todo a).

Lemma ghost_pop got tok a :
  ghost_ok a -> pending got tok a ->
  ghost_ok (ghost_popped a) /\ queue (ghost_popped a) = drop 1 (queue a) /\ oldest (ghost_popped a) = oldest a + 1 /\
  receiving (got ++ [tok]) (ghost_popped a).
Proof.
  intros (Hp & Hq & Hb & Hl) [[Hpop Hpre] Htok]. pose proof (lookup_lt_Some _ _ _ Htok).
  assert (E : queue (ghost_popped a) = drop 1 (queue a)).
  { unfold queue, ghost_popped, everything. cbn [popped log]. rewrite drop_drop. f_equal. lia. }
  split_and!; [|done|unfold oldest; cbn; lia|].
  - unfold ghost_ok. rewrite E, length_drop. change (everything (ghost_popped a)) with (everything a). cbn [popped todo log ghost_popped].
    split_and!; [lia..|done].
  - split; [rewrite length_app; cbn; lia|]. change (everything (ghost_popped a)) with (everything a).
    destruct Hpre as [k E']. rewrite E' in Htok |- *. rewrite lookup_app_r, Nat.sub_diag in Htok by lia.
    destruct k as [|x k]; [done|]. injection Htok as ->. exists k. by rewrite <- app_assoc.
Qed.

Lemma outside_pop got tok a :
  pending got tok a ->
  outside mpsc_protocol 0 (LockingConsumer.pop c 1) (fun b => receiving (got ++ if b then [tok] else [])) a.
Proof.
  intros Ha. pose proof (st_consumer _ Hm0) as Hc0. destruct (static_sizes _ Hm0) as (_ & Hcap & _).
  unfold LockingConsumer.pop. apply outside_throw_if; [rewrite (mc_circular _ _ _ Hc0); cbn; case_bool; lia|].
  eapply (outside_critical mpsc_protocol _ _ _ mpsc_slot_lock); [apply pending_settled|exact Ha|by left|by intros a' [? _]; rewrite app_nil_r|].
  clear a Ha. intros a m Ha Hid _. set (ml := set_backend _ m). pose proof (static_entered a m Hid) as Hs. fold ml in Hs.
  pose proof Hid as ((_ & _ & Ho) & _). destruct (pending_head _ _ _ Ha) as [Hhd _]. pose proof (lookup_lt_Some _ _ _ Hhd) as Hlt.
  pose proof (mpsc_content_backend (lock_slot lock (backend m)) _ _ _ _ _ (idle_content a m Hid)) as Hcon. fold ml in Hcon.
  destruct (ghost_pop got tok a Ho Ha) as (Ho' & Eq & Et & Hrec). pose proof Hcon as (_ & HC & _ & Hh).
  unfold LockingConsumer.pop_locked. eapply safe_silent_bind; [apply silent_getDepth|apply (run_depth_mpsc g c ml _ _ Hcon)|].
  case_bool; [|lia]. rewrite (mc_circular _ _ _ Hc0). apply safe_bind.
  eapply safe_mono; [|eapply (inside_advanceTail mpsc_protocol _ _ _ mpsc_slot_lock); [exact HC|lia|]].
  2: { apply store_ok_counters; [by left|lia|by rewrite length_le_bytes]. }
  intros [] u St. assert (W : writes [(mgConsumer g, 16)] ml u) by (eapply writes_stored; [exact St|constructor|lia|by rewrite length_le_bytes]).
  pose proof (static_writes _ _ _ footprint_consumer W Hs) as Hsu. destruct (cb_at_is_size _ _ _ _ HC) as [? ?].
  exists (ghost_popped a). split_and!; [done| |done]. apply idle_unlocked; [done|done|]. rewrite Eq, Et.
  split_and!; [apply Hsu| |rewrite length_drop; destruct Ho as (_ & ? & _); lia|].
  - rewrite length_drop. replace (oldest a + 1 + Z.of_nat (length (queue a) - 1)) with (oldest a + Z.of_nat (length (queue a))) by lia.
    eapply (stored_tail ccb); [exact HC|apply cb_separate_at|size_lia|exact St].
  - eapply holds_tokens_writes; [by eapply static_sizes|exact W|apply apart_cons, apart_nil; apply Hs|].
    by apply (holds_tokens_drop g ml (oldest a) (queue a) 1).
Qed.

(** A token that was peeked stays until it is popped, whatever the producers push. *)
Lemma outside_receive got a :
  receiving got a ->
  outside mpsc_protocol 0 (LockingClient.receive c) (fun o => receiving (got ++ option_list o)) a.
Proof.
  intros Ha. unfold LockingClient.receive. eapply outside_bind; [by apply outside_peek|]. clear a Ha. intros pos a Ha. cbn beta in Ha.
  destruct (pos <? 0); [apply outside_ret; by rewrite app_nil_r|]. destruct Ha as (tok & Ha & ->).
  pose proof (st_consumer _ Hm0) as Hc0. unfold LockingConsumer.getTokenBuffer, Base.getTokenSize. rewrite (mc_token _ _ _ Hc0).
  eapply outside_getSource; [apply pending_settled|exact Ha|intros a' m (Hs & _); apply (mc_tokens _ _ _ (st_consumer _ Hs))|].
  clear a Ha. intros a Ha. eapply outside_getPointer; [apply pending_settled|exact Ha| |].
  { intros a' m (Hs & _). destruct (tb_slot _ _ _ (mc_tokens _ _ _ (st_consumer _ Hs))) as (n & _ & ?). by exists n. }
  clear a Ha. intros a Ha. cbv zeta. eapply outside_fetch with (r := tok); [apply pending_settled|exact Ha| |].
  { intros a' m Ha' (_ & Hh & _). destruct (pending_head _ _ _ Ha') as [Hhd <-]. specialize (Hh 0%nat tok Hhd). by rewrite Z.add_0_r in Hh. }
  clear a Ha. intros a Ha. eapply outside_bind; [by apply outside_pop|]. intros b a' Ha'. apply outside_ret. by destruct b.
Qed.

(** *** The threads *)

Lemma outside_push_all i pl : plans !! i = Some pl -> forall rqs sent a,
  rqs ⊆ pl_requests pl -> pushing i sent (demand rqs) a ->
  outside mpsc_protocol (S i) (push_all (pl_producer pl) rqs)
    (fun bs a' => length bs = length rqs /\ pushing i (sent ++ accepted bs rqs) 0 a') a.
Proof.
  intros Hi. induction rqs as [|rq rqs IH]; intros sent a Hsub Ha; cbn [push_all].
  - apply outside_ret. by rewrite app_nil_r.
  - eapply outside_bind; [apply (outside_push i pl rq sent (demand rqs)); [done|apply Hsub; left|done]|]. clear a Ha. intros b a Ha.
    eapply outside_bind; [apply IH; [set_solver|exact Ha]|]. clear a Ha. intros bs a [Hl Ha]. apply outside_ret.
    split; [cbn; by rewrite Hl|]. unfold accepted in *. cbn. by rewrite app_assoc.
Qed.

Lemma outside_receive_all n : forall got a,
  receiving got a ->
  outside mpsc_protocol 0 (receive_all c n) (fun os a' => length os = n /\ receiving (got ++ omap id os) a') a.
Proof.
  induction n as [|n IH]; intros got a Ha; cbn [receive_all].
  - apply outside_ret. by rewrite app_nil_r.
  - eapply outside_bind; [by apply outside_receive|]. clear a Ha. intros o a Ha.
    eapply outside_bind; [apply IH; exact Ha|]. clear a Ha. intros os a [Hl Ha]. apply outside_ret.
    split; [cbn; by rewrite Hl|]. rewrite <- app_assoc in Ha. by destruct o.
Qed.

Definition thread_end (n i : nat) (r : outcome) a : Prop :=
  match i with
  | O => exists os, r = Received os /\ length os = n /\ receiving (omap id os) a
  | S i => exists pl bs, plans !! i = Some pl /\ r = Pushed bs /\ length bs = length (pl_requests pl) /\
             of_producer i (log a) = accepted bs (pl_requests pl)
  end.

Lemma thread_end_settled n i r : settled mpsc_protocol i (thread_end n i r).
Proof.
  destruct i as [|i]; intros a a'.
  - intros (os & ? & ? & Hr) Ho. exists os. split_and!; [done..|]. by eapply receiving_settled.
  - intros (pl & bs & ? & ? & ? & E) [E' _]. exists pl, bs. by rewrite E'.
Qed.

Definition ghost_start : ghost := mkGhost 0 [] (map (fun pl => demand (pl_requests pl)) plans).

Lemma pool_start n m :
  static m -> mpsc_rep g c m t0 q0 ->
  t0 + Z.of_nat (length q0) + Z.of_nat (sum_list (map (fun pl => demand (pl_requests pl)) plans)) < SIZE_BOUND ->
  pool_guarded mpsc_protocol (thread_end n) (pool c n plans) m.
Proof.
  intros Hs [(_ & HC & Hq & Hh) Hfree] Hb. assert (Ee : everything ghost_start = q0) by apply app_nil_r.
  assert (Eq : queue ghost_start = q0) by (unfold queue; by rewrite Ee). assert (Et : oldest ghost_start = t0) by (unfold oldest; cbn; lia).
  assert (Ho : ghost_ok ghost_start) by (unfold ghost_ok; rewrite Eq, Ee; split_and!; [cbn; lia|done|done|constructor]).
  assert (Hv : mpsc_visible ghost_start m) by (split_and!; [done|by rewrite Eq, Et|done]).
  exists ghost_start, None. split_and!; [done|by apply bool_decide_eq_false; rewrite Hfree|split_and!; [done|by rewrite Eq, Et|done]|].
  intros [|i] x Hx; cbn in Hx; rewrite bool_decide_false by done.
  - injection Hx as <-. revert m Hs HC Hh Hfree Hv. intros m _ _ _ _ _. revert m. apply outside_bind with (fun os a' => length os = n /\ receiving (omap id os) a').
    + apply (outside_receive_all n []). split; [done|apply prefix_nil].
    + intros os a [? ?]. apply outside_ret. by exists os.
  - apply list_lookup_fmap_Some in Hx as (pl & -> & Hi). clear Hs HC Hh Hfree Hv. revert m.
    eapply outside_bind; [apply (outside_push_all i pl Hi (pl_requests pl) []); [done|]|].
    + split; [done|]. cbn. rewrite list_lookup_fmap, Hi. cbn. eauto.
    + intros bs a (Hl & Hsent & _). apply outside_ret. by exists pl, bs.
Qed.

End Protocol.

(** ** Theorem *)

(** What the threads have done when all have finished: the consumer's answers, the
    producers' answers, the sequence of the accepted requests, and what is left in
    the channel. *)
Definition exchanged {X : Type} {B : CommBackend X} (g : mpsc_geometry) (c : LockingConsumer.t) (plans : list plan) (n : nat)
    (t : Z) (q : list (list byte)) (ps : list (prog (Machine X) outcome)) (m : Machine X) : Prop :=
  exists os bss sent rest,
    ps = Ret (Received os) :: map (fun bs => Ret (Pushed bs)) bss /\ length os = n /\ length bss = length plans /\
    Forall (fun e => (e.1 < length plans)%nat) sent /\
    (forall i pl bs, plans !! i = Some pl -> bss !! i = Some bs ->
       length bs = length (pl_requests pl) /\ of_producer i sent = accepted bs (pl_requests pl)) /\
    q ++ concat sent.*2 = omap id os ++ rest /\
    mpsc_rep g c m (t + Z.of_nat (length (omap id os))) rest.

Section Theorem_.
Context {X : Type} {B : CommBackend X} `{!CommSpec X} `{!CommAtomic X} `{!LockAtomic X}.
Implicit Types m : Machine X.

Definition answers (r : outcome) : list bool := match r with Pushed bs => bs | Received _ => [] end.

Lemma pool_outcome g c plans n t q sl rs m :
  length rs = S (length plans) -> pool_guarded (mpsc_protocol g c plans t q sl) (thread_end plans q n) (map Ret rs) m ->
  exchanged g c plans n t q (map Ret rs) m.
Proof.
  intros Hl HG. destruct (pool_guarded_end _ _ _ _ HG) as (a & (Hv & HC & Hfree) & Hend). destruct rs as [|r0 rs]; [done|].
  destruct (Hend 0%nat r0 eq_refl) as (os & -> & Hn & Hp & k & Ek). destruct Hv as (Hs & Hh & Hgo). pose proof Hgo as (Hle & Hcap & _ & Hall).
  assert (Hprod : forall i r, rs !! i = Some r -> exists pl, plans !! i = Some pl /\ r = Pushed (answers r) /\
    length (answers r) = length (pl_requests pl) /\ of_producer i (log a) = accepted (answers r) (pl_requests pl)).
  { intros i r Hr. destruct (Hend (S i) r Hr) as (pl & bs & ? & -> & ? & ?). by exists pl. }
  exists os, (map answers rs), (log a), (queue q a). split_and!; [|done|by rewrite length_map; injection Hl|done| | |].
  - cbn [map]. f_equal. rewrite map_map. apply map_ext_in. intros r Hr%list_elem_of_In. apply list_elem_of_lookup in Hr as [i Hr].
    destruct (Hprod i r Hr) as (_ & _ & E & _). by rewrite <- E.
  - intros i pl bs Hpl Hbs. apply list_lookup_fmap_Some in Hbs as (r & -> & Hr). destruct (Hprod i r Hr) as (pl' & E & _ & ? & ?).
    rewrite Hpl in E. by injection E as <-.
  - fold (everything q a). unfold queue. rewrite Ek, Hp. by rewrite drop_app_length.
  - split; [|done]. rewrite <- Hp. split_and!; [apply Hs|done..].
Qed.

(** C3: any number of producers, each with its requests to push, and a consumer
    that tries to receive [n] times, run at the same time over a locking channel,
    interleaved in any way: nobody throws or crashes; the threads are stuck only
    when all have finished, and that end can always be reached.  At the end the
    accepted requests form one sequence, in which each producer's accepted
    requests are in its order, and each request's tokens are together; what the
    consumer received is a prefix of the first content followed by that sequence,
    and the channel holds the rest, with its lock free.  A request that does not fit
    is answered with false, where the documentation of push announces an exception. *)
Theorem mpsc_concurrent g c plans n m t q ps m' :
  mpsc_rep g c m t q -> Forall (fun pl => plan_ok g c plans pl m) plans ->
  t + Z.of_nat (length q) + Z.of_nat (sum_list (map (fun pl => demand (pl_requests pl)) plans)) < SIZE_BOUND ->
  pool_steps (pool c n plans, m) (ps, m') ->
  (forall i e x, ps !! i <> Some (Raise e) /\ ps !! i <> Some (Crash x)) /\
  ((forall st, ~ pool_step (ps, m') st) -> exchanged g c plans n t q ps m') /\
  (exists ps' m'', pool_steps (ps, m') (ps', m'') /\ exchanged g c plans n t q ps' m'').
Proof.
  intros Hrep Hplans Hb Hsteps. pose proof Hrep as [(Hc & _) Hfree]. destruct (mc_backed _ _ _ Hc) as (sl & Hsl & _).
  assert (Hs : static g c plans sl m).
  { split; [done|done|intros pl [i Hi]%list_elem_of_lookup; by apply (Forall_lookup_1 _ _ i _ Hplans)|by rewrite Hfree; eexists]. }
  set (pr := mpsc_protocol g c plans t q sl). pose proof (mpsc_protocol_ok g c plans t q sl : Protocol pr) as HPr.
  pose proof (pool_start g c plans t q sl m Hs n m Hs Hrep Hb) as HG. fold pr in HG.
  assert (HG' : pool_guarded pr (thread_end plans q n) ps m') by (eapply pool_guarded_steps; [exact HPr|apply thread_end_settled|exact HG|exact Hsteps]).
  assert (Hl : length ps = S (length plans)) by (rewrite (pool_steps_length _ _ _ _ Hsteps); cbn; by rewrite length_map).
  assert (Hend : forall qs u, pool_guarded pr (thread_end plans q n) qs u -> length qs = S (length plans) ->
    (forall st, ~ pool_step (qs, u) st) -> exchanged g c plans n t q qs u).
  { intros qs u Hq Hlq Hst. destruct (pool_finished pr _ qs u Hq Hst) as [rs ->]. rewrite length_map in Hlq. by eapply pool_outcome. }
  split_and!; [|by apply Hend|].
  - intros i e x. split; intros Ei; destruct (pool_guarded_moves pr _ ps m' i _ HG' Ei) as [[r Er]|(p' & s' & Ht)]; try done; inversion Ht.
  - destruct (pool_reaches (fun qs u => pool_guarded pr (thread_end plans q n) qs u /\ length qs = S (length plans))
      (exchanged g c plans n t q) ps m') as (ps' & m'' & ? & ?); [..|by split|by eauto].
    + intros qs u qs' u' [Hq Hlq] Hst. split; [eapply pool_guarded_step; [exact HPr|apply thread_end_settled|done..]|].
      by rewrite (pool_steps_length _ _ _ _ (rtc_once _ _ Hst)).
    + intros qs u [Hq Hlq]. destruct (pool_can_step qs u) as [?|Hst]; [by right|left; by apply Hend].
Qed.

End Theorem_.

(** ** A concrete channel with two producers *)

Module ConcurrentLockingDemo.

Definition plans : list plan :=
  [mkPlan (LockingDemo.producer 1) (Ptr 1 0) [mkRequest 4 (Ptr 4 0) 4 [[x0a; x0b]; [x0c; x0d]]];
   mkPlan (LockingDemo.producer 2) (Ptr 2 0) [mkRequest 5 (Ptr 5 0) 2 [[x00; x00]]; mkRequest 5 (Ptr 5 0) 2 [[x00; x00]]]].

Lemma request_demo rq :
  rq = mkRequest 4 (Ptr 4 0) 4 [[x0a; x0b]; [x0c; x0d]] \/ rq = mkRequest 5 (Ptr 5 0) 2 [[x00; x00]] ->
  request_ok LockingDemo.geom plans rq LockingDemo.machine.
Proof.
  intros [-> | ->]; (split; [by eexists|by vm_compute| |by repeat constructor]).
  - intros [|[|i]] tok Hi; [by injection Hi as <-..|done].
  - intros [|i] tok Hi; [by injection Hi as <-|done].
Qed.

Lemma plans_demo : Forall (fun pl => plan_ok LockingDemo.geom LockingDemo.consumer plans pl LockingDemo.machine) plans.
Proof.
  constructor; [|constructor; [|constructor]]; (split; [apply LockingDemo.attached_demo; auto|]); cbn [pl_requests]; intros rq Hrq; apply request_demo.
  - apply list_elem_of_singleton in Hrq. by left.
  - right. apply elem_of_cons in Hrq as [->|Hrq]; [done|]. by apply list_elem_of_singleton in Hrq.
Qed.

(** The second producer finds the lock taken by the first one and is refused; its
    second request is accepted between the consumer's peek and pop. *)
Example interleaved_producers :
  fst <$> schedule (replicate 6 1%nat ++ replicate 4 2%nat ++ replicate 57 1%nat ++ replicate 12 0%nat ++ replicate 47 2%nat ++ replicate 60 0%nat)
            (pool LockingDemo.consumer 3 plans) LockingDemo.machine =
  Some [Ret (Received [Some [x0a; x0b]; Some [x0c; x0d]; Some [x00; x00]]); Ret (Pushed [true]); Ret (Pushed [false; true])].
Proof. vm_compute. reflexivity. Qed.

Lemma mpsc_concurrent_witness :
  exists ps m, pool_steps (pool LockingDemo.consumer 3 plans, LockingDemo.machine) (ps, m) /\
    exchanged LockingDemo.geom LockingDemo.consumer plans 3 0 [] ps m.
Proof.
  refine (proj2 (proj2 (mpsc_concurrent LockingDemo.geom LockingDemo.consumer plans 3 LockingDemo.machine 0 [] _ _
            LockingDemo.mpsc_rep_demo plans_demo _ (rtc_refl _ _)))). by vm_compute.
Defined.

End ConcurrentLockingDemo.
