(* ===== verification/HelperQueue.v ===== *)
(** * The helper queue of the non-locking MPSC channels

    The consumers of [frontends/channel/fixedSize/mpsc/nonlocking] and
    [frontends/channel/variableSize/mpsc/nonlocking] keep a queue with one entry
    per token they have noticed, the index of the channel it is in, and the depth
    of every channel at that time.  This file has the loops over them that both
    consumers contain, and the invariant that ties them to the real depths. *)

From S2P Require Import Prelude.
From Stdlib Require Import ZArith Lia.
From stdpp Require Import base gmap option list.

Local Open Scope Z_scope.
Local Open Scope hicr_scope.

Module HelperQueue.

(** [for (auto d : _depths) totalDepth += d]. *)
Definition total (depths : list Z) : Z := fold_left (fun acc d => acc +w d) depths 0.

(** For every channel [i], its index once per token that arrived since the last update. *)
Fixpoint arrivals (i : nat) (old new : list Z) : list nat :=
  match old, new with
  | o :: old', n :: new' => replicate (Z.to_nat (n - o)) i ++ arrivals (S i) old' new'
  | _, _ => []
  end.

End HelperQueue.

(** The number of entries of the helper queue for channel [i]. *)
Definition occ (i : nat) (l : list nat) : nat := length (filter (fun x => x = i) l).

Arguments occ : simpl never.

(** The queue and the recorded depths for channels that hold [ns] tokens: the
    queue lists tokens that are in the channels, and the depths count them. *)
Record helper_ok (ns pushes : list nat) (depths : list Z) : Prop := mkHelperOk {
  hq_pushes : Forall (fun i => i < length ns)%nat pushes;
  hq_depths : depths = map (fun i => Z.of_nat (occ i pushes)) (seq 0 (length ns));
  hq_known : forall i n, ns !! i = Some n -> (occ i pushes <= n)%nat;
  hq_total : Z.of_nat (sum_list ns) < SIZE_BOUND
}.

(** The helper queue after the consumer has noticed every token. *)
Definition noticed (ns pushes : list nat) : list nat :=
  pushes ++ HelperQueue.arrivals 0 (map (fun i => Z.of_nat (occ i pushes)) (seq 0 (length ns))) (map Z.of_nat ns).

(** ** Counting *)

Lemma occ_app i l k : occ i (l ++ k) = (occ i l + occ i k)%nat.
Proof. unfold occ. by rewrite filter_app, length_app. Qed.

Lemma occ_cons i j l : occ i (j :: l) = ((if decide (j = i) then 1 else 0) + occ i l)%nat.
Proof. unfold occ. rewrite filter_cons. by case_decide. Qed.

Lemma occ_replicate i n j : occ i (replicate n j) = if decide (j = i) then n else 0%nat.
Proof.
  induction n as [|n IH]; cbn [replicate]; [by case_decide|]. rewrite occ_cons, IH. case_decide; lia.
Qed.

Lemma occ_arrivals_below j : forall old new i,
  (j < i)%nat -> occ j (HelperQueue.arrivals i old new) = 0%nat.
Proof.
  induction old as [|o old IH]; intros [|n new] i Hj; cbn [HelperQueue.arrivals]; try done.
  rewrite occ_app, occ_replicate, decide_False, IH by lia. done.
Qed.

Lemma occ_arrivals o n : forall k old new i,
  old !! k = Some o -> new !! k = Some n -> occ (i + k) (HelperQueue.arrivals i old new) = Z.to_nat (n - o).
Proof.
  induction k as [|k IH]; intros [|o' old] [|n' new] i Ho Hn; try done; cbn [HelperQueue.arrivals];
    rewrite occ_app, occ_replicate.
  - injection Ho as ->. injection Hn as ->. rewrite decide_True, occ_arrivals_below by lia. lia.
  - rewrite decide_False by lia. replace (i + S k)%nat with (S i + k)%nat by lia. by rewrite (IH old new).
Qed.

Lemma arrivals_bound n : forall old new i,
  (i + length old <= n)%nat -> Forall (fun x => x < n)%nat (HelperQueue.arrivals i old new).
Proof.
  induction old as [|o old IH]; intros [|z new] i Hl; cbn [HelperQueue.arrivals]; try by constructor.
  cbn in Hl. apply Forall_app. split; [apply Forall_replicate; lia|]. apply IH. lia.
Qed.

Lemma total_spec l :
  Forall (fun d => 0 <= d) l -> foldr Z.add 0 l < SIZE_BOUND -> HelperQueue.total l = foldr Z.add 0 l.
Proof.
  unfold HelperQueue.total. intros Hl.
  assert (G : forall acc, 0 <= acc -> acc + foldr Z.add 0 l < SIZE_BOUND ->
              fold_left (fun acc d => acc +w d) l acc = acc + foldr Z.add 0 l).
  { induction Hl as [|d l Hd Hl IH]; intros acc Ha Hs; cbn in *; [lia|].
    assert (0 <= foldr Z.add 0 l) by (clear -Hl; induction Hl; cbn; lia).
    rewrite wrap64_small by size_lia. rewrite IH by lia. lia. }
  intros Hs. rewrite G by lia. lia.
Qed.

Lemma sum_foldr {A : Type} (f : A -> nat) l :
  foldr Z.add 0 (map (fun x => Z.of_nat (f x)) l) = Z.of_nat (sum_list_with f l).
Proof. induction l as [|x l IH]; cbn; lia. Qed.

(** Every entry of the helper queue is counted for exactly one channel. *)
Lemma sum_occ n l :
  Forall (fun x => x < n)%nat l -> sum_list_with (fun i => occ i l) (seq 0 n) = length l.
Proof.
  induction 1 as [|x l Hx _ IH]; cbn [length].
  - by induction (seq 0 n).
  - rewrite <- IH.
    assert (G : forall k a, sum_list_with (fun i => occ i (x :: l)) (seq a k) =
      ((if decide (a <= x < a + k)%nat then 1 else 0) + sum_list_with (fun i => occ i l) (seq a k))%nat).
    { induction k as [|k IHk]; intros a; cbn; [rewrite decide_False by lia; done|].
      rewrite IHk, occ_cons. repeat case_decide; lia. }
    rewrite G, decide_True by lia. lia.
Qed.

Lemma sum_list_lookup (ns : list nat) i n : ns !! i = Some n -> (n <= sum_list ns)%nat.
Proof.
  revert i. induction ns as [|x ns IH]; intros [|i] Hi; cbn in *; simplify_eq; [lia|]. specialize (IH _ Hi). lia.
Qed.

Lemma sum_list_alter_pred (ns : list nat) i : (sum_list (alter pred i ns) <= sum_list ns)%nat.
Proof. revert i. induction ns as [|x ns IH]; intros [|i]; cbn; [done..|lia|]. specialize (IH i). cbn in IH. lia. Qed.

(** ** The invariant *)

Section Helper.
Context (ns pushes : list nat) (depths : list Z).
Hypothesis Hok : helper_ok ns pushes depths.

(** Every token in the channels is listed once it has been noticed. *)
Lemma occ_noticed i n : ns !! i = Some n -> occ i (noticed ns pushes) = n.
Proof.
  intros Hi. unfold noticed. rewrite occ_app. pose proof (hq_known _ _ _ Hok _ _ Hi). pose proof (lookup_lt_Some _ _ _ Hi).
  change i with (0 + i)%nat at 2. erewrite occ_arrivals.
  2:{ apply list_lookup_fmap_Some. exists i. split; [done|]. by apply lookup_seq_lt. }
  2:{ apply list_lookup_fmap_Some. by exists n. }
  lia.
Qed.

Lemma noticed_bound : Forall (fun i => i < length ns)%nat (noticed ns pushes).
Proof. apply Forall_app. split; [apply Hok|]. apply arrivals_bound. by rewrite length_map, length_seq. Qed.

Lemma noticed_depths : map Z.of_nat ns = map (fun i => Z.of_nat (occ i (noticed ns pushes))) (seq 0 (length ns)).
Proof.
  apply list_eq. intros i. rewrite !list_lookup_fmap. destruct (decide (i < length ns)%nat) as [Hi|Hi].
  - rewrite lookup_seq_lt by done. destruct (lookup_lt_is_Some_2 _ _ Hi) as [n Hn].
    rewrite Hn. cbn. by rewrite (occ_noticed i n).
  - rewrite (proj2 (lookup_ge_None ns i)) by lia. by rewrite lookup_seq_ge by lia.
Qed.

(** The recorded depths add up to the length of the helper queue. *)
Lemma total_depths : HelperQueue.total (map Z.of_nat ns) = Z.of_nat (length (noticed ns pushes)).
Proof.
  assert (Hs : foldr Z.add 0 (map Z.of_nat ns) = Z.of_nat (sum_list ns)) by apply (sum_foldr (fun n => n)).
  rewrite total_spec.
  - pose proof (f_equal (foldr Z.add 0) noticed_depths) as E. rewrite (sum_foldr (fun i => occ i _)), sum_occ in E by apply noticed_bound. done.
  - apply Forall_fmap, Forall_true. intros n. cbn. lia.
  - rewrite Hs. apply Hok.
Qed.

Lemma helper_noticed : helper_ok ns (noticed ns pushes) (map Z.of_nat ns).
Proof.
  split; [apply noticed_bound|apply noticed_depths| |apply Hok]. intros i n Hi. by rewrite (occ_noticed i n Hi).
Qed.

(** The channel at the front of the queue has a token. *)
Lemma noticed_front i rest :
  noticed ns pushes = i :: rest -> exists n, ns !! i = Some n /\ (0 < n)%nat.
Proof.
  intros E. pose proof noticed_bound as Hb. rewrite E in Hb. apply Forall_cons in Hb as [Hi _].
  destruct (lookup_lt_is_Some_2 _ _ Hi) as [n Hn]. exists n. split; [done|].
  rewrite <- (occ_noticed i n Hn), E, occ_cons, decide_True by done. lia.
Qed.

Lemma noticed_none : noticed ns pushes = [] -> Forall (fun n => n = 0%nat) ns.
Proof. intros E. apply Forall_lookup. intros i n Hi. by rewrite <- (occ_noticed i n Hi), E. Qed.

(** Removing the front entry and one token of its channel. *)
Lemma helper_pop i rest :
  noticed ns pushes = i :: rest -> helper_ok (alter pred i ns) rest (alter (fun d => d -w 1) i (map Z.of_nat ns)).
Proof.
  intros E. destruct (noticed_front _ _ E) as (n & Hn & Hpos). pose proof noticed_bound as Hb. rewrite E in Hb.
  apply Forall_cons in Hb as [Hi Hb]. pose proof (occ_noticed _ _ Hn) as Ho. rewrite E, occ_cons, decide_True in Ho by done.
  pose proof (sum_list_lookup _ _ _ Hn). pose proof (hq_total _ _ _ Hok). split.
  - by rewrite length_alter.
  - rewrite length_alter, noticed_depths, E. apply list_eq. intros j. destruct (decide (i = j)) as [<-|Hne].
    + rewrite list_lookup_alter_eq, !list_lookup_fmap, !lookup_seq_lt by done. cbn. f_equal.
      rewrite occ_cons, decide_True by done. rewrite wrap64_small by size_lia. lia.
    + rewrite list_lookup_alter_ne by done. rewrite !list_lookup_fmap.
      destruct (seq 0 (length ns) !! j) as [k|] eqn:Ek; [|done]. apply lookup_seq in Ek as [-> _]. cbn.
      by rewrite occ_cons, decide_False by done.
  - intros j x Hj. destruct (decide (i = j)) as [<-|Hne].
    + rewrite list_lookup_alter_eq, Hn in Hj. injection Hj as <-. cbn. lia.
    + rewrite list_lookup_alter_ne in Hj by done. rewrite <- (occ_noticed _ _ Hj), E, occ_cons. lia.
  - pose proof (sum_list_alter_pred ns i). lia.
Qed.

End Helper.
