(* ===== verification/FixedMPSCNonlocking.v ===== *)
(** * The fixed-size multiple-producer single-consumer channel, non-locking version

    Models [frontends/channel/fixedSize/mpsc/nonlocking/consumer.hpp] and
    [producer.hpp]: every producer has a single-producer channel of its own, and
    the consumer keeps a helper queue with the order in which it noticed their
    tokens.  The consumer object is the second component of the state. *)

From S2P Require Import Prelude Memory CommunicationManager Pthreads CircularBuffer Channel TokenBuffer FixedSPSC HelperQueue.
From Stdlib Require Import ZArith Lia.
From Stdlib.Strings Require Import Byte.
From stdpp Require Import base gmap option list.

Local Open Scope Z_scope.
Local Open Scope hicr_scope.

(** The producer is the one of the SPSC channel. *)
Module NonlockingProducer.

Definition make {X : Type} (ccm pcm tokenBuffer internalCoordinationBuffer producerCoordinationBuffer : nat)
    (tokenSize capacity : Z) : prog (Machine X) Producer.t :=
  Producer.make ccm pcm tokenBuffer internalCoordinationBuffer producerCoordinationBuffer tokenSize capacity.

End NonlockingProducer.

Module NonlockingConsumer.

Record t : Type := mk {
  _tokenBuffers : list nat;
  _spscList : list Consumer.t;
  _channelPushes : list nat;
  _depths : list Z;
  _coordinationCommunicationManager : nat;
  _payloadCommunicationManager : nat
}.

Definition set_pushes (l : list nat) (o : t) : t :=
  mk (_tokenBuffers o) (_spscList o) l (_depths o)
     (_coordinationCommunicationManager o) (_payloadCommunicationManager o).

Definition set_depths (l : list Z) (o : t) : t :=
  mk (_tokenBuffers o) (_spscList o) (_channelPushes o) l
     (_coordinationCommunicationManager o) (_payloadCommunicationManager o).

Section Operations.
Context {X : Type} {B : CommBackend X}.

(** One SPSC consumer per producer; the assertions make the indexing safe. *)
Definition make (ccm pcm : nat) (tokenBuffers internalCoordinationBuffers producerCoordinationBuffers : list nat)
    (tokenSize capacity : Z) : prog (Machine X) t :=
  _ ← assert_ (length internalCoordinationBuffers =? length producerCoordinationBuffers)%nat;
  _ ← assert_ (length internalCoordinationBuffers =? length tokenBuffers)%nat;
  spscs ← map_each (fun '(tokenBuffer, (internal, producer)) =>
             Consumer.make ccm pcm tokenBuffer internal producer tokenSize capacity)
           (zip tokenBuffers (zip internalCoordinationBuffers producerCoordinationBuffers));
  mret (mk tokenBuffers spscs [] (replicate (length spscs) 0) ccm pcm).

Definition getDepth : prog (Machine X * t) Z := this (fun o => HelperQueue.total (_depths o)).

Definition isEmpty : prog (Machine X * t) bool := d ← getDepth; mret (d =? 0).

Definition updateDepth : prog (Machine X * t) unit :=
  spscs ← this _spscList;
  newDepths ← map_each (fun c =>
      on_fst (_ ← Consumer.updateDepth c; Base.getDepth (Consumer.base c))) spscs;
  _ ← set_this (fun o => set_pushes (_channelPushes o ++ HelperQueue.arrivals 0 (_depths o) newDepths) o);
  _ ← set_this (set_depths newDepths);
  depth ← getDepth;
  size ← this (fun o => Z.of_nat (length (_channelPushes o)));
  throw_if (negb (depth =? size)) logic.

(** The channel of the oldest token, and its position in that channel's buffer. *)
Definition peek (pos : Z) : prog (Machine X * t) (nat * Z) :=
  _ ← throw_if (pos >? 0) logic;
  ccm ← this _coordinationCommunicationManager;
  pcm ← this _payloadCommunicationManager;
  _ ← on_fst (flushReceived ccm);
  _ ← on_fst (flushReceived pcm);
  _ ← updateDepth;
  pushes ← this _channelPushes;
  match pushes with
  | [] => Raise runtime
  | channelId :: _ =>
      spscs ← this _spscList;
      match spscs !! channelId with
      | None => Raise logic
      | Some c => i ← on_fst (Consumer.peek c 0); mret (channelId, i)
      end
  end.

(** [_channelPushes.front()] of an empty queue is undefined behaviour, and so is
    [_channelPushes.pop()]. *)
Definition pop (n : Z) : prog (Machine X * t) unit :=
  _ ← updateDepth;
  depth ← getDepth;
  if n >? depth then Raise runtime else
  pushes ← this _channelPushes;
  match pushes with
  | [] => Crash undefined
  | channelFirstPushed :: _ =>
      spscs ← this _spscList;
      match spscs !! channelFirstPushed with
      | None => Raise logic
      | Some c =>
          for_loop (Z.to_nat n) 0 (fun _ =>
            _ ← on_fst (Consumer.pop c 1);
            _ ← set_this (fun o => set_depths (alter (fun d => d -w 1) channelFirstPushed (_depths o)) o);
            rest ← this _channelPushes;
            match rest with
            | [] => Crash undefined
            | _ :: rest' => set_this (set_pushes rest')
            end)
      end
  end.

Definition getTokenBuffers (o : t) : list nat := _tokenBuffers o.

End Operations.
End NonlockingConsumer.

(** ** The representation *)

(** One of the producers' channels: where it lies, its producer, the index of
    its oldest token and its tokens. *)
Record chan : Type := mkChan {
  ch_geometry : geometry;
  ch_producer : Producer.t;
  ch_first : Z;
  ch_tokens : list (list byte)
}.

(** The number of tokens in each channel. *)
Definition sizes (chs : list chan) : list nat := map (fun ch => length (ch_tokens ch)) chs.

Definition chan_ok {X : Type} (m : Machine X) (ch : chan) (c : Consumer.t) : Prop :=
  channel_rep (ch_geometry ch) (ch_producer ch) c m (ch_first ch) (ch_tokens ch).

(** Popping from one channel does not write to another. *)
Definition chans_apart (chs : list chan) : Prop :=
  forall i j a b, i <> j -> chs !! i = Some a -> chs !! j = Some b ->
    apart (coordination_footprint (ch_geometry a)) (gProducer (ch_geometry b)) 16 /\
    apart (coordination_footprint (ch_geometry a)) (gConsumer (ch_geometry b)) 16 /\
    apart (coordination_footprint (ch_geometry a)) (gTokens (ch_geometry b))
      (gTokenSize (ch_geometry b) * gCapacity (ch_geometry b)).

(** The SPSC channels, and the helper queue over them. *)
Record nonlocking_rep {X : Type} (chs : list chan) (m : Machine X) (o : NonlockingConsumer.t) : Prop := mkNonlockingRep {
  nl_chans : Forall2 (chan_ok m) chs (NonlockingConsumer._spscList o);
  nl_apart : chans_apart chs;
  nl_helper : helper_ok (sizes chs) (NonlockingConsumer._channelPushes o) (NonlockingConsumer._depths o)
}.

(** ** Helper lemmas *)

(** One token leaves a channel. *)
Definition pop_chan (ch : chan) : chan :=
  mkChan (ch_geometry ch) (ch_producer ch) (ch_first ch + 1) (drop 1 (ch_tokens ch)).

(** The consumer object once every token has been noticed. *)
Definition updated (chs : list chan) (o : NonlockingConsumer.t) : NonlockingConsumer.t :=
  NonlockingConsumer.set_depths (map Z.of_nat (sizes chs))
    (NonlockingConsumer.set_pushes (noticed (sizes chs) (NonlockingConsumer._channelPushes o)) o).

Section Facts.
Context {X : Type} {B : CommBackend X} `{!CommSpec X}.
Implicit Types (m : Machine X) (o : NonlockingConsumer.t).

Lemma sizes_lookup chs i ch : chs !! i = Some ch -> sizes chs !! i = Some (length (ch_tokens ch)).
Proof. intros Hi. unfold sizes. by rewrite list_lookup_fmap, Hi. Qed.

Lemma sizes_pop chs i : sizes (alter pop_chan i chs) = alter pred i (sizes chs).
Proof.
  revert i. unfold sizes. induction chs as [|ch chs IH]; intros [|i]; cbn; [done..| |].
  - f_equal. destruct (ch_tokens ch); [done|]. cbn. by rewrite drop_0.
  - f_equal. apply IH.
Qed.

Lemma run_updateDepth chs m o :
  nonlocking_rep chs m o ->
  run NonlockingConsumer.updateDepth (m, o) = Done tt (m, updated chs o) /\ nonlocking_rep chs m (updated chs o).
Proof.
  intros Hr. pose proof Hr as [? ? Hh]. split; cycle 1.
  { split; [done..|]. by eapply helper_noticed. }
  unfold NonlockingConsumer.updateDepth. rewrite (run_bind_Done _ _ _ _ _ (run_this _ m o)).
  erewrite run_bind_Done.
  2:{ apply (run_map_each_pure _ _ (map Z.of_nat (sizes chs))).
      unfold sizes. rewrite map_map, Forall2_fmap_r, <- Forall2_flip. eapply Forall2_impl; [apply (nl_chans _ _ _ Hr)|].
      intros ch c (Hc & _ & HC & _). apply run_on_fst_Done.
      erewrite run_bind_Done by done. unfold Base.getDepth.
      change (Base._circularBuffer _) with (Consumer.circular c). rewrite (con_ccircular _ _ _ _ Hc).
      rewrite (run_getDepth_ok _ _ _ _ HC) by lia. f_equal. lia. }
  rewrite (run_bind_Done _ _ _ _ _ (run_set_this _ m o)).
  erewrite run_bind_Done by apply run_set_this.
  unfold NonlockingConsumer.getDepth. erewrite run_bind_Done by apply run_this.
  erewrite run_bind_Done by apply run_this. cbn [NonlockingConsumer._depths NonlockingConsumer._channelPushes
    NonlockingConsumer.set_depths NonlockingConsumer.set_pushes].
  rewrite (hq_depths _ _ _ Hh). change (_ ++ HelperQueue.arrivals 0 _ _)
    with (noticed (sizes chs) (NonlockingConsumer._channelPushes o)).
  rewrite (total_depths _ _ _ Hh). apply run_throw_if_false. by rewrite Z.eqb_refl.
Qed.

(** A channel listed in the noticed queue has a token. *)
Lemma noticed_head chs m o i rest :
  nonlocking_rep chs m o -> noticed (sizes chs) (NonlockingConsumer._channelPushes o) = i :: rest ->
  exists ch c, chs !! i = Some ch /\ NonlockingConsumer._spscList o !! i = Some c /\ chan_ok m ch c /\
    (0 < length (ch_tokens ch))%nat.
Proof.
  intros Hr E. destruct (noticed_front _ _ _ (nl_helper _ _ _ Hr) _ _ E) as (n & Hn & Hpos).
  unfold sizes in Hn. apply list_lookup_fmap_Some in Hn as (ch & -> & Hch).
  destruct (Forall2_lookup_l _ _ _ _ _ (nl_chans _ _ _ Hr) Hch) as (c & Hc & Hok). by exists ch, c.
Qed.

(** Popping one token of a channel keeps the others. *)
Lemma run_pop_chan chs spscs m i ch c :
  Forall2 (chan_ok m) chs spscs -> chans_apart chs -> chs !! i = Some ch -> spscs !! i = Some c ->
  (0 < length (ch_tokens ch))%nat ->
  exists m', run (Consumer.pop c 1) m = Done tt m' /\ Forall2 (chan_ok m') (alter pop_chan i chs) spscs.
Proof.
  intros Hf Ha Hch Hc Hlen. pose proof (Forall2_lookup_lr _ _ _ _ _ _ Hf Hch Hc) as Hok.
  destruct (run_pop (ch_geometry ch) (ch_producer ch) c m (ch_first ch) (ch_tokens ch) 1 Hok) as (m' & E & W & Hok'); [lia|].
  exists m'. split; [done|]. apply Forall2_same_length_lookup. split.
  { rewrite length_alter. by eapply Forall2_length. }
  intros j x y Hx Hy. destruct (decide (i = j)) as [<-|Hne].
  - rewrite list_lookup_alter_eq, Hch in Hx. injection Hx as <-. rewrite Hc in Hy. by injection Hy as <-.
  - rewrite list_lookup_alter_ne in Hx by done. destruct (Ha i j ch x Hne Hch Hx) as (? & ? & ?).
    eapply channel_rep_writes; [|exact W|done..]. exact (Forall2_lookup_lr _ _ _ _ _ _ Hf Hx Hy).
Qed.

Lemma chans_apart_pop i chs : chans_apart chs -> chans_apart (alter pop_chan i chs).
Proof.
  intros Ha j k a b Hne Hj Hk.
  assert (G : forall l x, alter pop_chan i chs !! l = Some x ->
            exists y, chs !! l = Some y /\ ch_geometry y = ch_geometry x).
  { intros l x Hx. destruct (decide (i = l)) as [<-|Hd].
    - rewrite list_lookup_alter_eq in Hx. destruct (chs !! i) as [y|]; [|done]. injection Hx as <-. by exists y.
    - rewrite list_lookup_alter_ne in Hx by done. by exists x. }
  destruct (G _ _ Hj) as (a' & Hj' & <-), (G _ _ Hk) as (b' & Hk' & <-). by apply (Ha j k).
Qed.

(** [n] tokens leave channel [i]. *)
Definition pop_chans (n : nat) (i : nat) (chs : list chan) : list chan := Nat.iter n (alter pop_chan i) chs.

Lemma pop_chans_tokens n i chs ch :
  chs !! i = Some ch ->
  exists ch', pop_chans n i chs !! i = Some ch' /\ ch_tokens ch' = drop n (ch_tokens ch) /\
    ch_first ch' = ch_first ch + Z.of_nat n.
Proof.
  intros Hi. induction n as [|n IH]; [exists ch; split_and!; [done..|lia]|].
  destruct IH as (ch' & E & Ht & Hf). exists (pop_chan ch').
  change (pop_chans (S n) i chs) with (alter pop_chan i (pop_chans n i chs)). split_and!.
  - rewrite list_lookup_alter_eq, E. done.
  - cbn. rewrite Ht, drop_drop. f_equal. lia.
  - cbn. rewrite Hf. lia.
Qed.

(** The loop of a pop takes all its tokens from the channel of the first entry. *)
Lemma run_pop_loop chs spscs m i ch c n pushes depths o :
  Forall2 (chan_ok m) chs spscs -> chans_apart chs -> chs !! i = Some ch -> spscs !! i = Some c ->
  (n <= length (ch_tokens ch))%nat -> (n <= length pushes)%nat ->
  exists m',
    run (for_loop n 0 (fun _ =>
           _ ← on_fst (Consumer.pop c 1);
           _ ← set_this (fun o => NonlockingConsumer.set_depths
                 (alter (fun d => d -w 1) i (NonlockingConsumer._depths o)) o);
           rest ← this NonlockingConsumer._channelPushes;
           match rest with
           | [] => Crash undefined
           | _ :: rest' => set_this (NonlockingConsumer.set_pushes rest')
           end))
      (m, NonlockingConsumer.set_depths depths (NonlockingConsumer.set_pushes pushes o)) =
    Done tt (m', NonlockingConsumer.set_depths (Nat.iter n (alter (fun d => d -w 1) i) depths)
                   (NonlockingConsumer.set_pushes (drop n pushes) o)) /\
    Forall2 (chan_ok m') (pop_chans n i chs) spscs /\ chans_apart (pop_chans n i chs).
Proof.
  intros Hf Ha Hch Hc Hn Hp.
  set (I := fun k (st : Machine X * NonlockingConsumer.t) =>
    Forall2 (chan_ok st.1) (pop_chans (Z.to_nat k) i chs) spscs /\ chans_apart (pop_chans (Z.to_nat k) i chs) /\
    st.2 = NonlockingConsumer.set_depths (Nat.iter (Z.to_nat k) (alter (fun d => d -w 1) i) depths)
             (NonlockingConsumer.set_pushes (drop (Z.to_nat k) pushes) o)).
  edestruct (run_for_loop_inv I) as ([m' o'] & E & HI); cycle 2.
  - unfold I in HI. cbn [fst snd] in HI. rewrite Z.add_0_l, Nat2Z.id in HI. destruct HI as (? & ? & ->).
    by exists m'.
  - by split_and!.
  - intros k [u ou] Hk (Hfu & Hau & Eo). cbn [fst snd] in *. subst ou.
    destruct (pop_chans_tokens (Z.to_nat k) i chs ch Hch) as (ch' & Hch' & Ht' & _).
    destruct (run_pop_chan _ _ u i ch' c Hfu Hau Hch' Hc) as (u' & Eu & Hfu'); [rewrite Ht', length_drop; lia|].
    destruct (drop (Z.to_nat k) pushes) as [|x rest] eqn:Ed.
    { apply (f_equal length) in Ed. rewrite length_drop in Ed. cbn in Ed. lia. }
    eexists. split.
    + erewrite run_bind_Done by (apply run_on_fst_Done; exact Eu).
      erewrite run_bind_Done by apply run_set_this. erewrite run_bind_Done by apply run_this. cbn. done.
    + unfold I. replace (Z.to_nat (k + 1)) with (S (Z.to_nat k)) by lia. cbn [fst snd].
      split_and!; [done|by apply chans_apart_pop|].
      replace (drop (S (Z.to_nat k)) pushes) with rest; [done|].
      by rewrite <- Nat.add_1_r, <- drop_drop, Ed.
Qed.

(** A pop that the front channel can serve. *)
Lemma run_pop_nonlocking chs m o i rest ch n :
  nonlocking_rep chs m o -> noticed (sizes chs) (NonlockingConsumer._channelPushes o) = i :: rest ->
  chs !! i = Some ch -> (n <= length (ch_tokens ch))%nat ->
  exists m', run (NonlockingConsumer.pop (Z.of_nat n)) (m, o) =
      Done tt (m', NonlockingConsumer.set_depths
                     (Nat.iter n (alter (fun d => d -w 1) i) (NonlockingConsumer._depths (updated chs o)))
                     (NonlockingConsumer.set_pushes (drop n (i :: rest)) o)) /\
    Forall2 (chan_ok m') (pop_chans n i chs) (NonlockingConsumer._spscList o) /\ chans_apart (pop_chans n i chs).
Proof.
  intros Hr E Hch Hn. destruct (run_updateDepth chs m o Hr) as [Eu Hu].
  destruct (noticed_head _ _ _ _ _ Hr E) as (ch' & c & Hch' & Hc & _ & _).
  pose proof (occ_noticed _ _ _ (nl_helper _ _ _ Hr) _ _ (sizes_lookup _ _ _ Hch)) as Ho.
  assert (Hle : (n <= length (i :: rest))%nat).
  { rewrite <- E. etransitivity; [exact Hn|]. rewrite <- Ho. unfold occ. apply length_filter. }
  unfold NonlockingConsumer.pop. rewrite (run_bind_Done _ _ _ _ _ Eu).
  unfold NonlockingConsumer.getDepth. erewrite run_bind_Done by apply run_this.
  cbn [NonlockingConsumer._depths updated NonlockingConsumer.set_depths].
  rewrite (total_depths _ _ _ (nl_helper _ _ _ Hr)), E. case_bool; [lia|].
  erewrite run_bind_Done by apply run_this.
  cbn [NonlockingConsumer._channelPushes updated NonlockingConsumer.set_depths NonlockingConsumer.set_pushes]. rewrite E.
  erewrite run_bind_Done by apply run_this.
  cbn [NonlockingConsumer._spscList updated NonlockingConsumer.set_depths NonlockingConsumer.set_pushes]. rewrite Hc, Nat2Z.id.
  destruct (run_pop_loop chs (NonlockingConsumer._spscList o) m i ch c n (i :: rest)
              (NonlockingConsumer._depths (updated chs o)) o (nl_chans _ _ _ Hr) (nl_apart _ _ _ Hr) Hch Hc Hn Hle)
    as (m' & El & Hf & Ha).
  exists m'. split_and!; [|done|done]. refine (eq_trans _ El). unfold updated. by rewrite E.
Qed.

Lemma pop_chans_other n i j chs : i <> j -> pop_chans n i chs !! j = chs !! j.
Proof.
  intros Hne. induction n as [|n IH]; [done|].
  change (pop_chans (S n) i chs) with (alter pop_chan i (pop_chans n i chs)).
  by rewrite list_lookup_alter_ne.
Qed.

(** ** Theorems *)

Lemma run_nl_peek chs m o :
  nonlocking_rep chs m o ->
  nonlocking_rep chs m (updated chs o) /\
  match noticed (sizes chs) (NonlockingConsumer._channelPushes o) with
  | [] => run (NonlockingConsumer.peek 0) (m, o) = Thrown runtime (m, updated chs o) /\
          Forall (fun ch => ch_tokens ch = []) chs
  | i :: _ => exists ch tok toks pos, chs !! i = Some ch /\ ch_tokens ch = tok :: toks /\
      run (NonlockingConsumer.peek 0) (m, o) = Done (i, pos) (m, updated chs o) /\
      mem_load (heap m) (ptr_add (gTokens (ch_geometry ch)) (gTokenSize (ch_geometry ch) * pos))
        (gTokenSize (ch_geometry ch)) = Some tok
  end.
Proof.
  intros Hr. destruct (run_updateDepth chs m o Hr) as [Eu Hu]. split; [done|].
  unfold NonlockingConsumer.peek. erewrite run_bind_Done by (by apply run_throw_if_false).
  do 2 erewrite run_bind_Done by apply run_this.
  do 2 erewrite run_bind_Done by (apply run_on_fst_Done, flushReceived_ok).
  rewrite (run_bind_Done _ _ _ _ _ Eu). erewrite run_bind_Done by apply run_this.
  cbn [updated NonlockingConsumer._channelPushes NonlockingConsumer.set_depths NonlockingConsumer.set_pushes].
  destruct (noticed (sizes chs) (NonlockingConsumer._channelPushes o)) as [|i rest] eqn:E.
  - split; [done|]. eapply Forall_impl; [eapply Forall_fmap, (noticed_none _ _ _ (nl_helper _ _ _ Hr) E)|].
    intros ch Hl. by apply nil_length_inv.
  - destruct (noticed_head _ _ _ _ _ Hr E) as (ch & c & Hch & Hc & Hok & Hlen).
    destruct (ch_tokens ch) as [|tok toks] eqn:Et; [cbn in Hlen; lia|].
    destruct (run_peek (ch_geometry ch) (ch_producer ch) c m (ch_first ch) (tok :: toks) 0 tok) as (pos & Ep & _ & HL);
      [by rewrite <- Et|done..|].
    exists ch, tok, toks, pos. split_and!; [done..| |done].
    erewrite run_bind_Done by apply run_this.
    cbn [updated NonlockingConsumer._spscList NonlockingConsumer.set_depths NonlockingConsumer.set_pushes]. rewrite Hc.
    by erewrite run_bind_Done by (apply run_on_fst_Done; exact Ep).
Qed.

(** [peek] of the non-locking channel notices every token that has arrived.
    When there is none it throws; otherwise it returns the channel of the first
    entry of its helper queue and the place of that channel's oldest token. *)
Theorem nonlocking_peek_spec chs m o :
  nonlocking_rep chs m o ->
  nonlocking_rep chs m (updated chs o) /\
  match noticed (sizes chs) (NonlockingConsumer._channelPushes o) with
  | [] => run (NonlockingConsumer.peek 0) (m, o) = Thrown runtime (m, updated chs o) /\
          Forall (fun ch => ch_tokens ch = []) chs
  | i :: _ => exists ch tok toks pos, chs !! i = Some ch /\ ch_tokens ch = tok :: toks /\
      run (NonlockingConsumer.peek 0) (m, o) = Done (i, pos) (m, updated chs o) /\
      mem_load (heap m) (ptr_add (gTokens (ch_geometry ch)) (gTokenSize (ch_geometry ch) * pos))
        (gTokenSize (ch_geometry ch)) = Some tok
  end.
Proof. exact (run_nl_peek chs m o). Qed.

Lemma run_nl_pop chs m o :
  nonlocking_rep chs m o ->
  match noticed (sizes chs) (NonlockingConsumer._channelPushes o) with
  | [] => run (NonlockingConsumer.pop 1) (m, o) = Thrown runtime (m, updated chs o)
  | i :: rest => exists m' o', run (NonlockingConsumer.pop 1) (m, o) = Done tt (m', o') /\
      NonlockingConsumer._channelPushes o' = rest /\ nonlocking_rep (alter pop_chan i chs) m' o'
  end.
Proof.
  intros Hr. destruct (noticed (sizes chs) (NonlockingConsumer._channelPushes o)) as [|i rest] eqn:E.
  - destruct (run_updateDepth chs m o Hr) as [Eu _].
    unfold NonlockingConsumer.pop. rewrite (run_bind_Done _ _ _ _ _ Eu).
    unfold NonlockingConsumer.getDepth. erewrite run_bind_Done by apply run_this.
    cbn [NonlockingConsumer._depths updated NonlockingConsumer.set_depths].
    by rewrite (total_depths _ _ _ (nl_helper _ _ _ Hr)), E.
  - destruct (noticed_head _ _ _ _ _ Hr E) as (ch & c & Hch & Hc & Hok & Hlen).
    destruct (run_pop_nonlocking chs m o i rest ch 1 Hr E Hch) as (m' & Ep & Hf & Ha); [lia|].
    change (drop 1 (i :: rest)) with rest in Ep. eexists m', _. split; [exact Ep|]. split; [done|].
    split; [exact Hf|exact Ha|].
    rewrite sizes_pop. exact (helper_pop _ _ _ (nl_helper _ _ _ Hr) _ _ E).
Qed.

(** C25: [pop] of one token removes the oldest token of the channel that is first
    in the helper queue, and the other channels keep theirs; the representation
    is preserved, so the helper queue stays a faithful list of what is pending.
    When nothing is pending it throws. *)
Theorem nonlocking_pop_spec chs m o :
  nonlocking_rep chs m o ->
  match noticed (sizes chs) (NonlockingConsumer._channelPushes o) with
  | [] => run (NonlockingConsumer.pop 1) (m, o) = Thrown runtime (m, updated chs o)
  | i :: rest => exists m' o', run (NonlockingConsumer.pop 1) (m, o) = Done tt (m', o') /\
      NonlockingConsumer._channelPushes o' = rest /\ nonlocking_rep (alter pop_chan i chs) m' o'
  end.
Proof. exact (run_nl_pop chs m o). Qed.

(** A [pop] of [n] tokens takes them all from the channel that is first in
    the helper queue, whatever channels the first [n] entries name; the entries
    are dropped all the same, and the other channels keep their tokens. *)
Theorem nonlocking_pop_many chs m o i rest ch n :
  nonlocking_rep chs m o -> noticed (sizes chs) (NonlockingConsumer._channelPushes o) = i :: rest ->
  chs !! i = Some ch -> (n <= length (ch_tokens ch))%nat ->
  exists m' o' chs', run (NonlockingConsumer.pop (Z.of_nat n)) (m, o) = Done tt (m', o') /\
    NonlockingConsumer._channelPushes o' = drop n (i :: rest) /\
    Forall2 (chan_ok m') chs' (NonlockingConsumer._spscList o) /\
    (exists ch', chs' !! i = Some ch' /\ ch_tokens ch' = drop n (ch_tokens ch)) /\
    forall j, i <> j -> chs' !! j = chs !! j.
Proof.
  intros Hr E Hch Hn. destruct (run_pop_nonlocking chs m o i rest ch n Hr E Hch Hn) as (m' & Ep & Hf & _).
  eexists m', _, (pop_chans n i chs). split; [exact Ep|]. split_and!; [done|done| |].
  - destruct (pop_chans_tokens n i chs ch Hch) as (ch' & ? & ? & _). by exists ch'.
  - intros j Hj. by apply pop_chans_other.
Qed.

End Facts.

(** ** A concrete consumer with two producers, over the pthreads backend *)

Module NonlockingDemo.

(** Channel [k] has its producer counters in block [3k], its consumer counters
    in block [3k + 1] and four 1-byte tokens in block [3k + 2]; the local slots
    have the numbers of the blocks, and the global ones ten more. *)
Definition geom (k : nat) : geometry :=
  mkGeometry (mkTokenBuffer 1 4 (Ptr (3 * k + 2) 0) (3 * k + 2)) (Ptr (3 * k) 0) (Ptr (3 * k + 1) 0).

Definition slot (b : nat) (n : Z) : nat * LocalMemorySlot.t := (b, LocalMemorySlot.make (Ptr b 0) n None).

Definition global (b : nat) : nat * GlobalMemorySlot.t := ((10 + b)%nat, GlobalMemorySlot.mk 7 (Z.of_nat b) (Some b)).

(** Two tokens in channel 0, one in channel 1. *)
Definition machine : Machine Core.t :=
  mkMachine
    (list_to_map [(0%nat, le_bytes 8 2 ++ le_bytes 8 0); (1%nat, le_bytes 8 2 ++ le_bytes 8 0); (2%nat, [x01; x02; x00; x00]);
                  (3%nat, le_bytes 8 1 ++ le_bytes 8 0); (4%nat, le_bytes 8 1 ++ le_bytes 8 0); (5%nat, [x0a; x00; x00; x00])])
    (list_to_map [slot 0 16; slot 1 16; slot 2 4; slot 3 16; slot 4 16; slot 5 4])
    (list_to_map [global 0; global 1; global 2; global 3; global 4; global 5])
    (<[0%nat := CommunicationManagerFields.empty]> ∅)
    (Core.make 1).

Definition producer (k : nat) : Producer.t :=
  Producer.mk (Base.mk 0 0 (3 * k) 1 (Base.circular_buffer_at 4 (Ptr (3 * k) 0))) (3 * k + 12) (3 * k + 11).

Definition consumer (k : nat) : Consumer.t :=
  Consumer.mk (Base.mk 0 0 (3 * k + 1) 1 (Base.circular_buffer_at 4 (Ptr (3 * k + 1) 0))) (3 * k + 12) (3 * k + 10).

Definition chans : list chan := [mkChan (geom 0) (producer 0) 0 [[x01]; [x02]]; mkChan (geom 1) (producer 1) 0 [[x0a]]].

(** The consumer as its constructor makes it, and after it has noticed one token
    of each channel. *)
Definition object (pushes : list nat) (depths : list Z) : NonlockingConsumer.t :=
  NonlockingConsumer.mk [12%nat; 15%nat] [consumer 0; consumer 1] pushes depths 0 0.

Example make_nonlocking_consumer :
  run (NonlockingConsumer.make 0 0 [12%nat; 15%nat] [1%nat; 4%nat] [10%nat; 13%nat] 1 4) machine =
  Done (object [] [0; 0]) machine.
Proof. vm_compute. reflexivity. Qed.

Lemma chan_ok_demo k ch c : chans !! k = Some ch -> [consumer 0; consumer 1] !! k = Some c -> chan_ok machine ch c.
Proof.
  assert (Hb : forall k, k = 0%nat \/ k = 1%nat -> is_token_buffer (geom k) (3 * k + 12) machine).
  { intros j [-> | ->]; (split; [done|by exists 4; split; [cbn; lia|]; eexists|by eexists|by eexists]). }
  assert (Hc : forall k, k = 0%nat \/ k = 1%nat -> connected (geom k) (producer k) (consumer k) machine).
  { intros j [-> | ->]; (split; try done; try (by exists 16; split; [lia|]; eexists);
      try (apply Hb; by auto); try (by eexists); cbn; lia). }
  intros Hch Hco. destruct k as [|[|k]]; [| |done]; injection Hch as <-; injection Hco as <-;
    (split_and!; [apply Hc; by auto|by split|by split|cbn; lia|]);
    intros [|[|i]] tok Hi; (done || by injection Hi as <-).
Qed.

Lemma nonlocking_rep_demo : nonlocking_rep chans machine (object [0%nat; 1%nat] [1; 1]).
Proof.
  split.
  - apply Forall2_same_length_lookup. split; [done|]. apply chan_ok_demo.
  - intros [|[|i]] [|[|j]] a b Hne Ha Hb; try done; injection Ha as <-; injection Hb as <-;
      split_and!; repeat apply Forall_cons_2; try apply Forall_nil_2; cbn; lia.
  - split; [repeat constructor; cbn; lia|done| |done].
    intros [|[|i]] n Hi; [| |done]; injection Hi as <-; vm_compute; lia.
Qed.

Lemma nonlocking_peek_spec_witness :
  exists pos, run (NonlockingConsumer.peek 0) (machine, object [0%nat; 1%nat] [1; 1]) =
    Done (0%nat, pos) (machine, object [0%nat; 1%nat; 0%nat] [2; 1]) /\ mem_load (heap machine) (Ptr 2 (1 * pos)) 1 = Some [x01].
Proof.
  destruct (nonlocking_peek_spec chans machine _ nonlocking_rep_demo) as (_ & ch & tok & toks & pos & Hch & Ht & E & HL).
  injection Hch as <-. injection Ht as <- <-. by exists pos.
Defined.

Lemma nonlocking_pop_spec_witness :
  exists m' o', run (NonlockingConsumer.pop 1) (machine, object [0%nat; 1%nat] [1; 1]) = Done tt (m', o') /\
    NonlockingConsumer._channelPushes o' = [1%nat; 0%nat] /\ nonlocking_rep (alter pop_chan 0%nat chans) m' o'.
Proof. exact (nonlocking_pop_spec chans machine _ nonlocking_rep_demo). Defined.

(** A pop of two drops the entries of channels 0 and 1, but takes both tokens
    from channel 0. *)
Lemma nonlocking_pop_many_witness :
  exists m' o' chs', run (NonlockingConsumer.pop 2) (machine, object [0%nat; 1%nat] [1; 1]) = Done tt (m', o') /\
    NonlockingConsumer._channelPushes o' = [0%nat] /\
    Forall2 (chan_ok m') chs' [consumer 0; consumer 1] /\
    (exists ch', chs' !! 0%nat = Some ch' /\ ch_tokens ch' = []) /\
    forall j, 0%nat <> j -> chs' !! j = chans !! j.
Proof.
  exact (nonlocking_pop_many chans machine _ 0 [1%nat; 0%nat] _ 2 nonlocking_rep_demo eq_refl eq_refl (le_n 2)).
Defined.

End NonlockingDemo.
