(* ===== verification/VariableSPSC.v ===== *)
(** * The variable-size single-producer single-consumer channel

    Models [frontends/channel/variableSize/spsc/producer.hpp] and
    [consumer.hpp].  The bytes of a message go to the payload buffer, their
    number to the token buffer; each of the two has its own counters.  A message
    is always stored contiguously: the payload buffer is twice as large as the
    capacity, and a message that starts before the capacity may end behind it
    (the "excess buffer"). *)

From S2P Require Import Prelude Memory CommunicationManager Pthreads CircularBuffer Channel TokenBuffer.
From Stdlib Require Import ZArith Lia.
From Stdlib.Strings Require Import Byte.
From stdpp Require Import base gmap option list.

Local Open Scope Z_scope.
Local Open Scope hicr_scope.

Module VProducer.

Record t : Type := mk {
  base : VariableBase.t;
  _payloadBuffer : nat;
  _sizeInfoBuffer : nat;
  _payloadSize : Z;
  _tokenBuffer : nat;
  _consumerCoordinationBufferForCounts : nat;
  _consumerCoordinationBufferForPayloads : nat
}.

Section Operations.
Context {X : Type} {B : CommBackend X}.

Definition ccm (p : t) : nat := Base._coordinationCommunicationManager (VariableBase.base (base p)).
Definition pcm (p : t) : nat := Base._payloadCommunicationManager (VariableBase.base (base p)).
Definition counts (p : t) : CircularBuffer.t := VariableBase._circularBufferForCounts (base p).
Definition payloads (p : t) : CircularBuffer.t := VariableBase._circularBufferForPayloads (base p).
Definition countsBuffer (p : t) : nat := VariableBase._coordinationBufferForCounts (base p).
Definition payloadsBuffer (p : t) : nat := VariableBase._coordinationBufferForPayloads (base p).
Definition tokenSize (p : t) : Z := Base.getTokenSize (VariableBase.base (base p)).

Definition make (ccm pcm sizeInfoBuffer payloadBuffer tokenBuffer
      internalCoordinationBufferForCounts internalCoordinationBufferForPayloads
      consumerCoordinationBufferForCounts consumerCoordinationBufferForPayloads : nat)
    (payloadCapacity payloadSize capacity : Z) : prog (Machine X) t :=
  b ← VariableBase.make ccm pcm internalCoordinationBufferForCounts internalCoordinationBufferForPayloads
        capacity payloadCapacity;
  mret (mk b payloadBuffer sizeInfoBuffer payloadSize tokenBuffer
           consumerCoordinationBufferForCounts consumerCoordinationBufferForPayloads).

Definition updateDepth (p : t) : prog (Machine X) unit := mret tt.

Definition getPayloadHeadPosition (p : t) : prog (Machine X) Z := CircularBuffer.getHeadPosition (payloads p).

Definition getPayloadSize (p : t) : Z := _payloadSize p.

Definition getPayloadDepth (p : t) : prog (Machine X) Z := CircularBuffer.getDepth (payloads p).

Definition getPayloadCapacity (p : t) : Z := CircularBuffer.getCapacity (payloads p).

Definition getCoordinationDepth (p : t) : prog (Machine X) Z := CircularBuffer.getDepth (counts p).

Definition isEmpty (p : t) : prog (Machine X) bool := d ← getCoordinationDepth p; mret (d =? 0).

Definition isFull (p : t) (requiredBufferSize : Z) : prog (Machine X) bool :=
  depth ← CircularBuffer.getDepth (counts p);
  if depth =? CircularBuffer.getCapacity (counts p) then mret true else
  payloadDepth ← CircularBuffer.getDepth (payloads p);
  mret (payloadDepth +w requiredBufferSize >? CircularBuffer.getCapacity (payloads p)).

(** Phase one: the payload and its head counter. *)
Definition push_payload (p : t) (sourceSlot : nat) (requiredPayloadBufferSize : Z) : prog (Machine X) unit :=
  pos ← getPayloadHeadPosition p;
  _ ← CommunicationManager.memcpyGL (pcm p) (_payloadBuffer p) pos sourceSlot 0 requiredPayloadBufferSize;
  _ ← CommunicationManager.fenceLocal (pcm p) sourceSlot 1 0;
  _ ← CircularBuffer.advanceHead (payloads p) requiredPayloadBufferSize;
  _ ← CommunicationManager.memcpyGL (ccm p) (_consumerCoordinationBufferForPayloads p)
        (_HICR_CHANNEL_HEAD_ADVANCE_COUNT_IDX *w SIZEOF_SIZE_T)
        (payloadsBuffer p) (_HICR_CHANNEL_HEAD_ADVANCE_COUNT_IDX *w SIZEOF_SIZE_T) SIZEOF_SIZE_T;
  CommunicationManager.fenceLocal (ccm p) (payloadsBuffer p) 1 0.

(** Phase two: the size of the message and the counts' head counter. *)
Definition push_size (p : t) (requiredPayloadBufferSize : Z) : prog (Machine X) unit :=
  sizeInfoBufferPtr ← getPointer (_sizeInfoBuffer p);
  _ ← write_size sizeInfoBufferPtr requiredPayloadBufferSize;
  pos ← CircularBuffer.getHeadPosition (counts p);
  _ ← CommunicationManager.memcpyGL (ccm p) (_tokenBuffer p) (tokenSize p *w pos)
        (_sizeInfoBuffer p) 0 (tokenSize p);
  _ ← CommunicationManager.fenceLocal (ccm p) (_sizeInfoBuffer p) 1 0;
  _ ← CircularBuffer.advanceHead (counts p) 1;
  _ ← CommunicationManager.memcpyGL (ccm p) (_consumerCoordinationBufferForCounts p)
        (_HICR_CHANNEL_HEAD_ADVANCE_COUNT_IDX *w SIZEOF_SIZE_T)
        (countsBuffer p) (_HICR_CHANNEL_HEAD_ADVANCE_COUNT_IDX *w SIZEOF_SIZE_T) SIZEOF_SIZE_T;
  CommunicationManager.fenceLocal (ccm p) (countsBuffer p) 1 0.

Definition push (p : t) (sourceSlot : nat) (n : Z) : prog (Machine X) unit :=
  _ ← throw_if (negb (n =? 1)) runtime;
  _ ← updateDepth p;
  requiredPayloadBufferSize ← getSize sourceSlot;
  full ← isFull p requiredPayloadBufferSize;
  _ ← throw_if full runtime;
  _ ← push_payload p sourceSlot requiredPayloadBufferSize;
  push_size p requiredPayloadBufferSize.

End Operations.
End VProducer.

Module VConsumer.

Record t : Type := mk {
  base : VariableBase.t;
  _payloadBuffer : nat;
  _tokenSizeBuffer : nat;
  _producerCoordinationBufferForCounts : nat;
  _producerCoordinationBufferForPayloads : nat
}.

Section Operations.
Context {X : Type} {B : CommBackend X}.

Definition ccm (c : t) : nat := Base._coordinationCommunicationManager (VariableBase.base (base c)).
Definition pcm (c : t) : nat := Base._payloadCommunicationManager (VariableBase.base (base c)).
Definition counts (c : t) : CircularBuffer.t := VariableBase._circularBufferForCounts (base c).
Definition payloads (c : t) : CircularBuffer.t := VariableBase._circularBufferForPayloads (base c).
Definition countsBuffer (c : t) : nat := VariableBase._coordinationBufferForCounts (base c).
Definition payloadsBuffer (c : t) : nat := VariableBase._coordinationBufferForPayloads (base c).

(** The slots of the model are never null, so the assertions of the constructor hold. *)
Definition make (ccm pcm payloadBuffer tokenBuffer
      internalCoordinationBufferForCounts internalCoordinationBufferForPayloads
      producerCoordinationBufferForCounts producerCoordinationBufferForPayloads : nat)
    (payloadCapacity capacity : Z) : prog (Machine X) t :=
  b ← VariableBase.make ccm pcm internalCoordinationBufferForCounts internalCoordinationBufferForPayloads
        capacity payloadCapacity;
  mret (mk b payloadBuffer tokenBuffer producerCoordinationBufferForCounts producerCoordinationBufferForPayloads).

Definition updateDepth (c : t) : prog (Machine X) unit := mret tt.

Definition getPayloadBufferSize (payloadSize : Z) : Z := payloadSize *w 2.

Definition getCoordinationDepth (c : t) : prog (Machine X) Z := CircularBuffer.getDepth (counts c).

Definition getPayloadDepth (c : t) : prog (Machine X) Z := CircularBuffer.getDepth (payloads c).

Definition isEmpty (c : t) : prog (Machine X) bool := d ← getCoordinationDepth c; mret (d =? 0).

Definition isFull (c : t) (requiredBufferSize : Z) : prog (Machine X) bool :=
  depth ← CircularBuffer.getDepth (counts c);
  if depth =? CircularBuffer.getCapacity (counts c) then mret true else
  payloadDepth ← CircularBuffer.getDepth (payloads c);
  mret (payloadDepth +w requiredBufferSize >? CircularBuffer.getCapacity (payloads c)).

Definition getPayloadBufferMemorySlot (c : t) : nat := _payloadBuffer c.

(** The position of a message's size in the token buffer. *)
Definition basePeek (c : t) (pos : Z) : prog (Machine X) Z :=
  _ ← throw_if (pos >=? CircularBuffer.getCapacity (counts c)) logic;
  _ ← updateDepth c;
  depth ← CircularBuffer.getDepth (counts c);
  _ ← throw_if (pos >=? depth) runtime;
  tail ← CircularBuffer.getTailPosition (counts c);
  CircularBuffer.size_mod (tail +w pos) (CircularBuffer.getCapacity (counts c)).

(** [static_cast<size_t *>(_tokenSizeBuffer->getSourceLocalMemorySlot()->getPointer())];
    a slot that is not local gives a null pointer dereference. *)
Definition tokenBufferPtr (c : t) : prog (Machine X) ptr :=
  src ← getSourceLocalMemorySlot (_tokenSizeBuffer c);
  match src with None => Crash undefined | Some l => getPointer l end.

(** The position and the size of the oldest message. *)
Definition peek (c : t) (pos : Z) : prog (Machine X) (Z * Z) :=
  _ ← throw_if (negb (pos =? 0)) fatal;
  _ ← updateDepth c;
  depth ← CircularBuffer.getDepth (counts c);
  _ ← throw_if (pos >=? depth) runtime;
  tail ← CircularBuffer.getTailPosition (payloads c);
  start ← CircularBuffer.size_mod tail (CircularBuffer.getCapacity (payloads c));
  sizes ← tokenBufferPtr c;
  tokenPos ← basePeek c pos;
  size ← read_size (ptr_add sizes (tokenPos * SIZEOF_SIZE_T));
  mret (start, size).

(** The loop that adds up the sizes of [n] messages from position [i] on. *)
Fixpoint add_sizes (c : t) (sizes : ptr) (n : nat) (i payloadBytes : Z) : prog (Machine X) Z :=
  match n with
  | O => mret payloadBytes
  | S n' =>
      pos ← basePeek c i;
      payloadSize ← read_size (ptr_add sizes (pos * SIZEOF_SIZE_T));
      add_sizes c sizes n' (i + 1) (payloadBytes +w payloadSize)
  end.

Definition getOldPayloadBytes (c : t) (n : Z) : prog (Machine X) Z :=
  if n =? 0 then mret 0 else
  sizes ← tokenBufferPtr c;
  add_sizes c sizes (Z.to_nat n) 0 0.

Definition pop (c : t) (n : Z) : prog (Machine X) unit :=
  _ ← throw_if (n >? CircularBuffer.getCapacity (counts c)) logic;
  _ ← updateDepth c;
  depth ← CircularBuffer.getDepth (counts c);
  _ ← throw_if (n >? depth) runtime;
  payloadBytes ← getOldPayloadBytes c n;
  _ ← CircularBuffer.advanceTail (counts c) n;
  _ ← CircularBuffer.advanceTail (payloads c) payloadBytes;
  _ ← CommunicationManager.memcpyGL (ccm c) (_producerCoordinationBufferForCounts c)
        (_HICR_CHANNEL_TAIL_ADVANCE_COUNT_IDX *w SIZEOF_SIZE_T)
        (countsBuffer c) (_HICR_CHANNEL_TAIL_ADVANCE_COUNT_IDX *w SIZEOF_SIZE_T) SIZEOF_SIZE_T;
  _ ← CommunicationManager.memcpyGL (ccm c) (_producerCoordinationBufferForPayloads c)
        (_HICR_CHANNEL_TAIL_ADVANCE_COUNT_IDX *w SIZEOF_SIZE_T)
        (payloadsBuffer c) (_HICR_CHANNEL_TAIL_ADVANCE_COUNT_IDX *w SIZEOF_SIZE_T) SIZEOF_SIZE_T;
  _ ← CommunicationManager.fenceLocal (ccm c) (countsBuffer c) 1 0;
  CommunicationManager.fenceLocal (ccm c) (payloadsBuffer c) 1 0.

End Operations.
End VConsumer.

(** ** The payload buffer *)

Record payload_buffer : Type := mkPayloadBuffer {
  pbCapacity : Z;
  pbPtr : ptr;
  pbSlot : nat
}.

(** The buffer proper and the excess buffer behind it. *)
Abbreviation payload_range b := (pbPtr b, 2 * pbCapacity b) (only parsing).

Record is_payload_buffer {X : Type} (b : payload_buffer) (g : nat) (m : Machine X) : Prop := mkIsPayloadBuffer {
  pb_sizes : 0 < pbCapacity b /\ 2 * pbCapacity b <= PTRDIFF_MAX;
  pb_slot : exists n, 2 * pbCapacity b <= n /\ slot_at m (pbSlot b) (pbPtr b) n;
  pb_backed : backed_by m g (pbSlot b);
  pb_access : accessible (heap m) (pbPtr b) (2 * pbCapacity b)
}.

(** The number of bytes of some messages. *)
Definition bytes_of (q : list (list byte)) : Z := Z.of_nat (sum_list_with length q).

(** The messages [q] lie one after the other, the first at byte index [t]; the
    index is taken modulo the capacity, and a message is contiguous. *)
Fixpoint holds_payloads {X : Type} (b : payload_buffer) (m : Machine X) (t : Z) (q : list (list byte)) : Prop :=
  match q with
  | [] => True
  | msg :: q' =>
      mem_load (heap m) (ptr_add (pbPtr b) (t mod pbCapacity b)) (Z.of_nat (length msg)) = Some msg /\
      holds_payloads b m (t + Z.of_nat (length msg)) q'
  end.

Section PayloadFacts.
Context {X : Type}.
Implicit Types (m : Machine X) (b : payload_buffer) (q : list (list byte)).

Lemma bytes_of_cons msg q : bytes_of (msg :: q) = Z.of_nat (length msg) + bytes_of q.
Proof. unfold bytes_of. cbn. lia. Qed.

Lemma bytes_of_app q q' : bytes_of (q ++ q') = bytes_of q + bytes_of q'.
Proof. unfold bytes_of. rewrite sum_list_with_app. lia. Qed.

Lemma bytes_of_nonneg q : 0 <= bytes_of q.
Proof. unfold bytes_of. lia. Qed.

Lemma is_payload_buffer_writes R b g m m' : writes R m m' -> is_payload_buffer b g m -> is_payload_buffer b g m'.
Proof.
  intros W []. split; try done; rewrite ?(writes_backed_by _ _ _ _ _ W), ?(writes_accessible _ _ _ _ _ W); try done.
  by setoid_rewrite (writes_slot_at _ _ _ _ _ _ W).
Qed.

(** The physical ranges of two live messages do not overlap, although one of
    them may reach into the excess buffer. *)
Lemma payload_disjoint cap a s h n :
  0 < cap -> 0 <= s -> 0 <= n -> a + s <= h -> h + n <= a + cap ->
  h mod cap + n <= a mod cap \/ a mod cap + s <= h mod cap.
Proof.
  intros Hc Hs Hn H1 H2. pose proof (Z.mod_pos_bound a cap Hc). pose proof (Z.mod_pos_bound h cap Hc).
  pose proof (Z.div_mod a cap ltac:(lia)). pose proof (Z.div_mod h cap ltac:(lia)).
  set (qa := a / cap) in *. set (qh := h / cap) in *.
  assert (qh = qa \/ qh = qa + 1 \/ (n = 0 /\ h mod cap = a mod cap)) as [->|[->|[-> ->]]] by nia; nia.
Qed.

Lemma holds_payloads_writes R b m m' t q :
  0 < pbCapacity b -> bytes_of q <= pbCapacity b -> writes R m m' -> apart R (pbPtr b) (2 * pbCapacity b) ->
  holds_payloads b m t q -> holds_payloads b m' t q.
Proof.
  intros Hc Hq W Ha. revert t Hq. induction q as [|msg q IH]; intros t Hq Hh; [done|]. destruct Hh as [HL Hh].
  rewrite bytes_of_cons in Hq. pose proof (bytes_of_nonneg q). pose proof (Z.mod_pos_bound t (pbCapacity b) Hc).
  split; [|apply IH; [lia|done]]. rewrite (writes_load _ _ _ _ _ W); [done|]. eapply apart_sub; [exact Ha|lia..].
Qed.

(** Storing one more message behind the others. *)
Lemma holds_payloads_push b m t q msg m' :
  0 < pbCapacity b -> bytes_of q + Z.of_nat (length msg) <= pbCapacity b -> holds_payloads b m t q ->
  stored m (ptr_add (pbPtr b) ((t + bytes_of q) mod pbCapacity b)) msg m' ->
  holds_payloads b m' t (q ++ [msg]).
Proof.
  intros Hc Hq Hh St. assert (Hend : t + bytes_of q + Z.of_nat (length msg) <= t + pbCapacity b) by lia.
  remember (t + bytes_of q) as h eqn:Hdef. remember (t + pbCapacity b) as lim eqn:Hlim.
  assert (lim <= t + pbCapacity b) as Hle by lia. clear Hq Hlim.
  revert t Hdef Hle Hh. induction q as [|x q IH]; intros t Hdef Hle Hh; cbn [app holds_payloads].
  - split; [|done]. unfold bytes_of in Hdef. cbn in Hdef. replace t with h by lia. by eapply stored_same.
  - destruct Hh as [HL Hh]. rewrite bytes_of_cons in Hdef. pose proof (bytes_of_nonneg q). split.
    + rewrite (stored_disjoint _ _ _ _ _ _ St); [done|]. apply disjoint_ranges_same.
      apply payload_disjoint; lia.
    + apply IH; [lia|lia|done].
Qed.

Lemma holds_payloads_drop b m t q n :
  holds_payloads b m t q -> holds_payloads b m (t + bytes_of (take n q)) (drop n q).
Proof.
  revert t n. induction q as [|msg q IH]; intros t [|n] Hh; [done..| |].
  - cbn. by replace (t + bytes_of []) with t by (unfold bytes_of; cbn; lia).
  - cbn [take drop]. rewrite bytes_of_cons, Z.add_assoc. by apply IH, Hh.
Qed.

End PayloadFacts.

(** ** The representation of a channel *)

Record vgeometry : Type := mkVGeometry {
  vSizes :> token_buffer;
  vPayload : payload_buffer;
  vProducerCounts : ptr;
  vProducerPayloads : ptr;
  vConsumerCounts : ptr;
  vConsumerPayloads : ptr;
  vInfo : ptr
}.

(** All the memory of the channel. *)
Definition vregions (g : vgeometry) : list (ptr * Z) :=
  [token_range g; payload_range (vPayload g); (vProducerCounts g, 16); (vProducerPayloads g, 16);
   (vConsumerCounts g, 16); (vConsumerPayloads g, 16); (vInfo g, 8)].

(** A coordination buffer slot. *)
Definition coord_slot {X : Type} (m : Machine X) (l : nat) (p : ptr) : Prop := exists n, 16 <= n /\ slot_at m l p n.

(** The token that announces a message. *)
Definition size_token (msg : list byte) : list byte := le_bytes 8 (Z.of_nat (length msg)).

Section Representation.
Context {X : Type}.

Record vproducer_ok (g : vgeometry) (p : VProducer.t) (m : Machine X) : Prop := mkVProducerOk {
  vp_token : VProducer.tokenSize p = 8;
  vp_counts : VProducer.counts p = Base.circular_buffer_at (gCapacity g) (vProducerCounts g);
  vp_payloads : VProducer.payloads p = Base.circular_buffer_at (pbCapacity (vPayload g)) (vProducerPayloads g);
  vp_countsSlot : coord_slot m (VProducer.countsBuffer p) (vProducerCounts g);
  vp_payloadsSlot : coord_slot m (VProducer.payloadsBuffer p) (vProducerPayloads g);
  vp_info : exists n, 8 <= n /\ slot_at m (VProducer._sizeInfoBuffer p) (vInfo g) n;
  vp_infoAccess : accessible (heap m) (vInfo g) 8;
  vp_tokens : is_token_buffer g (VProducer._tokenBuffer p) m;
  vp_payload : is_payload_buffer (vPayload g) (VProducer._payloadBuffer p) m
}.

Record vconsumer_ok (g : vgeometry) (c : VConsumer.t) (m : Machine X) : Prop := mkVConsumerOk {
  vc_counts : VConsumer.counts c = Base.circular_buffer_at (gCapacity g) (vConsumerCounts g);
  vc_payloads : VConsumer.payloads c = Base.circular_buffer_at (pbCapacity (vPayload g)) (vConsumerPayloads g);
  vc_countsSlot : coord_slot m (VConsumer.countsBuffer c) (vConsumerCounts g);
  vc_payloadsSlot : coord_slot m (VConsumer.payloadsBuffer c) (vConsumerPayloads g);
  vc_tokens : is_token_buffer g (VConsumer._tokenSizeBuffer c) m;
  vc_payload : is_payload_buffer (vPayload g) (VConsumer._payloadBuffer c) m
}.

Record vconnected (g : vgeometry) (p : VProducer.t) (c : VConsumer.t) (m : Machine X) : Prop := mkVConnected {
  vx_size : gTokenSize g = 8;
  vx_producer : vproducer_ok g p m;
  vx_consumer : vconsumer_ok g c m;
  vx_pc : backed_by m (VProducer._consumerCoordinationBufferForCounts p) (VConsumer.countsBuffer c);
  vx_pp : backed_by m (VProducer._consumerCoordinationBufferForPayloads p) (VConsumer.payloadsBuffer c);
  vx_cc : backed_by m (VConsumer._producerCoordinationBufferForCounts c) (VProducer.countsBuffer p);
  vx_cp : backed_by m (VConsumer._producerCoordinationBufferForPayloads c) (VProducer.payloadsBuffer p);
  vx_apart : all_apart (vregions g)
}.

(** The messages [q] are in the channel: their sizes from token index [t] on,
    their bytes from byte index [pt] on; both sides agree on the counters. *)
Record vrep (g : vgeometry) (p : VProducer.t) (c : VConsumer.t) (m : Machine X) (t pt : Z) (q : list (list byte)) :
    Prop := mkVRep {
  vr_connected : vconnected g p c m;
  vr_pc : cb_at (Base.circular_buffer_at (gCapacity g) (vProducerCounts g)) (t + Z.of_nat (length q)) t m;
  vr_cc : cb_at (Base.circular_buffer_at (gCapacity g) (vConsumerCounts g)) (t + Z.of_nat (length q)) t m;
  vr_pp : cb_at (Base.circular_buffer_at (pbCapacity (vPayload g)) (vProducerPayloads g)) (pt + bytes_of q) pt m;
  vr_cp : cb_at (Base.circular_buffer_at (pbCapacity (vPayload g)) (vConsumerPayloads g)) (pt + bytes_of q) pt m;
  vr_length : Z.of_nat (length q) <= gCapacity g;
  vr_bytes : bytes_of q <= pbCapacity (vPayload g);
  vr_sizes : holds_tokens g m t (map size_token q);
  vr_payloads : holds_payloads (vPayload g) m pt q
}.

End Representation.

(** ** Helper lemmas *)

Section Facts.
Context {X : Type} {B : CommBackend X} `{!CommSpec X}.
Implicit Types m : Machine X.

Lemma coord_slot_writes R m m' l p : writes R m m' -> coord_slot m' l p <-> coord_slot m l p.
Proof. intros W. unfold coord_slot. by setoid_rewrite (writes_slot_at _ _ _ _ _ _ W). Qed.

Lemma vproducer_ok_writes R g p m m' : writes R m m' -> vproducer_ok g p m -> vproducer_ok g p m'.
Proof.
  intros W []. split; try done; rewrite ?(coord_slot_writes _ _ _ _ _ W), ?(writes_accessible _ _ _ _ _ W); try done;
    [by setoid_rewrite (writes_slot_at _ _ _ _ _ _ W)|by eapply is_token_buffer_writes|by eapply is_payload_buffer_writes].
Qed.

Lemma vconsumer_ok_writes R g c m m' : writes R m m' -> vconsumer_ok g c m -> vconsumer_ok g c m'.
Proof.
  intros W []. split; try done; rewrite ?(coord_slot_writes _ _ _ _ _ W); try done;
    [by eapply is_token_buffer_writes|by eapply is_payload_buffer_writes].
Qed.

Lemma vconnected_writes R g p c m m' : writes R m m' -> vconnected g p c m -> vconnected g p c m'.
Proof.
  intros W []. split; try done; rewrite ?(writes_backed_by _ _ _ _ _ W); try done;
    [by eapply vproducer_ok_writes|by eapply vconsumer_ok_writes].
Qed.

(** The head counter of one coordination buffer is advanced and copied to the other. *)
Lemma run_announce this r l s m cap lp rp h t hr tr n {A : Type} (k : prog (Machine X) A) :
  backed_by m r l -> coord_slot m l rp -> coord_slot m s lp -> disjoint_ranges lp 16 rp 16 ->
  cb_at (Base.circular_buffer_at cap lp) h t m -> cb_at (Base.circular_buffer_at cap rp) hr tr m ->
  t <= h -> 0 <= n -> h - t + n <= cap < SIZE_BOUND -> h + n < SIZE_BOUND ->
  exists m',
    run (_ ← CircularBuffer.advanceHead (Base.circular_buffer_at cap lp) n;
         _ ← CommunicationManager.memcpyGL this r (_HICR_CHANNEL_HEAD_ADVANCE_COUNT_IDX *w SIZEOF_SIZE_T)
               s (_HICR_CHANNEL_HEAD_ADVANCE_COUNT_IDX *w SIZEOF_SIZE_T) SIZEOF_SIZE_T; k) m = run k m' /\
    writes [(lp, 16); (rp, 16)] m m' /\
    cb_at (Base.circular_buffer_at cap lp) (h + n) t m' /\ cb_at (Base.circular_buffer_at cap rp) (h + n) tr m'.
Proof.
  intros Hb (nr & ? & Hr) (nl & ? & Hl) Hd HL HR ????.
  destruct (run_advanceHead_at cap lp h t m n HL) as (m1 & E1 & W1 & HL1); [done..|].
  rewrite (run_bind_Done _ _ _ _ _ E1).
  destruct (run_copy_head this r l s m1 rp nr lp nl cap cap (h + n) t hr tr
              ltac:(by apply (writes_backed_by _ _ _ _ _ W1)) ltac:(by apply (writes_slot_at _ _ _ _ _ _ W1))
              ltac:(by apply (writes_slot_at _ _ _ _ _ _ W1)) ltac:(done) ltac:(done) HL1
              ltac:(eapply cb_at_writes; eauto with hicr)) as (m2 & E2 & W2 & HR2).
  exists m2. split_and!; [by erewrite run_bind_Done by exact E2|writes_by W1 W2| |done].
  eapply cb_at_writes; eauto with hicr.
Qed.

(** The copy of the payload. *)
Lemma run_copy_payload this b r m src sp ss msg h t lp :
  is_payload_buffer b r m -> cb_at (Base.circular_buffer_at (pbCapacity b) lp) h t m ->
  slot_at m src sp ss -> Z.of_nat (length msg) = ss -> ss <= pbCapacity b ->
  mem_load (heap m) sp ss = Some msg ->
  exists m',
    run (pos ← CircularBuffer.getHeadPosition (Base.circular_buffer_at (pbCapacity b) lp);
         CommunicationManager.memcpyGL this r pos src 0 ss) m = Done tt m' /\
    stored m (ptr_add (pbPtr b) (h mod pbCapacity b)) msg m' /\ writes [payload_range b] m m'.
Proof.
  intros [(Hc & Hmax) (n & Hn & Hsl) Hb Ha] Hcb Hs Hl Hss HL.
  rewrite (run_bind_Done _ _ _ _ _ (run_getHeadPosition _ _ _ _ Hcb Hc)).
  cbn [CircularBuffer._capacity Base.circular_buffer_at]. pose proof (Z.mod_pos_bound h (pbCapacity b) Hc).
  destruct (run_memcpyGL_ok this r (pbSlot b) (h mod pbCapacity b) src 0 ss m (pbPtr b) n sp ss msg)
    as (m' & E & St); rewrite ?ptr_add_0; try done; try size_lia.
  - eapply accessible_sub; [exact Ha|lia..].
  - exists m'. split_and!; [done|done|]. eapply writes_stored; [exact St|constructor|lia..].
Qed.

(** ** Pushing *)

Lemma run_isFull cb pb cap pcap lp pp h t ph pt m n :
  cb_at (Base.circular_buffer_at cap lp) h t m -> cb_at (Base.circular_buffer_at pcap pp) ph pt m ->
  cb = Base.circular_buffer_at cap lp -> pb = Base.circular_buffer_at pcap pp ->
  t <= h -> pt <= ph -> 0 <= n -> ph - pt + n < SIZE_BOUND ->
  run (depth ← CircularBuffer.getDepth cb;
       if depth =? CircularBuffer.getCapacity cb then mret true else
       payloadDepth ← CircularBuffer.getDepth pb;
       mret (payloadDepth +w n >? CircularBuffer.getCapacity pb)) m =
  Done ((h - t =? cap) || (ph - pt + n >? pcap)) m.
Proof.
  intros Hc Hp -> -> ????. rewrite (run_bind_Done _ _ _ _ _ (run_getDepth_ok _ _ _ _ Hc ltac:(lia))).
  cbn [CircularBuffer.getCapacity CircularBuffer._capacity Base.circular_buffer_at].
  destruct (h - t =? cap); [done|]. cbn [orb].
  rewrite (run_bind_Done _ _ _ _ _ (run_getDepth_ok _ _ _ _ Hp ltac:(lia))). by rewrite wrap64_small by size_lia.
Qed.

Lemma run_push_payload g p c m t pt q src sp msg :
  vrep g p c m t pt q -> slot_at m src sp (Z.of_nat (length msg)) ->
  mem_load (heap m) sp (Z.of_nat (length msg)) = Some msg ->
  bytes_of q + Z.of_nat (length msg) <= pbCapacity (vPayload g) ->
  pt + bytes_of q + Z.of_nat (length msg) < SIZE_BOUND ->
  exists m', run (VProducer.push_payload p src (Z.of_nat (length msg))) m = Done tt m' /\
    writes [payload_range (vPayload g); (vProducerPayloads g, 16); (vConsumerPayloads g, 16)] m m' /\
    cb_at (Base.circular_buffer_at (pbCapacity (vPayload g)) (vProducerPayloads g)) (pt + bytes_of (q ++ [msg])) pt m' /\
    cb_at (Base.circular_buffer_at (pbCapacity (vPayload g)) (vConsumerPayloads g)) (pt + bytes_of (q ++ [msg])) pt m' /\
    holds_payloads (vPayload g) m' pt (q ++ [msg]).
Proof.
  intros [Hx _ _ HP HC _ Hb _ Hh] Hs HL Hroom Hov.
  pose proof Hx as [_ [_ _ Epl _ Hps _ _ _ Hpb] [_ _ _ Hcs _ _] _ Hpp _ _ Hap]. apart_facts Hap.
  destruct (pb_sizes _ _ _ Hpb) as (? & ?). pose proof (bytes_of_nonneg q).
  unfold VProducer.push_payload, VProducer.getPayloadHeadPosition. rewrite Epl.
  destruct (run_copy_payload (VProducer.pcm p) _ _ m src sp _ msg _ _ _ Hpb HP Hs) as (m1 & E1 & St1 & W1); [done|lia|done|].
  rewrite <- run_bind_assoc, (run_bind_Done _ _ _ _ _ E1), (run_bind_Done _ _ _ _ _ (fenceImplLocal_ok _ _ _ _ m1)).
  destruct (run_announce (VProducer.ccm p) (VProducer._consumerCoordinationBufferForPayloads p) (VConsumer.payloadsBuffer c)
              (VProducer.payloadsBuffer p) m1 (pbCapacity (vPayload g)) (vProducerPayloads g) (vConsumerPayloads g)
              (pt + bytes_of q) pt (pt + bytes_of q) pt (Z.of_nat (length msg))
              (CommunicationManager.fenceLocal (VProducer.ccm p) (VProducer.payloadsBuffer p) 1 0))
    as (m2 & E2 & W2 & HP2 & HC2);
    rewrite ?(writes_backed_by _ _ _ _ _ W1), ?(coord_slot_writes _ _ _ _ _ W1); try done; try size_lia;
    [by apply disjoint_ranges_sym|eapply cb_at_writes; eauto with hicr..|].
  exists m2. rewrite bytes_of_app, bytes_of_cons, Z.add_0_r, Z.add_assoc. split_and!; [|writes_by W1 W2|done|done|].
  - rewrite E2. apply fenceImplLocal_ok.
  - eapply holds_payloads_writes; [done| |exact W2|eauto with hicr|by eapply holds_payloads_push].
    rewrite bytes_of_app, bytes_of_cons. unfold bytes_of at 2. cbn. lia.
Qed.

Lemma run_push_size g p c m t q msg :
  vconnected g p c m -> holds_tokens g m t (map size_token q) ->
  cb_at (Base.circular_buffer_at (gCapacity g) (vProducerCounts g)) (t + Z.of_nat (length q)) t m ->
  cb_at (Base.circular_buffer_at (gCapacity g) (vConsumerCounts g)) (t + Z.of_nat (length q)) t m ->
  Z.of_nat (length q) + 1 <= gCapacity g -> t + Z.of_nat (length q) + 1 < SIZE_BOUND ->
  exists m', run (VProducer.push_size p (Z.of_nat (length msg))) m = Done tt m' /\
    writes [(vInfo g, 8); token_range g; (vProducerCounts g, 16); (vConsumerCounts g, 16)] m m' /\
    cb_at (Base.circular_buffer_at (gCapacity g) (vProducerCounts g)) (t + Z.of_nat (length (q ++ [msg]))) t m' /\
    cb_at (Base.circular_buffer_at (gCapacity g) (vConsumerCounts g)) (t + Z.of_nat (length (q ++ [msg]))) t m' /\
    holds_tokens g m' t (map size_token (q ++ [msg])).
Proof.
  intros Hx Hh HP HC Hroom Hov.
  pose proof Hx as [Hts [Etk Ecn _ Hps _ (ni & ? & Hin) Hia Htb _] [_ _ Hcs _ _ _] Hpc _ _ _ Hap]. apart_facts Hap.
  pose proof (tb_sizes _ _ _ Htb) as Hsz. pose proof (capacity_bound _ Hsz).
  unfold VProducer.push_size. rewrite Etk, Ecn.
  rewrite (run_bind_Done _ _ _ _ _ (run_getPointer _ _ _ _ Hin)).
  destruct (run_write_size m (vInfo g) (Z.of_nat (length msg)) Hia) as (m1 & E1 & St1).
  rewrite (run_bind_Done _ _ _ _ _ E1).
  pose proof (stored_same _ _ _ _ St1) as HL1. rewrite length_le_bytes in HL1. change (Z.of_nat 8) with 8 in HL1.
  assert (W1 : writes [(vInfo g, 8)] m m1).
  { rewrite <- (ptr_add_0 (vInfo g)) in St1. eapply writes_stored; [exact St1|constructor|lia|by rewrite length_le_bytes]. }
  pose proof (is_token_buffer_writes _ _ _ _ _ W1 Htb) as Htb1.
  destruct (run_copy_token (VProducer.ccm p) g _ m1 (VProducer._sizeInfoBuffer p) (vInfo g) ni 0
              (t + Z.of_nat (length q)) t (size_token msg) (vProducerCounts g) Htb1) as (m2 & E2 & St2);
    try (rewrite ?ptr_add_0, ?Hts; (done || size_lia));
    [eapply cb_at_writes; eauto with hicr|by apply (writes_slot_at _ _ _ _ _ _ W1)|].
  rewrite Hts in E2. rewrite <- run_bind_assoc, (run_bind_Done _ _ _ _ _ E2).
  rewrite (run_bind_Done _ _ _ _ _ (fenceImplLocal_ok _ _ _ _ m2)).
  assert (Hlt : Z.of_nat (length (size_token msg)) = gTokenSize g) by (by rewrite Hts; unfold size_token; rewrite length_le_bytes).
  pose proof (stored_token_writes g _ _ _ _ Hsz Hlt St2) as W2.
  assert (W12 : writes [(vInfo g, 8); token_range g] m m2) by writes_by W1 W2.
  destruct (run_announce (VProducer.ccm p) (VProducer._consumerCoordinationBufferForCounts p) (VConsumer.countsBuffer c)
              (VProducer.countsBuffer p) m2 (gCapacity g) (vProducerCounts g) (vConsumerCounts g)
              (t + Z.of_nat (length q)) t (t + Z.of_nat (length q)) t 1
              (CommunicationManager.fenceLocal (VProducer.ccm p) (VProducer.countsBuffer p) 1 0))
    as (m3 & E3 & W3 & HP3 & HC3);
    rewrite ?(writes_backed_by _ _ _ _ _ W12), ?(coord_slot_writes _ _ _ _ _ W12); try done; try size_lia;
    [by apply disjoint_ranges_sym|eapply cb_at_writes; eauto with hicr..|].
  exists m3. rewrite length_app, map_app. cbn [length map].
  replace (t + Z.of_nat (length q + 1)) with (t + Z.of_nat (length q) + 1) by lia.
  split_and!; [rewrite E3; apply fenceImplLocal_ok|writes_by W12 W3|done|done|].
  eapply holds_tokens_writes; [done|exact W3|eauto with hicr|].
  apply (holds_tokens_push g m1); rewrite ?length_map; [done|lia|done| |done].
  eapply holds_tokens_writes; [done|exact W1|eauto with hicr|done].
Qed.

Lemma run_push_checks g p c m t pt q src sp n :
  vrep g p c m t pt q -> slot_at m src sp n -> 0 <= n <= PTRDIFF_MAX ->
  run (VProducer.push p src 1) m =
  if (Z.of_nat (length q) =? gCapacity g) || (bytes_of q + n >? pbCapacity (vPayload g)) then Thrown runtime m
  else run (_ ← VProducer.push_payload p src n; VProducer.push_size p n) m.
Proof.
  intros [Hx HP _ HPP _ _ Hb _ _] Hs Hn. pose proof (vx_producer _ _ _ _ Hx) as [_ Ecn Epl _ _ _ _ _ Hpb].
  destruct (pb_sizes _ _ _ Hpb) as (? & ?). pose proof (bytes_of_nonneg q).
  unfold VProducer.push. erewrite run_bind_Done by (by apply run_throw_if_false).
  erewrite run_bind_Done by done. rewrite (run_bind_Done _ _ _ _ _ (run_getSize _ _ _ _ Hs)).
  erewrite run_bind_Done by (unfold VProducer.isFull; eapply run_isFull; [exact HP|exact HPP|done|done|size_lia..]).
  replace (t + Z.of_nat (length q) - t) with (Z.of_nat (length q)) by lia.
  replace (pt + bytes_of q - pt) with (bytes_of q) by lia.
  rewrite run_bind. unfold throw_if. by destruct (_ || _).
Qed.

Lemma run_vpush g p c m t pt q src sp msg :
  vrep g p c m t pt q -> slot_at m src sp (Z.of_nat (length msg)) ->
  mem_load (heap m) sp (Z.of_nat (length msg)) = Some msg ->
  Z.of_nat (length q) < gCapacity g -> bytes_of q + Z.of_nat (length msg) <= pbCapacity (vPayload g) ->
  t + Z.of_nat (length q) + 1 < SIZE_BOUND -> pt + bytes_of q + Z.of_nat (length msg) < SIZE_BOUND ->
  exists m', run (VProducer.push p src 1) m = Done tt m' /\ writes (vregions g) m m' /\
    vrep g p c m' t pt (q ++ [msg]).
Proof.
  intros Hr Hs HL Hlen Hbytes Ht Hpt. pose proof Hr as [Hx HP HC _ _ _ _ Hsz _].
  pose proof (pb_sizes _ _ _ (vp_payload _ _ _ (vx_producer _ _ _ _ Hx))) as (? & ?). pose proof (bytes_of_nonneg q).
  rewrite (run_push_checks g p c m t pt q src sp (Z.of_nat (length msg))) by (done || size_lia).
  replace ((_ =? _) || _) with false by (repeat case_bool; cbn; lia).
  destruct (run_push_payload g p c m t pt q src sp msg Hr Hs HL) as (m1 & E1 & W1 & HPP1 & HCP1 & Hh1); [lia..|].
  rewrite (run_bind_Done _ _ _ _ _ E1). pose proof (vx_apart _ _ _ _ Hx) as Hap. apart_facts Hap.
  pose proof (tb_sizes _ _ _ (vp_tokens _ _ _ (vx_producer _ _ _ _ Hx))).
  pose proof (vconnected_writes _ _ _ _ _ _ W1 Hx) as Hx1.
  destruct (run_push_size g p c m1 t q msg Hx1) as (m2 & E2 & W2 & HPC2 & HCC2 & Hs2);
    [eapply holds_tokens_writes; eauto with hicr|eapply cb_at_writes; eauto with hicr..|lia|lia|].
  exists m2. split_and!; [done|unfold vregions; writes_by W1 W2|].
  assert (bytes_of (q ++ [msg]) <= pbCapacity (vPayload g)).
  { rewrite bytes_of_app, bytes_of_cons. unfold bytes_of at 2. cbn. lia. }
  split; try done; [by eapply vconnected_writes|eapply cb_at_writes; eauto with hicr..| |].
  - rewrite length_app. cbn. lia.
  - eapply holds_payloads_writes; eauto 10 with hicr.
Qed.

(** ** Peeking *)

Lemma run_basePeek g p c m t pt q pos :
  vrep g p c m t pt q -> 0 <= pos < Z.of_nat (length q) ->
  run (VConsumer.basePeek c pos) m = Done ((t + pos) mod gCapacity g) m.
Proof.
  intros Hr Hp. pose proof Hr as [Hx _ HC _ _ Hlen _ _ _]. pose proof (vx_consumer _ _ _ _ Hx) as [Ecn _ _ _ Htb _].
  pose proof (tb_sizes _ _ _ Htb) as Hsz. pose proof (capacity_bound _ Hsz). destruct Hsz as (_ & Hcap & _).
  unfold VConsumer.basePeek. rewrite Ecn.
  cbn [CircularBuffer.getCapacity CircularBuffer._capacity Base.circular_buffer_at].
  erewrite run_bind_Done by (apply run_throw_if_false; case_bool; lia). erewrite run_bind_Done by done.
  rewrite (run_bind_Done _ _ _ _ _ (run_getDepth_ok _ _ _ _ HC ltac:(lia))).
  erewrite run_bind_Done by (apply run_throw_if_false; case_bool; lia).
  rewrite (run_bind_Done _ _ _ _ _ (run_getTailPosition _ _ _ _ HC Hcap)).
  cbn [CircularBuffer._capacity Base.circular_buffer_at]. pose proof (Z.mod_pos_bound t (gCapacity g) Hcap).
  rewrite wrap64_small by size_lia. unfold CircularBuffer.size_mod. case_bool; [lia|].
  by rewrite Z.add_mod_idemp_l by lia.
Qed.

Lemma run_tokenBufferPtr g p c m :
  vconnected g p c m -> run (VConsumer.tokenBufferPtr c) m = Done (gTokens g) m.
Proof.
  intros Hx. destruct (vc_tokens _ _ _ (vx_consumer _ _ _ _ Hx)) as [_ (n & _ & Hs) Hb _].
  unfold VConsumer.tokenBufferPtr. rewrite (run_bind_Done _ _ _ _ _ (run_getSource _ _ _ Hb)). by eapply run_getPointer.
Qed.

(** The size of message [i] is read back from the token buffer. *)
Lemma vrep_size g p c m t pt q i msg :
  vrep g p c m t pt q -> q !! i = Some msg ->
  load_size (heap m) (ptr_add (gTokens g) ((t + Z.of_nat i) mod gCapacity g * SIZEOF_SIZE_T)) = Some (Z.of_nat (length msg)).
Proof.
  intros [Hx _ _ _ _ _ Hb Hh _] Hi. specialize (Hh i (size_token msg)).
  rewrite list_lookup_fmap, Hi in Hh. specialize (Hh eq_refl). unfold token_at in Hh.
  rewrite (vx_size _ _ _ _ Hx) in Hh. unfold load_size, SIZEOF_SIZE_T. rewrite (Z.mul_comm _ 8), Hh. cbn -[le_value le_bytes].
  unfold size_token. rewrite le_value_size; [done|].
  pose proof (pb_sizes _ _ _ (vp_payload _ _ _ (vx_producer _ _ _ _ Hx))).
  pose proof (sum_list_with_in _ length _ (list_elem_of_lookup_2 _ _ _ Hi)). unfold bytes_of in Hb. size_lia.
Qed.

Lemma run_vpeek g p c m t pt msg q :
  vrep g p c m t pt (msg :: q) ->
  run (VConsumer.peek c 0) m = Done (pt mod pbCapacity (vPayload g), Z.of_nat (length msg)) m.
Proof.
  intros Hr. pose proof Hr as [Hx _ HC _ HCP _ _ _ _]. pose proof (vx_consumer _ _ _ _ Hx) as [Ecn Epl _ _ _ Hpb].
  destruct (pb_sizes _ _ _ Hpb) as (Hcap & _).
  unfold VConsumer.peek. erewrite run_bind_Done by (by apply run_throw_if_false). erewrite run_bind_Done by done.
  rewrite Ecn, Epl. rewrite (run_bind_Done _ _ _ _ _ (run_getDepth_ok _ _ _ _ HC ltac:(lia))).
  erewrite run_bind_Done by (apply run_throw_if_false; cbn [length]; case_bool; lia).
  rewrite (run_bind_Done _ _ _ _ _ (run_getTailPosition _ _ _ _ HCP Hcap)).
  cbn [CircularBuffer.getCapacity CircularBuffer._capacity Base.circular_buffer_at].
  unfold CircularBuffer.size_mod at 1. case_bool; [lia|]. rewrite run_bind. cbn [run mret prog_mret].
  rewrite (run_bind_Done _ _ _ _ _ (run_tokenBufferPtr _ _ _ _ Hx)).
  rewrite (run_bind_Done _ _ _ _ _ (run_basePeek g p c m t pt (msg :: q) 0 Hr ltac:(cbn [length]; lia))).
  rewrite (run_bind_Done _ _ _ _ _ (run_read_size _ _ _ (vrep_size g p c m t pt (msg :: q) 0 msg Hr eq_refl))).
  by rewrite Z.mod_mod by lia.
Qed.

(** ** Popping *)

Lemma run_add_sizes g p c m t pt q :
  vrep g p c m t pt q -> forall n i acc,
  (i + n <= length q)%nat -> 0 <= acc -> acc + bytes_of (take n (drop i q)) < SIZE_BOUND ->
  run (VConsumer.add_sizes c (gTokens g) n (Z.of_nat i) acc) m = Done (acc + bytes_of (take n (drop i q))) m.
Proof.
  intros Hr n. induction n as [|n IH]; intros i acc Hi Ha Hov; cbn [VConsumer.add_sizes].
  - rewrite take_0. unfold bytes_of. cbn. by rewrite Z.add_0_r.
  - destruct (lookup_lt_is_Some_2 q i) as [msg Hm]; [lia|].
    rewrite (drop_S _ _ _ Hm) in *. cbn [take] in *. rewrite bytes_of_cons in *.
    pose proof (bytes_of_nonneg (take n (drop (S i) q))).
    rewrite (run_bind_Done _ _ _ _ _ (run_basePeek g p c m t pt q (Z.of_nat i) Hr ltac:(lia))).
    rewrite (run_bind_Done _ _ _ _ _ (run_read_size _ _ _ (vrep_size g p c m t pt q i msg Hr Hm))).
    rewrite wrap64_small by size_lia. replace (Z.of_nat i + 1) with (Z.of_nat (S i)) by lia.
    rewrite IH by lia. f_equal. lia.
Qed.

Lemma bytes_of_take_drop n q : bytes_of q = bytes_of (take n q) + bytes_of (drop n q).
Proof. by rewrite <- bytes_of_app, take_drop. Qed.

Lemma run_getOldPayloadBytes g p c m t pt q n :
  vrep g p c m t pt q -> (n <= length q)%nat ->
  run (VConsumer.getOldPayloadBytes c (Z.of_nat n)) m = Done (bytes_of (take n q)) m.
Proof.
  intros Hr Hn. unfold VConsumer.getOldPayloadBytes. case_bool.
  - replace n with 0%nat by lia. done.
  - rewrite (run_bind_Done _ _ _ _ _ (run_tokenBufferPtr _ _ _ _ (vr_connected _ _ _ _ _ _ _ Hr))), Nat2Z.id.
    pose proof (vr_bytes _ _ _ _ _ _ _ Hr). pose proof (bytes_of_take_drop n q). pose proof (bytes_of_nonneg (drop n q)).
    pose proof (pb_sizes _ _ _ (vp_payload _ _ _ (vx_producer _ _ _ _ (vr_connected _ _ _ _ _ _ _ Hr)))).
    apply (run_add_sizes g p c m t pt q Hr n 0%nat 0); rewrite ?drop_0; [lia|lia|size_lia].
Qed.

(** Both tails are advanced and published. *)
Lemma run_vretire g p c m h t ph pt n k :
  vconnected g p c m ->
  cb_at (Base.circular_buffer_at (gCapacity g) (vProducerCounts g)) h t m ->
  cb_at (Base.circular_buffer_at (gCapacity g) (vConsumerCounts g)) h t m ->
  cb_at (Base.circular_buffer_at (pbCapacity (vPayload g)) (vProducerPayloads g)) ph pt m ->
  cb_at (Base.circular_buffer_at (pbCapacity (vPayload g)) (vConsumerPayloads g)) ph pt m ->
  0 <= n <= h - t -> 0 <= k <= ph - pt ->
  exists m',
    run (_ ← CircularBuffer.advanceTail (VConsumer.counts c) n;
         _ ← CircularBuffer.advanceTail (VConsumer.payloads c) k;
         _ ← CommunicationManager.memcpyGL (VConsumer.ccm c) (VConsumer._producerCoordinationBufferForCounts c)
               (_HICR_CHANNEL_TAIL_ADVANCE_COUNT_IDX *w SIZEOF_SIZE_T)
               (VConsumer.countsBuffer c) (_HICR_CHANNEL_TAIL_ADVANCE_COUNT_IDX *w SIZEOF_SIZE_T) SIZEOF_SIZE_T;
         _ ← CommunicationManager.memcpyGL (VConsumer.ccm c) (VConsumer._producerCoordinationBufferForPayloads c)
               (_HICR_CHANNEL_TAIL_ADVANCE_COUNT_IDX *w SIZEOF_SIZE_T)
               (VConsumer.payloadsBuffer c) (_HICR_CHANNEL_TAIL_ADVANCE_COUNT_IDX *w SIZEOF_SIZE_T) SIZEOF_SIZE_T;
         _ ← CommunicationManager.fenceLocal (VConsumer.ccm c) (VConsumer.countsBuffer c) 1 0;
         CommunicationManager.fenceLocal (VConsumer.ccm c) (VConsumer.payloadsBuffer c) 1 0) m = Done tt m' /\
    writes [(vProducerCounts g, 16); (vConsumerCounts g, 16); (vProducerPayloads g, 16); (vConsumerPayloads g, 16)] m m' /\
    cb_at (Base.circular_buffer_at (gCapacity g) (vProducerCounts g)) h (t + n) m' /\
    cb_at (Base.circular_buffer_at (gCapacity g) (vConsumerCounts g)) h (t + n) m' /\
    cb_at (Base.circular_buffer_at (pbCapacity (vPayload g)) (vProducerPayloads g)) ph (pt + k) m' /\
    cb_at (Base.circular_buffer_at (pbCapacity (vPayload g)) (vConsumerPayloads g)) ph (pt + k) m'.
Proof.
  intros Hx HPC HCC HPP HCP Hn Hk.
  pose proof Hx as [_ [_ _ _ (n1 & ? & Hs1) (n2 & ? & Hs2) _ _ _ _] [Ecn Epl (n3 & ? & Hs3) (n4 & ? & Hs4) _ _] _ _ Hb1 Hb2 Hap].
  apart_facts Hap. rewrite Ecn, Epl.
  destruct (run_advanceTail_at _ _ h t m n HCC Hn) as (m1 & E1 & W1 & HCC1).
  rewrite (run_bind_Done _ _ _ _ _ E1).
  destruct (run_advanceTail_at (pbCapacity (vPayload g)) (vConsumerPayloads g) ph pt m1 k) as (m2 & E2 & W2 & HCP2);
    [eapply cb_at_writes; eauto with hicr|done|].
  rewrite (run_bind_Done _ _ _ _ _ E2).
  assert (W12 : writes [(vConsumerCounts g, 16); (vConsumerPayloads g, 16)] m m2) by writes_by W1 W2.
  destruct (run_copy_tail (VConsumer.ccm c) (VConsumer._producerCoordinationBufferForCounts c) (VProducer.countsBuffer p)
              (VConsumer.countsBuffer c) m2 (vProducerCounts g) n1 (vConsumerCounts g) n3 (gCapacity g) (gCapacity g)
              h (t + n) h t) as (m3 & E3 & W3 & HPC3);
    rewrite ?(writes_backed_by _ _ _ _ _ W12), ?(writes_slot_at _ _ _ _ _ _ W12); try done;
    [by cb_frame W2|by cb_frame W12|].
  erewrite run_bind_Done by exact E3.
  assert (W13 : writes [(vConsumerCounts g, 16); (vConsumerPayloads g, 16); (vProducerCounts g, 16)] m m3) by writes_by W12 W3.
  destruct (run_copy_tail (VConsumer.ccm c) (VConsumer._producerCoordinationBufferForPayloads c) (VProducer.payloadsBuffer p)
              (VConsumer.payloadsBuffer c) m3 (vProducerPayloads g) n2 (vConsumerPayloads g) n4
              (pbCapacity (vPayload g)) (pbCapacity (vPayload g)) ph (pt + k) ph pt) as (m4 & E4 & W4 & HPP4);
    rewrite ?(writes_backed_by _ _ _ _ _ W13), ?(writes_slot_at _ _ _ _ _ _ W13); try done;
    [by cb_frame W3|by cb_frame W13|].
  erewrite run_bind_Done by exact E4.
  exists m4. assert (W24 : writes [(vProducerCounts g, 16); (vProducerPayloads g, 16)] m2 m4) by writes_by W3 W4.
  split_and!.
  - rewrite (run_bind_Done _ _ _ _ _ (fenceImplLocal_ok _ _ _ _ m4)). apply fenceImplLocal_ok.
  - writes_by W12 W24.
  - by cb_frame W4.
  - cb_frame W24. by cb_frame W2.
  - done.
  - by cb_frame W24.
Qed.

Lemma run_vpop g p c m t pt q n :
  vrep g p c m t pt q -> (n <= length q)%nat ->
  exists m', run (VConsumer.pop c (Z.of_nat n)) m = Done tt m' /\
    writes [(vProducerCounts g, 16); (vConsumerCounts g, 16); (vProducerPayloads g, 16); (vConsumerPayloads g, 16)] m m' /\
    vrep g p c m' (t + Z.of_nat n) (pt + bytes_of (take n q)) (drop n q).
Proof.
  intros Hr Hn. pose proof Hr as [Hx HPC HCC HPP HCP Hlen Hb Hs Hh]. pose proof (vx_consumer _ _ _ _ Hx) as [Ecn _ _ _ Htb _].
  pose proof (bytes_of_take_drop n q). pose proof (bytes_of_nonneg (drop n q)). pose proof (bytes_of_nonneg (take n q)).
  unfold VConsumer.pop. rewrite Ecn.
  cbn [CircularBuffer.getCapacity CircularBuffer._capacity Base.circular_buffer_at].
  erewrite run_bind_Done by (apply run_throw_if_false; case_bool; lia). erewrite run_bind_Done by done.
  rewrite (run_bind_Done _ _ _ _ _ (run_getDepth_ok _ _ _ _ HCC ltac:(lia))).
  erewrite run_bind_Done by (apply run_throw_if_false; case_bool; lia).
  rewrite (run_bind_Done _ _ _ _ _ (run_getOldPayloadBytes _ _ _ _ _ _ _ _ Hr Hn)).
  destruct (run_vretire g p c m _ _ _ _ (Z.of_nat n) (bytes_of (take n q)) Hx HPC HCC HPP HCP)
    as (m' & E & W & ? & ? & ? & ?); [lia..|].
  rewrite Ecn in E. exists m'. split_and!; [exact E|done|]. pose proof (vx_apart _ _ _ _ Hx) as Hap. apart_facts Hap.
  pose proof (tb_sizes _ _ _ Htb). pose proof (pb_sizes _ _ _ (vp_payload _ _ _ (vx_producer _ _ _ _ Hx))) as (? & ?).
  split; rewrite ?length_drop; [by eapply vconnected_writes|..].
  - by replace (t + Z.of_nat n + Z.of_nat (length q - n)) with (t + Z.of_nat (length q)) by lia.
  - by replace (t + Z.of_nat n + Z.of_nat (length q - n)) with (t + Z.of_nat (length q)) by lia.
  - by replace (pt + bytes_of (take n q) + bytes_of (drop n q)) with (pt + bytes_of q) by lia.
  - by replace (pt + bytes_of (take n q) + bytes_of (drop n q)) with (pt + bytes_of q) by lia.
  - lia.
  - lia.
  - rewrite fmap_drop. apply holds_tokens_drop. eapply holds_tokens_writes; eauto with hicr.
  - apply holds_payloads_drop. eapply holds_payloads_writes; eauto 10 with hicr.
Qed.

End Facts.
