(* ===== verification/VariableSPSCSpec.v ===== *)
(** * The variable-size SPSC channel is a FIFO queue bounded in messages and bytes

    The theorems of [VariableSPSC.v]: [push] and [pop] on every branch and a
    refinement theorem from client traces to an abstract queue.  The excess
    buffer is what lets every message be read back contiguously. *)

From S2P Require Import Prelude Memory CommunicationManager Pthreads CircularBuffer Channel TokenBuffer VariableSPSC.
From Stdlib Require Import ZArith Lia.
From Stdlib.Strings Require Import Byte.
From stdpp Require Import base gmap option list.

Local Open Scope Z_scope.
Local Open Scope hicr_scope.

(** ** The abstract specification *)

Module MessageQueue.

(** The message sent is the content of a source slot. *)
Inductive op : Type :=
| Send (src : nat) (msg : list byte)
| Receive.

Inductive result : Type :=
| Sent
| Received (msg : list byte)
| Refused (e : exn)
| Broken.

Definition step (capacity payloadCapacity : Z) (q : list (list byte)) (o : op) : list (list byte) * result :=
  match o with
  | Send _ msg =>
      if (Z.of_nat (length q) =? capacity) || (bytes_of q + Z.of_nat (length msg) >? payloadCapacity)
      then (q, Refused runtime) else (q ++ [msg], Sent)
  | Receive => match q with [] => (q, Refused runtime) | msg :: q' => (q', Received msg) end
  end.

Fixpoint steps (capacity payloadCapacity : Z) (q : list (list byte)) (l : list op) : list (list byte) * list result :=
  match l with
  | [] => (q, [])
  | o :: l' =>
      let '(q', r) := step capacity payloadCapacity q o in
      let '(q'', rs) := steps capacity payloadCapacity q' l' in (q'', r :: rs)
  end.

(** The messages and the bytes a trace tries to send. *)
Fixpoint sends (l : list op) : Z :=
  match l with [] => 0 | Send _ _ :: l' => 1 + sends l' | Receive :: l' => sends l' end.

Fixpoint sent_bytes (l : list op) : Z :=
  match l with [] => 0 | Send _ msg :: l' => Z.of_nat (length msg) + sent_bytes l' | Receive :: l' => sent_bytes l' end.

End MessageQueue.

(** ** The client *)

Module VClient.
Section Client.
Context {X : Type} {B : CommBackend X}.

Definition receive (c : VConsumer.t) : prog (Machine X) (list byte) :=
  r ← VConsumer.peek c 0;
  src ← getSourceLocalMemorySlot (VConsumer.getPayloadBufferMemorySlot c);
  match src with
  | None => Crash undefined
  | Some l =>
      payload ← getPointer l;
      msg ← read_bytes (ptr_add payload r.1) r.2;
      _ ← VConsumer.pop c 1;
      mret msg
  end.

Definition exec (p : VProducer.t) (c : VConsumer.t) (m : Machine X) (o : MessageQueue.op) :
    Machine X * MessageQueue.result :=
  match o with
  | MessageQueue.Send src _ =>
      match run (VProducer.push p src 1) m with
      | Done _ m' => (m', MessageQueue.Sent)
      | Thrown e m' => (m', MessageQueue.Refused e)
      | Crashed _ m' | Blocked m' => (m', MessageQueue.Broken)
      end
  | MessageQueue.Receive =>
      match run (receive c) m with
      | Done msg m' => (m', MessageQueue.Received msg)
      | Thrown e m' => (m', MessageQueue.Refused e)
      | Crashed _ m' | Blocked m' => (m', MessageQueue.Broken)
      end
  end.

Fixpoint exec_all (p : VProducer.t) (c : VConsumer.t) (m : Machine X) (l : list MessageQueue.op) :
    Machine X * list MessageQueue.result :=
  match l with
  | [] => (m, [])
  | o :: l' =>
      let '(m', r) := exec p c m o in
      let '(m'', rs) := exec_all p c m' l' in (m'', r :: rs)
  end.

End Client.
End VClient.

(** The source slot of a send holds the message and is apart from the channel. *)
Definition vop_fits {X : Type} (g : vgeometry) (m : Machine X) (o : MessageQueue.op) : Prop :=
  match o with
  | MessageQueue.Send src msg =>
      exists sp, slot_at m src sp (Z.of_nat (length msg)) /\
        mem_load (heap m) sp (Z.of_nat (length msg)) = Some msg /\
        Z.of_nat (length msg) <= PTRDIFF_MAX /\ apart (vregions g) sp (Z.of_nat (length msg))
  | MessageQueue.Receive => True
  end.

(** ** Helper lemmas *)

Section Facts.
Context {X : Type} {B : CommBackend X} `{!CommSpec X}.
Implicit Types m : Machine X.

Lemma vop_fits_writes g m m' o : writes (vregions g) m m' -> vop_fits g m o -> vop_fits g m' o.
Proof.
  intros W. destruct o as [src msg|]; [|done]. intros (sp & Hs & HL & Hmax & Ha). exists sp.
  by rewrite (writes_slot_at _ _ _ _ _ _ W), (writes_load _ _ _ _ _ W Ha).
Qed.

Lemma run_vreceive g p c m t pt msg q :
  vrep g p c m t pt (msg :: q) ->
  exists m', run (VClient.receive c) m = Done msg m' /\ writes (vregions g) m m' /\
    vrep g p c m' (t + 1) (pt + Z.of_nat (length msg)) q.
Proof.
  intros Hr. pose proof (vc_payload _ _ _ (vx_consumer _ _ _ _ (vr_connected _ _ _ _ _ _ _ Hr))) as [_ (n & _ & Hs) Hb _].
  unfold VClient.receive, VConsumer.getPayloadBufferMemorySlot.
  rewrite (run_bind_Done _ _ _ _ _ (run_vpeek _ _ _ _ _ _ _ _ Hr)).
  rewrite (run_bind_Done _ _ _ _ _ (run_getSource _ _ _ Hb)), (run_bind_Done _ _ _ _ _ (run_getPointer _ _ _ _ Hs)).
  cbn [fst snd]. destruct (vr_payloads _ _ _ _ _ _ _ Hr) as [HL _].
  erewrite run_bind_Done by exact (run_fetch (fun m => mem_load (heap m) _ _) m msg HL).
  destruct (run_vpop g p c m t pt (msg :: q) 1 Hr) as (m' & E & W & Hr'); [cbn; lia|].
  exists m'. split_and!; [by rewrite (run_bind_Done _ _ _ _ _ E)|unfold vregions; writes_by W|].
  cbn [take drop] in Hr'. rewrite bytes_of_cons in Hr'. unfold bytes_of in Hr'. cbn in Hr'. by rewrite Z.add_0_r in Hr'.
Qed.

Lemma run_vpeek_empty g p c m t pt :
  vrep g p c m t pt [] -> run (VConsumer.peek c 0) m = Thrown runtime m.
Proof.
  intros Hr. unfold VConsumer.peek. erewrite run_bind_Done by (by apply run_throw_if_false).
  erewrite run_bind_Done by done. rewrite (vc_counts _ _ _ (vx_consumer _ _ _ _ (vr_connected _ _ _ _ _ _ _ Hr))).
  rewrite (run_bind_Done _ _ _ _ _ (run_getDepth_ok _ _ _ _ (vr_cc _ _ _ _ _ _ _ Hr) ltac:(lia))).
  rewrite run_bind, run_throw_if_true; [done|]. cbn [length]. case_bool; lia.
Qed.

Lemma vexec_step g p c m t pt q o :
  vrep g p c m t pt q -> vop_fits g m o ->
  t + Z.of_nat (length q) + MessageQueue.sends [o] < SIZE_BOUND ->
  pt + bytes_of q + MessageQueue.sent_bytes [o] < SIZE_BOUND ->
  let q' := (MessageQueue.step (gCapacity g) (pbCapacity (vPayload g)) q o).1 in
  (VClient.exec p c m o).2 = (MessageQueue.step (gCapacity g) (pbCapacity (vPayload g)) q o).2 /\
  writes (vregions g) m (VClient.exec p c m o).1 /\
  exists t' pt', vrep g p c (VClient.exec p c m o).1 t' pt' q' /\
    t' + Z.of_nat (length q') <= t + Z.of_nat (length q) + MessageQueue.sends [o] /\
    pt' + bytes_of q' <= pt + bytes_of q + MessageQueue.sent_bytes [o].
Proof.
  intros Hr Hf Ht Hpt. destruct o as [src msg|]; cbn [MessageQueue.step VClient.exec MessageQueue.sends MessageQueue.sent_bytes] in *.
  - destruct Hf as (sp & Hs & HL & Hmax & _).
    destruct ((Z.of_nat (length q) =? gCapacity g) || _) eqn:E.
    + rewrite (run_push_checks g p c m t pt q src sp (Z.of_nat (length msg)) Hr Hs) by lia. rewrite E. cbn.
      split_and!; [done|apply writes_refl|]. exists t, pt. split_and!; [done|lia|lia].
    + apply orb_false_iff in E as [E1%Z.eqb_neq E2]. rewrite Z.gtb_ltb in E2. apply Z.ltb_ge in E2.
      pose proof (vr_length _ _ _ _ _ _ _ Hr).
      destruct (run_vpush g p c m t pt q src sp msg Hr Hs HL) as (m' & Em & W & Hr'); [lia..|]. rewrite Em. cbn.
      split_and!; [done|done|]. exists t, pt. rewrite length_app, bytes_of_app, bytes_of_cons.
      split_and!; [done|cbn; lia|unfold bytes_of at 2; cbn; lia].
  - destruct q as [|msg q].
    + unfold VClient.receive. rewrite run_bind, (run_vpeek_empty g p c m t pt Hr). cbn.
      split_and!; [done|apply writes_refl|]. exists t, pt. split_and!; [done|cbn; lia|lia].
    + destruct (run_vreceive g p c m t pt msg q Hr) as (m' & E & W & Hr'). rewrite E. cbn [fst snd].
      split_and!; [done|done|]. exists (t + 1), (pt + Z.of_nat (length msg)). rewrite bytes_of_cons. cbn [length].
      split_and!; [done|lia|lia].
Qed.

Lemma sends_cons_v o l : MessageQueue.sends (o :: l) = MessageQueue.sends [o] + MessageQueue.sends l.
Proof. destruct o; cbn; lia. Qed.

Lemma sent_bytes_cons o l : MessageQueue.sent_bytes (o :: l) = MessageQueue.sent_bytes [o] + MessageQueue.sent_bytes l.
Proof. destruct o; cbn; lia. Qed.

Lemma sends_nonneg_v l : 0 <= MessageQueue.sends l /\ 0 <= MessageQueue.sent_bytes l.
Proof. induction l as [|[]]; cbn; lia. Qed.

(** ** Theorems *)

(** C5: the client of a connected variable-size channel sees a FIFO queue of
    messages, bounded both in messages and in bytes.  For every sequence of sends
    and receives, whose messages and bytes number fewer than 2^64, the results
    (the bytes of every message received, and the refusals of a full and of an
    empty channel) are those of the abstract queue; no operation crashes or
    blocks. *)
Theorem variable_refines_queue g p c (l : list MessageQueue.op) :
  forall m t pt q,
  vrep g p c m t pt q -> Forall (vop_fits g m) l ->
  t + Z.of_nat (length q) + MessageQueue.sends l < SIZE_BOUND ->
  pt + bytes_of q + MessageQueue.sent_bytes l < SIZE_BOUND ->
  (VClient.exec_all p c m l).2 = (MessageQueue.steps (gCapacity g) (pbCapacity (vPayload g)) q l).2 /\
  exists t' pt', vrep g p c (VClient.exec_all p c m l).1 t' pt'
                   (MessageQueue.steps (gCapacity g) (pbCapacity (vPayload g)) q l).1.
Proof.
  induction l as [|o l IH]; intros m t pt q Hr Hf Ht Hpt; [split; [done|by exists t, pt]|].
  apply Forall_cons in Hf as [Ho Hf]. rewrite sends_cons_v in Ht. rewrite sent_bytes_cons in Hpt.
  destruct (sends_nonneg_v l).
  destruct (vexec_step g p c m t pt q o) as (Hres & W & t' & pt' & Hr' & Ht' & Hpt'); [done..|lia|lia|].
  cbn [VClient.exec_all MessageQueue.steps].
  destruct (VClient.exec p c m o) as [m' r], (MessageQueue.step _ _ q o) as [q' r']. cbn [fst snd] in *. subst r'.
  destruct (IH m' t' pt' q' Hr') as [Hrs Hend]; [|lia|lia|].
  { eapply Forall_impl; [exact Hf|]. intros x Hx. by eapply vop_fits_writes. }
  destruct (VClient.exec_all p c m' l), (MessageQueue.steps _ _ q' l). cbn in *. by subst.
Qed.

(** A variable-size [push] on every branch.  It is refused without any effect
    when the channel holds as many messages as its capacity or when the bytes
    would not fit; otherwise the message is appended, and only the channel's own
    buffers are written, although the message may end beyond the capacity. *)
Theorem variable_push_spec g p c m t pt q src sp msg :
  vrep g p c m t pt q -> slot_at m src sp (Z.of_nat (length msg)) ->
  mem_load (heap m) sp (Z.of_nat (length msg)) = Some msg -> Z.of_nat (length msg) <= PTRDIFF_MAX ->
  t + Z.of_nat (length q) + 1 < SIZE_BOUND -> pt + bytes_of q + Z.of_nat (length msg) < SIZE_BOUND ->
  if (Z.of_nat (length q) =? gCapacity g) || (bytes_of q + Z.of_nat (length msg) >? pbCapacity (vPayload g))
  then run (VProducer.push p src 1) m = Thrown runtime m
  else exists m', run (VProducer.push p src 1) m = Done tt m' /\ writes (vregions g) m m' /\
         vrep g p c m' t pt (q ++ [msg]).
Proof.
  intros Hr Hs HL Hmax Ht Hpt. destruct (_ || _) eqn:E.
  - rewrite (run_push_checks g p c m t pt q src sp (Z.of_nat (length msg)) Hr Hs) by lia. by rewrite E.
  - apply orb_false_iff in E as [E1%Z.eqb_neq E2]. rewrite Z.gtb_ltb in E2. apply Z.ltb_ge in E2.
    pose proof (vr_length _ _ _ _ _ _ _ Hr). eapply run_vpush; eauto; lia.
Qed.

(** A variable-size [peek] returns the start and the size of the oldest
    message, which lies contiguously there inside the buffer and its excess. *)
Theorem variable_peek_spec g p c m t pt q :
  vrep g p c m t pt q ->
  match q with
  | [] => run (VConsumer.peek c 0) m = Thrown runtime m
  | msg :: _ => exists start, run (VConsumer.peek c 0) m = Done (start, Z.of_nat (length msg)) m /\
      0 <= start /\ start + Z.of_nat (length msg) <= 2 * pbCapacity (vPayload g) /\
      mem_load (heap m) (ptr_add (pbPtr (vPayload g)) start) (Z.of_nat (length msg)) = Some msg
  end.
Proof.
  intros Hr. destruct q as [|msg q]; [by eapply run_vpeek_empty|].
  pose proof (pb_sizes _ _ _ (vp_payload _ _ _ (vx_producer _ _ _ _ (vr_connected _ _ _ _ _ _ _ Hr)))) as (Hc & _).
  pose proof (Z.mod_pos_bound pt _ Hc). pose proof (vr_bytes _ _ _ _ _ _ _ Hr) as Hb.
  rewrite bytes_of_cons in Hb. pose proof (bytes_of_nonneg q).
  eexists. split; [by eapply run_vpeek|]. split_and!; [lia|lia|]. apply (vr_payloads _ _ _ _ _ _ _ Hr).
Qed.

(** A variable-size [pop] of [n] messages on every branch: too many for the
    capacity or for the content is refused; otherwise the [n] oldest messages and
    exactly their bytes leave the channel. *)
Theorem variable_pop_spec g p c m t pt q n :
  vrep g p c m t pt q ->
  if (n <=? length q)%nat
  then exists m', run (VConsumer.pop c (Z.of_nat n)) m = Done tt m' /\
         vrep g p c m' (t + Z.of_nat n) (pt + bytes_of (take n q)) (drop n q)
  else run (VConsumer.pop c (Z.of_nat n)) m = Thrown (if Z.of_nat n <=? gCapacity g then runtime else logic) m.
Proof.
  intros Hr. destruct (Nat.leb_spec n (length q)).
  - destruct (run_vpop g p c m t pt q n Hr) as (m' & E & _ & Hr'); [done|]. by exists m'.
  - unfold VConsumer.pop. rewrite (vc_counts _ _ _ (vx_consumer _ _ _ _ (vr_connected _ _ _ _ _ _ _ Hr))).
    cbn [CircularBuffer.getCapacity CircularBuffer._capacity Base.circular_buffer_at].
    rewrite run_bind. unfold throw_if at 1. repeat case_bool; try lia; [|done]. cbn [run].
    erewrite run_bind_Done by done.
    rewrite (run_bind_Done _ _ _ _ _ (run_getDepth_ok _ _ _ _ (vr_cc _ _ _ _ _ _ _ Hr) ltac:(lia))).
    rewrite run_bind, run_throw_if_true; [done|]. case_bool; lia.
Qed.

End Facts.

(** ** A concrete channel over the pthreads backend *)

Module VDemo.

(** Two messages of four bytes in all; local slots have the numbers of their
    blocks, and global slots ten more. *)
Definition geom : vgeometry :=
  mkVGeometry (mkTokenBuffer 8 2 (Ptr 5 0) 5) (mkPayloadBuffer 4 (Ptr 6 0) 6)
    (Ptr 0 0) (Ptr 1 0) (Ptr 2 0) (Ptr 3 0) (Ptr 4 0).

Definition slot (b : nat) (n : Z) : nat * LocalMemorySlot.t := (b, LocalMemorySlot.make (Ptr b 0) n None).

Definition global (b : nat) : nat * GlobalMemorySlot.t := ((10 + b)%nat, GlobalMemorySlot.mk 7 (Z.of_nat b) (Some b)).

Definition machine_with (counts payloads tokens payload : list byte) : Machine Core.t :=
  mkMachine
    (list_to_map [(0%nat, counts); (1%nat, payloads); (2%nat, counts); (3%nat, payloads);
                  (4%nat, replicate 8 x00); (5%nat, tokens); (6%nat, payload);
                  (7%nat, [x01; x02; x03]); (8%nat, [x0a; x0b])])
    (list_to_map [slot 0 16; slot 1 16; slot 2 16; slot 3 16; slot 4 8; slot 5 16; slot 6 8; slot 7 3; slot 8 2])
    (list_to_map [global 0; global 1; global 2; global 3; global 5; global 6])
    (<[0%nat := CommunicationManagerFields.empty]> ∅)
    (Core.make 1).

(** The empty channel, and the channel after a message of three bytes was sent
    and received and one of two bytes sent, which ends in the excess buffer. *)
Definition machine : Machine Core.t :=
  machine_with (replicate 16 x00) (replicate 16 x00) (replicate 16 x00) (replicate 8 x00).

Definition loaded : Machine Core.t :=
  machine_with (le_bytes 8 2 ++ le_bytes 8 1) (le_bytes 8 5 ++ le_bytes 8 3) (le_bytes 8 3 ++ le_bytes 8 2)
    [x01; x02; x03; x0a; x0b; x00; x00; x00].

Definition vbase (counts payloads : nat) : VariableBase.t :=
  VariableBase.mk (Base.mk 0 0 counts 8 (Base.circular_buffer_at 2 (Ptr counts 0)))
    (Base.circular_buffer_at 2 (Ptr counts 0)) (Base.circular_buffer_at 4 (Ptr payloads 0)) counts payloads.

Definition producer : VProducer.t := VProducer.mk (vbase 0 1) 16 4 1 15 12 13.

Definition consumer : VConsumer.t := VConsumer.mk (vbase 2 3) 16 15 10 11.

Example make_vproducer : run (VProducer.make 0 0 4 16 15 0 1 12 13 4 1 2) machine = Done producer machine.
Proof. vm_compute. reflexivity. Qed.

Example make_vconsumer : run (VConsumer.make 0 0 16 15 2 3 10 11 4 2) machine = Done consumer machine.
Proof. vm_compute. reflexivity. Qed.

Example payload_buffer_size : VConsumer.getPayloadBufferSize 4 = 8.
Proof. reflexivity. Qed.

Lemma vconnected_demo counts payloads tokens payload :
  length tokens = 16%nat -> length payload = 8%nat ->
  vconnected geom producer consumer (machine_with counts payloads tokens payload).
Proof.
  intros Ht Hp. set (m := machine_with counts payloads tokens payload).
  assert (is_token_buffer geom 15 m).
  { split; [done|by exists 16; split; [cbn; lia|]; eexists|by eexists|]. apply accessible_iff. exists tokens. rewrite Ht. by split_and!. }
  assert (is_payload_buffer (vPayload geom) 16 m).
  { split; [done|by exists 8; split; [cbn; lia|]; eexists|by eexists|]. apply accessible_iff. exists payload. rewrite Hp. by split_and!. }
  split; try done; try (by eexists).
  - split; try done; try (by exists 16; split; [lia|]; eexists); [by exists 8; split; [lia|]; eexists|by eexists].
  - split; try done; by exists 16; split; [lia|]; eexists.
  - cbn [all_apart vregions]. split_and!; try done; repeat apply Forall_cons_2; try apply Forall_nil_2; cbn; lia.
Qed.

Lemma vrep_demo : vrep geom producer consumer machine 0 0 [].
Proof. split; [by apply vconnected_demo|by split|by split|by split|by split|cbn; lia|unfold bytes_of; cbn; lia|by intros []|done]. Qed.

Lemma vrep_loaded : vrep geom producer consumer loaded 1 3 [[x0a; x0b]].
Proof.
  split; [by apply vconnected_demo|by split|by split|by split|by split|cbn; lia|unfold bytes_of; cbn; lia| |by split].
  intros [|[|i]] tok Hi; by simplify_eq.
Qed.

Lemma source_demo src msg :
  (src, msg) = (7%nat, [x01; x02; x03]) \/ (src, msg) = (8%nat, [x0a; x0b]) ->
  vop_fits geom machine (MessageQueue.Send src msg).
Proof.
  intros [[= -> ->]|[= -> ->]]; [exists (Ptr 7 0)|exists (Ptr 8 0)];
    (split_and!; [by eexists|done|by vm_compute|]); repeat apply Forall_cons_2; try apply Forall_nil_2; cbn; lia.
Qed.

Import MessageQueue.

(** The second message starts at byte 3 of 4 and ends in the excess buffer. *)
Definition trace : list op :=
  [Send 7 [x01; x02; x03]; Send 8 [x0a; x0b]; Receive; Send 8 [x0a; x0b]; Send 8 [x0a; x0b]; Send 8 [x0a; x0b]; Receive; Receive; Receive].

Lemma variable_refines_queue_witness :
  (VClient.exec_all producer consumer machine trace).2 =
  [Sent; Refused runtime; Received [x01; x02; x03]; Sent; Sent; Refused runtime;
   Received [x0a; x0b]; Received [x0a; x0b]; Refused runtime].
Proof.
  refine (proj1 (variable_refines_queue geom producer consumer trace machine 0 0 [] vrep_demo _ _ _)); [|by vm_compute..].
  repeat (apply Forall_cons_2; [first [done | by apply source_demo; auto]|]). apply Forall_nil_2.
Defined.

Lemma variable_push_spec_witness :
  exists m', run (VProducer.push producer 7 1) machine = Done tt m' /\ writes (vregions geom) machine m' /\
    vrep geom producer consumer m' 0 0 [[x01; x02; x03]].
Proof.
  exact (variable_push_spec geom producer consumer machine 0 0 [] 7 (Ptr 7 0) [x01; x02; x03] vrep_demo
           ltac:(by eexists) eq_refl ltac:(by vm_compute) ltac:(by vm_compute) ltac:(by vm_compute)).
Defined.

Lemma variable_peek_spec_witness :
  exists start, run (VConsumer.peek consumer 0) loaded = Done (start, 2) loaded /\
    0 <= start /\ start + 2 <= 8 /\ mem_load (heap loaded) (Ptr 6 start) 2 = Some [x0a; x0b].
Proof. exact (variable_peek_spec geom producer consumer loaded 1 3 _ vrep_loaded). Defined.

Lemma variable_pop_spec_witness :
  exists m', run (VConsumer.pop consumer 1) loaded = Done tt m' /\ vrep geom producer consumer m' 2 5 [].
Proof. exact (variable_pop_spec geom producer consumer loaded 1 3 _ 1 vrep_loaded). Defined.

End VDemo.
