(* ===== verification/VariableSPSCConcurrent.v ===== *)
(** * The two ends of a variable-size SPSC channel at the same time

    A producer and a consumer of one channel ([VariableSPSC.v]) run in two threads,
    interleaved at every access to the shared memory: the producer waits while a message
    does not fit and pushes it, the consumer waits while there is none, reads the oldest
    message and pops it.  The theorem is that neither ever throws or crashes, that the
    consumer receives what was sent, in order, and that the two cannot block each other.

    Four coordination buffers hold two counters each: those of the producer and of the
    consumer, for messages and for bytes.  The ends disagree for a while not only on the
    counters of the other, but also on messages and bytes: the producer announces the
    bytes of a message before the message, the consumer gives a message back before its
    bytes.  [in_order] relates the eight counters; each end knows the ones that it
    writes, and a lower bound of the others. *)

From S2P Require Import Prelude Memory CommunicationManager Pthreads CircularBuffer Channel TokenBuffer VariableSPSC VariableSPSCSpec.
From S2P Require Import Concurrency Interference AtomicCopies FixedSPSCConcurrent.
From Stdlib Require Import ZArith Lia.
From Stdlib.Strings Require Import Byte.
From stdpp Require Import base gmap option list.

Local Open Scope Z_scope.
Local Open Scope hicr_scope.

(** ** The client threads *)

Module VThreads.
Section Threads.
Context {X : Type} {B : CommBackend X}.

(** Each message is the content of a slot. *)
Fixpoint produce (polls : nat) (p : VProducer.t) (sends : list (nat * list byte)) : prog (Machine X) (list (list byte)) :=
  match sends with
  | [] => Ret []
  | (src, msg) :: sends' =>
      _ ← Threads.busy_wait polls (VProducer.isFull p (Z.of_nat (length msg))) (VProducer.updateDepth p);
      _ ← VProducer.push p src 1;
      produce polls p sends'
  end.

Fixpoint consume (polls : nat) (c : VConsumer.t) (n : nat) : prog (Machine X) (list (list byte)) :=
  match n with
  | O => Ret []
  | S n' =>
      _ ← Threads.busy_wait polls (VConsumer.isEmpty c) (VConsumer.updateDepth c);
      msg ← VClient.receive c;
      msgs ← consume polls c n';
      Ret (msg :: msgs)
  end.

End Threads.
End VThreads.

(** ** Counters *)

(** The four coordination buffers: producer or consumer, counts or payloads. *)
Inductive coord : Type := PC | CC | PP | CP.

Definition same (b b' : coord) : bool := match b, b' with PC, PC | CC, CC | PP, PP | CP, CP => true | _, _ => false end.

Lemma same_spec b b' : reflect (b = b') (same b b').
Proof. destruct b, b'; by constructor. Qed.

(** Head and tail of each. *)
Abbreviation counters := (coord -> Z * Z) (only parsing).

Definition set_hd (b : coord) (v : Z) (k : counters) : counters :=
  fun b' => if same b' b then (v, (k b').2) else k b'.
Definition set_tl (b : coord) (v : Z) (k : counters) : counters :=
  fun b' => if same b' b then ((k b').1, v) else k b'.

(** What the producer knows when the counters are [k'] and were [k]: all the heads, and
    that its copies of the tails have not decreased.  [of_producer] are its own buffers. *)
Definition of_producer (b : coord) : bool := match b with PC | PP => true | CC | CP => false end.

Definition heads_known (k k' : counters) : Prop :=
  forall b, (k' b).1 = (k b).1 /\ (of_producer b = true -> (k b).2 <= (k' b).2).

(** The same for the consumer. *)
Definition tails_known (k k' : counters) : Prop :=
  forall b, (k' b).2 = (k b).2 /\ (of_producer b = false -> (k b).1 <= (k' b).1).

#[global] Instance heads_known_preorder : PreOrder heads_known.
Proof.
  split; [intros k b; by split|]. intros k1 k2 k3 H1 H2 b. destruct (H1 b) as [E1 L1], (H2 b) as [E2 L2].
  split; [congruence|]. intros Hb. specialize (L1 Hb). specialize (L2 Hb). lia.
Qed.

#[global] Instance tails_known_preorder : PreOrder tails_known.
Proof.
  split; [intros k b; by split|]. intros k1 k2 k3 H1 H2 b. destruct (H1 b) as [E1 L1], (H2 b) as [E2 L2].
  split; [congruence|]. intros Hb. specialize (L1 Hb). specialize (L2 Hb). lia.
Qed.

(** The tactic for goals on counters that have been set: all four buffers at once. *)
Ltac by_coord := intros []; cbn; split; try done; try lia; intros; try done; lia.

(** ** The channel while both ends are at work *)

Section Protocol.
Context {X : Type} {B : CommBackend X} `{!CommAtomic X}.
Implicit Types (m : Machine X) (k : coord -> Z * Z).

(** All messages of the exchange, [all], are numbered from [t0]; their bytes from [pt0]. *)
Context (g : vgeometry) (p : VProducer.t) (c : VConsumer.t) (t0 pt0 : Z) (all : list (list byte)) (sends : list (nat * list byte)).
Context (Hbound : t0 + Z.of_nat (length all) < SIZE_BOUND) (Hbytes : pt0 + bytes_of all < SIZE_BOUND).
Context (Hfits : Forall (fun msg => Z.of_nat (length msg) <= pbCapacity (vPayload g)) all).

Local Abbreviation last := (t0 + Z.of_nat (length all)).
Local Abbreviation pcap := (pbCapacity (vPayload g)).

Definition at_coord (b : coord) : ptr :=
  match b with PC => vProducerCounts g | CC => vConsumerCounts g | PP => vProducerPayloads g | CP => vConsumerPayloads g end.

Definition cap_of (b : coord) : Z := match b with PC | CC => gCapacity g | PP | CP => pcap end.

Definition buffer_of (b : coord) : CircularBuffer.t := Base.circular_buffer_at (cap_of b) (at_coord b).

Definition coords : list (ptr * Z) :=
  [(vProducerCounts g, 16); (vProducerPayloads g, 16); (vConsumerCounts g, 16); (vConsumerPayloads g, 16)].

(** The index of the first byte of message [i]. *)
Definition start_of (i : Z) : Z := pt0 + bytes_of (take (Z.to_nat (i - t0)) all).

Definition message (i : Z) : option (list byte) := all !! Z.to_nat (i - t0).

(** The bytes at the place of message [i]. *)
Definition bytes_at (m : Machine X) (i n : Z) : option (list byte) :=
  mem_load (heap m) (ptr_add (pbPtr (vPayload g)) (start_of i mod pcap)) n.

(** The messages from [lo] to [hi] are there, with their sizes. *)
Definition holds (lo hi : Z) (m : Machine X) : Prop :=
  forall i msg, lo <= i < hi -> message i = Some msg ->
    token_at g m i = Some (size_token msg) /\ bytes_at m i (Z.of_nat (length msg)) = Some msg.

Record in_order k : Prop := mkInOrder {
  io_counts : t0 <= (k PC).2 <= (k CC).2 /\ (k CC).2 <= (k CC).1 <= (k PC).1 /\ (k PC).1 <= (k PC).2 + gCapacity g /\ (k PC).1 <= last;
  io_payloads : pt0 <= (k PP).2 <= (k CP).2 /\ (k CP).1 <= (k PP).1 <= (k PP).2 + pcap /\ (k PP).1 <= start_of last;
  io_heads : start_of (k PC).1 <= (k PP).1 /\ start_of (k CC).1 <= (k CP).1;
  io_tails : (k CP).2 <= start_of (k CC).2
}.

Record vchan k (m : Machine X) : Prop := mkVChan {
  vch_connected : vconnected g p c m;
  vch_sources : Forall (fun sm => vop_fits g m (MessageQueue.Send sm.1 sm.2)) sends;
  vch_counters : forall b, cb_at (buffer_of b) (k b).1 (k b).2 m;
  vch_order : in_order k;
  vch_holds : holds (k CC).2 (k PC).1 m
}.

(** What the consumer does to the producer, and the other way round. *)
Definition vconsumer_acts : relation (Machine X) := fun m m' =>
  writes coords m m' /\ forall k, vchan k m -> exists k', vchan k' m' /\ heads_known k k'.

Definition vproducer_acts : relation (Machine X) := fun m m' =>
  writes (vregions g) m m' /\ forall k, vchan k m -> exists k', vchan k' m' /\ tails_known k k'.

(** The counters of an end that is between its operations. *)
Definition sent k (hp : Z) : Prop := (k PC).1 = hp /\ (k CC).1 = hp /\ (k PP).1 = start_of hp /\ (k CP).1 = start_of hp.
Definition received k (tc : Z) : Prop := (k PC).2 = tc /\ (k CC).2 = tc /\ (k PP).2 = start_of tc /\ (k CP).2 = start_of tc.

(** The producer is blocked when the next message does not fit, the consumer when there
    is no message, each with messages still to come. *)
Definition vproducer_contract : contract (Machine X) :=
  mkContract vconsumer_acts vproducer_acts (fun m => exists k hp msg, vchan k m /\ sent k hp /\ hp < last /\ message hp = Some msg /\
    (hp = (k PC).2 + gCapacity g \/ (k PP).2 + pcap < (k PP).1 + Z.of_nat (length msg))).

Definition vconsumer_contract : contract (Machine X) :=
  mkContract vproducer_acts vconsumer_acts (fun m => exists k tc, vchan k m /\ received k tc /\ (k CC).1 = tc /\ tc < last).

#[local] Instance vproducer_contract_ok : Contract vproducer_contract.
Proof.
  split; [split|].
  - intros m. split; [apply writes_refl|]. intros k Hk. by exists k.
  - intros m1 m2 m3 [W1 H1] [W2 H2]. split; [by eapply writes_trans|]. intros k Hk.
    destruct (H1 _ Hk) as (k1 & Hk1 & ?), (H2 _ Hk1) as (k2 & Hk2 & ?). exists k2. split; [done|by etrans].
  - intros m. split; [apply writes_refl|]. intros k Hk. by exists k.
Qed.

#[local] Instance vconsumer_contract_ok : Contract vconsumer_contract.
Proof.
  split; [split|].
  - intros m. split; [apply writes_refl|]. intros k Hk. by exists k.
  - intros m1 m2 m3 [W1 H1] [W2 H2]. split; [by eapply writes_trans|]. intros k Hk.
    destruct (H1 _ Hk) as (k1 & Hk1 & ?), (H2 _ Hk1) as (k2 & Hk2 & ?). exists k2. split; [done|by etrans].
  - intros m. split; [apply writes_refl|]. intros k Hk. by exists k.
Qed.

(** *** Messages and bytes *)

Lemma start_of_succ i msg : t0 <= i -> message i = Some msg -> start_of (i + 1) = start_of i + Z.of_nat (length msg).
Proof.
  intros Hi Hm. unfold start_of. replace (Z.to_nat (i + 1 - t0)) with (S (Z.to_nat (i - t0))) by lia.
  rewrite (take_S_r _ _ _ Hm), bytes_of_app, bytes_of_cons. unfold bytes_of at 2. cbn. lia.
Qed.

Lemma start_of_mono i j : i <= j -> start_of i <= start_of j.
Proof.
  intros Hij. unfold start_of. replace (take (Z.to_nat (i - t0)) all) with (take (Z.to_nat (i - t0)) (take (Z.to_nat (j - t0)) all)).
  - rewrite (bytes_of_take_drop (Z.to_nat (i - t0)) (take (Z.to_nat (j - t0)) all)). pose proof (bytes_of_nonneg (drop (Z.to_nat (i - t0)) (take (Z.to_nat (j - t0)) all))). lia.
  - rewrite take_take. f_equal. lia.
Qed.

Lemma start_of_last : start_of last = pt0 + bytes_of all.
Proof. unfold start_of. by rewrite take_ge by lia. Qed.

Lemma start_of_first : start_of t0 = pt0.
Proof. unfold start_of. rewrite Z.sub_diag, take_0. unfold bytes_of. cbn. lia. Qed.

Lemma message_some i : t0 <= i < last -> exists msg, message i = Some msg /\ Z.of_nat (length msg) <= pcap.
Proof.
  intros Hi. destruct (lookup_lt_is_Some_2 all (Z.to_nat (i - t0))) as [msg E]; [lia|]. exists msg. split; [exact E|].
  by eapply Forall_lookup_1 in Hfits.
Qed.

(** *** What an invariant implies *)

Lemma vchan_inj k k' m : vchan k m -> vchan k' m -> forall b, k' b = k b.
Proof.
  intros H1 H2 b. destruct (vch_counters _ _ H1 b) as [E1 E2], (vch_counters _ _ H2 b) as [E3 E4].
  destruct (k b), (k' b). cbn in *. congruence.
Qed.

(** The sizes of the channel. *)
Definition channel_sizes : Prop :=
  gTokenSize g = 8 /\ token_sizes g /\ 0 < gCapacity g <= PTRDIFF_MAX /\ 0 < pcap /\ 2 * pcap <= PTRDIFF_MAX.

Lemma vconnected_sizes m : vconnected g p c m -> channel_sizes.
Proof.
  intros Hx. pose proof (tb_sizes _ _ _ (vp_tokens _ _ _ (vx_producer _ _ _ _ Hx))) as Hs. pose proof (capacity_bound _ Hs).
  destruct (pb_sizes _ _ _ (vp_payload _ _ _ (vx_producer _ _ _ _ Hx))). split; [apply Hx|]. destruct Hs as (? & ? & ?). split_and!; try done; lia.
Qed.

Lemma vchan_is_size k m : vchan k m -> 0 <= (k PC).2 /\ 0 <= (k PP).2.
Proof.
  intros Hk. destruct (cb_at_is_size _ _ _ _ (vch_counters _ _ Hk PC)) as [_ ?], (cb_at_is_size _ _ _ _ (vch_counters _ _ Hk PP)) as [_ ?]. size_lia.
Qed.

(** *** Stores *)

(** A coordination buffer is apart from everything else of the channel. *)
Lemma coord_in b : (at_coord b, 16) ∈ coords.
Proof. unfold coords. destruct b; auto 10 with hicr. Qed.

Lemma coords_regions : coords ⊆ vregions g.
Proof. unfold coords, vregions. auto 20 with hicr. Qed.

Lemma coord_apart b b' : all_apart (vregions g) -> b <> b' -> apart [(at_coord b, 16)] (at_coord b') 16.
Proof. intros Hap Hb. apart_facts Hap. destruct b, b'; try done; cbn [at_coord]; eauto with hicr. Qed.

Lemma buffers_apart : all_apart (vregions g) ->
  apart coords (gTokens g) (gTokenSize g * gCapacity g) /\ apart coords (pbPtr (vPayload g)) (2 * pcap) /\ apart coords (vInfo g) 8.
Proof. intros Hap. apart_facts Hap. unfold coords. split_and!; eauto 10 with hicr. Qed.

(** Stores outside the tokens and the payload keep the messages. *)
Lemma holds_writes R lo hi m m' :
  channel_sizes -> writes R m m' -> apart R (gTokens g) (gTokenSize g * gCapacity g) -> apart R (pbPtr (vPayload g)) (2 * pcap) ->
  t0 <= lo -> holds lo hi m -> holds lo hi m'.
Proof.
  intros (_ & Hts & _ & Hpc & _) W Ht Hp Hlo Hh i msg Hi Hm. destruct (Hh i msg Hi Hm) as [E1 E2]. split.
  - by erewrite token_at_writes.
  - unfold bytes_at. rewrite (writes_load _ _ _ _ _ W); [done|]. pose proof (Z.mod_pos_bound (start_of i) pcap).
    pose proof (Forall_lookup_1 _ _ _ _ Hfits Hm). eapply apart_sub; [exact Hp|lia|cbn in *; lia].
Qed.

(** Stores inside the channel with the counters that result. *)
Lemma vchan_change k k' m m' :
  vchan k m -> writes (vregions g) m m' -> (forall b, cb_at (buffer_of b) (k' b).1 (k' b).2 m') -> in_order k' ->
  holds (k' CC).2 (k' PC).1 m' -> vchan k' m'.
Proof.
  intros [Hx Hs _ _ _] W Hc Ho Hh. split; [by eapply vconnected_writes| |done..].
  eapply Forall_impl; [exact Hs|]. intros sm. by apply vop_fits_writes.
Qed.

(** Stores to coordination buffers. *)
Lemma vchan_coords k k' m m' :
  vchan k m -> writes coords m m' -> (forall b, cb_at (buffer_of b) (k' b).1 (k' b).2 m') -> in_order k' ->
  holds (k' CC).2 (k' PC).1 m -> vchan k' m'.
Proof.
  intros Hk W Hc Ho Hh. pose proof (vch_connected _ _ Hk) as Hx. destruct (buffers_apart (vx_apart _ _ _ _ Hx)) as (? & ? & _).
  eapply vchan_change; [done|eapply writes_mono; [exact W|apply coords_regions]|done|done|].
  eapply holds_writes; [by eapply vconnected_sizes|exact W|done..| |done]. destruct Ho as [(? & ? & ? & ?) _ _ _]. lia.
Qed.

(** Message counters of slots. *)
Lemma vchan_sim_writes k m m' : vchan k m -> machine_sim m m' -> writes coords m m'.
Proof.
  intros Hk Hs. eapply (sim_writes_in _ _ 16); [exact Hs| |apply (coord_in PC)|done].
  eapply load_size_accessible. rewrite <- (ptr_add_0 (at_coord PC)). apply (vch_counters _ _ Hk PC).
Qed.

Lemma vchan_sim k m m' : vchan k m -> machine_sim m m' -> vchan k m'.
Proof.
  intros Hk Hs. eapply vchan_coords; [done|by eapply vchan_sim_writes| |apply Hk|apply Hk].
  intros b. unfold cb_at. rewrite <- (sim_heap _ _ Hs). apply Hk.
Qed.

(** One counter is stored. *)
Lemma counter_writes b d bs m m' : stored m (ptr_add (at_coord b) d) bs m' -> length bs = 8%nat -> d = 0 \/ d = 8 -> writes [(at_coord b, 16)] m m'.
Proof. intros St Hl Hd. eapply writes_stored; [exact St|constructor|lia|lia]. Qed.

Lemma vchan_store_head k m m' b bs :
  vchan k m -> stored m (ptr_add (at_coord b) 0) bs m' -> length bs = 8%nat -> in_order (set_hd b (le_value bs) k) ->
  holds (k CC).2 ((set_hd b (le_value bs) k) PC).1 m -> vchan (set_hd b (le_value bs) k) m' /\ writes coords m m'.
Proof.
  intros Hk St Hl Ho Hh. pose proof (counter_writes b 0 bs m m' St Hl ltac:(by left)) as W.
  assert (Wc : writes coords m m') by (eapply writes_mono; [exact W|apply footprint_cons; [apply coord_in|apply footprint_nil]]).
  split; [|done]. eapply vchan_coords; [done|done| |done|].
  - intros b'. unfold set_hd. destruct (same_spec b' b) as [->|Hb].
    + cbn. eapply stored_counter_head; [done..|apply Hk].
    + eapply cb_at_writes; [exact W| |apply Hk]. apply coord_apart; [apply Hk|done].
  - unfold set_hd at 1. by destruct (same CC b).
Qed.

Lemma vchan_store_tail k m m' b bs :
  vchan k m -> stored m (ptr_add (at_coord b) 8) bs m' -> length bs = 8%nat -> in_order (set_tl b (le_value bs) k) ->
  (k CC).2 <= ((set_tl b (le_value bs) k) CC).2 -> vchan (set_tl b (le_value bs) k) m' /\ writes coords m m'.
Proof.
  intros Hk St Hl Ho Hle. pose proof (counter_writes b 8 bs m m' St Hl ltac:(by right)) as W.
  assert (Wc : writes coords m m') by (eapply writes_mono; [exact W|apply footprint_cons; [apply coord_in|apply footprint_nil]]).
  split; [|done]. eapply vchan_coords; [done|done| |done|].
  - intros b'. unfold set_tl. destruct (same_spec b' b) as [->|Hb].
    + cbn. eapply stored_counter_tail; [done..|apply Hk].
    + eapply cb_at_writes; [exact W| |apply Hk]. apply coord_apart; [apply Hk|done].
  - replace ((set_tl b (le_value bs) k) PC).1 with (k PC).1 by (unfold set_tl; by destruct (same PC b)).
    intros i msg Hi. apply (vch_holds _ _ Hk). lia.
Qed.

(** The depth of each buffer is between zero and its capacity. *)
Lemma vchan_depth k m b : vchan k m ->
  0 <= (k b).2 <= (k b).1 /\ (k b).1 <= (k b).2 + cap_of b /\ (k b).1 < SIZE_BOUND /\ 0 < cap_of b <= PTRDIFF_MAX.
Proof.
  intros Hk. destruct (vchan_is_size _ _ Hk). destruct (vconnected_sizes _ (vch_connected _ _ Hk)) as (_ & _ & ? & ? & ?).
  destruct (vch_order _ _ Hk) as [(? & ? & ? & ?) (? & ? & ?) [? ?] ?].
  pose proof (start_of_mono (k CC).2 (k CC).1 ltac:(lia)). pose proof start_of_last. destruct b; cbn [cap_of]; lia.
Qed.

(** *** The producer

    Between its steps it knows the heads and lower bounds of the tails, and of the
    memory what the consumer cannot change ([lasting]). *)
Definition lasting (F : Machine X -> Prop) : Prop := forall m m', vconnected g p c m -> writes coords m m' -> F m -> F m'.

Definition producing k (F : Machine X -> Prop) (m : Machine X) : Prop := exists k', vchan k' m /\ heads_known k k' /\ F m.

Lemma vproducer_step k k' m m' :
  vchan k m -> writes (vregions g) m m' -> vchan k' m' -> tails_known k k' -> vproducer_acts m m'.
Proof.
  intros Hk W Hk' Ht. split; [done|]. intros k1 Hk1. exists k'. split; [done|]. intros b. rewrite (vchan_inj _ _ _ Hk Hk1 b). apply Ht.
Qed.

Lemma producing_vquiet k F : lasting F -> quiet vproducer_contract (producing k F).
Proof.
  intros HF. split.
  - intros m m' (k1 & Hk1 & Hh & Hm) [W Hr]. destruct (Hr _ Hk1) as (k2 & Hk2 & Hh2). exists k2.
    split_and!; [done|by etrans|]. eapply HF; [apply Hk1|exact W|done].
  - intros m m' (k1 & Hk1 & Hh & Hm) Hs. pose proof (vchan_sim_writes _ _ _ Hk1 Hs) as W. pose proof (vchan_sim _ _ _ Hk1 Hs) as Hk1'. split.
    + exists k1. split_and!; [done|done|]. eapply HF; [apply Hk1|exact W|done].
    + eapply vproducer_step; [exact Hk1|by eapply writes_mono, coords_regions|exact Hk1'|done].
Qed.

Lemma producing_vstable k F : lasting F -> stable vproducer_contract (producing k F).
Proof. intros HF. by apply producing_vquiet. Qed.

Lemma vproducer_rely m m' : rely vproducer_contract m m' -> writes coords m m'.
Proof. by intros [W _]. Qed.

(** The geometry is known as soon as there is a channel. *)
Lemma triple_vproducing {A : Type} k F (q : prog (Machine X) A) Q :
  (forall k' m, vchan k' m -> heads_known k k' -> triple vproducer_contract (producing k F) q Q) ->
  triple vproducer_contract (producing k F) q Q.
Proof. intros H m Hm. pose proof Hm as (k' & Hk & ? & _). by eapply H. Qed.

(** The own head is known, the tail is at least what is known of it. *)
Lemma triple_vproducer_depth {A : Type} b k F (q : Z -> prog (Machine X) A) Q :
  of_producer b = true -> lasting F ->
  (forall v, (k b).2 <= v -> (k b).1 - cap_of b <= v <= (k b).1 -> 0 <= (k b).1 - v < SIZE_BOUND ->
     triple vproducer_contract (producing (set_tl b v k) F) (q ((k b).1 - v)) Q) ->
  triple vproducer_contract (producing k F) (CircularBuffer.getDepth (buffer_of b) ≫= q) Q.
Proof.
  intros Hb HF Hk. apply triple_bind with (fun d m => exists v, ((k b).2 <= v /\ (k b).1 - cap_of b <= v <= (k b).1 /\ 0 <= (k b).1 - v < SIZE_BOUND /\ d = (k b).1 - v) /\
    producing (set_tl b v k) F m).
  - apply triple_noexcept.
    apply triple_read_size with (k b).1; [apply _|by apply producing_vstable|intros m (k' & Hc & Hh & _); rewrite <- (proj1 (Hh b)); apply Hc|].
    apply triple_bind with (fun v m => ((k b).2 <= v /\ (k b).1 - cap_of b <= v <= (k b).1 /\ 0 <= (k b).1 - v < SIZE_BOUND) /\ producing (set_tl b v k) F m).
    + apply triple_fetch; [apply _|by apply producing_vstable|]. intros m (k' & Hc & Hh & Hm). exists (k' b).2.
      pose proof (vchan_depth _ _ b Hc). destruct (Hh b) as [Hhd Htl]. specialize (Htl Hb). split; [apply Hc|]. split; [lia|].
      exists k'. split_and!; [done| |done]. intros b'. unfold set_tl. destruct (same_spec b' b) as [->|]; [cbn; split; [done|lia]|apply Hh].
    + intros v. apply triple_pure. intros (? & ? & ?). unfold CircularBuffer.calculateDepth.
      apply triple_throw_if; [case_bool; lia|]. apply triple_ret. intros m Hm. exists v. rewrite wrap64_small by size_lia. done.
  - intros d. apply triple_exists. intros v. apply triple_pure. intros (? & ? & ? & ->). by apply Hk.
Qed.

Lemma heads_known_weaken b v k k' : heads_known (set_tl b v k) k' -> (k b).2 <= v -> heads_known k k'.
Proof.
  intros Hh Hv b'. generalize (Hh b'). unfold set_tl. destruct (same_spec b' b) as [->|]; cbn; [|done].
  intros [? E2]. split; [done|]. intros Hb. specialize (E2 Hb). lia.
Qed.

Lemma producing_weaken b v k F m : producing (set_tl b v k) F m -> (k b).2 <= v -> producing k F m.
Proof. intros (k' & ? & Hh & ?) ?. exists k'. split_and!; [done|by eapply heads_known_weaken|done]. Qed.

(** A head is stored by the producer. *)
Lemma producing_store_head b bs k F m m' k' :
  lasting F -> vchan k' m -> heads_known k k' -> F m -> stored m (ptr_add (at_coord b) 0) bs m' -> length bs = 8%nat ->
  (of_producer b = false -> (k' b).1 <= le_value bs) ->
  in_order (set_hd b (le_value bs) k') -> holds (k' CC).2 (set_hd b (le_value bs) k' PC).1 m ->
  vproducer_acts m m' /\ producing (set_hd b (le_value bs) k) F m'.
Proof.
  intros HF Hc Hh Hm St Hl Hle Ho Hd. destruct (vchan_store_head k' m m' b bs Hc St Hl Ho Hd) as [Hc' W]. split.
  - eapply vproducer_step; [exact Hc|by eapply writes_mono, coords_regions|exact Hc'|]. intros b'. unfold set_hd.
    destruct (same_spec b' b) as [->|]; cbn; [|done]. by split.
  - eexists. split_and!; [exact Hc'| |eapply HF; [apply Hc|exact W|done]].
    intros b'. unfold set_hd. destruct (same_spec b' b) as [->|]; cbn; [split; [done|]|]; apply Hh.
Qed.

(** A head of the producer is advanced. *)
Lemma triple_vadvance b n k F :
  of_producer b = true -> lasting F -> 0 <= n -> (k b).1 + n <= (k b).2 + cap_of b -> (k b).1 + n < SIZE_BOUND ->
  (forall k' m, vchan k' m -> heads_known k k' -> F m ->
     in_order (set_hd b ((k b).1 + n) k') /\ holds (k' CC).2 (set_hd b ((k b).1 + n) k' PC).1 m) ->
  triple vproducer_contract (producing k F) (CircularBuffer.advanceHead (buffer_of b) n) (fun _ => producing (set_hd b ((k b).1 + n) k) F).
Proof.
  intros Hb HF Hn Hroom Hsz Hnew. apply triple_vproducing. intros k0 m0 Hk0 Hh0. pose proof (vchan_depth _ _ b Hk0) as (? & ? & ? & ?).
  rewrite (proj1 (Hh0 b)) in *. unfold CircularBuffer.advanceHead. apply triple_vproducer_depth; [done..|]. intros v Hv ? ?.
  cbv zeta. rewrite wrap64_small by size_lia. cbn [CircularBuffer._capacity buffer_of Base.circular_buffer_at].
  apply triple_throw_if; [case_bool; lia|].
  eapply triple_conseq with (P' := producing k F); [|intros m Hm; by eapply producing_weaken|intros ? m Hm; exact Hm].
  apply triple_read_size with (k b).1; [apply _|by apply producing_vstable|intros m (k' & Hc & Hh & _); rewrite <- (proj1 (Hh b)); apply Hc|].
  rewrite wrap64_small by size_lia. apply triple_update; [by apply producing_vstable|]. intros m (k' & Hc & Hh & Hm).
  destruct (Hnew k' m Hc Hh Hm) as [Ho Hd].
  destruct (store_counter _ _ _ _ m 0 ((k b).1 + n) (vch_counters _ _ Hc b)) as (hm & E & St & W); [by left|].
  exists (set_heap hm m). cbn [CircularBuffer._headAdvanceCounter buffer_of Base.circular_buffer_at]. change (_HICR_CHANNEL_HEAD_ADVANCE_COUNT_IDX * SIZEOF_SIZE_T) with 0. rewrite E. split; [done|].
  assert (Hv' : le_value (le_bytes 8 ((k b).1 + n)) = (k b).1 + n) by (apply le_value_size; size_lia).
  pose proof (producing_store_head b (le_bytes 8 ((k b).1 + n)) k F m (set_heap hm m) k' HF Hc Hh Hm St) as Hst. rewrite Hv' in Hst.
  apply Hst; [done|congruence|done..].
Qed.

(** A head is copied to the consumer. *)
Definition partner (b : coord) : coord := match b with PC => CC | CC => PC | PP => CP | CP => PP end.

Definition slots_ok (this : nat) (b : coord) (gl d s : nat) : Prop := forall m, vconnected g p c m ->
  backed_by m gl d /\ coord_slot m d (at_coord (partner b)) /\ coord_slot m s (at_coord b).

Lemma triple_vpublish this b gl d s k F :
  of_producer b = true -> lasting F -> slots_ok this b gl d s ->
  (forall k' m, vchan k' m -> heads_known k k' -> in_order (set_hd (partner b) (k b).1 k')) ->
  triple vproducer_contract (producing k F)
    (CommunicationManager.memcpyGL this gl (_HICR_CHANNEL_HEAD_ADVANCE_COUNT_IDX *w SIZEOF_SIZE_T) s
       (_HICR_CHANNEL_HEAD_ADVANCE_COUNT_IDX *w SIZEOF_SIZE_T) SIZEOF_SIZE_T)
    (fun _ => producing (set_hd (partner b) (k b).1 k) F).
Proof.
  intros Hb HF Hs Hnew. change (_HICR_CHANNEL_HEAD_ADVANCE_COUNT_IDX *w SIZEOF_SIZE_T) with 0. change SIZEOF_SIZE_T with 8.
  eapply (triple_copyGL _ coords) with (d := d) (dp := at_coord (partner b)) (sp := at_coord b);
    [apply vproducer_rely|by apply producing_vquiet|by apply producing_vquiet| |size_lia|size_lia|].
  - intros m (k' & Hc & _). destruct (Hs m (vch_connected _ _ Hc)) as (? & (n1 & ? & ?) & (n2 & ? & ?)).
    split_and!; [done|exists n1; split; [lia|done]|exists n2; split; [lia|done]].
  - intros m (k' & Hc & Hh & Hm).
    destruct (load_size_bytes _ _ _ (proj1 (vch_counters _ _ Hc b))) as (bs & Ebs & Hl & Hv).
    destruct (mem_store_accessible (heap m) (ptr_add (at_coord (partner b)) 0) bs) as [h Eh].
    { rewrite Hl. eapply load_size_accessible. apply (vch_counters _ _ Hc (partner b)). }
    exists bs, h. split; [done|]. split; [done|]. rewrite (proj1 (Hh b)) in Hv. rewrite <- Hv.
    eapply producing_store_head; [done|exact Hc|done..|by exists h|lia| | |].
    + intros _. rewrite Hv, <- (proj1 (Hh b)). destruct (vch_order _ _ Hc) as [(? & ? & ? & ?) (? & ? & ?) _ _]. destruct b; try done; cbn; lia.
    + rewrite Hv. by eapply Hnew.
    + replace (set_hd (partner b) (le_value bs) k' PC).1 with (k' PC).1; [apply Hc|]. by destruct b.
Qed.

(** *** Storing a message *)

(** Stores outside the coordination buffers. *)
Lemma vchan_region R k m m' :
  vchan k m -> writes R m m' -> R ⊆ vregions g -> (forall b, apart R (at_coord b) 16) -> holds (k CC).2 (k PC).1 m' -> vchan k m'.
Proof.
  intros Hk W HR Ha Hh. eapply vchan_change; [done|by eapply writes_mono|intros b; eapply cb_at_writes; [exact W|apply Ha|apply Hk]|apply Hk|done].
Qed.

(** What the producer knows of the memory: the source of the message, that its bytes are in
    place, that its size is in the buffer from which it is copied, and in its place. *)
Definition source (src : nat) (sp : ptr) (msg : list byte) (m : Machine X) : Prop :=
  slot_at m src sp (Z.of_nat (length msg)) /\ mem_load (heap m) sp (Z.of_nat (length msg)) = Some msg /\ apart (vregions g) sp (Z.of_nat (length msg)).
Definition placed (i : Z) (msg : list byte) (m : Machine X) : Prop := bytes_at m i (Z.of_nat (length msg)) = Some msg.
Definition noted (msg : list byte) (m : Machine X) : Prop := mem_load (heap m) (vInfo g) 8 = Some (size_token msg).
Definition sized (i : Z) (msg : list byte) (m : Machine X) : Prop := token_at g m i = Some (size_token msg).

Lemma lasting_top : lasting (fun _ => True).
Proof. done. Qed.

Lemma lasting_and F G : lasting F -> lasting G -> lasting (fun m => F m /\ G m).
Proof. intros HF HG m m' Hx W [? ?]. split; [by eapply HF|by eapply HG]. Qed.

Lemma lasting_source src sp msg : lasting (source src sp msg).
Proof.
  intros m m' Hx W (Hs & HL & Ha). unfold source. rewrite (writes_slot_at _ _ _ _ _ _ W), (writes_load _ _ _ _ _ W); [done|].
  by eapply apart_mono; [apply coords_regions|].
Qed.

Lemma payload_place i n : 0 < pcap -> 0 <= n <= pcap -> 0 <= start_of i mod pcap /\ start_of i mod pcap + n <= 2 * pcap.
Proof. intros Hc Hn. pose proof (Z.mod_pos_bound (start_of i) pcap Hc). lia. Qed.

Lemma lasting_placed i msg : Z.of_nat (length msg) <= pcap -> lasting (placed i msg).
Proof.
  intros Hl m m' Hx W HL. destruct (vconnected_sizes _ Hx) as (_ & _ & _ & ? & _). unfold placed, bytes_at.
  destruct (payload_place i (Z.of_nat (length msg))); [lia..|]. rewrite (writes_load _ _ _ _ _ W); [done|].
  eapply apart_sub; [apply (buffers_apart (vx_apart _ _ _ _ Hx))|lia..].
Qed.

Lemma lasting_noted msg : lasting (noted msg).
Proof. intros m m' Hx W HL. unfold noted. rewrite (writes_load _ _ _ _ _ W); [done|]. apply (buffers_apart (vx_apart _ _ _ _ Hx)). Qed.

Lemma lasting_sized i msg : lasting (sized i msg).
Proof.
  intros m m' Hx W HL. unfold sized. erewrite token_at_writes; [done|by eapply (vconnected_sizes m)|exact W|]. apply (buffers_apart (vx_apart _ _ _ _ Hx)).
Qed.

(** The bytes of the next message are stored. *)
Lemma vchan_place k m m' msg :
  vchan k m -> message (k PC).1 = Some msg -> start_of (k PC).1 + Z.of_nat (length msg) <= (k PP).2 + pcap ->
  stored m (ptr_add (pbPtr (vPayload g)) (start_of (k PC).1 mod pcap)) msg m' ->
  vchan k m' /\ writes [payload_range (vPayload g)] m m' /\ placed (k PC).1 msg m'.
Proof.
  intros Hk Hm Hroom St. pose proof (vch_connected _ _ Hk) as Hx. destruct (vconnected_sizes _ Hx) as (_ & Hts & _ & Hc & _).
  pose proof (vx_apart _ _ _ _ Hx) as Hap. apart_facts Hap. pose proof (Forall_lookup_1 _ _ _ _ Hfits Hm) as Hl. cbn in Hl.
  destruct (payload_place (k PC).1 (Z.of_nat (length msg))) as [? ?]; [lia..|].
  assert (W : writes [payload_range (vPayload g)] m m') by (eapply writes_stored; [exact St|constructor|lia..]).
  destruct (vch_order _ _ Hk) as [(? & ? & ? & ?) (? & ? & ?) [? ?] ?]. split_and!; [|done|by eapply stored_same].
  eapply vchan_region; [done|exact W|unfold vregions; auto 20 with hicr|intros []; cbn [at_coord]; eauto with hicr|].
  intros i msg' Hi Hm'. destruct (vch_holds _ _ Hk i msg' Hi Hm') as [E1 E2]. split.
  - erewrite token_at_writes; [done|done|exact W|eauto with hicr].
  - unfold bytes_at. rewrite (stored_disjoint _ _ _ _ _ _ St); [done|]. apply disjoint_ranges_same.
    pose proof (start_of_succ i msg' ltac:(lia) Hm'). pose proof (start_of_mono (i + 1) (k PC).1 ltac:(lia)). pose proof (start_of_mono (k CC).2 i ltac:(lia)).
    apply payload_disjoint; lia.
Qed.

(** The size of the next message is written to the info buffer. *)
Lemma vchan_note k m m' bs :
  vchan k m -> length bs = 8%nat -> stored m (vInfo g) bs m' -> vchan k m' /\ writes [(vInfo g, 8)] m m' /\ mem_load (heap m') (vInfo g) 8 = Some bs.
Proof.
  intros Hk Hl St. pose proof (vch_connected _ _ Hk) as Hx. pose proof (vx_apart _ _ _ _ Hx) as Hap. apart_facts Hap.
  assert (W : writes [(vInfo g, 8)] m m').
  { rewrite <- (ptr_add_0 (vInfo g)) in St. eapply writes_stored; [exact St|constructor|lia|lia]. }
  pose proof (stored_same _ _ _ _ St) as HL. rewrite Hl in HL. split_and!; [|done|done].
  eapply vchan_region; [done|exact W|unfold vregions; auto 20 with hicr|intros []; cbn [at_coord]; eauto with hicr|].
  eapply holds_writes; [by eapply vconnected_sizes|exact W|eauto with hicr|eauto with hicr| |apply Hk].
  destruct (vch_order _ _ Hk) as [(? & ? & ? & ?) _ _ _]. lia.
Qed.

(** The size of the next message is stored. *)
Lemma vchan_size k m m' msg :
  vchan k m -> (k PC).1 < (k PC).2 + gCapacity g ->
  stored m (ptr_add (gTokens g) (8 * ((k PC).1 mod gCapacity g))) (size_token msg) m' ->
  vchan k m' /\ writes [token_range g] m m' /\ sized (k PC).1 msg m'.
Proof.
  intros Hk Hroom St. pose proof (vch_connected _ _ Hk) as Hx. destruct (vconnected_sizes _ Hx) as (H8 & Hts & ? & Hc & _).
  rewrite <- H8 in St. assert (Hl : Z.of_nat (length (size_token msg)) = gTokenSize g) by (unfold size_token; rewrite length_le_bytes; lia).
  pose proof (vx_apart _ _ _ _ Hx) as Hap. apart_facts Hap. pose proof (stored_token_writes _ _ _ _ _ Hts Hl St) as W.
  destruct (vch_order _ _ Hk) as [(? & ? & ? & ?) _ _ _]. split_and!; [|done|by eapply token_at_stored_same].
  eapply vchan_region; [done|exact W|unfold vregions; auto 20 with hicr|intros []; cbn [at_coord]; eauto with hicr|].
  intros i msg' Hi Hm'. destruct (vch_holds _ _ Hk i msg' Hi Hm') as [E1 E2]. split.
  - erewrite token_at_stored_other; [done|done| |exact Hl|exact St].
    replace (k PC).1 with ((k CC).2 + ((k PC).1 - (k CC).2)) by lia. replace i with ((k CC).2 + (i - (k CC).2)) by lia. intros E%mod_window_inj; lia.
  - pose proof (Forall_lookup_1 _ _ _ _ Hfits Hm'). destruct (payload_place i (Z.of_nat (length msg'))); [cbn in *; lia..|].
    unfold bytes_at. rewrite (writes_load _ _ _ _ _ W); [done|]. eapply apart_sub; [eauto with hicr|lia..].
Qed.

Lemma producing_keep k k' F m m' :
  vchan k' m -> heads_known k k' -> writes (vregions g) m m' -> vchan k' m' -> F m' -> vproducer_acts m m' /\ producing k F m'.
Proof. intros Hk Hh W Hk' HF. split; [by eapply vproducer_step|by exists k']. Qed.

(** The position of a head of the producer. *)
Lemma triple_vhead {A : Type} b k F (q : Z -> prog (Machine X) A) Q :
  lasting F -> triple vproducer_contract (producing k F) (q ((k b).1 mod cap_of b)) Q ->
  triple vproducer_contract (producing k F) (CircularBuffer.getHeadPosition (buffer_of b) ≫= q) Q.
Proof.
  intros HF Hq. apply triple_vproducing. intros k0 m0 Hk0 _. destruct (vchan_depth _ _ b Hk0) as (_ & _ & _ & ?).
  apply triple_assoc. apply triple_read_size with (k b).1; [apply _|by apply producing_vstable|intros m (k' & Hc & Hh & _); rewrite <- (proj1 (Hh b)); apply Hc|].
  unfold CircularBuffer.size_mod. cbn [CircularBuffer._capacity buffer_of Base.circular_buffer_at]. case_bool; [lia|]. exact Hq.
Qed.

(** The copy of the bytes. *)
Lemma triple_vplace this k src sp msg :
  message (k PC).1 = Some msg -> (k PP).1 = start_of (k PC).1 -> (k PP).1 + Z.of_nat (length msg) <= (k PP).2 + pcap ->
  triple vproducer_contract (producing k (source src sp msg))
    (pos ← CircularBuffer.getHeadPosition (buffer_of PP);
     CommunicationManager.memcpyGL this (VProducer._payloadBuffer p) pos src 0 (Z.of_nat (length msg)))
    (fun _ => producing k (placed (k PC).1 msg)).
Proof.
  intros Hm Hst Hroom. pose proof (Forall_lookup_1 _ _ _ _ Hfits Hm) as Hl. cbn in Hl. apply triple_vproducing. intros k0 m0 Hk0 _.
  destruct (vconnected_sizes _ (vch_connected _ _ Hk0)) as (_ & _ & _ & Hc & Hmax). destruct (payload_place (k PC).1 (Z.of_nat (length msg))); [lia..|].
  apply triple_vhead; [apply lasting_source|]. cbn [cap_of]. rewrite Hst.
  eapply (triple_copyGL _ coords) with (d := pbSlot (vPayload g)) (dp := pbPtr (vPayload g)) (sp := sp);
    [apply vproducer_rely|apply producing_vquiet, lasting_source|by apply producing_vquiet, lasting_placed| |size_lia|size_lia|].
  - intros m (k' & Hk' & _ & (Hs & _)). pose proof (vp_payload _ _ _ (vx_producer _ _ _ _ (vch_connected _ _ Hk'))) as [_ (n & ? & ?) ? _].
    split_and!; [done|exists n; split; [lia|done]|exists (Z.of_nat (length msg)); split; [lia|done]].
  - intros m (k' & Hk' & Hh & (Hs & HL & Ha)). pose proof (vp_payload _ _ _ (vx_producer _ _ _ _ (vch_connected _ _ Hk'))) as [_ _ _ Hacc].
    destruct (mem_store_accessible (heap m) (ptr_add (pbPtr (vPayload g)) (start_of (k PC).1 mod pcap)) msg) as [h Eh].
    { eapply accessible_sub; [exact Hacc|lia..]. }
    exists msg, h. rewrite ptr_add_0. split; [done|]. split; [done|].
    destruct (Hh PC) as [E1 _], (Hh PP) as [E2 E3]. specialize (E3 eq_refl).
    destruct (vchan_place k' m (set_heap h m) msg) as (Hk2 & W & Hpl); [done|by rewrite E1|rewrite E1; lia|rewrite E1; by exists h|].
    rewrite E1 in Hpl. eapply producing_keep; [exact Hk'|done|apply (writes_mono _ _ _ _ W); unfold vregions; auto 20 with hicr|done..].
Qed.

(** The size is written and copied. *)
Lemma triple_vnote k i msg :
  Z.of_nat (length msg) <= pcap ->
  triple vproducer_contract (producing k (placed i msg)) (write_size (vInfo g) (Z.of_nat (length msg)))
    (fun _ => producing k (fun m => placed i msg m /\ noted msg m)).
Proof.
  intros Hl. apply triple_update; [by apply producing_vstable, lasting_placed|]. intros m (k' & Hk' & Hh & Hp).
  pose proof (vch_connected _ _ Hk') as Hx. destruct (vconnected_sizes _ Hx) as (_ & _ & _ & Hc & _). destruct (payload_place i (Z.of_nat (length msg))); [lia..|].
  destruct (mem_store_accessible (heap m) (vInfo g) (le_bytes 8 (Z.of_nat (length msg)))) as [h Eh].
  { rewrite length_le_bytes. apply (vp_infoAccess _ _ _ (vx_producer _ _ _ _ Hx)). }
  exists (set_heap h m). unfold store_size. rewrite Eh. split; [done|].
  destruct (vchan_note k' m (set_heap h m) (size_token msg)) as (Hk2 & W & HL); [done|apply length_le_bytes|by exists h|].
  pose proof (vx_apart _ _ _ _ Hx) as Hap. apart_facts Hap.
  eapply producing_keep; [exact Hk'|done|apply (writes_mono _ _ _ _ W); unfold vregions; auto 20 with hicr|done|]. split; [|done].
  unfold placed, bytes_at. rewrite (writes_load _ _ _ _ _ W); [done|]. eapply apart_sub; [eauto with hicr|lia..].
Qed.

Lemma triple_vsize this k msg :
  Z.of_nat (length msg) <= pcap -> (k PC).1 < (k PC).2 + gCapacity g ->
  triple vproducer_contract (producing k (fun m => placed (k PC).1 msg m /\ noted msg m))
    (pos ← CircularBuffer.getHeadPosition (buffer_of PC);
     CommunicationManager.memcpyGL this (VProducer._tokenBuffer p) (8 *w pos) (VProducer._sizeInfoBuffer p) 0 8)
    (fun _ => producing k (fun m => placed (k PC).1 msg m /\ sized (k PC).1 msg m)).
Proof.
  intros Hl Hroom. pose proof (lasting_placed (k PC).1 msg Hl) as Lp. pose proof (lasting_noted msg) as Ln. pose proof (lasting_sized (k PC).1 msg) as Ls.
  apply triple_vproducing. intros k0 m0 Hk0 _.
  destruct (vconnected_sizes _ (vch_connected _ _ Hk0)) as (H8 & Hts & Hcap & Hc & Hmax). pose proof Hts as (_ & _ & Hmul).
  pose proof (token_bounds 8 (gCapacity g) (k PC).1 ltac:(lia) ltac:(lia)). rewrite H8 in Hmul.
  apply triple_vhead; [by apply lasting_and|]. cbn [cap_of]. rewrite wrap64_small by size_lia.
  eapply (triple_copyGL _ coords) with (d := gTokensSlot g) (dp := gTokens g) (sp := vInfo g);
    [apply vproducer_rely|by apply producing_vquiet, lasting_and|by apply producing_vquiet, lasting_and| |size_lia|size_lia|].
  - intros m (k' & Hk' & _). pose proof (vx_producer _ _ _ _ (vch_connected _ _ Hk')) as [_ _ _ _ _ (n1 & ? & ?) _ [_ (n2 & ? & ?) ? _] _].
    split_and!; [done|exists n2; split; [lia|done]|exists n1; split; [lia|done]].
  - intros m (k' & Hk' & Hh & Hp & HL). pose proof (vch_connected _ _ Hk') as Hx. pose proof (vp_tokens _ _ _ (vx_producer _ _ _ _ Hx)) as [_ _ _ Hacc].
    destruct (mem_store_accessible (heap m) (ptr_add (gTokens g) (8 * ((k PC).1 mod gCapacity g))) (size_token msg)) as [h Eh].
    { unfold size_token. rewrite length_le_bytes. rewrite H8 in Hacc. eapply accessible_sub; [exact Hacc|lia..]. }
    exists (size_token msg), h. rewrite ptr_add_0. split; [done|]. split; [done|].
    destruct (Hh PC) as [E1 E3]. specialize (E3 eq_refl).
    destruct (vchan_size k' m (set_heap h m) msg) as (Hk2 & W & Hsz); [done|lia|rewrite E1; by exists h|].
    rewrite E1 in Hsz. pose proof (vx_apart _ _ _ _ Hx) as Hap. apart_facts Hap. destruct (payload_place (k PC).1 (Z.of_nat (length msg))); [lia..|].
    eapply producing_keep; [exact Hk'|done|apply (writes_mono _ _ _ _ W); unfold vregions; auto 20 with hicr|done|]. split; [|done].
    unfold placed, bytes_at. rewrite (writes_load _ _ _ _ _ W); [done|]. eapply apart_sub; [eauto with hicr|lia..].
Qed.

(** *** Pushing *)

(** A message of [n] bytes fits, as far as the producer knows. *)
Definition room k (n : Z) : Prop := (k PC).1 < (k PC).2 + gCapacity g /\ (k PP).1 + n <= (k PP).2 + pcap.

Lemma sent_known k k' hp : sent k hp -> heads_known k k' -> sent k' hp.
Proof. intros (? & ? & ? & ?) Hh. unfold sent. by rewrite (proj1 (Hh PC)), (proj1 (Hh CC)), (proj1 (Hh PP)), (proj1 (Hh CP)). Qed.

Lemma room_known k k' n : room k n -> heads_known k k' -> room k' n.
Proof.
  intros [? ?] Hh. destruct (Hh PC) as [E1 L1], (Hh PP) as [E2 L2]. specialize (L1 eq_refl). specialize (L2 eq_refl). unfold room. lia.
Qed.

Lemma set_tl_known b v k : (of_producer b = true -> (k b).2 <= v) -> heads_known k (set_tl b v k).
Proof. intros Hv b'. unfold set_tl. destruct (same_spec b' b) as [->|]; [by cbn|done]. Qed.

Lemma triple_visFull k F n :
  lasting F -> 0 <= n <= pcap ->
  triple vproducer_contract (producing k F) (VProducer.isFull p n)
    (fun full m => exists k', (heads_known k k' /\ (full = false -> room k' n) /\ (room k n -> full = false)) /\ producing k' F m).
Proof.
  intros HF Hn. apply triple_vproducing. intros k0 m0 Hk0 Hh0. pose proof (vx_producer _ _ _ _ (vch_connected _ _ Hk0)) as [_ Ecn Epl _ _ _ _ _ _].
  destruct (vconnected_sizes _ (vch_connected _ _ Hk0)) as (_ & _ & ? & ? & ?).
  unfold VProducer.isFull. rewrite Ecn, Epl. change (Base.circular_buffer_at (gCapacity g) (vProducerCounts g)) with (buffer_of PC).
  change (Base.circular_buffer_at pcap (vProducerPayloads g)) with (buffer_of PP).
  apply triple_vproducer_depth; [done..|]. intros v Hv ? ?. cbn [CircularBuffer.getCapacity CircularBuffer._capacity buffer_of Base.circular_buffer_at cap_of] in *.
  case_bool.
  { apply triple_ret. intros m Hm. exists (set_tl PC v k). split_and!; [by apply set_tl_known|done| |done]. intros [? ?]. lia. }
  apply triple_vproducer_depth; [done..|]. intros w Hw ? ?. cbn [set_tl same fst snd cap_of] in *. apply triple_ret. intros m Hm.
  exists (set_tl PP w (set_tl PC v k)). rewrite wrap64_small by size_lia. split_and!; [| | |done].
  - etrans; apply set_tl_known; done.
  - rewrite Z.gtb_ltb, Z.ltb_ge. intros Hb. unfold room. cbn. lia.
  - intros [? ?]. case_bool; [lia|done].
Qed.

(** The slots of the coordination buffers. *)
Lemma slots_payloads : slots_ok (VProducer.ccm p) PP (VProducer._consumerCoordinationBufferForPayloads p) (VConsumer.payloadsBuffer c) (VProducer.payloadsBuffer p).
Proof. intros m [_ [] [] ? ? ? ? _]. by split_and!. Qed.

Lemma slots_counts : slots_ok (VProducer.ccm p) PC (VProducer._consumerCoordinationBufferForCounts p) (VConsumer.countsBuffer c) (VProducer.countsBuffer p).
Proof. intros m [_ [] [] ? ? ? ? _]. by split_and!. Qed.

(** The bytes of a message are stored and announced. *)
Lemma triple_push_payload k src sp msg hp :
  sent k hp -> room k (Z.of_nat (length msg)) -> t0 <= hp < last -> message hp = Some msg ->
  triple vproducer_contract (producing k (source src sp msg)) (VProducer.push_payload p src (Z.of_nat (length msg)))
    (fun _ => producing (set_hd CP (start_of (hp + 1)) (set_hd PP (start_of (hp + 1)) k)) (placed hp msg)).
Proof.
  intros (E1 & E2 & E3 & E4) [? ?] Hhp Hm. pose proof (start_of_succ hp msg ltac:(lia) Hm) as Hsucc. pose proof (start_of_mono (hp + 1) last ltac:(lia)).
  pose proof start_of_last. pose proof (Forall_lookup_1 _ _ _ _ Hfits Hm) as Hl. cbn in Hl. pose proof (lasting_placed hp msg Hl) as Lp.
  apply triple_vproducing. intros k0 m0 Hk0 _. pose proof (vx_producer _ _ _ _ (vch_connected _ _ Hk0)) as [_ _ Epl _ _ _ _ _ _].
  unfold VProducer.push_payload, VProducer.getPayloadHeadPosition. rewrite Epl.
  change (Base.circular_buffer_at pcap (vProducerPayloads g)) with (buffer_of PP).
  apply triple_assoc_back. eapply triple_bind; [apply triple_vplace; [by rewrite E1|by rewrite E1|lia]|intros []; cbn beta]. rewrite E1.
  eapply triple_bind; [apply fenceImplLocal_atomic; [apply _|by apply producing_vquiet]|intros []; cbn beta].
  eapply triple_bind; [apply triple_vadvance; [done|done|lia|cbn [cap_of]; lia|lia|]|intros []; cbn beta].
  { intros k' m Hk' Hh _. destruct (vch_order _ _ Hk') as [? (? & ? & ?) [? ?] ?], (Hh PP) as [EP LP], (Hh PC) as [EC _], (Hh CC) as [ECC _], (Hh CP) as [ECP _].
    specialize (LP eq_refl). split; [|apply Hk']. split; cbn; [done|split_and!; lia|split; [rewrite EC, E1; lia|done]|done]. }
  rewrite E3, <- Hsucc. set (k1 := set_hd PP (start_of (hp + 1)) k).
  eapply triple_bind; [eapply (triple_vpublish _ PP); [done|done|apply slots_payloads|]|intros []; cbn beta].
  { intros k' m Hk' Hh. destruct (vch_order _ _ Hk') as [? (? & ? & ?) [? ?] ?], (Hh PP) as [EP _], (Hh CC) as [ECC _]. cbn in EP, ECC.
    split; cbn; [done|split_and!; lia|split; [done|rewrite ECC, E2; lia]|done]. }
  apply fenceImplLocal_atomic; [apply _|by apply producing_vquiet].
Qed.

(** The size of a message is stored and the message announced. *)
Lemma triple_push_size k msg hp :
  (k PC).1 = hp -> (k CC).1 = hp -> (k PP).1 = start_of (hp + 1) -> (k CP).1 = start_of (hp + 1) -> (k PC).1 < (k PC).2 + gCapacity g ->
  t0 <= hp < last -> message hp = Some msg ->
  triple vproducer_contract (producing k (placed hp msg)) (VProducer.push_size p (Z.of_nat (length msg)))
    (fun _ => producing (set_hd CC (hp + 1) (set_hd PC (hp + 1) k)) (fun _ => True)).
Proof.
  intros E1 E2 E3 E4 Hroom Hhp Hm. pose proof (Forall_lookup_1 _ _ _ _ Hfits Hm) as Hl. cbn in Hl. pose proof (lasting_placed hp msg Hl) as Lp.
  pose proof (lasting_sized hp msg) as Ls. pose proof (lasting_and _ _ Lp (lasting_noted msg)) as Ln. pose proof (lasting_and _ _ Lp Ls) as Lps.
  apply triple_vproducing. intros k0 m0 Hk0 _. pose proof (vx_producer _ _ _ _ (vch_connected _ _ Hk0)) as [Etk Ecn _ _ _ _ _ _ _].
  unfold VProducer.push_size. rewrite Etk, Ecn. change (Base.circular_buffer_at (gCapacity g) (vProducerCounts g)) with (buffer_of PC).
  eapply triple_getPointer_any; [apply _|by apply producing_vstable| |].
  { intros m (k' & Hk' & _). pose proof (vx_producer _ _ _ _ (vch_connected _ _ Hk')) as [_ _ _ _ _ (n & _ & ?) _ _ _]. by exists n. }
  eapply triple_bind; [by apply triple_vnote|intros []; cbn beta]. rewrite <- E1 in *.
  apply triple_assoc_back. eapply triple_bind; [by apply triple_vsize|intros []; cbn beta].
  eapply triple_bind; [apply fenceImplLocal_atomic; [apply _|by apply producing_vquiet]|intros []; cbn beta].
  eapply triple_bind; [apply triple_vadvance; [done|done|lia|cbn [cap_of]; lia|lia|]|intros []; cbn beta].
  { intros k' m Hk' Hh [Hp Hs]. destruct (vch_order _ _ Hk') as [(? & ? & ? & ?) ? [? ?] ?], (Hh PP) as [EP _], (Hh PC) as [EC LC], (Hh CC) as [ECC _].
    specialize (LC eq_refl). split.
    - split; cbn; [split_and!; lia|done|split; [lia|done]|done].
    - cbn. intros i msg' Hi Hm'. destruct (decide (i = (k PC).1)) as [->|]; [|apply (vch_holds _ _ Hk'); [lia|done]]. by simplify_eq. }
  eapply triple_bind; [eapply (triple_vpublish _ PC); [done|done|apply slots_counts|]|intros []; cbn beta].
  { intros k' m Hk' Hh. destruct (vch_order _ _ Hk') as [(? & ? & ? & ?) ? [? ?] ?], (Hh PC) as [EC _], (Hh CP) as [ECP _]. cbn in EC, ECP |- *.
    split; cbn; [split_and!; lia|done|split; [done|lia]|done]. }
  eapply triple_conseq; [apply fenceImplLocal_atomic; [apply _|by apply producing_vquiet]|done|].
  intros _ m (k' & ? & ? & _). by exists k'.
Qed.

Lemma triple_vpush k src sp msg hp :
  sent k hp -> room k (Z.of_nat (length msg)) -> t0 <= hp < last -> message hp = Some msg ->
  triple vproducer_contract (producing k (source src sp msg)) (VProducer.push p src 1)
    (fun _ m => exists k', sent k' (hp + 1) /\ producing k' (fun _ => True) m).
Proof.
  intros Hsent Hroom Hhp Hm. pose proof (Forall_lookup_1 _ _ _ _ Hfits Hm) as Hl. cbn in Hl. pose proof (lasting_source src sp msg) as Ls.
  unfold VProducer.push. apply triple_throw_if; [done|]. unfold VProducer.updateDepth. cbn [mbind prog_mbind bind mret prog_mret].
  eapply triple_getSize; [apply _|by apply producing_vstable|intros m (k' & _ & _ & Hs & _); exact Hs|].
  eapply triple_bind; [apply triple_visFull; [done|lia]|]. intros full; cbn beta. apply triple_exists. intros k1. apply triple_pure. intros (Hh & _ & Hf).
  rewrite (Hf Hroom). apply triple_throw_if; [done|]. pose proof (sent_known _ _ _ Hsent Hh) as Hs1. pose proof (room_known _ _ _ Hroom Hh) as Hr1.
  eapply triple_bind; [by apply triple_push_payload|intros []; cbn beta]. destruct Hs1 as (? & ? & ? & ?), Hr1 as [? ?].
  eapply triple_conseq; [apply (triple_push_size (set_hd CP (start_of (hp + 1)) (set_hd PP (start_of (hp + 1)) k1)) msg hp); [done..|cbn; lia|done|done]|intros m Hm'; exact Hm'|]. cbn beta.
  intros _ m Hm'. eexists. split; [|exact Hm']. by split_and!.
Qed.

(** The producer waits until the message fits. *)
Lemma triple_vwait_full polls msg hp : forall k,
  sent k hp -> t0 <= hp < last -> message hp = Some msg ->
  triple vproducer_contract (producing k (fun _ => True))
    (Threads.busy_wait polls (VProducer.isFull p (Z.of_nat (length msg))) (VProducer.updateDepth p))
    (fun _ m => exists k', (sent k' hp /\ room k' (Z.of_nat (length msg))) /\ producing k' (fun _ => True) m).
Proof.
  induction polls as [|polls IH]; intros k Hsent Hhp Hm; pose proof (Forall_lookup_1 _ _ _ _ Hfits Hm) as Hl; cbn in Hl; cbn [Threads.busy_wait].
  - assert (Hrun : forall m k', vchan k' m -> run (VProducer.isFull p (Z.of_nat (length msg))) m =
      Done (((k' PC).1 - (k' PC).2 =? gCapacity g) || ((k' PP).1 - (k' PP).2 + Z.of_nat (length msg) >? pcap)) m).
    { intros m k' Hk'. pose proof (vx_producer _ _ _ _ (vch_connected _ _ Hk')) as [_ Ecn Epl _ _ _ _ _ _].
      pose proof (vchan_depth _ _ PC Hk') as (? & ? & ? & ?). pose proof (vchan_depth _ _ PP Hk') as (? & ? & ? & ?). cbn [cap_of] in *.
      destruct (vconnected_sizes _ (vch_connected _ _ Hk')) as (_ & _ & _ & _ & ?).
      apply (run_isFull _ _ _ _ _ _ _ _ _ _ _ _ (vch_counters _ _ Hk' PC) (vch_counters _ _ Hk' PP)); try done; size_lia. }
    apply triple_await with (fun m => exists k', (sent k' hp /\ room k' (Z.of_nat (length msg))) /\ producing k' (fun _ => True) m);
      [by apply producing_vstable| | |by apply triple_ret]; intros m (k' & Hk' & Hh & _); rewrite (Hrun _ _ Hk'); intros Hb;
      pose proof (sent_known _ _ _ Hsent Hh) as Hs'; pose proof (vchan_depth _ _ PC Hk') as (? & ? & ? & ?); cbn [cap_of] in *.
    + exists k', hp, msg. split_and!; try done; [lia|]. destruct Hs' as (? & _). apply negb_false_iff, orb_true_iff in Hb as [Hb|Hb]; [left; lia|right; lia].
    + apply negb_true_iff, orb_false_iff in Hb as [Hb1 Hb2]. exists k'. split_and!; [done|unfold room; lia..|by exists k'].
  - eapply triple_bind; [apply triple_visFull; [done|lia]|]. intros full; cbn beta. apply triple_exists. intros k1. apply triple_pure. intros (Hh & Hf & _).
    pose proof (sent_known _ _ _ Hsent Hh) as Hs1. destruct full.
    + unfold VProducer.updateDepth at 1. cbn [mbind prog_mbind bind mret prog_mret]. by apply IH.
    + apply triple_ret. intros m Hm'. exists k1. by split_and!; [|apply Hf..|].
Qed.

(** The whole producer: from message [hp] on, everything is sent. *)
Lemma triple_vproduce polls rest : forall k hp,
  rest ⊆ sends -> sent k hp -> t0 <= hp -> hp + Z.of_nat (length rest) = last -> drop (Z.to_nat (hp - t0)) all = rest.*2 ->
  triple vproducer_contract (producing k (fun _ => True)) (VThreads.produce polls p rest)
    (fun r m => r = [] /\ exists k', sent k' last /\ producing k' (fun _ => True) m).
Proof.
  induction rest as [|[src msg] rest IH]; intros k hp Hin Hsent Hlo Hlen Hd; cbn [VThreads.produce].
  - apply triple_ret. intros m Hm. split; [done|]. cbn in Hlen. rewrite Z.add_0_r in Hlen. subst hp. by exists k.
  - cbn [length fmap list_fmap] in *. assert (Hm : message hp = Some msg).
    { unfold message. rewrite <- (Nat.add_0_r (Z.to_nat _)), <- lookup_drop. by rewrite Hd. }
    eapply triple_bind; [apply (triple_vwait_full polls msg hp); [done|lia|done]|]. intros []; cbn beta.
    apply triple_exists. intros k1. apply triple_pure. intros [Hs1 Hr1].
    apply triple_bind with (fun _ m => exists k', sent k' (hp + 1) /\ producing k' (fun _ => True) m).
    + intros m (k' & Hk' & Hh & _). pose proof (vch_sources _ _ Hk') as Hsrc. eapply Forall_forall in Hsrc; [|apply Hin; left].
      destruct Hsrc as (sp & ? & ? & ? & ?). apply (triple_vpush k1 src sp msg hp Hs1 Hr1); [lia|done|]. by exists k'.
    + intros []; cbn beta. apply triple_exists. intros k2. apply triple_pure. intros Hs2. apply (IH k2 (hp + 1)); [|done|lia|lia|].
      * intros x Hx. apply Hin. by right.
      * replace (Z.to_nat (hp + 1 - t0)) with (S (Z.to_nat (hp - t0))) by lia. rewrite <- Nat.add_1_r, <- drop_drop, Hd. done.
Qed.

(** *** The consumer

    It knows the tails and lower bounds of its heads. *)
Definition consuming k (m : Machine X) : Prop := exists k', vchan k' m /\ tails_known k k'.

Lemma vconsumer_step k k' m m' :
  vchan k m -> writes coords m m' -> vchan k' m' -> heads_known k k' -> vconsumer_acts m m'.
Proof.
  intros Hk W Hk' Hh. split; [done|]. intros k1 Hk1. exists k'. split; [done|]. intros b. rewrite (vchan_inj _ _ _ Hk Hk1 b). apply Hh.
Qed.

Lemma consuming_vquiet k : quiet vconsumer_contract (consuming k).
Proof.
  split.
  - intros m m' (k1 & Hk1 & Ht) [W Hr]. destruct (Hr _ Hk1) as (k2 & Hk2 & Ht2). exists k2. split; [done|by etrans].
  - intros m m' (k1 & Hk1 & Ht) Hs. pose proof (vchan_sim _ _ _ Hk1 Hs) as Hk1'. split; [by exists k1|].
    eapply vconsumer_step; [exact Hk1|by eapply vchan_sim_writes|exact Hk1'|done].
Qed.

Lemma consuming_vstable k : stable vconsumer_contract (consuming k).
Proof. apply consuming_vquiet. Qed.

Lemma vconsumer_rely m m' : rely vconsumer_contract m m' -> writes (vregions g) m m'.
Proof. by intros [W _]. Qed.

Lemma triple_vconsuming {A : Type} k (q : prog (Machine X) A) Q :
  (forall k' m, vchan k' m -> tails_known k k' -> triple vconsumer_contract (consuming k) q Q) ->
  triple vconsumer_contract (consuming k) q Q.
Proof. intros H m Hm. pose proof Hm as (k' & Hk & ?). by eapply H. Qed.

Lemma tails_known_weaken b v k k' : tails_known (set_hd b v k) k' -> (k b).1 <= v -> tails_known k k'.
Proof.
  intros Ht Hv b'. generalize (Ht b'). unfold set_hd. destruct (same_spec b' b) as [->|]; cbn; [|done].
  intros [? E2]. split; [done|]. intros Hb. specialize (E2 Hb). lia.
Qed.

Lemma consuming_weaken b v k m : consuming (set_hd b v k) m -> (k b).1 <= v -> consuming k m.
Proof. intros (k' & ? & Ht) ?. exists k'. split; [done|by eapply tails_known_weaken]. Qed.

(** The bytes of the messages that are known to be there. *)
Lemma consuming_payloads k m : consuming k m -> consuming (set_hd CP (start_of (k CC).1) k) m.
Proof.
  intros (k' & Hk' & Ht). exists k'. split; [done|]. destruct (Ht CC) as [_ L]. specialize (L eq_refl).
  destruct (vch_order _ _ Hk') as [_ _ [_ ?] _]. pose proof (start_of_mono (k CC).1 (k' CC).1 L).
  intros []; cbn; try apply Ht. split; [apply Ht|]. lia.
Qed.

Lemma triple_vconsumer_depth {A : Type} b k (q : Z -> prog (Machine X) A) Q :
  of_producer b = false ->
  (forall v, (k b).1 <= v -> (k b).2 <= v <= (k b).2 + cap_of b -> 0 <= v - (k b).2 < SIZE_BOUND ->
     triple vconsumer_contract (consuming (set_hd b v k)) (q (v - (k b).2)) Q) ->
  triple vconsumer_contract (consuming k) (CircularBuffer.getDepth (buffer_of b) ≫= q) Q.
Proof.
  intros Hb Hq. apply triple_bind with (fun d m => exists v, ((k b).1 <= v /\ (k b).2 <= v <= (k b).2 + cap_of b /\ 0 <= v - (k b).2 < SIZE_BOUND /\ d = v - (k b).2) /\
    consuming (set_hd b v k) m).
  - apply triple_noexcept.
    apply triple_bind with (fun v m => ((k b).1 <= v /\ (k b).2 <= v <= (k b).2 + cap_of b /\ 0 <= v - (k b).2 < SIZE_BOUND) /\ consuming (set_hd b v k) m).
    + apply triple_fetch; [apply _|apply consuming_vstable|]. intros m (k' & Hc & Ht). exists (k' b).1.
      pose proof (vchan_depth _ _ b Hc). destruct (Ht b) as [Htl Hhd]. specialize (Hhd Hb). split; [apply Hc|]. split; [lia|].
      exists k'. split; [done|]. intros b'. unfold set_hd. destruct (same_spec b' b) as [->|]; [cbn; split; [done|lia]|apply Ht].
    + intros v. apply triple_pure. intros (? & ? & ?).
      apply triple_read_size with (k b).2; [apply _|apply consuming_vstable| |].
      { intros m (k' & Hc & Ht). replace (k b).2 with (k' b).2; [apply Hc|]. rewrite (proj1 (Ht b)). unfold set_hd. by destruct (same b b). }
      unfold CircularBuffer.calculateDepth. apply triple_throw_if; [case_bool; lia|].
      apply triple_ret. intros m Hm. exists v. rewrite wrap64_small by size_lia. done.
  - intros d. apply triple_exists. intros v. apply triple_pure. intros (? & ? & ? & ->). by apply Hq.
Qed.

(** A tail is stored by the consumer. *)
Lemma consuming_store_tail b bs k m m' k' :
  vchan k' m -> tails_known k k' -> stored m (ptr_add (at_coord b) 8) bs m' -> length bs = 8%nat ->
  (k' b).2 <= le_value bs -> in_order (set_tl b (le_value bs) k') ->
  vconsumer_acts m m' /\ consuming (set_tl b (le_value bs) k) m'.
Proof.
  intros Hc Ht St Hl Hle Ho. destruct (vchan_store_tail k' m m' b bs Hc St Hl Ho) as [Hc' W].
  { unfold set_tl. by destruct (same_spec CC b) as [->|]. }
  split.
  - eapply vconsumer_step; [exact Hc|exact W|exact Hc'|]. by apply set_tl_known.
  - eexists. split; [exact Hc'|]. intros b'. unfold set_tl. destruct (same_spec b' b) as [->|]; cbn; [split; [done|]|]; apply Ht.
Qed.

(** A tail of the consumer is advanced. *)
Lemma triple_vretire b n k :
  of_producer b = false -> 0 <= n -> (k b).2 + n <= (k b).1 ->
  (forall k' m, vchan k' m -> tails_known k k' -> in_order (set_tl b ((k b).2 + n) k')) ->
  triple vconsumer_contract (consuming k) (CircularBuffer.advanceTail (buffer_of b) n) (fun _ => consuming (set_tl b ((k b).2 + n) k)).
Proof.
  intros Hb Hn Hroom Hnew. apply triple_vconsuming. intros k0 m0 Hk0 Ht0. pose proof (vchan_depth _ _ b Hk0) as (? & ? & ? & ?).
  destruct (Ht0 b) as [Etl Lhd]. specialize (Lhd Hb). unfold CircularBuffer.advanceTail. apply triple_vconsumer_depth; [done..|]. intros v Hv ? ?.
  apply triple_throw_if; [case_bool; lia|].
  eapply triple_conseq with (P' := consuming k); [|intros m Hm; by eapply consuming_weaken|intros ? m Hm; exact Hm].
  apply triple_read_size with (k b).2; [apply _|apply consuming_vstable|intros m (k' & Hc & Ht); rewrite <- (proj1 (Ht b)); apply Hc|].
  rewrite wrap64_small by size_lia. apply triple_update; [apply consuming_vstable|]. intros m (k' & Hc & Ht).
  destruct (store_counter _ _ _ _ m 8 ((k b).2 + n) (vch_counters _ _ Hc b)) as (hm & E & St & W); [by right|].
  exists (set_heap hm m). cbn [CircularBuffer._tailAdvanceCounter buffer_of Base.circular_buffer_at].
  change (_HICR_CHANNEL_TAIL_ADVANCE_COUNT_IDX * SIZEOF_SIZE_T) with 8. rewrite E. split; [done|].
  assert (Hv' : le_value (le_bytes 8 ((k b).2 + n)) = (k b).2 + n) by (apply le_value_size; size_lia).
  pose proof (consuming_store_tail b (le_bytes 8 ((k b).2 + n)) k m (set_heap hm m) k' Hc Ht St) as Hst. rewrite Hv' in Hst.
  apply Hst; [done|rewrite (proj1 (Ht b)); lia|by eapply Hnew].
Qed.

(** A tail is copied to the producer. *)
Lemma triple_vreturn this b gl d s k :
  of_producer b = false -> slots_ok this b gl d s ->
  (forall k' m, vchan k' m -> tails_known k k' -> in_order (set_tl (partner b) (k b).2 k') /\ (k' (partner b)).2 <= (k b).2) ->
  triple vconsumer_contract (consuming k)
    (CommunicationManager.memcpyGL this gl (_HICR_CHANNEL_TAIL_ADVANCE_COUNT_IDX *w SIZEOF_SIZE_T) s
       (_HICR_CHANNEL_TAIL_ADVANCE_COUNT_IDX *w SIZEOF_SIZE_T) SIZEOF_SIZE_T)
    (fun _ => consuming (set_tl (partner b) (k b).2 k)).
Proof.
  intros Hb Hs Hnew. change (_HICR_CHANNEL_TAIL_ADVANCE_COUNT_IDX *w SIZEOF_SIZE_T) with 8. change SIZEOF_SIZE_T with 8.
  eapply (triple_copyGL _ (vregions g)) with (d := d) (dp := at_coord (partner b)) (sp := at_coord b);
    [apply vconsumer_rely|apply consuming_vquiet|apply consuming_vquiet| |size_lia|size_lia|].
  - intros m (k' & Hc & _). destruct (Hs m (vch_connected _ _ Hc)) as (? & (n1 & ? & ?) & (n2 & ? & ?)).
    split_and!; [done|exists n1; split; [lia|done]|exists n2; split; [lia|done]].
  - intros m (k' & Hc & Ht). destruct (Hnew k' m Hc Ht) as [Ho Hle].
    destruct (load_size_bytes _ _ _ (proj2 (vch_counters _ _ Hc b))) as (bs & Ebs & Hl & Hv).
    destruct (mem_store_accessible (heap m) (ptr_add (at_coord (partner b)) 8) bs) as [h Eh].
    { rewrite Hl. eapply load_size_accessible. apply (vch_counters _ _ Hc (partner b)). }
    exists bs, h. split; [done|]. split; [done|]. rewrite (proj1 (Ht b)) in Hv. rewrite <- Hv in *.
    eapply consuming_store_tail; [exact Hc|done|by exists h|lia|lia|done].
Qed.

(** *** Receiving *)

(** The oldest message is there. *)
Lemma consuming_oldest k m msg :
  consuming k m -> (k CC).2 < (k CC).1 -> message (k CC).2 = Some msg ->
  load_size (heap m) (ptr_add (gTokens g) ((k CC).2 mod gCapacity g * SIZEOF_SIZE_T)) = Some (Z.of_nat (length msg)) /\
  bytes_at m (k CC).2 (Z.of_nat (length msg)) = Some msg.
Proof.
  intros (k' & Hk' & Ht) Hlt Hm. destruct (Ht CC) as [E L]. specialize (L eq_refl). destruct (vch_order _ _ Hk') as [(? & ? & ? & ?) _ _ _].
  destruct (vch_holds _ _ Hk' (k CC).2 msg ltac:(lia) Hm) as [E1 E2]. split; [|done].
  destruct (vconnected_sizes _ (vch_connected _ _ Hk')) as (H8 & _ & _ & _ & ?). pose proof (Forall_lookup_1 _ _ _ _ Hfits Hm) as Hl. cbn in Hl.
  unfold token_at in E1. rewrite H8 in E1. unfold load_size, SIZEOF_SIZE_T. rewrite (Z.mul_comm _ 8), E1. cbn -[le_value le_bytes].
  unfold size_token. rewrite le_value_size; [done|]. size_lia.
Qed.

(** The position of the size of the oldest message. *)
Lemma triple_basePeek {A : Type} k (q : Z -> prog (Machine X) A) Q :
  (k CC).2 < (k CC).1 -> triple vconsumer_contract (consuming k) (q ((k CC).2 mod gCapacity g)) Q ->
  triple vconsumer_contract (consuming k) (VConsumer.basePeek c 0 ≫= q) Q.
Proof.
  intros Hlt Hq. apply triple_vconsuming. intros k0 m0 Hk0 Ht0. pose proof (vx_consumer _ _ _ _ (vch_connected _ _ Hk0)) as [Ecn _ _ _ _ _].
  pose proof (vchan_depth _ _ CC Hk0) as (? & ? & ? & ?). rewrite (proj1 (Ht0 CC)) in *. cbn [cap_of] in *.
  unfold VConsumer.basePeek. rewrite Ecn. change (Base.circular_buffer_at (gCapacity g) (vConsumerCounts g)) with (buffer_of CC).
  cbn [CircularBuffer.getCapacity CircularBuffer._capacity buffer_of Base.circular_buffer_at cap_of].
  change (Base.circular_buffer_at (gCapacity g) (at_coord CC)) with (buffer_of CC).
  apply triple_assoc. apply triple_throw_if; [case_bool; lia|]. unfold VConsumer.updateDepth. cbn [mbind prog_mbind bind mret prog_mret].
  apply triple_assoc, triple_vconsumer_depth; [done|]. intros v ???.
  eapply triple_conseq with (P' := consuming k); [|intros m Hm; by eapply consuming_weaken|intros ? m Hm; exact Hm].
  apply triple_assoc, triple_throw_if; [case_bool; lia|]. apply triple_assoc, triple_assoc.
  apply triple_read_size with (k CC).2; [apply _|apply consuming_vstable|intros m (k' & Hc & Ht); rewrite <- (proj1 (Ht CC)); apply Hc|].
  unfold CircularBuffer.size_mod. cbn [CircularBuffer._capacity buffer_of Base.circular_buffer_at cap_of]. case_bool; [lia|].
  cbn [mbind prog_mbind bind mret prog_mret]. pose proof (Z.mod_pos_bound (k CC).2 (gCapacity g)).
  rewrite wrap64_small by size_lia. by rewrite Z.add_0_r, Z.mod_mod by lia.
Qed.

Lemma triple_tokenBufferPtr {A : Type} k (q : ptr -> prog (Machine X) A) Q :
  triple vconsumer_contract (consuming k) (q (gTokens g)) Q -> triple vconsumer_contract (consuming k) (VConsumer.tokenBufferPtr c ≫= q) Q.
Proof.
  intros Hq. unfold VConsumer.tokenBufferPtr. apply triple_assoc. eapply triple_getSource; [apply _|apply consuming_vstable| |].
  { intros m (k' & Hk' & _). apply (vc_tokens _ _ _ (vx_consumer _ _ _ _ (vch_connected _ _ Hk'))). }
  cbv iota beta. eapply triple_getPointer_any; [apply _|apply consuming_vstable| |exact Hq].
  intros m (k' & Hk' & _). destruct (tb_slot _ _ _ (vc_tokens _ _ _ (vx_consumer _ _ _ _ (vch_connected _ _ Hk')))) as (n & _ & ?). by exists n.
Qed.

Lemma triple_oldest_size {A : Type} k msg (q : Z -> prog (Machine X) A) Q :
  (k CC).2 < (k CC).1 -> message (k CC).2 = Some msg -> triple vconsumer_contract (consuming k) (q (Z.of_nat (length msg))) Q ->
  triple vconsumer_contract (consuming k) (read_size (ptr_add (gTokens g) ((k CC).2 mod gCapacity g * SIZEOF_SIZE_T)) ≫= q) Q.
Proof. intros Hlt Hm Hq. apply triple_read_size with (Z.of_nat (length msg)); [apply _|apply consuming_vstable| |exact Hq]. intros m Hc. by eapply consuming_oldest. Qed.

(** Looking at the oldest message. *)
Lemma triple_vpeek k msg :
  (k CC).2 < (k CC).1 -> message (k CC).2 = Some msg -> (k CP).2 = start_of (k CC).2 ->
  triple vconsumer_contract (consuming k) (VConsumer.peek c 0)
    (fun r m => r = (start_of (k CC).2 mod pcap, Z.of_nat (length msg)) /\ consuming k m).
Proof.
  intros Hlt Hm Hst. apply triple_vconsuming. intros k0 m0 Hk0 Ht0. pose proof (vx_consumer _ _ _ _ (vch_connected _ _ Hk0)) as [Ecn Epl _ _ _ _].
  destruct (vconnected_sizes _ (vch_connected _ _ Hk0)) as (_ & _ & _ & ? & _).
  unfold VConsumer.peek. apply triple_throw_if; [done|]. unfold VConsumer.updateDepth at 1. cbn [mbind prog_mbind bind mret prog_mret].
  rewrite Ecn, Epl. change (Base.circular_buffer_at (gCapacity g) (vConsumerCounts g)) with (buffer_of CC).
  change (Base.circular_buffer_at pcap (vConsumerPayloads g)) with (buffer_of CP).
  apply triple_vconsumer_depth; [done|]. intros v ???. apply triple_throw_if; [case_bool; lia|].
  eapply triple_conseq with (P' := consuming k); [|intros m Hc; by eapply consuming_weaken|intros ? m Hc; exact Hc].
  apply triple_assoc. apply triple_read_size with (start_of (k CC).2); [apply _|apply consuming_vstable| |].
  { intros m (k' & Hc & Ht). rewrite <- Hst, <- (proj1 (Ht CP)). apply Hc. }
  unfold CircularBuffer.size_mod. cbn [CircularBuffer.getCapacity CircularBuffer._capacity buffer_of Base.circular_buffer_at cap_of].
  case_bool; [lia|]. cbn [mbind prog_mbind bind mret prog_mret].
  apply triple_tokenBufferPtr, triple_basePeek; [done|]. apply triple_oldest_size with msg; [done..|]. apply triple_ret.
  intros m Hc. by rewrite Z.mod_mod by lia.
Qed.

Lemma slots_counts_back : slots_ok (VConsumer.ccm c) CC (VConsumer._producerCoordinationBufferForCounts c) (VProducer.countsBuffer p) (VConsumer.countsBuffer c).
Proof. intros m [_ [] [] ? ? ? ? _]. by split_and!. Qed.

Lemma slots_payloads_back : slots_ok (VConsumer.ccm c) CP (VConsumer._producerCoordinationBufferForPayloads c) (VProducer.payloadsBuffer p) (VConsumer.payloadsBuffer c).
Proof. intros m [_ [] [] ? ? ? ? _]. by split_and!. Qed.

(** The oldest message is given back. *)
Lemma triple_vpop k msg tc :
  received k tc -> tc < (k CC).1 -> message tc = Some msg -> t0 <= tc ->
  triple vconsumer_contract (consuming k) (VConsumer.pop c 1) (fun _ m => exists k', received k' (tc + 1) /\ consuming k' m).
Proof.
  intros (E1 & E2 & E3 & E4) Hlt Hm Hlo. pose proof (start_of_succ tc msg Hlo Hm) as Hsucc. pose proof (Forall_lookup_1 _ _ _ _ Hfits Hm) as Hl. cbn in Hl.
  apply triple_vconsuming. intros k0 m0 Hk0 Ht0. pose proof (vx_consumer _ _ _ _ (vch_connected _ _ Hk0)) as [Ecn Epl _ _ _ _].
  destruct (vconnected_sizes _ (vch_connected _ _ Hk0)) as (_ & _ & ? & ? & ?).
  unfold VConsumer.pop. rewrite Ecn, Epl. change (Base.circular_buffer_at (gCapacity g) (vConsumerCounts g)) with (buffer_of CC).
  change (Base.circular_buffer_at pcap (vConsumerPayloads g)) with (buffer_of CP).
  apply triple_throw_if; [cbn; case_bool; lia|]. unfold VConsumer.updateDepth at 1. cbn [mbind prog_mbind bind mret prog_mret].
  apply triple_vconsumer_depth; [done|]. intros v ???. apply triple_throw_if; [case_bool; lia|].
  eapply triple_conseq with (P' := consuming k); [|intros m Hc; by eapply consuming_weaken|intros ? m Hc; exact Hc].
  unfold VConsumer.getOldPayloadBytes. change (1 =? 0) with false. cbv iota. change (Z.to_nat 1) with 1%nat. cbn [VConsumer.add_sizes].
  apply triple_assoc, triple_tokenBufferPtr, triple_assoc, triple_basePeek; [lia|].
  apply triple_assoc, triple_oldest_size with msg; [lia|by rewrite E2|]. cbn [mbind prog_mbind bind mret prog_mret].
  rewrite Z.add_0_l, (wrap64_small (Z.of_nat (length msg))) by size_lia.
  eapply triple_conseq with (P' := consuming (set_hd CP (start_of (k CC).1) k)); [|intros m Hc; by apply consuming_payloads|intros ? m Hc; exact Hc].
  pose proof (start_of_mono (tc + 1) (k CC).1 ltac:(lia)).
  eapply triple_bind; [apply (triple_vretire CC); [done|lia|cbn; lia|]|intros []; cbn beta].
  { intros k' m Hk' Ht. destruct (Ht CC) as [EC LC], (Ht CP) as [EP _]. specialize (LC eq_refl). cbn in EC, LC, EP.
    destruct (vch_order _ _ Hk') as [(? & ? & ? & ?) ? [? ?] ?]. split; cbn; [split_and!; lia|done|done|]. pose proof (start_of_mono tc ((k CC).2 + 1) ltac:(lia)). lia. }
  cbn [set_hd same fst snd]. rewrite E2.
  eapply triple_bind; [apply (triple_vretire CP); [done|lia|cbn; lia|]|intros []; cbn beta].
  { intros k' m Hk' Ht. destruct (Ht CC) as [EC LC], (Ht CP) as [EP _]. cbn in EC, EP |- *. specialize (LC eq_refl). cbn in LC.
    destruct (vch_order _ _ Hk') as [? (? & ? & ?) [? ?] ?]. rewrite E4, <- Hsucc. split; cbn; [done|split_and!; lia|done|]. rewrite EC. lia. }
  cbn [set_tl set_hd same fst snd]. rewrite E4, <- Hsucc.
  eapply triple_bind; [eapply (triple_vreturn _ CC); [done|apply slots_counts_back|]|intros []; cbn beta].
  { intros k' m Hk' Ht. destruct (Ht CC) as [EC LC], (Ht PC) as [EP _]. cbn in EC, EP |- *. destruct (vch_order _ _ Hk') as [(? & ? & ? & ?) ? [? ?] ?].
    split; [|lia]. split; cbn; [split_and!; lia|done|done|done]. }
  eapply triple_bind; [eapply (triple_vreturn _ CP); [done|apply slots_payloads_back|]|intros []; cbn beta].
  { intros k' m Hk' Ht. destruct (Ht CP) as [EC LC], (Ht PP) as [EP _]. cbn in EC, EP |- *. destruct (vch_order _ _ Hk') as [? (? & ? & ?) [? ?] ?].
    split; [|lia]. split; cbn; [done|split_and!; lia|done|done]. }
  eapply triple_bind; [apply fenceImplLocal_atomic; [apply _|apply consuming_vquiet]|intros []; cbn beta].
  eapply triple_conseq; [apply fenceImplLocal_atomic; [apply _|apply consuming_vquiet]|intros m Hc; exact Hc|]. cbn beta.
  intros _ m Hc. eexists. split; [|exact Hc]. by split_and!.
Qed.

Lemma received_known k k' tc : received k tc -> tails_known k k' -> received k' tc.
Proof. intros (? & ? & ? & ?) Ht. unfold received. by rewrite (proj1 (Ht PC)), (proj1 (Ht CC)), (proj1 (Ht PP)), (proj1 (Ht CP)). Qed.

Lemma triple_vreceive k msg tc :
  received k tc -> tc < (k CC).1 -> message tc = Some msg -> t0 <= tc ->
  triple vconsumer_contract (consuming k) (VClient.receive c)
    (fun r m => r = msg /\ exists k', received k' (tc + 1) /\ consuming k' m).
Proof.
  intros Hrec Hlt Hm Hlo. pose proof Hrec as (E1 & E2 & E3 & E4). unfold VClient.receive, VConsumer.getPayloadBufferMemorySlot.
  eapply triple_bind; [apply (triple_vpeek k msg); [lia|by rewrite E2|by rewrite E2, E4]|]. intros r. apply triple_pure. intros ->. rewrite E2. cbn [fst snd].
  eapply triple_getSource; [apply _|apply consuming_vstable| |].
  { intros m (k' & Hk' & _). apply (vc_payload _ _ _ (vx_consumer _ _ _ _ (vch_connected _ _ Hk'))). }
  cbv iota beta. eapply triple_getPointer_any; [apply _|apply consuming_vstable| |].
  { intros m (k' & Hk' & _). destruct (pb_slot _ _ _ (vc_payload _ _ _ (vx_consumer _ _ _ _ (vch_connected _ _ Hk')))) as (n & _ & ?). by exists n. }
  apply triple_fetch_const with msg; [apply _|apply consuming_vstable| |].
  { intros m Hc. destruct (consuming_oldest k m msg Hc) as [_ E]; [lia|by rewrite E2|]. by rewrite E2 in E. }
  eapply triple_bind; [by apply (triple_vpop k msg tc)|]. intros []. by apply triple_ret.
Qed.

Lemma triple_visEmpty k :
  triple vconsumer_contract (consuming k) (VConsumer.isEmpty c)
    (fun e m => exists v, ((k CC).1 <= v /\ (e = false -> (k CC).2 < v)) /\ consuming (set_hd CC v k) m).
Proof.
  apply triple_vconsuming. intros k0 m0 Hk0 _. pose proof (vx_consumer _ _ _ _ (vch_connected _ _ Hk0)) as [Ecn _ _ _ _ _].
  unfold VConsumer.isEmpty, VConsumer.getCoordinationDepth. rewrite Ecn. change (Base.circular_buffer_at (gCapacity g) (vConsumerCounts g)) with (buffer_of CC).
  apply triple_vconsumer_depth; [done|]. intros v ???. apply triple_ret. intros m Hc. exists v. split_and!; [done|lia|done].
Qed.

Lemma triple_vwait_empty polls tc : forall k,
  received k tc -> tc < last ->
  triple vconsumer_contract (consuming k) (Threads.busy_wait polls (VConsumer.isEmpty c) (VConsumer.updateDepth c))
    (fun _ m => exists k', (received k' tc /\ tc < (k' CC).1) /\ consuming k' m).
Proof.
  induction polls as [|polls IH]; intros k Hrec Hlast; pose proof Hrec as (_ & E2 & _); cbn [Threads.busy_wait].
  - assert (Hrun : forall m k', vchan k' m -> run (VConsumer.isEmpty c) m = Done ((k' CC).1 - (k' CC).2 =? 0) m).
    { intros m k' Hk'. pose proof (vx_consumer _ _ _ _ (vch_connected _ _ Hk')) as [Ecn _ _ _ _ _]. pose proof (vchan_depth _ _ CC Hk') as (? & _).
      unfold VConsumer.isEmpty, VConsumer.getCoordinationDepth. rewrite Ecn.
      by rewrite (run_bind_Done _ _ _ _ _ (run_getDepth_ok _ _ _ _ (vch_counters _ _ Hk' CC) ltac:(lia))). }
    apply triple_await with (fun m => exists k', (received k' tc /\ tc < (k' CC).1) /\ consuming k' m);
      [apply consuming_vstable| | |by apply triple_ret]; intros m (k' & Hk' & Ht); rewrite (Hrun _ _ Hk'); intros Hb;
      pose proof (received_known _ _ _ Hrec Ht) as Hr'; pose proof (vchan_depth _ _ CC Hk') as (? & _); pose proof Hr' as (_ & ? & _).
    + exists k', tc. split_and!; [done|done|lia|done].
    + exists k'. split_and!; [done|lia|by exists k'].
  - eapply triple_bind; [apply triple_visEmpty|]. intros e; cbn beta. apply triple_exists. intros v. apply triple_pure. intros [? He]. destruct e.
    + unfold VConsumer.updateDepth at 1. cbn [mbind prog_mbind bind mret prog_mret].
      eapply triple_conseq; [by apply (IH k)|intros m Hc; by eapply consuming_weaken|intros ? m Hc; exact Hc].
    + apply triple_ret. intros m Hc. exists (set_hd CC v k). specialize (He eq_refl). split_and!; [done|cbn; lia|done].
Qed.

(** The whole consumer: from message [tc] on, everything is received. *)
Lemma triple_vconsume polls n : forall k tc,
  received k tc -> t0 <= tc -> tc + Z.of_nat n = last ->
  triple vconsumer_contract (consuming k) (VThreads.consume polls c n)
    (fun r m => r = drop (Z.to_nat (tc - t0)) all /\ exists k', received k' last /\ consuming k' m).
Proof.
  induction n as [|n IH]; intros k tc Hrec Hlo Hlen; cbn [VThreads.consume].
  - apply triple_ret. intros m Hc. split; [by rewrite drop_ge by lia|]. exists k. split; [|done]. by replace last with tc by lia.
  - destruct (message_some tc) as (msg & Hm & _); [lia|]. eapply triple_bind; [apply (triple_vwait_empty polls tc k); [done|lia]|]. intros []; cbn beta.
    apply triple_exists. intros k1. apply triple_pure. intros [Hr1 Hlt].
    eapply triple_bind; [by apply (triple_vreceive k1 msg tc)|]. intros r. apply triple_pure. intros ->. apply triple_exists. intros k2. apply triple_pure. intros Hr2.
    eapply triple_bind; [apply (IH k2 (tc + 1)); [done|lia|lia]|]. intros msgs. apply triple_pure. intros ->. apply triple_ret.
    intros m Hc. split; [|done]. rewrite (drop_S _ msg _ Hm). f_equal. f_equal. lia.
Qed.

(** *** Both together *)

Definition vthread_contract (i : nat) : contract (Machine X) := match i with O => vproducer_contract | S _ => vconsumer_contract end.

Definition vthread_post (i : nat) (r : list (list byte)) (m : Machine X) : Prop :=
  match i with
  | O => r = [] /\ exists k, sent k last /\ producing k (fun _ => True) m
  | S _ => r = all /\ exists k, received k last /\ consuming k m
  end.

Lemma vthreads_compatible : compatible 2 vthread_contract vthread_post.
Proof.
  split.
  - intros [|i] _; apply _.
  - intros [|i] r _ m m' [-> (k & ? & Hm)] Hr; (split; [done|]; exists k; split; [done|]); [by eapply producing_vstable|by eapply consuming_vstable].
  - intros [|[|i]] [|[|j]] m m' ?? Hij HG; cbn in *; [done|exact HG|lia|exact HG|done|lia..].
Qed.

(** The two ends agree. *)
Definition settled (m : Machine X) : Prop := exists k, vchan k m /\ sent k last /\ received k last.

(** They cannot both be blocked, nor can one be when the other has finished. *)
Lemma vthreads_progress ps m :
  length ps = 2%nat -> pool_safe vthread_contract vthread_post ps m ->
  (ps = [Ret []; Ret all] /\ settled m) \/ exists st, pool_step (ps, m) st.
Proof.
  intros Hl HI. destruct ps as [|p1 [|p2 [|]]]; try done.
  assert (Hmove : forall i q q' m', [p1; p2] !! i = Some q -> thread_step q m q' m' -> exists st, pool_step ([p1; p2], m) st)
    by (intros; eexists; by eapply pool_act).
  destruct (safe_progress vproducer_contract p1 _ m (HI 0%nat p1 eq_refl)) as [(r1 & -> & -> & k1 & Hs1 & k1' & Hk1 & Hh1 & _)|[(q & m' & Ht)|(_ & k1 & hp & msg & Hk1 & Hs1 & Hhp & Hm & Hb1)]];
    [|right; by eapply (Hmove 0%nat)|];
  (destruct (safe_progress vconsumer_contract p2 _ m (HI 1%nat p2 eq_refl)) as [(r2 & -> & -> & k2 & Hs2 & k2' & Hk2 & Ht2)|[(q & m' & Ht)|(_ & k2 & tc & Hk2 & Hs2 & Ehc & Hb2)]];
    [|right; by eapply (Hmove 1%nat)|]);
  pose proof (vchan_inj _ _ _ Hk1 Hk2) as Einj; destruct (vch_order _ _ Hk1) as [(? & ? & ? & ?) (? & ? & ?) [? ?] ?];
  destruct (vconnected_sizes _ (vch_connected _ _ Hk1)) as (_ & _ & ? & ? & _).
  - left. split; [done|]. exists k1'. split_and!; [done|by eapply sent_known|]. pose proof (received_known _ _ _ Hs2 Ht2) as Hr. unfold received in *. by rewrite !Einj in Hr.
  - exfalso. pose proof (sent_known _ _ _ Hs1 Hh1) as (? & ? & ? & ?). destruct Hs2 as (? & Hc & ? & ?). rewrite !Einj in *. lia.
  - exfalso. pose proof (received_known _ _ _ Hs2 Ht2) as (? & ? & ? & ?). rewrite !Einj in *. destruct Hs1 as (? & ? & ? & ?). lia.
  - exfalso. destruct Hs1 as (? & ? & Hp & ?), Hs2 as (? & ? & Hp' & ?). rewrite !Einj in *. pose proof (Forall_lookup_1 _ _ _ _ Hfits Hm) as Hf. cbn in Hf.
    assert (hp = tc) as <- by lia. destruct Hb1; lia.
Qed.

(** What a pool of the two threads does. *)
Lemma vthreads_outcome ps m :
  length ps = 2%nat -> pool_safe vthread_contract vthread_post ps m ->
  (forall i e x, ps !! i <> Some (Raise e) /\ ps !! i <> Some (Crash x)) /\
  (forall r, ps !! 1%nat = Some (Ret r) -> r = all) /\
  ((forall st, ~ pool_step (ps, m) st) -> ps = [Ret []; Ret all]) /\
  (exists m', pool_steps (ps, m) ([Ret []; Ret all], m') /\ settled m').
Proof.
  intros Hl HI. split_and!.
  - intros i e x. split; intros Ei; by destruct (HI _ _ Ei).
  - intros r Ei. by destruct (HI _ _ Ei).
  - intros Hst. destruct (vthreads_progress ps m Hl HI) as [[-> _]|[st Hs]]; [done|by destruct (Hst st)].
  - destruct (pool_reaches (fun qs u => length qs = 2%nat /\ pool_safe vthread_contract vthread_post qs u)
      (fun qs u => qs = [Ret []; Ret all] /\ settled u) ps m) as (ps' & m' & Hs & -> & Hch); [..|by eauto].
    + intros qs u qs' u' [Hq Hu] Hst. split; [by rewrite (pool_steps_length _ _ _ _ (rtc_once _ _ Hst))|].
      eapply pool_safe_step; [|done..]. rewrite Hq. apply vthreads_compatible.
    + intros qs u [Hq Hu]. by apply vthreads_progress.
    + done.
Qed.

Lemma vthreads_start q k polls polls' m :
  all = q ++ sends.*2 -> vchan k m -> sent k (t0 + Z.of_nat (length q)) -> received k t0 ->
  pool_safe vthread_contract vthread_post [VThreads.produce polls p sends; VThreads.consume polls' c (length q + length sends)] m.
Proof.
  intros Eall Hk Hs Hr. assert (Hlen : Z.of_nat (length all) = Z.of_nat (length q) + Z.of_nat (length sends)) by (rewrite Eall, length_app, length_fmap; lia).
  intros [|[|i]] x Hx; [..|done]; injection Hx as <-; cbn.
  - apply (triple_vproduce polls sends k (t0 + Z.of_nat (length q))); [done|done|lia|lia| |by exists k].
    replace (Z.to_nat _) with (length q) by lia. rewrite Eall. apply drop_app_length.
  - eapply safe_mono; [|apply (triple_vconsume polls' (length q + length sends) k t0); [done|lia|lia|by exists k]].
    intros r u. by rewrite Z.sub_diag.
Qed.

End Protocol.

(** ** Theorem *)

Section Theorem_.
Context {X : Type} {B : CommBackend X} `{!CommSpec X} `{!CommAtomic X}.
Implicit Types m : Machine X.

(** The counters of a channel whose ends agree. *)
Definition agreed (h t ph pt : Z) : coord -> Z * Z := fun b => match b with PC | CC => (h, t) | PP | CP => (ph, pt) end.

(** Between operations the protocol holds. *)
Lemma vchan_start g p c m t pt q sends :
  vrep g p c m t pt q -> Forall (fun sm => vop_fits g m (MessageQueue.Send sm.1 sm.2)) sends ->
  let all := q ++ sends.*2 in let k := agreed (t + Z.of_nat (length q)) t (pt + bytes_of q) pt in
  vchan g p c t pt all sends k m /\ sent t pt all k (t + Z.of_nat (length q)) /\ received t pt all k t.
Proof.
  intros [Hx HPC HCC HPP HCP Hlen Hb Hs Hh] Hsrc all k.
  assert (E1 : start_of t pt all (t + Z.of_nat (length q)) = pt + bytes_of q).
  { unfold start_of, all. replace (Z.to_nat _) with (length q) by lia. by rewrite take_app_length. }
  assert (E0 : start_of t pt all t = pt) by apply start_of_first.
  pose proof (bytes_of_nonneg q). pose proof (bytes_of_nonneg (sends.*2)).
  split; [|unfold sent, received, k; cbn; by rewrite E1, E0]. split; [done|done|intros []; done| |].
  - split; unfold k; cbn; rewrite ?E1, ?E0; try lia.
    + unfold all. rewrite length_app. lia.
    + rewrite start_of_last. unfold all. rewrite bytes_of_app. lia.
  - intros i msg Hi Hm. cbn in Hi. assert (Hq : q !! Z.to_nat (i - t) = Some msg).
    { unfold message, all in Hm. rewrite lookup_app_l in Hm by lia. done. }
    split.
    + replace i with (t + Z.of_nat (Z.to_nat (i - t))) by lia. apply Hs. by rewrite list_lookup_fmap, Hq.
    + pose proof (holds_payloads_drop _ _ _ _ (Z.to_nat (i - t)) Hh) as Hd. rewrite (drop_S _ _ _ Hq) in Hd. destruct Hd as [Hd _].
      unfold bytes_at, start_of, all. rewrite take_app_le by lia. exact Hd.
Qed.

Lemma vrep_settled g p c m t pt all sends :
  settled g p c t pt all sends m -> vrep g p c m (t + Z.of_nat (length all)) (pt + bytes_of all) [].
Proof.
  intros (k & Hk & (E1 & E2 & E3 & E4) & (E5 & E6 & E7 & E8)). rewrite start_of_last in *.
  pose proof (vch_counters _ _ _ _ _ _ _ _ _ Hk) as Hc. destruct (vconnected_sizes _ _ _ _ (vch_connected _ _ _ _ _ _ _ _ _ Hk)) as (_ & _ & ? & ? & _).
  pose proof (Hc PC) as C1. pose proof (Hc CC) as C2. pose proof (Hc PP) as C3. pose proof (Hc CP) as C4.
  rewrite ?E1, ?E2, ?E3, ?E4, ?E5, ?E6, ?E7, ?E8 in *.
  assert (E0 : bytes_of [] = 0) by done.
  split; cbn [length]; rewrite ?E0, ?Z.add_0_r; first [done|apply Hk|lia].
Qed.

(** C2: a producer of a variable-size channel that sends messages of any sizes up to the
    payload capacity, and a consumer that receives everything, interleaved in any way:
    neither throws nor crashes; the consumer's result is what was in the channel followed
    by what was sent, in order and byte for byte; the two are never stuck before both have
    finished; and the end, an empty channel, can always be reached. *)
Theorem vspsc_concurrent g p c m t pt q sends polls polls' ps m' :
  vrep g p c m t pt q ->
  Forall (fun sm => vop_fits g m (MessageQueue.Send sm.1 sm.2) /\ Z.of_nat (length sm.2) <= pbCapacity (vPayload g)) sends ->
  t + Z.of_nat (length q + length sends) < SIZE_BOUND -> pt + bytes_of (q ++ sends.*2) < SIZE_BOUND ->
  pool_steps ([VThreads.produce polls p sends; VThreads.consume polls' c (length q + length sends)], m) (ps, m') ->
  (forall i e x, ps !! i <> Some (Raise e) /\ ps !! i <> Some (Crash x)) /\
  (forall r, ps !! 1%nat = Some (Ret r) -> r = q ++ sends.*2) /\
  ((forall st, ~ pool_step (ps, m') st) -> ps = [Ret []; Ret (q ++ sends.*2)]) /\
  (exists m'', pool_steps (ps, m') ([Ret []; Ret (q ++ sends.*2)], m'') /\
     vrep g p c m'' (t + Z.of_nat (length q + length sends)) (pt + bytes_of (q ++ sends.*2)) []).
Proof.
  intros Hrep Hsends Hb Hpb Hsteps. apply Forall_and in Hsends as [Hsrc Hfit].
  assert (Hfits : Forall (fun msg => Z.of_nat (length msg) <= pbCapacity (vPayload g)) (q ++ sends.*2)).
  { apply Forall_app. split; [|by apply Forall_fmap]. apply Forall_forall. intros msg Hin.
    pose proof (sum_list_with_in _ length _ Hin). pose proof (vr_bytes _ _ _ _ _ _ _ Hrep) as Hq. unfold bytes_of in Hq. lia. }
  assert (Hlen : (length q + length sends = length (q ++ sends.*2))%nat) by (by rewrite length_app, length_fmap).
  destruct (vchan_start g p c m t pt q sends Hrep Hsrc) as (Hk & Hs & Hr).
  assert (Hbound : t + Z.of_nat (length (q ++ sends.*2)) < SIZE_BOUND) by (by rewrite <- Hlen).
  pose proof (vthreads_start g p c t pt (q ++ sends.*2) sends Hbound Hpb Hfits q _ polls polls' m eq_refl Hk Hs Hr) as HI.
  pose proof (fun Hc => pool_safe_steps _ _ _ _ _ _ Hc HI Hsteps) as HI'. specialize (HI' (vthreads_compatible _ _ _ _ _ _ _ Hfits)).
  destruct (vthreads_outcome g p c t pt (q ++ sends.*2) sends Hfits ps m' (pool_steps_length _ _ _ _ Hsteps) HI') as (? & ? & ? & m2 & Hs2 & Hch2).
  split_and!; [done..|]. exists m2. split; [done|]. rewrite Hlen. by eapply vrep_settled.
Qed.

End Theorem_.

(** ** A concrete interleaving *)

Module VConcurrentDemo.

(** The channel of [VDemo] has room for two messages and four bytes; the second of the three
    messages ends in the excess buffer, and the third fits when the first is gone. *)
Definition sends : list (nat * list byte) := [(7%nat, [x01; x02; x03]); (8%nat, [x0a; x0b]); (8%nat, [x0a; x0b])].

Definition pool : list (prog (Machine Core.t) (list (list byte))) :=
  [VThreads.produce 0 VDemo.producer sends; VThreads.consume 0 VDemo.consumer 3].

Lemma vspsc_concurrent_witness :
  exists m, pool_steps (pool, VDemo.machine) ([Ret []; Ret [[x01; x02; x03]; [x0a; x0b]; [x0a; x0b]]], m) /\
    vrep VDemo.geom VDemo.producer VDemo.consumer m 3 7 [].
Proof.
  refine (proj2 (proj2 (proj2 (vspsc_concurrent VDemo.geom VDemo.producer VDemo.consumer VDemo.machine 0 0 [] sends 0 0 _ _
            VDemo.vrep_demo _ _ _ (rtc_refl _ _))))); [|by vm_compute..].
  repeat (apply Forall_cons_2; [split; [apply VDemo.source_demo; auto|by vm_compute]|]). apply Forall_nil_2.
Defined.

End VConcurrentDemo.
