(* ===== verification/VariableMPSC.v ===== *)
(** * The variable-size multiple-producer single-consumer channel, locking version

    Models [frontends/channel/variableSize/mpsc/locking/producer.hpp] and
    [consumer.hpp].  As in the fixed-size locking channel the shared counters
    are the consumer's, under the lock of its counts buffer; the payload buffer
    is a plain ring of bytes, and a message that reaches its end is copied in
    two chunks. *)

From S2P Require Import Prelude Memory CommunicationManager Pthreads CircularBuffer Channel TokenBuffer VariableSPSC.
From Stdlib Require Import ZArith Lia.
From Stdlib.Strings Require Import Byte.
From stdpp Require Import base gmap option list.

Local Open Scope Z_scope.
Local Open Scope hicr_scope.

Module VLProducer.

Record t : Type := mk {
  base : VariableBase.t;
  _payloadBuffer : nat;
  _sizeInfoBuffer : nat;
  _payloadSize : Z;
  _tokenSizeBuffer : nat;
  _consumerCoordinationBufferForCounts : nat;
  _consumerCoordinationBufferForPayloads : nat
}.

Section Operations.
Context {X : Type} {B : CommBackend X}.

Definition ccm (p : t) : nat := Base._coordinationCommunicationManager (VariableBase.base (base p)).
Definition pcm (p : t) : nat := Base._payloadCommunicationManager (VariableBase.base (base p)).
Definition counts (p : t) : CircularBuffer.t := VariableBase._circularBufferForCounts (base p).
Definition payloads (p : t) : CircularBuffer.t := VariableBase._circularBufferForPayloads (base p).
Definition countsBuffer (p : t) : nat := VariableBase._coordinationBufferForCounts (base p).
Definition payloadsBuffer (p : t) : nat := VariableBase._coordinationBufferForPayloads (base p).
Definition tokenSize (p : t) : Z := Base.getTokenSize (VariableBase.base (base p)).

Definition make (ccm pcm sizeInfoBuffer payloadBuffer tokenBuffer
      internalCoordinationBufferForCounts internalCoordinationBufferForPayloads
      consumerCoordinationBufferForCounts consumerCoordinationBufferForPayloads : nat)
    (payloadCapacity payloadSize capacity : Z) : prog (Machine X) t :=
  b ← VariableBase.make ccm pcm internalCoordinationBufferForCounts internalCoordinationBufferForPayloads
        capacity payloadCapacity;
  mret (mk b payloadBuffer sizeInfoBuffer payloadSize tokenBuffer
           consumerCoordinationBufferForCounts consumerCoordinationBufferForPayloads).

(** Called with the lock held: both pairs of counters are fetched. *)
Definition updateDepth (p : t) : prog (Machine X) unit :=
  _ ← CommunicationManager.memcpyLG (ccm p) (countsBuffer p) 0 (_consumerCoordinationBufferForCounts p) 0
        (2 *w SIZEOF_SIZE_T);
  _ ← CommunicationManager.memcpyLG (ccm p) (payloadsBuffer p) 0 (_consumerCoordinationBufferForPayloads p) 0
        (2 *w SIZEOF_SIZE_T);
  _ ← CommunicationManager.fenceLocal (ccm p) (countsBuffer p) 0 1;
  CommunicationManager.fenceLocal (ccm p) (payloadsBuffer p) 0 1.

Definition getPayloadSize (p : t) : Z := _payloadSize p.

Definition getPayloadDepth (p : t) : prog (Machine X) Z := CircularBuffer.getDepth (payloads p).

(** The smaller of the two depths; division by a zero payload size is undefined behaviour. *)
Definition getDepth (p : t) : prog (Machine X) Z :=
  depth ← CircularBuffer.getDepth (counts p);
  payloadDepth ← CircularBuffer.getDepth (payloads p);
  if _payloadSize p =? 0 then Crash undefined else mret (Z.min depth (payloadDepth / _payloadSize p)).

Definition isEmpty (p : t) : prog (Machine X) bool :=
  depth ← CircularBuffer.getDepth (counts p);
  if negb (depth =? 0) then mret false else
  payloadDepth ← CircularBuffer.getDepth (payloads p);
  mret (payloadDepth =? 0).

(** The copy of the payload, in two chunks when it reaches the end of the buffer. *)
Definition copy_payload (p : t) (sourceSlot : nat) (requiredBufferSize : Z) : prog (Machine X) unit :=
  head ← CircularBuffer.getHeadPosition (payloads p);
  let capacity := CircularBuffer.getCapacity (payloads p) in
  if requiredBufferSize +w head >? capacity
  then let first_chunk := capacity -w head in
       let second_chunk := requiredBufferSize -w first_chunk in
       _ ← CommunicationManager.memcpyGL (pcm p) (_payloadBuffer p) head sourceSlot 0 first_chunk;
       _ ← CommunicationManager.memcpyGL (pcm p) (_payloadBuffer p) 0 sourceSlot first_chunk second_chunk;
       CommunicationManager.fenceLocal (pcm p) sourceSlot 2 0
  else _ ← CommunicationManager.memcpyGL (pcm p) (_payloadBuffer p) head sourceSlot 0 requiredBufferSize;
       CommunicationManager.fenceLocal (pcm p) sourceSlot 1 0.

(** Both heads are advanced and copied to the consumer. *)
Definition publish (p : t) (requiredBufferSize : Z) : prog (Machine X) unit :=
  _ ← CircularBuffer.advanceHead (counts p) 1;
  _ ← CircularBuffer.advanceHead (payloads p) requiredBufferSize;
  _ ← CommunicationManager.memcpyGL (ccm p) (_consumerCoordinationBufferForCounts p) 0 (countsBuffer p) 0 SIZEOF_SIZE_T;
  _ ← CommunicationManager.memcpyGL (ccm p) (_consumerCoordinationBufferForPayloads p) 0 (payloadsBuffer p) 0 SIZEOF_SIZE_T;
  _ ← CommunicationManager.fenceLocal (ccm p) (countsBuffer p) 1 0;
  CommunicationManager.fenceLocal (ccm p) (payloadsBuffer p) 1 0.

(** The critical section: its result is the success flag.  Every early return of
    the code releases the lock first, as the caller of this definition does. *)
Definition push_locked (p : t) (sourceSlot : nat) (requiredBufferSize : Z) : prog (Machine X) bool :=
  _ ← updateDepth p;
  payloadDepth ← CircularBuffer.getDepth (payloads p);
  if payloadDepth +w requiredBufferSize >? CircularBuffer.getCapacity (payloads p) then mret false else
  sizeInfoBufferPtr ← getPointer (_sizeInfoBuffer p);
  _ ← write_size sizeInfoBufferPtr requiredBufferSize;
  depth ← CircularBuffer.getDepth (counts p);
  if depth +w 1 >? CircularBuffer.getCapacity (counts p) then mret false else
  pos ← CircularBuffer.getHeadPosition (counts p);
  _ ← CommunicationManager.memcpyGL (ccm p) (_tokenSizeBuffer p) (tokenSize p *w pos)
        (_sizeInfoBuffer p) 0 (tokenSize p);
  _ ← CommunicationManager.fenceLocal (ccm p) (_sizeInfoBuffer p) 1 0;
  _ ← copy_payload p sourceSlot requiredBufferSize;
  _ ← publish p requiredBufferSize;
  mret true.

Definition push (p : t) (sourceSlot : nat) (n : Z) : prog (Machine X) bool :=
  _ ← throw_if (negb (n =? 1)) runtime;
  requiredBufferSize ← getSize sourceSlot;
  acquired ← CommunicationManager.acquireGlobalLock (ccm p) (_consumerCoordinationBufferForCounts p);
  if negb acquired then mret false else
  successFlag ← push_locked p sourceSlot requiredBufferSize;
  _ ← CommunicationManager.releaseGlobalLock (ccm p) (_consumerCoordinationBufferForCounts p);
  mret successFlag.

End Operations.
End VLProducer.

Module VLConsumer.

Record t : Type := mk {
  base : VariableBase.t;
  _payloadBuffer : nat;
  _tokenSizeBuffer : nat;
  _consumerCoordinationBufferForCounts : nat;
  _consumerCoordinationBufferForPayloads : nat
}.

Section Operations.
Context {X : Type} {B : CommBackend X}.

Definition ccm (c : t) : nat := Base._coordinationCommunicationManager (VariableBase.base (base c)).
Definition pcm (c : t) : nat := Base._payloadCommunicationManager (VariableBase.base (base c)).
Definition counts (c : t) : CircularBuffer.t := VariableBase._circularBufferForCounts (base c).
Definition payloads (c : t) : CircularBuffer.t := VariableBase._circularBufferForPayloads (base c).
Definition countsBuffer (c : t) : nat := VariableBase._coordinationBufferForCounts (base c).
Definition payloadsBuffer (c : t) : nat := VariableBase._coordinationBufferForPayloads (base c).

(** The local slot behind a global one; a null pointer handed on to the backend
    is undefined behaviour. *)
Definition source_of (g : nat) : prog (Machine X) nat :=
  src ← getSourceLocalMemorySlot g;
  match src with None => Crash undefined | Some l => mret l end.

Definition make (ccm pcm payloadBuffer tokenBuffer
      internalCoordinationBufferForCounts internalCoordinationBufferForPayloads
      consumerCoordinationBufferForCounts consumerCoordinationBufferForPayloads : nat)
    (payloadCapacity capacity : Z) : prog (Machine X) t :=
  b ← VariableBase.make ccm pcm internalCoordinationBufferForCounts internalCoordinationBufferForPayloads
        capacity payloadCapacity;
  tokens ← source_of tokenBuffer;
  _ ← CommunicationManager.queryMemorySlotUpdates ccm tokens;
  payload ← source_of payloadBuffer;
  _ ← CommunicationManager.queryMemorySlotUpdates pcm payload;
  mret (mk b payloadBuffer tokenBuffer consumerCoordinationBufferForCounts consumerCoordinationBufferForPayloads).

Definition getDepth (c : t) : prog (Machine X) Z := CircularBuffer.getDepth (counts c).

Definition isEmpty (c : t) : prog (Machine X) bool := d ← getDepth c; mret (d =? 0).

Definition getPayloadBufferMemorySlot (c : t) : nat := _payloadBuffer c.

Definition basePeek (c : t) (pos : Z) : prog (Machine X) Z :=
  _ ← throw_if (pos >=? CircularBuffer.getCapacity (counts c)) logic;
  depth ← CircularBuffer.getDepth (counts c);
  _ ← throw_if (pos >=? depth) runtime;
  tail ← CircularBuffer.getTailPosition (counts c);
  CircularBuffer.size_mod (tail +w pos) (CircularBuffer.getCapacity (counts c)).

Definition tokenBufferPtr (c : t) : prog (Machine X) ptr :=
  l ← source_of (_tokenSizeBuffer c); getPointer l.

(** It does not take the lock. *)
Definition peek (c : t) (pos : Z) : prog (Machine X) (Z * Z) :=
  _ ← flushReceived (ccm c);
  _ ← flushReceived (pcm c);
  _ ← throw_if (negb (pos =? 0)) fatal;
  depth ← CircularBuffer.getDepth (counts c);
  _ ← throw_if (pos >=? depth) runtime;
  tail ← CircularBuffer.getTailPosition (payloads c);
  start ← CircularBuffer.size_mod tail (CircularBuffer.getCapacity (payloads c));
  sizes ← tokenBufferPtr c;
  tokenPos ← basePeek c pos;
  size ← read_size (ptr_add sizes (tokenPos * SIZEOF_SIZE_T));
  mret (start, size).

(** The loop that adds up the sizes of [n] messages, the [i]-th of which is at
    the position [index i]. *)
Fixpoint add_sizes (c : t) (sizes : ptr) (index : Z -> prog (Machine X) Z) (n : nat) (i payloadBytes : Z) :
    prog (Machine X) Z :=
  match n with
  | O => mret payloadBytes
  | S n' =>
      ind ← index i;
      pos ← basePeek c ind;
      payloadSize ← read_size (ptr_add sizes (pos * SIZEOF_SIZE_T));
      add_sizes c sizes index n' (i + 1) (payloadBytes +w payloadSize)
  end.

Definition getOldPayloadBytes (c : t) (n : Z) : prog (Machine X) Z :=
  if n =? 0 then mret 0 else
  sizes ← tokenBufferPtr c;
  add_sizes c sizes (fun i => mret i) (Z.to_nat n) 0 0.

Definition getNewPayloadBytes (c : t) (n : Z) : prog (Machine X) Z :=
  if n =? 0 then mret 0 else
  sizes ← tokenBufferPtr c;
  add_sizes c sizes (fun i => depth ← CircularBuffer.getDepth (counts c); mret (depth -w 1 -w i)) (Z.to_nat n) 0 0.

(** The part of a pop between the checks and the release of the lock. *)
Definition pop_locked (c : t) (n : Z) : prog (Machine X) unit :=
  sizes ← tokenBufferPtr c;
  tail ← CircularBuffer.getTailPosition (counts c);
  bytesOldestEntry ← read_size (ptr_add sizes (tail * SIZEOF_SIZE_T));
  _ ← CircularBuffer.advanceTail (counts c) n;
  CircularBuffer.advanceTail (payloads c) bytesOldestEntry.

Definition pop (c : t) (n : Z) : prog (Machine X) bool :=
  acquired ← CommunicationManager.acquireGlobalLock (ccm c) (_consumerCoordinationBufferForCounts c);
  if negb acquired then mret false else
  _ ← throw_if (n >? CircularBuffer.getCapacity (counts c)) logic;
  depth ← CircularBuffer.getDepth (counts c);
  _ ← throw_if (n >? depth) runtime;
  _ ← pop_locked c n;
  _ ← CommunicationManager.releaseGlobalLock (ccm c) (_consumerCoordinationBufferForCounts c);
  mret true.

End Operations.
End VLConsumer.

(** ** The representation

    The payload buffer is a ring of bytes: a token buffer of one-byte tokens. *)
Record vmgeometry : Type := mkVMGeometry {
  vmSizes :> token_buffer;
  vmPayload : token_buffer;
  vmCounts : ptr;
  vmPayloads : ptr
}.

(** The one-byte tokens of some bytes. *)
Definition singles (l : list byte) : list (list byte) := map (fun x => [x]) l.

Section Representation.
Context {X : Type} {B : CommBackend X}.

Record vlconsumer_ok (g : vmgeometry) (c : VLConsumer.t) (m : Machine X) : Prop := mkVLConsumerOk {
  vlc_size : gTokenSize g = 8;
  vlc_byte : gTokenSize (vmPayload g) = 1;
  vlc_counts : VLConsumer.counts c = Base.circular_buffer_at (gCapacity g) (vmCounts g);
  vlc_payloads : VLConsumer.payloads c = Base.circular_buffer_at (gCapacity (vmPayload g)) (vmPayloads g);
  vlc_countsSlot : coord_slot m (VLConsumer.countsBuffer c) (vmCounts g);
  vlc_payloadsSlot : coord_slot m (VLConsumer.payloadsBuffer c) (vmPayloads g);
  vlc_tokens : is_token_buffer g (VLConsumer._tokenSizeBuffer c) m;
  vlc_payload : is_token_buffer (vmPayload g) (VLConsumer._payloadBuffer c) m;
  vlc_countsBacked : backed_by m (VLConsumer._consumerCoordinationBufferForCounts c) (VLConsumer.countsBuffer c);
  vlc_payloadsBacked : backed_by m (VLConsumer._consumerCoordinationBufferForPayloads c) (VLConsumer.payloadsBuffer c);
  vlc_registered : registered m (VLConsumer.ccm c) (VLConsumer._consumerCoordinationBufferForCounts c);
  vlc_apart : all_apart [token_range g; token_range (vmPayload g); (vmCounts g, 16); (vmPayloads g, 16)]
}.

(** The producer, whose private buffers are at [pc], [pp] and [info], is attached. *)
Record vlattached (g : vmgeometry) (c : VLConsumer.t) (pc pp info : ptr) (p : VLProducer.t) (m : Machine X) :
    Prop := mkVLAttached {
  vlp_token : VLProducer.tokenSize p = 8;
  vlp_counts : VLProducer.counts p = Base.circular_buffer_at (gCapacity g) pc;
  vlp_payloads : VLProducer.payloads p = Base.circular_buffer_at (gCapacity (vmPayload g)) pp;
  vlp_countsSlot : coord_slot m (VLProducer.countsBuffer p) pc;
  vlp_payloadsSlot : coord_slot m (VLProducer.payloadsBuffer p) pp;
  vlp_info : exists n, 8 <= n /\ slot_at m (VLProducer._sizeInfoBuffer p) info n;
  vlp_access : accessible (heap m) pc 16 /\ accessible (heap m) pp 16 /\ accessible (heap m) info 8;
  vlp_tokens : is_token_buffer g (VLProducer._tokenSizeBuffer p) m;
  vlp_payload : is_token_buffer (vmPayload g) (VLProducer._payloadBuffer p) m;
  vlp_countsRemote : VLProducer._consumerCoordinationBufferForCounts p = VLConsumer._consumerCoordinationBufferForCounts c;
  vlp_payloadsRemote : VLProducer._consumerCoordinationBufferForPayloads p = VLConsumer._consumerCoordinationBufferForPayloads c;
  vlp_registered : registered m (VLProducer.ccm p) (VLConsumer._consumerCoordinationBufferForCounts c);
  vlp_apart : all_apart [token_range g; token_range (vmPayload g); (vmCounts g, 16); (vmPayloads g, 16);
                         (pc, 16); (pp, 16); (info, 8)]
}.

(** The messages [q]: sizes from token index [t] on, bytes from index [pt] on. *)
Record vlcontent (g : vmgeometry) (c : VLConsumer.t) (m : Machine X) (t pt : Z) (q : list (list byte)) : Prop := mkVLContent {
  vl_consumer : vlconsumer_ok g c m;
  vl_counts : cb_at (Base.circular_buffer_at (gCapacity g) (vmCounts g)) (t + Z.of_nat (length q)) t m;
  vl_payloads : cb_at (Base.circular_buffer_at (gCapacity (vmPayload g)) (vmPayloads g)) (pt + bytes_of q) pt m;
  vl_length : Z.of_nat (length q) <= gCapacity g;
  vl_bytes : bytes_of q <= gCapacity (vmPayload g);
  vl_sizes : holds_tokens g m t (map size_token q);
  vl_ring : holds_tokens (vmPayload g) m pt (singles (concat q))
}.

Definition vl_free (c : VLConsumer.t) (m : Machine X) : Prop :=
  locked (backend m) (VLConsumer._consumerCoordinationBufferForCounts c) = Some false.

End Representation.

(** What a push may write. *)
Abbreviation vl_footprint g pc pp info :=
  [token_range g; token_range (vmPayload g); (vmCounts g, 16); (vmPayloads g, 16); (pc, 16); (pp, 16); (info, 8)] (only parsing).

(** ** Bytes in a ring *)

Section Ring.
Context {X : Type}.
Implicit Types (m : Machine X) (b : token_buffer).

Lemma bytes_of_concat q : bytes_of q = Z.of_nat (length (concat q)).
Proof. unfold bytes_of. induction q as [|x q IH]; cbn; [done|]. rewrite length_app. lia. Qed.

Lemma length_singles l : length (singles l) = length l.
Proof. apply length_map. Qed.

(** Writing a contiguous chunk right behind the bytes that are in the ring. *)
Lemma ring_push b m t l bs m' :
  token_sizes b -> gTokenSize b = 1 -> Z.of_nat (length l) + Z.of_nat (length bs) <= gCapacity b ->
  (t + Z.of_nat (length l)) mod gCapacity b + Z.of_nat (length bs) <= gCapacity b ->
  holds_tokens b m t (singles l) ->
  stored m (ptr_add (gTokens b) ((t + Z.of_nat (length l)) mod gCapacity b)) bs m' ->
  holds_tokens b m' t (singles (l ++ bs)).
Proof.
  intros (_ & Hc & _) H1 Hroom Hend Hh St i tok Hi. unfold singles in Hi. rewrite list_lookup_fmap in Hi.
  destruct ((l ++ bs) !! i) as [x|] eqn:Ex; [|done]. injection Hi as <-. pose proof (lookup_lt_Some _ _ _ Ex) as Hlt.
  rewrite length_app in Hlt. unfold token_at. rewrite H1, Z.mul_1_l.
  set (h := t + Z.of_nat (length l)) in *. pose proof (Z.mod_pos_bound h _ Hc).
  apply lookup_app_Some in Ex as [Ex|[Hge Ex]].
  - pose proof (lookup_lt_Some _ _ _ Ex). rewrite (stored_disjoint _ _ _ _ _ _ St).
    + specialize (Hh i [x]). unfold token_at, singles in Hh. rewrite H1, Z.mul_1_l, list_lookup_fmap, Ex in Hh. by apply Hh.
    + apply disjoint_ranges_same. apply payload_disjoint; lia.
  - assert (Ei : (t + Z.of_nat i) mod gCapacity b = h mod gCapacity b + (Z.of_nat i - Z.of_nat (length l))).
    { replace (t + Z.of_nat i) with (h + (Z.of_nat i - Z.of_nat (length l))) by lia.
      rewrite <- Z.add_mod_idemp_l by lia. apply Z.mod_small. lia. }
    rewrite Ei, <- ptr_add_add. pose proof (stored_same _ _ _ _ St) as HL.
    rewrite (mem_load_sub _ _ _ _ _ 1 HL) by lia.
    replace (Z.to_nat (Z.of_nat i - Z.of_nat (length l))) with (i - length l)%nat by lia.
    by rewrite (drop_S _ _ _ Ex).
Qed.

Lemma ring_drop b m t l n :
  holds_tokens b m t (singles l) -> holds_tokens b m (t + Z.of_nat n) (singles (drop n l)).
Proof. intros Hh. unfold singles. rewrite fmap_drop. by apply holds_tokens_drop. Qed.

End Ring.

(** ** Helper lemmas *)

Section Facts.
Context {X : Type} {B : CommBackend X} `{!CommSpec X}.
Implicit Types m : Machine X.

Lemma vlconsumer_ok_writes R g c m m' : writes R m m' -> vlconsumer_ok g c m -> vlconsumer_ok g c m'.
Proof.
  intros W []. split; try done; try (by eapply is_token_buffer_writes);
    by rewrite ?(coord_slot_writes _ _ _ _ _ W), ?(writes_backed_by _ _ _ _ _ W), ?(writes_registered _ _ _ _ _ W).
Qed.

Lemma vlattached_writes R g c pc pp info p m m' : writes R m m' -> vlattached g c pc pp info p m -> vlattached g c pc pp info p m'.
Proof.
  intros W []. split; try done; try (by eapply is_token_buffer_writes);
    rewrite ?(coord_slot_writes _ _ _ _ _ W), ?(writes_accessible _ _ _ _ _ W), ?(writes_registered _ _ _ _ _ W); try done.
  by setoid_rewrite (writes_slot_at _ _ _ _ _ _ W).
Qed.

Lemma is_token_buffer_lock b g tb m : is_token_buffer g tb m -> is_token_buffer g tb (set_backend b m).
Proof. intros []. by split. Qed.

Lemma vlconsumer_ok_backend b g c m : vlconsumer_ok g c m -> vlconsumer_ok g c (set_backend b m).
Proof. intros []. split; try done; by apply is_token_buffer_lock. Qed.

Lemma vlattached_backend b g c pc pp info p m : vlattached g c pc pp info p m -> vlattached g c pc pp info p (set_backend b m).
Proof. intros []. split; try done; by apply is_token_buffer_lock. Qed.

Lemma vlcontent_backend b g c m t pt q : vlcontent g c m t pt q -> vlcontent g c (set_backend b m) t pt q.
Proof. intros []. split; try done. by apply vlconsumer_ok_backend. Qed.

(** Stores to other memory keep the content. *)
Lemma vlcontent_writes R g c m m' t pt q :
  vlcontent g c m t pt q -> writes R m m' ->
  apart R (gTokens g) (gTokenSize g * gCapacity g) ->
  apart R (gTokens (vmPayload g)) (gTokenSize (vmPayload g) * gCapacity (vmPayload g)) ->
  apart R (vmCounts g) 16 -> apart R (vmPayloads g) 16 -> vlcontent g c m' t pt q.
Proof.
  intros [Hc HC HP Hl Hb Hs Hr] W ????. split; try done.
  - by eapply vlconsumer_ok_writes.
  - by eapply cb_at_writes.
  - by eapply cb_at_writes.
  - eapply holds_tokens_writes; [apply (tb_sizes _ _ _ (vlc_tokens _ _ _ Hc))|done..].
  - eapply holds_tokens_writes; [apply (tb_sizes _ _ _ (vlc_payload _ _ _ Hc))|done..].
Qed.

(** The copy of a chunk of the message into the ring. *)
Lemma run_copy_chunk this b tb m src sp ss o n d t l msg :
  is_token_buffer b tb m -> gTokenSize b = 1 -> slot_at m src sp ss -> ss <= PTRDIFF_MAX ->
  mem_load (heap m) sp ss = Some msg -> 0 <= o -> 0 <= n -> o + n <= ss ->
  d = (t + Z.of_nat (length l)) mod gCapacity b -> d + n <= gCapacity b -> Z.of_nat (length l) + n <= gCapacity b ->
  holds_tokens b m t (singles l) ->
  exists m', run (CommunicationManager.memcpyGL this tb d src o n) m = Done tt m' /\ writes [token_range b] m m' /\
    holds_tokens b m' t (singles (l ++ take (Z.to_nat n) (drop (Z.to_nat o) msg))).
Proof.
  intros [Hsz (k & Hk & Hsl) Hb Ha] H1 Hs Hss HL Ho Hn Hon Hd Hdn Hln Hh. pose proof Hsz as (_ & Hc & Hmax). rewrite H1, Z.mul_1_l in *.
  pose proof (Z.mod_pos_bound (t + Z.of_nat (length l)) _ Hc). rewrite <- Hd in *.
  pose proof (mem_load_sub _ _ _ _ o n HL Ho Hn Hon) as HL'. pose proof (mem_load_length _ _ _ _ HL') as [Hlen _].
  destruct (run_memcpyGL_ok this tb (gTokensSlot b) d src o n m (gTokens b) k sp ss
              (take (Z.to_nat n) (drop (Z.to_nat o) msg)) Hb Hsl Hs) as (m' & E & St);
    [size_lia|lia|size_lia|lia|done|eapply accessible_sub; [exact Ha|lia..]|].
  exists m'. split_and!; [done|eapply writes_stored; [exact St|constructor|lia..]|].
  eapply ring_push; [done|done|lia| |exact Hh|by rewrite <- Hd]. rewrite <- Hd. lia.
Qed.

Lemma run_copy_ring g c pc pp info p m src sp msg t l :
  vlattached g c pc pp info p m -> gTokenSize (vmPayload g) = 1 ->
  cb_at (Base.circular_buffer_at (gCapacity (vmPayload g)) pp) (t + Z.of_nat (length l)) t m ->
  slot_at m src sp (Z.of_nat (length msg)) -> mem_load (heap m) sp (Z.of_nat (length msg)) = Some msg ->
  apart [token_range (vmPayload g)] sp (Z.of_nat (length msg)) ->
  Z.of_nat (length l) + Z.of_nat (length msg) <= gCapacity (vmPayload g) ->
  holds_tokens (vmPayload g) m t (singles l) ->
  exists m', run (VLProducer.copy_payload p src (Z.of_nat (length msg))) m = Done tt m' /\
    writes [token_range (vmPayload g)] m m' /\ holds_tokens (vmPayload g) m' t (singles (l ++ msg)).
Proof.
  intros Ha H1 HP Hs HL Hap Hroom Hh. pose proof (vlp_payload _ _ _ _ _ _ _ Ha) as Htb.
  pose proof (tb_sizes _ _ _ Htb) as Hsz. pose proof (capacity_bound _ Hsz). pose proof Hsz as (_ & Hc & _).
  unfold VLProducer.copy_payload. rewrite (vlp_payloads _ _ _ _ _ _ _ Ha).
  rewrite (run_bind_Done _ _ _ _ _ (run_getHeadPosition _ _ _ _ HP Hc)).
  cbn [CircularBuffer.getCapacity CircularBuffer._capacity Base.circular_buffer_at]. cbv zeta.
  set (d := (t + Z.of_nat (length l)) mod gCapacity (vmPayload g)).
  pose proof (Z.mod_pos_bound (t + Z.of_nat (length l)) _ Hc : 0 <= d < _). rewrite (wrap64_small (_ + d)) by size_lia.
  case_bool; cycle 1.
  { destruct (run_copy_chunk (VLProducer.pcm p) _ _ m src sp _ 0 (Z.of_nat (length msg)) d t l msg Htb H1 Hs)
      as (m1 & E1 & W1 & Hh1); try done; try size_lia.
    rewrite drop_0, Nat2Z.id, firstn_all in Hh1. exists m1. split_and!; [|done|done].
    rewrite (run_bind_Done _ _ _ _ _ E1). apply fenceImplLocal_ok. }
  rewrite (wrap64_small (gCapacity _ - d)), (wrap64_small (Z.of_nat (length msg) - _)) by size_lia.
  set (k := gCapacity (vmPayload g) - d) in *.
  destruct (run_copy_chunk (VLProducer.pcm p) _ _ m src sp _ 0 k d t l msg Htb H1 Hs)
    as (m1 & E1 & W1 & Hh1); try done; try size_lia. rewrite drop_0 in Hh1.
  assert (Hlt : length (l ++ take (Z.to_nat k) msg) = (length l + Z.to_nat k)%nat) by (rewrite length_app, length_take; lia).
  destruct (run_copy_chunk (VLProducer.pcm p) (vmPayload g) (VLProducer._payloadBuffer p) m1 src sp (Z.of_nat (length msg))
              k (Z.of_nat (length msg) - k) 0 t (l ++ take (Z.to_nat k) msg) msg)
    as (m2 & E2 & W2 & Hh2); try done; try size_lia.
  - by eapply is_token_buffer_writes.
  - by apply (writes_slot_at _ _ _ _ _ _ W1).
  - by rewrite (writes_load _ _ _ _ _ W1 Hap).
  - rewrite Hlt. unfold k. replace (t + Z.of_nat (length l + Z.to_nat (gCapacity (vmPayload g) - d)))
      with (t + Z.of_nat (length l) - d + 1 * gCapacity (vmPayload g)) by lia.
    rewrite Z.mod_add, Zminus_mod by lia. fold d. unfold d at 2. rewrite Z.mod_mod by lia. fold d. by rewrite Z.sub_diag, Z.mod_0_l by lia.
  - exists m2. split_and!; [|writes_by W1 W2|].
    + rewrite (run_bind_Done _ _ _ _ _ E1), (run_bind_Done _ _ _ _ _ E2). apply fenceImplLocal_ok.
    + rewrite <- app_assoc in Hh2. rewrite (take_ge (drop _ _)) in Hh2 by (rewrite length_drop; lia). by rewrite take_drop in Hh2.
Qed.

(** Both pairs of counters are fetched from the consumer. *)
Lemma run_vl_updateDepth g c pc pp info p m h t ph pt :
  vlconsumer_ok g c m -> vlattached g c pc pp info p m ->
  cb_at (Base.circular_buffer_at (gCapacity g) (vmCounts g)) h t m ->
  cb_at (Base.circular_buffer_at (gCapacity (vmPayload g)) (vmPayloads g)) ph pt m ->
  exists m', run (VLProducer.updateDepth p) m = Done tt m' /\ writes [(pc, 16); (pp, 16)] m m' /\
    cb_at (Base.circular_buffer_at (gCapacity g) pc) h t m' /\
    cb_at (Base.circular_buffer_at (gCapacity (vmPayload g)) pp) ph pt m'.
Proof.
  intros [_ _ _ _ (nc & ? & Hsc) (np & ? & Hsp) _ _ Hbc Hbp _ _] Ha HC HP.
  pose proof Ha as [_ _ _ (nl & ? & Hlc) (nq & ? & Hlp) _ (Ac & Ap & _) _ _ Ec Ep _ Hap]. apart_facts Hap.
  unfold VLProducer.updateDepth. rewrite Ec, Ep.
  destruct (run_fetch_counters (VLProducer.ccm p) _ _ (VLProducer.countsBuffer p) m (vmCounts g) nc pc nl
              (gCapacity g) (gCapacity g) _ _ Hbc Hsc Hlc ltac:(done) ltac:(done) HC Ac) as (m1 & E1 & W1 & HC1).
  rewrite (run_bind_Done _ _ _ _ _ E1).
  destruct (run_fetch_counters (VLProducer.ccm p) (VLConsumer._consumerCoordinationBufferForPayloads c) (VLConsumer.payloadsBuffer c)
              (VLProducer.payloadsBuffer p) m1 (vmPayloads g) np pp nq
              (gCapacity (vmPayload g)) (gCapacity (vmPayload g)) ph pt) as (m2 & E2 & W2 & HP2);
    rewrite ?(writes_backed_by _ _ _ _ _ W1), ?(writes_slot_at _ _ _ _ _ _ W1), ?(writes_accessible _ _ _ _ _ W1); try done;
    [by cb_frame W1|].
  exists m2. split_and!; [|writes_by W1 W2|by cb_frame W2|done].
  rewrite (run_bind_Done _ _ _ _ _ E2), (run_bind_Done _ _ _ _ _ (fenceImplLocal_ok _ _ 0 1 m2)). apply fenceImplLocal_ok.
Qed.

(** The size of the message goes through the producer's size buffer into the token buffer. *)
Lemma run_vl_size (g : vmgeometry) c pc pp info p m t msg q {A : Type} (k : prog (Machine X) A) :
  gTokenSize g = 8 -> vlattached g c pc pp info p m -> holds_tokens g m t (map size_token q) ->
  cb_at (Base.circular_buffer_at (gCapacity g) pc) (t + Z.of_nat (length q)) t m ->
  mem_load (heap m) info 8 = Some (size_token msg) -> Z.of_nat (length q) + 1 <= gCapacity g ->
  exists m',
    run (pos ← CircularBuffer.getHeadPosition (VLProducer.counts p);
         _ ← CommunicationManager.memcpyGL (VLProducer.ccm p) (VLProducer._tokenSizeBuffer p)
               (VLProducer.tokenSize p *w pos) (VLProducer._sizeInfoBuffer p) 0 (VLProducer.tokenSize p);
         _ ← CommunicationManager.fenceLocal (VLProducer.ccm p) (VLProducer._sizeInfoBuffer p) 1 0; k) m = run k m' /\
    writes [token_range g] m m' /\ holds_tokens g m' t (map size_token (q ++ [msg])).
Proof.
  intros H8 [Etk Ecn _ _ _ (ni & ? & Hin) _ Htb _ _ _ _ _] Hh HP HL Hroom.
  pose proof (tb_sizes _ _ _ Htb) as Hsz. pose proof (capacity_bound _ Hsz). rewrite Etk, Ecn.
  destruct (run_copy_token (VLProducer.ccm p) g _ m (VLProducer._sizeInfoBuffer p) info ni 0
              (t + Z.of_nat (length q)) t (size_token msg) pc Htb) as (m1 & E1 & St1);
    try (rewrite ?ptr_add_0, ?H8; (done || size_lia)).
  rewrite H8 in E1. rewrite <- run_bind_assoc, (run_bind_Done _ _ _ _ _ E1).
  rewrite (run_bind_Done _ _ _ _ _ (fenceImplLocal_ok _ _ _ _ m1)).
  assert (Hlt : Z.of_nat (length (size_token msg)) = gTokenSize g) by (by rewrite H8; unfold size_token; rewrite length_le_bytes).
  exists m1. split_and!; [done|by eapply stored_token_writes|]. rewrite map_app. cbn [map].
  apply (holds_tokens_push g m); rewrite ?length_map; [done|lia|done|done|done].
Qed.

(** Both heads are advanced and published. *)
Lemma run_vl_publish g c pc pp info p m h t ph pt n :
  vlconsumer_ok g c m -> vlattached g c pc pp info p m ->
  cb_at (Base.circular_buffer_at (gCapacity g) (vmCounts g)) h t m ->
  cb_at (Base.circular_buffer_at (gCapacity (vmPayload g)) (vmPayloads g)) ph pt m ->
  cb_at (Base.circular_buffer_at (gCapacity g) pc) h t m ->
  cb_at (Base.circular_buffer_at (gCapacity (vmPayload g)) pp) ph pt m ->
  t <= h -> h - t + 1 <= gCapacity g -> h + 1 < SIZE_BOUND ->
  pt <= ph -> 0 <= n -> ph - pt + n <= gCapacity (vmPayload g) -> ph + n < SIZE_BOUND ->
  exists m', run (VLProducer.publish p n) m = Done tt m' /\
    writes [(vmCounts g, 16); (vmPayloads g, 16); (pc, 16); (pp, 16)] m m' /\
    cb_at (Base.circular_buffer_at (gCapacity g) (vmCounts g)) (h + 1) t m' /\
    cb_at (Base.circular_buffer_at (gCapacity (vmPayload g)) (vmPayloads g)) (ph + n) pt m'.
Proof.
  intros [_ _ _ _ (nc & ? & Hsc) (np & ? & Hsp) Htb Hpb Hbc Hbp _ _] Ha HC HP HLC HLP ???????.
  pose proof Ha as [_ Ecn Epl (nl & ? & Hlc) (nq & ? & Hlp) _ _ _ _ Ec Ep _ Hap]. apart_facts Hap.
  pose proof (capacity_bound _ (tb_sizes _ _ _ Htb)). pose proof (capacity_bound _ (tb_sizes _ _ _ Hpb)).
  unfold VLProducer.publish. rewrite Ec, Ep, Ecn, Epl.
  destruct (run_advanceHead_at (gCapacity g) pc h t m 1 HLC) as (m1 & E1 & W1 & HLC1); [size_lia..|].
  rewrite (run_bind_Done _ _ _ _ _ E1).
  destruct (run_advanceHead_at (gCapacity (vmPayload g)) pp ph pt m1 n) as (m2 & E2 & W2 & HLP2); [by cb_frame W1|size_lia..|].
  rewrite (run_bind_Done _ _ _ _ _ E2).
  assert (W12 : writes [(pc, 16); (pp, 16)] m m2) by writes_by W1 W2.
  destruct (run_copy_head (VLProducer.ccm p) (VLConsumer._consumerCoordinationBufferForCounts c) (VLConsumer.countsBuffer c)
              (VLProducer.countsBuffer p) m2 (vmCounts g) nc pc nl (gCapacity g) (gCapacity g) (h + 1) t h t)
    as (m3 & E3 & W3 & HC3);
    rewrite ?(writes_backed_by _ _ _ _ _ W12), ?(writes_slot_at _ _ _ _ _ _ W12); try done; [by cb_frame W2|by cb_frame W12|].
  rewrite (run_bind_Done _ _ _ _ _ E3).
  assert (W13 : writes [(pc, 16); (pp, 16); (vmCounts g, 16)] m m3) by writes_by W12 W3.
  destruct (run_copy_head (VLProducer.ccm p) (VLConsumer._consumerCoordinationBufferForPayloads c) (VLConsumer.payloadsBuffer c)
              (VLProducer.payloadsBuffer p) m3 (vmPayloads g) np pp nq (gCapacity (vmPayload g)) (gCapacity (vmPayload g))
              (ph + n) pt ph pt) as (m4 & E4 & W4 & HP4);
    rewrite ?(writes_backed_by _ _ _ _ _ W13), ?(writes_slot_at _ _ _ _ _ _ W13); try done; [by cb_frame W3|by cb_frame W13|].
  exists m4. rewrite (run_bind_Done _ _ _ _ _ E4), (run_bind_Done _ _ _ _ _ (fenceImplLocal_ok _ _ 1 0 m4)).
  split_and!; [apply fenceImplLocal_ok|writes_by W13 W4|by cb_frame W4|done].
Qed.

(** After the checks: size, payload, counters. *)
Lemma run_vl_transfer g c pc pp info p m src sp msg t pt q :
  vlcontent g c m t pt q -> vlattached g c pc pp info p m ->
  cb_at (Base.circular_buffer_at (gCapacity g) pc) (t + Z.of_nat (length q)) t m ->
  cb_at (Base.circular_buffer_at (gCapacity (vmPayload g)) pp) (pt + bytes_of q) pt m ->
  mem_load (heap m) info 8 = Some (size_token msg) ->
  slot_at m src sp (Z.of_nat (length msg)) -> mem_load (heap m) sp (Z.of_nat (length msg)) = Some msg ->
  apart (vl_footprint g pc pp info) sp (Z.of_nat (length msg)) ->
  Z.of_nat (length q) + 1 <= gCapacity g -> bytes_of q + Z.of_nat (length msg) <= gCapacity (vmPayload g) ->
  t + Z.of_nat (length q) + 1 < SIZE_BOUND -> pt + bytes_of q + Z.of_nat (length msg) < SIZE_BOUND ->
  exists m',
    run (pos ← CircularBuffer.getHeadPosition (VLProducer.counts p);
         _ ← CommunicationManager.memcpyGL (VLProducer.ccm p) (VLProducer._tokenSizeBuffer p)
               (VLProducer.tokenSize p *w pos) (VLProducer._sizeInfoBuffer p) 0 (VLProducer.tokenSize p);
         _ ← CommunicationManager.fenceLocal (VLProducer.ccm p) (VLProducer._sizeInfoBuffer p) 1 0;
         _ ← VLProducer.copy_payload p src (Z.of_nat (length msg));
         _ ← VLProducer.publish p (Z.of_nat (length msg));
         mret true) m = Done true m' /\
    writes (vl_footprint g pc pp info) m m' /\ vlcontent g c m' t pt (q ++ [msg]).
Proof.
  intros [Hc HC HP Hlen Hb Hs Hr] Ha HLC HLP Hinfo Hsl HL Hap Hl Hbl Hov Hpov.
  pose proof (vlp_apart _ _ _ _ _ _ _ Ha) as Hall. apart_facts Hall. pose proof (bytes_of_nonneg q).
  pose proof (tb_sizes _ _ _ (vlc_tokens _ _ _ Hc)) as Hsz. pose proof (tb_sizes _ _ _ (vlc_payload _ _ _ Hc)) as Hpsz.
  destruct (run_vl_size g c pc pp info p m t msg q
              (_ ← VLProducer.copy_payload p src (Z.of_nat (length msg));
               _ ← VLProducer.publish p (Z.of_nat (length msg)); mret true))
    as (m1 & E1 & W1 & Hs1); try done; [apply Hc|]. rewrite E1. clear E1.
  destruct (run_copy_ring g c pc pp info p m1 src sp msg pt (concat q)) as (m2 & E2 & W2 & Hr2);
    rewrite <- ?bytes_of_concat; try done;
    [by eapply vlattached_writes|apply Hc|by cb_frame W1|by apply (writes_slot_at _ _ _ _ _ _ W1)
    |rewrite (writes_load _ _ _ _ _ W1); [done|eapply apart_mono; [|exact Hap]; auto 20 with hicr]
    |eapply apart_mono; [|exact Hap]; auto 20 with hicr|eapply holds_tokens_writes; eauto with hicr|].
  rewrite (run_bind_Done _ _ _ _ _ E2).
  assert (W12 : writes [token_range g; token_range (vmPayload g)] m m2) by writes_by W1 W2.
  destruct (run_vl_publish g c pc pp info p m2 (t + Z.of_nat (length q)) t (pt + bytes_of q) pt (Z.of_nat (length msg)))
    as (m3 & E3 & W3 & HC3 & HP3);
    [by eapply vlconsumer_ok_writes|by eapply vlattached_writes|cb_frame W12; done..|lia|lia|lia|lia|lia|lia|lia|].
  exists m3. rewrite (run_bind_Done _ _ _ _ _ E3). split_and!; [done|writes_by W12 W3|].
  assert (Eb : bytes_of (q ++ [msg]) = bytes_of q + Z.of_nat (length msg))
    by (rewrite bytes_of_app, bytes_of_cons; unfold bytes_of at 2; cbn; lia).
  split; rewrite ?length_app, ?Eb; cbn [length].
  - eapply vlconsumer_ok_writes; [exact W3|]. by eapply vlconsumer_ok_writes.
  - by replace (t + Z.of_nat (length q + 1)) with (t + Z.of_nat (length q) + 1) by lia.
  - by rewrite Z.add_assoc.
  - lia.
  - lia.
  - assert (W23 : writes [token_range (vmPayload g); (vmCounts g, 16); (vmPayloads g, 16); (pc, 16); (pp, 16)] m1 m3) by writes_by W2 W3.
    eapply holds_tokens_writes; eauto 10 with hicr.
  - rewrite concat_app. cbn [concat]. rewrite app_nil_r. eapply holds_tokens_writes; [done|exact W3|eauto 10 with hicr|done].
Qed.

Lemma run_vl_push_locked g c pc pp info p m src sp msg t pt q :
  vlcontent g c m t pt q -> vlattached g c pc pp info p m ->
  slot_at m src sp (Z.of_nat (length msg)) -> mem_load (heap m) sp (Z.of_nat (length msg)) = Some msg ->
  apart (vl_footprint g pc pp info) sp (Z.of_nat (length msg)) -> Z.of_nat (length msg) <= PTRDIFF_MAX ->
  t + Z.of_nat (length q) + 1 < SIZE_BOUND -> pt + bytes_of q + Z.of_nat (length msg) < SIZE_BOUND ->
  exists m', let fits := (bytes_of q + Z.of_nat (length msg) <=? gCapacity (vmPayload g)) && (Z.of_nat (length q) + 1 <=? gCapacity g) in
    run (VLProducer.push_locked p src (Z.of_nat (length msg))) m = Done fits m' /\
    writes (vl_footprint g pc pp info) m m' /\ vlcontent g c m' t pt (if fits then q ++ [msg] else q).
Proof.
  intros Hcon Ha Hsl HL Hap Hmax Hov Hpov. pose proof Hcon as [Hc HC HP Hlen Hb _ _]. pose proof (bytes_of_nonneg q).
  pose proof Ha as [_ Ecn Epl _ _ (ni & ? & Hin) (_ & _ & Hia) _ _ _ _ _ Hall]. apart_facts Hall.
  pose proof (capacity_bound _ (tb_sizes _ _ _ (vlc_tokens _ _ _ Hc))).
  pose proof (capacity_bound _ (tb_sizes _ _ _ (vlc_payload _ _ _ Hc))).
  destruct (run_vl_updateDepth g c pc pp info p m _ _ _ _ Hc Ha HC HP) as (m1 & E1 & W1 & HLC1 & HLP1).
  unfold VLProducer.push_locked. rewrite (run_bind_Done _ _ _ _ _ E1).
  rewrite Epl, (run_bind_Done _ _ _ _ _ (run_getDepth_ok _ _ _ _ HLP1 ltac:(lia))).
  cbn [CircularBuffer.getCapacity CircularBuffer._capacity Base.circular_buffer_at].
  replace (pt + bytes_of q - pt) with (bytes_of q) by lia. rewrite wrap64_small by size_lia.
  assert (Hcon1 : vlcontent g c m1 t pt q) by (eapply vlcontent_writes; eauto with hicr).
  rewrite Z.gtb_ltb, Z.ltb_antisym. destruct (Z.leb_spec (bytes_of q + Z.of_nat (length msg)) (gCapacity (vmPayload g))); cycle 1.
  { exists m1. split_and!; [done|writes_by W1|done]. }
  cbn [negb andb].
  erewrite run_bind_Done by (eapply run_getPointer; by apply (writes_slot_at _ _ _ _ _ _ W1)).
  destruct (run_write_size m1 info (Z.of_nat (length msg)) ltac:(by apply (writes_accessible _ _ _ _ _ W1))) as (m2 & E2 & St2).
  rewrite (run_bind_Done _ _ _ _ _ E2).
  pose proof (stored_same _ _ _ _ St2) as HL2. rewrite length_le_bytes in HL2. change (Z.of_nat 8) with 8 in HL2.
  assert (W2 : writes [(info, 8)] m1 m2).
  { rewrite <- (ptr_add_0 info) in St2. eapply writes_stored; [exact St2|constructor|lia|by rewrite length_le_bytes]. }
  assert (Hcon2 : vlcontent g c m2 t pt q) by (eapply vlcontent_writes; eauto with hicr).
  assert (W12 : writes [(pc, 16); (pp, 16); (info, 8)] m m2) by writes_by W1 W2.
  rewrite Ecn, (run_bind_Done _ _ _ _ _ (run_getDepth_ok (Base.circular_buffer_at (gCapacity g) pc)
    (t + Z.of_nat (length q)) t m2 ltac:(by cb_frame W2) ltac:(lia))).
  replace (t + Z.of_nat (length q) - t) with (Z.of_nat (length q)) by lia. rewrite wrap64_small by size_lia.
  cbn [CircularBuffer.getCapacity CircularBuffer._capacity Base.circular_buffer_at].
  rewrite Z.gtb_ltb, Z.ltb_antisym. destruct (Z.leb_spec (Z.of_nat (length q) + 1) (gCapacity g)); cycle 1.
  { exists m2. split_and!; [done|writes_by W12|done]. }
  rewrite <- Ecn. cbn [negb].
  destruct (run_vl_transfer g c pc pp info p m2 src sp msg t pt q) as (m3 & E3 & W3 & Hcon3); try done;
    [by eapply vlattached_writes|by cb_frame W2|by cb_frame W2|by apply (writes_slot_at _ _ _ _ _ _ W12)| |].
  { rewrite (writes_load _ _ _ _ _ W12); [done|]. eapply apart_mono; [|exact Hap]; auto 20 with hicr. }
  exists m3. split_and!; [done|writes_by W12 W3|done].
Qed.

End Facts.
