(* ===== verification/VariableMPSCSpec.v ===== *)
(** * Behaviour of the variable-size locking MPSC channel

    The theorems of [VariableMPSC.v]: [push], [peek] and [pop] on every branch.
    A push appends the whole message, also when it wraps around the end of the
    payload ring.  A pop of one message removes it; a pop of any other number
    moves the two tails apart, and a pop of more messages than there are throws
    with the lock held, after which every operation is refused. *)

From S2P Require Import Prelude Memory CommunicationManager Pthreads CircularBuffer Channel TokenBuffer VariableSPSC VariableMPSC.
From Stdlib Require Import ZArith Lia.
From Stdlib.Strings Require Import Byte.
From stdpp Require Import base gmap option list.

Local Open Scope Z_scope.
Local Open Scope hicr_scope.

(** The channel between operations. *)
Definition vl_rep {X : Type} {B : CommBackend X} (g : vmgeometry) (c : VLConsumer.t) (m : Machine X)
    (t pt : Z) (q : list (list byte)) : Prop :=
  vlcontent g c m t pt q /\ vl_free c m.

Section Facts.
Context {X : Type} {B : CommBackend X} `{!CommSpec X}.
Implicit Types m : Machine X.

Lemma vl_free_writes R c m m' : writes R m m' -> vl_free c m -> vl_free c m'.
Proof. intros W. unfold vl_free. by rewrite (writes_backend _ _ _ W). Qed.

(** The size of message [i] as the token buffer has it. *)
Lemma vl_size g c m t pt q i msg :
  vlcontent g c m t pt q -> q !! i = Some msg ->
  load_size (heap m) (ptr_add (gTokens g) ((t + Z.of_nat i) mod gCapacity g * SIZEOF_SIZE_T)) = Some (Z.of_nat (length msg)).
Proof.
  intros [Hc _ _ _ Hb Hh _] Hi. specialize (Hh i (size_token msg)).
  rewrite list_lookup_fmap, Hi in Hh. specialize (Hh eq_refl). unfold token_at in Hh.
  rewrite (vlc_size _ _ _ Hc) in Hh. unfold load_size, SIZEOF_SIZE_T. rewrite (Z.mul_comm _ 8), Hh. cbn -[le_value le_bytes].
  unfold size_token. rewrite le_value_size; [done|].
  pose proof (capacity_bound _ (tb_sizes _ _ _ (vlc_payload _ _ _ Hc))).
  pose proof (sum_list_with_in _ length _ (list_elem_of_lookup_2 _ _ _ Hi)). unfold bytes_of in Hb. size_lia.
Qed.

Lemma run_vl_tokenBufferPtr g c m : vlconsumer_ok g c m -> run (VLConsumer.tokenBufferPtr c) m = Done (gTokens g) m.
Proof.
  intros Hc. destruct (vlc_tokens _ _ _ Hc) as [_ (n & _ & Hs) Hb _].
  unfold VLConsumer.tokenBufferPtr, VLConsumer.source_of. rewrite run_bind.
  rewrite (run_bind_Done _ _ _ _ _ (run_getSource _ _ _ Hb)). cbn [run mret prog_mret]. by eapply run_getPointer.
Qed.

Lemma run_vl_basePeek g c m t pt q pos :
  vlcontent g c m t pt q -> 0 <= pos < Z.of_nat (length q) ->
  run (VLConsumer.basePeek c pos) m = Done ((t + pos) mod gCapacity g) m.
Proof.
  intros [Hc HC _ Hlen _ _ _] Hp. pose proof (tb_sizes _ _ _ (vlc_tokens _ _ _ Hc)) as Hsz.
  pose proof (capacity_bound _ Hsz). destruct Hsz as (_ & Hcap & _).
  unfold VLConsumer.basePeek. rewrite (vlc_counts _ _ _ Hc).
  cbn [CircularBuffer.getCapacity CircularBuffer._capacity Base.circular_buffer_at].
  erewrite run_bind_Done by (apply run_throw_if_false; case_bool; lia).
  rewrite (run_bind_Done _ _ _ _ _ (run_getDepth_ok _ _ _ _ HC ltac:(lia))).
  erewrite run_bind_Done by (apply run_throw_if_false; case_bool; lia).
  rewrite (run_bind_Done _ _ _ _ _ (run_getTailPosition _ _ _ _ HC Hcap)).
  cbn [CircularBuffer._capacity Base.circular_buffer_at]. pose proof (Z.mod_pos_bound t (gCapacity g) Hcap).
  rewrite wrap64_small by size_lia. unfold CircularBuffer.size_mod. case_bool; [lia|].
  by rewrite Z.add_mod_idemp_l by lia.
Qed.

(** The counters move by [n] messages and by the bytes of the oldest one. *)
Lemma run_vl_pop_locked g c m t pt msg q n :
  vlcontent g c m t pt (msg :: q) -> 0 <= n <= Z.of_nat (length (msg :: q)) ->
  exists m', run (VLConsumer.pop_locked c n) m = Done tt m' /\
    writes [(vmCounts g, 16); (vmPayloads g, 16)] m m' /\
    cb_at (Base.circular_buffer_at (gCapacity g) (vmCounts g)) (t + Z.of_nat (length (msg :: q))) (t + n) m' /\
    cb_at (Base.circular_buffer_at (gCapacity (vmPayload g)) (vmPayloads g)) (pt + bytes_of (msg :: q)) (pt + Z.of_nat (length msg)) m'.
Proof.
  intros Hcon Hn. pose proof Hcon as [Hc HC HP _ _ _ _]. pose proof (tb_sizes _ _ _ (vlc_tokens _ _ _ Hc)) as (_ & Hcap & _).
  pose proof (vlc_apart _ _ _ Hc) as Hap. apart_facts Hap. pose proof (bytes_of_nonneg q).
  unfold VLConsumer.pop_locked. rewrite (run_bind_Done _ _ _ _ _ (run_vl_tokenBufferPtr _ _ _ Hc)).
  rewrite (vlc_counts _ _ _ Hc), (vlc_payloads _ _ _ Hc).
  rewrite (run_bind_Done _ _ _ _ _ (run_getTailPosition _ _ _ _ HC Hcap)).
  pose proof (vl_size g c m t pt (msg :: q) 0 msg Hcon eq_refl) as Hsz. rewrite Z.add_0_r in Hsz.
  rewrite (run_bind_Done _ _ _ _ _ (run_read_size _ _ _ Hsz)).
  destruct (run_advanceTail_at _ _ _ _ m n HC) as (m1 & E1 & W1 & HC1); [lia|].
  rewrite (run_bind_Done _ _ _ _ _ E1). rewrite bytes_of_cons in *.
  destruct (run_advanceTail_at (gCapacity (vmPayload g)) (vmPayloads g) (pt + (Z.of_nat (length msg) + bytes_of q)) pt m1
              (Z.of_nat (length msg))) as (m2 & E2 & W2 & HP2); [by cb_frame W1|lia|].
  exists m2. split_and!; [done|writes_by W1 W2|by cb_frame W2|done].
Qed.

Lemma run_vl_pop g c m t pt msg q n :
  vl_rep g c m t pt (msg :: q) -> 0 <= n <= Z.of_nat (length (msg :: q)) ->
  exists m', run (VLConsumer.pop c n) m = Done true m' /\ vl_free c m' /\
    writes [(vmCounts g, 16); (vmPayloads g, 16)] m m' /\
    cb_at (Base.circular_buffer_at (gCapacity g) (vmCounts g)) (t + Z.of_nat (length (msg :: q))) (t + n) m' /\
    cb_at (Base.circular_buffer_at (gCapacity (vmPayload g)) (vmPayloads g)) (pt + bytes_of (msg :: q)) (pt + Z.of_nat (length msg)) m'.
Proof.
  intros [Hcon Hfree] Hn. pose proof Hcon as [Hc HC _ Hlen _ _ _].
  set (ml := set_backend (lock_slot (VLConsumer._consumerCoordinationBufferForCounts c) (backend m)) m).
  destruct (run_vl_pop_locked g c ml t pt msg q n) as (m1 & E1 & W1 & HC1 & HP1); [by apply vlcontent_backend|done|].
  destruct (run_release (VLConsumer.ccm c) _ (backend m) _ m m1 (vlc_registered _ _ _ Hc) Hfree eq_refl W1) as [Er Wr].
  exists (set_backend (backend m) m1). split_and!; [|by eapply vl_free_writes|done|done|done].
  unfold VLConsumer.pop. rewrite (run_bind_Done _ _ _ _ _ (run_acquire_free _ _ _ (vlc_registered _ _ _ Hc) Hfree)).
  fold ml. cbn [negb]. rewrite (vlc_counts _ _ _ Hc).
  erewrite run_bind_Done by (apply run_throw_if_false; cbn [CircularBuffer.getCapacity CircularBuffer._capacity Base.circular_buffer_at]; case_bool; lia).
  rewrite (run_bind_Done _ _ _ _ _ (run_getDepth_ok _ (t + Z.of_nat (length (msg :: q))) t ml HC ltac:(lia))).
  erewrite run_bind_Done by (apply run_throw_if_false; case_bool; lia).
  by rewrite (run_bind_Done _ _ _ _ _ E1), (run_bind_Done _ _ _ _ _ Er).
Qed.

(** ** The theorems *)

Lemma run_vl_push g c pc pp info p m src sp msg t pt q n :
  vlcontent g c m t pt q -> vlattached g c pc pp info p m ->
  locked (backend m) (VLConsumer._consumerCoordinationBufferForCounts c) = Some n ->
  slot_at m src sp (Z.of_nat (length msg)) -> mem_load (heap m) sp (Z.of_nat (length msg)) = Some msg ->
  apart (vl_footprint g pc pp info) sp (Z.of_nat (length msg)) -> Z.of_nat (length msg) <= PTRDIFF_MAX ->
  t + Z.of_nat (length q) + 1 < SIZE_BOUND -> pt + bytes_of q + Z.of_nat (length msg) < SIZE_BOUND ->
  (forall k, k <> 1 -> run (VLProducer.push p src k) m = Thrown runtime m) /\
  (if n : bool then run (VLProducer.push p src 1) m = Done false m
   else exists m',
     let fits := (bytes_of q + Z.of_nat (length msg) <=? gCapacity (vmPayload g)) && (Z.of_nat (length q) + 1 <=? gCapacity g) in
     run (VLProducer.push p src 1) m = Done fits m' /\ writes (vl_footprint g pc pp info) m m' /\
     vl_rep g c m' t pt (if fits then q ++ [msg] else q)).
Proof.
  intros Hcon Ha Hlock Hsl HL Hap Hmax Hov Hpov. split.
  { intros k Hk. unfold VLProducer.push. rewrite run_bind, run_throw_if_true; [done|]. case_bool; [done|done]. }
  unfold VLProducer.push. erewrite run_bind_Done by (by apply run_throw_if_false).
  rewrite (run_bind_Done _ _ _ _ _ (run_getSize _ _ _ _ Hsl)), (vlp_countsRemote _ _ _ _ _ _ _ Ha). destruct n.
  - apply run_contended; [apply Ha|done].
  - set (g0 := VLConsumer._consumerCoordinationBufferForCounts c) in *.
    destruct (run_vl_push_locked g c pc pp info p (set_backend (lock_slot g0 (backend m)) m) src sp msg t pt q)
      as (m1 & E1 & W1 & Hcon1); try done; [by apply vlcontent_backend|by apply vlattached_backend|].
    destruct (run_critical (VLProducer.ccm p) g0 (VLProducer.push_locked p src (Z.of_nat (length msg))) false _ m _ _
                (vlp_registered _ _ _ _ _ _ _ Ha) Hlock E1 W1) as [E W].
    exists (set_backend (backend m) m1). split_and!; [exact E|exact W|].
    split; [by apply vlcontent_backend|by eapply vl_free_writes].
Qed.

(** A push of anything but one message throws; without the lock it returns
    [false] and changes nothing; a message whose bytes or whose size token do
    not fit is refused with [false] and the content kept; otherwise the message
    is appended, in two chunks when it crosses the end of the payload ring.
    Whatever happens under the lock, the lock is free again. *)
Theorem vlocking_push_spec g c pc pp info p m src sp msg t pt q n :
  vlcontent g c m t pt q -> vlattached g c pc pp info p m ->
  locked (backend m) (VLConsumer._consumerCoordinationBufferForCounts c) = Some n ->
  slot_at m src sp (Z.of_nat (length msg)) -> mem_load (heap m) sp (Z.of_nat (length msg)) = Some msg ->
  apart (vl_footprint g pc pp info) sp (Z.of_nat (length msg)) -> Z.of_nat (length msg) <= PTRDIFF_MAX ->
  t + Z.of_nat (length q) + 1 < SIZE_BOUND -> pt + bytes_of q + Z.of_nat (length msg) < SIZE_BOUND ->
  (forall k, k <> 1 -> run (VLProducer.push p src k) m = Thrown runtime m) /\
  (if n : bool then run (VLProducer.push p src 1) m = Done false m
   else exists m',
     let fits := (bytes_of q + Z.of_nat (length msg) <=? gCapacity (vmPayload g)) && (Z.of_nat (length q) + 1 <=? gCapacity g) in
     run (VLProducer.push p src 1) m = Done fits m' /\ writes (vl_footprint g pc pp info) m m' /\
     vl_rep g c m' t pt (if fits then q ++ [msg] else q)).
Proof. exact (run_vl_push g c pc pp info p m src sp msg t pt q n). Qed.

(** With a message in the channel, [peek] gives the start of the oldest one
    in the payload ring and its size, and the bytes of the message follow there,
    modulo the capacity of the ring; without one it throws. *)
Theorem vlocking_peek_spec g c m t pt q :
  vlcontent g c m t pt q ->
  match q with
  | [] => run (VLConsumer.peek c 0) m = Thrown runtime m
  | msg :: _ => run (VLConsumer.peek c 0) m = Done (pt mod gCapacity (vmPayload g), Z.of_nat (length msg)) m /\
      forall i x, msg !! i = Some x ->
        mem_load (heap m) (ptr_add (gTokens (vmPayload g)) ((pt + Z.of_nat i) mod gCapacity (vmPayload g))) 1 = Some [x]
  end.
Proof.
  intros Hcon. pose proof Hcon as [Hc HC HP _ _ _ Hr].
  pose proof (tb_sizes _ _ _ (vlc_payload _ _ _ Hc)) as (_ & Hcap & _).
  assert (Hdepth : run (CircularBuffer.getDepth (VLConsumer.counts c)) m = Done (Z.of_nat (length q)) m).
  { rewrite (vlc_counts _ _ _ Hc), (run_getDepth_ok _ _ _ _ HC) by lia. f_equal. lia. }
  assert (Hpre : forall A (k : Z -> prog (Machine X) A),
    run (_ ← flushReceived (VLConsumer.ccm c); _ ← flushReceived (VLConsumer.pcm c); _ ← throw_if (negb (0 =? 0)) fatal;
         depth ← CircularBuffer.getDepth (VLConsumer.counts c); k depth) m = run (k (Z.of_nat (length q))) m).
  { intros A k. do 2 erewrite run_bind_Done by apply flushReceived_ok.
    erewrite run_bind_Done by (by apply run_throw_if_false). by rewrite (run_bind_Done _ _ _ _ _ Hdepth). }
  unfold VLConsumer.peek. rewrite Hpre. destruct q as [|msg q]; [done|]. split.
  - erewrite run_bind_Done by (apply run_throw_if_false; cbn [length]; case_bool; lia). rewrite (vlc_payloads _ _ _ Hc).
    rewrite (run_bind_Done _ _ _ _ _ (run_getTailPosition _ _ _ _ HP Hcap)).
    cbn [CircularBuffer.getCapacity CircularBuffer._capacity Base.circular_buffer_at].
    unfold CircularBuffer.size_mod at 1. case_bool; [lia|]. rewrite run_bind. cbn [run mret prog_mret].
    rewrite (run_bind_Done _ _ _ _ _ (run_vl_tokenBufferPtr _ _ _ Hc)).
    rewrite (run_bind_Done _ _ _ _ _ (run_vl_basePeek g c m t pt (msg :: q) 0 Hcon ltac:(cbn [length]; lia))).
    rewrite (run_bind_Done _ _ _ _ _ (run_read_size _ _ _ (vl_size g c m t pt (msg :: q) 0 msg Hcon eq_refl))).
    by rewrite Z.mod_mod by lia.
  - intros i x Hi. specialize (Hr i [x]).
    unfold token_at, singles in Hr. rewrite (vlc_byte _ _ _ Hc), Z.mul_1_l in Hr. apply Hr.
    rewrite list_lookup_fmap. cbn [concat]. by rewrite (lookup_app_l_Some _ _ _ _ Hi).
Qed.

Lemma run_vl_pop_one g c m t pt msg q :
  vl_rep g c m t pt (msg :: q) ->
  exists m', run (VLConsumer.pop c 1) m = Done true m' /\ vl_rep g c m' (t + 1) (pt + Z.of_nat (length msg)) q /\
    writes [(vmCounts g, 16); (vmPayloads g, 16)] m m'.
Proof.
  intros Hrep. pose proof Hrep as [[Hc _ _ Hlen Hb Hs Hr] _]. cbn [length] in *. rewrite bytes_of_cons in *.
  destruct (run_vl_pop g c m t pt msg q 1 Hrep) as (m' & E & Hf & W & HC & HP); [cbn [length]; lia|].
  exists m'. split; [done|]. split; [|done]. split; [|done]. pose proof (vlc_apart _ _ _ Hc) as Hap. apart_facts Hap.
  pose proof (tb_sizes _ _ _ (vlc_tokens _ _ _ Hc)). pose proof (tb_sizes _ _ _ (vlc_payload _ _ _ Hc)).
  cbn [length] in HC. rewrite bytes_of_cons in HP. split; try lia.
  - by eapply vlconsumer_ok_writes.
  - by replace (t + 1 + Z.of_nat (length q)) with (t + Z.of_nat (S (length q))) by lia.
  - by rewrite <- Z.add_assoc.
  - eapply holds_tokens_writes; [done|exact W|eauto with hicr|]. by apply (holds_tokens_drop g m t (map size_token (msg :: q)) 1).
  - eapply holds_tokens_writes; [done|exact W|eauto with hicr|].
    pose proof (ring_drop (vmPayload g) m pt (concat (msg :: q)) (length msg) Hr) as Hd. cbn [concat] in Hd. by rewrite drop_app_length in Hd.
Qed.

(** A pop of one message removes the oldest one, and the lock is free again. *)
Theorem vlocking_pop_spec g c m t pt msg q :
  vl_rep g c m t pt (msg :: q) ->
  exists m', run (VLConsumer.pop c 1) m = Done true m' /\ vl_rep g c m' (t + 1) (pt + Z.of_nat (length msg)) q.
Proof. intros Hrep. destruct (run_vl_pop_one g c m t pt msg q Hrep) as (m' & E & Hr & _). by exists m'. Qed.

(** A pop of [n] messages moves the tail of the counts by [n] but the tail of
    the payload ring by the bytes of the oldest message only, so that for
    [n <> 1] the two counters no longer describe the same messages. *)
Theorem vlocking_pop_many g c m t pt msg q n :
  vl_rep g c m t pt (msg :: q) -> 0 <= n <= Z.of_nat (length (msg :: q)) ->
  exists m', run (VLConsumer.pop c n) m = Done true m' /\
    cb_at (Base.circular_buffer_at (gCapacity g) (vmCounts g)) (t + Z.of_nat (length (msg :: q))) (t + n) m' /\
    cb_at (Base.circular_buffer_at (gCapacity (vmPayload g)) (vmPayloads g)) (pt + bytes_of (msg :: q)) (pt + Z.of_nat (length msg)) m'.
Proof.
  intros Hrep Hn. destruct (run_vl_pop g c m t pt msg q n Hrep Hn) as (m' & E & _ & _ & HC & HP). by exists m'.
Qed.

(** A pop of more messages than there are throws with the lock still held;
    from then on every pop and every push returns [false]. *)
Theorem vlocking_pop_leaks_lock g c m t pt q n p pc pp info src sp ss :
  vl_rep g c m t pt q -> vlattached g c pc pp info p m -> slot_at m src sp ss -> Z.of_nat (length q) < n ->
  exists m', run (VLConsumer.pop c n) m = Thrown (hicr_exn (if n >? gCapacity g then logic else runtime)) m' /\
    (forall k, run (VLConsumer.pop c k) m' = Done false m') /\
    run (VLProducer.push p src 1) m' = Done false m'.
Proof.
  intros [Hcon Hfree] Ha Hs Hn. pose proof Hcon as [Hc HC _ _ _ _ _].
  set (g0 := VLConsumer._consumerCoordinationBufferForCounts c). set (ml := set_backend (lock_slot g0 (backend m)) m).
  assert (Hheld : locked (backend ml) g0 = Some true) by apply lock_slot_locked.
  exists ml. split; [|split].
  - unfold VLConsumer.pop. rewrite (run_bind_Done _ _ _ _ _ (run_acquire_free _ _ _ (vlc_registered _ _ _ Hc) Hfree)).
    fold g0 ml. cbn [negb]. rewrite (vlc_counts _ _ _ Hc).
    cbn [CircularBuffer.getCapacity CircularBuffer._capacity Base.circular_buffer_at].
    rewrite run_bind. unfold throw_if at 1. destruct (n >? gCapacity g); [done|]. cbn [run].
    rewrite (run_bind_Done _ _ _ _ _ (run_getDepth_ok _ (t + Z.of_nat (length q)) t ml HC ltac:(lia))).
    rewrite run_bind, run_throw_if_true; [done|]. case_bool; lia.
  - intros k. unfold VLConsumer.pop.
    by rewrite (run_bind_Done _ _ _ _ _ (run_acquire_held _ _ ml (vlc_registered _ _ _ Hc) Hheld)).
  - unfold VLProducer.push. erewrite run_bind_Done by (by apply run_throw_if_false).
    rewrite (run_bind_Done _ _ _ _ _ (run_getSize ml _ _ _ Hs)), (vlp_countsRemote _ _ _ _ _ _ _ Ha).
    apply run_contended; [apply Ha|done].
Qed.

End Facts.

(** ** A concrete channel over the pthreads backend

    Two size tokens and four payload bytes.  Blocks: the consumer's counts and
    payloads counters 0 and 1, the producer's 2 and 3, its size buffer 4, the
    tokens 5, the payload ring 6 and a message 7; local slots are named after
    their blocks and global slots ten more. *)
Module VLDemo.

Definition geom : vmgeometry :=
  mkVMGeometry (mkTokenBuffer 8 2 (Ptr 5 0) 5) (mkTokenBuffer 1 4 (Ptr 6 0) 6) (Ptr 0 0) (Ptr 1 0).

Definition slot (b : nat) (n : Z) : nat * LocalMemorySlot.t := (b, LocalMemorySlot.make (Ptr b 0) n None).

Definition global (b : nat) : nat * GlobalMemorySlot.t := ((10 + b)%nat, GlobalMemorySlot.mk 7 (Z.of_nat b) (Some b)).

Definition fields : CommunicationManagerFields.t :=
  CommunicationManagerFields.mk (<[7 := <[0 := 10%nat]> (<[1 := 11%nat]> ∅)]> ∅) ∅.

Definition machine_with (counts payloads tokens payload : list byte) : Machine Core.t :=
  mkMachine
    (list_to_map [(0%nat, counts); (1%nat, payloads); (2%nat, replicate 16 xff); (3%nat, replicate 16 x07);
                  (4%nat, replicate 8 x00); (5%nat, tokens); (6%nat, payload); (7%nat, [x01; x02; x03])])
    (list_to_map [slot 0 16; slot 1 16; slot 2 16; slot 3 16; slot 4 8; slot 5 16; slot 6 4; slot 7 3])
    (list_to_map [global 0; global 1; global 5; global 6])
    (<[0%nat := fields]> ∅)
    (Core.mk 1 (PthreadBarrier.init 1) ∅ 0 ∅ (<[10%nat := false]> ∅) false).

(** A channel with nothing in it whose ring is at byte 2, and one with a message
    of two bytes and one of one byte. *)
Definition machine : Machine Core.t :=
  machine_with (le_bytes 8 1 ++ le_bytes 8 1) (le_bytes 8 2 ++ le_bytes 8 2) (replicate 16 x00) (replicate 4 x00).

Definition loaded : Machine Core.t :=
  machine_with (le_bytes 8 3 ++ le_bytes 8 1) (le_bytes 8 6 ++ le_bytes 8 3) (le_bytes 8 1 ++ le_bytes 8 2) [x0b; x0c; x00; x0a].

Definition vbase (counts payloads : nat) : VariableBase.t :=
  VariableBase.mk (Base.mk 0 0 counts 8 (Base.circular_buffer_at 2 (Ptr counts 0)))
    (Base.circular_buffer_at 2 (Ptr counts 0)) (Base.circular_buffer_at 4 (Ptr payloads 0)) counts payloads.

Definition producer : VLProducer.t := VLProducer.mk (vbase 2 3) 16 4 1 15 10 11.

Definition consumer : VLConsumer.t := VLConsumer.mk (vbase 0 1) 16 15 10 11.

Example make_vlproducer : run (VLProducer.make 0 0 4 16 15 2 3 10 11 4 1 2) machine = Done producer machine.
Proof. vm_compute. reflexivity. Qed.

Example make_vlconsumer : run (VLConsumer.make 0 0 16 15 0 1 10 11 4 2) machine = Done consumer machine.
Proof. vm_compute. reflexivity. Qed.

Lemma buffers_demo counts payloads tokens payload :
  length tokens = 16%nat -> length payload = 4%nat ->
  is_token_buffer geom 15 (machine_with counts payloads tokens payload) /\
  is_token_buffer (vmPayload geom) 16 (machine_with counts payloads tokens payload).
Proof.
  intros Ht Hp. split.
  - split; [done|by exists 16; split; [cbn; lia|]; eexists|by eexists|]. apply accessible_iff. exists tokens. rewrite Ht. by split_and!.
  - split; [done|by exists 4; split; [cbn; lia|]; eexists|by eexists|]. apply accessible_iff. exists payload. rewrite Hp. by split_and!.
Qed.

Lemma vlconsumer_demo counts payloads tokens payload :
  length tokens = 16%nat -> length payload = 4%nat ->
  vlconsumer_ok geom consumer (machine_with counts payloads tokens payload).
Proof.
  intros Ht Hp. destruct (buffers_demo counts payloads tokens payload Ht Hp).
  split; try done; try (by exists 16; split; [lia|]; eexists); try (by eexists); [by eexists _, _, _, _|].
  cbn [all_apart]. split_and!; try done; repeat apply Forall_cons_2; try apply Forall_nil_2; cbn; lia.
Qed.

Lemma vlattached_demo counts payloads tokens payload :
  length tokens = 16%nat -> length payload = 4%nat ->
  vlattached geom consumer (Ptr 2 0) (Ptr 3 0) (Ptr 4 0) producer (machine_with counts payloads tokens payload).
Proof.
  intros Ht Hp. destruct (buffers_demo counts payloads tokens payload Ht Hp).
  split; try done; try (by exists 16; split; [lia|]; eexists);
    [by exists 8; split; [lia|]; eexists|split_and!; by eexists|by eexists _, _, _, _|].
  cbn [all_apart]. split_and!; try done; repeat apply Forall_cons_2; try apply Forall_nil_2; cbn; lia.
Qed.

Lemma vl_rep_demo : vl_rep geom consumer machine 1 2 [].
Proof. split; [|done]. split; [by apply vlconsumer_demo|by split|by split|cbn; lia|unfold bytes_of; cbn; lia|by intros []|by intros []]. Qed.

Lemma vl_rep_loaded : vl_rep geom consumer loaded 1 3 [[x0a; x0b]; [x0c]].
Proof.
  split; [|done]. split; [by apply vlconsumer_demo|by split|by split|cbn; lia|unfold bytes_of; cbn; lia| |].
  - intros [|[|i]] tok Hi; by simplify_eq.
  - intros [|[|[|i]]] tok Hi; by simplify_eq.
Qed.

(** The message of three bytes at ring position 2 of 4 wraps around. *)
Lemma vlocking_push_spec_witness :
  exists m', run (VLProducer.push producer 7 1) machine = Done true m' /\
    writes (vl_footprint geom (Ptr 2 0) (Ptr 3 0) (Ptr 4 0)) machine m' /\
    vl_rep geom consumer m' 1 2 [[x01; x02; x03]].
Proof.
  refine (proj2 (vlocking_push_spec geom consumer (Ptr 2 0) (Ptr 3 0) (Ptr 4 0) producer machine 7 (Ptr 7 0) [x01; x02; x03]
            1 2 [] false (proj1 vl_rep_demo) _ eq_refl ltac:(by eexists) eq_refl _ ltac:(by vm_compute) ltac:(by vm_compute)
            ltac:(by vm_compute))).
  - by apply vlattached_demo.
  - repeat apply Forall_cons_2; try apply Forall_nil_2; cbn; lia.
Defined.

Lemma vlocking_peek_spec_witness :
  run (VLConsumer.peek consumer 0) loaded = Done (3, 2) loaded /\
    forall i x, [x0a; x0b] !! i = Some x -> mem_load (heap loaded) (Ptr 6 (0 + (3 + Z.of_nat i) mod 4)) 1 = Some [x].
Proof. exact (vlocking_peek_spec geom consumer loaded 1 3 _ (proj1 vl_rep_loaded)). Defined.

Lemma vlocking_pop_spec_witness :
  exists m', run (VLConsumer.pop consumer 1) loaded = Done true m' /\ vl_rep geom consumer m' 2 5 [[x0c]].
Proof. exact (vlocking_pop_spec geom consumer loaded 1 3 _ _ vl_rep_loaded). Defined.

(** After a pop of both messages one byte is left in the ring. *)
Lemma vlocking_pop_many_witness :
  exists m', run (VLConsumer.pop consumer 2) loaded = Done true m' /\
    cb_at (Base.circular_buffer_at 2 (Ptr 0 0)) 3 3 m' /\ cb_at (Base.circular_buffer_at 4 (Ptr 1 0)) 6 5 m'.
Proof. refine (vlocking_pop_many geom consumer loaded 1 3 _ _ 2 vl_rep_loaded _). by vm_compute. Defined.

Lemma vlocking_pop_leaks_lock_witness :
  exists m', run (VLConsumer.pop consumer 1) machine = Thrown runtime m' /\
    (forall k, run (VLConsumer.pop consumer k) m' = Done false m') /\
    run (VLProducer.push producer 7 1) m' = Done false m'.
Proof.
  refine (vlocking_pop_leaks_lock geom consumer machine 1 2 [] 1 producer (Ptr 2 0) (Ptr 3 0) (Ptr 4 0) 7 (Ptr 7 0) 3
            vl_rep_demo _ ltac:(by eexists) ltac:(by vm_compute)). by apply vlattached_demo.
Defined.

End VLDemo.
