(* ===== verification/VariableMPSCNonlocking.v ===== *)
(** * The variable-size multiple-producer single-consumer channel, non-locking version

    Models [frontends/channel/variableSize/mpsc/nonlocking/consumer.hpp] and
    [producer.hpp]: one variable-size SPSC channel per producer and the helper
    queue of [HelperQueue.v].  Its updates are guarded by assertions and by a
    check that queue and depths agree; the theorems show that neither ever
    fires, and what [peek] and [pop] do. *)

From S2P Require Import Prelude Memory CommunicationManager Pthreads CircularBuffer Channel TokenBuffer VariableSPSC VariableSPSCSpec HelperQueue.
From Stdlib Require Import ZArith Lia.
From Stdlib.Strings Require Import Byte.
From stdpp Require Import base gmap option list.

Local Open Scope Z_scope.
Local Open Scope hicr_scope.

(** The producer is the one of the SPSC channel. *)
Module VNProducer.

Definition make {X : Type} {B : CommBackend X} (ccm pcm sizeInfoBuffer payloadBuffer tokenBuffer
      internalCoordinationBufferForCounts internalCoordinationBufferForPayloads
      consumerCoordinationBufferForCounts consumerCoordinationBufferForPayloads : nat)
    (payloadCapacity payloadSize capacity : Z) : prog (Machine X) VProducer.t :=
  VProducer.make ccm pcm sizeInfoBuffer payloadBuffer tokenBuffer
    internalCoordinationBufferForCounts internalCoordinationBufferForPayloads
    consumerCoordinationBufferForCounts consumerCoordinationBufferForPayloads payloadCapacity payloadSize capacity.

End VNProducer.

Module VNConsumer.

Record t : Type := mk {
  _spscList : list VConsumer.t;
  _channelPushes : list nat;
  _depths : list Z;
  _coordinationCommunicationManager : nat;
  _payloadCommunicationManager : nat
}.

Definition set_pushes (l : list nat) (o : t) : t :=
  mk (_spscList o) l (_depths o) (_coordinationCommunicationManager o) (_payloadCommunicationManager o).

Definition set_depths (l : list Z) (o : t) : t :=
  mk (_spscList o) (_channelPushes o) l (_coordinationCommunicationManager o) (_payloadCommunicationManager o).

Section Operations.
Context {X : Type} {B : CommBackend X}.

(** [v[i]]; out of range it is undefined behaviour. *)
Definition at_ {S A : Type} (v : list A) (i : nat) : prog S A :=
  match v !! i with Some x => mret x | None => Crash undefined end.

(** One channel is built and its depth recorded. *)
Definition make_spsc (ccm pcm : nat) (payloadBuffers tokenBuffers internalCounts internalPayloads
      producerCounts producerPayloads : list nat) (payloadCapacity capacity : Z) (i : nat) :
    prog (Machine X) (VConsumer.t * Z) :=
  payloadBuffer ← at_ payloadBuffers i;
  tokenBuffer ← at_ tokenBuffers i;
  internalCount ← at_ internalCounts i;
  internalPayload ← at_ internalPayloads i;
  producerCount ← at_ producerCounts i;
  producerPayload ← at_ producerPayloads i;
  consumer ← VConsumer.make ccm pcm payloadBuffer tokenBuffer internalCount internalPayload
               producerCount producerPayload payloadCapacity capacity;
  depth ← VConsumer.getCoordinationDepth consumer;
  mret (consumer, depth).

(** The constructor; messages that are there already are noticed. *)
Definition make (ccm pcm : nat) (payloadBuffers tokenBuffers internalCounts internalPayloads
      producerCounts producerPayloads : list nat) (payloadCapacity capacity : Z) : prog (Machine X) t :=
  let producerCount := length internalCounts in
  _ ← assert_ (negb (producerCount =? 0)%nat);
  _ ← assert_ (producerCount =? length internalPayloads)%nat;
  _ ← assert_ (producerCount =? length producerCounts)%nat;
  _ ← assert_ (producerCount =? length producerPayloads)%nat;
  spscs ← map_each (make_spsc ccm pcm payloadBuffers tokenBuffers internalCounts internalPayloads
                      producerCounts producerPayloads payloadCapacity capacity) (seq 0 producerCount);
  let depths := map snd spscs in
  mret (mk (map fst spscs) (HelperQueue.arrivals 0 (replicate producerCount 0) depths) depths ccm pcm).

Definition getDepth : prog (Machine X * t) Z :=
  totalDepth ← this (fun o => HelperQueue.total (_depths o));
  size ← this (fun o => Z.of_nat (length (_channelPushes o)));
  _ ← throw_if (negb (totalDepth =? size)) logic;
  mret totalDepth.

Definition isEmpty : prog (Machine X * t) bool := d ← getDepth; mret (d =? 0).

(** The second loop of [updateDepth], from channel [i] on. *)
Fixpoint enqueue (i : nat) (old new : list Z) : prog (Machine X * t) unit :=
  match old, new with
  | d :: old', n :: new' =>
      _ ← assert_ (d <=? n);
      _ ← set_this (fun o => set_pushes (_channelPushes o ++ replicate (Z.to_nat (n - d)) i) o);
      enqueue (S i) old' new'
  | _, _ => mret tt
  end.

Definition updateDepth : prog (Machine X * t) unit :=
  spscs ← this _spscList;
  newDepths ← map_each (fun c => on_fst (_ ← VConsumer.updateDepth c; VConsumer.getCoordinationDepth c)) spscs;
  old ← this _depths;
  _ ← enqueue 0 old newDepths;
  _ ← set_this (set_depths newDepths);
  depth ← getDepth;
  size ← this (fun o => Z.of_nat (length (_channelPushes o)));
  throw_if (negb (depth =? size)) logic.

(** The channel of the oldest message, its start and its size. *)
Definition peek (pos : Z) : prog (Machine X * t) (nat * Z * Z) :=
  _ ← throw_if (pos >? 0) logic;
  ccm ← this _coordinationCommunicationManager;
  pcm ← this _payloadCommunicationManager;
  _ ← on_fst (flushReceived ccm);
  _ ← on_fst (flushReceived pcm);
  _ ← updateDepth;
  pushes ← this _channelPushes;
  match pushes with
  | [] => Raise runtime
  | channelId :: _ =>
      spscs ← this _spscList;
      match spscs !! channelId with
      | None => Raise logic
      | Some c =>
          first ← on_fst (VConsumer.peek c 0);
          second ← on_fst (VConsumer.peek c 0);
          mret (channelId, first.1, second.2)
      end
  end.

(** [front()] and [pop()] of an empty queue are undefined behaviour. *)
Definition pop (n : Z) : prog (Machine X * t) unit :=
  _ ← updateDepth;
  depth ← getDepth;
  if n >? depth then Raise runtime else
  pushes ← this _channelPushes;
  match pushes with
  | [] => Crash undefined
  | channelFirstPushed :: _ =>
      spscs ← this _spscList;
      match spscs !! channelFirstPushed with
      | None => Raise logic
      | Some c =>
          for_loop (Z.to_nat n) 0 (fun _ =>
            _ ← on_fst (VConsumer.pop c 1);
            _ ← set_this (fun o => set_depths (alter (fun d => d -w 1) channelFirstPushed (_depths o)) o);
            rest ← this _channelPushes;
            match rest with
            | [] => Crash undefined
            | _ :: rest' => set_this (set_pushes rest')
            end)
      end
  end.

End Operations.
End VNConsumer.

(** ** The representation *)

Record vchan : Type := mkVChan {
  vch_geometry : vgeometry;
  vch_producer : VProducer.t;
  vch_first : Z;
  vch_byte : Z;
  vch_messages : list (list byte)
}.

Definition vsizes (chs : list vchan) : list nat := map (fun ch => length (vch_messages ch)) chs.

Definition vchan_ok {X : Type} (m : Machine X) (ch : vchan) (c : VConsumer.t) : Prop :=
  vrep (vch_geometry ch) (vch_producer ch) c m (vch_first ch) (vch_byte ch) (vch_messages ch).

(** What a pop writes. *)
Abbreviation vcounters g :=
  [(vProducerCounts g, 16); (vConsumerCounts g, 16); (vProducerPayloads g, 16); (vConsumerPayloads g, 16)] (only parsing).

Definition vchans_apart (chs : list vchan) : Prop :=
  forall i j a b, i <> j -> chs !! i = Some a -> chs !! j = Some b ->
    Forall (fun r => apart (vcounters (vch_geometry a)) r.1 r.2) (vregions (vch_geometry b)).

Record vnonlocking_rep {X : Type} (chs : list vchan) (m : Machine X) (o : VNConsumer.t) : Prop := mkVNonlockingRep {
  vn_chans : Forall2 (vchan_ok m) chs (VNConsumer._spscList o);
  vn_apart : vchans_apart chs;
  vn_helper : helper_ok (vsizes chs) (VNConsumer._channelPushes o) (VNConsumer._depths o)
}.

(** The oldest message leaves a channel. *)
Definition pop_vchan (ch : vchan) : vchan :=
  mkVChan (vch_geometry ch) (vch_producer ch) (vch_first ch + 1)
    (vch_byte ch + bytes_of (take 1 (vch_messages ch))) (drop 1 (vch_messages ch)).

Definition vupdated (chs : list vchan) (o : VNConsumer.t) : VNConsumer.t :=
  VNConsumer.set_depths (map Z.of_nat (vsizes chs))
    (VNConsumer.set_pushes (noticed (vsizes chs) (VNConsumer._channelPushes o)) o).

(** ** Helper lemmas *)

Section Facts.
Context {X : Type} {B : CommBackend X} `{!CommSpec X}.
Implicit Types (m : Machine X) (o : VNConsumer.t).

Lemma vsizes_pop chs i : vsizes (alter pop_vchan i chs) = alter pred i (vsizes chs).
Proof.
  revert i. unfold vsizes. induction chs as [|ch chs IH]; intros [|i]; cbn; [done..| |].
  - f_equal. destruct (vch_messages ch); [done|]. cbn. by rewrite drop_0.
  - f_equal. apply IH.
Qed.

(** The loop appends the arrivals, and its assertions hold when no depth shrank. *)
Lemma run_enqueue m : forall old new i o,
  Forall2 (fun d n => d <= n) old new ->
  run (VNConsumer.enqueue i old new) (m, o) =
  Done tt (m, VNConsumer.set_pushes (VNConsumer._channelPushes o ++ HelperQueue.arrivals i old new) o).
Proof.
  intros old new i o H. revert i o. induction H as [|d n old new Hd _ IH]; intros i o; cbn [VNConsumer.enqueue HelperQueue.arrivals].
  - rewrite app_nil_r. by destruct o.
  - rewrite (proj2 (Z.leb_le d n) Hd). erewrite run_bind_Done by done. erewrite run_bind_Done by apply run_set_this.
    rewrite IH. cbn. by rewrite <- app_assoc.
Qed.

(** The recorded depths never exceed the real ones. *)
Lemma helper_monotone ns pushes depths : helper_ok ns pushes depths -> Forall2 (fun d n => d <= n) depths (map Z.of_nat ns).
Proof.
  intros [_ -> Hk _]. apply Forall2_same_length_lookup. rewrite !length_map, length_seq. split; [done|].
  intros i d n Hd Hn. apply list_lookup_fmap_Some in Hd as (j & -> & Hj). apply lookup_seq in Hj as [-> _].
  apply list_lookup_fmap_Some in Hn as (k & -> & Hn). cbn. apply inj_le. by apply Hk.
Qed.

Lemma run_vgetDepth m o ns pushes :
  VNConsumer._depths o = map Z.of_nat ns -> VNConsumer._channelPushes o = noticed ns pushes ->
  HelperQueue.total (map Z.of_nat ns) = Z.of_nat (length (noticed ns pushes)) ->
  run VNConsumer.getDepth (m, o) = Done (Z.of_nat (length (noticed ns pushes))) (m, o).
Proof.
  intros Hd Hp Ht. unfold VNConsumer.getDepth. do 2 erewrite run_bind_Done by apply run_this. rewrite Hd, Hp, Ht, Z.eqb_refl.
  by erewrite run_bind_Done by (by apply run_throw_if_false).
Qed.

Lemma run_vupdateDepth chs m o :
  vnonlocking_rep chs m o ->
  run VNConsumer.updateDepth (m, o) = Done tt (m, vupdated chs o) /\ vnonlocking_rep chs m (vupdated chs o) /\
  run VNConsumer.getDepth (m, vupdated chs o) =
    Done (Z.of_nat (length (noticed (vsizes chs) (VNConsumer._channelPushes o)))) (m, vupdated chs o).
Proof.
  intros Hr. pose proof Hr as [Hc Ha Hh]. pose proof (total_depths _ _ _ Hh) as Ht.
  assert (Hg : run VNConsumer.getDepth (m, vupdated chs o) =
    Done (Z.of_nat (length (noticed (vsizes chs) (VNConsumer._channelPushes o)))) (m, vupdated chs o))
    by by eapply run_vgetDepth.
  split_and!; [|split; [done..|by eapply helper_noticed]|done].
  unfold VNConsumer.updateDepth. rewrite (run_bind_Done _ _ _ _ _ (run_this _ m o)).
  erewrite run_bind_Done.
  2:{ apply (run_map_each_pure _ _ (map Z.of_nat (vsizes chs))).
      unfold vsizes. rewrite map_map, Forall2_fmap_r, <- Forall2_flip. eapply Forall2_impl; [exact Hc|].
      intros ch c Hv. apply run_on_fst_Done. erewrite run_bind_Done by done. unfold VConsumer.getCoordinationDepth.
      rewrite (vc_counts _ _ _ (vx_consumer _ _ _ _ (vr_connected _ _ _ _ _ _ _ Hv))).
      rewrite (run_getDepth_ok _ _ _ _ (vr_cc _ _ _ _ _ _ _ Hv)) by lia. f_equal. lia. }
  rewrite (run_bind_Done _ _ _ _ _ (run_this _ m o)).
  rewrite (run_bind_Done _ _ _ _ _ (run_enqueue m _ _ 0 o (helper_monotone _ _ _ Hh))).
  erewrite run_bind_Done by apply run_set_this. rewrite (hq_depths _ _ _ Hh) at 1.
  change (VNConsumer.set_depths _ (VNConsumer.set_pushes _ o)) with (vupdated chs o).
  rewrite (run_bind_Done _ _ _ _ _ Hg). erewrite run_bind_Done by apply run_this.
  apply run_throw_if_false. by rewrite Z.eqb_refl.
Qed.

Lemma vnoticed_head chs m o i rest :
  vnonlocking_rep chs m o -> noticed (vsizes chs) (VNConsumer._channelPushes o) = i :: rest ->
  exists ch c msg q, chs !! i = Some ch /\ VNConsumer._spscList o !! i = Some c /\ vchan_ok m ch c /\ vch_messages ch = msg :: q.
Proof.
  intros Hr E. destruct (noticed_front _ _ _ (vn_helper _ _ _ Hr) _ _ E) as (n & Hn & Hpos).
  unfold vsizes in Hn. apply list_lookup_fmap_Some in Hn as (ch & -> & Hch).
  destruct (Forall2_lookup_l _ _ _ _ _ (vn_chans _ _ _ Hr) Hch) as (c & Hc & Hok).
  destruct (vch_messages ch) as [|msg q] eqn:Em; [cbn in Hpos; lia|]. by exists ch, c, msg, q.
Qed.

(** Stores outside a channel keep it. *)
Lemma vrep_writes R g p c m m' t pt q :
  vrep g p c m t pt q -> writes R m m' -> Forall (fun r => apart R r.1 r.2) (vregions g) -> vrep g p c m' t pt q.
Proof.
  intros [Hx ????? Hb ??] W Hr. pose proof (vp_tokens _ _ _ (vx_producer _ _ _ _ Hx)) as Htb.
  pose proof (pb_sizes _ _ _ (vp_payload _ _ _ (vx_producer _ _ _ _ Hx))) as [? _]. pose proof (tb_sizes _ _ _ Htb).
  unfold vregions in Hr. repeat (apply Forall_cons in Hr as [? Hr]). cbn [fst snd] in *.
  split; try done; [by eapply vconnected_writes|by eapply cb_at_writes..| |].
  - by eapply holds_tokens_writes.
  - by eapply holds_payloads_writes.
Qed.

Lemma run_pop_vchan chs spscs m i ch c :
  Forall2 (vchan_ok m) chs spscs -> vchans_apart chs -> chs !! i = Some ch -> spscs !! i = Some c ->
  (0 < length (vch_messages ch))%nat ->
  exists m', run (VConsumer.pop c 1) m = Done tt m' /\ Forall2 (vchan_ok m') (alter pop_vchan i chs) spscs.
Proof.
  intros Hf Ha Hch Hc Hlen. pose proof (Forall2_lookup_lr _ _ _ _ _ _ Hf Hch Hc) as Hok.
  destruct (run_vpop (vch_geometry ch) (vch_producer ch) c m (vch_first ch) (vch_byte ch) (vch_messages ch) 1 Hok)
    as (m' & E & W & Hok'); [lia|].
  exists m'. split; [done|]. apply Forall2_same_length_lookup. split.
  { rewrite length_alter. by eapply Forall2_length. }
  intros j x y Hx Hy. destruct (decide (i = j)) as [<-|Hne].
  - rewrite list_lookup_alter_eq, Hch in Hx. injection Hx as <-. rewrite Hc in Hy. by injection Hy as <-.
  - rewrite list_lookup_alter_ne in Hx by done. eapply vrep_writes; [|exact W|by eapply Ha].
    exact (Forall2_lookup_lr _ _ _ _ _ _ Hf Hx Hy).
Qed.

Lemma vchans_apart_pop i chs : vchans_apart chs -> vchans_apart (alter pop_vchan i chs).
Proof.
  intros Ha j k a b Hne Hj Hk.
  assert (G : forall l x, alter pop_vchan i chs !! l = Some x ->
            exists y, chs !! l = Some y /\ vch_geometry y = vch_geometry x).
  { intros l x Hx. destruct (decide (i = l)) as [<-|Hd].
    - rewrite list_lookup_alter_eq in Hx. destruct (chs !! i) as [y|]; [|done]. injection Hx as <-. by exists y.
    - rewrite list_lookup_alter_ne in Hx by done. by exists x. }
  destruct (G _ _ Hj) as (a' & Hj' & <-), (G _ _ Hk) as (b' & Hk' & <-). by apply (Ha j k).
Qed.

(** ** Theorems *)

(** [peek] of the variable-size non-locking channel notices every message that
    has arrived; its assertions and consistency checks hold.  Without a message
    it throws; otherwise it returns the channel of the first entry of the helper
    queue and the start and the size of that channel's oldest message, whose
    bytes are there. *)
Theorem vnonlocking_peek_spec chs m o :
  vnonlocking_rep chs m o ->
  vnonlocking_rep chs m (vupdated chs o) /\
  match noticed (vsizes chs) (VNConsumer._channelPushes o) with
  | [] => run (VNConsumer.peek 0) (m, o) = Thrown runtime (m, vupdated chs o)
  | i :: _ => exists ch msg q start, chs !! i = Some ch /\ vch_messages ch = msg :: q /\
      run (VNConsumer.peek 0) (m, o) = Done (i, start, Z.of_nat (length msg)) (m, vupdated chs o) /\
      mem_load (heap m) (ptr_add (pbPtr (vPayload (vch_geometry ch))) start) (Z.of_nat (length msg)) = Some msg
  end.
Proof.
  intros Hr. destruct (run_vupdateDepth chs m o Hr) as (Eu & Hu & _). split; [done|].
  unfold VNConsumer.peek. erewrite run_bind_Done by (by apply run_throw_if_false).
  do 2 erewrite run_bind_Done by apply run_this.
  do 2 erewrite run_bind_Done by (apply run_on_fst_Done, flushReceived_ok).
  rewrite (run_bind_Done _ _ _ _ _ Eu). erewrite run_bind_Done by apply run_this.
  cbn [vupdated VNConsumer._channelPushes VNConsumer.set_depths VNConsumer.set_pushes].
  destruct (noticed (vsizes chs) (VNConsumer._channelPushes o)) as [|i rest] eqn:E; [done|].
  destruct (vnoticed_head _ _ _ _ _ Hr E) as (ch & c & msg & q & Hch & Hc & Hok & Em).
  unfold vchan_ok in Hok. rewrite Em in Hok.
  exists ch, msg, q, (vch_byte ch mod pbCapacity (vPayload (vch_geometry ch))). split_and!; [done..| |apply Hok].
  erewrite run_bind_Done by apply run_this.
  cbn [vupdated VNConsumer._spscList VNConsumer.set_depths VNConsumer.set_pushes]. rewrite Hc.
  do 2 erewrite run_bind_Done by (apply run_on_fst_Done; eapply run_vpeek; exact Hok). done.
Qed.

(** [pop] of one message removes the oldest message of the channel that is
    first in the helper queue and keeps the other channels; the representation
    is preserved.  When nothing is pending it throws. *)
Theorem vnonlocking_pop_spec chs m o :
  vnonlocking_rep chs m o ->
  match noticed (vsizes chs) (VNConsumer._channelPushes o) with
  | [] => run (VNConsumer.pop 1) (m, o) = Thrown runtime (m, vupdated chs o)
  | i :: rest => exists m' o', run (VNConsumer.pop 1) (m, o) = Done tt (m', o') /\
      VNConsumer._channelPushes o' = rest /\ vnonlocking_rep (alter pop_vchan i chs) m' o'
  end.
Proof.
  intros Hr. destruct (run_vupdateDepth chs m o Hr) as (Eu & Hu & Eg).
  unfold VNConsumer.pop. rewrite (run_bind_Done _ _ _ _ _ Eu), (run_bind_Done _ _ _ _ _ Eg).
  destruct (noticed (vsizes chs) (VNConsumer._channelPushes o)) as [|i rest] eqn:E; [done|]. cbn [length].
  case_bool; [lia|]. erewrite run_bind_Done by apply run_this.
  cbn [vupdated VNConsumer._channelPushes VNConsumer.set_depths VNConsumer.set_pushes]. rewrite E.
  destruct (vnoticed_head _ _ _ _ _ Hr E) as (ch & c & msg & q & Hch & Hc & Hok & Em).
  erewrite run_bind_Done by apply run_this.
  cbn [vupdated VNConsumer._spscList VNConsumer.set_depths VNConsumer.set_pushes]. rewrite Hc.
  destruct (run_pop_vchan chs _ m i ch c (vn_chans _ _ _ Hr) (vn_apart _ _ _ Hr) Hch Hc) as (m' & Ep & Hf);
    [rewrite Em; cbn; lia|].
  exists m', (VNConsumer.set_depths (alter (fun d => d -w 1) i (map Z.of_nat (vsizes chs))) (VNConsumer.set_pushes rest o)).
  split_and!.
  - change (Z.to_nat 1) with 1%nat. cbn [for_loop]. erewrite run_bind_Done; [done|].
    erewrite run_bind_Done by (apply run_on_fst_Done; exact Ep). erewrite run_bind_Done by apply run_set_this.
    erewrite run_bind_Done by apply run_this. unfold vupdated. rewrite E. cbn. done.
  - done.
  - split; [exact Hf|by apply vchans_apart_pop, Hr|]. rewrite vsizes_pop.
    exact (helper_pop _ _ _ (vn_helper _ _ _ Hr) _ _ E).
Qed.

End Facts.

(** ** A concrete consumer over the pthreads backend

    One producer, with the channel of [VDemo] and the message that ends in the
    excess buffer; the consumer has not noticed it yet. *)
Module VNDemo.

Definition chans : list vchan := [mkVChan VDemo.geom VDemo.producer 1 3 [[x0a; x0b]]].

Definition object (pushes : list nat) (depths : list Z) : VNConsumer.t :=
  VNConsumer.mk [VDemo.consumer] pushes depths 0 0.

(** Its constructor would have noticed it. *)
Example make_vnconsumer :
  run (VNConsumer.make 0 0 [16%nat] [15%nat] [2%nat] [3%nat] [10%nat] [11%nat] 4 2) VDemo.loaded =
  Done (object [0%nat] [1]) VDemo.loaded.
Proof. vm_compute. reflexivity. Qed.

Lemma vnonlocking_rep_demo : vnonlocking_rep chans VDemo.loaded (object [] [0]).
Proof.
  split.
  - constructor; [apply VDemo.vrep_loaded|constructor].
  - intros [|i] [|j] a b Hne Ha Hb; done.
  - split; [constructor|done| |done]. intros [|i] n Hi; [|done]. injection Hi as <-. vm_compute. lia.
Qed.

Lemma vnonlocking_peek_spec_witness :
  exists start, run (VNConsumer.peek 0) (VDemo.loaded, object [] [0]) =
    Done (0%nat, start, 2) (VDemo.loaded, object [0%nat] [1]) /\
    mem_load (heap VDemo.loaded) (Ptr 6 start) 2 = Some [x0a; x0b].
Proof.
  destruct (vnonlocking_peek_spec chans VDemo.loaded _ vnonlocking_rep_demo) as (_ & ch & msg & q & start & Hch & Hm & E & HL).
  injection Hch as <-. injection Hm as <- <-. by exists start.
Defined.

Lemma vnonlocking_pop_spec_witness :
  exists m' o', run (VNConsumer.pop 1) (VDemo.loaded, object [] [0]) = Done tt (m', o') /\
    VNConsumer._channelPushes o' = [] /\ vnonlocking_rep (alter pop_vchan 0%nat chans) m' o'.
Proof. exact (vnonlocking_pop_spec chans VDemo.loaded _ vnonlocking_rep_demo). Defined.

End VNDemo.
