(* ===== verification/Tasking.v ===== *)
(** * Execution states and tasks

    Models [core/executionState.hpp], [backends/boost/coroutine.hpp] with the
    execution states of [backends/boost] and [backends/pthreads], and
    [CallbackMap] and [Task] of [frontends/tasking].

    The code a task runs is a tree: it changes the world and suspends its own
    task.  A coroutine is suspended at a node of that tree.  The operations act
    on a pair, the world and the task. *)

From S2P Require Import Prelude.
From Stdlib Require Import ZArith Lia.
From stdpp Require Import base gmap countable option list.

Local Open Scope Z_scope.
Local Open Scope hicr_scope.

(** The body of a task: it ends, acts on the world and looks at what it was, or
    calls [suspend] on its task. *)
Inductive body (W : Type) : Type :=
| Return
| Act (f : W -> W) (k : W -> body W)
| Suspend (k : body W).

Arguments Return {W}.
Arguments Act {W} f k.
Arguments Suspend {W} k.

(** [ExecutionState::state_t]. *)
Module ExecutionState.

Inductive state_t : Type := uninitialized | initialized | running | suspended | finished.

#[global] Instance state_t_eq_dec : EqDecision state_t.
Proof. solve_decision. Defined.

(** The state that [core] keeps, and what the backend keeps. *)
Record t (I : Type) : Type := mk { _state : state_t; impl : I }.
Arguments mk {I} _ _.
Arguments _state {I} _.
Arguments impl {I} _.

Definition make {I : Type} (i : I) : t I := mk initialized i.

Definition set_state {I : Type} (s : state_t) (e : t I) : t I := mk s (impl e).

Definition set_impl {I : Type} (f : I -> I) (e : t I) : t I := mk (_state e) (f (impl e)).

End ExecutionState.

(** ** [CallbackMap] *)

Module CallbackMap.
Section Callbacks.
Context {T E S : Type} `{Countable E}.

Definition t : Type := gmap E (T -> prog S unit).

Definition clear (m : t) : t := ∅.

Definition removeCallback (callback : E) (m : t) : t := delete callback m.

Definition setCallback (callback : E) (fc : T -> prog S unit) (m : t) : t := <[callback := fc]> m.

Definition isCallbackSet (callback : E) (m : t) : bool := bool_decide (is_Some (m !! callback)).

Definition trigger (arg : T) (callback : E) (m : t) : prog S unit :=
  if isCallbackSet callback m
  then match m !! callback with Some fc => fc arg | None => Raise out_of_range end
  else mret tt.

End Callbacks.

Arguments t T E S {_ _}.

End CallbackMap.

(** ** [Task] *)

Module Task.

Inductive callback_t : Type := onTaskExecute | onTaskSuspend | onTaskFinish | onTaskSync.

#[global] Instance callback_t_eq_dec : EqDecision callback_t.
Proof. solve_decision. Defined.

#[global] Instance callback_t_countable : Countable callback_t.
Proof.
  refine (inj_countable'
    (fun c => match c with onTaskExecute => 0 | onTaskSuspend => 1 | onTaskFinish => 2 | onTaskSync => 3 end%nat)
    (fun n => match n with 0 => onTaskExecute | 1 => onTaskSuspend | 2 => onTaskFinish | _ => onTaskSync end%nat) _).
  by intros [].
Defined.

(** Callbacks get the task ([Task *], a number) and act on the world. *)
Record t (W I : Type) : Type := mk {
  _executionUnit : body W;
  _callbackMap : option (CallbackMap.t nat callback_t W);
  _executionState : option (ExecutionState.t I)
}.
Arguments mk {W I} _ _ _.
Arguments _executionUnit {W I} _.
Arguments _callbackMap {W I} _.
Arguments _executionState {W I} _.

Definition make {W I : Type} (executionUnit : body W) (callbackMap : option (CallbackMap.t nat callback_t W)) : t W I :=
  mk executionUnit callbackMap None.

Definition setCallbackMap {W I : Type} (cm : option (CallbackMap.t nat callback_t W)) (k : t W I) : t W I :=
  mk (_executionUnit k) cm (_executionState k).

Definition getCallbackMap {W I : Type} (k : t W I) : option (CallbackMap.t nat callback_t W) := _callbackMap k.

Definition setExecutionUnit {W I : Type} (e : body W) (k : t W I) : t W I :=
  mk e (_callbackMap k) (_executionState k).

Definition getExecutionUnit {W I : Type} (k : t W I) : body W := _executionUnit k.

Definition set_exec {W I : Type} (e : option (ExecutionState.t I)) (k : t W I) : t W I :=
  mk (_executionUnit k) (_callbackMap k) e.

Definition getState {W I : Type} (k : t W I) : ExecutionState.state_t :=
  match _executionState k with
  | None => ExecutionState.uninitialized
  | Some e => ExecutionState._state e
  end.

End Task.

(** ** The backend of an execution state

    [resumeImpl] gets the [suspend] operation of the task, which the body calls. *)
Class ExecBackend (W I : Type) : Type := {
  createExecutionState : body W -> I;
  resumeImpl : prog (W * Task.t W I) unit -> prog (W * Task.t W I) unit;
  suspendImpl : prog (W * Task.t W I) unit;
  checkFinalizationImpl : I -> bool
}.

(** The execution state of the task; a null pointer is undefined behaviour. *)
Definition exec {W I : Type} : prog (W * Task.t W I) (ExecutionState.t I) :=
  fetch (fun st => Task._executionState st.2).

Definition update_exec {W I : Type} (f : ExecutionState.t I -> ExecutionState.t I) : prog (W * Task.t W I) unit :=
  update (fun st => e ← Task._executionState st.2; Some (st.1, Task.set_exec (Some (f e)) st.2)).

Module Exec.
Section Operations.
Context {W I : Type} {B : ExecBackend W I}.

Definition resume (suspend : prog (W * Task.t W I) unit) : prog (W * Task.t W I) unit :=
  e ← exec;
  _ ← throw_if (bool_decide (ExecutionState._state e <> ExecutionState.initialized /\
                             ExecutionState._state e <> ExecutionState.suspended)) runtime;
  _ ← update_exec (ExecutionState.set_state ExecutionState.running);
  resumeImpl suspend.

Definition suspend : prog (W * Task.t W I) unit :=
  e ← exec;
  _ ← throw_if (bool_decide (ExecutionState._state e <> ExecutionState.running)) runtime;
  _ ← update_exec (ExecutionState.set_state ExecutionState.suspended);
  suspendImpl.

Definition checkFinalization : prog (W * Task.t W I) bool :=
  e ← exec;
  let isFinished := checkFinalizationImpl (ExecutionState.impl e) in
  _ ← (if isFinished then update_exec (ExecutionState.set_state ExecutionState.finished) else mret tt);
  mret isFinished.

End Operations.
End Exec.

Module TaskOps.
Section Operations.
Context {W I : Type} {B : ExecBackend W I}.

(** [if (_callbackMap != nullptr) _callbackMap->trigger(this, c)]. *)
Definition notify (self : nat) (c : Task.callback_t) : prog (W * Task.t W I) unit :=
  cm ← this Task._callbackMap;
  match cm with
  | None => mret tt
  | Some cm => on_fst (CallbackMap.trigger self c cm)
  end.

(** The pointer is not checked here. *)
Definition sendSyncSignal (self : nat) : prog (W * Task.t W I) unit :=
  cm ← this Task._callbackMap;
  match cm with
  | None => Crash undefined
  | Some cm => on_fst (CallbackMap.trigger self Task.onTaskSync cm)
  end.

Definition initialize (executionState : ExecutionState.t I) : prog (W * Task.t W I) unit :=
  state ← this Task.getState;
  _ ← throw_if (bool_decide (state <> ExecutionState.uninitialized)) logic;
  set_this (Task.set_exec (Some executionState)).

Definition suspend : prog (W * Task.t W I) unit :=
  state ← this Task.getState;
  _ ← throw_if (bool_decide (state <> ExecutionState.running)) runtime;
  Exec.suspend.

Definition run (self : nat) : prog (W * Task.t W I) unit :=
  state ← this Task.getState;
  _ ← throw_if (bool_decide (state <> ExecutionState.initialized /\ state <> ExecutionState.suspended)) runtime;
  _ ← notify self Task.onTaskExecute;
  _ ← Exec.resume suspend;
  isFinished ← Exec.checkFinalization;
  state ← this Task.getState;
  _ ← throw_if (bool_decide (state <> ExecutionState.suspended /\ state <> ExecutionState.finished)) runtime;
  _ ← (if bool_decide (state = ExecutionState.suspended) then notify self Task.onTaskSuspend else mret tt);
  if bool_decide (state = ExecutionState.finished) then notify self Task.onTaskFinish else mret tt.

End Operations.
End TaskOps.

(** ** The boost backend: coroutines *)

Module Coroutine.

(** [_context] is where the coroutine goes on when it is resumed. *)
Record t (W : Type) : Type := mk { _hasFinished : bool; _runningContext : bool; _context : body W }.
Arguments mk {W} _ _ _.
Arguments _hasFinished {W} _.
Arguments _runningContext {W} _.
Arguments _context {W} _.

Section Operations.
Context {W : Type}.

Definition update_coroutine (f : t W -> t W) : prog (W * Task.t W (t W)) unit := update_exec (ExecutionState.set_impl f).

(** The coroutine after a [yield]; [None] when one of its checks throws. *)
Definition yielded (c : t W) : option (t W) :=
  if _hasFinished c then None else
  if negb (_runningContext c) then None else Some (mk (_hasFinished c) false (_context c)).

(** The flag is set, [callcc] enters the coroutine, and that yields at once. *)
Definition start (fc : body W) : t W :=
  let c := mk false true fc in default c (yielded c).

Definition yield : prog (W * Task.t W (t W)) unit :=
  e ← exec;
  match yielded (ExecutionState.impl e) with
  | None => Raise runtime
  | Some c => update_coroutine (fun _ => c)
  end.

(** The context switch: the function runs until it yields or ends; it hands back
    where it goes on.  An exception that leaves it terminates the program. *)
Fixpoint switch (suspend : prog (W * Task.t W (t W)) unit) (b : body W) : prog (W * Task.t W (t W)) (option (body W)) :=
  match b with
  | Return => mret None
  | Act f k => w ← on_fst (Step f Ret); switch suspend (k w)
  | Suspend k => _ ← suspend; mret (Some k)
  end.

Definition resume (suspend : prog (W * Task.t W (t W)) unit) : prog (W * Task.t W (t W)) unit :=
  e ← exec;
  _ ← throw_if (_hasFinished (ExecutionState.impl e)) runtime;
  _ ← throw_if (_runningContext (ExecutionState.impl e)) runtime;
  _ ← update_coroutine (fun c => mk (_hasFinished c) true (_context c));
  next ← noexcept (switch suspend (_context (ExecutionState.impl e)));
  match next with
  | Some k => update_coroutine (fun c => mk (_hasFinished c) (_runningContext c) k)
  | None => update_coroutine (fun c => mk true false Return)
  end.

Definition hasFinished (c : t W) : bool := _hasFinished c.

End Operations.
End Coroutine.

#[global] Instance boost_exec (W : Type) : ExecBackend W (Coroutine.t W) := {
  createExecutionState := Coroutine.start;
  resumeImpl := Coroutine.resume;
  suspendImpl := Coroutine.yield;
  checkFinalizationImpl := Coroutine.hasFinished
}.

(** ** The pthreads backend: functions that run to completion *)

Module PthreadsExecutionState.

Record t (W : Type) : Type := mk { _fc : body W; _hasFinished : bool }.
Arguments mk {W} _ _.
Arguments _fc {W} _.
Arguments _hasFinished {W} _.

Section Operations.
Context {W : Type}.

(** [_fc(_argument)]. *)
Fixpoint call (suspend : prog (W * Task.t W (t W)) unit) (b : body W) : prog (W * Task.t W (t W)) unit :=
  match b with
  | Return => mret tt
  | Act f k => w ← on_fst (Step f Ret); call suspend (k w)
  | Suspend k => _ ← suspend; call suspend k
  end.

Definition resumeImpl (suspend : prog (W * Task.t W (t W)) unit) : prog (W * Task.t W (t W)) unit :=
  e ← exec;
  _ ← call suspend (_fc (ExecutionState.impl e));
  update_exec (ExecutionState.set_impl (fun i => mk (_fc i) true)).

Definition suspendImpl : prog (W * Task.t W (t W)) unit := Raise logic.

Definition checkFinalizationImpl (i : t W) : bool := _hasFinished i.

End Operations.
End PthreadsExecutionState.

#[global] Instance pthreads_exec (W : Type) : ExecBackend W (PthreadsExecutionState.t W) := {
  createExecutionState := fun fc => PthreadsExecutionState.mk fc false;
  resumeImpl := PthreadsExecutionState.resumeImpl;
  suspendImpl := PthreadsExecutionState.suspendImpl;
  checkFinalizationImpl := PthreadsExecutionState.checkFinalizationImpl
}.
