(* ===== verification/TaskingSpec.v ===== *)
(** * Behaviour of tasks

    A task over coroutines runs its body piece by piece, one piece per [run],
    with the same effect as the uninterrupted body, and ends after one run more
    than it suspends; every other call is refused.  A task over the pthreads
    execution states runs to completion in one go, or throws at its first
    suspension. *)

From S2P Require Import Prelude Tasking.
From Stdlib Require Import ZArith Lia.
From stdpp Require Import base gmap option list.

Local Open Scope Z_scope.
Local Open Scope hicr_scope.

(** ** The body on its own *)

Section Bodies.
Context {W : Type}.

(** One piece: up to the next suspension or the end. *)
Fixpoint segment (b : body W) (w : W) : W * option (body W) :=
  match b with
  | Return => (w, None)
  | Act f k => segment (k w) (f w)
  | Suspend k => (w, Some k)
  end.

(** The effect of the whole body, suspensions ignored, and how many it has. *)
Fixpoint complete (b : body W) (w : W) : W :=
  match b with
  | Return => w
  | Act f k => complete (k w) (f w)
  | Suspend k => complete k w
  end.

Fixpoint suspensions (b : body W) (w : W) : nat :=
  match b with
  | Return => 0
  | Act f k => suspensions (k w) (f w)
  | Suspend k => S (suspensions k w)
  end.

Lemma segment_spec b w :
  complete b w = match (segment b w).2 with Some k => complete k (segment b w).1 | None => (segment b w).1 end /\
  suspensions b w = match (segment b w).2 with Some k => S (suspensions k (segment b w).1) | None => 0%nat end.
Proof. revert w. induction b as [|f k IH|k IH]; intros w; cbn; [done|apply IH|done]. Qed.

End Bodies.

Section Spec.
Context {W : Type}.

(** What the callbacks of a task do to the world. *)
Definition notifies (cm : option (CallbackMap.t nat Task.callback_t W)) (self : nat) (eff : Task.callback_t -> W -> W) : Prop :=
  match cm with
  | None => forall c w, eff c w = w
  | Some m => forall c w, run (CallbackMap.trigger self c m) w = Done tt (eff c w)
  end.

Lemma run_notify {I : Type} (cm : option (CallbackMap.t nat Task.callback_t W)) self eff c w u (e : option (ExecutionState.t I)) :
  notifies cm self eff ->
  run (TaskOps.notify self c) (w, Task.mk u cm e) = Done tt (eff c w, Task.mk u cm e).
Proof.
  intros Hn. unfold TaskOps.notify. rewrite (run_bind_Done _ _ _ _ _ (run_this _ w _)). cbn [Task._callbackMap].
  destruct cm as [m|]; cbn in Hn; [by apply run_on_fst_Done|]. by rewrite Hn.
Qed.

Lemma run_exec {I : Type} w u (cm : option (CallbackMap.t nat Task.callback_t W)) (e : ExecutionState.t I) :
  run exec (w, Task.mk u cm (Some e)) = Done e (w, Task.mk u cm (Some e)).
Proof. done. Qed.

Lemma run_update_exec {I : Type} f w u (cm : option (CallbackMap.t nat Task.callback_t W)) (e : ExecutionState.t I) :
  run (update_exec f) (w, Task.mk u cm (Some e)) = Done tt (w, Task.mk u cm (Some (f e))).
Proof. done. Qed.

(** ** Coroutines *)

(** A task over coroutines in the given state. *)
Definition boost_task (u : body W) (cm : option (CallbackMap.t nat Task.callback_t W)) (st : ExecutionState.state_t)
    (c : Coroutine.t W) : Task.t W (Coroutine.t W) :=
  Task.mk u cm (Some (ExecutionState.mk st c)).

(** The body runs up to its next suspension, which goes through all the checks. *)
Lemma run_switch u cm c0 b w :
  let '(w', next) := segment b w in
  run (Coroutine.switch TaskOps.suspend b) (w, boost_task u cm ExecutionState.running (Coroutine.mk false true c0)) =
  Done next (w', match next with
                 | Some _ => boost_task u cm ExecutionState.suspended (Coroutine.mk false false c0)
                 | None => boost_task u cm ExecutionState.running (Coroutine.mk false true c0)
                 end).
Proof.
  revert w. induction b as [|f k IH|k IH]; intros w; cbn [segment Coroutine.switch]; [done| |done].
  specialize (IH w (f w)). destruct (segment (k w) (f w)) as [w' next].
  by erewrite run_bind_Done by (apply run_on_fst_Done; done).
Qed.

Lemma run_resume_boost u cm st b w :
  st = ExecutionState.initialized \/ st = ExecutionState.suspended ->
  let '(w', next) := segment b w in
  run (Exec.resume TaskOps.suspend) (w, boost_task u cm st (Coroutine.mk false false b)) =
  Done tt (w', match next with
               | Some k => boost_task u cm ExecutionState.suspended (Coroutine.mk false false k)
               | None => boost_task u cm ExecutionState.running (Coroutine.mk true false Return)
               end).
Proof.
  intros Hst. pose proof (run_switch u cm b b w) as Hs. destruct (segment b w) as [w' next]. unfold Exec.resume, boost_task.
  rewrite (run_bind_Done _ _ _ _ _ (run_exec _ _ _ _)).
  erewrite run_bind_Done by (apply run_throw_if_false; rewrite bool_decide_false; [done|cbn; intros [? ?]; by destruct Hst]).
  rewrite (run_bind_Done _ _ _ _ _ (run_update_exec _ _ _ _ _)). cbn [resumeImpl boost_exec]. unfold Coroutine.resume.
  rewrite (run_bind_Done _ _ _ _ _ (run_exec _ _ _ _)).
  do 2 erewrite run_bind_Done by (by apply run_throw_if_false).
  unfold Coroutine.update_coroutine. rewrite (run_bind_Done _ _ _ _ _ (run_update_exec _ _ _ _ _)).
  erewrite run_bind_Done by (apply run_noexcept_Done; exact Hs).
  by destruct next.
Qed.

(** A run that the state allows. *)
Lemma run_task_boost u cm self eff st b w :
  notifies cm self eff -> st = ExecutionState.initialized \/ st = ExecutionState.suspended ->
  let '(w', next) := segment b (eff Task.onTaskExecute w) in
  run (TaskOps.run self) (w, boost_task u cm st (Coroutine.mk false false b)) =
  Done tt match next with
          | Some k => (eff Task.onTaskSuspend w', boost_task u cm ExecutionState.suspended (Coroutine.mk false false k))
          | None => (eff Task.onTaskFinish w', boost_task u cm ExecutionState.finished (Coroutine.mk true false Return))
          end.
Proof.
  intros Hn Hst. pose proof (run_resume_boost u cm st b (eff Task.onTaskExecute w) Hst) as Hr.
  destruct (segment b (eff Task.onTaskExecute w)) as [w' next].
  unfold TaskOps.run. rewrite (run_bind_Done _ _ _ _ _ (run_this _ w _)).
  erewrite run_bind_Done by (apply run_throw_if_false; rewrite bool_decide_false; [done|cbn; intros [? ?]; by destruct Hst]).
  unfold boost_task in *. rewrite (run_bind_Done _ _ _ _ _ (run_notify _ _ _ _ _ _ _ Hn)).
  rewrite (run_bind_Done _ _ _ _ _ Hr). unfold Exec.checkFinalization. rewrite run_bind_assoc.
  destruct next as [k|]; (rewrite (run_bind_Done _ _ _ _ _ (run_exec _ _ _ _)); cbv zeta; cbn [checkFinalizationImpl boost_exec]).
  - do 3 erewrite run_bind_Done by done.
    by erewrite run_bind_Done by exact (run_notify _ _ _ Task.onTaskSuspend _ _ _ Hn).
  - rewrite run_bind_assoc. erewrite run_bind_Done by apply run_update_exec.
    do 4 erewrite run_bind_Done by done. exact (run_notify _ _ _ Task.onTaskFinish _ _ _ Hn).
Qed.

Lemma run_task_refused {I : Type} {B : ExecBackend W I} self w (k : Task.t W I) :
  Task.getState k <> ExecutionState.initialized -> Task.getState k <> ExecutionState.suspended ->
  run (TaskOps.run self) (w, k) = Thrown runtime (w, k).
Proof.
  intros H1 H2. unfold TaskOps.run. rewrite (run_bind_Done _ _ _ _ _ (run_this _ w _)).
  rewrite run_bind, run_throw_if_true; [done|]. by rewrite bool_decide_true.
Qed.

(** [n] runs in a row. *)
Fixpoint run_times {I : Type} {B : ExecBackend W I} (self n : nat) : prog (W * Task.t W I) unit :=
  match n with
  | O => mret tt
  | S n' => _ ← TaskOps.run self; run_times self n'
  end.

Lemma run_all_segments u self : forall n st b w,
  st = ExecutionState.initialized \/ st = ExecutionState.suspended -> suspensions b w = n ->
  run (run_times self (S n)) (w, boost_task u None st (Coroutine.mk false false b)) =
    Done tt (complete b w, boost_task u None ExecutionState.finished (Coroutine.mk true false Return)) /\
  forall i, (0 < i <= n)%nat -> exists w' k,
    run (run_times self i) (w, boost_task u None st (Coroutine.mk false false b)) =
    Done tt (w', boost_task u None ExecutionState.suspended (Coroutine.mk false false k)).
Proof.
  induction n as [|n IH]; intros st b w Hst Hn; destruct (segment_spec b w) as [Hc Hs];
    pose proof (run_task_boost u None self (fun _ w => w) st b w ltac:(done) Hst) as Hr;
    destruct (segment b w) as [w' next] eqn:Es; cbn [fst snd] in *; destruct next as [k|]; try lia; rewrite Hn in Hs.
  - split; [|lia]. cbn [run_times]. by rewrite (run_bind_Done _ _ _ _ _ Hr), Hc.
  - destruct (IH ExecutionState.suspended k w') as [Hf Hi]; [by right|lia|]. split.
    + cbn [run_times] in *. by rewrite (run_bind_Done _ _ _ _ _ Hr), Hc.
    + intros [|[|i]] Hb; [lia|exists w', k; cbn [run_times]; by rewrite (run_bind_Done _ _ _ _ _ Hr)|].
      destruct (Hi (S i)) as (w2 & k2 & E2); [lia|]. exists w2, k2. cbn [run_times] in *. by rewrite (run_bind_Done _ _ _ _ _ Hr).
Qed.

(** ** Functions that run to completion *)

Definition pthreads_task (u : body W) (st : ExecutionState.state_t) (b : body W) (fin : bool) :
    Task.t W (PthreadsExecutionState.t W) :=
  Task.mk u None (Some (ExecutionState.mk st (PthreadsExecutionState.mk b fin))).

(** The function runs to its end when it does not suspend, and throws at its
    first suspension. *)
Lemma run_call u f fin b w :
  let '(w', next) := segment b w in
  run (PthreadsExecutionState.call TaskOps.suspend b) (w, pthreads_task u ExecutionState.running f fin) =
  match next with
  | None => Done tt (w', pthreads_task u ExecutionState.running f fin)
  | Some _ => Thrown logic (w', pthreads_task u ExecutionState.suspended f fin)
  end.
Proof.
  revert w. induction b as [|g k IH|k IH]; intros w; cbn [segment PthreadsExecutionState.call]; [done| |done].
  specialize (IH w (g w)). destruct (segment (k w) (g w)) as [w' next].
  by erewrite run_bind_Done by (apply run_on_fst_Done; done).
Qed.

(** ** Theorems *)

(** [run] of a task over coroutines.  An initialized or suspended task
    notifies that it executes, runs its body up to the next suspension or the
    end, becomes suspended there or finished, and notifies that; a task in any
    other state is refused with an exception and nothing changes. *)
Theorem task_run_spec u cm self eff st b w :
  notifies cm self eff ->
  let '(w', next) := segment b (eff Task.onTaskExecute w) in
  ((st = ExecutionState.initialized \/ st = ExecutionState.suspended) ->
   run (TaskOps.run self) (w, boost_task u cm st (Coroutine.mk false false b)) =
   Done tt match next with
           | Some k => (eff Task.onTaskSuspend w', boost_task u cm ExecutionState.suspended (Coroutine.mk false false k))
           | None => (eff Task.onTaskFinish w', boost_task u cm ExecutionState.finished (Coroutine.mk true false Return))
           end) /\
  (forall c, st <> ExecutionState.initialized -> st <> ExecutionState.suspended ->
   run (TaskOps.run self) (w, boost_task u cm st c) = Thrown runtime (w, boost_task u cm st c)).
Proof.
  intros Hn. pose proof (run_task_boost u cm self eff st b w Hn) as Hr.
  destruct (segment b (eff Task.onTaskExecute w)) as [w' next]. split; [exact Hr|]. intros c ??. by apply run_task_refused.
Qed.

(** C8: a new task over coroutines, initialized with an execution state for its
    body, finishes after one run more than the body suspends, with the effect of
    the uninterrupted body; after every earlier run it is suspended, and after
    the last one it cannot be run, nor initialized, again. *)
Theorem task_completes (b : body W) self w :
  exists k0 kn : Task.t W (Coroutine.t W),
    run (TaskOps.initialize (ExecutionState.make (createExecutionState b))) (w, Task.make b None) = Done tt (w, k0) /\
    run (run_times self (S (suspensions b w))) (w, k0) = Done tt (complete b w, kn) /\
    Task.getState kn = ExecutionState.finished /\
    run (TaskOps.run self) (complete b w, kn) = Thrown runtime (complete b w, kn) /\
    (forall e, run (TaskOps.initialize e) (complete b w, kn) = Thrown logic (complete b w, kn)) /\
    forall i, (0 < i <= suspensions b w)%nat -> exists w' k',
      run (run_times self i) (w, k0) = Done tt (w', k') /\ Task.getState k' = ExecutionState.suspended.
Proof.
  destruct (run_all_segments b self (suspensions b w) ExecutionState.initialized b w) as [Hf Hi]; [by left|done|].
  exists (boost_task b None ExecutionState.initialized (Coroutine.mk false false b)),
    (boost_task b None ExecutionState.finished (Coroutine.mk true false Return)).
  split_and!; [done|exact Hf|done|by apply run_task_refused|done|].
  intros i Hb. destruct (Hi i Hb) as (w' & k & E). eexists w', _. split; [exact E|done].
Qed.

(** A task over the pthreads execution states whose body does not suspend
    finishes in one run with the effect of its body.  If the body suspends, the
    run throws at the first suspension, the task is nevertheless left in the
    suspended state, and the next run starts the body again from its beginning. *)
Theorem pthreads_task_spec u self b w :
  let k0 := pthreads_task u ExecutionState.initialized b false in
  let '(w', next) := segment b w in
  match next with
  | None => run (TaskOps.run self) (w, k0) = Done tt (complete b w, pthreads_task u ExecutionState.finished b true)
  | Some _ => exists k1, run (TaskOps.run self) (w, k0) = Thrown logic (w', k1) /\
      Task.getState k1 = ExecutionState.suspended /\
      forall v, run (TaskOps.run self) (v, k1) =
        match segment b v with
        | (v', Some _) => Thrown logic (v', k1)
        | (v', None) => Done tt (v', pthreads_task u ExecutionState.finished b true)
        end
  end.
Proof.
  assert (Hrun : forall st v, st = ExecutionState.initialized \/ st = ExecutionState.suspended ->
    run (TaskOps.run self) (v, pthreads_task u st b false) =
    match segment b v with
    | (v', Some _) => Thrown logic (v', pthreads_task u ExecutionState.suspended b false)
    | (v', None) => Done tt (v', pthreads_task u ExecutionState.finished b true)
    end).
  { intros st v Hst. pose proof (run_call u b false b v) as Hc. destruct (segment b v) as [v' next].
    assert (Hd : bool_decide (st <> ExecutionState.initialized /\ st <> ExecutionState.suspended) = false)
      by (apply bool_decide_false; intros [? ?]; by destruct Hst).
    unfold TaskOps.run. rewrite (run_bind_Done _ _ _ _ _ (run_this _ v _)).
    erewrite run_bind_Done by (by apply run_throw_if_false). erewrite run_bind_Done by done.
    unfold Exec.resume. rewrite run_bind_assoc. erewrite run_bind_Done by done. rewrite run_bind_assoc.
    erewrite run_bind_Done by (by apply run_throw_if_false). rewrite run_bind_assoc.
    erewrite run_bind_Done by apply run_update_exec. cbn [resumeImpl pthreads_exec].
    unfold PthreadsExecutionState.resumeImpl. rewrite run_bind_assoc. erewrite run_bind_Done by apply run_exec.
    rewrite run_bind_assoc. destruct next as [k|].
    - rewrite run_bind. change (ExecutionState.set_state _ _) with (ExecutionState.mk ExecutionState.running (PthreadsExecutionState.mk b false)).
      cbn [ExecutionState.impl PthreadsExecutionState._fc]. unfold pthreads_task in Hc. by rewrite Hc.
    - rewrite (run_bind_Done _ _ _ _ _ Hc). done. }
  cbv zeta. pose proof (Hrun ExecutionState.initialized w ltac:(by left)) as H0. destruct (segment_spec b w) as [Hc _].
  destruct (segment b w) as [w' next]. destruct next as [k|].
  - exists (pthreads_task u ExecutionState.suspended b false). split_and!; [exact H0|done|]. intros v. apply Hrun. by right.
  - cbn in Hc. by rewrite Hc.
Qed.

End Spec.

(** ** A concrete task *)

Module TaskDemo.

(** It adds 1, suspends, doubles, suspends, and adds what it sees. *)
Definition work : body Z :=
  Act (fun w => w + 1) (fun _ => Suspend (Act (fun w => 2 * w) (fun _ => Suspend (Act (fun w => w + w) (fun _ => Return))))).

(** Callbacks that count tens on execution and hundreds on suspension. *)
Definition callbacks : CallbackMap.t nat Task.callback_t Z :=
  CallbackMap.setCallback Task.onTaskExecute (fun _ => modify (fun w => w + 10))
    (CallbackMap.setCallback Task.onTaskSuspend (fun _ => modify (fun w => w + 100)) ∅).

Definition effect (c : Task.callback_t) (w : Z) : Z :=
  match c with Task.onTaskExecute => w + 10 | Task.onTaskSuspend => w + 100 | _ => w end.

Lemma task_run_spec_witness :
  (ExecutionState.initialized = ExecutionState.initialized \/ ExecutionState.initialized = ExecutionState.suspended ->
   run (TaskOps.run 5) (0, boost_task work (Some callbacks) ExecutionState.initialized (Coroutine.mk false false work)) =
   Done tt (111, boost_task work (Some callbacks) ExecutionState.suspended
                   (Coroutine.mk false false (Act (fun w => 2 * w) (fun _ => Suspend (Act (fun w => w + w) (fun _ => Return))))))) /\
  (forall c, ExecutionState.initialized <> ExecutionState.initialized -> ExecutionState.initialized <> ExecutionState.suspended ->
   run (TaskOps.run 5) (0, boost_task work (Some callbacks) ExecutionState.initialized c) =
   Thrown runtime (0, boost_task work (Some callbacks) ExecutionState.initialized c)).
Proof.
  refine (task_run_spec work (Some callbacks) 5 effect ExecutionState.initialized work 0 _). by intros [] w.
Defined.

Example work_completes : complete work 3 = 16 /\ suspensions work 3 = 2%nat.
Proof. done. Qed.

End TaskDemo.
