(* ===== verification/Compute.v ===== *)
(** * Processing units and compute managers

    Models [core/processingUnit.hpp] and the non-virtual operations of
    [core/computeManager.hpp]; the virtual ones are the fields of the class
    [ComputeBackend].  The pthreads backend ([backends/pthreads/computeManager.hpp]
    and [processingUnit.hpp]) implements them over a table of threads;
    the boost one refuses all of them. *)

From S2P Require Import Prelude.
From Stdlib Require Import ZArith Lia.
From stdpp Require Import base gmap option list.

Local Open Scope Z_scope.
Local Open Scope hicr_scope.

Module ProcessingUnit.

Inductive state_t : Type := uninitialized | ready | running | suspended | terminating | terminated.

#[global] Instance state_t_eq_dec : EqDecision state_t.
Proof. solve_decision. Defined.

(** [_computeResource] is the identifier of the resource, [impl] what the
    derived class adds. *)
Record t (P : Type) : Type := mk { _state : state_t; _computeResource : nat; impl : P }.
Arguments mk {P} _ _ _.
Arguments _state {P} _.
Arguments _computeResource {P} _.
Arguments impl {P} _.

Definition make {P : Type} (computeResource : nat) (p : P) : t P := mk uninitialized computeResource p.

Definition getState {P : Type} (u : t P) : state_t := _state u.

Definition getComputeResource {P : Type} (u : t P) : nat := _computeResource u.

Definition setState {P : Type} (s : state_t) (u : t P) : t P := mk s (_computeResource u) (impl u).

Definition set_impl {P : Type} (f : P -> P) (u : t P) : t P := mk (_state u) (_computeResource u) (f (impl u)).

End ProcessingUnit.

(** The operations act on the operating system's state and the unit. *)
Class ComputeBackend (O P E : Type) : Type := {
  initializeImpl : prog (O * ProcessingUnit.t P) unit;
  startImpl : E -> prog (O * ProcessingUnit.t P) unit;
  suspendImpl : prog (O * ProcessingUnit.t P) unit;
  resumeImpl : prog (O * ProcessingUnit.t P) unit;
  terminateImpl : prog (O * ProcessingUnit.t P) unit;
  awaitImpl : prog (O * ProcessingUnit.t P) unit
}.

Arguments initializeImpl {O P} E {_}.
Arguments suspendImpl {O P} E {_}.
Arguments resumeImpl {O P} E {_}.
Arguments terminateImpl {O P} E {_}.
Arguments awaitImpl {O P} E {_}.

Module ComputeManager.
Section Operations.
Context {O P : Type} (E : Type) {B : ComputeBackend O P E}.
Import ProcessingUnit.

Definition initialize : prog (O * ProcessingUnit.t P) unit :=
  state ← this getState;
  _ ← throw_if (bool_decide (state <> uninitialized /\ state <> terminated)) runtime;
  _ ← initializeImpl E;
  set_this (setState ready).

Definition start (executionState : E) : prog (O * ProcessingUnit.t P) unit :=
  state ← this getState;
  _ ← throw_if (bool_decide (state <> ready)) runtime;
  _ ← set_this (setState running);
  startImpl executionState.

Definition suspend : prog (O * ProcessingUnit.t P) unit :=
  state ← this getState;
  _ ← throw_if (bool_decide (state <> running)) runtime;
  _ ← set_this (setState suspended);
  suspendImpl E.

Definition resume : prog (O * ProcessingUnit.t P) unit :=
  state ← this getState;
  _ ← throw_if (bool_decide (state <> suspended)) runtime;
  _ ← set_this (setState running);
  resumeImpl E.

Definition terminate : prog (O * ProcessingUnit.t P) unit :=
  _ ← set_this (setState terminating);
  terminateImpl E.

(** A unit that is not working is not waited for. *)
Definition await : prog (O * ProcessingUnit.t P) unit :=
  state ← this getState;
  if bool_decide (state <> terminating /\ state <> running /\ state <> suspended) then mret tt else
  _ ← awaitImpl E;
  set_this (setState terminated).

End Operations.
End ComputeManager.

(** ** The pthreads backend *)

Module PthreadsProcessingUnit.

(** What the operating system knows of a thread. *)
Inductive thread_t : Type := Running | Stopped | Exited.

#[global] Instance thread_t_eq_dec : EqDecision thread_t.
Proof. solve_decision. Defined.

(** [can_create] tells whether [pthread_create] succeeds. *)
Record os_t : Type := mkOs { threads : gmap nat thread_t; can_create : bool }.

Definition set_threads (ts : gmap nat thread_t) (o : os_t) : os_t := mkOs ts (can_create o).

(** The thread, and the execution state it runs. *)
Record t (E : Type) : Type := mk { _pthreadId : option nat; _executionState : option E }.
Arguments mk {E} _ _.
Arguments _pthreadId {E} _.
Arguments _executionState {E} _.

Section Operations.
Context {E : Type}.

Definition initialize : prog (os_t * ProcessingUnit.t (t E)) unit := mret tt.

(** [pthread_kill]; a signal to a thread that was never created or that is gone
    is undefined behaviour. *)
Definition pthread_kill (f : thread_t -> thread_t) : prog (os_t * ProcessingUnit.t (t E)) unit :=
  update (fun st => id ← _pthreadId (ProcessingUnit.impl st.2);
                    s ← threads st.1 !! id;
                    if bool_decide (s = Exited) then None
                    else Some (set_threads (<[id := f s]> (threads st.1)) st.1, st.2)).

(** The handler of the suspend signal waits for the resume signal. *)
Definition suspend : prog (os_t * ProcessingUnit.t (t E)) unit := pthread_kill (fun _ => Stopped).

Definition resume : prog (os_t * ProcessingUnit.t (t E)) unit := pthread_kill (fun _ => Running).

(** The thread and this one meet at the initialization barrier, so the new
    thread is running when [start] returns. *)
Definition start (executionState : E) : prog (os_t * ProcessingUnit.t (t E)) unit :=
  _ ← set_this (ProcessingUnit.set_impl (fun p => mk (_pthreadId p) (Some executionState)));
  created ← gets (fun st => can_create st.1);
  _ ← throw_if (negb created) runtime;
  Step (fun st => let id := fresh (dom (threads st.1)) in
          (set_threads (<[id := Running]> (threads st.1)) st.1,
           ProcessingUnit.set_impl (fun p => mk (Some id) (_executionState p)) st.2))
       (fun _ => Ret tt).

Definition terminate : prog (os_t * ProcessingUnit.t (t E)) unit := mret tt.

(** [pthread_join]: waits until the thread has ended. *)
Definition await : prog (os_t * ProcessingUnit.t (t E)) unit :=
  Await (fun st => match _pthreadId (ProcessingUnit.impl st.2) with
                   | Some id => bool_decide (threads st.1 !! id = Some Exited)
                   | None => false
                   end) (Ret tt).

End Operations.
End PthreadsProcessingUnit.

#[global] Instance pthreads_compute (E : Type) :
    ComputeBackend PthreadsProcessingUnit.os_t (PthreadsProcessingUnit.t E) E := {
  initializeImpl := PthreadsProcessingUnit.initialize;
  startImpl := PthreadsProcessingUnit.start;
  suspendImpl := PthreadsProcessingUnit.suspend;
  resumeImpl := PthreadsProcessingUnit.resume;
  terminateImpl := PthreadsProcessingUnit.terminate;
  awaitImpl := PthreadsProcessingUnit.await
}.

(** ** The boost compute manager, which has no processing units of its own *)

Module BoostComputeManager.

(** The body of its operations on processing units. *)
Definition not_implemented {S A : Type} : prog S A := Raise logic.

Definition boost_compute (O P E : Type) : ComputeBackend O P E := {|
  initializeImpl := not_implemented;
  startImpl := fun _ => not_implemented;
  suspendImpl := not_implemented;
  resumeImpl := not_implemented;
  terminateImpl := not_implemented;
  awaitImpl := not_implemented
|}.

End BoostComputeManager.

(** ** The life cycle *)

(** The transitions of a unit; [None] is a refused operation. *)
Inductive pu_op : Type := Initialize | Start | SuspendUnit | ResumeUnit | Terminate | AwaitEnd.

Definition pu_next (o : pu_op) (s : ProcessingUnit.state_t) : option ProcessingUnit.state_t :=
  match o, s with
  | Initialize, (ProcessingUnit.uninitialized | ProcessingUnit.terminated) => Some ProcessingUnit.ready
  | Start, ProcessingUnit.ready => Some ProcessingUnit.running
  | SuspendUnit, ProcessingUnit.running => Some ProcessingUnit.suspended
  | ResumeUnit, ProcessingUnit.suspended => Some ProcessingUnit.running
  | Terminate, _ => Some ProcessingUnit.terminating
  | AwaitEnd, (ProcessingUnit.terminating | ProcessingUnit.running | ProcessingUnit.suspended) => Some ProcessingUnit.terminated
  | AwaitEnd, s => Some s
  | _, _ => None
  end.

Section Lifecycle.
Context {O P E : Type} {B : ComputeBackend O P E}.

Definition pu_exec (e : E) (o : pu_op) : prog (O * ProcessingUnit.t P) unit :=
  match o with
  | Initialize => ComputeManager.initialize E
  | Start => ComputeManager.start E e
  | SuspendUnit => ComputeManager.suspend E
  | ResumeUnit => ComputeManager.resume E
  | Terminate => ComputeManager.terminate E
  | AwaitEnd => ComputeManager.await E
  end.

Definition pu_impl (e : E) (o : pu_op) : prog (O * ProcessingUnit.t P) unit :=
  match o with
  | Initialize => initializeImpl E
  | Start => startImpl e
  | SuspendUnit => suspendImpl E
  | ResumeUnit => resumeImpl E
  | Terminate => terminateImpl E
  | AwaitEnd => awaitImpl E
  end.

(** The backend's operations do not touch the state that the core keeps, whether they
    return, throw or block. *)
Definition impl_keeps_state : Prop :=
  forall e o s u,
    match run (pu_impl e o) (s, u) with
    | Done _ (_, u') | Thrown _ (_, u') | Blocked (_, u') => ProcessingUnit._state u' = ProcessingUnit._state u
    | Crashed _ _ => True
    end.

(** The state in which the backend's part of an operation runs: [initialize] and
    [await] store the next one afterwards, the others before. *)
Definition pu_during (o : pu_op) (st next : ProcessingUnit.state_t) : ProcessingUnit.state_t :=
  match o with Initialize | AwaitEnd => st | _ => next end.

(** Nobody waits for a unit that is not working. *)
Definition pu_idle (o : pu_op) (st : ProcessingUnit.state_t) : bool :=
  match o, st with
  | AwaitEnd, (ProcessingUnit.uninitialized | ProcessingUnit.ready | ProcessingUnit.terminated) => true
  | _, _ => false
  end.

(** What the backend's part of an operation makes of the operation. *)
Definition pu_result (o : pu_op) (st next : ProcessingUnit.state_t) (r : outcome (O * ProcessingUnit.t P) unit)
    (impl : outcome (O * ProcessingUnit.t P) unit) : Prop :=
  match impl with
  | Done _ (s', u') => r = Done tt (s', ProcessingUnit.setState next u')
  | Thrown x (s', u') => r = Thrown x (s', u') /\ ProcessingUnit._state u' = pu_during o st next
  | Blocked (s', u') => r = Blocked (s', u') /\ ProcessingUnit._state u' = pu_during o st next
  | Crashed c su => r = Crashed c su
  end.

Lemma setState_id (u : ProcessingUnit.t P) st : ProcessingUnit._state u = st -> ProcessingUnit.setState st u = u.
Proof. by destruct u as [? ? ?]; cbn; intros ->. Qed.

(** The next state is stored before the backend is called. *)
Lemma stored_before (e : E) (o : pu_op) (st next : ProcessingUnit.state_t) s (u : ProcessingUnit.t P) :
  impl_keeps_state -> pu_during o st next = next -> ProcessingUnit._state u = next ->
  pu_result o st next (run (pu_impl e o) (s, u)) (run (pu_impl e o) (s, u)).
Proof.
  intros Hk Hd Hu. specialize (Hk e o s u). unfold pu_result. rewrite Hd, <- Hu.
  destruct (run (pu_impl e o) (s, u)) as [[] [s' u']|x [s' u']|c su|[s' u']]; [|done..]. by rewrite setState_id.
Qed.

(** It is stored when the backend has returned. *)
Lemma stored_after (e : E) (o : pu_op) (st next : ProcessingUnit.state_t) s (u : ProcessingUnit.t P) :
  impl_keeps_state -> pu_during o st next = st -> ProcessingUnit._state u = st ->
  pu_result o st next (run (_ ← pu_impl e o; set_this (ProcessingUnit.setState next)) (s, u)) (run (pu_impl e o) (s, u)).
Proof.
  intros Hk Hd Hu. specialize (Hk e o s u). unfold pu_result. rewrite Hd, <- Hu, run_bind.
  by destruct (run (pu_impl e o) (s, u)) as [[] [s' u']|x [s' u']|c su|[s' u']].
Qed.

(** C27: the life cycle of a processing unit, over a backend whose operations leave the
    state kept by the core alone.  An operation that the state does not allow throws a
    runtime error and changes nothing, and waiting for a unit that does not work
    returns at once.  Otherwise the operation ends as the backend's part of it does: when
    that returns, the unit is in the next state of the diagram; when it throws, the
    unit has the next state all the same, except for [initialize] and [await], which
    leave it in the previous one. *)
Theorem processing_unit_lifecycle e o s u :
  impl_keeps_state ->
  let st := ProcessingUnit._state u in
  match pu_next o st with
  | None => run (pu_exec e o) (s, u) = Thrown runtime (s, u)
  | Some next =>
      if pu_idle o st then run (pu_exec e o) (s, u) = Done tt (s, u) /\ next = st
      else pu_result o st next (run (pu_exec e o) (s, u))
             (run (pu_impl e o) (s, ProcessingUnit.setState (pu_during o st next) u))
  end.
Proof.
  intros Hk. destruct u as [st r p]. destruct o, st; cbn [pu_next pu_idle ProcessingUnit._state]; cbv zeta; try (by split); try reflexivity.
  all: first [by apply stored_before|by apply stored_after].
Qed.

End Lifecycle.

(** With the boost compute manager no operation on a working unit succeeds.
    Nevertheless [start], [suspend], [resume] and [terminate] leave the unit in
    the state that they would have led to. *)
Lemma boost_refuses {O P E : Type} (e : E) (o : pu_op) (s : O) (u : ProcessingUnit.t P) :
  run (pu_exec (B := BoostComputeManager.boost_compute O P E) e o) (s, u) =
  match pu_next o (ProcessingUnit._state u) with
  | None => Thrown runtime (s, u)
  | Some next =>
      match o with
      | Initialize => Thrown logic (s, u)
      | AwaitEnd => if decide (next = ProcessingUnit._state u) then Done tt (s, u) else Thrown logic (s, u)
      | _ => Thrown logic (s, ProcessingUnit.setState next u)
      end
  end.
Proof. by destruct o, u as [[]]. Qed.


(** ** The pthreads backend keeps the core's state *)

Lemma pthreads_keeps_state (E : Type) :
  @impl_keeps_state PthreadsProcessingUnit.os_t (PthreadsProcessingUnit.t E) E _.
Proof.
  assert (Hkill : forall f s (u : ProcessingUnit.t (PthreadsProcessingUnit.t E)),
    match run (PthreadsProcessingUnit.pthread_kill f) (s, u) with
    | Done _ (_, u') | Thrown _ (_, u') | Blocked (_, u') => ProcessingUnit._state u' = ProcessingUnit._state u
    | Crashed _ _ => True
    end).
  { intros f s u. unfold PthreadsProcessingUnit.pthread_kill, update. cbn.
    destruct (PthreadsProcessingUnit._pthreadId _) as [id|]; [|done]. cbn. destruct (_ !! id) as [x|]; [|done]. cbn. by destruct (bool_decide _). }
  intros e o s u. destruct o; cbn [pu_impl]; try done; try apply Hkill.
  - cbn. by destruct (PthreadsProcessingUnit.can_create s).
  - cbn. by destruct (match _ with Some _ => _ | None => _ end).
Qed.

(** ** A unit over pthreads *)

Module ComputeDemo.

Definition unit_in (st : ProcessingUnit.state_t) (id : option nat) : ProcessingUnit.t (PthreadsProcessingUnit.t nat) :=
  ProcessingUnit.mk st 3 (PthreadsProcessingUnit.mk id (Some 7%nat)).

Definition os (ts : gmap nat PthreadsProcessingUnit.thread_t) : PthreadsProcessingUnit.os_t := PthreadsProcessingUnit.mkOs ts true.

(** It is initialized, started, suspended and resumed; waiting for it blocks
    until its thread has ended. *)
Example pthreads_unit_runs :
  run (_ ← pu_exec 7%nat Initialize; _ ← pu_exec 7%nat Start; _ ← pu_exec 7%nat SuspendUnit;
       _ ← pu_exec 7%nat ResumeUnit; pu_exec 7%nat Terminate)
    (os ∅, ProcessingUnit.make 3 (PthreadsProcessingUnit.mk None None)) =
  Done tt (os (<[0%nat := PthreadsProcessingUnit.Running]> ∅), unit_in ProcessingUnit.terminating (Some 0%nat)).
Proof. vm_compute. reflexivity. Qed.

Example pthreads_unit_await :
  run (pu_exec 7%nat AwaitEnd)
    (os (<[0%nat := PthreadsProcessingUnit.Exited]> ∅), unit_in ProcessingUnit.terminating (Some 0%nat)) =
  Done tt (os (<[0%nat := PthreadsProcessingUnit.Exited]> ∅), unit_in ProcessingUnit.terminated (Some 0%nat)).
Proof. vm_compute. reflexivity. Qed.

(** No thread can be created: [start] throws, and the unit is left running. *)
Definition full : PthreadsProcessingUnit.os_t := PthreadsProcessingUnit.mkOs ∅ false.

Lemma processing_unit_lifecycle_witness :
  run (pu_exec 7%nat SuspendUnit) (os ∅, unit_in ProcessingUnit.ready None) = Thrown runtime (os ∅, unit_in ProcessingUnit.ready None) /\
  run (pu_exec 7%nat Start) (full, unit_in ProcessingUnit.ready None) = Thrown runtime (full, unit_in ProcessingUnit.running None).
Proof.
  split.
  - exact (processing_unit_lifecycle 7%nat SuspendUnit (os ∅) (unit_in ProcessingUnit.ready None) (pthreads_keeps_state nat)).
  - exact (proj1 (processing_unit_lifecycle 7%nat Start full (unit_in ProcessingUnit.ready None) (pthreads_keeps_state nat))).
Defined.

End ComputeDemo.
