(* ===== verification/Worker.v ===== *)
(** * Workers

    Models [frontends/tasking/worker.hpp].  The state has the world that user
    code sees, the tasks, the operating system and the worker; the worker's
    main loop runs in its first processing unit while other threads call
    [suspend], [resume], [terminate] and [await].  Every access to the atomic
    [_state] is one step. *)

From S2P Require Import Prelude Concurrency Tasking Compute.
From Stdlib Require Import ZArith Lia.
From stdpp Require Import base gmap countable option list.

Local Open Scope Z_scope.
Local Open Scope hicr_scope.

Module Worker.

Inductive callback_t : Type := onWorkerStart | onWorkerTaskPulled | onWorkerSuspend | onWorkerResume | onWorkerTerminate.

#[global] Instance callback_t_eq_dec : EqDecision callback_t.
Proof. solve_decision. Defined.

#[global] Instance callback_t_countable : Countable callback_t.
Proof.
  refine (inj_countable'
    (fun c => match c with onWorkerStart => 0 | onWorkerTaskPulled => 1 | onWorkerSuspend => 2 | onWorkerResume => 3
                         | onWorkerTerminate => 4 end%nat)
    (fun n => match n with 0 => onWorkerStart | 1 => onWorkerTaskPulled | 2 => onWorkerSuspend | 3 => onWorkerResume
                         | _ => onWorkerTerminate end%nat) _).
  by intros [].
Defined.

Inductive state_t : Type :=
| uninitialized | ready | running | suspending | suspended | resuming | terminating | terminated.

#[global] Instance state_t_eq_dec : EqDecision state_t.
Proof. solve_decision. Defined.

Record t (W P : Type) : Type := mk {
  _state : state_t;
  _processingUnits : list (ProcessingUnit.t P);
  _currentTask : option nat;
  _callbackMap : option (CallbackMap.t nat callback_t W)
}.
Arguments mk {W P} _ _ _ _.
Arguments _state {W P} _.
Arguments _processingUnits {W P} _.
Arguments _currentTask {W P} _.
Arguments _callbackMap {W P} _.

Definition make {W P : Type} (callbackMap : option (CallbackMap.t nat callback_t W)) : t W P :=
  mk uninitialized [] None callbackMap.

Section Fields.
Context {W P : Type}.

Definition set_state (s : state_t) (w : t W P) : t W P := mk s (_processingUnits w) (_currentTask w) (_callbackMap w).

Definition set_units (us : list (ProcessingUnit.t P)) (w : t W P) : t W P :=
  mk (_state w) us (_currentTask w) (_callbackMap w).

Definition set_task (k : option nat) (w : t W P) : t W P := mk (_state w) (_processingUnits w) k (_callbackMap w).

Definition setCallbackMap (cm : option (CallbackMap.t nat callback_t W)) (w : t W P) : t W P :=
  mk (_state w) (_processingUnits w) (_currentTask w) cm.

Definition getCallbackMap (w : t W P) : option (CallbackMap.t nat callback_t W) := _callbackMap w.

Definition getCurrentTask (w : t W P) : option nat := _currentTask w.

Definition getState (w : t W P) : state_t := _state w.

Definition addProcessingUnit (pu : ProcessingUnit.t P) (w : t W P) : t W P := set_units (_processingUnits w ++ [pu]) w.

Definition getProcessingUnits (w : t W P) : list (ProcessingUnit.t P) := _processingUnits w.

End Fields.
End Worker.

(** The whole system: what user code sees, the tasks, the operating system, the worker. *)
Record sys (W I O P : Type) : Type := mkSys {
  world : W;
  tasks : gmap nat (Task.t W I);
  os : O;
  worker : Worker.t W P
}.
Arguments mkSys {W I O P} _ _ _ _.
Arguments world {W I O P} _.
Arguments tasks {W I O P} _.
Arguments os {W I O P} _.
Arguments worker {W I O P} _.

Module WorkerOps.
Section Operations.
Context {W I O P : Type} {BE : ExecBackend W I} {BC : ComputeBackend O P nat}.
Import Worker.

Definition set_worker (f : Worker.t W P -> Worker.t W P) (s : sys W I O P) : sys W I O P :=
  mkSys (world s) (tasks s) (os s) (f (worker s)).

(** Atomic accesses to [_state]. *)
Definition load_state : prog (sys W I O P) state_t := gets (fun s => _state (worker s)).

Definition store_state (st : state_t) : prog (sys W I O P) unit := modify (set_worker (set_state st)).

(** [compare_exchange_weak(expected, desired)]; it may fail spuriously. *)
Definition compare_exchange_weak (spurious : bool) (expected desired : state_t) : prog (sys W I O P) bool :=
  let succeeds s := bool_decide (_state (worker s) = expected) && negb spurious in
  Step (fun s => if succeeds s then set_worker (set_state desired) s else s) (fun s => Ret (succeeds s)).

(** A compute manager's operation on processing unit [i]. *)
Definition get_unit (i : nat) (s : sys W I O P) : option (O * ProcessingUnit.t P) :=
  u ← _processingUnits (worker s) !! i; Some (os s, u).

Definition put_unit (i : nat) (x : O * ProcessingUnit.t P) (s : sys W I O P) : sys W I O P :=
  mkSys (world s) (tasks s) x.1 (set_units (<[i := x.2]> (_processingUnits (worker s))) (worker s)).

Definition on_unit {A : Type} (i : nat) (p : prog (O * ProcessingUnit.t P) A) : prog (sys W I O P) A :=
  zoom (get_unit i) (put_unit i) p.

(** An operation of task [k]. *)
Definition get_task (k : nat) (s : sys W I O P) : option (W * Task.t W I) :=
  t ← tasks s !! k; Some (world s, t).

Definition put_task (k : nat) (x : W * Task.t W I) (s : sys W I O P) : sys W I O P :=
  mkSys x.1 (<[k := x.2]> (tasks s)) (os s) (worker s).

Definition on_task {A : Type} (k : nat) (p : prog (W * Task.t W I) A) : prog (sys W I O P) A :=
  zoom (get_task k) (put_task k) p.

(** [if (_callbackMap != nullptr) _callbackMap->trigger(this, c)]. *)
Definition notify (self : nat) (c : callback_t) : prog (sys W I O P) unit :=
  cm ← gets (fun s => _callbackMap (worker s));
  match cm with
  | None => mret tt
  | Some cm => zoom (fun s => Some (world s)) (fun w s => mkSys w (tasks s) (os s) (worker s))
                 (CallbackMap.trigger self c cm)
  end.

Definition unit_count : prog (sys W I O P) nat := gets (fun s => length (_processingUnits (worker s))).

Definition initialize : prog (sys W I O P) unit :=
  prevState ← load_state;
  n ← unit_count;
  _ ← throw_if (n =? 0)%nat logic;
  _ ← throw_if (bool_decide (prevState <> uninitialized /\ prevState <> terminated)) runtime;
  _ ← for_each (seq 0 n) (fun i => on_unit i (ComputeManager.initialize nat));
  store_state ready.

(** The execution state runs the main loop of worker [self]; the first
    processing unit gets it. *)
Definition start (self : nat) : prog (sys W I O P) unit :=
  prevState ← load_state;
  _ ← throw_if (bool_decide (prevState <> ready)) runtime;
  _ ← store_state running;
  on_unit 0 (ComputeManager.start nat self).

Definition suspend (spurious : bool) : prog (sys W I O P) bool :=
  compare_exchange_weak spurious running suspending.

Definition resume (spurious : bool) : prog (sys W I O P) bool :=
  compare_exchange_weak spurious suspended resuming.

(** [exchange]: the state is replaced whatever it was, then it is checked. *)
Definition terminate : prog (sys W I O P) unit :=
  prevState ← (Step (set_worker (set_state terminating)) (fun s => Ret (_state (worker s))));
  throw_if (bool_decide (prevState <> running /\ prevState <> suspending)) runtime.

Definition await : prog (sys W I O P) unit :=
  prevState ← load_state;
  _ ← throw_if (bool_decide (prevState <> terminating /\ prevState <> running /\ prevState <> suspended /\
                             prevState <> suspending /\ prevState <> resuming)) runtime;
  n ← unit_count;
  _ ← for_each (seq 0 n) (fun i => on_unit i (ComputeManager.await nat));
  store_state terminated.

Definition checkResumeConditions (s : sys W I O P) : bool := bool_decide (_state (worker s) = resuming).

(** The other units, all but the first. *)
Definition other_units (p : prog (O * ProcessingUnit.t P) unit) : prog (sys W I O P) unit :=
  n ← unit_count; for_each (seq 1 (n - 1)) (fun i => on_unit i p).

(** The pulled task is initialized if need be, and run. *)
Definition execute (k : nat) : prog (sys W I O P) unit :=
  task ← fetch (fun s => tasks s !! k);
  _ ← (if bool_decide (Task.getState task = ExecutionState.uninitialized)
       then on_task k (TaskOps.initialize (ExecutionState.make (createExecutionState (Task.getExecutionUnit task))))
       else mret tt);
  on_task k (TaskOps.run k).

(** [if (_state == suspending) ...]: the wait for [checkResumeConditions] is a
    loop of sleeps in the code. *)
Definition handle_suspend (self : nat) : prog (sys W I O P) unit :=
  st ← load_state;
  if bool_decide (st = suspending) then
    _ ← store_state suspended;
    _ ← notify self onWorkerSuspend;
    _ ← other_units (ComputeManager.suspend nat);
    _ ← Await checkResumeConditions (Ret tt);
    _ ← notify self onWorkerResume;
    _ ← other_units (ComputeManager.resume nat);
    store_state running
  else mret tt.

(** [if (_state == terminating) ...]: true when the main loop returns. *)
Definition handle_terminate (self : nat) : prog (sys W I O P) bool :=
  st ← load_state;
  if bool_decide (st = terminating) then
    _ ← notify self onWorkerTerminate;
    _ ← other_units (ComputeManager.terminate nat);
    _ ← on_unit 0 (ComputeManager.terminate nat);
    mret true
  else mret false.

(** One round of the main loop. *)
Definition round (self : nat) (pull : prog (sys W I O P) (option nat)) : prog (sys W I O P) bool :=
  task ← pull;
  _ ← modify (set_worker (set_task task));
  _ ← notify self onWorkerTaskPulled;
  _ ← match task with None => mret tt | Some k => execute k end;
  _ ← handle_suspend self;
  handle_terminate self.

(** At most [fuel] rounds; the result tells whether the loop has returned. *)
Fixpoint rounds (self : nat) (pull : prog (sys W I O P) (option nat)) (fuel : nat) : prog (sys W I O P) bool :=
  match fuel with
  | 0%nat => mret false
  | Datatypes.S fuel' => done ← round self pull; if done : bool then mret true else rounds self pull fuel'
  end.

Definition mainLoop (self : nat) (pull : prog (sys W I O P) (option nat)) (fuel : nat) : prog (sys W I O P) bool :=
  _ ← notify self onWorkerStart;
  rounds self pull fuel.

End Operations.
End WorkerOps.
