(* ===== verification/WorkerSpec.v ===== *)
(** * Behaviour of workers

    The requests on every state of a worker; a termination request that is lost
    in a race with the main loop; a suspended worker that can no longer be
    ended; and a worker with a second processing unit that fails when it is
    suspended. *)

From S2P Require Import Prelude Concurrency Tasking Compute Worker.
From Stdlib Require Import ZArith Lia.
From stdpp Require Import base gmap option list relations.

Local Open Scope Z_scope.
Local Open Scope hicr_scope.

Section Spec.
Context {W I O P : Type} {BE : ExecBackend W I} {BC : ComputeBackend O P nat}.
Import Worker WorkerOps.
Implicit Types s : sys W I O P.

Abbreviation state_of s := (_state (worker s)).
Abbreviation in_state st s := (set_worker (set_state st) s).

(** The requests on every state of the worker.  [suspend] takes effect on a
    running worker only and [resume] on a suspended one, each may fail
    spuriously, and a failed request changes nothing.  [terminate] always
    replaces the state, and throws unless the worker was running or suspending.
    A worker that is not ready is not started, one without units or already
    initialized is not initialized, and one that is not working is not waited
    for; these calls throw and change nothing. *)
Theorem worker_requests s self :
  run (suspend false) s = (if decide (state_of s = running) then Done true (in_state suspending s) else Done false s) /\
  run (resume false) s = (if decide (state_of s = suspended) then Done true (in_state resuming s) else Done false s) /\
  run (suspend true) s = Done false s /\ run (resume true) s = Done false s /\
  run terminate s = (if decide (state_of s = running \/ state_of s = suspending)
                     then Done tt (in_state terminating s) else Thrown runtime (in_state terminating s)) /\
  (state_of s <> ready -> run (start self) s = Thrown runtime s) /\
  (_processingUnits (worker s) = [] -> run initialize s = Thrown logic s) /\
  (_processingUnits (worker s) <> [] -> state_of s <> uninitialized -> state_of s <> terminated ->
   run initialize s = Thrown runtime s) /\
  (state_of s = uninitialized \/ state_of s = ready \/ state_of s = terminated -> run await s = Thrown runtime s).
Proof.
  destruct s as [w ts o [st us k cm]]. cbn [worker Worker._state Worker._processingUnits].
  split_and!; try (by destruct st); try (intros H; by destruct st).
  - intros ->. reflexivity.
  - intros Hn H1 H2. destruct us; [done|]. by destruct st.
  - intros [->|[->| ->]]; reflexivity.
Qed.

(** A caller of [terminate], as a thread of the same pool as the worker. *)
Definition terminator : prog (sys W I O P) bool := _ ← terminate; mret true.

(** C39: a request to terminate can be lost.  If it comes between the worker's
    test for a pending suspension and its store of the suspended state, it
    returns normally, but the worker ends up suspended, waiting for a
    [resume]. *)
Theorem terminate_lost s self u :
  state_of s = suspending -> _processingUnits (worker s) = [u] -> _callbackMap (worker s) = None ->
  exists waiting s', pool_steps ([round self (mret None); terminator], s) ([waiting; Ret true], s') /\
    state_of s' = suspended /\ forall p s'', ~ thread_step waiting s' p s''.
Proof.
  destruct s as [w ts o [st us k cm]]. cbn [worker Worker._state Worker._processingUnits Worker._callbackMap].
  intros -> -> ->. eexists _, _. split; [|split].
  - do 3 (eapply rtc_l; [eapply (pool_act _ 0); [reflexivity|apply thread_act]|cbn]).
    eapply rtc_l; [eapply (pool_act _ 1); [reflexivity|apply thread_act]|cbn].
    do 3 (eapply rtc_l; [eapply (pool_act _ 0); [reflexivity|apply thread_act]|cbn]).
    apply rtc_refl.
  - reflexivity.
  - intros p s'' Ht. inversion Ht as [|? ? ? Hc]. discriminate Hc.
Qed.

(** The requests of other threads, any number of them in any order. *)
Inductive request : Type := RequestSuspend (spurious : bool) | RequestResume (spurious : bool) | RequestTerminate.

Fixpoint requests (l : list request) : prog (sys W I O P) bool :=
  match l with
  | [] => mret true
  | RequestSuspend b :: l' => _ ← suspend b; requests l'
  | RequestResume b :: l' => _ ← resume b; requests l'
  | RequestTerminate :: l' => _ ← terminate; requests l'
  end.

Lemma requests_keep_terminating l : keeps (fun s => state_of s = terminating) (requests l).
Proof.
  assert (Hc : forall b e d, e <> terminating ->
    keeps (fun s => state_of s = terminating) (compare_exchange_weak (W := W) (I := I) (O := O) (P := P) b e d)).
  { intros b e d He s Hs. rewrite Hs, bool_decide_false by done. split; [exact Hs|exact Logic.I]. }
  induction l as [|[b|b|] l IH]; cbn [requests]; [exact Logic.I|apply keeps_bind; [by apply Hc|done]..|].
  apply keeps_bind; [|done]. unfold terminate. intros s Hs. split; [done|]. cbn. by destruct (bool_decide _).
Qed.

(** A worker that is suspended when it is asked to terminate never ends: it
    waits for the resuming state, and whatever requests other threads make, the
    state stays terminating. *)
Theorem suspended_never_ends s (k : prog (sys W I O P) bool) (callers : list (list request)) ps' s' :
  state_of s = terminating ->
  pool_steps (Await checkResumeConditions k :: map requests callers, s) (ps', s') ->
  ps' !! 0%nat = Some (Await checkResumeConditions k) /\ state_of s' = terminating.
Proof.
  intros Hs H.
  assert (HI : ps' !! 0%nat = Some (Await checkResumeConditions k) /\ state_of s' = terminating /\
    forall i p, ps' !! S i = Some p -> keeps (fun s => state_of s = terminating) p).
  { apply (pool_invariant (fun ps s => ps !! 0%nat = Some (Await checkResumeConditions k) /\ state_of s = terminating /\
             forall i p, ps !! S i = Some p -> keeps (fun s => state_of s = terminating) p) _ _ _ _) in H; [done| |].
    - intros qs u i p p' u' (H0 & Hu & Hk) Hi Ht. destruct i as [|i].
      + rewrite H0 in Hi. injection Hi as <-. inversion Ht as [|? ? ? Hc]; subst.
        unfold checkResumeConditions in Hc. rewrite Hu in Hc. discriminate Hc.
      + destruct (keeps_step _ _ _ _ _ (Hk i p Hi) Hu Ht) as [Hu' Hk']. split_and!; [by rewrite list_lookup_insert_ne|done|].
        intros j q Hq. apply list_lookup_insert_Some in Hq as [(_ & -> & _)|(_ & Hq)]; [done|by eapply Hk].
    - split_and!; [done|done|]. intros i p Hi. cbn in Hi. apply list_lookup_fmap_Some in Hi as (l & -> & _).
      apply requests_keep_terminating. }
  by destruct HI as (? & ? & _).
Qed.

End Spec.

(** ** A second processing unit *)

Section Units.
Context {W I : Type} {BE : ExecBackend W I}.
Import Worker WorkerOps.

(** A new worker with two processing units over pthreads. *)
Definition two_units (w : W) (ts : gmap nat (Task.t W I)) (o : PthreadsProcessingUnit.os_t) : sys W I PthreadsProcessingUnit.os_t (PthreadsProcessingUnit.t nat) :=
  mkSys w ts o (addProcessingUnit (ProcessingUnit.make 1 (PthreadsProcessingUnit.mk None None))
    (addProcessingUnit (ProcessingUnit.make 0 (PthreadsProcessingUnit.mk None None)) (Worker.make None))).

Section OnUnit.
Context {O P : Type} {BC : ComputeBackend O P nat}.
Implicit Types s : sys W I O P.

(** An operation on one unit, in the whole system. *)
Lemma run_on_unit {A : Type} i (p : prog (O * ProcessingUnit.t P) A) s u :
  _processingUnits (worker s) !! i = Some u ->
  run (on_unit i p) s =
  match run p (os s, u) with
  | Done a x => Done a (put_unit i x s)
  | Thrown e x => Thrown e (put_unit i x s)
  | Crashed c x => Crashed c (put_unit i x s)
  | Blocked x => Blocked (put_unit i x s)
  end.
Proof.
  intros Hu. unfold on_unit. apply run_zoom.
  - unfold get_unit. by rewrite Hu.
  - unfold put_unit. cbn. rewrite list_insert_id by done. by destruct s as [? ? ? []].
  - intros [o' u'] t [[o'' u''] Ht]. unfold get_unit in *. cbn.
    destruct (_processingUnits (worker t) !! i) as [x|] eqn:E; [|done].
    rewrite list_lookup_insert_eq by (by eapply lookup_lt_Some). done.
  - intros [o1 u1] [o2 u2] t. unfold put_unit. cbn. unfold set_units. cbn. by rewrite list_insert_insert_eq.
Qed.

(** Suspending the other units fails at the first one that is not running. *)
Lemma run_handle_suspend_second s self u0 u1 us :
  Worker._state (worker s) = Worker.suspending -> _processingUnits (worker s) = u0 :: u1 :: us ->
  _callbackMap (worker s) = None -> ProcessingUnit._state u1 <> ProcessingUnit.running ->
  exists s', run (handle_suspend self) s = Thrown runtime s' /\ Worker._state (worker s') = Worker.suspended.
Proof.
  intros Hs Hu Hc H1. set (s1 := set_worker (set_state Worker.suspended) s).
  assert (Hu1 : _processingUnits (worker s1) !! 1%nat = Some u1) by (cbn; by rewrite Hu).
  exists (put_unit 1 (os s1, u1) s1). split; [|done].
  unfold handle_suspend. erewrite run_bind_Done by done. rewrite Hs, bool_decide_true by done.
  erewrite run_bind_Done by done. fold s1. unfold notify.
  rewrite run_bind_assoc. erewrite run_bind_Done by done. change (_callbackMap (worker s1)) with (_callbackMap (worker s)).
  rewrite Hc. erewrite run_bind_Done by done. unfold other_units. rewrite run_bind_assoc. erewrite run_bind_Done by done.
  change (_processingUnits (worker s1)) with (_processingUnits (worker s)). rewrite Hu. cbn [length Nat.sub seq for_each].
  rewrite run_bind, run_bind, (run_on_unit _ _ _ _ Hu1). unfold ComputeManager.suspend.
  rewrite (run_bind_Done _ _ _ _ _ (run_this _ _ _)), run_bind, run_throw_if_true; [done|]. by apply bool_decide_true.
Qed.

End OnUnit.

(** After [initialize] and [start] only the first unit is running. *)
Lemma run_start_two (w : W) ts o self :
  PthreadsProcessingUnit.can_create o = true ->
  exists s, run (_ ← initialize; start self) (two_units w ts o) = Done tt s /\
    Worker._state (worker s) = Worker.running /\ _callbackMap (worker s) = None /\
    exists u0 u1, _processingUnits (worker s) = [u0; u1] /\
      ProcessingUnit._state u0 = ProcessingUnit.running /\ ProcessingUnit._state u1 = ProcessingUnit.ready.
Proof.
  intros Ho. set (u i := ProcessingUnit.mk (P := PthreadsProcessingUnit.t nat) ProcessingUnit.ready i (PthreadsProcessingUnit.mk None None)).
  set (s1 := mkSys w ts o (Worker.mk Worker.ready [u 0%nat; u 1%nat] None None)).
  assert (E1 : run initialize (two_units w ts o) = Done tt s1) by reflexivity.
  rewrite (run_bind_Done _ _ _ _ _ E1). unfold start. erewrite run_bind_Done by done.
  erewrite run_bind_Done by (by apply run_throw_if_false). erewrite run_bind_Done by done.
  erewrite run_on_unit by done. unfold ComputeManager.start.
  erewrite (run_bind_Done (this _)) by done. erewrite run_bind_Done by (by apply run_throw_if_false).
  erewrite run_bind_Done by done. cbn [startImpl pthreads_compute]. unfold PthreadsProcessingUnit.start.
  erewrite run_bind_Done by done. erewrite run_bind_Done by done.
  erewrite run_bind_Done by (apply run_throw_if_false; cbn; by rewrite Ho). cbn [run].
  eexists. split; [reflexivity|]. split; [done|]. split; [done|]. eexists _, _. split; [reflexivity|]. done.
Qed.

(** Only the first processing unit of a worker is started, but a suspension
    suspends the others too.  So a worker with two units, initialized and
    started, fails in the first round after a request to suspend it: suspending
    the second unit, which is not running, throws out of the main loop, and the
    worker is left in the suspended state. *)
Theorem suspend_second_unit (w : W) ts o self :
  PthreadsProcessingUnit.can_create o = true ->
  exists s1 s2 s', run (_ ← initialize; start self) (two_units w ts o) = Done tt s1 /\
    run (suspend false) s1 = Done true s2 /\ run (round self (mret None)) s2 = Thrown runtime s' /\
    Worker._state (worker s') = Worker.suspended.
Proof.
  intros Ho. destruct (run_start_two w ts o self Ho) as (s1 & E1 & Hst & Hc & u0 & u1 & Hu & _ & H1).
  set (s2 := set_worker (set_state Worker.suspending) s1). set (s3 := set_worker (set_task None) s2).
  destruct (run_handle_suspend_second s3 self u0 u1 []) as (s' & E & Hs'); try done; [by rewrite H1|].
  exists s1, s2, s'. split_and!; [done| | |done].
  - unfold suspend, compare_exchange_weak. cbn. by rewrite Hst, bool_decide_true.
  - unfold round. erewrite run_bind_Done by done. erewrite run_bind_Done by done. fold s3. unfold notify.
    rewrite run_bind_assoc. erewrite run_bind_Done by done. change (_callbackMap (worker s3)) with (_callbackMap (worker s1)).
    rewrite Hc. erewrite run_bind_Done by done. erewrite run_bind_Done by done. by rewrite run_bind, E.
Qed.

End Units.

(** ** Concrete workers *)

Module WorkerDemo.
Import Worker WorkerOps.

Definition unit0 : ProcessingUnit.t (PthreadsProcessingUnit.t nat) :=
  ProcessingUnit.mk ProcessingUnit.running 0 (PthreadsProcessingUnit.mk (Some 0%nat) (Some 0%nat)).

Definition system (st : Worker.state_t) : sys Z (Coroutine.t Z) PthreadsProcessingUnit.os_t (PthreadsProcessingUnit.t nat) :=
  mkSys 0 ∅ (PthreadsProcessingUnit.mkOs (<[0%nat := PthreadsProcessingUnit.Running]> ∅) true) (Worker.mk st [unit0] None None).

(** A worker that pulls one task, which suspends once, from a queue of one and
    then terminates itself. *)
Definition one_task : sys Z (Coroutine.t Z) PthreadsProcessingUnit.os_t (PthreadsProcessingUnit.t nat) :=
  mkSys 0 (<[5%nat := Task.make (Act (fun w => w + 1) (fun _ => Suspend (Act (fun w => w + 10) (fun _ => Return)))) None]> ∅)
    (PthreadsProcessingUnit.mkOs (<[0%nat := PthreadsProcessingUnit.Running]> ∅) true) (Worker.mk Worker.running [unit0] None None).

Definition pull : prog (sys Z (Coroutine.t Z) PthreadsProcessingUnit.os_t (PthreadsProcessingUnit.t nat)) (option nat) :=
  w ← gets world;
  if w <? 11 then mret (Some 5%nat) else _ ← terminate; mret None.

Example one_task_runs :
  match run (mainLoop 0 pull 5) one_task with
  | Done b s => b = true /\ world s = 11 /\ Task.getState <$> (tasks s !! 5%nat) = Some ExecutionState.finished /\
                ProcessingUnit._state <$> (_processingUnits (worker s) !! 0%nat) = Some ProcessingUnit.terminating
  | _ => False
  end.
Proof. vm_compute. done. Qed.

Lemma worker_requests_witness : run (suspend false) (system Worker.running) = Done true (system Worker.suspending).
Proof. exact (proj1 (worker_requests (system Worker.running) 0)). Defined.

Lemma terminate_lost_witness :
  exists waiting s', pool_steps ([round 0 (mret None); terminator], system Worker.suspending) ([waiting; Ret true], s') /\
    Worker._state (worker s') = Worker.suspended /\ forall p s'', ~ thread_step waiting s' p s''.
Proof. exact (terminate_lost (system Worker.suspending) 0 unit0 eq_refl eq_refl eq_refl). Defined.

Lemma suspended_never_ends_witness :
  [Await checkResumeConditions (Ret true); requests [RequestResume false]] !! 0%nat =
    Some (Await checkResumeConditions (Ret true) : prog (sys Z (Coroutine.t Z) PthreadsProcessingUnit.os_t (PthreadsProcessingUnit.t nat)) bool) /\
  Worker._state (worker (system Worker.terminating)) = Worker.terminating.
Proof.
  exact (suspended_never_ends (system Worker.terminating) (Ret true) [[RequestResume false]] _ _ eq_refl (rtc_refl _ _)).
Defined.

Lemma suspend_second_unit_witness :
  exists s1 s2 s' : sys Z (Coroutine.t Z) PthreadsProcessingUnit.os_t (PthreadsProcessingUnit.t nat),
    run (_ ← initialize; start 0) (two_units 0 ∅ (PthreadsProcessingUnit.mkOs ∅ true)) = Done tt s1 /\
    run (suspend false) s1 = Done true s2 /\ run (round 0 (mret None)) s2 = Thrown runtime s' /\
    Worker._state (worker s') = Worker.suspended.
Proof. exact (suspend_second_unit 0 ∅ (PthreadsProcessingUnit.mkOs ∅ true) 0 eq_refl). Defined.

End WorkerDemo.
