(* ===== verification/Exceptions.v ===== *)
(** * Exceptions

    Models [core/exceptions.hpp]: the function behind the [HICR_THROW_*] macros, with the
    text of the message, in the builds that throw and in those that abort.  Programs of the
    other files have [Raise] in its place; [raise_of] is how the two correspond. *)

From S2P Require Import Prelude.
From Stdlib Require Import ZArith Lia String.
From stdpp Require Import base option strings pretty.

Local Open Scope string_scope.
Local Open Scope Z_scope.

Module Exceptions.

(** The classes of thrown objects, with their messages. *)
Inductive thrown : Type :=
| LogicException (message : string)
| RuntimeException (message : string)
| FatalException (message : string)
| runtime_error (message : string).

(** What a call does: it throws, or writes to the standard error and aborts the process,
    or its behaviour is undefined.  It never returns. *)
Inductive outcome : Type :=
| Throws (t : thrown)
| Aborts (stderr : string)
| Undefined.

(** The macros that are defined, [HICR_EXCEPTION_USE_STDEXCEPTION] and
    [HICR_EXCEPTION_USE_ABORT]. *)
Record build : Type := mkBuild { use_stdexception : bool; use_abort : bool }.

(** An enumerator, or another value of the underlying type. *)
Definition typeString (type : option exception_t) : string :=
  match type with
  | Some logic => "Logic"
  | Some runtime => "Runtime"
  | Some fatal => "Fatal"
  | None => "Undefined"
  end.

(** A newline. *)
Definition newline : string := String (Ascii.ascii_of_nat 10) EmptyString.

Definition bufferSize : nat := 1024.

(** [snprintf] into the buffer [info], with one byte less than its size: the terminating
    zero takes another. *)
Definition info (fileName : string) (lineNumber : Z) : string :=
  substring 0 (bufferSize - 1 - 1) (" + From " ++ fileName ++ ":" ++ pretty lineNumber ++ newline).

Definition outString (type : option exception_t) (fileName : string) (lineNumber : Z) (outstr : string) : string :=
  "[HiCR] " ++ typeString type ++ " Exception: " ++ outstr ++ info fileName lineNumber.

Definition errorMsg : string := "Error in exceptions.hpp, throwLogic() function" ++ newline.

(** [outstr] is the result of [vasprintf]; [None]: it failed, and the pointer is not
    determined. *)
Definition throwException (b : build) (type : option exception_t) (fileName : string) (lineNumber : Z) (outstr : option string) : outcome :=
  match outstr with
  | None =>
      if use_stdexception b then Throws (runtime_error errorMsg)
      else if use_abort b then Aborts errorMsg
      else Undefined
  | Some outstr =>
      let message := outString type fileName lineNumber outstr in
      if use_stdexception b then
        Throws match type with
               | Some logic => LogicException message
               | Some runtime => RuntimeException message
               | Some fatal => FatalException message
               | None => runtime_error message
               end
      else Aborts message
  end.

(** ** What handlers see *)

(** The handler of a class catches the classes derived from it. *)
Inductive handler : Type := catch_logic_error | catch_runtime_error | catch_LogicException | catch_RuntimeException | catch_FatalException.

Definition catches (h : handler) (t : thrown) : bool :=
  match h, t with
  | catch_logic_error, LogicException _ | catch_LogicException, LogicException _ => true
  | catch_runtime_error, LogicException _ => false
  | catch_runtime_error, _ => true
  | catch_RuntimeException, RuntimeException _ | catch_FatalException, FatalException _ => true
  | _, _ => false
  end.

Definition what (t : thrown) : string :=
  match t with LogicException m | RuntimeException m | FatalException m | runtime_error m => m end.

(** The exception of a program. *)
Definition raise_of (t : thrown) : option exception_t :=
  match t with LogicException _ => Some logic | RuntimeException _ => Some runtime | FatalException _ => Some fatal | runtime_error _ => None end.

End Exceptions.

(** ** Facts *)

Section Facts.
Import Exceptions.

Lemma substring_whole (s : string) (n : nat) : (String.length s <= n)%nat -> substring 0 n s = s.
Proof. revert n. induction s as [|a s IH]; intros [|n] H; cbn in *; try done; [lia|]. by rewrite IH by lia. Qed.

Lemma substring_length (s : string) (n : nat) : (String.length (substring 0 n s) <= n)%nat.
Proof. revert n. induction s as [|a s IH]; intros [|n]; cbn; try lia. specialize (IH n). lia. Qed.

(** The position is complete unless the name of the file is too long, and never overruns
    the buffer. *)
Lemma info_fits f l : (String.length (info f l) < bufferSize)%nat.
Proof. pose proof (substring_length (" + From " ++ f ++ ":" ++ pretty l ++ newline) (bufferSize - 1 - 1)). unfold info, bufferSize in *. lia. Qed.

Lemma info_complete f l : (String.length (" + From " ++ f ++ ":" ++ pretty l ++ newline) <= 1022)%nat ->
  info f l = " + From " ++ f ++ ":" ++ pretty l ++ newline.
Proof. apply substring_whole. Qed.

(** A throwing build throws, for every argument, and when the message can be formatted the
    exception is of the kind asked for. *)
Lemma throws_kind b type f l m : use_stdexception b = true -> exists t,
  throwException b (Some type) f l (Some m) = Throws t /\ raise_of t = Some type /\ what t = outString (Some type) f l m.
Proof. intros Hb. unfold throwException. rewrite Hb. destruct type; eauto. Qed.

(** Distinct kinds have distinct handlers; the base class of the standard library does not
    tell runtime and fatal exceptions apart. *)
Lemma fatal_is_runtime_error b f l m : use_stdexception b = true -> exists t,
  throwException b (Some fatal) f l (Some m) = Throws t /\ catches catch_runtime_error t = true /\ catches catch_RuntimeException t = false.
Proof. intros Hb. unfold throwException. rewrite Hb. eauto. Qed.

(** With neither macro, or when formatting fails, the reason is lost or worse. *)
Lemma reason_lost b type f l : throwException b type f l None <> Undefined <-> use_stdexception b || use_abort b = true.
Proof. unfold throwException. destruct b as [[] []]; cbn; intuition congruence. Qed.

End Facts.
