(* ===== verification/Json.v ===== *)
(** * JSON values

    The part of [extern/nlohmann_json/json.hpp] that topologies use, and the
    accessors of [extern/nlohmann_json/parser.hpp].  An object is a [std::map]:
    its entries are in key order and keys are unique.

    The accessors put the text of the value, [dump(2)], into the messages of their
    errors.  The text is not modelled, but whether there is one: [dump] throws for
    strings that are not valid UTF-8. *)

From S2P Require Import Prelude.
From Stdlib Require Import ZArith Lia String SpecFloat.
From stdpp Require Import base list option strings.

Local Open Scope Z_scope.
Local Open Scope hicr_scope.

Module Json.

#[local] Unset Elimination Schemes.

(** [value_t]. *)
Inductive t : Type :=
| null
| object (entries : list (string * t))
| array (elements : list t)
| string_ (s : string)
| boolean (b : bool)
| number_integer (z : Z)
| number_unsigned (z : Z)
| number_float (f : spec_float)
| binary (bytes : list byte)
| discarded.

#[local] Set Elimination Schemes.

Definition is_null (j : t) : bool := match j with null => true | _ => false end.
Definition is_object (j : t) : bool := match j with object _ => true | _ => false end.
Definition is_array (j : t) : bool := match j with array _ => true | _ => false end.
Definition is_string (j : t) : bool := match j with string_ _ => true | _ => false end.
Definition is_number_unsigned (j : t) : bool := match j with number_unsigned _ => true | _ => false end.

Definition is_boolean (j : t) : bool := match j with boolean _ => true | _ => false end.
Definition is_number (j : t) : bool :=
  match j with number_integer _ | number_unsigned _ | number_float _ => true | _ => false end.

(** The entries of an object. *)
Fixpoint find_entry (k : string) (l : list (string * t)) : option t :=
  match l with
  | [] => None
  | (k', v) :: l' => if String.eqb k k' then Some v else find_entry k l'
  end.

Fixpoint set_entry (k : string) (v : t) (l : list (string * t)) : list (string * t) :=
  match l with
  | [] => [(k, v)]
  | (k', v') :: l' =>
      if String.eqb k k' then (k, v) :: l'
      else if String.ltb k k' then (k, v) :: (k', v') :: l' else (k', v') :: set_entry k v l'
  end.

Definition find (j : t) (k : string) : option t :=
  match j with object l => find_entry k l | _ => None end.

Definition contains (j : t) (k : string) : bool := bool_decide (is_Some (find j k)).

(** [j[k]] of a constant object: only objects have entries, and a missing entry
    is undefined behaviour. *)
Definition at_key {S : Type} (j : t) (k : string) : prog S t :=
  if is_object j then match find j k with Some v => mret v | None => Crash undefined end
  else Raise json_type_error.

(** The object behind [j[k] = ...]: null becomes an empty object, every other
    value that is not an object is refused. *)
Definition entries_of (j : t) : option (list (string * t)) :=
  match j with null => Some [] | object l => Some l | _ => None end.

(** [j[k] = v]; [None] is a type error. *)
Definition assign (k : string) (v : t) (j : t) : option t :=
  l ← entries_of j; Some (object (set_entry k v l)).

(** [push_back]: null becomes an empty array. *)
Definition push_back (v : t) (j : t) : option t :=
  match j with null => Some (array [v]) | array l => Some (array (l ++ [v])) | _ => None end.

(** [j[k] += v]. *)
Definition append (k : string) (v : t) (j : t) : option t :=
  l ← entries_of j;
  v' ← push_back v (default null (find_entry k l));
  Some (object (set_entry k v' l)).

(** [size()]. *)
Definition size (j : t) : nat :=
  match j with null => 0 | object l => length l | array l => length l | _ => 1 end.

(** The values a loop over [j] visits. *)
Definition elements (j : t) : list t :=
  match j with null => [] | object l => l.*2 | array l => l | _ => [j] end.

(** The integer part of a floating-point number. *)
Definition truncate (f : spec_float) : option Z :=
  match f with
  | S754_zero _ => Some 0
  | S754_finite neg m e =>
      let n := if 0 <=? e then Z.pos m * 2 ^ e else Z.pos m / 2 ^ (- e) in Some (if neg then - n else n)
  | _ => None
  end.

(** The conversion of a floating-point number to an unsigned type; outside the
    range of the type it is undefined behaviour. *)
Definition convert_float {S : Type} (bound : Z) (f : spec_float) : prog S Z :=
  match truncate f with
  | Some z => if (0 <=? z) && (z <? bound) then mret z else Crash undefined
  | None => Crash undefined
  end.

(** [get<unsigned int>()]: integers are reduced modulo [2^32]. *)
Definition UINT_BOUND : Z := 2 ^ 32.

Definition get_uint {S : Type} (j : t) : prog S Z :=
  match j with
  | number_unsigned z | number_integer z => mret (z mod UINT_BOUND)
  | number_float f => convert_float UINT_BOUND f
  | boolean b => mret (Z.b2z b)
  | _ => Raise json_type_error
  end.

(** [get<size_t>()]: the type of the stored unsigned numbers. *)
Definition get_size {S : Type} (j : t) : prog S Z :=
  match j with
  | number_unsigned z => mret z
  | number_integer z => mret (wrap64 z)
  | number_float f => convert_float SIZE_BOUND f
  | _ => Raise json_type_error
  end.

(** [get<bool>()] and [get<std::string>()]. *)
Definition get_bool {S : Type} (j : t) : prog S bool :=
  match j with boolean b => mret b | _ => Raise json_type_error end.

Definition get_string {S : Type} (j : t) : prog S string :=
  match j with string_ s => mret s | _ => Raise json_type_error end.

(** [if (input.contains(key) == false) throw; if (input[key].is_...() == false) throw;],
    and the entry. *)
Definition require {S : Type} (is_ : t -> bool) (input : t) (key : string) : prog S t :=
  _ ← throw_if (negb (contains input key)) logic;
  v ← at_key input key;
  _ ← throw_if (negb (is_ v)) logic;
  mret v.

(** ** Whether a value has a text *)

(** The types of the bytes, and the transitions of the decoder of UTF-8. *)
Definition utf8d : list Z :=
  [0; 0; 0; 0; 0; 0; 0; 0; 0; 0; 0; 0; 0; 0; 0; 0; 0; 0; 0; 0; 0; 0; 0; 0; 0; 0; 0; 0; 0; 0; 0; 0;
   0; 0; 0; 0; 0; 0; 0; 0; 0; 0; 0; 0; 0; 0; 0; 0; 0; 0; 0; 0; 0; 0; 0; 0; 0; 0; 0; 0; 0; 0; 0; 0;
   0; 0; 0; 0; 0; 0; 0; 0; 0; 0; 0; 0; 0; 0; 0; 0; 0; 0; 0; 0; 0; 0; 0; 0; 0; 0; 0; 0; 0; 0; 0; 0;
   0; 0; 0; 0; 0; 0; 0; 0; 0; 0; 0; 0; 0; 0; 0; 0; 0; 0; 0; 0; 0; 0; 0; 0; 0; 0; 0; 0; 0; 0; 0; 0;
   1; 1; 1; 1; 1; 1; 1; 1; 1; 1; 1; 1; 1; 1; 1; 1; 9; 9; 9; 9; 9; 9; 9; 9; 9; 9; 9; 9; 9; 9; 9; 9;
   7; 7; 7; 7; 7; 7; 7; 7; 7; 7; 7; 7; 7; 7; 7; 7; 7; 7; 7; 7; 7; 7; 7; 7; 7; 7; 7; 7; 7; 7; 7; 7;
   8; 8; 2; 2; 2; 2; 2; 2; 2; 2; 2; 2; 2; 2; 2; 2; 2; 2; 2; 2; 2; 2; 2; 2; 2; 2; 2; 2; 2; 2; 2; 2;
   10; 3; 3; 3; 3; 3; 3; 3; 3; 3; 3; 3; 3; 4; 3; 3;
   11; 6; 6; 6; 5; 8; 8; 8; 8; 8; 8; 8; 8; 8; 8; 8;
   0; 1; 2; 3; 5; 8; 7; 1; 1; 1; 4; 6; 1; 1; 1; 1;
   1; 1; 1; 1; 1; 1; 1; 1; 1; 1; 1; 1; 1; 1; 1; 1; 1; 0; 1; 1; 1; 1; 1; 0; 1; 0; 1; 1; 1; 1; 1; 1;
   1; 2; 1; 1; 1; 1; 1; 2; 1; 2; 1; 1; 1; 1; 1; 1; 1; 1; 1; 1; 1; 1; 1; 2; 1; 1; 1; 1; 1; 1; 1; 1;
   1; 2; 1; 1; 1; 1; 1; 1; 1; 2; 1; 1; 1; 1; 1; 1; 1; 1; 1; 1; 1; 1; 1; 3; 1; 3; 1; 1; 1; 1; 1; 1;
   1; 3; 1; 1; 1; 1; 1; 3; 1; 3; 1; 1; 1; 1; 1; 1; 1; 3; 1; 1; 1; 1; 1; 1; 1; 1; 1; 1; 1; 1; 1; 1].

Definition UTF8_ACCEPT : Z := 0.
Definition UTF8_REJECT : Z := 1.

(** The next state of [decode]; the code point is only needed for the text. *)
Definition decode (state byte : Z) : Z :=
  let type := nth (Z.to_nat byte) utf8d 0 in
  nth (Z.to_nat (256 + state * 16 + type)) utf8d 0.

(** Whether [dump_escaped], which throws at the first invalid byte and for an
    incomplete code point at the end, returns for the string. *)
Fixpoint dump_escaped (s : string) (state : Z) : bool :=
  match s with
  | EmptyString => state =? UTF8_ACCEPT
  | String c s' =>
      let state := decode state (Z.of_N (Ascii.N_of_ascii c)) in
      if state =? UTF8_REJECT then false else dump_escaped s' state
  end.

(** Whether [dump] returns for the value: its strings are written, those of its keys too. *)
Fixpoint dumps (j : t) : bool :=
  match j with
  | object l => (fix go l := match l with [] => true | (k, v) :: l' => dump_escaped k UTF8_ACCEPT && dumps v && go l' end) l
  | array l => (fix go l := match l with [] => true | v :: l' => dumps v && go l' end) l
  | string_ s => dump_escaped s UTF8_ACCEPT
  | _ => true
  end.

Definition dump {S : Type} (j : t) : prog S unit := throw_if (negb (dumps j)) json_type_error.

(** ** The accessors of [hicr::json] *)

(** [if (refused) HICR_THROW_LOGIC("...", json.dump(2).c_str())] *)
Definition throw_with_dump {S : Type} (refused : bool) (json : t) : prog S unit :=
  if refused then _ ← dump json; Raise logic else mret tt.

Definition checkEntry {S : Type} (json : t) (key : string) : prog S unit :=
  _ ← throw_with_dump (negb (is_object json)) json;
  throw_with_dump (negb (contains json key)) json.

(** What each accessor does before it converts the entry. *)
Definition getEntry {S : Type} (is_ : t -> bool) (json : t) (key : string) : prog S t :=
  _ ← checkEntry json key;
  v ← at_key json key;
  _ ← throw_with_dump (negb (is_ v)) json;
  mret v.

Definition getString {S : Type} (json : t) (key : string) : prog S string :=
  v ← getEntry is_string json key; get_string v.

(** The reference that is returned stands for its object. *)
Definition getObject {S : Type} (json : t) (key : string) : prog S t := getEntry is_object json key.

Definition getArray {S : Type} (json : t) (key : string) : prog S (list t) :=
  v ← getEntry is_array json key;
  match v with array l => mret l | _ => Raise json_type_error end.

(** [get] is the conversion to the type argument, [get_size] or [get_uint]. *)
Definition getNumber {S T : Type} (get : t -> prog S T) (json : t) (key : string) : prog S T :=
  v ← getEntry is_number json key; get v.

Definition getBoolean {S : Type} (json : t) (key : string) : prog S bool :=
  v ← getEntry is_boolean json key; get_bool v.

End Json.

(** ** Facts *)

Section Facts.
Context {S : Type}.
Implicit Types (j v : Json.t) (k : string).

Lemma find_set_entry_eq k v l : Json.find_entry k (Json.set_entry k v l) = Some v.
Proof.
  induction l as [|[k' v'] l IH]; cbn; [by rewrite String.eqb_refl|].
  destruct (String.eqb k k') eqn:E; cbn; [by rewrite String.eqb_refl|].
  destruct (String.ltb k k'); cbn; [by rewrite String.eqb_refl|]. by rewrite E.
Qed.

Lemma find_set_entry_ne k k' v l : k <> k' -> Json.find_entry k (Json.set_entry k' v l) = Json.find_entry k l.
Proof.
  intros Hne. apply String.eqb_neq in Hne. induction l as [|[k2 v2] l IH]; cbn; [by rewrite Hne|].
  destruct (String.eqb_spec k' k2) as [<-|]; cbn; [by rewrite Hne|].
  destruct (String.ltb k' k2); cbn; [by rewrite Hne|]. by rewrite IH.
Qed.

(** Values that assignments to keys accept. *)
Definition keyed (j : Json.t) : Prop := is_Some (Json.entries_of j).

Lemma assign_spec k v j :
  keyed j -> exists j', Json.assign k v j = Some j' /\ keyed j' /\
    Json.find j' k = Some v /\ forall k', k' <> k -> Json.find j' k' = Json.find j k'.
Proof.
  intros [l Hl]. unfold Json.assign. rewrite Hl. cbn. eexists. split_and!; [done|by eexists|apply find_set_entry_eq|].
  intros k' Hne. cbn. rewrite find_set_entry_ne by done. destruct j; by inversion Hl.
Qed.

Lemma append_spec k v j l :
  Json.find j k = Some (Json.array l) ->
  exists j', Json.append k v j = Some j' /\ Json.find j' k = Some (Json.array (l ++ [v])) /\
    forall k', k' <> k -> Json.find j' k' = Json.find j k'.
Proof.
  intros Hf. destruct j as [|es| | | | | | | |]; try done. unfold Json.append. cbn in *. rewrite Hf. cbn.
  eexists. split_and!; [done|apply find_set_entry_eq|]. intros k' Hne. cbn. by rewrite find_set_entry_ne.
Qed.

Lemma find_object j k v : Json.find j k = Some v -> Json.is_object j = true.
Proof. by destruct j. Qed.

Lemma contains_find j k v : Json.find j k = Some v -> Json.contains j k = true.
Proof. intros E. unfold Json.contains. rewrite E. by apply bool_decide_eq_true. Qed.

Lemma contains_None j k : Json.find j k = None -> Json.contains j k = false.
Proof. intros E. unfold Json.contains. rewrite E. apply bool_decide_eq_false. by intros []. Qed.

Lemma run_at_key j k v (s : S) : Json.find j k = Some v -> run (Json.at_key j k) s = Done v s.
Proof. intros E. unfold Json.at_key. by rewrite (find_object _ _ _ E), E. Qed.

Lemma run_require is_ j k (s : S) :
  run (Json.require is_ j k) s =
  match Json.find j k with Some v => if is_ v then Done v s else Thrown logic s | None => Thrown logic s end.
Proof.
  unfold Json.require. destruct (Json.find j k) as [v|] eqn:E.
  - rewrite (contains_find _ _ _ E), run_bind, run_throw_if_false by done. rewrite run_bind, (run_at_key _ _ _ _ E), run_bind.
    by destruct (is_ v).
  - by rewrite (contains_None _ _ E).
Qed.

Lemma run_get_uint z (s : S) : 0 <= z < Json.UINT_BOUND -> run (Json.get_uint (Json.number_unsigned z)) s = Done z s.
Proof. intros Hz. cbn. by rewrite Z.mod_small. Qed.

(** What the accessors throw: a logic error, if its message can be written. *)
Definition refusal (j : Json.t) : exn := if Json.dumps j then logic else json_type_error.

Lemma run_throw_with_dump (b : bool) j (s : S) : run (Json.throw_with_dump b j) s = if b then Thrown (refusal j) s else Done tt s.
Proof. unfold Json.throw_with_dump, Json.dump, refusal. destruct b; [|done]. by destruct (Json.dumps j). Qed.

Lemma run_checkEntry j k (s : S) :
  run (Json.checkEntry j k) s =
  match Json.find j k with Some _ => Done tt s | None => Thrown (refusal j) s end.
Proof.
  unfold Json.checkEntry. rewrite run_bind, run_throw_with_dump. destruct (Json.find j k) as [v|] eqn:E.
  - rewrite (find_object _ _ _ E). cbn. by rewrite run_throw_with_dump, (contains_find _ _ _ E).
  - destruct (Json.is_object j); [|done]. cbn. by rewrite run_throw_with_dump, (contains_None _ _ E).
Qed.

(** An entry of the right type is returned. *)
Lemma run_getEntry is_ j k (s : S) :
  run (Json.getEntry is_ j k) s =
  match Json.find j k with Some v => if is_ v then Done v s else Thrown (refusal j) s | None => Thrown (refusal j) s end.
Proof.
  unfold Json.getEntry. rewrite run_bind, run_checkEntry. destruct (Json.find j k) as [v|] eqn:E; [|done].
  rewrite run_bind, (run_at_key _ _ _ _ E), run_bind, run_throw_with_dump. by destruct (is_ v).
Qed.

Ltac read_entry := intros; cbv delta [Json.getString Json.getArray Json.getBoolean Json.getNumber] beta; rewrite run_bind, run_getEntry;
  destruct (Json.find _ _) as [[]|]; reflexivity.

Lemma run_getString j k (s : S) :
  run (Json.getString j k) s =
  match Json.find j k with Some (Json.string_ x) => Done x s | _ => Thrown (refusal j) s end.
Proof. read_entry. Qed.

Lemma run_getArray j k (s : S) :
  run (Json.getArray j k) s =
  match Json.find j k with Some (Json.array l) => Done l s | _ => Thrown (refusal j) s end.
Proof. read_entry. Qed.

Lemma run_getBoolean j k (s : S) :
  run (Json.getBoolean j k) s =
  match Json.find j k with Some (Json.boolean b) => Done b s | _ => Thrown (refusal j) s end.
Proof. read_entry. Qed.

(** A number is accepted whatever its sign: a negative one is reduced modulo [2^64]. *)
Lemma run_getNumber_size j k (s : S) :
  run (Json.getNumber Json.get_size j k) s =
  match Json.find j k with
  | Some (Json.number_unsigned z) => Done z s
  | Some (Json.number_integer z) => Done (wrap64 z) s
  | Some (Json.number_float f) => run (Json.convert_float SIZE_BOUND f) s
  | _ => Thrown (refusal j) s
  end.
Proof. read_entry. Qed.

End Facts.

(** A string of ASCII characters can be written, a lone continuation byte cannot, nor
    an incomplete character. *)
Example dumps_utf8 :
  Json.dumps (Json.object [("Type", Json.string_ "NUMA Domain"); ("Size", Json.number_unsigned 8)]) = true /\
  Json.dumps (Json.array [Json.string_ (String (Ascii.ascii_of_N 195) (String (Ascii.ascii_of_N 169) ""))]) = true /\
  Json.dumps (Json.string_ (String (Ascii.ascii_of_N 169) "")) = false /\
  Json.dumps (Json.object [(String (Ascii.ascii_of_N 195) "", Json.null)]) = false.
Proof. by vm_compute. Qed.
