(* ===== verification/Topology.v ===== *)
(** * Topologies

    Models [core/computeResource.hpp], [core/memorySpace.hpp], [core/device.hpp]
    and [core/topology.hpp]: the description of the hardware of an instance, its
    serialization to JSON and back, and the test whether one topology satisfies
    the requirements of another.

    The virtual function [serializeImpl] of an object, which derived classes
    override to add entries of their own, is a field of its record; [None] is a
    type error of the JSON library.  Deserialization always builds objects of the
    base classes. *)

From S2P Require Import Prelude Json.
From Stdlib Require Import ZArith Lia String.
From stdpp Require Import base list option strings.

Local Open Scope Z_scope.
Local Open Scope string_scope.
Local Open Scope list_scope.
Local Open Scope hicr_scope.

(** ** Compute resources *)

Module ComputeResource.

Record t : Type := mk { _type : string; serializeImpl : Json.t -> option Json.t }.

(** The default constructor: no type, nothing added by [serializeImpl]. *)
Definition empty : t := mk "" Some.

Definition getType (c : t) : string := _type c.

Definition serialize (c : t) : option Json.t :=
  output ← serializeImpl c Json.null;
  Json.assign "Type" (Json.string_ (_type c)) output.

Definition set_type (ty : string) : prog t unit := modify (fun c => mk ty (serializeImpl c)).

Definition deserializeImpl (input : Json.t) : prog t unit :=
  ty ← Json.getString input "Type"; set_type ty.

Definition deserialize (input : Json.t) : prog t unit :=
  ty ← Json.getString input "Type";
  _ ← set_type ty;
  deserializeImpl input.

Definition make {S : Type} (input : Json.t) : prog S t := construct (deserialize input) empty.

End ComputeResource.

(** ** Memory spaces *)

Module MemorySpace.

Record t : Type := mk { _type : string; _size : Z; serializeImpl : Json.t -> option Json.t }.

Definition empty : t := mk "" 0 Some.

Definition getType (m : t) : string := _type m.

Definition getSize (m : t) : Z := _size m.

Definition serialize (m : t) : option Json.t :=
  output ← serializeImpl m Json.null;
  output ← Json.assign "Type" (Json.string_ (_type m)) output;
  Json.assign "Size" (Json.number_unsigned (getSize m)) output.

Definition deserializeImpl (input : Json.t) : prog t unit := mret tt.

Definition deserialize (input : Json.t) : prog t unit :=
  ty ← Json.getString input "Type";
  _ ← modify (fun m => mk ty (_size m) (serializeImpl m));
  _ ← deserializeImpl input;
  size ← Json.require Json.is_number_unsigned input "Size";
  n ← Json.get_size size;
  modify (fun m => mk (_type m) n (serializeImpl m)).

Definition make {S : Type} (input : Json.t) : prog S t := construct (deserialize input) empty.

End MemorySpace.

(** ** Devices *)

Module Device.

Definition _HICR_DEVICE_COMPUTE_RESOURCES_KEY_ : string := "Compute Resources".
Definition _HICR_DEVICE_MEMORY_SPACES_KEY_ : string := "Memory Spaces".

Record t : Type := mk {
  _type : string;
  _computeResources : list ComputeResource.t;
  _memorySpaces : list MemorySpace.t;
  serializeImpl : Json.t -> option Json.t
}.

Definition empty : t := mk "" [] [] Some.

Definition getType (d : t) : string := _type d.
Definition getComputeResourceList (d : t) : list ComputeResource.t := _computeResources d.
Definition getMemorySpaceList (d : t) : list MemorySpace.t := _memorySpaces d.

Definition addComputeResource (c : ComputeResource.t) : prog t unit :=
  modify (fun d => mk (_type d) (_computeResources d ++ [c]) (_memorySpaces d) (serializeImpl d)).

Definition addMemorySpace (m : MemorySpace.t) : prog t unit :=
  modify (fun d => mk (_type d) (_computeResources d) (_memorySpaces d ++ [m]) (serializeImpl d)).

(** [output[k] = std::vector<json>(); for (x : l) output[k] += x->serialize();] *)
Definition serialize_list {A : Type} (k : string) (ser : A -> option Json.t) (l : list A) (output : Json.t) : option Json.t :=
  output ← Json.assign k (Json.array []) output;
  foldl (fun o x => output ← o; j ← ser x; Json.append k j output) (Some output) l.

Definition serialize (d : t) : option Json.t :=
  output ← Json.assign "Type" (Json.string_ (_type d)) Json.null;
  output ← serializeImpl d output;
  output ← serialize_list _HICR_DEVICE_COMPUTE_RESOURCES_KEY_ ComputeResource.serialize (_computeResources d) output;
  serialize_list _HICR_DEVICE_MEMORY_SPACES_KEY_ MemorySpace.serialize (_memorySpaces d) output.

(** The checks of one of the two lists: present, an array, and every entry has a
    type, which is a string. *)
Definition check_type {S : Type} (c : Json.t) : prog S unit :=
  _ ← Json.require Json.is_string c "Type";
  mret tt.

Definition check_list {S : Type} (input : Json.t) (k : string) : prog S unit :=
  l ← Json.require Json.is_array input k;
  for_each (Json.elements l) check_type.

Definition deserializeImpl (input : Json.t) : prog t unit :=
  cs ← Json.at_key input _HICR_DEVICE_COMPUTE_RESOURCES_KEY_;
  _ ← for_each (Json.elements cs) (fun c => o ← ComputeResource.make c; addComputeResource o);
  ms ← Json.at_key input _HICR_DEVICE_MEMORY_SPACES_KEY_;
  for_each (Json.elements ms) (fun m => o ← MemorySpace.make m; addMemorySpace o).

(** [deserialize] with the virtual function [deserializeImpl] of the object. *)
Definition deserialize_with (deserializeImpl : Json.t -> prog t unit) (input : Json.t) : prog t unit :=
  ty ← Json.getString input "Type";
  _ ← modify (fun d => mk ty [] [] (serializeImpl d));
  _ ← check_list input _HICR_DEVICE_COMPUTE_RESOURCES_KEY_;
  _ ← check_list input _HICR_DEVICE_MEMORY_SPACES_KEY_;
  _ ← deserializeImpl input;
  d ← gets (fun d => d);
  cs ← Json.at_key input _HICR_DEVICE_COMPUTE_RESOURCES_KEY_;
  _ ← throw_if (negb (bool_decide (length (_computeResources d) = Json.size cs))) logic;
  ms ← Json.at_key input _HICR_DEVICE_MEMORY_SPACES_KEY_;
  throw_if (negb (bool_decide (length (_memorySpaces d) = Json.size ms))) logic.

Definition deserialize (input : Json.t) : prog t unit := deserialize_with deserializeImpl input.

Definition make {S : Type} (input : Json.t) : prog S t := construct (deserialize input) empty.

End Device.

(** ** Topologies *)

Module Topology.

Record t : Type := mk { _metadata : Json.t; _deviceList : list Device.t }.

Definition empty : t := mk Json.null [].

Definition getDevices (t : t) : list Device.t := _deviceList t.

Definition addDevice (d : Device.t) : prog t unit := modify (fun t => mk (_metadata t) (_deviceList t ++ [d])).

Definition merge (source : t) : prog t unit := for_each (getDevices source) addDevice.

Definition getMetadata (t : t) : Json.t := _metadata t.

Definition setMetadata (metadata : Json.t) : prog t unit := modify (fun t => mk metadata (_deviceList t)).

Definition serialize (t : t) : option Json.t :=
  output ← Device.serialize_list "Devices" Device.serialize (_deviceList t) Json.null;
  Json.assign "Metadata" (_metadata t) output.

(** The devices of the input are added to those of the topology. *)
Definition deserialize (input : Json.t) : prog t unit :=
  _ ← (if Json.contains input "Devices"
       then devicesJs ← Json.getArray input "Devices";
            for_each devicesJs (fun deviceJs => d ← Device.make deviceJs; addDevice d)
       else mret tt);
  if Json.contains input "Metadata" then metadata ← Json.at_key input "Metadata"; setMetadata metadata else mret tt.

Definition make {S : Type} (input : Json.t) : prog S t := construct (deserialize input) empty.

Definition verify {S : Type} (input : Json.t) : prog S unit :=
  devices ← Json.require Json.is_array input "Devices";
  for_each (Json.elements devices) Device.check_type.

(** The search loop of [isSubset]: the first element of the current list that
    satisfies the given one is erased; [None] when there is none.  (The loop
    increments its iterator once more after [erase] has invalidated it, but the
    found flag ends it before the iterator is used.) *)
Fixpoint find_and_erase {A : Type} (ok : A -> bool) (current : list A) : option (list A) :=
  match current with
  | [] => None
  | a :: current' => if ok a then Some current' else l ← find_and_erase ok current'; Some (a :: l)
  end.

(** Every given element is matched with a current one of its own. *)
Fixpoint match_all {A : Type} (ok : A -> A -> bool) (given current : list A) : bool :=
  match given with
  | [] => true
  | g :: given' =>
      match find_and_erase (ok g) current with
      | Some current' => match_all ok given' current'
      | None => false
      end
  end.

Definition same_type (given current : ComputeResource.t) : bool :=
  String.eqb (ComputeResource.getType current) (ComputeResource.getType given).

Definition fits (given current : MemorySpace.t) : bool :=
  String.eqb (MemorySpace.getType current) (MemorySpace.getType given) &&
  (MemorySpace.getSize current >=? MemorySpace.getSize given).

Definition deviceIsCompatible (device2 device1 : Device.t) : bool :=
  String.eqb (Device.getType device1) (Device.getType device2) &&
  match_all same_type (Device.getComputeResourceList device2) (Device.getComputeResourceList device1) &&
  match_all fits (Device.getMemorySpaceList device2) (Device.getMemorySpaceList device1).

Definition isSubset (topology1 topology2 : t) : bool :=
  match_all deviceIsCompatible (getDevices topology2) (getDevices topology1).

End Topology.
