(* ===== verification/TopologySpec.v ===== *)
(** * Behaviour of topologies

    [isSubset] is sound with respect to an injective matching of the required
    devices, compute resources and memory spaces; it is exact when equal types
    mean equal hardware, and misses matchings otherwise.  Serialization followed
    by deserialization gives the same hardware back, and deserialization of any
    JSON value either succeeds or throws a logic error. *)

From S2P Require Import Prelude Json Topology.
From Stdlib Require Import ZArith Lia String.
From stdpp Require Import base list option strings.

Local Open Scope Z_scope.
Local Open Scope string_scope.
Local Open Scope list_scope.
Local Open Scope hicr_scope.

(** ** Matchings *)

(** Every given element has a current one of its own that [R] relates to it. *)
Definition covers {A : Type} (R : A -> A -> Prop) (given current : list A) : Prop :=
  exists chosen rest, current ≡ₚ chosen ++ rest /\ Forall2 R given chosen.

(** What a topology requires of a device. *)
Definition same_kind (given current : ComputeResource.t) : Prop :=
  ComputeResource._type current = ComputeResource._type given.

Definition as_large (given current : MemorySpace.t) : Prop :=
  MemorySpace._type current = MemorySpace._type given /\ MemorySpace._size given <= MemorySpace._size current.

Record satisfies (given current : Device.t) : Prop := mkSatisfies {
  sat_type : Device._type current = Device._type given;
  sat_compute : covers same_kind (Device._computeResources given) (Device._computeResources current);
  sat_memory : covers as_large (Device._memorySpaces given) (Device._memorySpaces current)
}.

(** Equal types mean equal hardware: memory spaces of a device with the same type
    have the same size, and devices of the same type have the same resources, in
    any order. *)
Record homogeneous (ds : list Device.t) : Prop := mkHomogeneous {
  hom_spaces : forall d m m', d ∈ ds -> m ∈ Device._memorySpaces d -> m' ∈ Device._memorySpaces d ->
    MemorySpace._type m = MemorySpace._type m' -> MemorySpace._size m = MemorySpace._size m';
  hom_devices : forall d d', d ∈ ds -> d' ∈ ds -> Device._type d = Device._type d' ->
    ComputeResource._type <$> Device._computeResources d ≡ₚ ComputeResource._type <$> Device._computeResources d' /\
    (fun m => (MemorySpace._type m, MemorySpace._size m)) <$> Device._memorySpaces d
      ≡ₚ (fun m => (MemorySpace._type m, MemorySpace._size m)) <$> Device._memorySpaces d'
}.

Section Matching.
Context {A : Type} (ok : A -> A -> bool).
Implicit Types given current : list A.

Lemma find_and_erase_Some (P : A -> bool) current l :
  Topology.find_and_erase P current = Some l -> exists a, P a = true /\ current ≡ₚ a :: l.
Proof.
  revert l. induction current as [|a current IH]; intros l E; [done|]. cbn in E. destruct (P a) eqn:Ea.
  - injection E as <-. by exists a.
  - destruct (Topology.find_and_erase P current) as [l'|] eqn:El; [|done]. injection E as <-.
    destruct (IH l' eq_refl) as (b & Hb & Hp). exists b. split; [done|]. by rewrite Hp, Permutation_swap.
Qed.

Lemma find_and_erase_None (P : A -> bool) current :
  Topology.find_and_erase P current = None -> forall a, a ∈ current -> P a = false.
Proof.
  induction current as [|b current IH]; intros E a Ha; [by apply elem_of_nil in Ha|]. cbn in E. destruct (P b) eqn:Eb; [done|].
  destruct (Topology.find_and_erase P current); [done|]. apply elem_of_cons in Ha as [->|Ha]; [done|by apply IH].
Qed.

Lemma match_all_sound given current :
  Topology.match_all ok given current = true -> covers (fun g a => ok g a = true) given current.
Proof.
  revert current. induction given as [|g given IH]; intros current E; [by exists [], current|]. cbn in E.
  destruct (Topology.find_and_erase (ok g) current) as [l|] eqn:El; [|done].
  apply find_and_erase_Some in El as (a & Ha & Hp). destruct (IH l E) as (chosen & rest & Hl & HF).
  exists (a :: chosen), rest. split; [by rewrite Hp, Hl|by constructor].
Qed.

(** Another matching after an element that serves the first request as well. *)
Lemma covers_exchange given l a0 a chosen rest :
  a0 :: l ≡ₚ a :: chosen ++ rest -> Forall2 (fun g x => ok g x = true) given chosen ->
  (forall g, g ∈ given -> ok g a0 = true -> ok g a = true) -> covers (fun g x => ok g x = true) given l.
Proof.
  intros Hp HF Hx. assert (Hin : a0 ∈ a :: chosen ++ rest) by (rewrite <- Hp; by left).
  apply elem_of_cons in Hin as [<-|Hin]; [|apply elem_of_app in Hin as [Hin|Hin]].
  - apply Permutation_cons_inv in Hp. by exists chosen, rest.
  - apply list_elem_of_split in Hin as (l1 & l2 & ->). apply Forall2_app_inv_r in HF as (g1 & g2 & H1 & H2 & ->).
    inversion H2 as [|g ? g2' ? Hg H2']; subst. exists (l1 ++ a :: l2), rest. split.
    + apply (Permutation_cons_inv (a := a0)). rewrite Hp. solve_Permutation.
    + apply Forall2_app; [done|]. constructor; [|done]. apply Hx; [|done]. apply elem_of_app. right. by left.
  - apply list_elem_of_split in Hin as (l1 & l2 & ->). exists chosen, (a :: l1 ++ l2). split; [|done].
    apply (Permutation_cons_inv (a := a0)). rewrite Hp. solve_Permutation.
Qed.

(** Taking the first element that fits loses nothing when the elements that fit
    a request serve the same requests. *)
Lemma match_all_complete given current :
  (forall g a a', g ∈ given -> a ∈ current -> a' ∈ current -> ok g a = true -> ok g a' = true ->
     forall g', g' ∈ given -> ok g' a = true -> ok g' a' = true) ->
  covers (fun g a => ok g a = true) given current -> Topology.match_all ok given current = true.
Proof.
  revert current. induction given as [|g given IH]; intros current Hx (chosen & rest & Hp & HF); [done|].
  inversion HF as [|? a ? chosen' Hg HF']; subst. assert (Ha : a ∈ current) by (rewrite Hp; by left). cbn.
  destruct (Topology.find_and_erase (ok g) current) as [l|] eqn:El; cycle 1.
  { by rewrite (find_and_erase_None _ _ El a Ha) in Hg. }
  apply find_and_erase_Some in El as (a0 & Ha0 & Hp0). apply IH.
  - intros g1 x x' H1 Hx1 Hx2 E1 E2 g2 H2. apply (Hx g1 x x'); try done; try (by right); rewrite Hp0; by right.
  - eapply covers_exchange; [rewrite <- Hp0; exact Hp|exact HF'|]. intros g1 H1.
    apply (Hx g a0 a); [by left|rewrite Hp0; by left|done|done|done|by right].
Qed.

(** A list is matched with any list it is a prefix of. *)
Lemma match_all_prefix given rest :
  (forall a, a ∈ given -> ok a a = true) -> Topology.match_all ok given (given ++ rest) = true.
Proof.
  induction given as [|g given IH]; intros Hr; [done|]. cbn. rewrite (Hr g) by (by left). apply IH. intros a Ha. apply Hr. by right.
Qed.

Lemma match_all_refl l : (forall a, ok a a = true) -> Topology.match_all ok l l = true.
Proof. intros Hr. rewrite <- (app_nil_r l) at 2. by apply match_all_prefix. Qed.

End Matching.

Lemma covers_mono {A : Type} (R R' : A -> A -> Prop) given current :
  (forall g a, R g a -> R' g a) -> covers R given current -> covers R' given current.
Proof. intros H (chosen & rest & Hp & HF). exists chosen, rest. split; [done|]. by eapply Forall2_impl. Qed.

Lemma same_type_spec g c : Topology.same_type g c = true <-> same_kind g c.
Proof. apply String.eqb_eq. Qed.

Lemma fits_spec g c : Topology.fits g c = true <-> as_large g c.
Proof.
  unfold Topology.fits, as_large, MemorySpace.getType, MemorySpace.getSize.
  rewrite andb_true_iff, String.eqb_eq, Z.geb_le. done.
Qed.

(** The two checks within a device, as matchings. *)
Lemma match_compute given current :
  Topology.match_all Topology.same_type given current = true <-> covers same_kind given current.
Proof.
  split.
  - intros H%match_all_sound. eapply covers_mono; [|exact H]. intros g a. apply same_type_spec.
  - intros H. apply match_all_complete.
    + intros g a a' _ _ _ Ea Ea' g' _ Eg. rewrite !same_type_spec in *. unfold same_kind in *. congruence.
    + eapply covers_mono; [|exact H]. intros g a. apply same_type_spec.
Qed.

Lemma match_memory given current :
  (forall m m', m ∈ current -> m' ∈ current -> MemorySpace._type m = MemorySpace._type m' -> MemorySpace._size m = MemorySpace._size m') ->
  Topology.match_all Topology.fits given current = true <-> covers as_large given current.
Proof.
  intros Hh. split.
  - intros H%match_all_sound. eapply covers_mono; [|exact H]. intros g a. apply fits_spec.
  - intros H. apply match_all_complete.
    + intros g a a' _ Ha Ha' Ea Ea' g' _ Eg. rewrite !fits_spec in *. destruct Ea, Ea', Eg. split; [congruence|].
      rewrite <- (Hh a a') by (done || congruence). done.
    + eapply covers_mono; [|exact H]. intros g a. apply fits_spec.
Qed.

Lemma compatible_sound d2 d1 : Topology.deviceIsCompatible d2 d1 = true -> satisfies d2 d1.
Proof.
  unfold Topology.deviceIsCompatible. rewrite !andb_true_iff, String.eqb_eq. intros [[Ht Hc] Hm]. split; [done|by apply match_compute|].
  apply match_all_sound in Hm. eapply covers_mono; [|exact Hm]. intros g a. apply fits_spec.
Qed.

Lemma compatible_exact ds d2 d1 :
  homogeneous ds -> d1 ∈ ds -> Topology.deviceIsCompatible d2 d1 = true <-> satisfies d2 d1.
Proof.
  intros Hh Hd. split; [apply compatible_sound|]. intros [Ht Hc Hm]. unfold Topology.deviceIsCompatible.
  rewrite !andb_true_iff, String.eqb_eq. split_and!; [done|by apply match_compute|]. apply match_memory; [|done].
  intros m m'. by apply (hom_spaces _ Hh d1).
Qed.

(** A matching only depends on what [f] sees of the current elements. *)
Lemma covers_fmap {A B : Type} (R : A -> A -> Prop) (f : A -> B) given l l' :
  (forall g a a', f a = f a' -> R g a -> R g a') -> f <$> l ≡ₚ f <$> l' -> covers R given l -> covers R given l'.
Proof.
  intros Hf Hp (chosen & rest & Hl & HF). rewrite Hl in Hp.
  apply Permutation_map_inv in Hp as (k & E & Hk). rewrite (fmap_app f) in E. symmetry in E.
  apply fmap_app_inv in E as (k1 & k2 & E1 & E2 & ->).
  exists k1, k2. split; [by rewrite Hk|]. clear -Hf HF E1. revert k1 E1. induction HF as [|g a given chosen Hg HF IH]; intros k1 E1.
  - symmetry in E1. apply fmap_nil_inv in E1 as ->. constructor.
  - symmetry in E1. apply fmap_cons_inv in E1 as (a' & k' & Ea & Ek & ->). constructor; [by eapply Hf|by apply IH].
Qed.

Lemma satisfies_homogeneous ds d2 d d' :
  homogeneous ds -> d ∈ ds -> d' ∈ ds -> Device._type d = Device._type d' -> satisfies d2 d -> satisfies d2 d'.
Proof.
  intros Hh Hd Hd' Ht [Hty Hc Hm]. destruct (hom_devices _ Hh d d' Hd Hd' Ht) as [Hpc Hpm]. split; [congruence|..].
  - eapply covers_fmap; [|exact Hpc|exact Hc]. unfold same_kind. intros. congruence.
  - eapply covers_fmap; [|exact Hpm|exact Hm]. unfold as_large. intros g a a' E [? ?]. injection E as E1 E2. split; [congruence|lia].
Qed.

(** [isSubset] is sound: when it answers true, every required device has a
    device of the first topology of its own that has its type, and that has for
    every required compute resource one of its own of that type and for every
    required memory space one of its own of that type and at least that size. *)
Theorem isSubset_sound t1 t2 :
  Topology.isSubset t1 t2 = true -> covers satisfies (Topology._deviceList t2) (Topology._deviceList t1).
Proof. intros H%match_all_sound. eapply covers_mono; [|exact H]. intros g a. apply compatible_sound. Qed.

(** C29: [isSubset] is exact on topologies in which equal types mean equal hardware:
    it answers true if and only if there is a matching. *)
Theorem isSubset_exact t1 t2 :
  homogeneous (Topology._deviceList t1) ->
  Topology.isSubset t1 t2 = true <-> covers satisfies (Topology._deviceList t2) (Topology._deviceList t1).
Proof.
  intros Hh. split; [intros H%match_all_sound; eapply covers_mono; [|exact H]; intros g a; apply compatible_sound|].
  intros H. apply match_all_complete.
  - intros g a a' _ Ha Ha' Ea Ea' g' _ Eg. apply compatible_sound in Eg.
    apply (compatible_exact _ _ _ Hh Ha'). eapply satisfies_homogeneous; [exact Hh|exact Ha|exact Ha'| |exact Eg].
    apply compatible_sound in Ea as [Ea _ _]. apply compatible_sound in Ea' as [Ea' _ _]. congruence.
  - destruct H as (chosen & rest & Hp & HF). exists chosen, rest. split; [done|].
    assert (Hc : forall a, a ∈ chosen -> a ∈ Topology._deviceList t1).
    { intros a Ha. rewrite Hp. apply elem_of_app. by left. }
    clear Hp. unfold Topology.getDevices. induction HF as [|g a given chosen Hg HF IH]; constructor.
    + apply (compatible_exact _ _ _ Hh); [|done]. apply Hc. by left.
    + apply IH. intros b Hb. apply Hc. by right.
Qed.

(** The greedy search depends on the order: a device with memory spaces of sizes
    [b] and [a], [a] the smaller, has what a request for sizes [a] and [b] asks
    for, but the request for [a] takes the larger space. *)
Definition two_spaces (ty : string) (a b : Z) : Topology.t :=
  Topology.mk Json.null
    [Device.mk "NUMA Domain" [] [MemorySpace.mk ty a Some; MemorySpace.mk ty b Some] Some].

(** [isSubset] can miss a matching: with two memory spaces of the same type
    and different sizes, a topology is not recognised as a subset of the same
    topology with the spaces in the other order. *)
Theorem isSubset_order ty a b :
  a < b ->
  Topology.isSubset (two_spaces ty b a) (two_spaces ty a b) = false /\
  covers satisfies (Topology._deviceList (two_spaces ty a b)) (Topology._deviceList (two_spaces ty b a)).
Proof.
  intros Hab. split.
  - unfold Topology.isSubset, Topology.deviceIsCompatible, Topology.fits. cbn. rewrite !String.eqb_refl. cbn.
    rewrite (proj2 (Z.geb_le b a)) by lia. cbn. rewrite String.eqb_refl. cbn.
    rewrite Z.geb_leb, (proj2 (Z.leb_gt b a)) by lia. done.
  - exists (Topology._deviceList (two_spaces ty b a)), []. split; [done|]. constructor; [|constructor]. split; cbn; [done|by exists [], []|].
    exists [MemorySpace.mk ty a Some; MemorySpace.mk ty b Some], []. split; [apply Permutation_swap|].
    repeat (constructor; [split; cbn; [done|lia]|]). constructor.
Qed.

(** Merging keeps a topology a superset of what it was: the devices of the
    source are added behind its own, its metadata stays, and the result is a
    superset of the original. *)
Theorem merge_superset t source :
  exists t', run (Topology.merge source) t = Done tt t' /\
    t' = Topology.mk (Topology._metadata t) (Topology._deviceList t ++ Topology._deviceList source) /\
    Topology.isSubset t' t = true.
Proof.
  eexists. split_and!; [|done|].
  - unfold Topology.merge, Topology.getDevices. generalize (Topology._deviceList source) as l. intros l. revert t.
    induction l as [|d l IH]; intros [meta ds]; cbn; [by rewrite app_nil_r|]. rewrite IH. cbn. by rewrite <- app_assoc.
  - unfold Topology.isSubset. apply match_all_prefix. intros d _. unfold Topology.deviceIsCompatible.
    rewrite String.eqb_refl, !match_all_refl; [done|intros m; apply fits_spec; by split|intros c; by apply same_type_spec].
Qed.

(** ** Deserialization *)

(** What JSON values describe, as a reference for the deserialization functions. *)
Definition parse_type (j : Json.t) : option string :=
  match Json.find j "Type" with Some (Json.string_ s) => Some s | _ => None end.

Definition parse_list {A : Type} (parse : Json.t -> option A) (k : string) (j : Json.t) : option (list A) :=
  match Json.find j k with Some (Json.array l) => mapM parse l | _ => None end.

Definition parse_compute (j : Json.t) : option ComputeResource.t :=
  ty ← parse_type j; Some (ComputeResource.mk ty Some).

Definition parse_space (j : Json.t) : option MemorySpace.t :=
  ty ← parse_type j;
  match Json.find j "Size" with Some (Json.number_unsigned n) => Some (MemorySpace.mk ty n Some) | _ => None end.

Definition parse_device (j : Json.t) : option Device.t :=
  ty ← parse_type j;
  cs ← parse_list parse_compute Device._HICR_DEVICE_COMPUTE_RESOURCES_KEY_ j;
  ms ← parse_list parse_space Device._HICR_DEVICE_MEMORY_SPACES_KEY_ j;
  Some (Device.mk ty cs ms Some).

(** The error for an invalid description of a device or a resource: when it has no type,
    that of [getString]; everything else is a logic error. *)
Definition typed_error (j : Json.t) : exn :=
  match parse_type j with Some _ => logic | None => refusal j end.

(** What is read before the first invalid value, and the error for that one, if any. *)
Fixpoint parse_prefix {A : Type} (parse : Json.t -> option A) (l : list Json.t) : list A * option exn :=
  match l with
  | [] => ([], None)
  | j :: l' =>
      match parse j with
      | None => ([], Some (typed_error j))
      | Some a => let '(xs, e) := parse_prefix parse l' in (a :: xs, e)
      end
  end.

Definition parse_topology (input : Json.t) : list Device.t * option exn :=
  match Json.find input "Devices" with
  | None => ([], None)
  | Some (Json.array l) => parse_prefix parse_device l
  | Some _ => ([], Some (refusal input))
  end.

Lemma run_make_compute {S : Type} j (s : S) :
  run (ComputeResource.make j) s = match parse_compute j with Some c => Done c s | None => Thrown (typed_error j) s end.
Proof.
  unfold ComputeResource.make, ComputeResource.deserialize, ComputeResource.deserializeImpl, parse_compute, typed_error, parse_type.
  rewrite run_construct, run_bind, run_getString. destruct (Json.find j "Type") as [[]|] eqn:E; try done.
  rewrite run_bind. cbn. rewrite run_bind, run_getString, E. done.
Qed.

Lemma run_make_space {S : Type} j (s : S) :
  run (MemorySpace.make j) s = match parse_space j with Some m => Done m s | None => Thrown (typed_error j) s end.
Proof.
  unfold MemorySpace.make, MemorySpace.deserialize, MemorySpace.deserializeImpl, parse_space, typed_error, parse_type.
  rewrite run_construct, run_bind, run_getString. destruct (Json.find j "Type") as [[]|] eqn:E; try done.
  rewrite run_bind, run_modify, run_bind, run_ret, run_bind, run_require. by destruct (Json.find j "Size") as [[]|].
Qed.

Lemma run_check_type {S : Type} j (s : S) :
  run (Device.check_type j) s = match parse_type j with Some _ => Done tt s | None => Thrown logic s end.
Proof.
  unfold Device.check_type, parse_type. rewrite run_bind, run_require. by destruct (Json.find j "Type") as [[]|].
Qed.

Lemma run_check_types {S : Type} l (s : S) :
  run (for_each l Device.check_type) s = match mapM parse_type l with Some _ => Done tt s | None => Thrown logic s end.
Proof.
  induction l as [|j l IH]; [done|]. cbn [for_each mapM]. rewrite run_bind, run_check_type.
  destruct (parse_type j); [|done]. rewrite IH. cbn. by destruct (mapM parse_type l).
Qed.

Lemma run_check_list {S : Type} j k (s : S) :
  run (Device.check_list j k) s = match parse_list parse_type k j with Some _ => Done tt s | None => Thrown logic s end.
Proof.
  unfold Device.check_list, parse_list. rewrite run_bind, run_require.
  destruct (Json.find j k) as [[]|]; try done. apply run_check_types.
Qed.

(** A loop that builds objects and adds them stops at the first invalid one. *)
Lemma run_build_list {A T : Type} (parse : Json.t -> option A) (mk : Json.t -> prog T A) (add : A -> T -> T) l (o : T) :
  (forall j (o : T), run (mk j) o = match parse j with Some a => Done a o | None => Thrown (typed_error j) o end) ->
  run (for_each l (fun j => x ← mk j; modify (add x))) o =
  let '(xs, e) := parse_prefix parse l in
  match e with None => Done tt (foldl (fun o x => add x o) o xs) | Some e => Thrown e (foldl (fun o x => add x o) o xs) end.
Proof.
  intros Hm. revert o. induction l as [|j l IH]; intros o; [done|]. cbn [for_each parse_prefix].
  rewrite run_bind, run_bind, Hm. destruct (parse j) as [a|]; [|done]. rewrite run_modify, IH.
  by destruct (parse_prefix parse l) as [xs []].
Qed.

Lemma parse_prefix_mapM {A : Type} (parse : Json.t -> option A) l :
  mapM parse l = let '(xs, e) := parse_prefix parse l in match e with None => Some xs | Some _ => None end.
Proof.
  induction l as [|j l IH]; [done|]. cbn. destruct (parse j); [|done]. cbn. rewrite IH.
  by destruct (parse_prefix parse l) as [xs []].
Qed.

(** When all have types, the only error is a logic error. *)
Lemma parse_prefix_typed {A : Type} (parse : Json.t -> option A) l xs e :
  is_Some (mapM parse_type l) -> parse_prefix parse l = (xs, Some e) -> e = logic.
Proof.
  intros Ht. revert xs. induction l as [|j l IH]; intros xs E; [done|]. apply mapM_is_Some_1, Forall_cons_1 in Ht as [[ty Hty] Ht].
  cbn in E. destruct (parse j) as [a|].
  - destruct (parse_prefix parse l) as [ys e'] eqn:El. injection E as <- ->. eapply IH; [by apply mapM_is_Some_2|done].
  - injection E as <- <-. unfold typed_error. by rewrite Hty.
Qed.

(** Whatever is accepted by a parser that starts with the type passes the check of types. *)
Lemma parse_typed {A : Type} (parse : Json.t -> option A) l xs :
  (forall j a, parse j = Some a -> is_Some (parse_type j)) -> mapM parse l = Some xs -> is_Some (mapM parse_type l).
Proof.
  intros Hp E. apply mapM_is_Some_2. apply mapM_Some_1 in E. induction E; constructor; eauto.
Qed.

Lemma foldl_add_compute l d :
  foldl (fun d c => Device.mk (Device._type d) (Device._computeResources d ++ [c]) (Device._memorySpaces d) (Device.serializeImpl d)) d l =
  Device.mk (Device._type d) (Device._computeResources d ++ l) (Device._memorySpaces d) (Device.serializeImpl d).
Proof.
  revert d. induction l as [|c l IH]; intros []; cbn; [by rewrite app_nil_r|]. rewrite IH. cbn. by rewrite <- app_assoc.
Qed.

Lemma foldl_add_space l d :
  foldl (fun d m => Device.mk (Device._type d) (Device._computeResources d) (Device._memorySpaces d ++ [m]) (Device.serializeImpl d)) d l =
  Device.mk (Device._type d) (Device._computeResources d) (Device._memorySpaces d ++ l) (Device.serializeImpl d).
Proof.
  revert d. induction l as [|c l IH]; intros []; cbn; [by rewrite app_nil_r|]. rewrite IH. cbn. by rewrite <- app_assoc.
Qed.

Lemma parse_compute_types l :
  mapM parse_compute l = tys ← mapM parse_type l; Some (map (fun ty => ComputeResource.mk ty Some) tys).
Proof.
  induction l as [|j l IH]; [done|]. cbn. rewrite IH. unfold parse_compute at 1. destruct (parse_type j); [|done]. cbn.
  by destruct (mapM parse_type l).
Qed.

(** The second half of the deserialization of a device, when the lists are arrays. *)
Lemma run_deserializeImpl j ty lc ls f :
  Json.find j Device._HICR_DEVICE_COMPUTE_RESOURCES_KEY_ = Some (Json.array lc) ->
  Json.find j Device._HICR_DEVICE_MEMORY_SPACES_KEY_ = Some (Json.array ls) ->
  match mapM parse_compute lc, mapM parse_space ls with
  | Some cs, Some ms => run (Device.deserializeImpl j) (Device.mk ty [] [] f) = Done tt (Device.mk ty cs ms f)
  | _, _ => exists d e, run (Device.deserializeImpl j) (Device.mk ty [] [] f) = Thrown e d /\
              (is_Some (mapM parse_type lc) -> is_Some (mapM parse_type ls) -> e = logic)
  end.
Proof.
  intros Ec Es. unfold Device.deserializeImpl, Device.addComputeResource, Device.addMemorySpace.
  rewrite run_bind, (run_at_key _ _ _ _ Ec), run_bind, (run_build_list parse_compute) by apply run_make_compute.
  cbn [Json.elements]. rewrite (parse_prefix_mapM parse_compute), (parse_prefix_mapM parse_space). destruct (parse_prefix parse_compute lc) as [cs [e|]] eqn:Ecs.
  { eexists _, e. split; [done|]. intros H _. by eapply parse_prefix_typed. }
  rewrite run_bind, (run_at_key _ _ _ _ Es), (run_build_list parse_space) by apply run_make_space.
  cbn [Json.elements]. rewrite foldl_add_compute. destruct (parse_prefix parse_space ls) as [ms [e|]] eqn:Ems; rewrite foldl_add_space; [|done].
  eexists _, e. split; [done|]. intros _ H. by eapply parse_prefix_typed.
Qed.

Lemma parse_device_inv j d :
  parse_device j = Some d -> exists lc ls,
    Json.find j "Type" = Some (Json.string_ (Device._type d)) /\
    Json.find j Device._HICR_DEVICE_COMPUTE_RESOURCES_KEY_ = Some (Json.array lc) /\
    Json.find j Device._HICR_DEVICE_MEMORY_SPACES_KEY_ = Some (Json.array ls) /\
    mapM parse_compute lc = Some (Device._computeResources d) /\ mapM parse_space ls = Some (Device._memorySpaces d) /\
    d = Device.mk (Device._type d) (Device._computeResources d) (Device._memorySpaces d) Some.
Proof.
  unfold parse_device, parse_type, parse_list. intros Hp.
  destruct (Json.find j "Type") as [[| | |ty| | | | | |]|] eqn:Et; try done. cbn [mbind option_bind] in Hp.
  destruct (Json.find j Device._HICR_DEVICE_COMPUTE_RESOURCES_KEY_) as [[| |lc| | | | | | |]|] eqn:Ec; try done.
  destruct (mapM parse_compute lc) as [cs|] eqn:Ecs; [|done]. cbn [mbind option_bind] in Hp.
  destruct (Json.find j Device._HICR_DEVICE_MEMORY_SPACES_KEY_) as [[| |ls| | | | | | |]|] eqn:Es; try done.
  destruct (mapM parse_space ls) as [ms|] eqn:Ems; [|done]. injection Hp as <-. by exists lc, ls.
Qed.

(** A device that is described correctly, with the [deserializeImpl] of its class. *)
Lemma run_deserialize_with impl j d d0 f :
  parse_device j = Some d ->
  run (impl j) (Device.mk (Device._type d) [] [] (Device.serializeImpl d0)) =
    Done tt (Device.mk (Device._type d) (Device._computeResources d) (Device._memorySpaces d) f) ->
  run (Device.deserialize_with impl j) d0 = Done tt (Device.mk (Device._type d) (Device._computeResources d) (Device._memorySpaces d) f).
Proof.
  intros (lc & ls & Et & Ec & Es & Ecs & Ems & _)%parse_device_inv HI.
  destruct (parse_typed parse_compute lc (Device._computeResources d)) as [tc Etc]; [|exact Ecs|].
  { intros j' c. unfold parse_compute. destruct (parse_type j'); [by eexists|done]. }
  destruct (parse_typed parse_space ls (Device._memorySpaces d)) as [ts Ets]; [|exact Ems|].
  { intros j' m. unfold parse_space. destruct (parse_type j'); [by eexists|done]. }
  unfold Device.deserialize_with. rewrite run_bind, run_getString, Et, run_bind, run_modify, run_bind, run_check_list.
  unfold parse_list at 1. rewrite Ec, Etc, run_bind, run_check_list. unfold parse_list. rewrite Es, Ets, run_bind, HI.
  rewrite run_bind, run_gets, run_bind, (run_at_key _ _ _ _ Ec), run_bind.
  apply length_mapM in Ecs, Ems. rewrite run_throw_if_false, run_bind, (run_at_key _ _ _ _ Es), run_throw_if_false; [done|..]; cbn.
  - by rewrite Ems, bool_decide_true.
  - by rewrite Ecs, bool_decide_true.
Qed.

Lemma run_make_device {S : Type} j (s : S) :
  run (Device.make j) s = match parse_device j with Some d => Done d s | None => Thrown (typed_error j) s end.
Proof.
  unfold Device.make, Device.deserialize. rewrite run_construct. destruct (parse_device j) as [d|] eqn:Ed.
  - destruct (parse_device_inv j d Ed) as (lc & ls & _ & Ec & Es & Ecs & Ems & Hd).
    pose proof (run_deserializeImpl j (Device._type d) lc ls Some Ec Es) as HI. rewrite Ecs, Ems in HI.
    rewrite (run_deserialize_with _ j d Device.empty Some Ed HI). by rewrite <- Hd.
  - unfold Device.deserialize_with, typed_error. rewrite run_bind, run_getString. unfold parse_device, parse_type, parse_list in Ed. unfold parse_type at 1.
    destruct (Json.find j "Type") as [[| | |ty| | | | | |]|] eqn:Et; try done. cbn [mbind option_bind] in Ed.
    rewrite run_bind, run_modify, run_bind, run_check_list. unfold parse_list.
    destruct (Json.find j Device._HICR_DEVICE_COMPUTE_RESOURCES_KEY_) as [[| |lc| | | | | | |]|] eqn:Ec; try done.
    rewrite parse_compute_types in Ed. destruct (mapM parse_type lc) as [tys|] eqn:Etys; [|done].
    rewrite run_bind, run_check_list. unfold parse_list. cbn [mbind option_bind] in Ed.
    destruct (Json.find j Device._HICR_DEVICE_MEMORY_SPACES_KEY_) as [[| |ls| | | | | | |]|] eqn:Es; try done.
    destruct (mapM parse_space ls) as [ms|] eqn:Ems; [done|]. destruct (mapM parse_type ls) eqn:Ets; [|done].
    pose proof (run_deserializeImpl j ty lc ls Some Ec Es) as HI. rewrite parse_compute_types, Etys, Ems in HI.
    rewrite run_bind. cbn [Device.empty Device.serializeImpl]. destruct HI as (d & e & -> & He). rewrite He; [done|by eexists|by rewrite Ets].
Qed.

(** Parsed devices pass [verify]. *)
Lemma run_verify {S : Type} input l ds (s : S) :
  Json.find input "Devices" = Some (Json.array l) -> mapM parse_device l = Some ds -> run (Topology.verify input) s = Done tt s.
Proof.
  intros E Hp. unfold Topology.verify. rewrite run_bind, run_require, E. cbn. rewrite run_check_types.
  destruct (parse_typed parse_device l ds) as [tys ->]; [|done|done].
  intros j d. unfold parse_device. destruct (parse_type j); [by eexists|done].
Qed.

Lemma run_deserialize_topology input t :
  run (Topology.deserialize input) t =
  let '(ds, e) := parse_topology input in
  match e with
  | None => Done tt (Topology.mk (default (Topology._metadata t) (Json.find input "Metadata")) (Topology._deviceList t ++ ds))
  | Some e => Thrown e (Topology.mk (Topology._metadata t) (Topology._deviceList t ++ ds))
  end.
Proof.
  assert (Hf : forall l meta ds0, foldl (fun t d => Topology.mk (Topology._metadata t) (Topology._deviceList t ++ [d])) (Topology.mk meta ds0) l
                = Topology.mk meta (ds0 ++ l)).
  { induction l as [|d l IH]; intros meta ds0; cbn; [by rewrite app_nil_r|]. rewrite IH. by rewrite <- app_assoc. }
  assert (Hm : forall u, run (if Json.contains input "Metadata" then metadata ← Json.at_key input "Metadata"; Topology.setMetadata metadata else mret tt) u
             = Done tt (Topology.mk (default (Topology._metadata u) (Json.find input "Metadata")) (Topology._deviceList u))).
  { intros [meta ds]. destruct (Json.find input "Metadata") as [v|] eqn:E.
    - by rewrite (contains_find _ _ _ E), run_bind, (run_at_key _ _ _ _ E).
    - by rewrite (contains_None _ _ E). }
  destruct t as [meta ds0]. unfold Topology.deserialize, parse_topology. rewrite run_bind.
  destruct (Json.find input "Devices") as [v|] eqn:E.
  - rewrite (contains_find _ _ _ E), run_bind, run_getArray, E. destruct v as [| |l| | | | | | |]; cbn; try (by rewrite app_nil_r).
    unfold Topology.addDevice. rewrite (run_build_list parse_device) by apply run_make_device.
    destruct (parse_prefix parse_device l) as [ds [e|]]; rewrite Hf; [done|apply Hm].
  - rewrite (contains_None _ _ E). cbn [run mret prog_mret]. rewrite Hm. cbn. by rewrite app_nil_r.
Qed.

(** C31: deserialization on every input.  The valid devices of the input, up to
    the first invalid one, are added behind those of the topology; when all are
    valid the metadata is replaced if the input has any, otherwise an error is thrown
    and the metadata stays, but the devices that came before are there.  The error is a
    logic error, except when the message of an accessor cannot be written because the
    value has strings that are not UTF-8: then it is the error of the JSON library.  No
    input leads to undefined behaviour, and an accepted input with devices is one
    that [verify] accepts. *)
Theorem deserialize_spec input t :
  run (Topology.deserialize input) t =
    (let '(ds, e) := parse_topology input in
     match e with
     | None => Done tt (Topology.mk (default (Topology._metadata t) (Json.find input "Metadata")) (Topology._deviceList t ++ ds))
     | Some e => Thrown e (Topology.mk (Topology._metadata t) (Topology._deviceList t ++ ds))
     end) /\
  match (parse_topology input).2 with
  | None => Json.contains input "Devices" = true -> run (Topology.verify input) t = Done tt t
  | Some e => e = logic \/ e = json_type_error
  end.
Proof.
  assert (He : forall j, refusal j = logic \/ refusal j = json_type_error) by (intros j; unfold refusal; destruct (Json.dumps j); auto).
  split; [apply run_deserialize_topology|]. unfold parse_topology.
  destruct (Json.find input "Devices") as [v|] eqn:E; [|by rewrite (contains_None _ _ E)]. rewrite (contains_find _ _ _ E).
  destruct v as [| |l| | | | | | |]; cbn; try apply He.
  pose proof (parse_prefix_mapM parse_device l) as Hp. destruct (parse_prefix parse_device l) as [ds [e|]] eqn:El; cbn; [|intros _; by apply (run_verify _ l ds)].
  clear Hp E. revert ds El. induction l as [|j l IH]; intros ds El; [done|]. cbn in El. destruct (parse_device j).
  - destruct (parse_prefix parse_device l) as [ys e']. injection El as <- ->. by eapply IH.
  - injection El as <- <-. unfold typed_error. destruct (parse_type j); auto.
Qed.

(** ** The round trip *)

(** What [serializeImpl] of a derived class may do: add entries, but not change
    the type. *)
Definition adds (f : Json.t -> option Json.t) : Prop :=
  forall j, keyed j -> exists j', f j = Some j' /\ keyed j' /\ Json.find j' "Type" = Json.find j "Type".

(** The objects of the base classes with the same hardware. *)
Definition base_compute (c : ComputeResource.t) : ComputeResource.t := ComputeResource.mk (ComputeResource._type c) Some.
Definition base_space (m : MemorySpace.t) : MemorySpace.t := MemorySpace.mk (MemorySpace._type m) (MemorySpace._size m) Some.
Definition base_device (d : Device.t) : Device.t :=
  Device.mk (Device._type d) (map base_compute (Device._computeResources d)) (map base_space (Device._memorySpaces d)) Some.

Record device_adds (d : Device.t) : Prop := mkDeviceAdds {
  da_device : adds (Device.serializeImpl d);
  da_compute : Forall (fun c => adds (ComputeResource.serializeImpl c)) (Device._computeResources d);
  da_space : Forall (fun m => adds (MemorySpace.serializeImpl m)) (Device._memorySpaces d)
}.

Lemma keyed_null : keyed Json.null.
Proof. by eexists. Qed.

Lemma find_keyed j k v : Json.find j k = Some v -> keyed j.
Proof. destruct j; try done. by eexists. Qed.

Lemma serialize_compute c :
  adds (ComputeResource.serializeImpl c) ->
  exists j, ComputeResource.serialize c = Some j /\ parse_compute j = Some (base_compute c).
Proof.
  intros Ha. unfold ComputeResource.serialize. destruct (Ha _ keyed_null) as (j & -> & Hk & _). cbn.
  destruct (assign_spec "Type" (Json.string_ (ComputeResource._type c)) j Hk) as (j' & E & _ & Ht & _).
  exists j'. split; [done|]. unfold parse_compute, parse_type. by rewrite Ht.
Qed.

Lemma serialize_space m :
  adds (MemorySpace.serializeImpl m) ->
  exists j, MemorySpace.serialize m = Some j /\ parse_space j = Some (base_space m).
Proof.
  intros Ha. unfold MemorySpace.serialize. destruct (Ha _ keyed_null) as (j & -> & Hk & _). cbn.
  destruct (assign_spec "Type" (Json.string_ (MemorySpace._type m)) j Hk) as (j' & -> & Hk' & Ht & _). cbn.
  destruct (assign_spec "Size" (Json.number_unsigned (MemorySpace.getSize m)) j' Hk') as (j2 & E & _ & Hs & Ho).
  exists j2. split; [done|]. unfold parse_space, parse_type. rewrite (Ho "Type"), Ht by done. cbn. by rewrite Hs.
Qed.

(** A serialized list is an array of the serialized elements. *)
Lemma serialize_list_runs {A : Type} (ser : A -> option Json.t) k l output :
  keyed output -> Forall (fun x => is_Some (ser x)) l ->
  exists output' js, Device.serialize_list k ser l output = Some output' /\
    Json.find output' k = Some (Json.array js) /\ Forall2 (fun x j => ser x = Some j) l js /\
    forall k', k' <> k -> Json.find output' k' = Json.find output k'.
Proof.
  intros Hk Hs. unfold Device.serialize_list.
  destruct (assign_spec k (Json.array []) output Hk) as (o1 & -> & _ & Hf & Ho). cbn.
  assert (Hg : forall js o, Json.find o k = Some (Json.array js) ->
    exists o' js', foldl (fun o x => output ← o; j ← ser x; Json.append k j output) (Some o) l = Some o' /\
      Json.find o' k = Some (Json.array (js ++ js')) /\ Forall2 (fun x j => ser x = Some j) l js' /\
      forall k', k' <> k -> Json.find o' k' = Json.find o k').
  { clear -Hs. induction Hs as [|x l [j Ej] _ IH]; intros js o Hf; [exists o, []; by rewrite app_nil_r|].
    destruct (append_spec k j o js Hf) as (o2 & E2 & Hf2 & Ho2). cbn. rewrite Ej. cbn. rewrite E2.
    destruct (IH (js ++ [j]) o2 Hf2) as (o' & js' & E & Hf' & HF & Ho'). exists o', (j :: js').
    rewrite <- app_assoc in Hf'. split_and!; [done|done|by constructor|]. intros k' Hne. rewrite Ho' by done. by apply Ho2. }
  destruct (Hg [] o1 Hf) as (o' & js' & -> & Hf' & HF & Ho'). exists o', js'. split_and!; [done..|].
  intros k' Hne. rewrite Ho' by done. by apply Ho.
Qed.

(** It parses back when the elements do. *)
Lemma serialize_list_spec {A : Type} (ser : A -> option Json.t) (parse : Json.t -> option A) (base : A -> A) k l output :
  keyed output -> (forall x, x ∈ l -> exists j, ser x = Some j /\ parse j = Some (base x)) ->
  exists output', Device.serialize_list k ser l output = Some output' /\ keyed output' /\
    (exists js, Json.find output' k = Some (Json.array js) /\ mapM parse js = Some (map base l)) /\
    forall k', k' <> k -> Json.find output' k' = Json.find output k'.
Proof.
  intros Hk Hs. destruct (serialize_list_runs ser k l output Hk) as (o & js & E & Hf & HF & Ho).
  { apply Forall_forall. intros x Hx. destruct (Hs x Hx) as (j & Ej & _). by eexists. }
  exists o. split_and!; [done|by eapply find_keyed| |done]. exists js. split; [done|]. apply mapM_Some. clear -HF Hs.
  induction HF as [|x j l js Ej HF IH]; cbn; constructor.
  - destruct (Hs x) as (j' & E' & Hp); [by left|]. congruence.
  - apply IH. intros y Hy. apply Hs. by right.
Qed.

(** A serialized device parses back, and has the entries its class has added. *)
Lemma serialize_device_entries d :
  device_adds d -> exists j j0 j1, Device.serialize d = Some j /\ parse_device j = Some (base_device d) /\
    keyed j0 /\ Device.serializeImpl d j0 = Some j1 /\
    forall k, k <> Device._HICR_DEVICE_COMPUTE_RESOURCES_KEY_ -> k <> Device._HICR_DEVICE_MEMORY_SPACES_KEY_ ->
      Json.find j k = Json.find j1 k.
Proof.
  intros [Ha Hc Hs]. unfold Device.serialize.
  destruct (assign_spec "Type" (Json.string_ (Device._type d)) _ keyed_null) as (j0 & -> & Hk0 & Ht0 & _). cbn [mbind option_bind].
  destruct (Ha j0 Hk0) as (j1 & E1 & Hk1 & Ht1). rewrite E1. rewrite Ht0 in Ht1. cbn [mbind option_bind].
  destruct (serialize_list_spec ComputeResource.serialize parse_compute base_compute Device._HICR_DEVICE_COMPUTE_RESOURCES_KEY_
              (Device._computeResources d) j1 Hk1) as (j2 & -> & Hk2 & (cs & Hf2 & Hp2) & Ho2).
  { intros c Hin. apply serialize_compute. by eapply Forall_forall in Hc. }
  cbn [mbind option_bind].
  destruct (serialize_list_spec MemorySpace.serialize parse_space base_space Device._HICR_DEVICE_MEMORY_SPACES_KEY_
              (Device._memorySpaces d) j2 Hk2) as (j3 & -> & Hk3 & (ms & Hf3 & Hp3) & Ho3).
  { intros m Hin. apply serialize_space. by eapply Forall_forall in Hs. }
  exists j3, j0, j1. split_and!; [done| |done|done|intros k Hc' Hs'; rewrite Ho3 by done; by apply Ho2].
  unfold parse_device, parse_type, parse_list. rewrite Hf3.
  rewrite (Ho3 "Type"), (Ho2 "Type"), Ht1, (Ho3 Device._HICR_DEVICE_COMPUTE_RESOURCES_KEY_), Hf2 by done.
  cbn [mbind option_bind]. rewrite Hp2. cbn [mbind option_bind]. by rewrite Hp3.
Qed.

Lemma serialize_device d :
  device_adds d -> exists j, Device.serialize d = Some j /\ parse_device j = Some (base_device d).
Proof. intros Ha. destruct (serialize_device_entries d Ha) as (j & _ & _ & ? & ? & _). eauto. Qed.

Lemma serialize_topology t t0 :
  Forall device_adds (Topology._deviceList t) ->
  exists j, Topology.serialize t = Some j /\ run (Topology.verify j) t0 = Done tt t0 /\
    run (Topology.deserialize j) t0 =
      Done tt (Topology.mk (Topology._metadata t) (Topology._deviceList t0 ++ map base_device (Topology._deviceList t))).
Proof.
  intros Ha. unfold Topology.serialize.
  destruct (serialize_list_spec Device.serialize parse_device base_device "Devices" (Topology._deviceList t) _ keyed_null)
    as (j1 & -> & Hk1 & (js & Hf1 & Hp1) & _).
  { intros d Hin. apply serialize_device. by eapply Forall_forall in Ha. }
  destruct (assign_spec "Metadata" (Topology._metadata t) j1 Hk1) as (j & E & _ & Hm & Ho).
  exists j. rewrite <- (Ho "Devices") in Hf1 by done. split_and!; [done|..].
  - by eapply run_verify.
  - rewrite run_deserialize_topology. unfold parse_topology. rewrite Hf1, Hm. rewrite parse_prefix_mapM in Hp1.
    destruct (parse_prefix parse_device js) as [ds [e|]]; [done|]. by injection Hp1 as ->.
Qed.

(** C30: serialization round trip.  A topology whose derived classes only add
    entries is serialized without error; the result passes [verify], and
    deserializing it into any topology adds base-class devices with the same
    types, compute resources, memory spaces and sizes, in order, and takes over
    the metadata. *)
Theorem topology_roundtrip t t0 :
  Forall device_adds (Topology._deviceList t) ->
  exists j, Topology.serialize t = Some j /\ run (Topology.verify j) t0 = Done tt t0 /\
    run (Topology.deserialize j) t0 =
      Done tt (Topology.mk (Topology._metadata t) (Topology._deviceList t0 ++ map base_device (Topology._deviceList t))).
Proof. apply serialize_topology. Qed.
