(* ===== verification/HwlocTopology.v ===== *)
(** * The objects of an hwloc topology

    Models how [backends/hwloc/cache.hpp], [computeResource.hpp],
    [memorySpace.hpp] and [device.hpp] describe themselves: the constructors from
    known values, the entries that [serializeImpl] adds and what
    [deserializeImpl] reads back; and the deserialization of
    [backends/hwloc/topologyManager.hpp]. *)

From S2P Require Import Prelude Json Topology TopologySpec.
From Stdlib Require Import ZArith Lia String.
From stdpp Require Import base list option strings.

Local Open Scope Z_scope.
Local Open Scope string_scope.
Local Open Scope list_scope.
Local Open Scope hicr_scope.

(** ** Caches *)

Module HwlocCache.

(** The values of [cacheLevel_t]. *)
Definition L1 : Z := 1.
Definition L2 : Z := 2.
Definition L3 : Z := 3.
Definition L4 : Z := 4.
Definition L5 : Z := 5.

Record t : Type := mk { _level : Z; _type : string; _cacheSize : Z; _lineSize : Z; _shared : bool }.

(** The members before they are set. *)
Definition empty : t := mk 0 "" 0 0 false.

Definition serialize (c : t) : option Json.t :=
  output ← Json.assign "Size (Bytes)" (Json.number_unsigned (_cacheSize c)) Json.null;
  output ← Json.assign "Line Size (Bytes)" (Json.number_unsigned (_lineSize c)) output;
  output ← Json.assign "Level" (Json.number_unsigned (_level c)) output;
  output ← Json.assign "Type" (Json.string_ (_type c)) output;
  Json.assign "Shared" (Json.boolean (_shared c)) output.

Definition deserialize (input : Json.t) : prog t unit :=
  v ← Json.require Json.is_number_unsigned input "Size (Bytes)";
  size ← Json.get_size v;
  _ ← modify (fun c => mk (_level c) (_type c) size (_lineSize c) (_shared c));
  v ← Json.require Json.is_number_unsigned input "Line Size (Bytes)";
  lineSize ← Json.get_size v;
  _ ← modify (fun c => mk (_level c) (_type c) (_cacheSize c) lineSize (_shared c));
  v ← Json.require Json.is_number input "Level";
  level ← Json.get_uint v;
  _ ← modify (fun c => mk level (_type c) (_cacheSize c) (_lineSize c) (_shared c));
  v ← Json.require Json.is_string input "Type";
  ty ← Json.get_string v;
  _ ← modify (fun c => mk (_level c) ty (_cacheSize c) (_lineSize c) (_shared c));
  v ← Json.require Json.is_boolean input "Shared";
  shared ← Json.get_bool v;
  modify (fun c => mk (_level c) (_type c) (_cacheSize c) (_lineSize c) shared).

Definition make {S : Type} (input : Json.t) : prog S t := construct (deserialize input) empty.

End HwlocCache.

(** ** Compute resources, memory spaces and devices *)

Module HwlocComputeResource.

(** The set of caches as a list, in the order in which it is visited. *)
Record t : Type := mk {
  _type : string;
  _logicalProcessorId : Z;
  _physicalProcessorId : Z;
  _numaAffinity : Z;
  _caches : list HwlocCache.t;
  _hwlocObjectIndex : Z
}.

Definition make (hwlocObjectIndex logicalProcessorId physicalProcessorId numaAffinity : Z) (caches : list HwlocCache.t) : t :=
  mk "Processing Unit" logicalProcessorId physicalProcessorId numaAffinity caches hwlocObjectIndex.

Definition serializeImpl (r : t) (output : Json.t) : option Json.t :=
  output ← Json.assign "Logical Processor Id" (Json.number_unsigned (_logicalProcessorId r)) output;
  output ← Json.assign "Physical Processor Id" (Json.number_unsigned (_physicalProcessorId r)) output;
  output ← Json.assign "NUMA Affinity" (Json.number_unsigned (_numaAffinity r)) output;
  Device.serialize_list "Caches" HwlocCache.serialize (_caches r) output.

(** Seen as an object of the base class. *)
Definition base (r : t) : ComputeResource.t := ComputeResource.mk (_type r) (serializeImpl r).

Definition deserializeImpl (input : Json.t) : prog t unit :=
  ty ← gets _type;
  _ ← throw_if (negb (String.eqb ty "Processing Unit")) logic;
  v ← Json.require Json.is_number input "Logical Processor Id";
  n ← Json.get_uint v;
  _ ← modify (fun r => mk (_type r) n (_physicalProcessorId r) (_numaAffinity r) (_caches r) (_hwlocObjectIndex r));
  v ← Json.require Json.is_number input "Physical Processor Id";
  n ← Json.get_uint v;
  _ ← modify (fun r => mk (_type r) (_logicalProcessorId r) n (_numaAffinity r) (_caches r) (_hwlocObjectIndex r));
  v ← Json.require Json.is_number input "NUMA Affinity";
  n ← Json.get_uint v;
  _ ← modify (fun r => mk (_type r) (_logicalProcessorId r) (_physicalProcessorId r) n (_caches r) (_hwlocObjectIndex r));
  v ← Json.require Json.is_array input "Caches";
  _ ← modify (fun r => mk (_type r) (_logicalProcessorId r) (_physicalProcessorId r) (_numaAffinity r) [] (_hwlocObjectIndex r));
  for_each (Json.elements v) (fun c =>
    cache ← HwlocCache.make c;
    modify (fun r => mk (_type r) (_logicalProcessorId r) (_physicalProcessorId r) (_numaAffinity r) (_caches r ++ [cache]) (_hwlocObjectIndex r))).

(** The inherited [deserialize], with this class's [deserializeImpl]. *)
Definition deserialize (input : Json.t) : prog t unit :=
  ty ← Json.getString input "Type";
  _ ← modify (fun r => mk ty (_logicalProcessorId r) (_physicalProcessorId r) (_numaAffinity r) (_caches r) (_hwlocObjectIndex r));
  deserializeImpl input.

End HwlocComputeResource.

Module HwlocMemorySpace.

(** [_hwlocObject] is the object of the hwloc library, [None] the null pointer. *)
Record t : Type := mk { _type : string; _size : Z; _bindingSupport : Z; _hwlocObject : option nat }.

Definition make (size : Z) (hwlocObject : option nat) (bindingSupport : Z) : t := mk "RAM" size bindingSupport hwlocObject.

Definition getSupportedBindingType (m : t) : Z := _bindingSupport m.

Definition getHWLocObject (m : t) : option nat := _hwlocObject m.

Definition serializeImpl (m : t) (output : Json.t) : option Json.t :=
  Json.assign "Binding Support" (Json.number_unsigned (_bindingSupport m)) output.

Definition base (m : t) : MemorySpace.t := MemorySpace.mk (_type m) (_size m) (serializeImpl m).

Definition deserializeImpl (input : Json.t) : prog t unit :=
  ty ← gets _type;
  _ ← throw_if (negb (String.eqb ty "RAM")) logic;
  v ← Json.require Json.is_number input "Binding Support";
  n ← Json.get_uint v;
  modify (fun m => mk (_type m) (_size m) n (_hwlocObject m)).

(** The inherited [deserialize], with this class's [deserializeImpl]. *)
Definition deserialize (input : Json.t) : prog t unit :=
  ty ← Json.getString input "Type";
  _ ← modify (fun m => mk ty (_size m) (_bindingSupport m) (_hwlocObject m));
  _ ← deserializeImpl input;
  v ← Json.require Json.is_number_unsigned input "Size";
  n ← Json.get_size v;
  modify (fun m => mk (_type m) n (_bindingSupport m) (_hwlocObject m)).

End HwlocMemorySpace.

Module HwlocDevice.

Definition serializeImpl (NUMADomainId : Z) (output : Json.t) : option Json.t :=
  Json.assign "NUMA Domain Id" (Json.number_unsigned NUMADomainId) output.

(** The constructor. *)
Definition make (NUMADomainId : Z) (computeResources : list ComputeResource.t) (memorySpaces : list MemorySpace.t) : Device.t :=
  Device.mk "NUMA Domain" computeResources memorySpaces (serializeImpl NUMADomainId).

(** Reads the identifier, which [serializeImpl] writes again, and then the
    resources as objects of the base classes. *)
Definition deserializeImpl (input : Json.t) : prog Device.t unit :=
  v ← Json.require Json.is_number input "NUMA Domain Id";
  n ← Json.get_uint v;
  _ ← modify (fun d => Device.mk (Device._type d) (Device._computeResources d) (Device._memorySpaces d) (serializeImpl n));
  Device.deserializeImpl input.

Definition make_from {S : Type} (input : Json.t) : prog S Device.t :=
  construct (Device.deserialize_with deserializeImpl input) (Device.mk "" [] [] (serializeImpl 0)).

End HwlocDevice.

(** ** The topology manager *)

Module HwlocTopologyManager.

(** Devices of other types are skipped, and the metadata is not read. *)
Definition deserializeTopology {S : Type} (topology : Json.t) : prog S Topology.t :=
  _ ← Topology.verify topology;
  devices ← Json.at_key topology "Devices";
  construct (for_each (Json.elements devices) (fun device =>
    v ← Json.at_key device "Type";
    ty ← Json.get_string v;
    if String.eqb ty "NUMA Domain" then d ← HwlocDevice.make_from device; Topology.addDevice d else mret tt)) Topology.empty.

End HwlocTopologyManager.

(** ** Serialization never fails and only adds entries *)

(** One assignment to a key, and the entries afterwards. *)
Ltac assign_step :=
  match goal with
  | |- context [Json.assign ?k ?v ?j] =>
      let j' := fresh "j" in let E := fresh "E" in let Hk := fresh "Hk" in let Hf := fresh "Hf" in let Ho := fresh "Ho" in
      destruct (assign_spec k v j) as (j' & E & Hk & Hf & Ho);
      [first [apply keyed_null|assumption]|rewrite E; clear E; cbn [mbind option_bind]]
  end.

Ltac solve_find :=
  repeat match goal with
  | H : Json.find ?j ?k = Some _ |- Json.find ?j ?k = Some _ => exact H
  | Ho : forall k', k' <> _ -> Json.find ?j k' = _ |- Json.find ?j ?k = _ => rewrite (Ho k) by (done || congruence); try reflexivity
  end.

Definition cache_entries (c : HwlocCache.t) (j : Json.t) : Prop :=
  Json.find j "Size (Bytes)" = Some (Json.number_unsigned (HwlocCache._cacheSize c)) /\
  Json.find j "Line Size (Bytes)" = Some (Json.number_unsigned (HwlocCache._lineSize c)) /\
  Json.find j "Level" = Some (Json.number_unsigned (HwlocCache._level c)) /\
  Json.find j "Type" = Some (Json.string_ (HwlocCache._type c)) /\
  Json.find j "Shared" = Some (Json.boolean (HwlocCache._shared c)).

Lemma cache_serialize c : exists j, HwlocCache.serialize c = Some j /\ cache_entries c j.
Proof.
  unfold HwlocCache.serialize. do 5 assign_step. eexists. split; [done|]. split_and!; solve_find.
Qed.

Definition compute_entries (r : HwlocComputeResource.t) (j : Json.t) : Prop :=
  Json.find j "Logical Processor Id" = Some (Json.number_unsigned (HwlocComputeResource._logicalProcessorId r)) /\
  Json.find j "Physical Processor Id" = Some (Json.number_unsigned (HwlocComputeResource._physicalProcessorId r)) /\
  Json.find j "NUMA Affinity" = Some (Json.number_unsigned (HwlocComputeResource._numaAffinity r)) /\
  exists js, Json.find j "Caches" = Some (Json.array js) /\
    Forall2 cache_entries (HwlocComputeResource._caches r) js.

Lemma compute_serialize r j :
  keyed j -> exists j', HwlocComputeResource.serializeImpl r j = Some j' /\ keyed j' /\ compute_entries r j' /\
    Json.find j' "Type" = Json.find j "Type".
Proof.
  intros Hj. unfold HwlocComputeResource.serializeImpl. do 3 assign_step.
  match goal with |- context [Device.serialize_list _ _ _ ?o] =>
    destruct (serialize_list_runs HwlocCache.serialize "Caches" (HwlocComputeResource._caches r) o) as (o' & js & E & Hf' & HF & Ho') end.
  - done.
  - apply Forall_forall. intros c _. destruct (cache_serialize c) as (jc & -> & _). by eexists.
  - exists o'. split_and!; [done|by eapply find_keyed| |by solve_find]. split_and!; [solve_find..|].
    exists js. split; [done|]. eapply Forall2_impl; [exact HF|]. intros c jc Ec.
    destruct (cache_serialize c) as (jc' & Ec' & Hc). congruence.
Qed.

Lemma adds_compute r : adds (HwlocComputeResource.serializeImpl r).
Proof. intros j Hj. destruct (compute_serialize r j Hj) as (j' & ? & ? & _ & ?). by exists j'. Qed.

Lemma adds_assign k v : k <> "Type" -> adds (Json.assign k v).
Proof. intros Hk j Hj. assign_step. eexists. split_and!; [done..|]. solve_find. Qed.

(** A description of an hwloc device and its resources. *)
Record domain_t : Type := mkDomain {
  domain_id : Z;
  domain_units : list HwlocComputeResource.t;
  domain_spaces : list HwlocMemorySpace.t
}.

Definition hwloc_device (d : domain_t) : Device.t :=
  HwlocDevice.make (domain_id d) (map HwlocComputeResource.base (domain_units d)) (map HwlocMemorySpace.base (domain_spaces d)).

Lemma hwloc_device_adds d : device_adds (hwloc_device d).
Proof.
  split; cbn.
  - by apply adds_assign.
  - apply Forall_fmap, Forall_forall. intros r _. apply adds_compute.
  - apply Forall_fmap, Forall_forall. intros m _. by apply adds_assign.
Qed.

(** ** Reading the objects back *)

Definition is_uint (z : Z) : Prop := 0 <= z < Json.UINT_BOUND.

Lemma run_make_cache {S : Type} c j (s : S) :
  cache_entries c j -> is_uint (HwlocCache._level c) -> run (HwlocCache.make j) s = Done c s.
Proof.
  intros (H1 & H2 & H3 & H4 & H5) Hl. unfold HwlocCache.make, HwlocCache.deserialize. rewrite run_construct.
  do 5 (rewrite run_bind, run_require; first [rewrite H1; clear H1|rewrite H2; clear H2|rewrite H3; clear H3|rewrite H4; clear H4|rewrite H5; clear H5];
    cbn [Json.is_number_unsigned Json.is_number Json.is_string Json.is_boolean]; rewrite run_bind, ?run_get_uint by done; cbn [run Json.get_size Json.get_string Json.get_bool mret prog_mret]; rewrite ?run_bind, run_modify).
  by destruct c.
Qed.

Lemma run_make_caches cs js ty a b c cs0 i :
  Forall2 cache_entries cs js -> Forall (fun x => is_uint (HwlocCache._level x)) cs ->
  run (for_each js (fun j => cache ← HwlocCache.make j;
         modify (fun r => HwlocComputeResource.mk (HwlocComputeResource._type r) (HwlocComputeResource._logicalProcessorId r)
           (HwlocComputeResource._physicalProcessorId r) (HwlocComputeResource._numaAffinity r) (HwlocComputeResource._caches r ++ [cache])
           (HwlocComputeResource._hwlocObjectIndex r))))
      (HwlocComputeResource.mk ty a b c cs0 i) = Done tt (HwlocComputeResource.mk ty a b c (cs0 ++ cs) i).
Proof.
  intros HF. revert cs0. induction HF as [|x j cs js Hx HF IH]; intros cs0 Hl; [by rewrite app_nil_r|].
  apply Forall_cons_1 in Hl as [Hlx Hl]. cbn [for_each]. rewrite run_bind, run_bind, (run_make_cache x j) by done.
  rewrite run_modify. cbn. rewrite IH by done. by rewrite <- app_assoc.
Qed.

(** The references into the hwloc library, which are not serialized. *)
Definition set_index (i : Z) (r : HwlocComputeResource.t) : HwlocComputeResource.t :=
  HwlocComputeResource.mk (HwlocComputeResource._type r) (HwlocComputeResource._logicalProcessorId r)
    (HwlocComputeResource._physicalProcessorId r) (HwlocComputeResource._numaAffinity r) (HwlocComputeResource._caches r) i.

Definition set_object (o : option nat) (m : HwlocMemorySpace.t) : HwlocMemorySpace.t :=
  HwlocMemorySpace.mk (HwlocMemorySpace._type m) (HwlocMemorySpace._size m) (HwlocMemorySpace._bindingSupport m) o.

(** What the members of the hwloc objects can hold. *)
Definition compute_wf (r : HwlocComputeResource.t) : Prop :=
  HwlocComputeResource._type r = "Processing Unit" /\ is_uint (HwlocComputeResource._logicalProcessorId r) /\
  is_uint (HwlocComputeResource._physicalProcessorId r) /\ is_uint (HwlocComputeResource._numaAffinity r) /\
  Forall (fun c => is_uint (HwlocCache._level c)) (HwlocComputeResource._caches r).

Definition space_wf (m : HwlocMemorySpace.t) : Prop :=
  HwlocMemorySpace._type m = "RAM" /\ is_uint (HwlocMemorySpace._bindingSupport m).

(** An hwloc compute resource, with its caches, and an hwloc memory space are
    serialized without error, and reading the result into any object of their
    class gives the same object, up to the reference into the hwloc library, which
    that object keeps. *)
Theorem hwloc_objects_roundtrip r r0 m m0 :
  compute_wf r -> space_wf m ->
  (exists j, ComputeResource.serialize (HwlocComputeResource.base r) = Some j /\
     run (HwlocComputeResource.deserialize j) r0 = Done tt (set_index (HwlocComputeResource._hwlocObjectIndex r0) r)) /\
  (exists j, MemorySpace.serialize (HwlocMemorySpace.base m) = Some j /\
     run (HwlocMemorySpace.deserialize j) m0 = Done tt (set_object (HwlocMemorySpace._hwlocObject m0) m)).
Proof.
  intros (Ht & Hl & Hp & Hn & Hcs) (Htm & Hb). split.
  - unfold ComputeResource.serialize. destruct (compute_serialize r _ keyed_null) as (j & E & Hk & (H1 & H2 & H3 & js & H4 & HF) & _).
    cbn [ComputeResource.serializeImpl HwlocComputeResource.base]. rewrite E. cbn [mbind option_bind ComputeResource._type]. assign_step.
    eexists. split; [done|]. rewrite <- (Ho "Logical Processor Id") in H1 by done. rewrite <- (Ho "Physical Processor Id") in H2 by done.
    rewrite <- (Ho "NUMA Affinity") in H3 by done. rewrite <- (Ho "Caches") in H4 by done.
    unfold HwlocComputeResource.deserialize, HwlocComputeResource.deserializeImpl.
    rewrite run_bind, run_getString, Hf, run_bind, run_modify, run_bind, run_gets, run_bind.
    rewrite run_throw_if_false by (cbn; by rewrite Ht).
    do 3 (rewrite run_bind, run_require; first [rewrite H1; clear H1|rewrite H2; clear H2|rewrite H3; clear H3]; cbn [Json.is_number];
      rewrite run_bind, run_get_uint by done; rewrite run_bind, run_modify).
    rewrite run_bind, run_require, H4. cbn [Json.is_array]. rewrite run_bind, run_modify. cbn. rewrite (run_make_caches _ _ _ _ _ _ _ _ HF Hcs).
    by destruct r.
  - unfold MemorySpace.serialize, MemorySpace.getSize, HwlocMemorySpace.base. cbn [MemorySpace.serializeImpl MemorySpace._type MemorySpace._size].
    unfold HwlocMemorySpace.serializeImpl. do 3 assign_step. eexists. split; [done|].
    unfold HwlocMemorySpace.deserialize, HwlocMemorySpace.deserializeImpl.
    assert (Hty : Json.find j1 "Type" = Some (Json.string_ (HwlocMemorySpace._type m))) by solve_find.
    assert (Hbs : Json.find j1 "Binding Support" = Some (Json.number_unsigned (HwlocMemorySpace._bindingSupport m))) by solve_find.
    rewrite run_bind, run_getString, Hty, run_bind, run_modify, run_bind, run_bind, run_gets, run_bind.
    rewrite run_throw_if_false by (cbn; by rewrite Htm). rewrite run_bind, run_require, Hbs. cbn [Json.is_number].
    rewrite run_bind, run_get_uint by done. rewrite run_modify, run_bind, run_require, Hf1. by destruct m.
Qed.

(** The device the topology manager reads back: its resources are objects of the
    base classes. *)
Definition read_device (d : domain_t) : Device.t :=
  HwlocDevice.make (domain_id d) (map base_compute (map HwlocComputeResource.base (domain_units d)))
    (map base_space (map HwlocMemorySpace.base (domain_spaces d))).

Lemma hwloc_device_read {S : Type} d (s : S) :
  is_uint (domain_id d) ->
  exists j, Device.serialize (hwloc_device d) = Some j /\ parse_device j = Some (base_device (hwloc_device d)) /\
    run (HwlocDevice.make_from j) s = Done (read_device d) s.
Proof.
  intros Hd. destruct (serialize_device_entries _ (hwloc_device_adds d)) as (j & j0 & j1 & E & Hp & Hk & E1 & Ho).
  exists j. split_and!; [done..|]. unfold HwlocDevice.make_from. rewrite run_construct.
  erewrite run_deserialize_with; [|exact Hp|]; cycle 1; [|done].
  destruct (assign_spec "NUMA Domain Id" (Json.number_unsigned (domain_id d)) j0 Hk) as (j' & E' & _ & Hn & _).
  assert (j' = j1) as -> by (cbn in E1; unfold HwlocDevice.serializeImpl in E1; congruence).
  unfold HwlocDevice.deserializeImpl. rewrite <- (Ho "NUMA Domain Id") in Hn by done.
  rewrite run_bind, run_require, Hn. cbn [Json.is_number]. rewrite run_bind, run_get_uint by done. rewrite run_bind, run_modify.
  destruct (parse_device_inv j _ Hp) as (lc & ls & _ & Ec & Es & Ecs & Ems & _).
  pose proof (run_deserializeImpl j "NUMA Domain" lc ls (HwlocDevice.serializeImpl (domain_id d)) Ec Es) as HI.
  rewrite Ecs, Ems in HI. exact HI.
Qed.

(** A topology of hwloc devices is serialized without error, and the topology
    manager reads back the same devices in the same order, with their identifiers
    and the types and sizes of their resources; the metadata is lost. *)
Theorem hwloc_topology_roundtrip {S : Type} (ds : list domain_t) metadata (s : S) :
  Forall (fun d => is_uint (domain_id d)) ds ->
  exists j, Topology.serialize (Topology.mk metadata (map hwloc_device ds)) = Some j /\
    run (HwlocTopologyManager.deserializeTopology j) s = Done (Topology.mk Json.null (map read_device ds)) s.
Proof.
  intros Hds. unfold Topology.serialize. cbn [Topology._deviceList Topology._metadata].
  destruct (serialize_list_runs Device.serialize "Devices" (map hwloc_device ds) _ keyed_null) as (j1 & js & E & Hf & HF & _).
  { apply Forall_fmap, Forall_forall. intros d _. destruct (serialize_device _ (hwloc_device_adds d)) as (j & ? & _). by eexists. }
  rewrite E. cbn [mbind option_bind]. assert (Hk : keyed j1) by (by eapply find_keyed). assign_step. eexists. split; [done|].
  rewrite <- (Ho "Devices") in Hf by done. unfold HwlocTopologyManager.deserializeTopology.
  assert (Hp : mapM parse_device js = Some (map base_device (map hwloc_device ds))).
  { apply mapM_Some. clear -HF. apply Forall2_fmap_l in HF. rewrite map_map. apply Forall2_fmap_r, Forall2_flip.
    eapply Forall2_impl; [exact HF|]. intros d j Ej. destruct (serialize_device _ (hwloc_device_adds d)) as (j' & E' & Hp').
    cbv beta in Ej. congruence. }
  rewrite run_bind, (run_verify _ js _ s Hf Hp), run_bind, (run_at_key _ _ _ _ Hf), run_construct. cbn [Json.elements]. apply Forall2_fmap_l in HF.
  assert (Hrun : forall ds0, run (for_each js (fun device => v ← Json.at_key device "Type"; ty ← Json.get_string v;
      if String.eqb ty "NUMA Domain" then d ← HwlocDevice.make_from device; Topology.addDevice d else mret tt)) (Topology.mk Json.null ds0)
      = Done tt (Topology.mk Json.null (ds0 ++ map read_device ds))).
  { clear -Hds HF. induction HF as [|d j ds js Ej HF IH]; intros ds0; [by rewrite app_nil_r|].
    apply Forall_cons_1 in Hds as [Hd Hds]. destruct (hwloc_device_read d (Topology.mk Json.null ds0) Hd) as (j' & E' & Hp & Hm).
    cbv beta in Ej. assert (j' = j) as -> by congruence. destruct (parse_device_inv j _ Hp) as (_ & _ & Et & _).
    cbn [for_each]. rewrite run_bind, run_bind, (run_at_key _ _ _ _ Et), run_bind. cbn [run Json.get_string mret prog_mret].
    change (String.eqb (Device._type (base_device (hwloc_device d))) "NUMA Domain") with true. cbv iota.
    unfold Topology.addDevice. rewrite run_bind, Hm, run_modify, IH by done. cbn. by rewrite <- app_assoc. }
  unfold Topology.empty. by rewrite (Hrun []).
Qed.

(** ** The theorems on a machine of two NUMA domains *)

Module TopologyDemo.

Definition core (i : Z) : HwlocComputeResource.t :=
  HwlocComputeResource.make i i i 0
    [HwlocCache.mk HwlocCache.L1 "Data" 32768 64 false; HwlocCache.mk HwlocCache.L3 "Unified" 33554432 64 true].

Definition numa (n : Z) : domain_t := mkDomain n [core (2 * n); core (2 * n + 1)] [HwlocMemorySpace.make 68719476736 None 2].

Definition domain (n : Z) : Device.t := hwloc_device (numa n).

Definition host : Topology.t := Topology.mk (Json.string_ "host") [domain 0; domain 1].

(** A request for one domain with a processing unit and a gigabyte. *)
Definition request : Topology.t :=
  Topology.mk Json.null [Device.mk "NUMA Domain" [ComputeResource.mk "Processing Unit" Some] [MemorySpace.mk "RAM" 1073741824 Some] Some].

Lemma topology_roundtrip_witness :
  exists j, Topology.serialize host = Some j /\ run (Topology.verify j) Topology.empty = Done tt Topology.empty /\
    run (Topology.deserialize j) Topology.empty =
      Done tt (Topology.mk (Json.string_ "host") (map base_device [domain 0; domain 1])).
Proof. apply (topology_roundtrip host Topology.empty). repeat (constructor; [apply hwloc_device_adds|]). constructor. Defined.

Lemma hwloc_objects_roundtrip_witness :
  exists j, ComputeResource.serialize (HwlocComputeResource.base (core 3)) = Some j /\
    run (HwlocComputeResource.deserialize j) (HwlocComputeResource.make 3 0 0 0 []) = Done tt (core 3).
Proof.
  refine (proj1 (hwloc_objects_roundtrip (core 3) (HwlocComputeResource.make 3 0 0 0 []) (HwlocMemorySpace.make 10 None 2) (HwlocMemorySpace.make 0 None 0) _ _)).
  - split_and!; [done..|]. by repeat constructor.
  - by split.
Defined.

Lemma hwloc_topology_roundtrip_witness :
  exists j, Topology.serialize host = Some j /\
    run (HwlocTopologyManager.deserializeTopology j) tt = Done (Topology.mk Json.null [read_device (numa 0); read_device (numa 1)]) tt.
Proof. apply (hwloc_topology_roundtrip [numa 0; numa 1] (Json.string_ "host") tt). by repeat constructor. Defined.

Lemma isSubset_sound_witness : covers satisfies (Topology._deviceList request) (Topology._deviceList host).
Proof. apply (isSubset_sound host request). by vm_compute. Defined.

Lemma host_homogeneous : homogeneous (Topology._deviceList host).
Proof.
  assert (Hall : forall d, d ∈ Topology._deviceList host -> exists n, d = domain n).
  { intros d Hd. repeat (apply elem_of_cons in Hd as [->|Hd]; [by eexists|]). by apply elem_of_nil in Hd. }
  split.
  - intros d m m' Hd Hm Hm' _. destruct (Hall d Hd) as [n ->]. cbn in Hm, Hm'.
    apply list_elem_of_singleton in Hm, Hm'. by subst.
  - intros d d' Hd Hd' _. destruct (Hall d Hd) as [n ->], (Hall d' Hd') as [n' ->]. split; cbn; reflexivity.
Qed.

Lemma isSubset_exact_witness :
  Topology.isSubset host request = true <-> covers satisfies (Topology._deviceList request) (Topology._deviceList host).
Proof. apply (isSubset_exact host request), host_homogeneous. Defined.

Lemma isSubset_order_witness :
  Topology.isSubset (two_spaces "RAM" 10 5) (two_spaces "RAM" 5 10) = false /\
  covers satisfies (Topology._deviceList (two_spaces "RAM" 5 10)) (Topology._deviceList (two_spaces "RAM" 10 5)).
Proof. apply (isSubset_order "RAM" 5 10). lia. Defined.

(** A JSON value without memory spaces. *)
Definition bad_device : Json.t :=
  Json.object [("Compute Resources", Json.array []); ("Type", Json.string_ "NUMA Domain")].

Example deserialize_bad :
  run (Topology.deserialize (Json.object [("Devices", Json.array [bad_device])])) Topology.empty = Thrown logic Topology.empty.
Proof. by vm_compute. Qed.

End TopologyDemo.
