(* ===== verification/InstanceManager.v ===== *)
(** * Instance managers

    Models [core/instanceTemplate.hpp] and [core/instanceManager.hpp]; the virtual
    operations are the class [InstanceBackend], whose default implementations
    throw.  The pthreads instance manager ([backends/pthreads/instanceManager.hpp])
    implements them over the shared core; the theorems show that the managers of
    all threads agree, whatever the interleaving of their constructors. *)

From S2P Require Import Prelude Concurrency Memory CommunicationManager Topology Pthreads PthreadsSpec.
From Stdlib Require Import ZArith Lia.
From stdpp Require Import base list gmap option sorting.

Local Open Scope Z_scope.
Local Open Scope hicr_scope.

(** ** The base class *)

Module InstanceTemplate.

Record t : Type := mk { _topology : Topology.t }.

Definition getTopology (i : t) : Topology.t := _topology i.

End InstanceTemplate.

(** The virtual operations, for instances [I] over a state [S]. *)
Class InstanceBackend (S I : Type) : Type := {
  getId : I -> Z;
  createInstanceImpl : InstanceTemplate.t -> prog S (option I);
  addInstanceImpl : Z -> prog S I;
  terminateInstanceImpl : I -> prog S unit
}.

Module InstanceManager.

(** The body of the default [createInstanceImpl], [addInstanceImpl] and
    [terminateInstanceImpl]. *)
Definition unsupported {S A : Type} : prog S A := Raise logic.

Record t (I : Type) : Type := mk { _instances : list I; _currentInstance : option I }.
Arguments mk {I} _ _.
Arguments _instances {I} _.
Arguments _currentInstance {I} _.

(** The default constructor. *)
Definition empty {I : Type} : t I := mk [] None.

Section Operations.
Context {S I : Type} {B : InstanceBackend S I}.

Definition getInstances : prog (S * t I) (list I) := this _instances.

Definition getCurrentInstance : prog (S * t I) (option I) := this _currentInstance.

Definition setCurrentInstance (i : I) : prog (S * t I) unit := set_this (fun o => mk (_instances o) (Some i)).

(** The protected overload of [addInstance]. *)
Definition push_instance (i : I) : prog (S * t I) unit := set_this (fun o => mk (_instances o ++ [i]) (_currentInstance o)).

Definition createInstanceTemplate (requestedTopology : Topology.t) : InstanceTemplate.t :=
  InstanceTemplate.mk requestedTopology.

Definition createInstance (instanceTemplate : InstanceTemplate.t) : prog (S * t I) (option I) :=
  newInstance ← on_fst (createInstanceImpl instanceTemplate);
  _ ← (match newInstance with Some i => push_instance i | None => mret tt end);
  mret newInstance.

Definition terminateInstance (instance : I) : prog (S * t I) unit :=
  _ ← on_fst (terminateInstanceImpl instance);
  set_this (fun o => mk (filter (fun i => getId i <> getId instance) (_instances o)) (_currentInstance o)).

Definition addInstance (instanceId : Z) : prog (S * t I) unit :=
  instance ← on_fst (addInstanceImpl instanceId);
  push_instance instance.

End Operations.
End InstanceManager.

(** ** The pthreads instance manager *)

Module PthreadsInstanceManager.

(** [addInstanceImpl] hands the identifier of the instance to the core, which
    looks it up as the identifier of a thread. *)
#[global] Instance pthreads_instances : InstanceBackend (Machine Core.t) Instance.t := {
  getId := Instance._id;
  createInstanceImpl := fun _ => Raise runtime;
  addInstanceImpl := Core.getInstance;
  terminateInstanceImpl := fun _ => mret tt
}.

(** The rest of the constructor once the thread has added its instance. *)
Definition join (current : Instance.t) : prog (Machine Core.t) (InstanceManager.t Instance.t) :=
  _ ← Core.fence;
  instances ← Core.getInstances;
  mret (InstanceManager.mk instances (Some current)).

(** The constructor, in the thread [pthread_self]. *)
Definition make (pthread_self : Z) : prog (Machine Core.t) (InstanceManager.t Instance.t) :=
  current ← Core.addInstance pthread_self;
  join current.

Definition getRootInstanceId : Z := Core.getRootInstanceId.

End PthreadsInstanceManager.

(** ** Constructors in parallel *)

(** Where the constructor of a thread stands. *)
Inductive stage : Type :=
| Adding
| Joining (i : Instance.t)
| Waits (i : Instance.t)
| Listing (i : Instance.t)
| Built (i : Instance.t).

Definition instance_of (st : stage) : option Instance.t :=
  match st with Adding => None | Joining i | Waits i | Listing i | Built i => Some i end.

Definition waits (st : stage) : Prop := match st with Waits _ => True | _ => False end.

#[global] Instance waits_dec st : Decision (waits st).
Proof. destruct st; cbn; apply _. Defined.

(** Before the fence has opened nobody has passed it; afterwards everybody has arrived. *)
Definition before_fence (st : stage) : Prop := match st with Adding | Joining _ | Waits _ => True | _ => False end.
Definition after_fence (st : stage) : Prop := match st with Waits _ | Listing _ | Built _ => True | _ => False end.

Definition listing (m : Machine Core.t) : list Instance.t := (Core.by_key (Core._pthreadsInstanceMap (backend m))).*2.

Section Constructors.
Context (g0 : Z).
Implicit Types (sts : list stage) (k : nat) (m : Machine Core.t).

Definition list_instances (i : Instance.t) : prog (Machine Core.t) (InstanceManager.t Instance.t) :=
  instances ← Core.getInstances; mret (InstanceManager.mk instances (Some i)).

Definition stage_prog (l : list Instance.t) (self : Z) (st : stage) : prog (Machine Core.t) (InstanceManager.t Instance.t) :=
  match st with
  | Adding => PthreadsInstanceManager.make self
  | Joining i => PthreadsInstanceManager.join i
  | Waits i => Await (fun m => negb (cycle m =? g0)) (list_instances i)
  | Listing i => list_instances i
  | Built i => Ret (InstanceManager.mk l (Some i))
  end.

Record join_inv (selfs : list Z) (ps : list (prog (Machine Core.t) (InstanceManager.t Instance.t))) (m : Machine Core.t)
    (sts : list stage) : Prop := mkJoinInv {
  ji_progs : ps = zip_with (stage_prog (listing m)) selfs sts;
  ji_length : length sts = length selfs;
  ji_fenceCount : expected m = Z.of_nat (length selfs);
  ji_mutex : Core._instanceMutex (backend m) = false;
  ji_map : forall z i, Core._pthreadsInstanceMap (backend m) !! z = Some i <->
             exists k st, selfs !! k = Some z /\ sts !! k = Some st /\ instance_of st = Some i;
  ji_current : 0 <= Core._currentInstanceId (backend m);
  ji_ids : Instance._id <$> omap instance_of sts ≡ₚ seqZ 0 (Core._currentInstanceId (backend m));
  ji_own : forall k z st i, selfs !! k = Some z -> sts !! k = Some st -> instance_of st = Some i ->
             exists n, i = Instance.mk n z 0;
  ji_fence : (cycle m = g0 /\ arrived m = Z.of_nat (length (filter waits sts)) /\
                (length (filter waits sts) < length selfs)%nat /\ Forall before_fence sts) \/
             (cycle m <> g0 /\ Forall after_fence sts)
}.

Lemma stage_prog_before l l' z st : before_fence st -> stage_prog l z st = stage_prog l' z st.
Proof. by destruct st. Qed.

Lemma zip_with_ext_before l l' selfs sts :
  Forall before_fence sts -> zip_with (stage_prog l) selfs sts = zip_with (stage_prog l') selfs sts.
Proof.
  intros Hb. revert selfs. induction Hb as [|st sts Hst _ IH]; intros [|z selfs]; [done..|]. cbn.
  by rewrite (stage_prog_before l l' z st Hst), IH.
Qed.

Lemma insert_stage l selfs sts k z st :
  selfs !! k = Some z -> <[k := stage_prog l z st]> (zip_with (stage_prog l) selfs sts) = zip_with (stage_prog l) selfs (<[k := st]> sts).
Proof. intros Hz. rewrite <- (list_insert_id selfs k z Hz) at 2. by rewrite insert_zip_with. Qed.

Lemma omap_insert_same sts k st st' :
  sts !! k = Some st -> instance_of st' = instance_of st -> omap instance_of (<[k := st']> sts) = omap instance_of sts.
Proof.
  revert k. induction sts as [|x sts IH]; intros [|k] Hk Hs; [done..| |].
  - injection Hk as ->. cbn. by rewrite Hs.
  - change (<[S k := st']> (x :: sts)) with (x :: <[k := st']> sts). cbn. by rewrite IH.
Qed.

Lemma omap_insert_new sts k st' i :
  sts !! k = Some Adding -> instance_of st' = Some i -> omap instance_of (<[k := st']> sts) ≡ₚ i :: omap instance_of sts.
Proof.
  revert k. induction sts as [|x sts IH]; intros [|k] Hk Hs; [done..| |].
  - injection Hk as ->. cbn. by rewrite Hs.
  - change (<[S k := st']> (x :: sts)) with (x :: <[k := st']> sts). cbn. specialize (IH k Hk Hs).
    destruct (instance_of x); rewrite IH; [apply Permutation_swap|done].
Qed.

Lemma length_omap_le sts : (length (omap instance_of sts) <= length sts)%nat.
Proof. induction sts as [|x sts IH]; [done|]. cbn. destruct (instance_of x); cbn; lia. Qed.

(** A thread goes on without touching the instances. *)
Lemma join_advance selfs ps m m' sts k z st st' :
  join_inv selfs ps m sts -> selfs !! k = Some z -> sts !! k = Some st -> instance_of st' = instance_of st ->
  expected m' = expected m -> Core._instanceMutex (backend m') = Core._instanceMutex (backend m) ->
  Core._pthreadsInstanceMap (backend m') = Core._pthreadsInstanceMap (backend m) ->
  Core._currentInstanceId (backend m') = Core._currentInstanceId (backend m) ->
  (cycle m' = g0 /\ arrived m' = Z.of_nat (length (filter waits (<[k := st']> sts))) /\
     (length (filter waits (<[k := st']> sts)) < length selfs)%nat /\ Forall before_fence (<[k := st']> sts)) \/
  (cycle m' <> g0 /\ Forall after_fence (<[k := st']> sts)) ->
  join_inv selfs (<[k := stage_prog (listing m') z st']> ps) m' (<[k := st']> sts).
Proof.
  intros [-> Hl Hf Hmu Hm Hc Hids Hown _] Hz Hk Hs Ef Emu Em Ei Hfence.
  assert (El : listing m' = listing m) by (unfold listing; by rewrite Em).
  assert (Hins : forall j s, <[k := st']> sts !! j = Some s -> exists s0, sts !! j = Some s0 /\ instance_of s = instance_of s0).
  { intros j s Hj. apply list_lookup_insert_Some in Hj as [(<- & -> & _)|(_ & Hj)]; eauto. }
  split; rewrite ?length_insert, ?El, ?Ef, ?Emu, ?Em, ?Ei, ?(omap_insert_same _ _ _ _ Hk Hs); try done.
  - by apply insert_stage.
  - intros y i. rewrite Hm. split; intros (j & s & Hj & Hsj & Hi).
    + destruct (decide (k = j)) as [<-|Hne]; [|exists j, s; by rewrite list_lookup_insert_ne].
      exists k, st'. rewrite list_lookup_insert_eq by (by eapply lookup_lt_Some). split_and!; [done..|]. rewrite Hs. congruence.
    + destruct (Hins j s Hsj) as (s0 & H0 & E0). exists j, s0. split_and!; [done..|congruence].
  - intros j y s i Hj Hsj Hi. destruct (Hins j s Hsj) as (s0 & H0 & E0). eapply Hown; [done..|congruence].
Qed.

(** A thread adds its instance. *)
Lemma join_add selfs ps m sts k z :
  join_inv selfs ps m sts -> NoDup selfs -> Z.of_nat (length selfs) < SIZE_BOUND -> selfs !! k = Some z -> sts !! k = Some Adding ->
  let i := Instance.mk (Core._currentInstanceId (backend m)) z 0 in
  let m' := set_backend (Core.set_instances (Core._currentInstanceId (backend m) +w 1)
              (<[z := i]> (Core._pthreadsInstanceMap (backend m))) (backend m)) m in
  join_inv selfs (<[k := PthreadsInstanceManager.join i]> ps) m' (<[k := Joining i]> sts).
Proof.
  intros [-> Hl Hf Hmu Hm Hc Hids Hown Hfe] Hnd HN Hz Hk i m'.
  destruct Hfe as [(Hg & Ha & Ho & Hb)|[_ Hb]]; [|by apply (Forall_lookup_1 _ _ _ _ Hb) in Hk].
  assert (Hb' : Forall before_fence (<[k := Joining i]> sts)) by (by apply Forall_insert).
  pose proof (omap_insert_new sts k (Joining i) i Hk eq_refl) as Hnew.
  assert (Hcur : Core._currentInstanceId (backend m) +w 1 = Core._currentInstanceId (backend m) + 1).
  { pose proof (Permutation_length Hids) as Hle. rewrite length_fmap, length_seqZ in Hle.
    pose proof (Permutation_length Hnew) as Hn. pose proof (length_omap_le (<[k := Joining i]> sts)) as Hle2.
    rewrite length_insert in Hle2. cbn in Hn. apply wrap64_small. size_lia. }
  split; cbn; rewrite ?length_insert, ?Hcur; try done.
  - rewrite <- (insert_stage (listing m') selfs sts k z (Joining i) Hz). f_equal.
    apply zip_with_ext_before. done.
  - intros y j. rewrite lookup_insert_Some, Hm. split.
    + intros [[<- <-]|(Hne & l & s & Hy & Hs & Hi)].
      * exists k, (Joining i). rewrite list_lookup_insert_eq by (by eapply lookup_lt_Some). done.
      * exists l, s. rewrite list_lookup_insert_ne; [done|]. intros <-. congruence.
    + intros (l & s & Hy & Hs & Hi). apply list_lookup_insert_Some in Hs as [(<- & <- & _)|(Hne & Hs)].
      * left. cbn in Hi. split; congruence.
      * right. split; [|by exists l, s]. intros <-. apply Hne. by eapply NoDup_lookup.
  - lia.
  - rewrite Hnew. cbn. rewrite Hids, seqZ_app by lia. cbn. by rewrite Permutation_app_comm.
  - intros j y s i' Hj Hs Hi. apply list_lookup_insert_Some in Hs as [(<- & <- & _)|(Hne & Hs)]; [|by eapply Hown].
    cbn in Hi. injection Hi as <-. exists (Core._currentInstanceId (backend m)). unfold i. congruence.
  - left. split_and!; try done.
    + change (arrived m = Z.of_nat (length (filter waits (<[k := Joining i]> sts)))). rewrite Ha. f_equal.
      pose proof (length_filter_insert waits sts k (Joining i) Adding Hk) as H. rewrite !decide_False in H by (by intros []). lia.
    + pose proof (length_filter_insert waits sts k (Joining i) Adding Hk) as H. rewrite !decide_False in H by (by intros []). lia.
Qed.

(** When all others wait, the last one to arrive leaves everybody behind the fence. *)
Lemma all_arrived sts k st i :
  sts !! k = Some st -> ~ waits st -> (length (filter waits sts) + 1 = length sts)%nat -> Forall after_fence (<[k := Listing i]> sts).
Proof.
  intros Hk Hw Hc. assert (Hall : Forall waits (<[k := Waits i]> sts)).
  { apply (length_filter_all waits). pose proof (length_filter_insert waits sts k (Waits i) st Hk) as H. rewrite length_insert.
    rewrite decide_False, decide_True in H by done. lia. }
  apply Forall_lookup. intros j s Hj. apply list_lookup_insert_Some in Hj as [(<- & <- & _)|(Hne & Hj)]; [done|].
  assert (Hs : waits s) by (apply (Forall_lookup_1 _ _ j s Hall); by rewrite list_lookup_insert_ne). by destruct s.
Qed.

(** One step of one thread. *)
Lemma join_step selfs ps m sts k p p' m' :
  join_inv selfs ps m sts -> NoDup selfs -> Z.of_nat (length selfs) < SIZE_BOUND ->
  ps !! k = Some p -> thread_step p m p' m' -> exists sts', join_inv selfs (<[k := p']> ps) m' sts'.
Proof.
  intros Hinv Hnd HN Hp Ht. pose proof Hinv as [Hps Hl Hf Hmu Hm Hc Hids Hown Hfe]. rewrite Hps in Hp.
  apply lookup_zip_with_Some in Hp as (z & st & -> & Hz & Hst).
  destruct st as [|i|i|i|i]; inversion Ht as [f q s|c q s Hcond]; subst; clear Ht; cbn in *.
  - rewrite Hmu. exists (<[k := Joining (Instance.mk (Core._currentInstanceId (backend m)) z 0)]> sts). by apply join_add.
  - destruct Hfe as [(Hg & Ha & Ho & Hb)|[_ Hb]]; [|by apply (Forall_lookup_1 _ _ _ _ Hb) in Hst].
    assert (Ec : PthreadBarrier.completes (Core._barrier (backend m)) =
                 (Z.of_nat (length (filter waits sts)) + 1 =? Z.of_nat (length selfs))) by (by rewrite <- Ha, <- Hf).
    unfold PthreadBarrier.enter. rewrite Ec.
    destruct (Z.eqb_spec (Z.of_nat (length (filter waits sts)) + 1) (Z.of_nat (length selfs))) as [E|E].
    + exists (<[k := Listing i]> sts). eapply (join_advance _ _ m _ _ _ z (Joining i) (Listing i)); try done.
      right. split; [change (cycle m + 1 <> g0); lia|]. eapply all_arrived; [done|by intros []|lia].
    + exists (<[k := Waits i]> sts). change (PthreadBarrier.cycle (Core._barrier (backend m))) with (cycle m). rewrite Hg.
      eapply (join_advance _ _ m _ _ _ z (Joining i) (Waits i)); try done.
      left. pose proof (length_filter_insert waits sts k (Waits i) (Joining i) Hst) as H. rewrite decide_False, decide_True in H by (done || by intros []).
      split_and!; [done|change (arrived m + 1 = Z.of_nat (length (filter waits (<[k := Waits i]> sts)))); lia|lia|by apply Forall_insert].
  - exists (<[k := Listing i]> sts). eapply (join_advance _ _ m' _ _ _ z (Waits i) (Listing i)); try done.
    destruct Hfe as [(Hg & _)|[Hg Hb]]; [by rewrite Hg, Z.eqb_refl in Hcond|]. right. split; [done|by apply Forall_insert].
  - rewrite Hmu. exists (<[k := Built i]> sts). rewrite set_backend_id.
    eapply (join_advance _ _ m m _ _ z (Listing i) (Built i)); try done.
    destruct Hfe as [(_ & _ & _ & Hb)|[Hg Hb]]; [by apply (Forall_lookup_1 _ _ _ _ Hb) in Hst|].
    right. split; [done|by apply Forall_insert].
Qed.

Lemma join_init selfs m :
  selfs <> [] -> expected m = Z.of_nat (length selfs) -> arrived m = 0 ->
  cycle m = g0 -> Core._instanceMutex (backend m) = false ->
  Core._pthreadsInstanceMap (backend m) = ∅ -> Core._currentInstanceId (backend m) = 0 ->
  join_inv selfs (map PthreadsInstanceManager.make selfs) m (replicate (length selfs) Adding).
Proof.
  intros Hne Hf Ha Hg Hmu Hm Hc.
  assert (Hr : forall n, omap instance_of (replicate n Adding) = [] /\ filter waits (replicate n Adding) = []).
  { induction n as [|n [IH1 IH2]]; [done|]. cbn [replicate]. by rewrite filter_cons, decide_False by (by intros []). }
  destruct (Hr (length selfs)) as [Hr1 Hr2].
  split; try done.
  - clear. induction selfs as [|z selfs IH]; [done|]. cbn. by rewrite IH.
  - by rewrite length_replicate.
  - intros z i. rewrite Hm, lookup_empty. split; [done|]. intros (k & st & _ & Hst & Hi).
    by apply lookup_replicate in Hst as [-> _].
  - lia.
  - by rewrite Hr1, Hc.
  - intros k z st i _ Hst Hi. by apply lookup_replicate in Hst as [-> _].
  - left. rewrite Hr2. split_and!; [done|done| |by apply Forall_replicate]. cbn. destruct selfs; cbn; [done|lia].
Qed.

(** A thread that is not done and not held back can move. *)
Lemma stage_moves selfs ps m sts k z st :
  join_inv selfs ps m sts -> selfs !! k = Some z -> sts !! k = Some st ->
  (forall i, st <> Built i) -> (waits st -> cycle m <> g0) -> exists next, pool_step (ps, m) next.
Proof.
  intros Hinv Hz Hst Hnb Hw. assert (Hp : ps !! k = Some (stage_prog (listing m) z st)).
  { rewrite (ji_progs _ _ _ _ Hinv). apply lookup_zip_with_Some. by exists z, st. }
  destruct st as [|i|i|i|i].
  1,2,4: eexists; eapply pool_act; [exact Hp|]; constructor.
  - eexists. eapply pool_act; [exact Hp|]. constructor. specialize (Hw I). case_bool; done.
  - by destruct (Hnb i).
Qed.

Lemma join_progress selfs ps m sts :
  join_inv selfs ps m sts -> Forall finished ps \/ exists next, pool_step (ps, m) next.
Proof.
  intros Hinv. pose proof Hinv as [Hps Hl Hf Hmu Hm Hc Hids Hown Hfe].
  assert (Hlook : forall k st, sts !! k = Some st -> exists z, selfs !! k = Some z).
  { intros k st Hk. apply lookup_lt_is_Some. apply lookup_lt_Some in Hk. lia. }
  destruct Hfe as [(Hg & Ha & Ho & Hb)|[Hg Hb]].
  - right. assert (Hn : ~ Forall waits sts).
    { intros Hall. apply (length_filter_all waits) in Hall. lia. }
    apply not_Forall_Exists in Hn; [|intros x; apply _]. apply Exists_exists in Hn as (st & Hin & Hnw).
    apply list_elem_of_lookup in Hin as [k Hk]. destruct (Hlook k st Hk) as [z Hz].
    eapply stage_moves; [done..| |by intros]. intros i ->. by apply (Forall_lookup_1 _ _ _ _ Hb) in Hk.
  - destruct (decide (Forall finished (zip_with (stage_prog (listing m)) selfs sts))) as [Hall|Hn]; [by left; rewrite Hps|].
    right. apply not_Forall_Exists in Hn; [|intros p; apply _]. apply Exists_exists in Hn as (p & Hin & Hnf).
    apply list_elem_of_lookup in Hin as [k Hk]. apply lookup_zip_with_Some in Hk as (z & st & -> & Hz & Hst).
    eapply stage_moves; [done..| |done]. intros i ->. by apply Hnf.
Qed.

(** When every constructor has returned, all stages are final. *)
Lemma join_built selfs ps m sts k z :
  join_inv selfs ps m sts -> Forall finished ps -> selfs !! k = Some z ->
  exists i, sts !! k = Some (Built i) /\ ps !! k = Some (Ret (InstanceManager.mk (listing m) (Some i))) /\ Instance._pthreadId i = z.
Proof.
  intros Hinv Hall Hz. destruct (lookup_lt_is_Some_2 sts k) as [st Hst].
  { rewrite (ji_length _ _ _ _ Hinv). by eapply lookup_lt_Some. }
  assert (Hp : ps !! k = Some (stage_prog (listing m) z st)).
  { rewrite (ji_progs _ _ _ _ Hinv). apply lookup_zip_with_Some. by exists z, st. }
  pose proof (Forall_lookup_1 _ _ _ _ Hall Hp) as Hfin. destruct st as [|i|i|i|i]; try done.
  exists i. split_and!; [done|done|]. by destruct (ji_own _ _ _ _ Hinv k z (Built i) i Hz Hst eq_refl) as [n ->].
Qed.

Lemma by_key_lookup {A : Type} (km : gmap Z A) z a : (z, a) ∈ Core.by_key km <-> km !! z = Some a.
Proof. rewrite by_key_perm. apply elem_of_map_to_list. Qed.

(** The listed instances: one per thread, numbered from zero. *)
Lemma listing_complete selfs ps m sts :
  join_inv selfs ps m sts -> NoDup selfs -> Forall finished ps ->
  Instance._pthreadId <$> listing m ≡ₚ selfs /\ listing m ≡ₚ omap instance_of sts.
Proof.
  intros Hinv Hnd Hall.
  assert (Hk : Instance._pthreadId <$> listing m = (Core.by_key (Core._pthreadsInstanceMap (backend m))).*1).
  { unfold listing. rewrite <- list_fmap_compose. apply list_fmap_ext. intros j [z i] Hj. cbn.
    apply list_elem_of_lookup_2, by_key_lookup, (ji_map _ _ _ _ Hinv) in Hj as (k & st & Hz & Hst & Hi).
    by destruct (ji_own _ _ _ _ Hinv k z st i Hz Hst Hi) as [n ->]. }
  assert (Hp : Instance._pthreadId <$> listing m ≡ₚ selfs).
  { rewrite Hk. apply NoDup_Permutation; [rewrite by_key_perm; apply NoDup_fst_map_to_list|done|]. intros z. split.
    - intros ([z' i] & -> & Hin)%list_elem_of_fmap. apply by_key_lookup, (ji_map _ _ _ _ Hinv) in Hin as (k & st & Hz & _).
      by eapply list_elem_of_lookup_2.
    - intros [k Hz]%list_elem_of_lookup. destruct (join_built _ _ _ _ _ _ Hinv Hall Hz) as (i & Hst & _).
      apply list_elem_of_fmap. exists (z, i). split; [done|]. apply by_key_lookup, (ji_map _ _ _ _ Hinv). by exists k, (Built i). }
  split; [done|]. apply NoDup_Permutation.
  - apply (NoDup_fmap_1 Instance._pthreadId). by rewrite Hp.
  - apply (NoDup_fmap_1 Instance._id). rewrite (ji_ids _ _ _ _ Hinv). apply NoDup_seqZ.
  - intros i. rewrite list_elem_of_omap. split.
    + intros ([z i'] & -> & Hin)%list_elem_of_fmap. apply by_key_lookup, (ji_map _ _ _ _ Hinv) in Hin as (k & st & _ & Hst & Hi).
      exists st. split; [by eapply list_elem_of_lookup_2|done].
    + intros (st & [k Hst]%list_elem_of_lookup & Hi). destruct (lookup_lt_is_Some_2 selfs k) as [z Hz].
      { rewrite <- (ji_length _ _ _ _ Hinv). by eapply lookup_lt_Some. }
      apply list_elem_of_fmap. exists (z, i). split; [done|]. apply by_key_lookup, (ji_map _ _ _ _ Hinv). by exists k, st.
Qed.

End Constructors.

(** C34: the constructors of the pthreads instance manager, one per thread, in any
    interleaving, from a fresh core for as many threads: the pool is never stuck
    before all have returned, and when all have, every manager lists the same
    instances, one per thread and numbered from zero without gaps, and its
    current instance is the one of its own thread. *)
Theorem instance_managers_agree (selfs : list Z) (m m' : Machine Core.t) ps' :
  selfs <> [] -> NoDup selfs -> Z.of_nat (length selfs) < SIZE_BOUND ->
  backend m = Core.make (Z.of_nat (length selfs)) ->
  pool_steps (map PthreadsInstanceManager.make selfs, m) (ps', m') ->
  (Forall finished ps' \/ exists next, pool_step (ps', m') next) /\
  (Forall finished ps' -> exists l,
     Instance._id <$> l ≡ₚ seqZ 0 (Z.of_nat (length selfs)) /\ Instance._pthreadId <$> l ≡ₚ selfs /\
     forall k z, selfs !! k = Some z -> exists i, i ∈ l /\ Instance._pthreadId i = z /\
       ps' !! k = Some (Ret (InstanceManager.mk l (Some i)))).
Proof.
  intros Hne Hnd HN Hm Hs. set (g0 := cycle m).
  assert (exists sts, join_inv g0 selfs ps' m' sts) as [sts Hinv].
  { apply (pool_invariant (fun ps u => exists sts, join_inv g0 selfs ps u sts) (map PthreadsInstanceManager.make selfs) m ps' m');
      [|eexists; apply join_init; try done; unfold expected, arrived, barrier; by rewrite Hm|exact Hs].
    intros qs u i p p' u' [sts Hi] Hp Ht. by eapply join_step. }
  split; [by eapply join_progress|]. intros Hall. destruct (listing_complete _ _ _ _ _ Hinv Hnd Hall) as [Hp Ho].
  exists (listing m'). pose proof (Permutation_length Hp) as Hlp. rewrite length_fmap in Hlp.
  assert (Hids : Instance._id <$> listing m' ≡ₚ seqZ 0 (Core._currentInstanceId (backend m'))).
  { rewrite Ho. apply Hinv. }
  split_and!; [|done|].
  - pose proof (Permutation_length Hids) as Hl. rewrite length_fmap, length_seqZ, Hlp in Hl. pose proof (ji_current _ _ _ _ _ Hinv).
    rewrite Hids. by replace (Core._currentInstanceId (backend m')) with (Z.of_nat (length selfs)) by lia.
  - intros k z Hz. destruct (join_built _ _ _ _ _ _ _ Hinv Hall Hz) as (i & Hst & Hpk & Hi). exists i. split_and!; [|done|done].
    rewrite Ho, list_elem_of_omap. exists (Built i). split; [by eapply list_elem_of_lookup_2|done].
Qed.

(** C35: [addInstance] of the pthreads instance manager looks up the identifier of
    the instance among the identifiers of the threads.  When it is not one of
    them, [std::out_of_range] leaves the core with its mutex locked: the list of
    the manager is unchanged, and from then on every thread that adds, looks up
    or lists instances blocks for ever. *)
Theorem add_instance_deadlocks (m : Machine Core.t) (o : InstanceManager.t Instance.t) instanceId :
  Core._instanceMutex (backend m) = false -> Core._pthreadsInstanceMap (backend m) !! instanceId = None ->
  exists m', run (InstanceManager.addInstance instanceId) (m, o) = Thrown out_of_range (m', o) /\
    forall z, run (InstanceManager.addInstance z) (m', o) = Blocked (m', o) /\
      run (PthreadsInstanceManager.make z) m' = Blocked m' /\ run Core.getInstances m' = Blocked m'.
Proof.
  intros Hmu Hi. eexists. split.
  - unfold InstanceManager.addInstance. rewrite run_bind, run_on_fst. cbn. rewrite Hmu, Hi. reflexivity.
  - intros z. by destruct m.
Qed.

Module InstanceDemo.

Definition machine (n : Z) : Machine Core.t := mkMachine ∅ ∅ ∅ ∅ (Core.make n).

(** Two threads; the first one waits until the second has arrived. *)
Definition threads : list Z := [140; 97].

Definition order : list nat := [0; 0; 1; 1; 1; 0; 0]%nat.

Lemma instance_managers_agree_witness :
  exists ps' m' l, pool_steps (map PthreadsInstanceManager.make threads, machine 2) (ps', m') /\
    Instance._id <$> l ≡ₚ [0; 1] /\ Instance._pthreadId <$> l ≡ₚ [140; 97] /\
    exists i, ps' !! 0%nat = Some (Ret (InstanceManager.mk l (Some i))) /\ Instance._pthreadId i = 140.
Proof.
  assert (Hend : match schedule order (map PthreadsInstanceManager.make threads) (machine 2) with
                 | Some (ps', _) => bool_decide (Forall finished ps') = true
                 | None => False
                 end) by (by vm_compute).
  destruct (schedule order (map PthreadsInstanceManager.make threads) (machine 2)) as [[ps' m']|] eqn:E; [|done].
  apply schedule_steps in E. apply bool_decide_eq_true in Hend.
  destruct (instance_managers_agree threads (machine 2) m' ps') as [_ Hall];
    [done|by apply (bool_decide_eq_true_1 (NoDup threads)); vm_compute|done|done|done|].
  destruct (Hall Hend) as (l & Hid & Hth & Hk). destruct (Hk 0%nat 140 eq_refl) as (i & _ & Hi & Hp).
  exists ps', m', l. split_and!; [done|exact Hid|exact Hth|by exists i].
Defined.

Lemma add_instance_deadlocks_witness :
  exists m', run (InstanceManager.addInstance 0) (machine 1, InstanceManager.empty) = Thrown out_of_range (m', InstanceManager.empty) /\
    forall z, run (InstanceManager.addInstance z) (m', InstanceManager.empty) = Blocked (m', InstanceManager.empty) /\
      run (PthreadsInstanceManager.make z) m' = Blocked m' /\ run Core.getInstances m' = Blocked m'.
Proof. by apply (add_instance_deadlocks (machine 1) InstanceManager.empty 0). Defined.

End InstanceDemo.
