(* ===== verification/MemoryManager.v ===== *)
(** * Memory managers

    Models [core/memoryManager.hpp], whose virtual operations are the class
    [MemoryBackend], and its hwloc implementation [backends/hwloc/memoryManager.hpp]
    with [backends/hwloc/localMemorySlot.hpp].

    The state is a pair, the machine and what the memory managers add to it.  The
    answers of the system to allocations and releases are not determined by the
    program; they are lists in the state, consumed from the front. *)

From S2P Require Import Prelude Memory CommunicationManager HwlocTopology.
From Stdlib Require Import ZArith Lia.
From stdpp Require Import base list gmap option.

Local Open Scope Z_scope.
Local Open Scope hicr_scope.

(** ** The base class *)

(** A memory space, as the operations receive it: an hwloc one or another. *)
Inductive space_ref : Type :=
| hwloc_space (id : nat) (m : HwlocMemorySpace.t)
| other_space (id : nat).

Definition space_id (r : space_ref) : nat := match r with hwloc_space id _ | other_space id => id end.

(** The virtual operations, over a machine with backend state [X] and the state
    [Y] of the memory managers. *)
Class MemoryBackend (X Y : Type) : Type := {
  allocateLocalMemorySlotImpl : space_ref -> Z -> prog (Machine X * Y) nat;
  registerLocalMemorySlotImpl : space_ref -> ptr -> Z -> prog (Machine X * Y) nat;
  deregisterLocalMemorySlotImpl : nat -> prog (Machine X * Y) unit;
  memsetImpl : nat -> Z -> Z -> prog (Machine X * Y) unit;
  freeLocalMemorySlotImpl : nat -> prog (Machine X * Y) unit
}.

Module MemoryManager.
Section Operations.
Context {X Y : Type}.

(** The default implementation of [memsetImpl]. *)
Definition default_memsetImpl (memorySlot : nat) (value size : Z) : prog (Machine X * Y) unit :=
  p ← on_fst (getPointer memorySlot);
  on_fst (std_memset p (byte_of_Z value) size).

Context {B : MemoryBackend X Y}.

Definition allocateLocalMemorySlot (memorySpace : space_ref) (size : Z) : prog (Machine X * Y) nat :=
  allocateLocalMemorySlotImpl memorySpace size.

Definition registerLocalMemorySlot (memorySpace : space_ref) (p : ptr) (size : Z) : prog (Machine X * Y) nat :=
  registerLocalMemorySlotImpl memorySpace p size.

Definition deregisterLocalMemorySlot (memorySlot : nat) : prog (Machine X * Y) unit :=
  deregisterLocalMemorySlotImpl memorySlot.

Definition memset (memorySlot : nat) (value size : Z) : prog (Machine X * Y) unit :=
  p ← on_fst (getPointer memorySlot);
  _ ← throw_if (bool_decide (p = nullptr)) runtime;
  memsetImpl memorySlot value size.

Definition freeLocalMemorySlot (memorySlot : nat) : prog (Machine X * Y) unit :=
  freeLocalMemorySlotImpl memorySlot.

End Operations.
End MemoryManager.

(** ** The hwloc implementation *)

Module HwlocMemoryManager.

(** [binding_type]. *)
Definition strict_binding : Z := 2.
Definition strict_non_binding : Z := 1.
Definition relaxed_binding : Z := 0.

(** How a block was allocated. *)
Inductive origin_t : Type := Malloc | HwlocAlloc.

#[global] Instance origin_t_eq_dec : EqDecision origin_t.
Proof. solve_decision. Defined.

(** [bindings] has the [_bindingType] of every [hwloc::LocalMemorySlot]; [origins]
    tells how the blocks of the heap were allocated.  [allocations] are the next
    answers of the system to allocations (the initial content of the block, or a
    failure), [releases] those to [hwloc_free]. *)
Record t : Type := mk {
  _hwlocBindingRequested : Z;
  bindings : gmap nat Z;
  origins : gmap nat origin_t;
  allocations : list (option (list byte));
  releases : list bool
}.

Section Operations.
Context {X : Type}.
Implicit Types st : Machine X * t.

Definition setRequestedBindingType (type : Z) : prog (Machine X * t) unit :=
  set_this (fun o => mk type (bindings o) (origins o) (allocations o) (releases o)).

Definition getRequestedBindingType : prog (Machine X * t) Z := this _hwlocBindingRequested.

(** [malloc] and [hwloc_alloc_membind]: a fresh block with any content, or a null pointer. *)
Definition allocate_block (how : origin_t) (size : Z) : prog (Machine X * t) ptr :=
  Step (fun '(m, o) =>
          match allocations o with
          | Some content :: rest =>
              let b := fresh (dom (heap m)) in
              (set_heap (<[b := resize (Z.to_nat size) Byte.x00 content]> (heap m)) m,
               mk (_hwlocBindingRequested o) (bindings o) (<[b := how]> (origins o)) rest (releases o))
          | _ :: rest => (m, mk (_hwlocBindingRequested o) (bindings o) (origins o) rest (releases o))
          | [] => (m, o)
          end)
       (fun '(m, o) =>
          match allocations o with
          | Some _ :: _ => Ret (Ptr (fresh (dom (heap m))) 0)
          | _ => Ret nullptr
          end).

(** The block of a pointer, when it was allocated in the given way. *)
Definition block_of (how : origin_t) (p : ptr) st : option nat :=
  match p with
  | Ptr b off => if bool_decide (off = 0 /\ origins st.2 !! b = Some how /\ is_Some (heap st.1 !! b)) then Some b else None
  | nullptr => None
  end.

Definition release_block (b : nat) st : Machine X * t :=
  (set_heap (delete b (heap st.1)) st.1,
   mk (_hwlocBindingRequested st.2) (bindings st.2) (delete b (origins st.2)) (allocations st.2) (releases st.2)).

(** [free]: null is ignored; any other pointer that [malloc] has not returned is
    undefined behaviour. *)
Definition std_free (p : ptr) : prog (Machine X * t) unit :=
  if bool_decide (p = nullptr) then mret tt
  else update (fun st => b ← block_of Malloc p st; Some (release_block b st)).

(** [hwloc_free]: the pointer and the length must be those of an allocation of
    hwloc; the result tells whether the system has released it. *)
Definition hwloc_free (p : ptr) (size : Z) : prog (Machine X * t) bool :=
  Step (fun st =>
          let st' := (st.1, mk (_hwlocBindingRequested st.2) (bindings st.2) (origins st.2) (allocations st.2) (tail (releases st.2))) in
          match block_of HwlocAlloc p st with
          | Some b => if default true (head (releases st.2)) then release_block b st' else st'
          | None => st
          end)
       (fun st =>
          match block_of HwlocAlloc p st with
          | Some b =>
              if bool_decide (option_map (fun l => Z.of_nat (length l)) (heap st.1 !! b) = Some size)
              then Ret (default true (head (releases st.2))) else Crash undefined
          | None => Crash undefined
          end).

(** [std::make_shared<LocalMemorySlot>(bindingType, ptr, size, memorySpace)]. *)
Definition new_local_slot (bindingType : Z) (p : ptr) (size : Z) (memorySpace : space_ref) : prog (Machine X * t) nat :=
  Step (fun '(m, o) =>
          let l := fresh (dom (locals m)) in
          (set_locals (<[l := LocalMemorySlot.make p size (Some (space_id memorySpace))]> (locals m)) m,
           mk (_hwlocBindingRequested o) (<[l := bindingType]> (bindings o)) (origins o) (allocations o) (releases o)))
       (fun '(m, _) => Ret (fresh (dom (locals m)))).

(** The choice of the binding type. *)
Definition bindingTypeToUse (requested supported : Z) : Z :=
  let use := strict_binding in
  let use := if requested =? strict_binding then strict_binding else use in
  let use := if (requested =? relaxed_binding) && (supported =? strict_binding) then strict_binding else use in
  let use := if (requested =? relaxed_binding) && (supported =? strict_non_binding) then strict_non_binding else use in
  if requested =? strict_non_binding then strict_non_binding else use.

Definition allocateLocalMemorySlotImpl (memorySpace : space_ref) (size : Z) : prog (Machine X * t) nat :=
  match memorySpace with
  | other_space _ => Raise logic
  | hwloc_space _ m =>
      requested ← this _hwlocBindingRequested;
      let supported := HwlocMemorySpace.getSupportedBindingType m in
      let use := bindingTypeToUse requested supported in
      _ ← throw_if (requested >? supported) logic;
      p ← (if use =? strict_binding then allocate_block HwlocAlloc size else mret nullptr);
      p ← (if use =? strict_non_binding then allocate_block Malloc size else mret p);
      _ ← throw_if (bool_decide (p = nullptr)) runtime;
      new_local_slot supported p size memorySpace
  end.

Definition registerLocalMemorySlotImpl (memorySpace : space_ref) (p : ptr) (size : Z) : prog (Machine X * t) nat :=
  new_local_slot strict_non_binding p size memorySpace.

Definition deregisterLocalMemorySlotImpl (memorySlot : nat) : prog (Machine X * t) unit := mret tt.

Definition freeLocalMemorySlotImpl (memorySlot : nat) : prog (Machine X * t) unit :=
  binding ← this (fun o => bindings o !! memorySlot);
  match binding with
  | None => Raise logic
  | Some bindingType =>
      p ← on_fst (getPointer memorySlot);
      size ← on_fst (getSize memorySlot);
      _ ← (if bindingType =? strict_binding
           then ok ← hwloc_free p size; throw_if (negb ok) runtime
           else mret tt);
      if bindingType =? strict_non_binding then std_free p else mret tt
  end.

End Operations.

#[global] Instance hwloc_memory (X : Type) : MemoryBackend X t := {
  allocateLocalMemorySlotImpl := allocateLocalMemorySlotImpl;
  registerLocalMemorySlotImpl := registerLocalMemorySlotImpl;
  deregisterLocalMemorySlotImpl := deregisterLocalMemorySlotImpl;
  memsetImpl := MemoryManager.default_memsetImpl;
  freeLocalMemorySlotImpl := freeLocalMemorySlotImpl
}.

End HwlocMemoryManager.

(** ** What clients rely on *)

(** A machine with more memory and more local slots. *)
Record extends {X : Type} (m m' : Machine X) : Prop := mkExtends {
  ext_heap : heap m ⊆ heap m';
  ext_locals : locals m ⊆ locals m';
  ext_globals : globals m' = globals m;
  ext_managers : managers m' = managers m;
  ext_backend : backend m' = backend m
}.

(** A new slot [l] of [size] bytes in a block of its own. *)
Record new_slot {X : Type} (m : Machine X) (l : nat) (b : nat) (size : Z) (m' : Machine X) : Prop := mkNewSlot {
  new_extends : extends m m';
  new_block : heap m !! b = None;
  new_local : locals m !! l = None;
  new_slot_at : slot_at m' l (Ptr b 0) size;
  new_access : accessible (heap m') (Ptr b 0) size
}.

(** [can_allocate] tells in which states an allocation succeeds. *)
Class MemorySpec (X Y : Type) {B : MemoryBackend X Y} : Type := {
  can_allocate : Y -> space_ref -> Prop;
  allocate_ok : forall (m : Machine X) (y : Y) r size, can_allocate y r -> 0 <= size ->
    exists l b m' y', run (MemoryManager.allocateLocalMemorySlot r size) (m, y) = Done l (m', y') /\ new_slot m l b size m';
  register_ok : forall (m : Machine X) (y : Y) r p size,
    exists l m' y', run (MemoryManager.registerLocalMemorySlot r p size) (m, y) = Done l (m', y') /\
      extends m m' /\ heap m' = heap m /\ locals m !! l = None /\ slot_at m' l p size /\
      forall r', can_allocate y r' -> can_allocate y' r'
}.

Section Facts.
Context {X : Type}.
Implicit Types m : Machine X.

Lemma extends_slot_at m m' l p n : extends m m' -> slot_at m l p n -> slot_at m' l p n.
Proof. intros He (s & E & Hs). exists s. split; [|done]. eapply lookup_weaken; [exact E|apply He]. Qed.

Lemma extends_backed_by m m' g l : extends m m' -> backed_by m g l -> backed_by m' g l.
Proof. intros He. unfold backed_by. by rewrite (ext_globals _ _ He). Qed.

Lemma extends_load m m' p n bs : extends m m' -> mem_load (heap m) p n = Some bs -> mem_load (heap m') p n = Some bs.
Proof.
  intros He. destruct p as [|b o]; [done|]. unfold mem_load. destruct (heap m !! b) as [l|] eqn:E; [|done].
  by rewrite (lookup_weaken _ _ _ _ E (ext_heap _ _ He)).
Qed.

Lemma new_slot_backed m l b size m' g src : new_slot m l b size m' -> backed_by m g src -> backed_by m' g src.
Proof. intros Hn. apply extends_backed_by, Hn. Qed.

(** Creating a block and creating a slot. *)
Lemma extends_block m bs : extends m (set_heap (<[fresh (dom (heap m)) := bs]> (heap m)) m).
Proof. split; try done. apply insert_subseteq, not_elem_of_dom, is_fresh. Qed.

Lemma extends_slot m s : extends m (set_locals (<[fresh (dom (locals m)) := s]> (locals m)) m).
Proof. split; try done. apply insert_subseteq, not_elem_of_dom, is_fresh. Qed.

Lemma extends_trans m1 m2 m3 : extends m1 m2 -> extends m2 m3 -> extends m1 m3.
Proof.
  intros [] []. split; try congruence; etrans; eauto.
Qed.

Lemma new_block_accessible m content size :
  0 <= size -> accessible (<[fresh (dom (heap m)) := resize (Z.to_nat size) Byte.x00 content]> (heap m)) (Ptr (fresh (dom (heap m))) 0) size.
Proof.
  intros Hs. unfold accessible, mem_load. rewrite lookup_insert_eq. cbn. rewrite bool_decide_true by lia.
  apply is_Some_read_at. rewrite length_resize. lia.
Qed.

End Facts.

(** ** The hwloc implementation *)

Section Hwloc.
Context {X : Type}.
Import HwlocMemoryManager.
Implicit Types (m : Machine X) (o : HwlocMemoryManager.t).

(** Which allocator serves a request. *)
Definition allocator (requested supported : Z) : origin_t :=
  if bindingTypeToUse requested supported =? strict_binding then HwlocAlloc else Malloc.

Lemma binding_cases requested supported :
  bindingTypeToUse requested supported = strict_binding \/ bindingTypeToUse requested supported = strict_non_binding.
Proof. unfold bindingTypeToUse. repeat case_bool; cbn; auto. Qed.

(** The state after a block of [size] bytes has been granted. *)
Definition granted (how : origin_t) (size : Z) (content : list byte) rest m o : Machine X * HwlocMemoryManager.t :=
  let b := fresh (dom (heap m)) in
  (set_heap (<[b := resize (Z.to_nat size) Byte.x00 content]> (heap m)) m,
   mk (_hwlocBindingRequested o) (bindings o) (<[b := how]> (origins o)) rest (releases o)).

(** The state after a slot has been made. *)
Definition slotted (binding : Z) (p : ptr) (size : Z) (r : space_ref) (st : Machine X * HwlocMemoryManager.t) : Machine X * HwlocMemoryManager.t :=
  let l := fresh (dom (locals st.1)) in
  (set_locals (<[l := LocalMemorySlot.make p size (Some (space_id r))]> (locals st.1)) st.1,
   mk (_hwlocBindingRequested st.2) (<[l := binding]> (bindings st.2)) (origins st.2) (allocations st.2) (releases st.2)).

Lemma run_allocate id sp size m o :
  let requested := _hwlocBindingRequested o in
  let supported := HwlocMemorySpace.getSupportedBindingType sp in
  run (MemoryManager.allocateLocalMemorySlot (hwloc_space id sp) size) (m, o) =
  if requested >? supported then Thrown logic (m, o)
  else match allocations o with
       | Some content :: rest =>
           Done (fresh (dom (locals m)))
             (slotted supported (Ptr (fresh (dom (heap m))) 0) size (hwloc_space id sp) (granted (allocator requested supported) size content rest m o))
       | _ => Thrown runtime (m, mk requested (bindings o) (origins o) (tail (allocations o)) (releases o))
       end.
Proof.
  cbn zeta. unfold MemoryManager.allocateLocalMemorySlot. cbn [MemoryManager.allocateLocalMemorySlotImpl allocateLocalMemorySlotImpl hwloc_memory].
  unfold HwlocMemoryManager.allocateLocalMemorySlotImpl. rewrite run_bind, run_this, run_bind. cbn [snd].
  destruct (_hwlocBindingRequested o >? HwlocMemorySpace.getSupportedBindingType sp); [done|]. cbn [throw_if run].
  unfold allocator. destruct (binding_cases (_hwlocBindingRequested o) (HwlocMemorySpace.getSupportedBindingType sp)) as [->| ->];
    destruct o as [req bi ori [|[content|] rest] rel]; reflexivity.
Qed.

(** The slot of a granted allocation. *)
Lemma granted_slot how binding size content rest r m o :
  0 <= size ->
  let b := fresh (dom (heap m)) in
  new_slot m (fresh (dom (locals m))) b size
    (slotted binding (Ptr b 0) size r (granted how size content rest m o)).1.
Proof.
  intros Hs b. split.
  - eapply extends_trans; [apply extends_block|apply extends_slot].
  - apply not_elem_of_dom, is_fresh.
  - apply not_elem_of_dom, is_fresh.
  - eexists. split; [apply lookup_insert_eq|done].
  - by apply new_block_accessible.
Qed.

(** Every block that has an origin is allocated. *)
Definition origins_wf m o : Prop := forall b, is_Some (origins o !! b) -> is_Some (heap m !! b).

(** [allocateLocalMemorySlot] of the hwloc memory manager on every branch.  A
    binding that the memory space does not support, or a memory space of another
    backend, is a logic error; a failure of the system is a runtime error; neither
    changes the machine.  Otherwise the result is a new slot of the given size in
    a new block, and nothing else changes. *)
Theorem allocate_spec r size m o :
  0 <= size ->
  match r with
  | other_space _ => run (MemoryManager.allocateLocalMemorySlot r size) (m, o) = Thrown logic (m, o)
  | hwloc_space _ sp =>
      match run (MemoryManager.allocateLocalMemorySlot r size) (m, o) with
      | Done l (m', o') =>
          _hwlocBindingRequested o <= HwlocMemorySpace.getSupportedBindingType sp /\
          exists b, new_slot m l b size m' /\ heap m' = <[b := default [] (heap m' !! b)]> (heap m) /\
            (origins_wf m o -> origins_wf m' o')
      | Thrown e (m', _) =>
          m' = m /\
          e = (if _hwlocBindingRequested o >? HwlocMemorySpace.getSupportedBindingType sp then logic else runtime)
      | _ => False
      end
  end.
Proof.
  intros Hs. destruct r as [id sp|id]; [|done]. rewrite run_allocate. case_bool; [done|].
  destruct (allocations o) as [|[content|] rest]; [done| |done]. split; [done|]. exists (fresh (dom (heap m))). split_and!.
  - exact (granted_slot (allocator (_hwlocBindingRequested o) (HwlocMemorySpace.getSupportedBindingType sp)) (HwlocMemorySpace.getSupportedBindingType sp)
      size content rest (hwloc_space id sp) m o Hs).
  - cbn. by rewrite lookup_insert_eq.
  - intros Hw b [h Hb]. cbn in Hb. apply lookup_insert_Some in Hb as [[<- _]|[Hne Hb]]; cbn.
    + by rewrite lookup_insert_eq.
    + rewrite lookup_insert_ne by done. apply Hw. by eexists.
Qed.

Lemma run_free_slot m o l p size binding :
  bindings o !! l = Some binding -> slot_at m l p size ->
  run (MemoryManager.freeLocalMemorySlot l) (m, o) =
  run (_ ← (if binding =? strict_binding then ok ← hwloc_free p size; throw_if (negb ok) runtime else mret tt);
       if binding =? strict_non_binding then std_free p else mret tt) (m, o).
Proof.
  intros Hb Hs. unfold MemoryManager.freeLocalMemorySlot. cbn [MemoryManager.freeLocalMemorySlotImpl freeLocalMemorySlotImpl hwloc_memory].
  unfold HwlocMemoryManager.freeLocalMemorySlotImpl. rewrite run_bind, run_this. cbn [snd]. rewrite Hb.
  rewrite run_bind, run_on_fst, (run_getPointer _ _ _ _ Hs), run_bind, run_on_fst, (run_getSize _ _ _ _ Hs). done.
Qed.

(** A slot whose binding type matches the way its block was allocated. *)
Definition matches_origin (binding : Z) (how : origin_t) : Prop :=
  match how with HwlocAlloc => binding = strict_binding | Malloc => binding = strict_non_binding end.

Lemma run_free_ok m o l b bs binding how :
  bindings o !! l = Some binding -> slot_at m l (Ptr b 0) (Z.of_nat (length bs)) ->
  heap m !! b = Some bs -> origins o !! b = Some how -> matches_origin binding how -> head (releases o) <> Some false ->
  exists o', run (MemoryManager.freeLocalMemorySlot l) (m, o) = Done tt (set_heap (delete b (heap m)) m, o') /\
    origins o' = delete b (origins o).
Proof.
  intros Hb Hs Hh Ho Hm Hr. rewrite (run_free_slot m o l _ _ _ Hb Hs).
  assert (Hbl : block_of how (Ptr b 0) (m, o) = Some b).
  { unfold block_of. rewrite bool_decide_true; [done|]. cbn. split_and!; [done|done|by eexists]. }
  destruct how; cbn in Hm; subst binding; cbn [Z.eqb Pos.eqb strict_binding strict_non_binding].
  - eexists. split.
    + rewrite run_bind, run_ret. unfold std_free. rewrite bool_decide_false by done. apply run_update. rewrite Hbl. reflexivity.
    + done.
  - assert (Hd : default true (head (releases o)) = true) by (by destruct (head (releases o)) as [[]|]).
    eexists. split.
    + rewrite run_bind, run_bind. unfold hwloc_free. cbn [run]. rewrite Hbl. cbn [fst]. rewrite Hh. cbn [option_map].
      rewrite bool_decide_true by done. cbn [snd]. rewrite Hd. reflexivity.
    + done.
Qed.

(** A slot with the binding of the other kind of allocation cannot be freed. *)
Lemma run_free_mismatch m o l b binding how size :
  bindings o !! l = Some binding -> slot_at m l (Ptr b 0) size -> origins o !! b = Some how ->
  binding = strict_binding -> how = Malloc ->
  run (MemoryManager.freeLocalMemorySlot l) (m, o) = Crashed undefined (m, o).
Proof.
  intros Hb Hs Ho -> ->. rewrite (run_free_slot m o l _ _ _ Hb Hs). cbn [Z.eqb Pos.eqb strict_binding].
  assert (Hbl : block_of HwlocAlloc (Ptr b 0) (m, o) = None).
  { unfold block_of. rewrite bool_decide_false; [done|]. cbn. intros (_ & E & _). congruence. }
  rewrite run_bind, run_bind. unfold hwloc_free. cbn [run]. by rewrite Hbl.
Qed.

(** Allocating a slot and freeing it gives back the memory that was there
    before, provided that the binding the allocation uses is the one that the
    memory space supports and that the system releases the block. *)
Theorem allocate_free id sp size content rest m o :
  0 <= size -> origins_wf m o -> allocations o = Some content :: rest -> head (releases o) <> Some false ->
  _hwlocBindingRequested o <= HwlocMemorySpace.getSupportedBindingType sp ->
  bindingTypeToUse (_hwlocBindingRequested o) (HwlocMemorySpace.getSupportedBindingType sp) = HwlocMemorySpace.getSupportedBindingType sp ->
  exists m' o', run (l ← MemoryManager.allocateLocalMemorySlot (hwloc_space id sp) size; MemoryManager.freeLocalMemorySlot l) (m, o)
      = Done tt (m', o') /\ heap m' = heap m /\ origins o' = origins o.
Proof.
  intros Hs Hw Ha Hr Hle Huse. rewrite run_bind, run_allocate, Ha. case_bool; [lia|].
  set (how := allocator _ _). set (sup := HwlocMemorySpace.getSupportedBindingType sp) in *. set (b := fresh (dom (heap m))).
  pose proof (granted_slot how sup size content rest (hwloc_space id sp) m o Hs) as Hn. cbn zeta in Hn. fold b in Hn.
  assert (Ho : origins o !! b = None).
  { destruct (origins o !! b) as [h|] eqn:E; [|done]. destruct (Hw b) as [x Hx]; [by eexists|]. by rewrite (new_block _ _ _ _ _ Hn) in Hx. }
  set (st := slotted sup (Ptr b 0) size (hwloc_space id sp) (granted how size content rest m o)) in *.
  destruct (run_free_ok st.1 st.2 (fresh (dom (locals m))) b (resize (Z.to_nat size) Byte.x00 content) sup how) as (o' & E & Eo).
  - apply lookup_insert_eq.
  - rewrite length_resize, Z2Nat.id by done. apply Hn.
  - apply lookup_insert_eq.
  - apply lookup_insert_eq.
  - unfold how, allocator, matches_origin. rewrite Huse. destruct (binding_cases (_hwlocBindingRequested o) sup) as [Eb|Eb];
      fold sup in Huse; rewrite Huse in Eb; by rewrite Eb.
  - done.
  - eexists _, o'. split_and!; [exact E| |rewrite Eo; cbn; rewrite delete_insert_eq; by apply delete_id].
    cbn. rewrite delete_insert_eq. apply delete_id, (new_block _ _ _ _ _ Hn).
Qed.

(** A manager asked not to bind memory, on a memory space that supports
    binding, allocates with [malloc] but records the slot as bound: freeing it
    hands the memory to [hwloc_free], which is undefined behaviour. *)
Theorem free_mismatch id sp size content rest m o :
  0 <= size -> allocations o = Some content :: rest ->
  _hwlocBindingRequested o = strict_non_binding -> HwlocMemorySpace.getSupportedBindingType sp = strict_binding ->
  exists l st, run (MemoryManager.allocateLocalMemorySlot (hwloc_space id sp) size) (m, o) = Done l st /\
    run (MemoryManager.freeLocalMemorySlot l) st = Crashed undefined st.
Proof.
  intros Hs Ha Hreq Hsup. eexists _, _. split.
  - rewrite run_allocate, Ha, Hreq, Hsup. reflexivity.
  - pose proof (granted_slot Malloc strict_binding size content rest (hwloc_space id sp) m o Hs) as Hn.
    eapply run_free_mismatch; [apply lookup_insert_eq|apply Hn|apply lookup_insert_eq|done|done].
Qed.

End Hwloc.

(** The hwloc memory manager discharges the interface. *)
#[global] Instance hwloc_memory_spec (X : Type) : MemorySpec X HwlocMemoryManager.t.
Proof.
  refine {| can_allocate := fun y r =>
    match r with
    | hwloc_space _ sp => HwlocMemoryManager._hwlocBindingRequested y <= HwlocMemorySpace.getSupportedBindingType sp /\
                          exists content rest, HwlocMemoryManager.allocations y = Some content :: rest
    | other_space _ => False
    end |}.
  - intros m y [id sp|id] size Hc Hs; [|done]. destruct Hc as (Hle & content & rest & Ha).
    eexists _, _, _, _. split; [|exact (granted_slot (allocator (HwlocMemoryManager._hwlocBindingRequested y) (HwlocMemorySpace.getSupportedBindingType sp))
      (HwlocMemorySpace.getSupportedBindingType sp) size content rest (hwloc_space id sp) m y Hs)].
    rewrite run_allocate, Ha. case_bool; [lia|]. reflexivity.
  - intros m y r p size. eexists _, _, _. split; [reflexivity|]. split_and!.
    + apply extends_slot.
    + done.
    + apply not_elem_of_dom, is_fresh.
    + eexists. split; [apply lookup_insert_eq|done].
    + by intros [].
Defined.

(** ** Temporary memory

    What the clients rely on that allocate a slot, use it and free it: [owns y l b]
    tells that the block [b] can be given back through the slot [l]. *)
Class RecycleSpec (X Y : Type) {B : MemoryBackend X Y} {MS : MemorySpec X Y} : Type := {
  can_recycle : Y -> space_ref -> Prop;
  owns : Y -> nat -> nat -> Prop;
  recycle_allocate : forall (m : Machine X) (y : Y) r size, can_recycle y r -> 0 <= size ->
    exists (l b : nat) (bs : list Byte.byte) (m' : Machine X) (y' : Y),
      run (MemoryManager.allocateLocalMemorySlot r size) (m, y) = Done l (m', y') /\ new_slot m l b size m' /\
      heap m' = <[b := bs]> (heap m) /\ Z.of_nat (length bs) = size /\ owns y' l b;
  recycle_register : forall (m : Machine X) (y : Y) r p size l' m' y',
    run (MemoryManager.registerLocalMemorySlot r p size) (m, y) = Done l' (m', y') ->
    forall l b, is_Some (locals m !! l) -> owns y l b -> owns y' l b;
  recycle_free : forall (m : Machine X) (y : Y) l b bs,
    owns y l b -> slot_at m l (Ptr b 0) (Z.of_nat (length bs)) -> heap m !! b = Some bs ->
    exists y', run (MemoryManager.freeLocalMemorySlot l) (m, y) = Done tt (set_heap (delete b (heap m)) m, y')
}.

(** A store into a block keeps the other blocks and the size of this one. *)
Lemma stored_block {X : Type} (m : Machine X) b bs m' l :
  stored m (Ptr b 0) bs m' -> heap m !! b = Some l ->
  exists l', length l' = length l /\ heap m' = <[b := l']> (heap m).
Proof.
  intros Hst Hb. apply stored_heap, mem_store_inv in Hst as (l0 & l' & E & _ & Ew & Eh).
  assert (l0 = l) as -> by congruence. exists l'. split; [by eapply write_at_length|done].
Qed.

(** The hwloc memory manager can take back what it allocates when the binding of
    the allocation is the one that the memory space supports and the system
    releases the block. *)
#[global] Instance hwloc_recycle_spec (X : Type) : RecycleSpec X HwlocMemoryManager.t.
Proof.
  refine {| can_recycle := fun y r =>
    match r with
    | hwloc_space _ sp =>
        HwlocMemoryManager._hwlocBindingRequested y <= HwlocMemorySpace.getSupportedBindingType sp /\
        HwlocMemoryManager.bindingTypeToUse (HwlocMemoryManager._hwlocBindingRequested y) (HwlocMemorySpace.getSupportedBindingType sp)
          = HwlocMemorySpace.getSupportedBindingType sp /\
        head (HwlocMemoryManager.releases y) <> Some false /\ is_Some (mjoin (head (HwlocMemoryManager.allocations y)))
    | other_space _ => False
    end;
    owns := fun y l b => exists binding how, HwlocMemoryManager.bindings y !! l = Some binding /\
      HwlocMemoryManager.origins y !! b = Some how /\ matches_origin binding how /\ head (HwlocMemoryManager.releases y) <> Some false |}.
  - intros m y [id sp|id] size Hc Hs; [|done]. destruct Hc as (Hle & Huse & Hr & content & Ha).
    destruct (HwlocMemoryManager.allocations y) as [|[c|] rest] eqn:Ea; try done. injection Ha as ->.
    eexists _, _, _, _, _. split_and!.
    + rewrite run_allocate, Ea. case_bool; [lia|]. reflexivity.
    + exact (granted_slot (allocator (HwlocMemoryManager._hwlocBindingRequested y) (HwlocMemorySpace.getSupportedBindingType sp))
        (HwlocMemorySpace.getSupportedBindingType sp) size content rest (hwloc_space id sp) m y Hs).
    + reflexivity.
    + rewrite length_resize. lia.
    + eexists _, _. split_and!; [apply lookup_insert_eq|apply lookup_insert_eq| |done]. unfold allocator, matches_origin.
      destruct (binding_cases (HwlocMemoryManager._hwlocBindingRequested y) (HwlocMemorySpace.getSupportedBindingType sp)) as [Eb|Eb];
        rewrite Huse in Eb; by rewrite Huse, Eb.
  - intros m y r p size l' m' y' E l b [s Hl] (binding & how & Hb & Ho & Hm & Hr). injection E as <- <- <-.
    exists binding, how. split_and!; [|done..]. cbn. rewrite lookup_insert_ne; [done|]. intros Hf.
    apply (is_fresh (dom (locals m))). cbn in Hf. rewrite Hf. by eapply elem_of_dom_2.
  - intros m y l b bs (binding & how & Hb & Ho & Hm & Hr) Hs Hh.
    destruct (run_free_ok m y l b bs binding how Hb Hs Hh Ho Hm Hr) as (y' & E & _). by exists y'.
Defined.

(** ** The theorems on a small machine *)

Module MemoryDemo.

Definition machine : Machine unit := mkMachine ∅ ∅ ∅ ∅ tt.

Definition space : space_ref := hwloc_space 0 (HwlocMemorySpace.make 1024 None HwlocMemoryManager.strict_binding).

Definition manager (requested : Z) : HwlocMemoryManager.t :=
  HwlocMemoryManager.mk requested ∅ ∅ [Some [Byte.x01; Byte.x02]; None] [].

Lemma allocate_spec_witness :
  exists l m' o', run (MemoryManager.allocateLocalMemorySlot space 2) (machine, manager 0) = Done l (m', o') /\
    exists b, new_slot machine l b 2 m'.
Proof.
  pose proof (allocate_spec (hwloc_space 0 (HwlocMemorySpace.make 1024 None HwlocMemoryManager.strict_binding)) 2 machine (manager 0) ltac:(lia)) as H.
  cbv iota in H. fold space in H.
  destruct (run (MemoryManager.allocateLocalMemorySlot space 2) (machine, manager 0)) as [l [m' o']| | |] eqn:E; [|by vm_compute in E..].
  exists l, m', o'. split; [done|]. destruct H as (_ & b & Hn & _). by exists b.
Defined.

Lemma allocate_free_witness :
  exists m' o', run (l ← MemoryManager.allocateLocalMemorySlot space 2; MemoryManager.freeLocalMemorySlot l) (machine, manager 0)
      = Done tt (m', o') /\ heap m' = ∅ /\ HwlocMemoryManager.origins o' = ∅.
Proof.
  apply (allocate_free 0 (HwlocMemorySpace.make 1024 None HwlocMemoryManager.strict_binding) 2 [Byte.x01; Byte.x02] [None] machine (manager 0));
    [lia|intros b [? Hb]; by vm_compute in Hb|done|done|done|cbn; lia].
Defined.

Lemma free_mismatch_witness :
  exists l st, run (MemoryManager.allocateLocalMemorySlot space 2) (machine, manager 1) = Done l st /\
    run (MemoryManager.freeLocalMemorySlot l) st = Crashed undefined st.
Proof.
  by apply (free_mismatch 0 (HwlocMemorySpace.make 1024 None HwlocMemoryManager.strict_binding) 2 [Byte.x01; Byte.x02] [None] machine (manager 1)).
Defined.

End MemoryDemo.
