(* ===== verification/HwlocDiscovery.v ===== *)
(** * Discovery of the topology with hwloc

    Models the parts of [backends/hwloc/computeResource.hpp] and
    [backends/hwloc/topologyManager.hpp] that read the objects of the hwloc
    library: the processing units, their NUMA domains and caches, and the devices
    made of them.

    The loaded hwloc topology is the state: its objects by address, with the
    members that the code reads, and what the functions of the library answer. *)

From S2P Require Import Prelude Json Topology TopologySpec HwlocTopology MemoryManager.
From Stdlib Require Import ZArith Lia String.
From stdpp Require Import base list gmap option strings.

Local Open Scope Z_scope.
Local Open Scope list_scope.
Local Open Scope hicr_scope.

(** ** The hwloc library *)

Module Hwloc.

(** [hwloc_obj_type_t]; the types that the code does not name are numbered. *)
Inductive obj_type : Type :=
  | HWLOC_OBJ_PU | HWLOC_OBJ_NUMANODE
  | HWLOC_OBJ_L1CACHE | HWLOC_OBJ_L2CACHE | HWLOC_OBJ_L3CACHE | HWLOC_OBJ_L4CACHE | HWLOC_OBJ_L5CACHE
  | HWLOC_OBJ_L1ICACHE | HWLOC_OBJ_L2ICACHE | HWLOC_OBJ_L3ICACHE
  | HWLOC_OBJ_OTHER (n : nat).

Inductive cache_type : Type := HWLOC_OBJ_CACHE_UNIFIED | HWLOC_OBJ_CACHE_DATA | HWLOC_OBJ_CACHE_INSTRUCTION.

(** [hwloc_obj].  [attr_size] is the first member of the attributes, which is the
    size of a cache and the local memory of a NUMA node. *)
Record obj : Type := mkObj {
  type : obj_type;
  logical_index : Z;
  os_index : Z;
  children : list nat;
  parent : option nat;
  memory_arity : nat;
  memory_first_child : option nat;
  next_sibling : option nat;
  nodeset : list Z;
  attr_type : cache_type;
  attr_size : Z;
  attr_linesize : Z
}.

Definition arity (o : obj) : nat := length (children o).

(** [alloc_membind] and [free] tell whether memory can be bound to the nodes of an
    object and released again. *)
Record topology : Type := mkTopology {
  objects : gmap nat obj;
  root : nat;
  get_obj_by_type : obj_type -> Z -> option nat;
  get_nbobjs_by_type : obj_type -> nat;
  type_is_memory : obj_type -> bool;
  alloc_membind : nat -> bool;
  free : nat -> bool
}.

(** A pointer to an object is dereferenced. *)
Definition deref (p : option nat) : prog topology obj := fetch (fun t => a ← p; objects t !! a).

End Hwloc.

(** ** Processing units *)

Module HwlocDetect.
Import Hwloc.

(** The second component of the state is [threadPUs]; [fuel] bounds the depth. *)
Fixpoint detectThreadPUs (fuel : nat) (p : nat) : prog (topology * list Z) unit :=
  match fuel with
  | O => Await (fun _ => false) (Ret tt)
  | S fuel' =>
      o ← on_fst (deref (Some p));
      _ ← (if (arity o =? 0)%nat then set_this (fun l => l ++ [logical_index o]) else mret tt);
      for_each (children o) (detectThreadPUs fuel')
  end.

(** The processing unit with an index; there may be none. *)
Definition processing_unit (objectId : Z) : prog topology nat :=
  p ← gets (fun t => get_obj_by_type t HWLOC_OBJ_PU objectId);
  match p with None => Raise runtime | Some p => mret p end.

Definition detectLogicalProcessorId (objectId : Z) : prog topology Z :=
  p ← processing_unit objectId;
  o ← deref (Some p);
  mret (logical_index o).

Definition detectPhysicalProcessorId (objectId : Z) : prog topology Z :=
  p ← processing_unit objectId;
  o ← deref (Some p);
  mret (os_index o).

(** [while (ancestor && !ancestor->memory_arity) ancestor = ancestor->parent;] *)
Fixpoint memory_ancestor (fuel : nat) (ancestor : option nat) : prog topology (option nat) :=
  match fuel with
  | O => Await (fun _ => false) (Ret None)
  | S fuel' =>
      match ancestor with
      | None => mret None
      | Some p =>
          o ← deref (Some p);
          if (memory_arity o =? 0)%nat then memory_ancestor fuel' (parent o) else mret ancestor
      end
  end.

(** The loop over [n] memory children, from [nodeNUMA] on.  A null pointer is
    dereferenced when there are fewer. *)
Fixpoint find_numa_node (o : obj) (n : nat) (nodeNUMA : option nat) : prog topology (option Z) :=
  match n with
  | O => mret None
  | S n' =>
      node ← deref nodeNUMA;
      is_memory ← gets (fun t => type_is_memory t (type node));
      if is_memory && bool_decide (os_index node ∈ nodeset o) then mret (Some (logical_index node))
      else find_numa_node o n' (next_sibling node)
  end.

Definition detectCoreNUMAffinity (fuel : nat) (logicalProcessorId : Z) : prog topology Z :=
  p ← processing_unit logicalProcessorId;
  o ← deref (Some p);
  ancestor ← memory_ancestor fuel (parent o);
  a ← deref ancestor;
  found ← find_numa_node o (memory_arity a) (memory_first_child a);
  match found with None => Raise runtime | Some ret => mret ret end.

(** The same code a second time. *)
Definition getCpuNumaAffinity (fuel : nat) (logicalProcessorId : Z) : prog topology Z :=
  p ← processing_unit logicalProcessorId;
  o ← deref (Some p);
  ancestor ← memory_ancestor fuel (parent o);
  a ← deref ancestor;
  found ← find_numa_node o (memory_arity a) (memory_first_child a);
  match found with None => Raise runtime | Some ret => mret ret end.

Definition cache_level (ty : obj_type) : option Z :=
  match ty with
  | HWLOC_OBJ_L1CACHE | HWLOC_OBJ_L1ICACHE => Some HwlocCache.L1
  | HWLOC_OBJ_L2CACHE | HWLOC_OBJ_L2ICACHE => Some HwlocCache.L2
  | HWLOC_OBJ_L3CACHE | HWLOC_OBJ_L3ICACHE => Some HwlocCache.L3
  | HWLOC_OBJ_L4CACHE => Some HwlocCache.L4
  | HWLOC_OBJ_L5CACHE => Some HwlocCache.L5
  | _ => None
  end.

Definition cache_type_name (c : cache_type) : string :=
  match c with
  | HWLOC_OBJ_CACHE_UNIFIED => "Unified"
  | HWLOC_OBJ_CACHE_INSTRUCTION => "Instruction"
  | HWLOC_OBJ_CACHE_DATA => "Data"
  end%string.

(** The cache that an object describes, if it is one. *)
Definition cache_of (c : obj) : option HwlocCache.t :=
  level ← cache_level (type c);
  Some (HwlocCache.mk level (cache_type_name (attr_type c)) (attr_size c) (attr_linesize c) (1 <? arity c)%nat).

(** The set of caches as the list of the insertions. *)
Fixpoint collect_caches (fuel : nat) (cache : option nat) (ret : list HwlocCache.t) : prog topology (list HwlocCache.t) :=
  match fuel with
  | O => Await (fun _ => false) (Ret [])
  | S fuel' =>
      match cache with
      | None => mret ret
      | Some p =>
          c ← deref (Some p);
          collect_caches fuel' (parent c) (match cache_of c with Some x => ret ++ [x] | None => ret end)
      end
  end.

Definition detectCpuCaches (fuel : nat) (logicalProcessorId : Z) : prog topology (list HwlocCache.t) :=
  p ← processing_unit logicalProcessorId;
  o ← deref (Some p);
  collect_caches fuel (parent o) [].

(** The constructor of a compute resource from the hwloc topology. *)
Definition make (fuel : nat) (hwlocObjectIndex : Z) : prog topology HwlocComputeResource.t :=
  logicalProcessorId ← detectLogicalProcessorId hwlocObjectIndex;
  physicalProcessorId ← detectPhysicalProcessorId hwlocObjectIndex;
  numaAffinity ← detectCoreNUMAffinity fuel hwlocObjectIndex;
  caches ← detectCpuCaches fuel hwlocObjectIndex;
  mret (HwlocComputeResource.make hwlocObjectIndex logicalProcessorId physicalProcessorId numaAffinity caches).

End HwlocDetect.

(** ** The topology manager *)

Module HwlocQuery.
Import Hwloc HwlocDetect.

Definition threadPUs (fuel : nat) : prog topology (list Z) :=
  r ← gets root;
  with_local (_ ← detectThreadPUs fuel r; this (fun l => l)) [].

(** The processing units that belong to the NUMA domain. *)
Fixpoint select_units (fuel : nat) (numaDomainId : Z) (ids : list Z) : prog topology (list HwlocComputeResource.t) :=
  match ids with
  | [] => mret []
  | id :: ids' =>
      numa ← getCpuNumaAffinity fuel id;
      if numa =? numaDomainId
      then processor ← HwlocDetect.make fuel id;
           rest ← select_units fuel numaDomainId ids';
           mret (processor :: rest)
      else select_units fuel numaDomainId ids'
  end.

Definition queryComputeResources (fuel : nat) (numaDomainId : Z) : prog topology (list HwlocComputeResource.t) :=
  logicalProcessorIds ← threadPUs fuel;
  select_units fuel numaDomainId logicalProcessorIds.

(** Whether memory can be bound to the domain is tried out. *)
Definition bindingSupport (t : topology) (p : nat) : Z :=
  if alloc_membind t p && free t p then HwlocMemoryManager.strict_binding else HwlocMemoryManager.strict_non_binding.

Definition queryMemorySpaces (numaDomainId : Z) : prog topology (list HwlocMemorySpace.t) :=
  hwlocObj ← gets (fun t => get_obj_by_type t HWLOC_OBJ_NUMANODE numaDomainId);
  o ← deref hwlocObj;
  support ← gets (fun t => default HwlocMemoryManager.strict_non_binding (option_map (bindingSupport t) hwlocObj));
  mret [HwlocMemorySpace.make (attr_size o) hwlocObj support].

(** The device of a NUMA domain. *)
Definition queryDevice (fuel : nat) (i : nat) : prog topology Device.t :=
  computeResources ← queryComputeResources fuel (Z.of_nat i);
  memorySpaces ← queryMemorySpaces (Z.of_nat i);
  mret (HwlocDevice.make (Z.of_nat i) (map HwlocComputeResource.base computeResources) (map HwlocMemorySpace.base memorySpaces)).

Definition queryTopology (fuel : nat) : prog topology Topology.t :=
  n ← gets (fun t => get_nbobjs_by_type t HWLOC_OBJ_NUMANODE);
  with_local (_ ← for_each (seq 0 n) (fun i =>
                    d ← on_fst (queryDevice fuel i);
                    zoom (fun st => Some st.2) (fun t st => (st.1, t)) (Topology.addDevice d));
              this (fun t => t)) Topology.empty.

End HwlocQuery.

(** ** What the objects describe *)

Section Reference.
Import Hwloc HwlocDetect.
Implicit Types (t : topology) (h n : nat) (id : Z).

(** The logical indices of the leaves below an object, from left to right, when
    the objects form a tree of at most the given height. *)
Fixpoint leaves_of t h (p : nat) : option (list Z) :=
  match h with
  | O => None
  | S h' =>
      o ← objects t !! p;
      match children o with
      | [] => Some [logical_index o]
      | ps => lss ← mapM (leaves_of t h') ps; Some (concat lss)
      end
  end.

(** The objects above, at most [h] of them. *)
Fixpoint ancestors t h (p : option nat) : option (list obj) :=
  match p, h with
  | None, _ => Some []
  | Some _, O => None
  | Some a, S h' => o ← objects t !! a; l ← ancestors t h' (parent o); Some (o :: l)
  end.

(** [n] objects linked by [next_sibling]. *)
Fixpoint siblings t n (p : option nat) : option (list obj) :=
  match n with
  | O => Some []
  | S n' => a ← p; o ← objects t !! a; l ← siblings t n' (next_sibling o); Some (o :: l)
  end.

(** The closest object above with memory, and the first NUMA node there to which
    the processing unit is local. *)
Definition has_memory (a : obj) : bool := negb (memory_arity a =? 0)%nat.

Definition local_node t (o node : obj) : bool := type_is_memory t (type node) && bool_decide (os_index node ∈ nodeset o).

Definition numa_of t h id : option Z :=
  p ← get_obj_by_type t HWLOC_OBJ_PU id;
  o ← objects t !! p;
  l ← ancestors t h (parent o);
  a ← find has_memory l;
  nodes ← siblings t (memory_arity a) (memory_first_child a);
  node ← find (local_node t o) nodes;
  Some (logical_index node).

(** The compute resource of a processing unit. *)
Definition unit_of t h id : option HwlocComputeResource.t :=
  p ← get_obj_by_type t HWLOC_OBJ_PU id;
  o ← objects t !! p;
  l ← ancestors t h (parent o);
  numa ← numa_of t h id;
  Some (HwlocComputeResource.make id (logical_index o) (os_index o) numa (omap cache_of l)).

Definition space_of t (i : nat) : option HwlocMemorySpace.t :=
  p ← get_obj_by_type t HWLOC_OBJ_NUMANODE (Z.of_nat i);
  o ← objects t !! p;
  Some (HwlocMemorySpace.make (attr_size o) (Some p) (HwlocQuery.bindingSupport t p)).

(** ** Detection *)

Lemma run_deref t p o : objects t !! p = Some o -> run (deref (Some p)) t = Done o t.
Proof. intros H. apply run_fetch. exact H. Qed.

Lemma run_each_leaf t h ps lss : forall acc,
  (forall p l acc, leaves_of t h p = Some l -> run (detectThreadPUs h p) (t, acc) = Done tt (t, acc ++ l)) ->
  mapM (leaves_of t h) ps = Some lss -> run (for_each ps (detectThreadPUs h)) (t, acc) = Done tt (t, acc ++ concat lss).
Proof.
  revert lss. induction ps as [|p ps IH]; intros lss acc Hl Hm.
  - injection Hm as <-. cbn. by rewrite app_nil_r.
  - apply bind_Some in Hm as (l & Hp & Hm). apply bind_Some in Hm as (ls & Hps & Hm). injection Hm as <-. cbn [for_each concat].
    rewrite (run_bind_Done _ _ _ _ _ (Hl p l acc Hp)), (IH ls (acc ++ l) Hl Hps). by rewrite app_assoc.
Qed.

Lemma run_detect t h : forall p l acc, leaves_of t h p = Some l -> run (detectThreadPUs h p) (t, acc) = Done tt (t, acc ++ l).
Proof.
  induction h as [|h IH]; intros p l acc Hl; [done|]. cbn in Hl. apply bind_Some in Hl as (o & Ho & Hl). cbn [detectThreadPUs].
  rewrite (run_bind_Done _ _ _ _ _ (run_on_fst_Done _ _ _ _ _ (run_deref _ _ _ Ho))). unfold arity.
  destruct (children o) as [|c cs]; [by injection Hl as <-|]. apply bind_Some in Hl as (lss & Hm & Hl). injection Hl as <-.
  erewrite run_bind_Done by reflexivity. by apply run_each_leaf.
Qed.

Lemma run_processing_unit t id p : get_obj_by_type t HWLOC_OBJ_PU id = Some p -> run (processing_unit id) t = Done p t.
Proof. intros H. unfold processing_unit. rewrite run_bind, run_gets. by rewrite H. Qed.

Lemma run_memory_ancestor t h : forall p l,
  ancestors t h p = Some l ->
  exists q, run (memory_ancestor (S h) p) t = Done q t /\ (q ≫= fun a => objects t !! a) = find has_memory l.
Proof.
  induction h as [|h IH]; intros p l Hl; (destruct p as [a|]; [|injection Hl as <-; by exists None]); [done|].
  cbn in Hl. apply bind_Some in Hl as (o & Ho & Hl). apply bind_Some in Hl as (l' & Hl' & Hl). injection Hl as <-.
  cbn [memory_ancestor]. rewrite (run_bind_Done _ _ _ _ _ (run_deref _ _ _ Ho)). cbn [find]. unfold has_memory at 1.
  destruct (memory_arity o =? 0)%nat; cbn [negb].
  - destruct (IH _ _ Hl') as (q & Eq & Hq). exists q. split; [exact Eq|exact Hq].
  - exists (Some a). by split.
Qed.

Lemma run_find_numa_node t o n : forall p nodes,
  siblings t n p = Some nodes -> run (find_numa_node o n p) t = Done (option_map logical_index (find (local_node t o) nodes)) t.
Proof.
  induction n as [|n IH]; intros p nodes Hn; [by injection Hn as <-|]. cbn in Hn. apply bind_Some in Hn as (a & -> & Hn).
  apply bind_Some in Hn as (x & Hx & Hn). apply bind_Some in Hn as (l & Hl & Hn). injection Hn as <-. cbn [find_numa_node].
  rewrite (run_bind_Done _ _ _ _ _ (run_deref _ _ _ Hx)), run_bind, run_gets. cbn [find]. unfold local_node at 1.
  destruct (type_is_memory t (type x) && bool_decide (os_index x ∈ nodeset o)); [done|]. by apply IH.
Qed.

Lemma run_affinity t h id :
  match get_obj_by_type t HWLOC_OBJ_PU id with
  | None => run (getCpuNumaAffinity (S h) id) t = Thrown runtime t
  | Some p => forall o l, objects t !! p = Some o -> ancestors t h (parent o) = Some l ->
      match find has_memory l with
      | None => run (getCpuNumaAffinity (S h) id) t = Crashed undefined t
      | Some a => forall nodes, siblings t (memory_arity a) (memory_first_child a) = Some nodes ->
          run (getCpuNumaAffinity (S h) id) t =
          match find (local_node t o) nodes with Some node => Done (logical_index node) t | None => Thrown runtime t end
      end
  end.
Proof.
  destruct (get_obj_by_type t HWLOC_OBJ_PU id) as [p|] eqn:Ep.
  - intros o l Ho Hl. destruct (run_memory_ancestor t h (parent o) l Hl) as (q & Eq & Hq). unfold getCpuNumaAffinity.
    rewrite (run_bind_Done _ _ _ _ _ (run_processing_unit _ _ _ Ep)), (run_bind_Done _ _ _ _ _ (run_deref _ _ _ Ho)).
    rewrite (run_bind_Done _ _ _ _ _ Eq). destruct (find has_memory l) as [a|].
    + intros nodes Hn. apply bind_Some in Hq as (b & -> & Hb). rewrite (run_bind_Done _ _ _ _ _ (run_deref _ _ _ Hb)).
      rewrite (run_bind_Done _ _ _ _ _ (run_find_numa_node t o _ _ _ Hn)). by destruct (find (local_node t o) nodes).
    + rewrite run_bind. unfold deref, fetch. cbn [run]. by rewrite Hq.
  - unfold getCpuNumaAffinity, processing_unit. rewrite run_bind, run_bind, run_gets. by rewrite Ep.
Qed.

(** Detection of the NUMA domain of a processing unit on every branch.  An index
    without a processing unit is refused with a runtime error; when no object above
    the unit has memory, a null pointer is dereferenced; otherwise the result is
    the first NUMA node, among the memory children of the closest object above
    that has any, to which the unit is local, or a runtime error when there is
    none.  The two copies of the code agree. *)
Theorem affinity_spec t h id :
  detectCoreNUMAffinity (S h) id = getCpuNumaAffinity (S h) id /\
  match get_obj_by_type t HWLOC_OBJ_PU id with
  | None => run (getCpuNumaAffinity (S h) id) t = Thrown runtime t
  | Some p => forall o l, objects t !! p = Some o -> ancestors t h (parent o) = Some l ->
      match find has_memory l with
      | None => run (getCpuNumaAffinity (S h) id) t = Crashed undefined t
      | Some a => forall nodes, siblings t (memory_arity a) (memory_first_child a) = Some nodes ->
          run (getCpuNumaAffinity (S h) id) t =
          match find (local_node t o) nodes with Some node => Done (logical_index node) t | None => Thrown runtime t end
      end
  end.
Proof. split; [done|]. apply run_affinity. Qed.

Lemma run_numa t h id k : numa_of t h id = Some k -> run (getCpuNumaAffinity (S h) id) t = Done k t.
Proof.
  unfold numa_of. intros H. pose proof (run_affinity t h id) as A. apply bind_Some in H as (p & Ep & H). rewrite Ep in A.
  apply bind_Some in H as (o & Ho & H). apply bind_Some in H as (l & Hl & H). specialize (A o l Ho Hl).
  apply bind_Some in H as (a & Ha & H). rewrite Ha in A. apply bind_Some in H as (nodes & Hn & H). specialize (A nodes Hn).
  apply bind_Some in H as (node & Hnode & H). rewrite Hnode in A. injection H as <-. exact A.
Qed.

Lemma run_collect_caches t h : forall p l ret,
  ancestors t h p = Some l -> run (collect_caches (S h) p ret) t = Done (ret ++ omap cache_of l) t.
Proof.
  induction h as [|h IH]; intros p l ret Hl; (destruct p as [a|]; [|injection Hl as <-; cbn; by rewrite app_nil_r]); [done|].
  cbn in Hl. apply bind_Some in Hl as (o & Ho & Hl). apply bind_Some in Hl as (l' & Hl' & Hl). injection Hl as <-.
  cbn [collect_caches]. rewrite (run_bind_Done _ _ _ _ _ (run_deref _ _ _ Ho)).
  change (omap cache_of (o :: l')) with (match cache_of o with Some x => x :: omap cache_of l' | None => omap cache_of l' end).
  destruct (cache_of o) as [x|].
  - pose proof (IH _ _ (ret ++ [x]) Hl') as E. rewrite <- app_assoc in E. exact E.
  - by apply IH.
Qed.

Lemma run_make t h id u : unit_of t h id = Some u -> run (HwlocDetect.make (S h) id) t = Done u t.
Proof.
  unfold unit_of. intros H. apply bind_Some in H as (p & Ep & H). apply bind_Some in H as (o & Ho & H).
  apply bind_Some in H as (l & Hl & H). apply bind_Some in H as (k & Hk & H). injection H as <-.
  assert (E1 : run (detectLogicalProcessorId id) t = Done (logical_index o) t).
  { unfold detectLogicalProcessorId. by rewrite (run_bind_Done _ _ _ _ _ (run_processing_unit _ _ _ Ep)), (run_bind_Done _ _ _ _ _ (run_deref _ _ _ Ho)). }
  assert (E2 : run (detectPhysicalProcessorId id) t = Done (os_index o) t).
  { unfold detectPhysicalProcessorId. by rewrite (run_bind_Done _ _ _ _ _ (run_processing_unit _ _ _ Ep)), (run_bind_Done _ _ _ _ _ (run_deref _ _ _ Ho)). }
  assert (E3 : run (detectCpuCaches (S h) id) t = Done (omap cache_of l) t).
  { unfold detectCpuCaches. rewrite (run_bind_Done _ _ _ _ _ (run_processing_unit _ _ _ Ep)), (run_bind_Done _ _ _ _ _ (run_deref _ _ _ Ho)).
    by apply (run_collect_caches t h _ l []). }
  unfold HwlocDetect.make. rewrite (run_bind_Done _ _ _ _ _ E1), (run_bind_Done _ _ _ _ _ E2).
  rewrite (run_bind_Done _ _ _ _ _ (run_numa _ _ _ _ Hk)), (run_bind_Done _ _ _ _ _ E3). done.
Qed.

(** ** Queries *)

Import HwlocQuery.

Definition in_domain (i : nat) (u : HwlocComputeResource.t) : Prop := HwlocComputeResource._numaAffinity u = Z.of_nat i.

#[global] Instance in_domain_dec i u : Decision (in_domain i u).
Proof. unfold in_domain. apply _. Defined.

Lemma unit_numa t h id u : unit_of t h id = Some u -> numa_of t h id = Some (HwlocComputeResource._numaAffinity u).
Proof.
  unfold unit_of. intros H. do 3 apply bind_Some in H as (? & _ & H). apply bind_Some in H as (k & Hk & H). injection H as <-. exact Hk.
Qed.

Lemma run_select t h i ids : forall us,
  mapM (unit_of t h) ids = Some us -> run (select_units (S h) (Z.of_nat i) ids) t = Done (filter (in_domain i) us) t.
Proof.
  induction ids as [|id ids IH]; intros us Hm; [by injection Hm as <-|].
  apply bind_Some in Hm as (u & Hu & Hm). apply bind_Some in Hm as (us' & Hus & Hm). injection Hm as <-. cbn [select_units].
  rewrite (run_bind_Done _ _ _ _ _ (run_numa _ _ _ _ (unit_numa _ _ _ _ Hu))). rewrite filter_cons. unfold in_domain at 1 2.
  destruct (Z.eqb_spec (HwlocComputeResource._numaAffinity u) (Z.of_nat i)) as [E|E].
  - rewrite decide_True by done. by rewrite (run_bind_Done _ _ _ _ _ (run_make _ _ _ _ Hu)), (run_bind_Done _ _ _ _ _ (IH _ Hus)).
  - rewrite decide_False by done. by apply IH.
Qed.

Lemma run_threadPUs t h ids : leaves_of t h (root t) = Some ids -> run (threadPUs h) t = Done ids t.
Proof.
  intros Hl. unfold threadPUs. rewrite run_bind, run_gets, run_with_local.
  by rewrite (run_bind_Done _ _ _ _ _ (run_detect t h _ _ [] Hl)).
Qed.

(** The device of a domain. *)
Definition device_of (us : list HwlocComputeResource.t) (i : nat) (s : HwlocMemorySpace.t) : Device.t :=
  HwlocDevice.make (Z.of_nat i) (map HwlocComputeResource.base (filter (in_domain i) us)) [HwlocMemorySpace.base s].

Lemma run_queryDevice t h i ids us s :
  leaves_of t (S h) (root t) = Some ids -> mapM (unit_of t h) ids = Some us -> space_of t i = Some s ->
  run (queryDevice (S h) i) t = Done (device_of us i s) t.
Proof.
  intros Hl Hm Hs. unfold queryDevice, queryComputeResources. rewrite run_bind_assoc.
  rewrite (run_bind_Done _ _ _ _ _ (run_threadPUs _ _ _ Hl)), (run_bind_Done _ _ _ _ _ (run_select _ _ _ _ _ Hm)).
  unfold space_of in Hs. apply bind_Some in Hs as (p & Ep & Hs). apply bind_Some in Hs as (o & Ho & Hs). injection Hs as <-.
  assert (E : run (queryMemorySpaces (Z.of_nat i)) t =
    Done [HwlocMemorySpace.make (attr_size o) (Some p) (bindingSupport t p)] t).
  { unfold queryMemorySpaces. rewrite run_bind, run_gets, Ep. by rewrite (run_bind_Done _ _ _ _ _ (run_deref _ _ _ Ho)). }
  by rewrite (run_bind_Done _ _ _ _ _ E).
Qed.

(** Sorting by domain loses nothing. *)
Lemma by_domain us n :
  Forall (fun u => 0 <= HwlocComputeResource._numaAffinity u < Z.of_nat n) us ->
  concat (map (fun i => filter (in_domain i) us) (seq 0 n)) ≡ₚ us.
Proof.
  intros HF. induction HF as [|u us Hu _ IH].
  - clear. induction (seq 0 n); [done|]. cbn. done.
  - set (k := Z.to_nat (HwlocComputeResource._numaAffinity u)).
    assert (Hs : seq 0 n = seq 0 k ++ k :: seq (S k) (n - S k)).
    { replace n with (k + S (n - S k))%nat at 1 by lia. by rewrite seq_app. }
    assert (Hne : forall a m, (forall i, i ∈ seq a m -> i <> k) ->
      map (fun i => filter (in_domain i) (u :: us)) (seq a m) = map (fun i => filter (in_domain i) us) (seq a m)).
    { intros a m H. apply map_ext_in. intros i Hi. rewrite filter_cons, decide_False; [done|]. unfold in_domain.
      specialize (H i (proj2 (list_elem_of_In _ _) Hi)). lia. }
    rewrite Hs, !map_app, !concat_app in IH |- *. cbn [map concat] in IH |- *.
    rewrite !Hne by (intros i Hi; apply elem_of_seq in Hi; lia). rewrite filter_cons, decide_True by (unfold in_domain; lia).
    cbn [app]. rewrite <- Permutation_middle. by f_equiv.
Qed.

Lemma run_queryTopology t h ids us spaces :
  leaves_of t (S h) (root t) = Some ids -> mapM (unit_of t h) ids = Some us ->
  mapM (space_of t) (seq 0 (get_nbobjs_by_type t HWLOC_OBJ_NUMANODE)) = Some spaces ->
  Forall (fun u => 0 <= HwlocComputeResource._numaAffinity u < Z.of_nat (get_nbobjs_by_type t HWLOC_OBJ_NUMANODE)) us ->
  exists devices, run (queryTopology (S h)) t = Done (Topology.mk (Topology._metadata Topology.empty) devices) t /\
    Forall2 (fun i d => exists s, spaces !! i = Some s /\ d = device_of us i s) (seq 0 (get_nbobjs_by_type t HWLOC_OBJ_NUMANODE)) devices /\
    concat (map (fun i => filter (in_domain i) us) (seq 0 (get_nbobjs_by_type t HWLOC_OBJ_NUMANODE))) ≡ₚ us.
Proof.
  intros Hl Hm Hsp Hr. set (n := get_nbobjs_by_type t HWLOC_OBJ_NUMANODE) in *. unfold queryTopology. rewrite run_bind, run_gets, run_with_local. fold n.
  destruct (run_for_each_inv (fun pre st => exists ds, st = (t, Topology.mk (Topology._metadata Topology.empty) ds) /\
      Forall2 (fun i d => exists s, spaces !! i = Some s /\ d = device_of us i s) pre ds)
    (fun i => d ← on_fst (queryDevice (S h) i); zoom (fun st => Some st.2) (fun x st => (st.1, x)) (Topology.addDevice d))
    (seq 0 n) [] (t, Topology.empty)) as (st & E & ds & -> & HF).
  - by exists [].
  - intros pre i st (post & Ep) (ds & -> & HF). cbn [app] in Ep.
    assert (Hi : seq 0 n !! length pre = Some i) by (rewrite Ep; by apply list_lookup_middle). apply lookup_seq in Hi as [-> Hlt].
    apply mapM_Some in Hsp. destruct (Forall2_lookup_l _ _ _ (length pre) (length pre) Hsp) as (s & Hs & Hsp'); [by apply lookup_seq|].
    eexists. split; [erewrite run_bind_Done; [reflexivity|apply run_on_fst_Done; by eapply run_queryDevice]|].
    eexists. split; [reflexivity|]. apply Forall2_app; [done|]. constructor; [|constructor]. by exists s.
  - exists ds. rewrite (run_bind_Done _ _ _ _ _ E). split_and!; [done|done|]. by apply by_domain.
Qed.

(** C32: [queryTopology] returns a topology with one device for every NUMA node.  The
    device of node [i] has the memory of the node and the processing units local to
    it, in the order of the tree, each with its caches; every processing unit is in
    exactly one device. *)
Theorem query_topology t h ids us spaces :
  leaves_of t (S h) (root t) = Some ids -> mapM (unit_of t h) ids = Some us ->
  mapM (space_of t) (seq 0 (get_nbobjs_by_type t HWLOC_OBJ_NUMANODE)) = Some spaces ->
  Forall (fun u => 0 <= HwlocComputeResource._numaAffinity u < Z.of_nat (get_nbobjs_by_type t HWLOC_OBJ_NUMANODE)) us ->
  exists devices, run (queryTopology (S h)) t = Done (Topology.mk (Topology._metadata Topology.empty) devices) t /\
    Forall2 (fun i d => exists s, spaces !! i = Some s /\ d = device_of us i s) (seq 0 (get_nbobjs_by_type t HWLOC_OBJ_NUMANODE)) devices /\
    concat (map (fun i => filter (in_domain i) us) (seq 0 (get_nbobjs_by_type t HWLOC_OBJ_NUMANODE))) ≡ₚ us.
Proof. apply run_queryTopology. Qed.

(** What a discovered device is: a NUMA domain with one memory space and any number
    of processing units. *)
Definition numa_device (d : Device.t) : Prop :=
  Device._type d = "NUMA Domain"%string /\
  Forall (fun c => ComputeResource._type c = "Processing Unit"%string) (Device._computeResources d) /\
  exists m, Device._memorySpaces d = [m] /\ MemorySpace._type m = "RAM"%string.

Lemma filter_units t h i ids us : mapM (unit_of t h) ids = Some us ->
  Forall (fun c => ComputeResource._type c = "Processing Unit"%string) (map HwlocComputeResource.base (filter (in_domain i) us)).
Proof.
  intros Hm. apply Forall_fmap, Forall_forall. intros u Hu. apply list_elem_of_filter in Hu as [_ Hu]. apply mapM_Some in Hm.
  apply list_elem_of_lookup in Hu as (k & Hk). destruct (Forall2_lookup_r _ _ _ _ _ Hm Hk) as (id & _ & Eu). unfold unit_of in Eu.
  do 4 (apply bind_Some in Eu as (? & _ & Eu)). by injection Eu as <-.
Qed.

(** C33: the topology that [queryTopology] returns is well formed: its devices are NUMA
    domains with one memory space and processing units only, and it is serialized
    without error to a value that [verify] accepts. *)
Theorem query_well_formed t h ids us spaces (x : Topology.t) :
  leaves_of t (S h) (root t) = Some ids -> mapM (unit_of t h) ids = Some us ->
  mapM (space_of t) (seq 0 (get_nbobjs_by_type t HWLOC_OBJ_NUMANODE)) = Some spaces ->
  Forall (fun u => 0 <= HwlocComputeResource._numaAffinity u < Z.of_nat (get_nbobjs_by_type t HWLOC_OBJ_NUMANODE)) us ->
  exists tp j, run (queryTopology (S h)) t = Done tp t /\ Forall numa_device (Topology._deviceList tp) /\
    Topology.serialize tp = Some j /\ run (Topology.verify j) x = Done tt x.
Proof.
  intros Hl Hm Hsp Hr. destruct (run_queryTopology t h ids us spaces Hl Hm Hsp Hr) as (ds & E & HF & _).
  assert (Hd : forall d, d ∈ ds -> exists i s, s ∈ spaces /\ d = device_of us i s).
  { intros d Hin. apply list_elem_of_lookup in Hin as (k & Hk). destruct (Forall2_lookup_r _ _ _ _ _ HF Hk) as (i & _ & s & Hs & ->).
    exists i, s. split; [by eapply list_elem_of_lookup_2|done]. }
  destruct (serialize_topology (Topology.mk (Topology._metadata Topology.empty) ds) x) as (j & Ej & Ev & _).
  { apply Forall_forall. intros d Hin. destruct (Hd d Hin) as (i & s & _ & ->).
    exact (hwloc_device_adds (mkDomain (Z.of_nat i) (filter (in_domain i) us) [s])). }
  eexists _, j. split_and!; [exact E| |exact Ej|exact Ev].
  apply Forall_forall. intros d Hin. destruct (Hd d Hin) as (i & s & Hs & ->). split_and!; [done|by eapply filter_units|].
  eexists. split; [reflexivity|]. apply mapM_Some in Hsp. apply list_elem_of_lookup in Hs as (k & Hk).
  destruct (Forall2_lookup_r _ _ _ _ _ Hsp Hk) as (i' & _ & Es). unfold space_of in Es.
  do 2 (apply bind_Some in Es as (? & _ & Es)). by injection Es as <-.
Qed.

End Reference.

(** ** A machine with two packages

    The root is object 0; the packages 1 and 2 have the NUMA nodes 3 and 4; under
    the first are an L3 cache, object 5, and the units 7 and 8, under the second
    the unit 9. *)

Module HwlocDemo.
Import Hwloc.

Definition obj_of (ty : obj_type) (logical os : Z) (kids : list nat) (up : option nat) (memory : option nat) (nodes : list Z) (size : Z) : obj :=
  mkObj ty logical os kids up (match memory with Some _ => 1%nat | None => 0%nat end) memory None nodes HWLOC_OBJ_CACHE_UNIFIED size 64.

Definition objs : gmap nat obj := list_to_map [
  (0%nat, obj_of (HWLOC_OBJ_OTHER 0) 0 0 [1; 2]%nat None None [0; 1] 0);
  (1%nat, obj_of (HWLOC_OBJ_OTHER 1) 0 0 [5]%nat (Some 0%nat) (Some 3%nat) [0] 0);
  (2%nat, obj_of (HWLOC_OBJ_OTHER 1) 1 1 [9]%nat (Some 0%nat) (Some 4%nat) [1] 0);
  (3%nat, obj_of HWLOC_OBJ_NUMANODE 0 0 [] (Some 1%nat) None [0] 4096);
  (4%nat, obj_of HWLOC_OBJ_NUMANODE 1 1 [] (Some 2%nat) None [1] 8192);
  (5%nat, obj_of HWLOC_OBJ_L3CACHE 0 0 [7; 8]%nat (Some 1%nat) None [0] 512);
  (7%nat, obj_of HWLOC_OBJ_PU 0 0 [] (Some 5%nat) None [0] 0);
  (8%nat, obj_of HWLOC_OBJ_PU 1 2 [] (Some 5%nat) None [0] 0);
  (9%nat, obj_of HWLOC_OBJ_PU 2 1 [] (Some 2%nat) None [1] 0)].

Definition by_type (ty : obj_type) (i : Z) : option nat :=
  match ty with
  | HWLOC_OBJ_PU => [7; 8; 9]%nat !! Z.to_nat i
  | HWLOC_OBJ_NUMANODE => [3; 4]%nat !! Z.to_nat i
  | _ => None
  end.

Definition machine : topology :=
  mkTopology objs 0 by_type (fun ty => match ty with HWLOC_OBJ_PU => 3 | HWLOC_OBJ_NUMANODE => 2 | _ => 0 end%nat)
    (fun ty => match ty with HWLOC_OBJ_NUMANODE => true | _ => false end) (fun p => (p =? 3)%nat) (fun _ => true).

Definition l3 : HwlocCache.t := HwlocCache.mk HwlocCache.L3 "Unified" 512 64 true.

Definition units : list HwlocComputeResource.t :=
  [HwlocComputeResource.make 0 0 0 0 [l3]; HwlocComputeResource.make 1 1 2 0 [l3]; HwlocComputeResource.make 2 2 1 1 []].

Definition spaces : list HwlocMemorySpace.t :=
  [HwlocMemorySpace.make 4096 (Some 3%nat) HwlocMemoryManager.strict_binding;
   HwlocMemorySpace.make 8192 (Some 4%nat) HwlocMemoryManager.strict_non_binding].

Lemma query_topology_witness :
  exists devices, run (HwlocQuery.queryTopology 5) machine = Done (Topology.mk (Topology._metadata Topology.empty) devices) machine /\
    Forall2 (fun i d => exists s, spaces !! i = Some s /\ d = device_of units i s) [0; 1]%nat devices /\
    concat (map (fun i => filter (in_domain i) units) [0; 1]%nat) ≡ₚ units.
Proof.
  apply (query_topology machine 4 [0; 1; 2] units spaces); [by vm_compute..|]. repeat constructor; cbn; lia.
Defined.

Lemma query_well_formed_witness :
  exists tp j, run (HwlocQuery.queryTopology 5) machine = Done tp machine /\ Forall numa_device (Topology._deviceList tp) /\
    Topology.serialize tp = Some j /\ run (Topology.verify j) Topology.empty = Done tt Topology.empty.
Proof.
  apply (query_well_formed machine 4 [0; 1; 2] units spaces Topology.empty); [by vm_compute..|]. repeat constructor; cbn; lia.
Defined.

(** Without the memory children of the packages, the search runs past the root. *)
Definition no_memory : topology :=
  mkTopology {[7%nat := obj_of HWLOC_OBJ_PU 0 0 [] None None [0] 0]} 7 by_type (fun _ => 1%nat) (fun _ => false) (fun _ => false) (fun _ => false).

Lemma affinity_spec_witness :
  run (HwlocDetect.getCpuNumaAffinity 5 2) machine = Done 1 machine /\
  run (HwlocDetect.getCpuNumaAffinity 5 0) no_memory = Crashed undefined no_memory.
Proof.
  split.
  - exact (proj2 (affinity_spec machine 4 2) _ _ eq_refl eq_refl _ eq_refl).
  - exact (proj2 (affinity_spec no_memory 4 0) _ _ eq_refl eq_refl).
Defined.

End HwlocDemo.
