(* ===== verification/ObjectStore.v ===== *)
(** * The object store

    Models [frontends/objectStore/dataObject.hpp] and
    [frontends/objectStore/objectStore.hpp]: blocks of memory that their owner
    publishes and that other workers fetch with the help of a handle.

    Data objects are shared (the code passes [std::shared_ptr]s and references),
    so a world keeps them in a store of their own, next to the map
    [_globalObjects] of every object store.  The optional operations of a
    communication manager that the object store needs are the class
    [PromotionBackend].  Only the LPF backend has all of them: the transfer of an
    object between two processes is a theorem of [LpfMemory.v]. *)

From S2P Require Import Prelude Memory CommunicationManager Pthreads HwlocTopology MemoryManager.
From Stdlib Require Import ZArith Lia.
From stdpp Require Import base list gmap option.

Local Open Scope Z_scope.
Local Open Scope hicr_scope.

(** ** Promotion and serialization of slots

    The first argument is the manager ([this]). *)
Class PromotionBackend (X : Type) : Type := {
  serializeGlobalMemorySlot : nat -> option nat -> prog (Machine X) (list byte);
  deserializeGlobalMemorySlot : nat -> list byte -> Z -> prog (Machine X) nat;
  promoteLocalMemorySlot : nat -> option nat -> Z -> prog (Machine X) nat;
  destroyPromotedGlobalMemorySlot : nat -> nat -> prog (Machine X) unit
}.

(** The pthreads backend promotes slots but inherits the two functions that
    refuse to serialize them. *)
#[global] Instance pthreads_promotion : PromotionBackend Core.t := {
  serializeGlobalMemorySlot := CommunicationManager.serializeGlobalMemorySlot;
  deserializeGlobalMemorySlot := CommunicationManager.deserializeGlobalMemorySlot;
  promoteLocalMemorySlot := PthreadsCommunicationManager.promoteLocalMemorySlot;
  destroyPromotedGlobalMemorySlot := PthreadsCommunicationManager.destroyPromotedGlobalMemorySlot
}.

(** ** Data objects and handles *)

Module DataObject.

Record t : Type := mk {
  _instanceId : Z;
  _id : Z;
  _size : Z;
  _localSlot : option nat;
  _globalSlot : option nat
}.

(** The constructor: the size is that of the slot, if there is one. *)
Definition make {X : Type} (instanceId id : Z) (localSlot : option nat) : prog (Machine X) t :=
  size ← (match localSlot with Some l => getSize l | None => mret 0 end);
  mret (mk instanceId id size localSlot None).

Definition getInstanceId (d : t) : Z := _instanceId d.

Definition getId (d : t) : Z := _id d.

(** A reference to [*_localSlot]; there is none when the pointer is null. *)
Definition getLocalSlot {S : Type} (d : t) : prog S nat :=
  match _localSlot d with Some l => mret l | None => Crash undefined end.

Definition set_localSlot (l : nat) (d : t) : t := mk (_instanceId d) (_id d) (_size d) (Some l) (_globalSlot d).

Definition set_globalSlot (g : nat) (d : t) : t := mk (_instanceId d) (_id d) (_size d) (_localSlot d) (Some g).

Definition set_size (n : Z) (d : t) : t := mk (_instanceId d) (_id d) n (_localSlot d) (_globalSlot d).

End DataObject.

(** [handle]. *)
Module Handle.

(** [28 + sizeof(size_t)]. *)
Definition SLOT_BYTES : nat := 36.

Record t : Type := mk {
  instanceId : Z;
  id : Z;
  size : Z;
  serializedGlobalSlot : list byte
}.

End Handle.

(** ** The object store *)

Module ObjectStore.

Definition OBJECT_STORE_KEY_INSTANCE_ID_BITS : Z := 32.

(** The members that do not change; [self] names the map [_globalObjects] of
    this store. *)
Record t : Type := mk {
  _communicationManager : nat;
  _tag : Z;
  _memorySpace : space_ref;
  _instanceId : Z;
  self : nat
}.

Definition getMemorySpace (s : t) : space_ref := _memorySpace s.

(** All data objects, and the map [_globalObjects] of every store. *)
Record world : Type := mkWorld {
  objects : gmap nat DataObject.t;
  _globalObjects : gmap nat (gmap Z nat)
}.

(** [instanceId << OBJECT_STORE_KEY_INSTANCE_ID_BITS | id], in 64 bits. *)
Definition compoundId (d : DataObject.t) : Z :=
  Z.lor (wrap64 (Z.shiftl (DataObject._instanceId d) OBJECT_STORE_KEY_INSTANCE_ID_BITS)) (DataObject._id d).

Section Operations.
Context {X Y : Type} {B : CommBackend X} {P : PromotionBackend X} {M : MemoryBackend X Y}.

Definition State : Type := (Machine X * Y) * world.

Definition on_machine {A : Type} (p : prog (Machine X) A) : prog State A := on_fst (on_fst p).

Definition on_memory {A : Type} (p : prog (Machine X * Y) A) : prog State A := on_fst p.

(** Access to a data object, and [std::make_shared<DataObject>]. *)
Definition object (o : nat) : prog State DataObject.t := fetch (fun st => objects st.2 !! o).

Definition set_object (f : DataObject.t -> DataObject.t) (o : nat) : prog State unit :=
  update (fun st => d ← objects st.2 !! o; Some (st.1, mkWorld (<[o := f d]> (objects st.2)) (_globalObjects st.2))).

Definition new_object (d : DataObject.t) : prog State nat :=
  Step (fun st => (st.1, mkWorld (<[fresh (dom (objects st.2)) := d]> (objects st.2)) (_globalObjects st.2)))
       (fun st => Ret (fresh (dom (objects st.2)))).

(** A change of the map of a store. *)
Definition set_entries (s : t) (f : gmap Z nat -> gmap Z nat) : prog State unit :=
  set_this (fun w => mkWorld (objects w) (<[self s := f (default ∅ (_globalObjects w !! self s))]> (_globalObjects w))).

Definition createObject_slot (s : t) (slot : nat) (id : Z) : prog State nat :=
  d ← on_machine (DataObject.make (_instanceId s) id (Some slot));
  new_object d.

Definition createObject (s : t) (p : ptr) (size id : Z) : prog State nat :=
  slot ← on_memory (MemoryManager.registerLocalMemorySlot (_memorySpace s) p size);
  createObject_slot s slot id.

(** [insert] keeps an entry that is there already. *)
Definition publish (s : t) (dataObject : nat) : prog State unit :=
  d ← object dataObject;
  match DataObject._globalSlot d with
  | Some g =>
      _ ← on_machine (destroyPromotedGlobalMemorySlot (_communicationManager s) g);
      Raise logic
  | None =>
      globalSlot ← on_machine (promoteLocalMemorySlot (_communicationManager s) (DataObject._localSlot d) (_tag s));
      _ ← set_object (DataObject.set_globalSlot globalSlot) dataObject;
      set_entries s (fun es => match es !! compoundId d with Some _ => es | None => <[compoundId d := dataObject]> es end)
  end.

(** The store keeps a copy of the object, made before its local slot is set. *)
Definition get (s : t) (dataObject : nat) : prog State nat :=
  d ← object dataObject;
  copy ← new_object d;
  _ ← set_entries s (<[compoundId d := copy]>);
  l ← (match DataObject._localSlot d with
       | Some l => mret l
       | None =>
           newSlot ← on_memory (MemoryManager.allocateLocalMemorySlot (_memorySpace s) (DataObject._size d));
           _ ← set_object (DataObject.set_localSlot newSlot) dataObject;
           mret newSlot
       end);
  match DataObject._globalSlot d with
  | None => Raise logic
  | Some g =>
      _ ← on_machine (CommunicationManager.memcpyLG (_communicationManager s) l 0 g 0 (DataObject._size d));
      mret l
  end.

Definition destroy (s : t) (dataObject : nat) : prog State unit :=
  d ← object dataObject;
  _ ← (if negb (DataObject._instanceId d =? _instanceId s)
       then match DataObject._localSlot d with Some l => on_memory (MemoryManager.freeLocalMemorySlot l) | None => mret tt end
       else mret tt);
  _ ← (match DataObject._globalSlot d with
       | Some g => on_machine (destroyPromotedGlobalMemorySlot (_communicationManager s) g)
       | None => mret tt
       end);
  set_entries s (delete (compoundId d)).

(** [std::memcpy] of [sizeof(serializedGlobalSlot)] bytes out of the buffer of the
    backend; a shorter buffer is read out of bounds. *)
Definition serialize (s : t) (dataObject : nat) : prog State Handle.t :=
  d ← object dataObject;
  serialized ← on_machine (serializeGlobalMemorySlot (_communicationManager s) (DataObject._globalSlot d));
  if (Handle.SLOT_BYTES <=? length serialized)%nat
  then mret (Handle.mk (DataObject._instanceId d) (DataObject._id d) (DataObject._size d) (take Handle.SLOT_BYTES serialized))
  else Crash undefined.

Definition deserialize (s : t) (h : Handle.t) : prog State nat :=
  d ← on_machine (DataObject.make (Handle.instanceId h) (Handle.id h) None);
  dataObject ← new_object d;
  _ ← set_object (DataObject.set_size (Handle.size h)) dataObject;
  g ← on_machine (deserializeGlobalMemorySlot (_communicationManager s) (Handle.serializedGlobalSlot h) (_tag s));
  _ ← set_object (DataObject.set_globalSlot g) dataObject;
  mret dataObject.

Definition fence (s : t) : prog State bool :=
  _ ← on_machine (CommunicationManager.fence (_communicationManager s) (_tag s));
  mret true.

(** The fence of a slot is only defined for a slot that is there. *)
Definition fence_object (s : t) (dataObject : nat) : prog State bool :=
  d ← object dataObject;
  l ← DataObject.getLocalSlot d;
  _ ← on_machine (CommunicationManager.fenceLocal (_communicationManager s) l 0 1);
  mret true.

End Operations.
End ObjectStore.

(** ** What the operations do, given what the backends do *)

Section Spec.
Context {X Y : Type} {B : CommBackend X} {P : PromotionBackend X} {M : MemoryBackend X Y}.
Import ObjectStore.
Implicit Types (m : Machine X) (y : Y) (w : world) (s : ObjectStore.t) (d : DataObject.t).

Lemma run_on_machine {A : Type} (p : prog (Machine X) A) m m' y w (a : A) :
  run p m = Done a m' -> run (on_machine p) ((m, y), w) = Done a ((m', y), w).
Proof. intros E. by do 2 apply run_on_fst_Done. Qed.

Lemma run_on_memory {A : Type} (p : prog (Machine X * Y) A) m m' y y' w (a : A) :
  run p (m, y) = Done a (m', y') -> run (on_memory p) ((m, y), w) = Done a ((m', y'), w).
Proof. apply run_on_fst_Done. Qed.

Lemma run_object m y w o d : objects w !! o = Some d -> run (object o) ((m, y), w) = Done d ((m, y), w).
Proof. intros E. by apply run_fetch. Qed.

Lemma run_set_object f m y w o d :
  objects w !! o = Some d ->
  run (set_object f o) ((m, y), w) = Done tt ((m, y), mkWorld (<[o := f d]> (objects w)) (_globalObjects w)).
Proof. intros E. apply run_update. cbn. by rewrite E. Qed.

(** The world with one more object. *)
Definition add_object d w : world := mkWorld (<[fresh (dom (objects w)) := d]> (objects w)) (_globalObjects w).

Lemma run_new_object d m y w :
  run (new_object d) ((m, y), w) = Done (fresh (dom (objects w))) ((m, y), add_object d w).
Proof. done. Qed.

Lemma run_set_entries s f m y w :
  run (set_entries s f) ((m, y), w) =
  Done tt ((m, y), mkWorld (objects w) (<[self s := f (default ∅ (_globalObjects w !! self s))]> (_globalObjects w))).
Proof. done. Qed.

Lemma run_createObject_slot s slot id m y w p size :
  slot_at m slot p size ->
  run (createObject_slot s slot id) ((m, y), w) =
  Done (fresh (dom (objects w))) ((m, y), add_object (DataObject.mk (_instanceId s) id size (Some slot) None) w).
Proof.
  intros Hs. unfold createObject_slot. erewrite run_bind_Done; [apply run_new_object|].
  apply run_on_machine. unfold DataObject.make. by rewrite (run_bind_Done _ _ _ _ _ (run_getSize _ _ _ _ Hs)).
Qed.

(** The world after the object [o] has been published with the slot [g]. *)
Definition published_world s (o : nat) d (g : nat) w : world :=
  let es := default ∅ (_globalObjects w !! self s) in
  mkWorld (<[o := DataObject.set_globalSlot g d]> (objects w))
    (<[self s := match es !! compoundId d with Some _ => es | None => <[compoundId d := o]> es end]> (_globalObjects w)).

Lemma run_publish_new s o d g m m' y w :
  objects w !! o = Some d -> DataObject._globalSlot d = None ->
  run (promoteLocalMemorySlot (_communicationManager s) (DataObject._localSlot d) (_tag s)) m = Done g m' ->
  run (publish s o) ((m, y), w) = Done tt ((m', y), published_world s o d g w).
Proof.
  intros Ho Hg E. unfold publish. rewrite (run_bind_Done _ _ _ _ _ (run_object _ _ _ _ _ Ho)), Hg.
  rewrite (run_bind_Done _ _ _ _ _ (run_on_machine _ _ _ _ _ _ E)), (run_bind_Done _ _ _ _ _ (run_set_object _ _ _ _ _ _ Ho)). done.
Qed.

Lemma run_serialize s o d bs m m' y w :
  objects w !! o = Some d -> length bs = Handle.SLOT_BYTES ->
  run (serializeGlobalMemorySlot (_communicationManager s) (DataObject._globalSlot d)) m = Done bs m' ->
  run (serialize s o) ((m, y), w) =
  Done (Handle.mk (DataObject._instanceId d) (DataObject._id d) (DataObject._size d) bs) ((m', y), w).
Proof.
  intros Ho HL E. unfold serialize. rewrite (run_bind_Done _ _ _ _ _ (run_object _ _ _ _ _ Ho)).
  rewrite (run_bind_Done _ _ _ _ _ (run_on_machine _ _ _ _ _ _ E)), HL, Nat.leb_refl, take_ge by lia. done.
Qed.

Lemma run_deserialize s h g m m' y w :
  run (deserializeGlobalMemorySlot (_communicationManager s) (Handle.serializedGlobalSlot h) (_tag s)) m = Done g m' ->
  run (deserialize s h) ((m, y), w) =
  Done (fresh (dom (objects w)))
    ((m', y), add_object (DataObject.mk (Handle.instanceId h) (Handle.id h) (Handle.size h) None (Some g)) w).
Proof.
  intros E. unfold deserialize.
  rewrite (run_bind_Done _ _ _ _ _ (run_on_machine (DataObject.make (Handle.instanceId h) (Handle.id h) None) m m y w _ eq_refl)).
  rewrite (run_bind_Done _ _ _ _ _ (run_new_object _ _ _ _)).
  erewrite run_bind_Done; [|apply run_set_object, lookup_insert_eq].
  rewrite (run_bind_Done _ _ _ _ _ (run_on_machine _ _ _ _ _ _ E)).
  erewrite run_bind_Done; [|apply run_set_object, lookup_insert_eq]. unfold add_object. cbn. by rewrite !insert_insert_eq.
Qed.

(** The world after [get] has stored a copy and recorded the new slot. *)
Definition fetched s (o l : nat) d w : world :=
  mkWorld (<[o := DataObject.set_localSlot l d]> (<[fresh (dom (objects w)) := d]> (objects w)))
    (<[self s := <[compoundId d := fresh (dom (objects w))]> (default ∅ (_globalObjects w !! self s))]> (_globalObjects w)).

Lemma fetched_object s o l d w : objects (fetched s o l d w) !! o = Some (DataObject.set_localSlot l d).
Proof. apply lookup_insert_eq. Qed.

Lemma fetched_other s o o' l d d' w :
  o' <> o -> objects w !! o' = Some d' -> objects (fetched s o l d w) !! o' = Some d'.
Proof.
  intros Hne E. cbn. rewrite !lookup_insert_ne; [done| |done]. intros <-.
  apply elem_of_dom_2 in E. by apply (is_fresh (dom (objects w))).
Qed.

(** The first [get] of an object: a slot is allocated and the copy is started. *)
Lemma run_get_new s o d g m y w l m1 y1 m2 :
  objects w !! o = Some d -> DataObject._localSlot d = None -> DataObject._globalSlot d = Some g ->
  run (MemoryManager.allocateLocalMemorySlot (_memorySpace s) (DataObject._size d)) (m, y) = Done l (m1, y1) ->
  run (CommunicationManager.memcpyLG (_communicationManager s) l 0 g 0 (DataObject._size d)) m1 = Done tt m2 ->
  run (get s o) ((m, y), w) = Done l ((m2, y1), fetched s o l d w).
Proof.
  intros Ho Hl Hg E E'. unfold get.
  rewrite (run_bind_Done _ _ _ _ _ (run_object _ _ _ _ _ Ho)), (run_bind_Done _ _ _ _ _ (run_new_object _ _ _ _)).
  rewrite (run_bind_Done _ _ _ _ _ (run_set_entries _ _ _ _ _)), Hl, Hg.
  assert (Hfr : fresh (dom (objects w)) <> o). { intros Hf. apply elem_of_dom_2 in Ho. rewrite <- Hf in Ho. by apply (is_fresh (dom (objects w))). }
  rewrite run_bind_assoc, (run_bind_Done _ _ _ _ _ (run_on_memory _ _ _ _ _ _ _ E)).
  rewrite run_bind_assoc. erewrite run_bind_Done; [|apply run_set_object; cbn; by rewrite lookup_insert_ne].
  rewrite run_bind, run_ret. by rewrite (run_bind_Done _ _ _ _ _ (run_on_machine _ _ _ _ _ _ E')).
Qed.

Lemma run_fence_object s o d l m m' y w :
  objects w !! o = Some d -> DataObject._localSlot d = Some l ->
  run (CommunicationManager.fenceLocal (_communicationManager s) l 0 1) m = Done tt m' ->
  run (fence_object s o) ((m, y), w) = Done true ((m', y), w).
Proof.
  intros Ho Hl E. unfold fence_object, DataObject.getLocalSlot. rewrite (run_bind_Done _ _ _ _ _ (run_object _ _ _ _ _ Ho)), Hl.
  rewrite run_bind, run_ret. by rewrite (run_bind_Done _ _ _ _ _ (run_on_machine _ _ _ y w tt E)).
Qed.

(** The object is destroyed by an instance that does not own the block and has
    fetched it. *)
Lemma run_destroy_fetched s o d l g m y w m1 y1 m2 :
  objects w !! o = Some d -> DataObject._instanceId d <> _instanceId s -> DataObject._localSlot d = Some l -> DataObject._globalSlot d = Some g ->
  run (MemoryManager.freeLocalMemorySlot l) (m, y) = Done tt (m1, y1) ->
  run (destroyPromotedGlobalMemorySlot (_communicationManager s) g) m1 = Done tt m2 ->
  run (destroy s o) ((m, y), w) =
  Done tt ((m2, y1), mkWorld (objects w) (<[self s := delete (compoundId d) (default ∅ (_globalObjects w !! self s))]> (_globalObjects w))).
Proof.
  intros Ho Hi Hl Hg E1 E2. unfold destroy. rewrite (run_bind_Done _ _ _ _ _ (run_object _ _ _ _ _ Ho)).
  destruct (Z.eqb_spec (DataObject._instanceId d) (_instanceId s)); [done|]. cbn [negb]. rewrite Hl, Hg.
  rewrite (run_bind_Done _ _ _ _ _ (run_on_memory _ _ _ _ _ _ _ E1)).
  by rewrite (run_bind_Done _ _ _ _ _ (run_on_machine _ _ _ _ _ _ E2)), run_set_entries.
Qed.

(** [publish] on both branches, over any backend.  When its slot can be promoted, a
    new object is entered in the store under its compound identifier, unless there
    is an entry already, which then stays; a published object is refused with a
    logic error, after its global slot has been destroyed, and it still refers to
    that slot. *)
Theorem publish_spec s o d m y w :
  objects w !! o = Some d ->
  match DataObject._globalSlot d with
  | None => forall g m', run (promoteLocalMemorySlot (_communicationManager s) (DataObject._localSlot d) (_tag s)) m = Done g m' ->
      exists w', run (publish s o) ((m, y), w) = Done tt ((m', y), w') /\
        objects w' = <[o := DataObject.set_globalSlot g d]> (objects w) /\
        forall k, default ∅ (_globalObjects w' !! self s) !! k =
          (if decide (k = compoundId d) then Some (default o (default ∅ (_globalObjects w !! self s) !! k))
           else default ∅ (_globalObjects w !! self s) !! k)
  | Some g => forall m', run (destroyPromotedGlobalMemorySlot (_communicationManager s) g) m = Done tt m' ->
      run (publish s o) ((m, y), w) = Thrown logic ((m', y), w)
  end.
Proof.
  intros Ho. destruct (DataObject._globalSlot d) as [g|] eqn:Hg.
  - intros m' E. unfold publish. rewrite (run_bind_Done _ _ _ _ _ (run_object _ _ _ _ _ Ho)), Hg. by rewrite (run_bind_Done _ _ _ _ _ (run_on_machine _ _ _ _ _ _ E)).
  - intros g m' E. eexists. split; [by apply run_publish_new|]. split; [done|]. intros k. cbn. rewrite lookup_insert_eq. cbn.
    destruct (default ∅ (_globalObjects w !! self s) !! compoundId d) as [o'|] eqn:Ee; case_decide as Hk; subst.
    + by rewrite Ee.
    + done.
    + by rewrite lookup_insert_eq, Ee.
    + by rewrite lookup_insert_ne.
Qed.

End Spec.

(** The compound identifier of an object determines its block identifier and
    the lower 32 bits of its instance identifier, and nothing more: blocks of
    instances whose identifiers agree modulo [2^32] share an entry. *)
Theorem compoundId_collisions d1 d2 :
  0 <= DataObject._id d1 < 2 ^ 32 -> 0 <= DataObject._id d2 < 2 ^ 32 ->
  ObjectStore.compoundId d1 = ObjectStore.compoundId d2 <->
  DataObject._id d1 = DataObject._id d2 /\ DataObject._instanceId d1 mod 2 ^ 32 = DataObject._instanceId d2 mod 2 ^ 32.
Proof.
  assert (Hc : forall d, 0 <= DataObject._id d < 2 ^ 32 ->
    ObjectStore.compoundId d = DataObject._instanceId d mod 2 ^ 32 * 2 ^ 32 + DataObject._id d).
  { intros d Hd. unfold ObjectStore.compoundId, ObjectStore.OBJECT_STORE_KEY_INSTANCE_ID_BITS, wrap64, SIZE_BOUND.
    rewrite Z.shiftl_mul_pow2 by lia. change (2 ^ 64) with (2 ^ 32 * 2 ^ 32). rewrite Z.mul_mod_distr_r by lia.
    rewrite <- Z.add_lor_land. replace (Z.land _ _) with 0; [lia|]. symmetry. apply Z.bits_inj_0. intros n.
    rewrite Z.land_spec. destruct (Z.lt_ge_cases n 32).
    - by rewrite Z.mul_pow2_bits_low.
    - rewrite <- (Z.mod_small (DataObject._id d) (2 ^ 32)) by lia. rewrite Z.mod_pow2_bits_high, andb_false_r by lia. done. }
  intros H1 H2. rewrite !Hc by done. pose proof (Z.mod_pos_bound (DataObject._instanceId d1) (2 ^ 32)).
  pose proof (Z.mod_pos_bound (DataObject._instanceId d2) (2 ^ 32)). lia.
Qed.

(** ** The theorems on a small machine *)

Module ObjectStoreDemo.

Definition machine : Machine Core.t :=
  mkMachine {[0%nat := [Byte.x01; Byte.x02; Byte.x03]]} {[0%nat := LocalMemorySlot.make (Ptr 0 0) 3 None]} ∅ ∅ (Core.make 1).

Definition manager : HwlocMemoryManager.t := HwlocMemoryManager.mk 0 ∅ ∅ [] [].

Definition numa : HwlocMemorySpace.t := HwlocMemorySpace.make 1024 None HwlocMemoryManager.strict_binding.

Definition store : ObjectStore.t := ObjectStore.mk 0 7 (hwloc_space 0 numa) 0 0.

(** An object that is not published. *)
Definition unpublished : DataObject.t := DataObject.mk 0 5 3 (Some 0%nat) None.
Definition world : ObjectStore.world := ObjectStore.mkWorld {[2%nat := unpublished]} ∅.

Lemma publish_spec_witness : exists g m' w',
  run (ObjectStore.publish store 2) ((machine, manager), world) = Done tt ((m', manager), w') /\
  ObjectStore.objects w' = <[2%nat := DataObject.set_globalSlot g unpublished]> (ObjectStore.objects world) /\
  forall k, default ∅ (ObjectStore._globalObjects w' !! 0%nat) !! k = if decide (k = 5) then Some 2%nat else None.
Proof.
  destruct (run (promoteLocalMemorySlot 0 (Some 0%nat) 7) machine) as [g m'| | |] eqn:Ep; [|by vm_compute in Ep..].
  destruct (publish_spec store 2 unpublished machine manager world eq_refl g m' Ep) as (w' & E & Ho & He).
  exists g, m', w'. split_and!; [exact E|exact Ho|]. intros k. exact (He k).
Defined.

Lemma compoundId_collisions_witness :
  ObjectStore.compoundId (DataObject.mk 1 5 3 None None) = ObjectStore.compoundId (DataObject.mk (2 ^ 32 + 1) 5 3 None None).
Proof. apply (compoundId_collisions (DataObject.mk 1 5 3 None None) (DataObject.mk (2 ^ 32 + 1) 5 3 None None)); [done..|by split]. Defined.

End ObjectStoreDemo.
