(* ===== verification/RPCEngine.v ===== *)
(** * The RPC engine

    Models [frontends/RPCEngine/RPCEngine.hpp].  Every instance has an engine: a
    fixed-size non-locking MPSC channel on which it receives requests, a producer
    of such a channel for every other instance, a variable-size locking MPSC
    channel for return values with a producer for every instance, and a table of
    the functions it serves.

    The state is the machine, the state of the memory managers and the engine.
    The hash of names is a parameter (the code uses [std::hash]).  The compute
    manager is the class [ComputeBackend] over the whole state, because the
    functions that it runs use the engine; [createProcessingUnit] and
    [createExecutionState] are what its backend makes. *)

From S2P Require Import Prelude Memory CommunicationManager Channel FixedSPSC FixedMPSCNonlocking VariableMPSC.
From S2P Require Import Compute HwlocTopology MemoryManager.
From Stdlib Require Import ZArith Lia String.
From stdpp Require Import base list gmap option strings.

Local Open Scope Z_scope.
Local Open Scope hicr_scope.

Module RPCEngine.

Definition _HICR_RPC_ENGINE_CHANNEL_PAYLOAD_CAPACITY : Z := 1048576.
Definition _HICR_RPC_ENGINE_CHANNEL_COUNT_CAPACITY : Z := 1024.
Definition _HICR_RPC_ENGINE_CHANNEL_BASE_TAG : Z := 0xF0000000.

(** [RPCPayload_t]: the index at offset 0 and the argument at offset 8. *)
Definition SIZEOF_RPC_PAYLOAD : Z := 16.
Definition RPC_ARGUMENT_OFFSET : Z := 8.

(** [RPCTarget_t], for execution units [U]. *)
Record target_t (U : Type) : Type := mkTarget { name : string; executionUnit : U }.
Arguments mkTarget {U} _ _.
Arguments name {U} _.
Arguments executionUnit {U} _.

(** The members that do not change, and what the instance manager answers: the
    identifiers of the instances, in its order, and that of the current one. *)
Record config : Type := mkConfig {
  _communicationManager : nat;
  _bufferMemorySpace : space_ref;
  _computeResource : nat;
  _baseTag : Z;
  instances : list Z;
  currentInstanceId : Z
}.

(** The channels are null until they are initialized. *)
Record t (U : Type) : Type := mk {
  _requesterInstanceIdx : Z;
  _currentRPCArgument : Z;
  _returnValueConsumerChannel : option VLConsumer.t;
  _returnValueProducerChannels : gmap Z VLProducer.t;
  _RPCConsumerChannel : option NonlockingConsumer.t;
  _RPCProducerChannels : gmap Z Producer.t;
  _RPCTargetMap : gmap Z (target_t U)
}.
Arguments mk {U} _ _ _ _ _ _ _.
Arguments _requesterInstanceIdx {U} _.
Arguments _currentRPCArgument {U} _.
Arguments _returnValueConsumerChannel {U} _.
Arguments _returnValueProducerChannels {U} _.
Arguments _RPCConsumerChannel {U} _.
Arguments _RPCProducerChannels {U} _.
Arguments _RPCTargetMap {U} _.

(** The constructor leaves the two numbers as they are. *)
Definition make {U : Type} (idx argument : Z) : t U := mk idx argument None ∅ None ∅ ∅.

Section Setters.
Context {U : Type}.
Implicit Type e : t U.

Definition set_request (idx argument : Z) e : t U :=
  mk idx argument (_returnValueConsumerChannel e) (_returnValueProducerChannels e) (_RPCConsumerChannel e)
    (_RPCProducerChannels e) (_RPCTargetMap e).

Definition set_returns (c : VLConsumer.t) (ps : gmap Z VLProducer.t) e : t U :=
  mk (_requesterInstanceIdx e) (_currentRPCArgument e) (Some c) ps (_RPCConsumerChannel e)
    (_RPCProducerChannels e) (_RPCTargetMap e).

Definition set_consumer (c : NonlockingConsumer.t) e : t U :=
  mk (_requesterInstanceIdx e) (_currentRPCArgument e) (_returnValueConsumerChannel e) (_returnValueProducerChannels e) (Some c)
    (_RPCProducerChannels e) (_RPCTargetMap e).

Definition set_producers (ps : gmap Z Producer.t) e : t U :=
  mk (_requesterInstanceIdx e) (_currentRPCArgument e) (_returnValueConsumerChannel e) (_returnValueProducerChannels e)
    (_RPCConsumerChannel e) ps (_RPCTargetMap e).

Definition set_targets (ts : gmap Z (target_t U)) e : t U :=
  mk (_requesterInstanceIdx e) (_currentRPCArgument e) (_returnValueConsumerChannel e) (_returnValueProducerChannels e)
    (_RPCConsumerChannel e) (_RPCProducerChannels e) ts.

End Setters.

Section Operations.
Context {X Y U : Type} {B : CommBackend X} {M : MemoryBackend X Y}.

Definition State : Type := (Machine X * Y) * t U.

Definition on_machine {A : Type} (p : prog (Machine X) A) : prog State A := on_fst (on_fst p).

Definition on_memory {A : Type} (p : prog (Machine X * Y) A) : prog State A := on_fst p.

(** The operations of the consumer of requests, which is dereferenced. *)
Definition consumer_part (st : State) : option (Machine X * NonlockingConsumer.t) :=
  c ← _RPCConsumerChannel st.2; Some (st.1.1, c).

Definition put_consumer (mc : Machine X * NonlockingConsumer.t) (st : State) : State :=
  ((mc.1, st.1.2), set_consumer mc.2 st.2).

Definition on_consumer {A : Type} (p : prog (Machine X * NonlockingConsumer.t) A) : prog State A :=
  zoom consumer_part put_consumer p.

Definition return_consumer : prog State VLConsumer.t := fetch (fun st => _returnValueConsumerChannel st.2).

(** [map.at(key)]. *)
Definition at_ {A : Type} (get : t U -> gmap Z A) (key : Z) : prog State A :=
  m ← this get;
  match m !! key with Some a => mret a | None => Raise out_of_range end.

Context (hash : string -> Z) {P E : Type} {C : ComputeBackend State P E}.
Context (createProcessingUnit : nat -> P) (createExecutionState : U -> E).

Definition getRPCTargetIndexFromString (name : string) : Z := hash name.

Definition addRPCTarget (RPCName : string) (e : U) : prog State unit :=
  let idx := getRPCTargetIndexFromString RPCName in
  set_this (fun g => set_targets (<[idx := mkTarget RPCName e]> (_RPCTargetMap g)) g).

Definition executeRPC (cfg : config) (rpcIdx : Z) : prog State unit :=
  targets ← this _RPCTargetMap;
  match targets !! rpcIdx with
  | None => Raise runtime
  | Some target =>
      with_local (_ ← ComputeManager.initialize E;
                  _ ← ComputeManager.start E (createExecutionState (executionUnit target));
                  ComputeManager.await E)
        (ProcessingUnit.make (_computeResource cfg) (createProcessingUnit (_computeResource cfg)))
  end.

Definition hasPendingRPCs : prog State bool :=
  _ ← on_consumer NonlockingConsumer.updateDepth;
  empty ← on_consumer NonlockingConsumer.isEmpty;
  mret (negb empty).

(** The token is read through the pointer of the requester's token buffer. *)
Definition parseAndExecuteRPC (cfg : config) : prog State unit :=
  request ← on_consumer (NonlockingConsumer.peek 0);
  let requester := request.1 in
  g ← on_consumer (fetch (fun st => NonlockingConsumer.getTokenBuffers st.2 !! requester));
  src ← on_machine (getSourceLocalMemorySlot g);
  match src with
  | None => Crash undefined
  | Some l =>
      buffer ← on_machine (getPointer l);
      let payload := ptr_add buffer (request.2 * SIZEOF_RPC_PAYLOAD) in
      index ← on_machine (read_size payload);
      argument ← on_machine (read_size (ptr_add payload RPC_ARGUMENT_OFFSET));
      _ ← on_consumer (NonlockingConsumer.pop 1);
      _ ← set_this (set_request (Z.of_nat requester) argument);
      executeRPC cfg index
  end.

(** [rounds] bounds the iterations of the polling loop. *)
Definition listen (rounds : nat) (cfg : config) : prog State unit :=
  _ ← poll rounds (depth ← on_consumer NonlockingConsumer.getDepth; mret (negb (depth =? 0)))
        (on_consumer NonlockingConsumer.updateDepth);
  parseAndExecuteRPC cfg.

Definition tryListen : prog State bool :=
  depth ← on_consumer NonlockingConsumer.getDepth;
  if depth >? 0 then mret true else
  _ ← on_consumer NonlockingConsumer.updateDepth;
  depth ← on_consumer NonlockingConsumer.getDepth;
  mret (depth >? 0).

(** The identifier of the requesting instance; [operator[]] does not check. *)
Definition getRPCRequester (cfg : config) : prog State Z :=
  idx ← this _requesterInstanceIdx;
  fetch (fun _ => instances cfg !! Z.to_nat idx).

Definition getRPCArgument : prog State Z := this _currentRPCArgument.

(** [RPCPayload] is the address of the local variable of that name. *)
Definition requestRPC (cfg : config) (RPCPayload : ptr) (targetInstanceId : Z) (RPCName : string) (argument : Z) :
    prog State unit :=
  _ ← on_machine (write_size RPCPayload (getRPCTargetIndexFromString RPCName));
  _ ← on_machine (write_size (ptr_add RPCPayload RPC_ARGUMENT_OFFSET) argument);
  tempBufferSlot ← on_memory (MemoryManager.registerLocalMemorySlot (_bufferMemorySpace cfg) RPCPayload SIZEOF_RPC_PAYLOAD);
  channel ← at_ _RPCProducerChannels targetInstanceId;
  on_machine (Producer.push channel tempBufferSlot 1).

(** The result of [push] is not looked at. *)
Definition submitReturnValue (cfg : config) (pointer : ptr) (size : Z) : prog State unit :=
  tempBufferSlot ← on_memory (MemoryManager.allocateLocalMemorySlot (_bufferMemorySpace cfg) size);
  sourceBufferSlot ← on_memory (MemoryManager.registerLocalMemorySlot (_bufferMemorySpace cfg) pointer size);
  _ ← on_machine (CommunicationManager.memcpyLL (_communicationManager cfg) tempBufferSlot 0 sourceBufferSlot 0 size);
  _ ← on_machine (CommunicationManager.fenceLocal (_communicationManager cfg) tempBufferSlot 1 0);
  idx ← this _requesterInstanceIdx;
  channel ← at_ _returnValueProducerChannels idx;
  _ ← on_machine (VLProducer.push channel tempBufferSlot 1);
  on_memory (MemoryManager.freeLocalMemorySlot tempBufferSlot).

(** Neither is the one of [pop]. *)
Definition getReturnValue (rounds : nat) (cfg : config) : prog State nat :=
  channel ← return_consumer;
  _ ← poll rounds (empty ← on_machine (VLConsumer.isEmpty channel); mret (negb empty)) (mret tt);
  returnValue ← on_machine (VLConsumer.peek channel 0);
  let msgOffset := returnValue.1 in
  let msgSize := returnValue.2 in
  tempBufferSlot ← on_memory (MemoryManager.allocateLocalMemorySlot (_bufferMemorySpace cfg) msgSize);
  _ ← on_machine (CommunicationManager.memcpyLG (_communicationManager cfg) tempBufferSlot 0
        (VLConsumer.getPayloadBufferMemorySlot channel) msgOffset msgSize);
  _ ← on_machine (CommunicationManager.fenceLocal (_communicationManager cfg) tempBufferSlot 1 0);
  _ ← on_machine (VLConsumer.pop channel 1);
  mret tempBufferSlot.

(** ** Initialization *)

Definition instanceCount (cfg : config) : nat := length (instances cfg).

(** The slots of the buffers that an instance shares with each of the others. *)
Definition localSlotKey (cfg : config) (i : Z) : Z := (currentInstanceId cfg *w Z.of_nat (instanceCount cfg)) +w i.

Definition remoteSlotKey (cfg : config) (i : Z) : Z := (i *w Z.of_nat (instanceCount cfg)) +w currentInstanceId cfg.

Definition allocate (cfg : config) (size : Z) : prog State nat :=
  on_memory (MemoryManager.allocateLocalMemorySlot (_bufferMemorySpace cfg) size).

(** A coordination buffer, initialized. *)
Definition coordination_buffer (cfg : config) : prog State nat :=
  l ← allocate cfg Base.getCoordinationBufferSize;
  _ ← on_machine (Base.initializeCoordinationBuffer l);
  mret l.

Definition exchange (cfg : config) (tag : Z) (slots : list (Z * nat)) : prog State unit :=
  _ ← on_machine (CommunicationManager.exchangeGlobalMemorySlots (_communicationManager cfg) tag slots);
  on_machine (CommunicationManager.fence (_communicationManager cfg) tag).

Definition get_slot (cfg : config) (tag key : Z) : prog State nat :=
  on_machine (CommunicationManager.getGlobalMemorySlot (_communicationManager cfg) tag key).

Definition indices (cfg : config) : list Z := seqZ 0 (Z.of_nat (instanceCount cfg)).

Definition TOKEN_BUFFER_TAG (cfg : config) : Z := _baseTag cfg +w 4.
Definition PRODUCER_COORDINATION_BUFFER_TAG (cfg : config) : Z := _baseTag cfg +w 5.
Definition CONSUMER_COORDINATION_BUFFER_TAG (cfg : config) : Z := _baseTag cfg +w 6.

(** The consumer end: its own token buffers, one per producer. *)
Definition connect_consumer (cfg : config) (localConsumerCoordinationBuffers : list nat) : prog State unit :=
  slots ← map_each (fun i =>
            token ← get_slot cfg (TOKEN_BUFFER_TAG cfg) (localSlotKey cfg i);
            producer ← get_slot cfg (PRODUCER_COORDINATION_BUFFER_TAG cfg) (remoteSlotKey cfg i);
            _ ← get_slot cfg (CONSUMER_COORDINATION_BUFFER_TAG cfg) (localSlotKey cfg i);
            mret (token, producer)) (indices cfg);
  c ← on_machine (NonlockingConsumer.make (_communicationManager cfg) (_communicationManager cfg)
        (map fst slots) localConsumerCoordinationBuffers (map snd slots)
        SIZEOF_RPC_PAYLOAD _HICR_RPC_ENGINE_CHANNEL_COUNT_CAPACITY);
  set_this (set_consumer c).

(** The producer ends.  The buffers of the [i]-th channel are found with keys made
    of [i]; the channel is stored under the identifier of the [i]-th instance. *)
Definition connect_producers (cfg : config) : prog State unit :=
  slots ← map_each (fun i =>
            token ← get_slot cfg (TOKEN_BUFFER_TAG cfg) (remoteSlotKey cfg i);
            producer ← get_slot cfg (PRODUCER_COORDINATION_BUFFER_TAG cfg) (localSlotKey cfg i);
            consumer ← get_slot cfg (CONSUMER_COORDINATION_BUFFER_TAG cfg) (remoteSlotKey cfg i);
            mret (token, producer, consumer)) (indices cfg);
  for_each (zip (instances cfg) slots) (fun '(consumerInstanceId, (token, producer, consumer)) =>
    src ← on_machine (VLConsumer.source_of producer);
    p ← on_machine (NonlockingProducer.make (_communicationManager cfg) (_communicationManager cfg)
          token src consumer SIZEOF_RPC_PAYLOAD _HICR_RPC_ENGINE_CHANNEL_COUNT_CAPACITY);
    set_this (fun g => set_producers (<[consumerInstanceId := p]> (_RPCProducerChannels g)) g)).

Definition initializeRPCChannels (cfg : config) : prog State unit :=
  buffers ← map_each (fun _ =>
              token ← allocate cfg (Base.getTokenBufferSize SIZEOF_RPC_PAYLOAD _HICR_RPC_ENGINE_CHANNEL_COUNT_CAPACITY);
              consumer ← coordination_buffer cfg;
              producer ← coordination_buffer cfg;
              mret (token, consumer, producer)) (indices cfg);
  let keys := map (localSlotKey cfg) (indices cfg) in
  let tokens := map (fun b => b.1.1) buffers in
  let consumers := map (fun b => b.1.2) buffers in
  let producers := map (fun b => b.2) buffers in
  _ ← exchange cfg (TOKEN_BUFFER_TAG cfg) (zip keys tokens);
  _ ← exchange cfg (PRODUCER_COORDINATION_BUFFER_TAG cfg) (zip keys producers);
  _ ← exchange cfg (CONSUMER_COORDINATION_BUFFER_TAG cfg) (zip keys consumers);
  _ ← connect_consumer cfg consumers;
  connect_producers cfg.

Definition SIZES_BUFFER_TAG (cfg : config) : Z := _baseTag cfg +w 0.
Definition PAYLOAD_BUFFER_TAG (cfg : config) : Z := _baseTag cfg +w 1.
Definition COORDINATION_BUFFER_SIZES_TAG (cfg : config) : Z := _baseTag cfg +w 2.
Definition COORDINATION_BUFFER_PAYLOADS_TAG (cfg : config) : Z := _baseTag cfg +w 3.

(** The four buffers of the return value channel of an instance. *)
Definition return_slots (cfg : config) (id : Z) : prog State (nat * nat * nat * nat) :=
  payload ← get_slot cfg (PAYLOAD_BUFFER_TAG cfg) id;
  sizes ← get_slot cfg (SIZES_BUFFER_TAG cfg) id;
  payloads ← get_slot cfg (COORDINATION_BUFFER_PAYLOADS_TAG cfg) id;
  counts ← get_slot cfg (COORDINATION_BUFFER_SIZES_TAG cfg) id;
  mret (payload, sizes, payloads, counts).

(** The producer of return values for an instance. *)
Definition return_producer (cfg : config) (consumerInstanceId : Z) : prog State VLProducer.t :=
  sizeInfo ← allocate cfg SIZEOF_SIZE_T;
  counts ← allocate cfg Base.getCoordinationBufferSize;
  payloads ← allocate cfg Base.getCoordinationBufferSize;
  _ ← on_machine (Base.initializeCoordinationBuffer counts);
  _ ← on_machine (Base.initializeCoordinationBuffer payloads);
  slots ← return_slots cfg consumerInstanceId;
  let '(gPayload, gSizes, gPayloads, gCounts) := slots in
  on_machine (VLProducer.make (_communicationManager cfg) (_communicationManager cfg) sizeInfo gPayload gSizes counts payloads
    gCounts gPayloads _HICR_RPC_ENGINE_CHANNEL_PAYLOAD_CAPACITY 1 _HICR_RPC_ENGINE_CHANNEL_COUNT_CAPACITY).

Definition initializeReturnValueChannels (cfg : config) : prog State unit :=
  sizes ← allocate cfg (Base.getTokenBufferSize SIZEOF_SIZE_T _HICR_RPC_ENGINE_CHANNEL_COUNT_CAPACITY);
  payload ← allocate cfg _HICR_RPC_ENGINE_CHANNEL_PAYLOAD_CAPACITY;
  counts ← allocate cfg Base.getCoordinationBufferSize;
  payloads ← allocate cfg Base.getCoordinationBufferSize;
  _ ← on_machine (Base.initializeCoordinationBuffer counts);
  _ ← on_machine (Base.initializeCoordinationBuffer payloads);
  _ ← exchange cfg (SIZES_BUFFER_TAG cfg) [(currentInstanceId cfg, sizes)];
  _ ← exchange cfg (PAYLOAD_BUFFER_TAG cfg) [(currentInstanceId cfg, payload)];
  _ ← exchange cfg (COORDINATION_BUFFER_SIZES_TAG cfg) [(currentInstanceId cfg, counts)];
  _ ← exchange cfg (COORDINATION_BUFFER_PAYLOADS_TAG cfg) [(currentInstanceId cfg, payloads)];
  slots ← return_slots cfg (currentInstanceId cfg);
  let '(gPayload, gSizes, gPayloads, gCounts) := slots in
  c ← on_machine (VLConsumer.make (_communicationManager cfg) (_communicationManager cfg) gPayload gSizes counts payloads
        gCounts gPayloads _HICR_RPC_ENGINE_CHANNEL_PAYLOAD_CAPACITY _HICR_RPC_ENGINE_CHANNEL_COUNT_CAPACITY);
  _ ← set_this (fun g => set_returns c (_returnValueProducerChannels g) g);
  for_each (instances cfg) (fun id =>
    p ← return_producer cfg id;
    set_this (fun g => mk (_requesterInstanceIdx g) (_currentRPCArgument g) (_returnValueConsumerChannel g)
      (<[id := p]> (_returnValueProducerChannels g)) (_RPCConsumerChannel g) (_RPCProducerChannels g) (_RPCTargetMap g))).

Definition initialize (cfg : config) : prog State unit :=
  _ ← initializeRPCChannels cfg;
  initializeReturnValueChannels cfg.

End Operations.
End RPCEngine.
