(* ===== verification/Frame.v ===== *)
(** * Allocation, release and the channels

    The channels' lemmas say what stores inside their buffers do.  Components
    that use channels also allocate, register and release memory; [keeps] says
    that such a change leaves the slots and the memory outside of some blocks
    as they are, and the lemmas of this file that a channel then stays what it is. *)

From S2P Require Import Prelude Memory CommunicationManager CircularBuffer Channel TokenBuffer FixedSPSC HelperQueue.
From S2P Require Import FixedMPSCNonlocking VariableSPSC VariableMPSC VariableMPSCSpec HwlocTopology MemoryManager.
From Stdlib Require Import ZArith Lia.
From stdpp Require Import base list gmap option.

Local Open Scope Z_scope.
Local Open Scope hicr_scope.

(** The block of a pointer is not one of those in [out]. *)
Definition clear (out : nat -> Prop) (p : ptr) : Prop :=
  match p with nullptr => True | Ptr b _ => ~ out b end.

(** The change from [m] to [m'] concerns at most the blocks in [out]. *)
Record keeps {X : Type} (out : nat -> Prop) (m m' : Machine X) : Prop := mkKeeps {
  k_slot : forall l p n, slot_at m l p n -> slot_at m' l p n;
  k_backed : forall g l, backed_by m g l -> backed_by m' g l;
  k_registered : forall this g, registered m this g -> registered m' this g;
  k_backend : backend m' = backend m;
  k_load : forall p n bs, clear out p -> mem_load (heap m) p n = Some bs -> mem_load (heap m') p n = Some bs
}.

Definition nothing (b : nat) : Prop := False.

Section Keeps.
Context {X : Type}.
Implicit Types (m : Machine X) (out : nat -> Prop).

Lemma clear_add out p k : clear out p -> clear out (ptr_add p k).
Proof. by destruct p. Qed.

Lemma clear_nothing p : clear nothing p.
Proof. destruct p; [done|]. by intros []. Qed.

(** Memory that is there lies outside of a block that is not. *)
Lemma clear_fresh m b p n : heap m !! b = None -> accessible (heap m) p n -> clear (eq b) p.
Proof. destruct p as [|b' o]; [done|]. intros Hb [x Hx] <-. unfold mem_load in Hx. by rewrite Hb in Hx. Qed.

Lemma keeps_refl out m : keeps out m m.
Proof. by split. Qed.

Lemma keeps_trans out m1 m2 m3 : keeps out m1 m2 -> keeps out m2 m3 -> keeps out m1 m3.
Proof. intros [? ? ? E1 ?] [? ? ? E2 ?]. split; eauto. by rewrite E2. Qed.

Lemma keeps_weaken (out out' : nat -> Prop) m m' : (forall b, out b -> out' b) -> keeps out m m' -> keeps out' m m'.
Proof. intros Ho []. split; eauto. intros p n bs Hc. apply k_load0. destruct p; [done|]. cbn in *. eauto. Qed.

Lemma keeps_extends out m m' : extends m m' -> keeps out m m'.
Proof.
  intros He. split.
  - intros *. by apply extends_slot_at.
  - intros *. by apply extends_backed_by.
  - intros *. unfold registered. by rewrite (ext_globals _ _ He), (ext_managers _ _ He).
  - apply He.
  - intros p n bs _. by apply extends_load.
Qed.

Lemma keeps_stored m b o bs m' : stored m (Ptr b o) bs m' -> keeps (eq b) m m'.
Proof.
  intros Hst. split.
  - intros *. apply (stored_slot_at _ _ _ _ _ _ _ Hst).
  - intros *. apply (stored_backed_by _ _ _ _ _ _ Hst).
  - intros *. apply (stored_registered _ _ _ _ _ _ Hst).
  - by eapply stored_backend.
  - intros [|b' o'] n x Hc; [done|]. rewrite (stored_disjoint _ _ _ _ _ _ Hst); [done|]. left. exact Hc.
Qed.

Lemma keeps_delete m b : keeps (eq b) m (set_heap (delete b (heap m)) m).
Proof.
  split; [done..|]. intros [|b' o'] n x Hc; [done|]. unfold mem_load. cbn. by rewrite lookup_delete_ne.
Qed.

Lemma keeps_accessible out m m' p n : keeps out m m' -> clear out p -> accessible (heap m) p n -> accessible (heap m') p n.
Proof. intros Hk Hc [x Hx]. exists x. by eapply k_load. Qed.

Lemma keeps_coord_slot out m m' l p : keeps out m m' -> coord_slot m l p -> coord_slot m' l p.
Proof. intros Hk (n & ? & Hs). exists n. split; [done|]. by eapply k_slot. Qed.

Lemma keeps_load_size out m m' p v : keeps out m m' -> clear out p -> load_size (heap m) p = Some v -> load_size (heap m') p = Some v.
Proof.
  intros Hk Hc. unfold load_size. destruct (mem_load (heap m) p SIZEOF_SIZE_T) as [bs|] eqn:E; [|done].
  by rewrite (k_load _ _ _ Hk _ _ _ Hc E).
Qed.

Lemma keeps_cb_at out m m' cap p h t :
  keeps out m m' -> clear out p -> cb_at (Base.circular_buffer_at cap p) h t m -> cb_at (Base.circular_buffer_at cap p) h t m'.
Proof. rewrite !cb_at_unfold. intros Hk Hc [? ?]. split; (eapply keeps_load_size; [done|by apply clear_add|done]). Qed.

Lemma keeps_token_buffer out m m' g tb :
  keeps out m m' -> clear out (gTokens g) -> is_token_buffer g tb m -> is_token_buffer g tb m'.
Proof.
  intros Hk Hc [Hsz (n & ? & Hs) Hb Ha]. split; [done| |by eapply k_backed|by eapply keeps_accessible].
  exists n. split; [done|]. by eapply k_slot.
Qed.

Lemma keeps_holds out m m' g t q :
  keeps out m m' -> clear out (gTokens g) -> holds_tokens g m t q -> holds_tokens g m' t q.
Proof. intros Hk Hc Hh i tok Hi. unfold token_at. eapply k_load; [done|by apply clear_add|by apply Hh]. Qed.

Lemma keeps_channel out m m' g p c t q :
  keeps out m m' -> clear out (gProducer g) -> clear out (gConsumer g) -> clear out (gTokens g) ->
  channel_rep g p c m t q -> channel_rep g p c m' t q.
Proof.
  intros Hk Hp Hc Ht (Hcon & HP & HC & Hlen & Hh). connected_facts Hcon. destruct Hpsl as (np & Hnp & Hps), Hcsl as (nc & Hnc & Hcs).
  refine (conj _ (conj _ (conj _ (conj Hlen _)))); [|by eapply keeps_cb_at|by eapply keeps_cb_at|by eapply keeps_holds].
  split; try done; try (by eapply k_backed); try (by eapply keeps_token_buffer).
  - exists np. split; [done|by eapply k_slot].
  - exists nc. split; [done|by eapply k_slot].
Qed.

(** The memory of a channel lies outside of [out]. *)
Definition clear_channel out (g : geometry) : Prop :=
  clear out (gProducer g) /\ clear out (gConsumer g) /\ clear out (gTokens g).

Lemma clear_channel_nothing g : clear_channel nothing g.
Proof. split_and!; apply clear_nothing. Qed.

(** ... which is so for a block that is not allocated. *)
Lemma channel_clear g p c m t q b : channel_rep g p c m t q -> heap m !! b = None -> clear_channel (eq b) g.
Proof.
  intros (Hcon & HP & HC & _) Hb. apply cb_at_unfold in HP as [HP _], HC as [HC _]. rewrite ptr_add_0 in HP, HC. split_and!.
  - eapply clear_fresh; [done|by eapply load_size_accessible].
  - eapply clear_fresh; [done|by eapply load_size_accessible].
  - eapply clear_fresh; [done|apply Hcon].
Qed.

Lemma keeps_nonlocking out m m' chs o :
  keeps out m m' -> Forall (fun ch => clear_channel out (ch_geometry ch)) chs ->
  nonlocking_rep chs m o -> nonlocking_rep chs m' o.
Proof.
  intros Hk Hcl [Hf Ha Hh]. split; [|done|done]. clear -Hk Hcl Hf. induction Hf as [|ch c chs cs Hc Hf IH]; [constructor|].
  apply Forall_cons_1 in Hcl as [(? & ? & ?) Hcl]. constructor; [by eapply keeps_channel|by apply IH].
Qed.

Context {B : CommBackend X}.

Lemma keeps_vlconsumer out m m' (g : vmgeometry) c :
  keeps out m m' -> clear out (gTokens g) -> clear out (gTokens (vmPayload g)) -> vlconsumer_ok g c m -> vlconsumer_ok g c m'.
Proof.
  intros Hk Ht Hp []. split; try done; try (by eapply keeps_coord_slot); try (by eapply keeps_token_buffer);
    try (by eapply k_backed). by eapply k_registered.
Qed.

(** The memory of a channel and of an attached producer. *)
Definition clear_vl out (g : vmgeometry) : Prop :=
  clear out (gTokens g) /\ clear out (gTokens (vmPayload g)) /\ clear out (vmCounts g) /\ clear out (vmPayloads g).

Definition clear_ends out (pc pp info : ptr) : Prop := clear out pc /\ clear out pp /\ clear out info.

Lemma keeps_vlcontent out m m' g c t pt q :
  keeps out m m' -> clear_vl out g -> vlcontent g c m t pt q -> vlcontent g c m' t pt q.
Proof.
  intros Hk (? & ? & ? & ?) []. split; try done; [by eapply keeps_vlconsumer|by eapply keeps_cb_at..|by eapply keeps_holds|by eapply keeps_holds].
Qed.

Lemma keeps_vlattached out m m' g c pc pp info p :
  keeps out m m' -> clear_vl out g -> clear_ends out pc pp info -> vlattached g c pc pp info p m -> vlattached g c pc pp info p m'.
Proof.
  intros Hk (? & ? & ? & ?) (? & ? & ?) []. destruct vlp_info as (n & ? & ?), vlp_access as (? & ? & ?).
  split; try done; try (by eapply keeps_coord_slot); try (by eapply keeps_token_buffer).
  - exists n. split; [done|]. by eapply k_slot.
  - split_and!; by eapply keeps_accessible.
  - by eapply k_registered.
Qed.

Lemma vlcontent_clear g c m t pt q b : vlcontent g c m t pt q -> heap m !! b = None -> clear_vl (eq b) g.
Proof.
  intros [Hc HC HP _ _ _ _] Hb. apply cb_at_unfold in HP as [HP _], HC as [HC _]. rewrite ptr_add_0 in HP, HC.
  split_and!; (eapply clear_fresh; [done|]).
  - apply (vlc_tokens _ _ _ Hc).
  - apply (vlc_payload _ _ _ Hc).
  - by eapply load_size_accessible.
  - by eapply load_size_accessible.
Qed.

Lemma vlattached_clear g c pc pp info p m b : vlattached g c pc pp info p m -> heap m !! b = None -> clear_ends (eq b) pc pp info.
Proof. intros Ha Hb. destruct (vlp_access _ _ _ _ _ _ _ Ha) as (? & ? & ?). split_and!; by eapply clear_fresh. Qed.

(** ** Blocks *)

(** Stores keep the blocks and their sizes. *)
Lemma writes_block R m m' b l :
  writes R m m' -> heap m !! b = Some l -> exists l', heap m' !! b = Some l' /\ length l' = length l.
Proof.
  intros W. revert l. induction W as [m|m1 m2 m3 (p & bs & r & St & _) _ IH]; intros l Hb; [by exists l|].
  apply stored_heap in St. destruct p as [|b0 o]; [done|].
  apply mem_store_inv in St as (l0 & l1 & E & _ & Ew & Eh). destruct (decide (b0 = b)) as [->|Hne].
  - assert (l0 = l) as -> by congruence. destruct (IH l1) as (l' & Hl' & HL); [rewrite Eh; apply lookup_insert_eq|].
    exists l'. split; [done|]. rewrite HL. by eapply write_at_length.
  - destruct (IH l) as (l' & Hl' & HL); [by rewrite Eh, lookup_insert_ne|]. by exists l'.
Qed.

Lemma stored_dom m p bs m' : stored m p bs m' -> dom (heap m') = dom (heap m).
Proof.
  intros St. apply stored_heap in St. destruct p as [|b o]; [done|].
  apply mem_store_inv in St as (l0 & l1 & E & _ & _ & ->). apply dom_insert_lookup_L. by eexists.
Qed.

Lemma writes_dom R m m' : writes R m m' -> dom (heap m') = dom (heap m).
Proof. induction 1 as [|m1 m2 m3 (p & bs & r & St & _) _ IH]; [done|]. rewrite IH. by eapply stored_dom. Qed.

(** A range of which the blocks of some ranges are clear is apart from them. *)
Lemma clear_apart R b o n : Forall (fun r => clear (eq b) r.1) R -> apart R (Ptr b o) n.
Proof. apply Forall_impl. intros [[|b' o'] k] Hc; [done|]. left. cbn in *. congruence. Qed.

(** Bytes that are read one by one are read together. *)
Lemma load_bytes h p (l : list byte) :
  accessible h p (Z.of_nat (length l)) ->
  (forall i x, l !! i = Some x -> mem_load h (ptr_add p (Z.of_nat i)) 1 = Some [x]) ->
  mem_load h p (Z.of_nat (length l)) = Some l.
Proof.
  intros [bs Hbs] H. rewrite Hbs. f_equal. destruct (mem_load_length _ _ _ _ Hbs) as [HL _].
  apply list_eq_same_length with (length l); [done|lia|]. intros i x y Hi Hx Hy.
  pose proof (H i y Hy) as E. rewrite (mem_load_sub _ _ _ _ (Z.of_nat i) 1 Hbs) in E by lia.
  rewrite Nat2Z.id, (drop_S _ _ _ Hx) in E. by injection E.
Qed.

End Keeps.
