(* ===== verification/RPCEngineSpec.v ===== *)
(** * Requests of the RPC engine

    The theorems of [RPCEngine.v] on requests: a request is put into the channel
    of its target, the listener takes it out and runs the function that it names
    with the argument of the request. *)

From S2P Require Import Prelude Memory CommunicationManager Pthreads CircularBuffer Channel TokenBuffer FixedSPSC HelperQueue.
From S2P Require Import FixedMPSCNonlocking VariableSPSC VariableMPSC VariableMPSCSpec Compute HwlocTopology MemoryManager RPCEngine Frame.
From Stdlib Require Import ZArith Lia String.
From Stdlib.Strings Require Import Byte.
From stdpp Require Import base list gmap option strings.

Local Open Scope Z_scope.
Local Open Scope hicr_scope.

(** ** The compute manager

    What the engine relies on: a processing unit that has been started with an
    execution state, and awaited, has run its body. *)
Class RunsUnits (O P E : Type) {C : ComputeBackend O P E} (createProcessingUnit : nat -> P) : Type := {
  body : E -> prog O unit;
  runs_unit : forall e r (s s' : O), run (body e) s = Done tt s' ->
    exists u', run (_ ← ComputeManager.initialize E; _ ← ComputeManager.start E e; ComputeManager.await E)
      (s, ProcessingUnit.make r (createProcessingUnit r)) = Done tt (s', u')
}.

(** ** Requests *)

(** The bytes of a request. *)
Definition request_token (index argument : Z) : list byte := le_bytes 8 index ++ le_bytes 8 argument.

(** One more token in a channel. *)
Definition push_chan (tok : list byte) (ch : chan) : chan :=
  mkChan (ch_geometry ch) (ch_producer ch) (ch_first ch) (ch_tokens ch ++ [tok]).

(** A push to one channel does not write to another. *)
Definition chans_disjoint (chs : list chan) : Prop :=
  forall i j a b, i <> j -> chs !! i = Some a -> chs !! j = Some b ->
    apart (push_footprint (ch_geometry a)) (gProducer (ch_geometry b)) 16 /\
    apart (push_footprint (ch_geometry a)) (gConsumer (ch_geometry b)) 16 /\
    apart (push_footprint (ch_geometry a)) (gTokens (ch_geometry b))
      (gTokenSize (ch_geometry b) * gCapacity (ch_geometry b)).

(** The consumer of requests [o], over the channels [chs] of the producers. *)
Record listens {X : Type} (chs : list chan) (m : Machine X) (o : NonlockingConsumer.t) : Prop := mkListens {
  ls_rep : nonlocking_rep chs m o;
  ls_disjoint : chans_disjoint chs;
  ls_buffers : NonlockingConsumer._tokenBuffers o = map Consumer._tokenBuffer (NonlockingConsumer._spscList o);
  ls_sizes : Forall (fun ch => gTokenSize (ch_geometry ch) = RPCEngine.SIZEOF_RPC_PAYLOAD) chs
}.

(** The local variable of a request, at [p], is apart from the channels. *)
Definition outgoing {X : Type} (chs : list chan) (m : Machine X) (p : ptr) : Prop :=
  accessible (heap m) p 16 /\
  Forall (fun ch => disjoint_ranges p 16 (gProducer (ch_geometry ch)) 16 /\
    disjoint_ranges p 16 (gConsumer (ch_geometry ch)) 16 /\
    disjoint_ranges p 16 (gTokens (ch_geometry ch)) (gTokenSize (ch_geometry ch) * gCapacity (ch_geometry ch))) chs.

Lemma mem_load_join h p a b x y :
  mem_load h p a = Some x -> mem_load h (ptr_add p a) b = Some y -> mem_load h p (a + b) = Some (x ++ y).
Proof.
  intros Hx Hy. destruct (mem_load_length _ _ _ _ Hx) as [Lx ?], (mem_load_length _ _ _ _ Hy) as [Ly ?].
  destruct (accessible_app h p 0 a b) as [z Hz]; rewrite ?ptr_add_0, ?Z.add_0_l; try done; [by eexists..|].
  rewrite ptr_add_0 in Hz. rewrite Hz. f_equal.
  pose proof (mem_load_sub _ _ _ _ 0 a Hz ltac:(lia) ltac:(lia) ltac:(lia)) as E1. rewrite ptr_add_0, Hx in E1. injection E1 as E1.
  pose proof (mem_load_sub _ _ _ _ a b Hz ltac:(lia) ltac:(lia) ltac:(lia)) as E2. rewrite Hy in E2. injection E2 as E2.
  destruct (mem_load_length _ _ _ _ Hz) as [Lz _]. rewrite <- (take_drop (Z.to_nat a) z). f_equal.
  - by rewrite E1, drop_0.
  - rewrite E2, take_ge; [done|]. rewrite length_drop. lia.
Qed.

Section Requests.
Context {X : Type} {B : CommBackend X} `{!CommSpec X}.
Implicit Types (m : Machine X) (o : NonlockingConsumer.t) (chs : list chan) (i j : nat).

Lemma length_request_token index argument : Z.of_nat (length (request_token index argument)) = 16.
Proof. unfold request_token. by rewrite length_app, !length_le_bytes. Qed.

Lemma push_chan_lookup tok i j chs x :
  alter (push_chan tok) i chs !! j = Some x -> exists y, chs !! j = Some y /\ ch_geometry x = ch_geometry y.
Proof.
  intros Hx. destruct (decide (i = j)) as [<-|Hne].
  - rewrite list_lookup_alter_eq in Hx. destruct (chs !! i) as [y|]; [|done]. injection Hx as <-. by exists y.
  - rewrite list_lookup_alter_ne in Hx by done. by exists x.
Qed.

Lemma pop_chan_lookup i j chs x :
  alter pop_chan i chs !! j = Some x -> exists y, chs !! j = Some y /\ ch_geometry x = ch_geometry y.
Proof.
  intros Hx. destruct (decide (i = j)) as [<-|Hne].
  - rewrite list_lookup_alter_eq in Hx. destruct (chs !! i) as [y|]; [|done]. injection Hx as <-. by exists y.
  - rewrite list_lookup_alter_ne in Hx by done. by exists x.
Qed.

(** The geometries of the channels are what the side conditions speak of. *)
Lemma disjoint_same chs chs' :
  (forall j x, chs' !! j = Some x -> exists y, chs !! j = Some y /\ ch_geometry x = ch_geometry y) ->
  chans_disjoint chs -> chans_disjoint chs'.
Proof.
  intros H Hd i j a b Hne Ha Hb. destruct (H _ _ Ha) as (a' & Ha' & ->), (H _ _ Hb) as (b' & Hb' & ->). by apply (Hd i j).
Qed.

Lemma Forall_same (Q : geometry -> Prop) chs chs' :
  (forall j x, chs' !! j = Some x -> exists y, chs !! j = Some y /\ ch_geometry x = ch_geometry y) ->
  Forall (fun ch => Q (ch_geometry ch)) chs -> Forall (fun ch => Q (ch_geometry ch)) chs'.
Proof.
  intros H HF. apply Forall_lookup. intros j x Hx. destruct (H _ _ Hx) as (y & Hy & ->).
  by apply (proj1 (Forall_lookup _ _) HF j).
Qed.

Lemma disjoint_apart chs : chans_disjoint chs -> chans_apart chs.
Proof.
  intros Hd i j a b Hne Ha Hb. destruct (Hd i j a b Hne Ha Hb) as (H1 & H2 & H3).
  split_and!; [apply Forall_cons_1 in H1|apply Forall_cons_1 in H2|apply Forall_cons_1 in H3]; tauto.
Qed.

Lemma sizes_push tok i chs : sizes (alter (push_chan tok) i chs) = alter S i (sizes chs).
Proof.
  unfold sizes. revert i. induction chs as [|ch chs IH]; intros [|i]; cbn; [done..| |].
  - f_equal. rewrite length_app. cbn. lia.
  - f_equal. apply IH.
Qed.

Lemma sum_list_alter_S (ns : list nat) i : (sum_list (alter S i ns) <= S (sum_list ns))%nat.
Proof. revert i. induction ns as [|x ns IH]; intros [|i]; cbn; [lia..|]. specialize (IH i). cbn in IH. lia. Qed.

Lemma helper_push ns pushes depths i :
  helper_ok ns pushes depths -> Z.of_nat (sum_list ns) + 1 < SIZE_BOUND -> helper_ok (alter S i ns) pushes depths.
Proof.
  intros [Hp Hd Hk Ht] Hov. split.
  - by rewrite length_alter.
  - by rewrite length_alter.
  - intros j n Hj. destruct (decide (i = j)) as [<-|Hne].
    + rewrite list_lookup_alter_eq in Hj. destruct (ns !! i) as [x|] eqn:E; [|done]. injection Hj as <-. specialize (Hk i x E). lia.
    + rewrite list_lookup_alter_ne in Hj by done. eauto.
  - pose proof (sum_list_alter_S ns i). lia.
Qed.

Lemma nonlocking_writes R chs m m' o :
  nonlocking_rep chs m o -> writes R m m' ->
  Forall (fun ch => apart R (gProducer (ch_geometry ch)) 16 /\ apart R (gConsumer (ch_geometry ch)) 16 /\
    apart R (gTokens (ch_geometry ch)) (gTokenSize (ch_geometry ch) * gCapacity (ch_geometry ch))) chs ->
  nonlocking_rep chs m' o.
Proof.
  intros [Hf Ha Hh] W HR. split; [|done|done]. clear -Hf W HR. induction Hf as [|ch c chs cs Hc Hf IH]; [constructor|].
  apply Forall_cons_1 in HR as [(? & ? & ?) HR]. constructor; [by eapply channel_rep_writes|by apply IH].
Qed.

(** A token is pushed to the [i]-th channel. *)
Lemma run_push_listens chs m o i ch src sp ss tok :
  listens chs m o -> chs !! i = Some ch -> slot_at m src sp ss -> is_size ss -> 16 <= ss ->
  mem_load (heap m) sp 16 = Some tok -> Z.of_nat (length (ch_tokens ch)) < gCapacity (ch_geometry ch) ->
  ch_first ch + Z.of_nat (length (ch_tokens ch)) + 1 < SIZE_BOUND -> Z.of_nat (sum_list (sizes chs)) + 1 < SIZE_BOUND ->
  exists m', run (Producer.push (ch_producer ch) src 1) m = Done tt m' /\ listens (alter (push_chan tok) i chs) m' o.
Proof.
  intros [Hr Hd Hb Hs] Hi Hsl Hss Hle HL Hroom Hov Hsum. pose proof (proj1 (Forall_lookup _ _) Hs i ch Hi) as Hts. cbv beta in Hts.
  destruct (Forall2_lookup_l _ _ _ _ _ (nl_chans _ _ _ Hr) Hi) as (c & Hc & Hok).
  destruct (run_push_one (ch_geometry ch) (ch_producer ch) c m src sp ss (ch_first ch) (ch_tokens ch) tok) as (m' & E & W & Hok');
    [done..|by rewrite Hts|by rewrite Hts|done|done|].
  exists m'. split; [done|]. assert (Hd' : chans_disjoint (alter (push_chan tok) i chs)) by exact (disjoint_same chs _ (fun j x => push_chan_lookup tok i j chs x) Hd).
  split; [|done|done|].
  - split; [|by apply disjoint_apart|rewrite sizes_push; apply helper_push; [apply Hr|done]].
    apply Forall2_same_length_lookup. split; [rewrite length_alter; eapply Forall2_length, Hr|].
    intros j x y Hx Hy. destruct (decide (i = j)) as [<-|Hne].
    + rewrite list_lookup_alter_eq, Hi in Hx. injection Hx as <-. rewrite Hc in Hy. by injection Hy as <-.
    + rewrite list_lookup_alter_ne in Hx by done. destruct (Hd i j ch x Hne Hi Hx) as (? & ? & ?).
      eapply channel_rep_writes; [|exact W|done..]. exact (Forall2_lookup_lr _ _ _ _ _ _ (nl_chans _ _ _ Hr) Hx Hy).
  - exact (Forall_same (fun g => gTokenSize g = RPCEngine.SIZEOF_RPC_PAYLOAD) chs _ (fun j x => push_chan_lookup tok i j chs x) Hs).
Qed.

(** The payload of a request is written to the local variable. *)
Lemma run_write_payload chs m o p index argument :
  listens chs m o -> outgoing chs m p -> is_size index -> is_size argument ->
  exists m', run (_ ← write_size p index; write_size (ptr_add p RPCEngine.RPC_ARGUMENT_OFFSET) argument) m = Done tt m' /\
    listens chs m' o /\ mem_load (heap m') p 16 = Some (request_token index argument) /\ backend m' = backend m.
Proof.
  intros [Hr Hd Hb Hs] [Ha Ho] Hi Har. destruct (run_write_size m p index) as (m1 & E1 & St1).
  { rewrite <- (ptr_add_0 p). eapply accessible_sub; [exact Ha|lia..]. }
  rewrite (run_bind_Done _ _ _ _ _ E1). destruct (run_write_size m1 (ptr_add p 8) argument) as (m2 & E2 & St2).
  { apply (stored_accessible _ _ _ _ _ _ St1). eapply accessible_sub; [exact Ha|lia..]. }
  exists m2. assert (W : writes [(p, 16)] m m2).
  { eapply writes_trans.
    - eapply (writes_stored _ _ p 0 _ _ 16); rewrite ?ptr_add_0; [exact St1|apply footprint_here|done|by rewrite length_le_bytes].
    - eapply (writes_stored _ _ p 8 _ _ 16); [exact St2|apply footprint_here|done|by rewrite length_le_bytes]. }
  split_and!; [done| | |by eapply writes_backend].
  - split; [|done..]. eapply nonlocking_writes; [done|exact W|]. eapply Forall_impl; [exact Ho|].
    intros ch (? & ? & ?). split_and!; by repeat constructor.
  - change 16 with (8 + 8). unfold request_token. apply mem_load_join.
    + rewrite (stored_disjoint _ _ _ _ p 8 St2); [by apply (stored_same _ _ _ _ St1)|].
      rewrite length_le_bytes. rewrite <- (ptr_add_0 p) at 2. apply disjoint_ranges_same. lia.
    + apply (stored_same _ _ _ _ St2).
Qed.

End Requests.

Section Engine.
Context {X Y U : Type} {B : CommBackend X} {CS : CommSpec X} {M : MemoryBackend X Y} {MS : MemorySpec X Y}.
Import RPCEngine.
Implicit Types (m : Machine X) (y : Y) (e : RPCEngine.t U) (o : NonlockingConsumer.t) (chs : list chan) (i : nat).

Lemma run_engine_machine {A : Type} (p : prog (Machine X) A) m y e :
  run (on_machine p) ((m, y), e) =
  match run p m with
  | Done a m' => Done a ((m', y), e)
  | Thrown x m' => Thrown x ((m', y), e)
  | Crashed x m' => Crashed x ((m', y), e)
  | Blocked m' => Blocked ((m', y), e)
  end.
Proof. unfold on_machine, State. rewrite run_on_fst, run_on_fst. by destruct (run p m). Qed.

Lemma run_machine_Done {A : Type} (p : prog (Machine X) A) m m' y e a :
  run p m = Done a m' -> run (on_machine p) ((m, y), e) = Done a ((m', y), e).
Proof. intros E. by rewrite run_engine_machine, E. Qed.

Lemma run_machine_Thrown {A R : Type} (p : prog (Machine X) A) (k : A -> prog (State (X := X) (Y := Y) (U := U)) R) m m' y e x :
  run p m = Thrown x m' -> run (a ← on_machine p; k a) ((m, y), e) = Thrown x ((m', y), e).
Proof. intros E. by rewrite run_bind, run_engine_machine, E. Qed.

Lemma run_memory_Done {A : Type} (p : prog (Machine X * Y) A) m m' y y' e a :
  run p (m, y) = Done a (m', y') -> run (on_memory p) ((m, y), e) = Done a ((m', y'), e).
Proof. apply run_on_fst_Done. Qed.

Lemma run_on_consumer {A : Type} (p : prog (Machine X * NonlockingConsumer.t) A) m y e o :
  _RPCConsumerChannel e = Some o ->
  run (on_consumer p) ((m, y), e) =
  match run p (m, o) with
  | Done a (m', o') => Done a ((m', y), set_consumer o' e)
  | Thrown x (m', o') => Thrown x ((m', y), set_consumer o' e)
  | Crashed x (m', o') => Crashed x ((m', y), set_consumer o' e)
  | Blocked (m', o') => Blocked ((m', y), set_consumer o' e)
  end.
Proof.
  intros Ho. unfold on_consumer. rewrite (run_zoom _ _ _ _ (m, o)).
  - by destruct (run p (m, o)) as [a [m' o']|x [m' o']|x [m' o']|[m' o']].
  - unfold consumer_part. cbn. by rewrite Ho.
  - unfold put_consumer, set_consumer. cbn. rewrite <- Ho. by destruct e.
  - by intros [m' o'] [[? ?] ?] _.
  - by intros [? ?] [? ?] [[? ?] ?].
Qed.

Lemma run_consumer_Done {A : Type} (p : prog (Machine X * NonlockingConsumer.t) A) m m' y e o o' a :
  _RPCConsumerChannel e = Some o -> run p (m, o) = Done a (m', o') ->
  run (on_consumer p) ((m, y), e) = Done a ((m', y), set_consumer o' e).
Proof. intros Ho E. by rewrite (run_on_consumer _ _ _ _ _ Ho), E. Qed.

Lemma run_at_Some {A : Type} (get : t U -> gmap Z A) key a m y e :
  get e !! key = Some a -> run (at_ get key) ((m, y), e) = Done a ((m, y), e).
Proof. intros E. unfold at_, State. rewrite run_bind, run_this. cbn [snd]. by rewrite E. Qed.

Lemma run_at_None {A : Type} (get : t U -> gmap Z A) key m y e :
  get e !! key = None -> run (at_ (X := X) (Y := Y) get key) ((m, y), e) = Thrown out_of_range ((m, y), e).
Proof. intros E. unfold at_, State. rewrite run_bind, run_this. cbn [snd]. by rewrite E. Qed.

Context (hash : string -> Z).

(** The part of a request before the channel is chosen. *)
Lemma run_request_prefix cfg chs o p target name argument m y e :
  listens chs m o -> outgoing chs m p -> is_size (hash name) -> is_size argument ->
  exists l m1 y1, listens chs m1 o /\ slot_at m1 l p 16 /\ mem_load (heap m1) p 16 = Some (request_token (hash name) argument) /\
    run (requestRPC hash cfg p target name argument) ((m, y), e) =
    run (channel ← at_ _RPCProducerChannels target; on_machine (Producer.push channel l 1)) ((m1, y1), e).
Proof.
  intros Hl Ho Hh Ha. destruct (run_write_payload chs m o p (hash name) argument Hl Ho Hh Ha) as (m1 & E1 & Hl1 & HL & _).
  destruct (register_ok m1 y (_bufferMemorySpace cfg) p SIZEOF_RPC_PAYLOAD) as (l & m2 & y2 & E2 & He & Hheap & _ & Hs & _).
  exists l, m2, y2. split_and!; [|done|by rewrite Hheap|].
  - destruct Hl1 as [Hr Hd Hb Hsz]. split; [|done..]. eapply keeps_nonlocking; [by apply (keeps_extends nothing)| |done].
    apply Forall_true. intros ch. apply clear_channel_nothing.
  - unfold requestRPC. rewrite run_bind in E1. unfold getRPCTargetIndexFromString.
    destruct (run (write_size p (hash name)) m) as [[] mi| | |] eqn:Ew; try done.
    rewrite (run_bind_Done _ _ _ _ _ (run_machine_Done _ _ _ _ _ _ Ew)), (run_bind_Done _ _ _ _ _ (run_machine_Done _ _ _ _ _ _ E1)).
    by rewrite (run_bind_Done _ _ _ _ _ (run_memory_Done _ _ _ _ _ _ _ E2)).
Qed.

(** [requestRPC] on every branch.  A target for which the engine has no channel
    is refused with [out_of_range]; when the channel of the target is full, with a
    runtime error; otherwise one token with the hash of the name and the argument
    is appended to that channel.  The other channels keep their tokens. *)
Theorem request_spec cfg chs o i ch p target name argument m y e :
  listens chs m o -> outgoing chs m p -> is_size (hash name) -> is_size argument -> chs !! i = Some ch ->
  ch_first ch + Z.of_nat (length (ch_tokens ch)) + 1 < SIZE_BOUND -> Z.of_nat (sum_list (sizes chs)) + 1 < SIZE_BOUND ->
  match _RPCProducerChannels e !! target with
  | None => exists m' y', run (requestRPC hash cfg p target name argument) ((m, y), e) = Thrown out_of_range ((m', y'), e) /\ listens chs m' o
  | Some channel => channel = ch_producer ch -> exists m' y',
      if Z.of_nat (length (ch_tokens ch)) <? gCapacity (ch_geometry ch)
      then run (requestRPC hash cfg p target name argument) ((m, y), e) = Done tt ((m', y'), e) /\
           listens (alter (push_chan (request_token (hash name) argument)) i chs) m' o
      else run (requestRPC hash cfg p target name argument) ((m, y), e) = Thrown runtime ((m', y'), e) /\ listens chs m' o
  end.
Proof.
  intros Hl Ho Hh Ha Hi Hov Hsum. destruct (run_request_prefix cfg chs o p target name argument m y e Hl Ho Hh Ha)
    as (l & m1 & y1 & Hl1 & Hs & HL & E). rewrite E. destruct (_RPCProducerChannels e !! target) as [channel|] eqn:Ec.
  - intros ->. rewrite (run_bind_Done _ _ _ _ _ (run_at_Some _ _ _ _ _ _ Ec)), run_engine_machine.
    destruct (Z.ltb_spec (Z.of_nat (length (ch_tokens ch))) (gCapacity (ch_geometry ch))).
    + destruct (run_push_listens chs m1 o i ch l p 16 _ Hl1 Hi Hs ltac:(done) ltac:(done) HL) as (m2 & E2 & Hl2); [done..|].
      exists m2, y1. by rewrite E2.
    + exists m1, y1. destruct (Forall2_lookup_l _ _ _ _ _ (nl_chans _ _ _ (ls_rep _ _ _ Hl1)) Hi) as (c & Hc & Hok).
      pose proof (proj1 (Forall_lookup _ _) (ls_sizes _ _ _ Hl1) i ch Hi) as Hts. cbv beta in Hts.
      erewrite run_push_refuse; [done|exact Hok|exact Hs|..]; rewrite ?Hts; try done; lia.
  - exists m1, y1. rewrite run_bind, (run_at_None _ _ _ _ _ Ec). done.
Qed.

(** ** Listening *)

(** The recorded depths add up to the entries of the queue. *)
Lemma helper_total ns pushes depths : helper_ok ns pushes depths -> HelperQueue.total depths = Z.of_nat (length pushes).
Proof.
  intros [Hp -> Hk Ht]. rewrite total_spec.
  - by rewrite (sum_foldr (fun i => occ i pushes)), sum_occ.
  - apply Forall_fmap, Forall_true. intros n. cbn. lia.
  - rewrite (sum_foldr (fun i => occ i pushes)), sum_occ by done.
    assert (length pushes <= sum_list ns)%nat; [|lia]. rewrite <- (sum_occ (length ns) pushes Hp).
    clear -Hk. assert (G : forall a, (forall i n, ns !! i = Some n -> (occ (a + i) pushes <= n)%nat) ->
      (sum_list_with (fun i => occ i pushes) (seq a (length ns)) <= sum_list ns)%nat).
    { clear Hk. induction ns as [|n ns IH]; intros a H; cbn; [done|]. pose proof (H 0%nat n eq_refl) as H0. rewrite Nat.add_0_r in H0.
      specialize (IH (S a)). pose proof (IH (fun i x Hi => ltac:(rewrite Nat.add_succ_comm; exact (H (S i) x Hi)))). lia. }
    by apply (G 0%nat).
Qed.

Lemma run_nl_depth m o : run NonlockingConsumer.getDepth (m, o) = Done (HelperQueue.total (NonlockingConsumer._depths o)) (m, o).
Proof. done. Qed.

Lemma listens_updated chs m o : listens chs m o -> listens chs m (updated chs o).
Proof. intros [Hr Hd Hb Hs]. split; [by apply run_updateDepth|done..]. Qed.

Lemma set_consumer_same e o : _RPCConsumerChannel e = Some o -> set_consumer o e = e.
Proof. intros H. unfold set_consumer. rewrite <- H. by destruct e. Qed.

Lemma arrivals_same l : forall k, HelperQueue.arrivals k l l = [].
Proof. induction l as [|z l IH]; intros k; cbn; [done|]. by rewrite Z.sub_diag, IH. Qed.

Lemma noticed_again ns pushes depths : helper_ok ns pushes depths -> noticed ns (noticed ns pushes) = noticed ns pushes.
Proof.
  intros Hok. unfold noticed at 1. rewrite <- (noticed_depths _ _ _ Hok), arrivals_same. apply app_nil_r.
Qed.

Lemma updated_pushes chs o : NonlockingConsumer._channelPushes (updated chs o) = noticed (sizes chs) (NonlockingConsumer._channelPushes o).
Proof. done. Qed.

(** A token is popped from the channel that is first in the queue. *)
Lemma run_pop_listens chs m o i rest :
  listens chs m o -> noticed (sizes chs) (NonlockingConsumer._channelPushes o) = i :: rest ->
  exists m' o', run (NonlockingConsumer.pop 1) (m, o) = Done tt (m', o') /\ listens (alter pop_chan i chs) m' o'.
Proof.
  intros [Hr Hd Hb Hs] E. destruct (noticed_head _ _ _ _ _ Hr E) as (ch & c & Hch & Hc & Hok & Hlen).
  destruct (run_pop_nonlocking chs m o i rest ch 1 Hr E Hch) as (m' & Ep & Hf & Ha); [lia|].
  eexists m', _. split; [exact Ep|]. split; [|exact (disjoint_same chs _ (fun j x => pop_chan_lookup i j chs x) Hd)|exact Hb
    |exact (Forall_same (fun g => gTokenSize g = SIZEOF_RPC_PAYLOAD) chs _ (fun j x => pop_chan_lookup i j chs x) Hs)].
  split; [exact Hf|exact Ha|]. rewrite sizes_pop. exact (helper_pop _ _ _ (nl_helper _ _ _ Hr) _ _ E).
Qed.

(** The two numbers of a request, as they are read from its token. *)
Lemma load_request h p index argument :
  is_size index -> is_size argument -> mem_load h p 16 = Some (request_token index argument) ->
  load_size h p = Some index /\ load_size h (ptr_add p RPC_ARGUMENT_OFFSET) = Some argument.
Proof.
  intros Hi Ha HL. unfold load_size, SIZEOF_SIZE_T.
  pose proof (mem_load_sub _ _ _ _ 0 8 HL ltac:(lia) ltac:(lia) ltac:(lia)) as E1. rewrite ptr_add_0 in E1.
  pose proof (mem_load_sub _ _ _ _ 8 8 HL ltac:(lia) ltac:(lia) ltac:(lia)) as E2. unfold RPC_ARGUMENT_OFFSET. rewrite E1, E2.
  unfold request_token. change (Z.to_nat 8) with 8%nat. change (Z.to_nat 0) with 0%nat. rewrite drop_0.
  rewrite take_app_le, take_ge by (by rewrite length_le_bytes). rewrite drop_app_le by (by rewrite length_le_bytes).
  rewrite (drop_ge (le_bytes 8 index)) by (by rewrite length_le_bytes). cbn [app].
  rewrite take_ge by (by rewrite length_le_bytes). cbn -[le_bytes le_value]. by rewrite !le_value_size.
Qed.

Context {P E : Type} {C : ComputeBackend (State (X := X) (Y := Y) (U := U)) P E}.
Context (createProcessingUnit : nat -> P) (createExecutionState : U -> E).

Abbreviation executeRPC := (executeRPC createProcessingUnit createExecutionState).
Abbreviation parseAndExecuteRPC := (parseAndExecuteRPC createProcessingUnit createExecutionState).
Abbreviation listen := (listen createProcessingUnit createExecutionState).

Lemma run_parse cfg chs o m y e i rest ch index argument toks :
  listens chs m o -> _RPCConsumerChannel e = Some o -> noticed (sizes chs) (NonlockingConsumer._channelPushes o) = i :: rest ->
  chs !! i = Some ch -> ch_tokens ch = request_token index argument :: toks -> is_size index -> is_size argument ->
  exists m' o', listens (alter pop_chan i chs) m' o' /\
    run (parseAndExecuteRPC cfg) ((m, y), e) =
    run (executeRPC cfg index) ((m', y), set_request (Z.of_nat i) argument (set_consumer o' e)).
Proof.
  intros Hl He En Hi Ht Hix Har. pose proof Hl as [Hr Hd Hb Hs].
  destruct (run_nl_peek chs m o Hr) as [_ Hp]. rewrite En in Hp. destruct Hp as (ch' & tok & toks' & pos & Hi' & Ht' & Ep & HL).
  assert (ch' = ch) as -> by congruence. rewrite Ht in Ht'. injection Ht' as <- _.
  rewrite (proj1 (Forall_lookup _ _) Hs i ch Hi) in HL. unfold SIZEOF_RPC_PAYLOAD in HL.
  destruct (load_request _ _ _ _ Hix Har HL) as [L1 L2].
  destruct (Forall2_lookup_l _ _ _ _ _ (nl_chans _ _ _ Hr) Hi) as (c & Hc & Hcon & _).
  destruct (con_ctokens _ _ _ _ Hcon) as [_ (n & _ & Hsl) Hbk _].
  destruct (run_pop_listens chs m (updated chs o) i rest) as (m' & o' & Eo & Hl').
  { by apply listens_updated. } { by rewrite updated_pushes, (noticed_again _ _ _ (nl_helper _ _ _ Hr)). }
  exists m', o'. split; [done|]. unfold RPCEngine.parseAndExecuteRPC.
  rewrite (run_bind_Done _ _ _ _ _ (run_consumer_Done _ _ _ _ _ _ _ _ He Ep)). cbn [fst snd].
  erewrite run_bind_Done.
  2:{ eapply run_consumer_Done; [reflexivity|]. apply run_fetch. unfold NonlockingConsumer.getTokenBuffers. cbn [snd].
      change (NonlockingConsumer._tokenBuffers (updated chs o)) with (NonlockingConsumer._tokenBuffers o).
      rewrite Hb, list_lookup_fmap, Hc. reflexivity. }
  rewrite (run_bind_Done _ _ _ _ _ (run_machine_Done _ _ _ _ _ _ (run_getSource _ _ _ Hbk))).
  rewrite (run_bind_Done _ _ _ _ _ (run_machine_Done _ _ _ _ _ _ (run_getPointer _ _ _ _ Hsl))). cbv zeta.
  rewrite (Z.mul_comm pos). unfold SIZEOF_RPC_PAYLOAD.
  rewrite (run_bind_Done _ _ _ _ _ (run_machine_Done _ _ _ _ _ _ (run_read_size _ _ _ L1))).
  rewrite (run_bind_Done _ _ _ _ _ (run_machine_Done _ _ _ _ _ _ (run_read_size _ _ _ L2))).
  erewrite run_bind_Done; [|eapply run_consumer_Done; [reflexivity|exact Eo]].
  unfold State. rewrite (run_bind_Done _ _ _ _ _ (run_set_this _ _ _)). done.
Qed.

(** The test of the polling loop. *)
Definition has_request : prog (State (X := X) (Y := Y) (U := U)) bool :=
  depth ← on_consumer NonlockingConsumer.getDepth; mret (negb (depth =? 0)).

Lemma run_has_request chs m y e o :
  listens chs m o -> _RPCConsumerChannel e = Some o ->
  run has_request ((m, y), e) = Done (negb (Z.of_nat (length (NonlockingConsumer._channelPushes o)) =? 0)) ((m, y), e).
Proof.
  intros Hl He. unfold has_request. rewrite (run_bind_Done _ _ _ _ _ (run_consumer_Done _ _ _ _ _ _ _ _ He (run_nl_depth m o))).
  by rewrite (helper_total _ _ _ (nl_helper _ _ _ (ls_rep _ _ _ Hl))), (set_consumer_same _ _ He).
Qed.

Lemma run_notice chs m y e o :
  listens chs m o -> _RPCConsumerChannel e = Some o ->
  run (on_consumer NonlockingConsumer.updateDepth) ((m, y), e) = Done tt ((m, y), set_consumer (updated chs o) e).
Proof. intros Hl He. eapply run_consumer_Done; [done|]. apply run_updateDepth, Hl. Qed.

(** Polling ends in the round after a request has arrived. *)
Lemma run_poll_request chs m y e o i rest rounds :
  listens chs m o -> _RPCConsumerChannel e = Some o -> noticed (sizes chs) (NonlockingConsumer._channelPushes o) = i :: rest ->
  exists o', listens chs m o' /\ noticed (sizes chs) (NonlockingConsumer._channelPushes o') = i :: rest /\
    run (poll (S (S rounds)) has_request (on_consumer NonlockingConsumer.updateDepth)) ((m, y), e) = Done tt ((m, y), set_consumer o' e).
Proof.
  intros Hl He En. cbn [poll]. rewrite (run_bind_Done _ _ _ _ _ (run_has_request _ _ _ _ _ Hl He)).
  destruct (NonlockingConsumer._channelPushes o) as [|j l] eqn:Ep.
  - exists (updated chs o). assert (En' : noticed (sizes chs) (NonlockingConsumer._channelPushes (updated chs o)) = i :: rest).
    { rewrite updated_pushes, (noticed_again _ _ _ (nl_helper _ _ _ (ls_rep _ _ _ Hl))), Ep. done. }
    split_and!; [by apply listens_updated|done|]. change (negb (Z.of_nat (@length nat []) =? 0)) with false. cbv iota.
    erewrite run_bind_Done; [|by eapply run_notice].
    erewrite run_bind_Done; [|eapply run_has_request; [by apply listens_updated|reflexivity]].
    by rewrite updated_pushes, Ep, En.
  - exists o. split_and!; [done|by rewrite Ep|]. rewrite (set_consumer_same _ _ He). done.
Qed.

(** Without one it does not end. *)
Lemma run_poll_none chs m y rounds : forall e o,
  listens chs m o -> _RPCConsumerChannel e = Some o -> noticed (sizes chs) (NonlockingConsumer._channelPushes o) = [] ->
  exists e', run (poll rounds has_request (on_consumer NonlockingConsumer.updateDepth)) ((m, y), e) = Blocked ((m, y), e').
Proof.
  induction rounds as [|rounds IH]; intros e o Hl He En; [by exists e|]. cbn [poll].
  rewrite (run_bind_Done _ _ _ _ _ (run_has_request _ _ _ _ _ Hl He)).
  destruct (NonlockingConsumer._channelPushes o) as [|j l] eqn:Ep; [|done]. change (negb (Z.of_nat (@length nat []) =? 0)) with false. cbv iota.
  erewrite run_bind_Done; [|by eapply run_notice].
  apply (IH (set_consumer (updated chs o) e) (updated chs o)); [by apply listens_updated|done|].
  by rewrite updated_pushes, (noticed_again _ _ _ (nl_helper _ _ _ (ls_rep _ _ _ Hl))), Ep.
Qed.

Lemma run_listen cfg chs o m y e i rest ch index argument toks rounds :
  listens chs m o -> _RPCConsumerChannel e = Some o -> noticed (sizes chs) (NonlockingConsumer._channelPushes o) = i :: rest ->
  chs !! i = Some ch -> ch_tokens ch = request_token index argument :: toks -> is_size index -> is_size argument ->
  exists m' o', listens (alter pop_chan i chs) m' o' /\
    run (listen (S (S rounds)) cfg) ((m, y), e) =
    run (executeRPC cfg index) ((m', y), set_request (Z.of_nat i) argument (set_consumer o' e)).
Proof.
  intros Hl He En Hi Ht Hix Har. destruct (run_poll_request chs m y e o i rest rounds Hl He En) as (o1 & Hl1 & En1 & E1).
  unfold RPCEngine.listen. rewrite (run_bind_Done _ _ _ _ _ E1).
  destruct (run_parse cfg chs o1 m y (set_consumer o1 e) i rest ch index argument toks) as (m' & o' & Hl' & E2); [done..|].
  by exists m', o'.
Qed.

Context {RU : RunsUnits (State (X := X) (Y := Y) (U := U)) P E createProcessingUnit}.

(** A known target is run to its end. *)
Lemma run_execute cfg index target st st' :
  _RPCTargetMap st.2 !! index = Some target -> run (body (createExecutionState (executionUnit target))) st = Done tt st' ->
  run (executeRPC cfg index) st = Done tt st'.
Proof.
  intros Ht Hb. destruct (runs_unit _ (_computeResource cfg) _ _ Hb) as (u' & Eu). destruct st as [my e].
  unfold RPCEngine.executeRPC. unfold State in *. rewrite (run_bind_Done _ _ _ _ _ (run_this _ _ _)). cbn [snd] in Ht. rewrite Ht.
  by rewrite run_with_local, Eu.
Qed.

(** [listen] on every branch.  Without a request it waits.  Otherwise the
    oldest request of the channel that is first in the queue is taken out of it;
    when its index names no target, a runtime error is thrown; when it does, and
    the function of the target returns, [listen] returns with the effect of that
    function, run with the requester and the argument of the request. *)
Theorem listen_spec cfg chs o m y e :
  listens chs m o -> _RPCConsumerChannel e = Some o ->
  match noticed (sizes chs) (NonlockingConsumer._channelPushes o) with
  | [] => forall rounds, exists e', run (listen rounds cfg) ((m, y), e) = Blocked ((m, y), e')
  | i :: _ => forall ch index argument toks rounds,
      chs !! i = Some ch -> ch_tokens ch = request_token index argument :: toks -> is_size index -> is_size argument ->
      exists m' o', listens (alter pop_chan i chs) m' o' /\
        let st := ((m', y), set_request (Z.of_nat i) argument (set_consumer o' e)) in
        match _RPCTargetMap e !! index with
        | None => run (listen (S (S rounds)) cfg) ((m, y), e) = Thrown runtime st
        | Some target => forall st', run (body (createExecutionState (executionUnit target))) st = Done tt st' ->
            run (listen (S (S rounds)) cfg) ((m, y), e) = Done tt st'
        end
  end.
Proof.
  intros Hl He. destruct (noticed (sizes chs) (NonlockingConsumer._channelPushes o)) as [|i rest] eqn:En.
  - intros rounds. destruct (run_poll_none chs m y rounds e o Hl He En) as (e' & E'). exists e'.
    unfold RPCEngine.listen. rewrite run_bind. fold has_request. by rewrite E'.
  - intros ch index argument toks rounds Hi Ht Hix Har.
    destruct (run_listen cfg chs o m y e i rest ch index argument toks rounds Hl He En Hi Ht Hix Har) as (m' & o' & Hl' & Er).
    exists m', o'. split; [done|]. cbv zeta. rewrite Er. destruct (_RPCTargetMap e !! index) as [target|] eqn:Et.
    + intros st'. by apply run_execute.
    + unfold RPCEngine.executeRPC, State. rewrite (run_bind_Done _ _ _ _ _ (run_this _ _ _)).
      cbn [set_request set_consumer snd _RPCTargetMap]. by rewrite Et.
Qed.

(** A channel that was idle is alone in the queue after a push. *)
Lemma noticed_push ns pushes depths i :
  helper_ok ns pushes depths -> noticed ns pushes = [] -> helper_ok (alter S i ns) pushes depths -> (i < length ns)%nat ->
  noticed (alter S i ns) pushes = [i].
Proof.
  intros Hok En Hok' Hi. pose proof (proj1 (Forall_lookup _ _) (noticed_none _ _ _ Hok En)) as H0. cbv beta in H0.
  destruct (lookup_lt_is_Some_2 _ _ Hi) as [n Hn].
  assert (Hocc : forall j, (j < length ns)%nat -> occ j (noticed (alter S i ns) pushes) = if decide (i = j) then 1%nat else 0%nat).
  { intros j Hj. destruct (lookup_lt_is_Some_2 _ _ Hj) as [k Hk]. apply (occ_noticed _ _ _ Hok'). case_decide as Hij.
    - subst j. by rewrite list_lookup_alter_eq, Hk, (H0 i k Hk).
    - by rewrite list_lookup_alter_ne, Hk, (H0 j k Hk) by done. }
  pose proof (noticed_bound _ _ _ Hok') as Hb. rewrite length_alter in Hb.
  destruct (noticed (alter S i ns) pushes) as [|a l].
  - specialize (Hocc i Hi). rewrite decide_True in Hocc by done. done.
  - apply Forall_cons in Hb as [Ha Hb]. pose proof (Hocc a Ha) as Oa. rewrite occ_cons, (decide_True (P := a = a)) in Oa by done.
    case_decide; [subst a|lia]. destruct l as [|b l]; [done|]. apply Forall_cons in Hb as [Hb _]. pose proof (Hocc b Hb) as Ob.
    rewrite !occ_cons, (decide_True (P := b = b)) in Ob by done. case_decide; lia.
Qed.

Lemma sum_list_zero (ns : list nat) : Forall (fun n => n = 0%nat) ns -> sum_list ns = 0%nat.
Proof. induction 1 as [|n ns -> _ IH]; [done|]. exact IH. Qed.

Lemma listens_room chs m o i ch :
  listens chs m o -> chs !! i = Some ch -> 0 < gCapacity (ch_geometry ch).
Proof.
  intros Hl Hi. destruct (Forall2_lookup_l _ _ _ _ _ (nl_chans _ _ _ (ls_rep _ _ _ Hl)) Hi) as (c & Hc & Hok & _).
  apply (tb_sizes _ _ _ (con_ptokens _ _ _ _ Hok)).
Qed.

(** C11: a remote procedure call is delivered.  The requester, with the engine [eA],
    sends a request over its channel to a listener that has nothing pending; when
    the listener, with the engine [eB], listens, the function that it has added
    under the name of the request runs, with the argument of the request and the
    index of the requester's channel as the requester. *)
Theorem rpc_delivered cfgA cfgB chs o i ch p target name argument fn m y (eA eB : t U) rounds :
  listens chs m o -> _RPCConsumerChannel eB = Some o -> noticed (sizes chs) (NonlockingConsumer._channelPushes o) = [] ->
  outgoing chs m p -> is_size (hash name) -> is_size argument -> chs !! i = Some ch ->
  ch_first ch + 1 < SIZE_BOUND -> _RPCProducerChannels eA !! target = Some (ch_producer ch) ->
  _RPCTargetMap eB !! hash name = Some (mkTarget name fn) ->
  exists m1 y1 m2 o2, run (requestRPC hash cfgA p target name argument) ((m, y), eA) = Done tt ((m1, y1), eA) /\
    let st := ((m2, y1), set_request (Z.of_nat i) argument (set_consumer o2 eB)) in
    listens (alter pop_chan i (alter (push_chan (request_token (hash name) argument)) i chs)) m2 o2 /\
    forall st', run (body (createExecutionState fn)) st = Done tt st' ->
      run (listen (S (S rounds)) cfgB) ((m1, y1), eB) = Done tt st'.
Proof.
  intros Hl He En Ho Hh Ha Hi Hov Hp Ht. pose proof (nl_helper _ _ _ (ls_rep _ _ _ Hl)) as Hok.
  pose proof (noticed_none _ _ _ Hok En) as H0. pose proof (proj1 (Forall_lookup _ _) H0 _ _ (sizes_lookup _ _ _ Hi)) as Hz. cbv beta in Hz.
  apply nil_length_inv in Hz. destruct (run_request_prefix cfgA chs o p target name argument m y eA Hl Ho Hh Ha)
    as (l & m1 & y1 & Hl1 & Hs & HL & E1).
  destruct (run_push_listens chs m1 o i ch l p 16 _ Hl1 Hi Hs ltac:(done) ltac:(done) HL) as (m2 & E2 & Hl2).
  { rewrite Hz. exact (listens_room _ _ _ _ _ Hl1 Hi). } { rewrite Hz. cbn. lia. }
  { rewrite (sum_list_zero _ H0). done. }
  pose proof (noticed_push _ _ _ i Hok En) as En2. rewrite <- (sizes_push (request_token (hash name) argument)) in En2.
  specialize (En2 (nl_helper _ _ _ (ls_rep _ _ _ Hl2))).
  destruct (run_listen cfgB _ o m2 y1 eB i [] (push_chan (request_token (hash name) argument) ch) (hash name) argument [] rounds Hl2 He)
    as (m3 & o3 & Hl3 & E3); [..|done|done|].
  { apply En2. by eapply lookup_lt_Some, sizes_lookup. } { by rewrite list_lookup_alter_eq, Hi. } { unfold push_chan. cbn. by rewrite Hz. }
  exists m2, y1, m3, o3. rewrite E1, (run_bind_Done _ _ _ _ _ (run_at_Some _ _ _ _ _ _ Hp)), run_engine_machine, E2.
  split; [done|]. split; [done|]. intros st' Hb. rewrite E3. by eapply run_execute.
Qed.
End Engine.
