(* ===== verification/RPCReturnSpec.v ===== *)
(** * Return values of the RPC engine

    A return value is appended to the channel of the requester when the lock is
    free and it fits, and silently lost otherwise; it is fetched whole, unless it
    crosses the end of the payload ring. *)

From S2P Require Import Prelude Memory CommunicationManager Pthreads CircularBuffer Channel TokenBuffer VariableSPSC.
From S2P Require Import VariableMPSC VariableMPSCSpec HwlocTopology MemoryManager RPCEngine Frame RPCEngineSpec.
From Stdlib Require Import ZArith Lia.
From Stdlib.Strings Require Import Byte.
From stdpp Require Import base list gmap option.

Local Open Scope Z_scope.
Local Open Scope hicr_scope.

(** Whether a message fits in a channel. *)
Definition vl_fits (g : vmgeometry) (q : list (list byte)) (msg : list byte) : bool :=
  (bytes_of q + Z.of_nat (length msg) <=? gCapacity (vmPayload g)) && (Z.of_nat (length q) + 1 <=? gCapacity g).

(** The oldest message of a channel does not cross the end of the ring. *)
Definition vl_contiguous (g : vmgeometry) (pt : Z) (msg : list byte) : Prop :=
  pt mod gCapacity (vmPayload g) + Z.of_nat (length msg) <= gCapacity (vmPayload g).

Section Submit.
Context {X Y U : Type} {B : CommBackend X} {CS : CommSpec X} {M : MemoryBackend X Y} {MS : MemorySpec X Y} {RS : RecycleSpec X Y}.
Import RPCEngine.
Implicit Types (m : Machine X) (y : Y) (e : RPCEngine.t U) (g : vmgeometry) (c : VLConsumer.t) (p : VLProducer.t).

(** A copy of the value in memory of its own. *)
Lemma run_submit_copy cfg m y e sp msg :
  can_recycle y (_bufferMemorySpace cfg) -> mem_load (heap m) sp (Z.of_nat (length msg)) = Some msg ->
  Z.of_nat (length msg) <= PTRDIFF_MAX ->
  exists l b cs m1 m2 y2, keeps (eq b) m m2 /\ heap m !! b = None /\ owns y2 l b /\
    slot_at m2 l (Ptr b 0) (Z.of_nat (length msg)) /\ mem_load (heap m2) (Ptr b 0) (Z.of_nat (length msg)) = Some msg /\
    heap m1 = <[b := cs]> (heap m) /\ Z.of_nat (length cs) = Z.of_nat (length msg) /\ stored m1 (Ptr b 0) msg m2 /\
    run (submitReturnValue cfg sp (Z.of_nat (length msg))) ((m, y), e) =
    run (idx ← this _requesterInstanceIdx; channel ← at_ _returnValueProducerChannels idx;
         _ ← on_machine (VLProducer.push channel l 1); on_memory (MemoryManager.freeLocalMemorySlot l)) ((m2, y2), e).
Proof.
  intros Hc HL Hmax. set (n := Z.of_nat (length msg)) in *.
  destruct (recycle_allocate m y (_bufferMemorySpace cfg) n Hc ltac:(lia)) as (l & b & cs & m0 & y0 & E0 & Hn & Hh0 & Hcs & Hown).
  destruct (register_ok m0 y0 (_bufferMemorySpace cfg) sp n) as (l1 & m1 & y1 & E1 & He1 & Hh1 & _ & Hs1 & _).
  assert (Hown1 : owns y1 l b). { eapply recycle_register; [exact E1| |done]. destruct (new_slot_at _ _ _ _ _ Hn) as (s & Hs & _). by exists s. }
  assert (Hl1 : slot_at m1 l (Ptr b 0) n) by (eapply extends_slot_at; [exact He1|apply Hn]).
  destruct (run_memcpyLL_ok (_communicationManager cfg) l 0 l1 0 n m1 (Ptr b 0) n sp n msg) as (m2 & E2 & St);
    [done|done|size_lia|lia|size_lia|lia| | |].
  { rewrite ptr_add_0, Hh1. eapply extends_load; [apply Hn|done]. } { rewrite ptr_add_0, Hh1. apply Hn. }
  rewrite ptr_add_0 in St. exists l, b, cs, m1, m2, y1. split_and!; try done.
  - eapply keeps_trans; [apply keeps_extends, Hn|]. eapply keeps_trans; [by apply keeps_extends|]. by eapply keeps_stored.
  - apply Hn.
  - by apply (stored_slot_at _ _ _ _ _ _ _ St).
  - exact (stored_same _ _ _ _ St).
  - by rewrite Hh1.
  - unfold submitReturnValue. rewrite (run_bind_Done _ _ _ _ _ (run_memory_Done _ _ _ _ _ _ _ E0)).
    rewrite (run_bind_Done _ _ _ _ _ (run_memory_Done _ _ _ _ _ _ _ E1)), (run_bind_Done _ _ _ _ _ (run_machine_Done _ _ _ _ _ _ E2)).
    erewrite run_bind_Done; [reflexivity|]. apply run_machine_Done, fenceImplLocal_ok.
Qed.

(** The temporary memory is given back. *)
Lemma run_submit_free m2 m3 y2 e l b cs m m1 msg R :
  heap m !! b = None -> heap m1 = <[b := cs]> (heap m) -> length cs = length msg -> stored m1 (Ptr b 0) msg m2 -> writes R m2 m3 ->
  owns y2 l b -> slot_at m2 l (Ptr b 0) (Z.of_nat (length msg)) ->
  exists y3, run (on_memory (MemoryManager.freeLocalMemorySlot l)) ((m3, y2), e) = Done tt ((set_heap (delete b (heap m3)) m3, y3), e) /\
    dom (heap (set_heap (delete b (heap m3)) m3)) = dom (heap m).
Proof.
  intros Hb Hh Hcs St W Hown Hs. destruct (stored_block _ _ _ _ cs St) as (c2 & HL2 & Hh2); [rewrite Hh; apply lookup_insert_eq|].
  destruct (writes_block R m2 m3 b c2 W) as (c3 & Hc3 & HL3); [rewrite Hh2; apply lookup_insert_eq|].
  destruct (recycle_free m3 y2 l b c3 Hown) as (y3 & E3); [|done|].
  { rewrite HL3, HL2, Hcs. by apply (writes_slot_at _ _ _ _ _ _ W). }
  exists y3. split; [by apply run_memory_Done|]. change (dom (delete b (heap m3)) = dom (heap m)).
  rewrite dom_delete_L, (writes_dom _ _ _ W), (stored_dom _ _ _ _ St), Hh, dom_insert_L.
  apply not_elem_of_dom in Hb. rewrite difference_union_distr_l_L, difference_diag_L, (left_id_L ∅ (∪)).
  apply difference_disjoint_L. by apply disjoint_singleton_r.
Qed.

Lemma run_submit cfg g c pc pp info p m y e sp msg t pt q held :
  vlcontent g c m t pt q -> vlattached g c pc pp info p m ->
  locked (backend m) (VLConsumer._consumerCoordinationBufferForCounts c) = Some held ->
  can_recycle y (_bufferMemorySpace cfg) -> mem_load (heap m) sp (Z.of_nat (length msg)) = Some msg ->
  Z.of_nat (length msg) <= PTRDIFF_MAX ->
  t + Z.of_nat (length q) + 1 < SIZE_BOUND -> pt + bytes_of q + Z.of_nat (length msg) < SIZE_BOUND ->
  match _returnValueProducerChannels e !! _requesterInstanceIdx e with
  | None => exists m' y', run (submitReturnValue cfg sp (Z.of_nat (length msg))) ((m, y), e) = Thrown out_of_range ((m', y'), e) /\
      vlcontent g c m' t pt q
  | Some channel => channel = p -> exists m' y',
      run (submitReturnValue cfg sp (Z.of_nat (length msg))) ((m, y), e) = Done tt ((m', y'), e) /\
      vlcontent g c m' t pt (if negb held && vl_fits g q msg then q ++ [msg] else q) /\
      locked (backend m') (VLConsumer._consumerCoordinationBufferForCounts c) = Some held /\ dom (heap m') = dom (heap m)
  end.
Proof.
  intros Hcon Hat Hlock Hc HL Hmax Hov Hpov.
  destruct (run_submit_copy cfg m y e sp msg Hc HL Hmax) as (l & b & cs & m1 & m2 & y2 & Hk & Hb & Hown & Hs & HL2 & Hh1 & Hcs & St & E).
  rewrite E. pose proof (vlcontent_clear _ _ _ _ _ _ _ Hcon Hb) as Hcl. pose proof (vlattached_clear _ _ _ _ _ _ _ _ Hat Hb) as Hce.
  pose proof (keeps_vlcontent _ _ _ _ _ _ _ _ Hk Hcl Hcon) as Hcon2. pose proof (keeps_vlattached _ _ _ _ _ _ _ _ _ Hk Hcl Hce Hat) as Hat2.
  rewrite (run_bind_Done _ _ _ _ _ (run_this _ _ _)). cbn [snd].
  destruct (_returnValueProducerChannels e !! _requesterInstanceIdx e) as [channel|] eqn:Ec.
  2:{ exists m2, y2. split; [|done]. pose proof (run_at_None _ _ m2 y2 e Ec) as Ea. unfold State in Ea. by rewrite run_bind, Ea. }
  intros ->. erewrite run_bind_Done; [|exact (run_at_Some _ _ _ _ _ _ Ec)].
  assert (Hap : apart (vl_footprint g pc pp info) (Ptr b 0) (Z.of_nat (length msg))).
  { destruct Hcl as (? & ? & ? & ?), Hce as (? & ? & ?). apply clear_apart. by repeat constructor. }
  destruct (run_vl_push g c pc pp info p m2 l (Ptr b 0) msg t pt q held Hcon2 Hat2) as [_ Hpush]; [|done..|].
  { by rewrite (k_backend _ _ _ Hk). }
  assert (Hp : exists sent m3, run (VLProducer.push p l 1) m2 = Done sent m3 /\ writes (vl_footprint g pc pp info) m2 m3 /\
    vlcontent g c m3 t pt (if negb held && vl_fits g q msg then q ++ [msg] else q)).
  { destruct held; [exists false, m2; split_and!; [done|apply writes_refl|done]|].
    destruct Hpush as (m3 & Ep & W & Hr & _). by eexists _, m3. }
  destruct Hp as (sent & m3 & Ep & W & Hcon3). erewrite run_bind_Done; [|exact (run_machine_Done _ _ _ _ _ _ Ep)].
  destruct (run_submit_free m2 m3 y2 e l b cs m m1 msg _ Hb Hh1 ltac:(lia) St W Hown Hs) as (y3 & Ef & Hd).
  eexists _, y3. split_and!; [exact Ef| | |exact Hd].
  - by eapply keeps_vlcontent; [apply keeps_delete| |].
  - cbn. by rewrite (writes_backend _ _ _ W), (k_backend _ _ _ Hk).
Qed.

(** [submitReturnValue] on every branch.  A requester for which there is no
    channel is refused with [out_of_range].  Otherwise it returns normally, and
    gives back its temporary memory, whether or not the value has been sent: the
    value is appended to the channel of the requester when the lock of the channel
    is free and the value fits, and is lost when not. *)
Theorem submit_spec cfg g c pc pp info p m y e sp msg t pt q held :
  vlcontent g c m t pt q -> vlattached g c pc pp info p m ->
  locked (backend m) (VLConsumer._consumerCoordinationBufferForCounts c) = Some held ->
  can_recycle y (_bufferMemorySpace cfg) -> mem_load (heap m) sp (Z.of_nat (length msg)) = Some msg ->
  Z.of_nat (length msg) <= PTRDIFF_MAX ->
  t + Z.of_nat (length q) + 1 < SIZE_BOUND -> pt + bytes_of q + Z.of_nat (length msg) < SIZE_BOUND ->
  match _returnValueProducerChannels e !! _requesterInstanceIdx e with
  | None => exists m' y', run (submitReturnValue cfg sp (Z.of_nat (length msg))) ((m, y), e) = Thrown out_of_range ((m', y'), e) /\
      vlcontent g c m' t pt q
  | Some channel => channel = p -> exists m' y',
      run (submitReturnValue cfg sp (Z.of_nat (length msg))) ((m, y), e) = Done tt ((m', y'), e) /\
      vlcontent g c m' t pt (if negb held && vl_fits g q msg then q ++ [msg] else q) /\
      locked (backend m') (VLConsumer._consumerCoordinationBufferForCounts c) = Some held /\ dom (heap m') = dom (heap m)
  end.
Proof. apply run_submit. Qed.

End Submit.

Section Fetch.
Context {X Y U : Type} {B : CommBackend X} {CS : CommSpec X} {M : MemoryBackend X Y} {MS : MemorySpec X Y}.
Import RPCEngine.
Implicit Types (m : Machine X) (y : Y) (e : RPCEngine.t U) (g : vmgeometry) (c : VLConsumer.t).

(** The test of the waiting loop. *)
Lemma run_vl_isEmpty g c m y e t pt q :
  vlcontent g c m t pt q ->
  run (empty ← on_machine (VLConsumer.isEmpty c); mret (negb empty)) ((m, y), e) = Done (negb (Z.of_nat (length q) =? 0)) ((m, y), e).
Proof.
  intros [Hc HC _ Hlen _ _ _]. erewrite run_bind_Done; [reflexivity|]. apply run_machine_Done.
  unfold VLConsumer.isEmpty, VLConsumer.getDepth. rewrite (vlc_counts _ _ _ Hc).
  erewrite run_bind_Done; [|apply (run_getDepth_ok _ _ _ _ HC); lia]. cbn [run mret prog_mret]. do 2 f_equal. lia.
Qed.

Lemma run_return_consumer m y e c : _returnValueConsumerChannel e = Some c -> run return_consumer ((m, y), e) = Done c ((m, y), e).
Proof. intros H. by apply run_fetch. Qed.

(** With a message in the channel a block for it is allocated. *)
Lemma run_fetch_prefix cfg g c m y e t pt msg q rounds :
  vlcontent g c m t pt (msg :: q) -> _returnValueConsumerChannel e = Some c -> can_allocate y (_bufferMemorySpace cfg) ->
  exists l b m1 y1, new_slot m l b (Z.of_nat (length msg)) m1 /\ vlcontent g c m1 t pt (msg :: q) /\
    run (getReturnValue (S rounds) cfg) ((m, y), e) =
    run (_ ← on_machine (CommunicationManager.memcpyLG (_communicationManager cfg) l 0
                (VLConsumer.getPayloadBufferMemorySlot c) (pt mod gCapacity (vmPayload g)) (Z.of_nat (length msg)));
         _ ← on_machine (CommunicationManager.fenceLocal (_communicationManager cfg) l 1 0);
         _ ← on_machine (VLConsumer.pop c 1);
         mret l) ((m1, y1), e).
Proof.
  intros Hcon He Ha. destruct (allocate_ok m y (_bufferMemorySpace cfg) (Z.of_nat (length msg)) Ha ltac:(lia))
    as (l & b & m1 & y1 & E1 & Hn). exists l, b, m1, y1. split_and!; [done| |].
  - eapply keeps_vlcontent; [apply keeps_extends, Hn|by eapply vlcontent_clear, Hn|done].
  - unfold getReturnValue. erewrite run_bind_Done; [|by apply run_return_consumer]. cbn [poll].
    erewrite run_bind_Done.
    2:{ erewrite run_bind_Done; [|by eapply run_vl_isEmpty]. reflexivity. }
    destruct (vlocking_peek_spec g c m t pt (msg :: q) Hcon) as [Ep _].
    erewrite run_bind_Done; [|exact (run_machine_Done _ _ _ _ _ _ Ep)]. cbn [fst snd].
    by erewrite run_bind_Done; [|exact (run_memory_Done _ _ _ _ _ _ _ E1)].
Qed.

(** The bytes of a message that does not cross the end of the ring. *)
Lemma vl_message g c m t pt msg q :
  vlcontent g c m t pt (msg :: q) -> vl_contiguous g pt msg ->
  mem_load (heap m) (ptr_add (gTokens (vmPayload g)) (pt mod gCapacity (vmPayload g))) (Z.of_nat (length msg)) = Some msg.
Proof.
  intros Hcon Hct. pose proof Hcon as [Hc _ _ _ _ _ _]. destruct (vlc_payload _ _ _ Hc) as [(_ & Hcap & _) _ _ Hacc].
  destruct (vlocking_peek_spec g c m t pt (msg :: q) Hcon) as [_ Hby]. unfold vl_contiguous in Hct.
  pose proof (Z.mod_pos_bound pt _ Hcap). rewrite (vlc_byte _ _ _ Hc), Z.mul_1_l in Hacc. apply load_bytes.
  - eapply accessible_sub; [exact Hacc|lia..].
  - intros i x Hi. pose proof (lookup_lt_Some _ _ _ Hi). rewrite ptr_add_add.
    rewrite <- (Hby i x Hi). do 2 f_equal. rewrite <- Z.add_mod_idemp_l by lia. symmetry. apply Z.mod_small. lia.
Qed.

Lemma run_fetch_message cfg g c m y e t pt msg q rounds :
  vl_rep g c m t pt (msg :: q) -> _returnValueConsumerChannel e = Some c -> can_allocate y (_bufferMemorySpace cfg) -> vl_contiguous g pt msg ->
  exists l b m' y', run (getReturnValue (S rounds) cfg) ((m, y), e) = Done l ((m', y'), e) /\
    heap m !! b = None /\ slot_at m' l (Ptr b 0) (Z.of_nat (length msg)) /\
    mem_load (heap m') (Ptr b 0) (Z.of_nat (length msg)) = Some msg /\ vl_rep g c m' (t + 1) (pt + Z.of_nat (length msg)) q.
Proof.
  intros [Hcon Hfree] He Ha Hct. pose proof Hcon as [Hc _ _ _ Hb _ _].
  destruct (run_fetch_prefix cfg g c m y e t pt msg q rounds Hcon He Ha) as (l & b & m1 & y1 & Hn & Hcon1 & E). rewrite E.
  destruct (vlc_payload _ _ _ (vl_consumer _ _ _ _ _ _ Hcon1)) as [(_ & Hcap & Hmax) (sz & Hsz & Hsl) Hbk _].
  rewrite (vlc_byte _ _ _ Hc), Z.mul_1_l in Hsz, Hmax. unfold vl_contiguous in Hct. pose proof (Z.mod_pos_bound pt _ Hcap).
  destruct (run_memcpyLG_ok (_communicationManager cfg) l 0 (VLConsumer._payloadBuffer c) _ (pt mod gCapacity (vmPayload g))
    (Z.of_nat (length msg)) m1 (Ptr b 0) _ _ sz msg Hbk (new_slot_at _ _ _ _ _ Hn) Hsl) as (m2 & E2 & St);
    [size_lia|lia|size_lia|lia|by eapply vl_message|rewrite ptr_add_0; apply Hn|].
  rewrite ptr_add_0 in St. erewrite run_bind_Done; [|exact (run_machine_Done _ _ _ _ _ _ E2)].
  erewrite run_bind_Done; [|apply run_machine_Done, fenceImplLocal_ok].
  pose proof (vlcontent_clear _ _ _ _ _ _ _ Hcon (new_block _ _ _ _ _ Hn)) as Hcl.
  destruct (run_vl_pop_one g c m2 t pt msg q) as (m3 & E3 & Hr3 & W).
  { split; [eapply keeps_vlcontent; [by eapply keeps_stored| |]; done|]. unfold vl_free.
    by rewrite (stored_backend _ _ _ _ St), (ext_backend _ _ (new_extends _ _ _ _ _ Hn)). }
  erewrite run_bind_Done; [|exact (run_machine_Done _ _ _ _ _ _ E3)]. exists l, b, m3, y1. split_and!; [done|apply Hn| | |done].
  - apply (writes_slot_at _ _ _ _ _ _ W), (stored_slot_at _ _ _ _ _ _ _ St), Hn.
  - rewrite (writes_load _ _ _ _ _ W); [exact (stored_same _ _ _ _ St)|]. destruct Hcl as (_ & _ & ? & ?). apply clear_apart. by repeat constructor.
Qed.

End Fetch.

Section Values.
Context {X Y U : Type} {B : CommBackend X} {CS : CommSpec X} {M : MemoryBackend X Y} {MS : MemorySpec X Y} {RS : RecycleSpec X Y}.
Import RPCEngine.
Implicit Types (m : Machine X) (y : Y) (e : RPCEngine.t U) (g : vmgeometry) (c : VLConsumer.t).

(** [getReturnValue] waits as long as there is no return value.  Otherwise it
    takes the oldest one out of the channel and returns a slot of its size, in
    memory of its own, that holds it, provided that the value does not cross the
    end of the payload ring. *)
Theorem return_value_spec cfg g c m y e t pt q :
  vl_rep g c m t pt q -> _returnValueConsumerChannel e = Some c -> can_allocate y (_bufferMemorySpace cfg) ->
  match q with
  | [] => forall rounds, run (getReturnValue rounds cfg) ((m, y), e) = Blocked ((m, y), e)
  | msg :: q' => vl_contiguous g pt msg -> forall rounds, exists l b m' y',
      run (getReturnValue (S rounds) cfg) ((m, y), e) = Done l ((m', y'), e) /\
      heap m !! b = None /\ slot_at m' l (Ptr b 0) (Z.of_nat (length msg)) /\
      mem_load (heap m') (Ptr b 0) (Z.of_nat (length msg)) = Some msg /\ vl_rep g c m' (t + 1) (pt + Z.of_nat (length msg)) q'
  end.
Proof.
  intros Hr He Ha. destruct q as [|msg q].
  - intros rounds. unfold getReturnValue. erewrite run_bind_Done; [|by apply run_return_consumer].
    rewrite run_bind, run_poll_never; [done|exact (run_vl_isEmpty g c m y e t pt [] (proj1 Hr))|done].
  - intros Hct rounds. by apply run_fetch_message.
Qed.

(** C12: a return value makes the round trip.  What a function submits, when the
    channel of the requester is empty and free, the requester gets: the same bytes,
    in a slot of their own. *)
Theorem return_value_roundtrip cfgA cfgB g c pc pp info p m yB (eA eB : t U) sp msg t pt rounds :
  vl_rep g c m t pt [] -> vlattached g c pc pp info p m -> _returnValueConsumerChannel eA = Some c ->
  _returnValueProducerChannels eB !! _requesterInstanceIdx eB = Some p ->
  can_recycle yB (_bufferMemorySpace cfgB) -> mem_load (heap m) sp (Z.of_nat (length msg)) = Some msg ->
  vl_contiguous g pt msg -> t + 1 < SIZE_BOUND -> pt + Z.of_nat (length msg) < SIZE_BOUND ->
  exists m1 yB', run (submitReturnValue cfgB sp (Z.of_nat (length msg))) ((m, yB), eB) = Done tt ((m1, yB'), eB) /\
    forall yA, can_allocate yA (_bufferMemorySpace cfgA) -> exists l b m2 yA',
      run (getReturnValue (S rounds) cfgA) ((m1, yA), eA) = Done l ((m2, yA'), eA) /\
      slot_at m2 l (Ptr b 0) (Z.of_nat (length msg)) /\ mem_load (heap m2) (Ptr b 0) (Z.of_nat (length msg)) = Some msg /\
      vl_rep g c m2 (t + 1) (pt + Z.of_nat (length msg)) [].
Proof.
  intros [Hcon Hfree] Hat HeA HeB Hc HL Hct Hov Hpov. pose proof (vl_consumer _ _ _ _ _ _ Hcon) as Hok.
  pose proof (tb_sizes _ _ _ (vlc_payload _ _ _ Hok)) as (_ & Hcap & Hmax). rewrite (vlc_byte _ _ _ Hok), Z.mul_1_l in Hmax.
  pose proof (tb_sizes _ _ _ (vlc_tokens _ _ _ Hok)) as (_ & Hcap2 & _). pose proof (Z.mod_pos_bound pt _ Hcap). unfold vl_contiguous in Hct.
  pose proof (run_submit cfgB g c pc pp info p m yB eB sp msg t pt [] false Hcon Hat Hfree Hc HL ltac:(lia)) as Hs.
  rewrite HeB in Hs. destruct Hs as (m1 & yB' & E & Hcon1 & Hf1 & _); [cbn; lia|change (bytes_of []) with 0; lia|done|]. exists m1, yB'. split; [done|]. intros yA Ha.
  assert (Hfit : vl_fits g [] msg = true). { unfold vl_fits. change (bytes_of []) with 0. cbn [length]. apply andb_true_intro. split; apply Z.leb_le; lia. }
  rewrite Hfit in Hcon1. destruct (run_fetch_message cfgA g c m1 yA eA t pt msg [] rounds (conj Hcon1 Hf1) HeA Ha Hct)
    as (l & b & m2 & yA' & E2 & _ & H2). by exists l, b, m2, yA'.
Qed.

End Values.

(** ** Over the pthreads backend *)

Section Crossing.
Context {Y U : Type} {M : MemoryBackend Core.t Y} {MS : MemorySpec Core.t Y}.
Import RPCEngine.

(** C28: a return value that crosses the end of the payload ring cannot be fetched.
    [getReturnValue] copies it as one contiguous piece, which is longer than what
    is left of the payload slot: the copy throws, and the value stays where it is. *)
Theorem return_value_crossing cfg (g : vmgeometry) c (m : Machine Core.t) (y : Y) (e : t U) t0 pt msg q rounds :
  vl_rep g c m t0 pt (msg :: q) -> _returnValueConsumerChannel e = Some c -> can_allocate y (_bufferMemorySpace cfg) ->
  slot_at m (gTokensSlot (vmPayload g)) (gTokens (vmPayload g)) (gCapacity (vmPayload g)) -> ~ vl_contiguous g pt msg ->
  exists m' y', run (getReturnValue (S rounds) cfg) ((m, y), e) = Thrown runtime ((m', y'), e) /\ vl_rep g c m' t0 pt (msg :: q).
Proof.
  intros [Hcon Hfree] He Ha Hsl Hct. pose proof Hcon as [Hc _ _ _ Hb _ _].
  destruct (run_fetch_prefix cfg g c m y e t0 pt msg q rounds Hcon He Ha) as (l & b & m1 & y1 & Hn & Hcon1 & E). rewrite E.
  exists m1, y1. split; [|split; [done|]; unfold vl_free; by rewrite (ext_backend _ _ (new_extends _ _ _ _ _ Hn))].
  destruct (vlc_payload _ _ _ (vl_consumer _ _ _ _ _ _ Hcon1)) as [(_ & Hcap & Hmax) _ Hbk _].
  rewrite (vlc_byte _ _ _ Hc), Z.mul_1_l in Hmax. unfold vl_contiguous in Hct. pose proof (Z.mod_pos_bound pt _ Hcap).
  apply (extends_slot_at _ m1) in Hsl; [|apply Hn]. rewrite bytes_of_cons in Hb. pose proof (bytes_of_nonneg q).
  assert (Ec : run (CommunicationManager.memcpyLG (_communicationManager cfg) l 0 (VLConsumer.getPayloadBufferMemorySlot c)
      (pt mod gCapacity (vmPayload g)) (Z.of_nat (length msg))) m1 = Thrown runtime m1).
  { unfold CommunicationManager.memcpyLG. rewrite (run_bind_Done _ _ _ _ _ (run_getSize _ _ _ _ (new_slot_at _ _ _ _ _ Hn))). cbv zeta.
    erewrite run_bind_Done by (apply run_throw_if_false, gtb_wrap_false; size_lia). cbn [memcpyImplLG pthreads_backend].
    unfold PthreadsCommunicationManager.memcpyImplLG, VLConsumer.getPayloadBufferMemorySlot.
    rewrite (run_bind_Done _ _ _ _ _ (run_getSource _ _ _ Hbk)). unfold CommunicationManager.memcpyLL_with. rewrite run_bind.
    rewrite (run_bind_Done _ _ _ _ _ (run_getSize _ _ _ _ Hsl)).
    rewrite (run_bind_Done _ _ _ _ _ (run_getSize _ _ _ _ (new_slot_at _ _ _ _ _ Hn))). cbv zeta.
    rewrite run_bind, run_throw_if_true; [done|]. rewrite wrap64_small by size_lia. case_bool; lia. }
  by apply run_machine_Thrown.
Qed.

End Crossing.
