(* ===== verification/RPCWiringSpec.v ===== *)
(** * How the RPC engine connects its channels

    Which buffers the producer channels of an engine are made of. *)

From S2P Require Import Prelude Memory CommunicationManager Channel FixedSPSC FixedMPSCNonlocking VariableMPSC.
From S2P Require Import HwlocTopology MemoryManager RPCEngine RPCEngineSpec.
From Stdlib Require Import ZArith Lia.
From stdpp Require Import base list gmap option.

Local Open Scope Z_scope.
Local Open Scope hicr_scope.

Section Wiring.
Context {X Y U : Type} {B : CommBackend X} {M : MemoryBackend X Y}.
Import RPCEngine.
Implicit Types (m : Machine X) (y : Y) (e : RPCEngine.t U) (cfg : config).

(** The slot that has been exchanged under a tag and a key. *)
Definition exchanged cfg m (tag key : Z) (g : nat) : Prop :=
  run (CommunicationManager.getGlobalMemorySlot (_communicationManager cfg) tag key) m = Done g m.

(** The buffers that the [i]-th producer channel is made of: the token buffer and
    the coordination buffer of the consumer, which are global slots, and the
    coordination buffer of the producer, which is a local one. *)
Record buffers : Type := mkBuffers { bToken : nat; bConsumer : nat; bProducer : nat; bLocal : nat }.

(** They have been exchanged under keys made of [i]. *)
Definition exchanged_buffers cfg m (i : nat) (b : buffers) : Prop :=
  exchanged cfg m (TOKEN_BUFFER_TAG cfg) (remoteSlotKey cfg (Z.of_nat i)) (bToken b) /\
  exchanged cfg m (PRODUCER_COORDINATION_BUFFER_TAG cfg) (localSlotKey cfg (Z.of_nat i)) (bProducer b) /\
  exchanged cfg m (CONSUMER_COORDINATION_BUFFER_TAG cfg) (remoteSlotKey cfg (Z.of_nat i)) (bConsumer b) /\
  backed_by m (bProducer b) (bLocal b) /\ exists p n, slot_at m (bLocal b) p n /\ 16 <= n.

(** The channel [p] is over the buffers [b]. *)
Definition over (b : buffers) (p : Producer.t) : Prop :=
  Producer._tokenBuffer p = bToken b /\ Producer._consumerCoordinationBuffer p = bConsumer b /\ Producer.coordination p = bLocal b.

Definition triple (b : buffers) : nat * nat * nat := (bToken b, bProducer b, bConsumer b).

Lemma run_get_slots cfg m y e bs :
  length bs = instanceCount cfg -> (forall i b, bs !! i = Some b -> exchanged_buffers cfg m i b) ->
  run (map_each (fun i =>
         token ← get_slot cfg (TOKEN_BUFFER_TAG cfg) (remoteSlotKey cfg i);
         producer ← get_slot cfg (PRODUCER_COORDINATION_BUFFER_TAG cfg) (localSlotKey cfg i);
         consumer ← get_slot cfg (CONSUMER_COORDINATION_BUFFER_TAG cfg) (remoteSlotKey cfg i);
         mret (token, producer, consumer)) (indices cfg)) ((m, y), e) = Done (map triple bs) ((m, y), e).
Proof.
  intros Hlen Hb. apply run_map_each_pure, Forall2_same_length_lookup. unfold indices. split.
  { rewrite length_seqZ, length_map, Hlen. lia. }
  intros i z x Hz Hx. apply lookup_seqZ in Hz as [-> Hi]. rewrite Z.add_0_l. apply list_lookup_fmap_Some in Hx as (b & -> & Hbi).
  destruct (Hb i b Hbi) as (E1 & E2 & E3 & _). unfold get_slot.
  erewrite run_bind_Done; [|exact (run_machine_Done _ _ _ _ _ _ E1)].
  erewrite run_bind_Done; [|exact (run_machine_Done _ _ _ _ _ _ E2)].
  by erewrite run_bind_Done; [|exact (run_machine_Done _ _ _ _ _ _ E3)].
Qed.

Lemma run_add_producer cfg m y e i id b :
  exchanged_buffers cfg m i b ->
  exists p, over b p /\
    run (src ← on_machine (VLConsumer.source_of (bProducer b));
         p ← on_machine (NonlockingProducer.make (_communicationManager cfg) (_communicationManager cfg)
               (bToken b) src (bConsumer b) SIZEOF_RPC_PAYLOAD _HICR_RPC_ENGINE_CHANNEL_COUNT_CAPACITY);
         set_this (fun g => set_producers (<[id := p]> (_RPCProducerChannels g)) g)) ((m, y), e)
    = Done tt ((m, y), set_producers (<[id := p]> (_RPCProducerChannels e)) e).
Proof.
  intros (_ & _ & _ & Hbk & p & n & Hs & Hn).
  set (pr := Producer.mk (Base.mk (_communicationManager cfg) (_communicationManager cfg) (bLocal b) SIZEOF_RPC_PAYLOAD
    (Base.circular_buffer_at _HICR_RPC_ENGINE_CHANNEL_COUNT_CAPACITY p)) (bToken b) (bConsumer b)).
  assert (E1 : run (VLConsumer.source_of (bProducer b)) m = Done (bLocal b) m).
  { unfold VLConsumer.source_of. by erewrite run_bind_Done; [|exact (run_getSource _ _ _ Hbk)]. }
  assert (E2 : run (NonlockingProducer.make (_communicationManager cfg) (_communicationManager cfg)
      (bToken b) (bLocal b) (bConsumer b) SIZEOF_RPC_PAYLOAD _HICR_RPC_ENGINE_CHANNEL_COUNT_CAPACITY) m = Done pr m).
  { unfold NonlockingProducer.make, Producer.make. erewrite run_bind_Done; [reflexivity|].
    rewrite (run_Base_make m _ _ _ _ _ p n Hs). cbn. case_bool; [lia|]. reflexivity. }
  exists pr. split; [done|]. erewrite run_bind_Done; [|exact (run_machine_Done _ _ _ _ _ _ E1)].
  by erewrite run_bind_Done; [|exact (run_machine_Done _ _ _ _ _ _ E2)].
Qed.

(** The engine connects its producer channels by position.  When the buffers of
    all instances have been exchanged, [initializeRPCChannels] makes a producer for
    every instance; the one it stores under the identifier of the [i]-th instance of
    the instance manager's list is over the buffers exchanged by the instance whose
    identifier is [i], which is another one unless the list is ordered by
    identifier. *)
Theorem producers_wired cfg m y e bs :
  length bs = instanceCount cfg -> (forall i b, bs !! i = Some b -> exchanged_buffers cfg m i b) -> NoDup (instances cfg) ->
  exists e', run (connect_producers cfg) ((m, y), e) = Done tt ((m, y), e') /\
    forall i id b, instances cfg !! i = Some id -> bs !! i = Some b ->
      exists p, _RPCProducerChannels e' !! id = Some p /\ over b p.
Proof.
  intros Hlen Hb Hnd. unfold connect_producers. rewrite (run_bind_Done _ _ _ _ _ (run_get_slots cfg m y e bs Hlen Hb)).
  destruct (run_for_each_inv (fun pre (st : State) => exists e', st = ((m, y), e') /\
      forall k x, pre !! k = Some x -> exists b p, bs !! k = Some b /\ _RPCProducerChannels e' !! x.1 = Some p /\ over b p)
    (fun '(consumerInstanceId, (token, producer, consumer)) =>
      src ← on_machine (VLConsumer.source_of producer);
      p ← on_machine (NonlockingProducer.make (_communicationManager cfg) (_communicationManager cfg)
            token src consumer SIZEOF_RPC_PAYLOAD _HICR_RPC_ENGINE_CHANNEL_COUNT_CAPACITY);
      set_this (fun g => set_producers (<[consumerInstanceId := p]> (_RPCProducerChannels g)) g))
    (zip (instances cfg) (map triple bs)) [] ((m, y), e)) as (st & E & e' & -> & HF).
  - by exists e.
  - intros pre [id x] t (post & Epre) (e' & -> & HF). cbn [app] in Epre.
    assert (Hz : forall k z, pre !! k = Some z -> instances cfg !! k = Some z.1).
    { intros k [z1 z2] Hk. apply (lookup_app_l_Some _ ((id, x) :: post)) in Hk. rewrite <- Epre in Hk. by apply lookup_zip_Some in Hk as [? _]. }
    assert (Hk : zip (instances cfg) (map triple bs) !! length pre = Some (id, x)) by (rewrite Epre; by apply list_lookup_middle).
    apply lookup_zip_Some in Hk as [Hid Hx]. apply list_lookup_fmap_Some in Hx as (b & -> & Hbk).
    destruct (run_add_producer cfg m y e' (length pre) id b (Hb _ _ Hbk)) as (p & Hov & Ep).
    eexists. split; [exact Ep|]. eexists. split; [reflexivity|]. intros k z Hkz. apply lookup_app_Some in Hkz as [Hkz|[Hge Hkz]].
    + destruct (HF k z Hkz) as (b' & p' & ? & Hp' & ?). exists b', p'. split_and!; [done| |done]. cbn.
      rewrite lookup_insert_ne; [done|]. intros ->. pose proof (NoDup_lookup _ _ _ _ Hnd Hid (Hz _ _ Hkz)).
      apply lookup_lt_Some in Hkz. lia.
    + destruct (k - length pre)%nat as [|j] eqn:Ek; [|by destruct j]. injection Hkz as <-. exists b, p.
      replace k with (length pre) by lia. split_and!; [done|apply lookup_insert_eq|done].
  - exists e'. split; [exact E|]. intros i id b Hi Hbi. cbn [app] in HF. destruct (HF i (id, triple b)) as (b' & p & Hb' & Hp & Hov).
    + apply lookup_zip_Some. split; [done|]. by rewrite list_lookup_fmap, Hbi.
    + assert (b' = b) as -> by congruence. by exists p.
Qed.

End Wiring.
