(* ===== verification/RPCDemo.v ===== *)
(** * The theorems on the RPC engine on small machines

    Two instances over the pthreads backend and the hwloc memory manager.  A
    function is a number, and running it sets the argument of the request to that
    number; the compute manager runs it when the processing unit is started. *)

From S2P Require Import Prelude Memory CommunicationManager Pthreads CircularBuffer Channel TokenBuffer FixedSPSC HelperQueue.
From S2P Require Import FixedMPSCNonlocking VariableSPSC VariableMPSC VariableMPSCSpec Compute HwlocTopology MemoryManager RPCEngine Frame.
From S2P Require Import RPCEngineSpec RPCReturnSpec RPCWiringSpec.
From Stdlib Require Import ZArith Lia String.
From Stdlib.Strings Require Import Byte.
From stdpp Require Import base list gmap option strings.

Local Open Scope Z_scope.
Local Open Scope hicr_scope.

Module RPCDemo.
Import RPCEngine.

Definition O : Type := State (X := Core.t) (Y := HwlocMemoryManager.t) (U := Z).

Definition run_unit (k : Z) : prog O unit := set_this (fun e => set_request (_requesterInstanceIdx e) k e).

#[export] Instance inline_backend : ComputeBackend O unit Z := {
  initializeImpl := mret tt;
  startImpl := fun k => on_fst (run_unit k);
  suspendImpl := mret tt;
  resumeImpl := mret tt;
  terminateImpl := mret tt;
  awaitImpl := mret tt
}.

Definition createProcessingUnit (r : nat) : unit := tt.
Definition createExecutionState (u : Z) : Z := u.

#[export] Instance inline_runs : RunsUnits O unit Z createProcessingUnit.
Proof.
  refine {| body := run_unit |}. intros k r s s' E. injection E as <-. by eexists.
Defined.

(** ** Requests

    The listener has a channel for each of the two instances, as in
    [NonlockingDemo] but with tokens of 16 bytes and room for two; block 6 is the
    local variable of a request. *)
Definition geom (k : nat) : geometry :=
  mkGeometry (mkTokenBuffer 16 2 (Ptr (3 * k + 2) 0) (3 * k + 2)) (Ptr (3 * k) 0) (Ptr (3 * k + 1) 0).

Definition slot (b : nat) (n : Z) : nat * LocalMemorySlot.t := (b, LocalMemorySlot.make (Ptr b 0) n None).

Definition global (b : nat) : nat * GlobalMemorySlot.t := ((10 + b)%nat, GlobalMemorySlot.mk 7 (Z.of_nat b) (Some b)).

(** [n] requests in the channel of instance 1, which the consumer has not noticed. *)
Definition machine (n : Z) (tokens : list byte) : Machine Core.t :=
  mkMachine
    (list_to_map [(0%nat, replicate 16 x00); (1%nat, replicate 16 x00); (2%nat, replicate 32 x00);
                  (3%nat, le_bytes 8 n ++ le_bytes 8 0); (4%nat, le_bytes 8 n ++ le_bytes 8 0); (5%nat, tokens); (6%nat, replicate 16 xff)])
    (list_to_map [slot 0 16; slot 1 16; slot 2 32; slot 3 16; slot 4 16; slot 5 32])
    (list_to_map [global 0; global 1; global 2; global 3; global 4; global 5])
    (<[0%nat := CommunicationManagerFields.empty]> ∅)
    (Core.make 2).

Definition idle : Machine Core.t := machine 0 (replicate 32 x00).
Definition pending : Machine Core.t := machine 1 (request_token 7 42 ++ replicate 16 x00).

Definition producer (k : nat) : Producer.t :=
  Producer.mk (Base.mk 0 0 (3 * k) 16 (Base.circular_buffer_at 2 (Ptr (3 * k) 0))) (3 * k + 12) (3 * k + 11).

Definition consumer (k : nat) : Consumer.t :=
  Consumer.mk (Base.mk 0 0 (3 * k + 1) 16 (Base.circular_buffer_at 2 (Ptr (3 * k + 1) 0))) (3 * k + 12) (3 * k + 10).

Definition chans (toks : list (list byte)) : list chan := [mkChan (geom 0) (producer 0) 0 []; mkChan (geom 1) (producer 1) 0 toks].

Definition object : NonlockingConsumer.t :=
  NonlockingConsumer.mk [12%nat; 15%nat] [consumer 0; consumer 1] [] [0; 0] 0 0.

Lemma request_connected n tokens k :
  length tokens = 32%nat -> k = 0%nat \/ k = 1%nat -> connected (geom k) (producer k) (consumer k) (machine n tokens).
Proof.
  intros Ht Hk. assert (Hb : is_token_buffer (geom k) (3 * k + 12) (machine n tokens)).
  { destruct Hk as [-> | ->]; (split; [done|by exists 32; split; [cbn; lia|]; eexists|by eexists|]); [by eexists|].
    apply accessible_iff. exists tokens. rewrite Ht. by split_and!. }
  destruct Hk as [-> | ->]; (split; try done; try (by exists 16; split; [lia|]; eexists); try (by eexists); cbn; lia).
Qed.

Lemma disjoint_demo toks : chans_disjoint (chans toks).
Proof.
  intros [|[|i]] [|[|j]] a b Hne Ha Hb; try done; injection Ha as <-; injection Hb as <-;
    split_and!; repeat apply Forall_cons_2; try apply Forall_nil_2; cbn; lia.
Qed.

Lemma listens_demo n tokens toks :
  length tokens = 32%nat -> cb_at (Base.circular_buffer_at 2 (Ptr 3 0)) (0 + Z.of_nat (length toks)) 0 (machine n tokens) ->
  cb_at (Base.circular_buffer_at 2 (Ptr 4 0)) (0 + Z.of_nat (length toks)) 0 (machine n tokens) ->
  Z.of_nat (length toks) <= 2 -> holds_tokens (geom 1) (machine n tokens) 0 toks -> listens (chans toks) (machine n tokens) object.
Proof.
  intros Ht HP HC Hlen Hh. split; [|apply disjoint_demo|done|by repeat constructor]. split.
  - constructor; [|constructor; [|constructor]]; (split; [apply request_connected; by auto|]); by split_and!.
  - apply disjoint_apart, disjoint_demo.
  - split; [constructor|done| |cbn; size_lia]. intros i k _. apply Nat.le_0_l.
Qed.

Lemma listens_idle : listens (chans []) idle object.
Proof. apply listens_demo; [done|by split|by split|done|done]. Qed.

Lemma listens_pending : listens (chans [request_token 7 42]) pending object.
Proof. apply listens_demo; [done|by split|by split|done|]. intros [|i] tok Hi; [by injection Hi as <-|done]. Qed.

Lemma outgoing_idle : outgoing (chans []) idle (Ptr 6 0).
Proof. split; [by eexists|]. repeat constructor; cbn; lia. Qed.

(** Names are hashed to their length. *)
Definition hash (name : string) : Z := Z.of_nat (String.length name).

Definition numa : HwlocMemorySpace.t := HwlocMemorySpace.make 1024 None HwlocMemoryManager.strict_binding.

Definition manager : HwlocMemoryManager.t := HwlocMemoryManager.mk 0 ∅ ∅ [Some []] [].

Definition cfg (id : Z) : config := mkConfig 0 (hwloc_space 0 numa) 0 0xF0000000 [0; 1] id.

(** Instance 1 calls the function of instance 0 whose name has seven letters. *)
Definition caller : RPCEngine.t Z := mk 0 0 None ∅ None {[0 := producer 1]} ∅.
Definition callee : RPCEngine.t Z := mk 0 0 None ∅ (Some object) ∅ {[7 := mkTarget "doubled" 99]}.

Lemma request_spec_witness :
  exists m' y', run (requestRPC hash (cfg 1) (Ptr 6 0) 0 "doubled" 42) ((idle, manager), caller) = Done tt ((m', y'), caller) /\
    listens (alter (push_chan (request_token 7 42)) 1%nat (chans [])) m' object.
Proof.
  exact (request_spec hash (cfg 1) (chans []) object 1%nat (mkChan (geom 1) (producer 1) 0 []) (Ptr 6 0) 0 "doubled" 42 idle manager caller
    listens_idle outgoing_idle ltac:(by split) ltac:(by split) eq_refl ltac:(by vm_compute) ltac:(by vm_compute) eq_refl).
Defined.

Lemma listen_spec_witness :
  exists m' o', listens (alter pop_chan 1%nat (chans [request_token 7 42])) m' o' /\
    run (listen createProcessingUnit createExecutionState 2 (cfg 0)) ((pending, manager), callee) =
    Done tt ((m', manager), set_request 1 99 (set_consumer o' callee)).
Proof.
  destruct (listen_spec createProcessingUnit createExecutionState (cfg 0) (chans [request_token 7 42]) object pending manager callee
    listens_pending eq_refl (mkChan (geom 1) (producer 1) 0 [request_token 7 42]) 7 42 [] 0%nat eq_refl eq_refl) as (m' & o' & Hl & E);
    [by split|by split|]. exists m', o'. split; [done|]. exact (E _ eq_refl).
Defined.

Lemma rpc_delivered_witness :
  exists m1 y1 m2 o2, run (requestRPC hash (cfg 1) (Ptr 6 0) 0 "doubled" 42) ((idle, manager), caller) = Done tt ((m1, y1), caller) /\
    run (listen createProcessingUnit createExecutionState 2 (cfg 0)) ((m1, y1), callee) =
    Done tt ((m2, y1), set_request 1 99 (set_consumer o2 callee)).
Proof.
  destruct (rpc_delivered hash createProcessingUnit createExecutionState (cfg 1) (cfg 0) (chans []) object 1%nat
    (mkChan (geom 1) (producer 1) 0 []) (Ptr 6 0) 0 "doubled" 42 99 idle manager caller callee 0%nat
    listens_idle eq_refl eq_refl outgoing_idle) as (m1 & y1 & m2 & o2 & E & _ & Hr); [by split|by split|done|by vm_compute|done|done|].
  exists m1, y1, m2, o2. split; [done|]. exact (Hr _ eq_refl).
Defined.

(** ** Return values, over the channel of [VLDemo]

    The requester is instance 0; block 7 holds the value. *)
Definition requester : RPCEngine.t Z := mk 0 0 (Some VLDemo.consumer) ∅ None ∅ ∅.
Definition returner : RPCEngine.t Z := mk 0 0 None {[0 := VLDemo.producer]} None ∅ ∅.

Lemma returner_recycles : can_recycle (X := Core.t) manager (_bufferMemorySpace (cfg 1)).
Proof. split_and!; [done|done|done|by eexists]. Qed.

Lemma requester_allocates : can_allocate (X := Core.t) manager (_bufferMemorySpace (cfg 0)).
Proof. split; [done|]. by eexists _, _. Qed.

(** A value of three bytes fits in the empty ring of four; when the lock is held
    it would be lost. *)
Lemma submit_spec_witness :
  exists m' y', run (submitReturnValue (cfg 1) (Ptr 7 0) 3) ((VLDemo.machine, manager), returner) = Done tt ((m', y'), returner) /\
    vlcontent VLDemo.geom VLDemo.consumer m' 1 2 [[x01; x02; x03]] /\ locked (backend m') 10 = Some false /\
    dom (heap m') = dom (heap VLDemo.machine).
Proof.
  exact (submit_spec (cfg 1) VLDemo.geom VLDemo.consumer (Ptr 2 0) (Ptr 3 0) (Ptr 4 0) VLDemo.producer VLDemo.machine manager returner
    (Ptr 7 0) [x01; x02; x03] 1 2 [] false (proj1 VLDemo.vl_rep_demo) ltac:(by apply VLDemo.vlattached_demo) eq_refl returner_recycles eq_refl
    ltac:(by vm_compute) ltac:(by vm_compute) ltac:(by vm_compute) eq_refl).
Defined.

Lemma return_value_spec_witness :
  run (getReturnValue 5 (cfg 0)) ((VLDemo.machine, manager), requester) = Blocked ((VLDemo.machine, manager), requester).
Proof. exact (return_value_spec (cfg 0) VLDemo.geom VLDemo.consumer VLDemo.machine manager requester 1 2 [] VLDemo.vl_rep_demo eq_refl requester_allocates 5%nat). Defined.

Lemma return_value_roundtrip_witness :
  exists m1 y1, run (submitReturnValue (cfg 1) (Ptr 7 0) 2) ((VLDemo.machine, manager), returner) = Done tt ((m1, y1), returner) /\
    exists l b m2 y2, run (getReturnValue 1 (cfg 0)) ((m1, manager), requester) = Done l ((m2, y2), requester) /\
      slot_at m2 l (Ptr b 0) 2 /\ mem_load (heap m2) (Ptr b 0) 2 = Some [x01; x02].
Proof.
  destruct (return_value_roundtrip (cfg 0) (cfg 1) VLDemo.geom VLDemo.consumer (Ptr 2 0) (Ptr 3 0) (Ptr 4 0) VLDemo.producer VLDemo.machine
    manager requester returner (Ptr 7 0) [x01; x02] 1 2 0%nat VLDemo.vl_rep_demo ltac:(by apply VLDemo.vlattached_demo) eq_refl eq_refl returner_recycles
    eq_refl ltac:(by vm_compute) ltac:(by vm_compute) ltac:(by vm_compute)) as (m1 & y1 & E1 & H).
  destruct (H manager requester_allocates) as (l & b & m2 & y2 & E2 & Hs & HL & _). exists m1, y1. split; [exact E1|].
  exists l, b, m2, y2. exact (conj E2 (conj Hs HL)).
Defined.

(** The first message of [VLDemo.loaded] starts at the last byte of the ring. *)
Lemma return_value_crossing_witness :
  exists m' y', run (getReturnValue 1 (cfg 0)) ((VLDemo.loaded, manager), requester) = Thrown runtime ((m', y'), requester) /\
    vl_rep VLDemo.geom VLDemo.consumer m' 1 3 [[x0a; x0b]; [x0c]].
Proof.
  apply (return_value_crossing (cfg 0) VLDemo.geom VLDemo.consumer VLDemo.loaded manager requester 1 3 [x0a; x0b] [[x0c]] 0%nat);
    [apply VLDemo.vl_rep_loaded|done|apply requester_allocates|by eexists|by vm_compute].
Defined.

(** ** Connecting the channels

    The instances are listed in the order 1, 0: the channel to instance 1 is over
    the buffers that instance 0 has exchanged. *)
Definition exchange_core : Core.t :=
  Core.set_slots {[0xF0000004 := {[0 := 12%nat; 2 := 15%nat]}; 0xF0000005 := {[0 := 10%nat; 1 := 13%nat]};
                   0xF0000006 := {[0 := 11%nat; 2 := 14%nat]}]} (Core.make 2).

Definition exchanged_machine : Machine Core.t := set_backend exchange_core idle.

Definition swapped : config := mkConfig 0 (hwloc_space 0 numa) 0 0xF0000000 [1; 0] 0.

Lemma producers_wired_witness :
  exists e', run (connect_producers swapped) ((exchanged_machine, manager), caller) = Done tt ((exchanged_machine, manager), e') /\
    exists p, _RPCProducerChannels e' !! 1 = Some p /\ Producer._tokenBuffer p = 12%nat.
Proof.
  destruct (producers_wired swapped exchanged_machine manager caller [mkBuffers 12 11 10 0; mkBuffers 15 14 13 3]) as (e' & E & H).
  - done.
  - intros [|[|i]] b Hb; [| |done]; injection Hb as <-; (split_and!; [by vm_compute..|by eexists|]); eexists _, 16; (split; [by eexists|done]).
  - by apply (bool_decide_unpack _).
  - exists e'. split; [done|]. destruct (H 0%nat 1 _ eq_refl eq_refl) as (p & Hp & Ho & _). by exists p.
Defined.

End RPCDemo.
