(* ===== verification/Mpi.v ===== *)
(** * The MPI backend

    Models [backends/mpi/communicationManager.hpp], [globalMemorySlot.hpp] and
    [localMemorySlot.hpp] as one process sees them.  The functions of the MPI
    library are the class [MPI], over the memory of the process and a state of
    the library; what the theorems rely on is in [MpiSpec.v].  The collective
    operations give a process what all the processes contributed. *)

From S2P Require Import Prelude Memory CommunicationManager.
From Stdlib Require Import ZArith Lia.
From stdpp Require Import base list gmap option sorting.

Local Open Scope Z_scope.
Local Open Scope hicr_scope.

(** ** The library *)

Abbreviation memory := (gmap nat (list byte)).

(** Ranks, counts and displacements are [int]s; windows have identifiers.  The
    functions that return a status return it first.  [MPI_Allgatherv] takes the
    elements to send, the size of the receive buffer, the counts and the
    displacements; [MPI_Win_allocate] gives a status, the memory and the window;
    [MPI_Get] and [MPI_Put] take the origin's address, the number of bytes, the
    target's rank, the displacement and the window; [MPI_Fetch_and_op] adds one
    to the counter at displacement zero. *)
Class MPI (L : Type) : Type := {
  MPI_Barrier : prog (memory * L) unit;
  MPI_Allgather : Z -> prog (memory * L) (list Z);
  MPI_Allgatherv : list Z -> Z -> list Z -> list Z -> prog (memory * L) (list Z);
  MPI_Win_allocate : Z -> prog (memory * L) (Z * ptr * nat);
  MPI_Win_free : nat -> prog (memory * L) Z;
  MPI_Win_lock : bool -> Z -> bool -> nat -> prog (memory * L) Z;
  MPI_Win_unlock : Z -> nat -> prog (memory * L) Z;
  MPI_Get : ptr -> Z -> Z -> Z -> nat -> prog (memory * L) Z;
  MPI_Put : ptr -> Z -> Z -> Z -> nat -> prog (memory * L) Z;
  MPI_Win_flush : Z -> nat -> prog (memory * L) Z;
  MPI_Fetch_and_op : Z -> nat -> prog (memory * L) Z
}.

Definition MPI_SUCCESS : Z := 0.

(** [MPI_LOCK_EXCLUSIVE] and [MPI_MODE_NOCHECK]; their negations are
    [MPI_LOCK_SHARED] and no assertion. *)
Definition MPI_LOCK_EXCLUSIVE : bool := true.
Definition MPI_MODE_NOCHECK : bool := true.

(** [(int) z], and the sum of two [int]s, which must not overflow. *)
Definition to_int (z : Z) : Z := (z + 2 ^ 31) mod 2 ^ 32 - 2 ^ 31.

Definition is_int (z : Z) : Prop := - 2 ^ 31 <= z < 2 ^ 31.

Definition int_add {S : Type} (a b : Z) : prog S Z :=
  if (- 2 ^ 31 <=? a + b) && (a + b <? 2 ^ 31) then mret (a + b) else Crash undefined.

(** ** Global slots ([globalMemorySlot.hpp]) *)

Module MpiGlobalSlot.

(** What the class adds to [GlobalMemorySlot]; a window that has not been
    allocated is a null pointer. *)
Record t : Type := mk {
  _lockAcquired : bool;
  _rank : Z;
  _dataWindow : option nat;
  _recvMessageCountWindow : option nat;
  _sentMessageCountWindow : option nat
}.

Definition make (rank : Z) : t := mk false rank None None None.

Definition setLockAcquiredValue (value : bool) (s : t) : t :=
  mk value (_rank s) (_dataWindow s) (_recvMessageCountWindow s) (_sentMessageCountWindow s).

Definition set_data (w : nat) (s : t) : t :=
  mk (_lockAcquired s) (_rank s) (Some w) (_recvMessageCountWindow s) (_sentMessageCountWindow s).

Definition set_recv (w : nat) (s : t) : t :=
  mk (_lockAcquired s) (_rank s) (_dataWindow s) (Some w) (_sentMessageCountWindow s).

Definition set_sent (w : nat) (s : t) : t :=
  mk (_lockAcquired s) (_rank s) (_dataWindow s) (_recvMessageCountWindow s) (Some w).

End MpiGlobalSlot.

(** ** The state of the backend *)

Module Mpi.

(** The fields of a manager. *)
Record manager : Type := mkManager {
  _size : Z;
  _rank : Z;
  _deregisteredGlobalMemorySlotsTagKeyMap : gmap Z (gmap Z nat)
}.

Definition set_deregistered (d : gmap Z (gmap Z nat)) (f : manager) : manager := mkManager (_size f) (_rank f) d.

(** The managers, the global slots of dynamic type [mpi::GlobalMemorySlot], the
    local slots of dynamic type [mpi::LocalMemorySlot], and the library. *)
Record t (L : Type) : Type := mk {
  mpi_managers : gmap nat manager;
  mpi_slots : gmap nat MpiGlobalSlot.t;
  mpi_locals : gset nat;
  library : L
}.

Arguments mk {L} _ _ _ _.
Arguments mpi_managers {L} _.
Arguments mpi_slots {L} _.
Arguments mpi_locals {L} _.
Arguments library {L} _.

Section Access.
Context {L : Type}.

Definition set_managers (ms : gmap nat manager) (x : t L) : t L := mk ms (mpi_slots x) (mpi_locals x) (library x).
Definition set_slots (s : gmap nat MpiGlobalSlot.t) (x : t L) : t L := mk (mpi_managers x) s (mpi_locals x) (library x).
Definition set_mpi_locals (s : gset nat) (x : t L) : t L := mk (mpi_managers x) (mpi_slots x) s (library x).
Definition set_library (l : L) (x : t L) : t L := mk (mpi_managers x) (mpi_slots x) (mpi_locals x) l.

(** A call of the library. *)
Definition call {A : Type} (p : prog (memory * L) A) : prog (Machine (t L)) A :=
  zoom (fun m => Some (heap m, library (backend m)))
       (fun hl m => set_backend (set_library hl.2 (backend m)) (set_heap hl.1 m)) p.

Definition fields (this : nat) : prog (Machine (t L)) manager := fetch (fun m => mpi_managers (backend m) !! this).

Definition update_fields (this : nat) (f : manager -> manager) : prog (Machine (t L)) unit :=
  update (fun m => c ← mpi_managers (backend m) !! this;
                   Some (set_backend (set_managers (<[this := f c]> (mpi_managers (backend m))) (backend m)) m)).

(** [dynamic_pointer_cast<mpi::GlobalMemorySlot>]; a null result is a logic error. *)
Definition cast_global (g : nat) : prog (Machine (t L)) MpiGlobalSlot.t :=
  s ← gets (fun m => mpi_slots (backend m) !! g);
  match s with Some s => mret s | None => Raise logic end.

Definition update_slot (f : MpiGlobalSlot.t -> MpiGlobalSlot.t) (g : nat) : prog (Machine (t L)) unit :=
  update (fun m => s ← mpi_slots (backend m) !! g;
                   Some (set_backend (set_slots (<[g := f s]> (mpi_slots (backend m))) (backend m)) m)).

(** Dereferencing a pointer to a window. *)
Definition window (w : option nat) : prog (Machine (t L)) nat :=
  match w with Some w => mret w | None => Crash undefined end.

(** [std::make_shared<mpi::GlobalMemorySlot>] and [std::make_shared<mpi::LocalMemorySlot>]. *)
Definition new_global_slot (rank tag key : Z) (source : option nat) : prog (Machine (t L)) nat :=
  Step (fun m =>
          let g := fresh (dom (globals m)) in
          set_backend (set_slots (<[g := MpiGlobalSlot.make rank]> (mpi_slots (backend m))) (backend m))
            (set_globals (<[g := GlobalMemorySlot.mk tag key source]> (globals m)) m))
       (fun m => Ret (fresh (dom (globals m)))).

Definition new_local_slot (p : ptr) (size : Z) (memorySpace : option nat) : prog (Machine (t L)) nat :=
  Step (fun m =>
          let l := fresh (dom (locals m)) in
          set_backend (set_mpi_locals ({[ l ]} ∪ mpi_locals (backend m)) (backend m))
            (set_locals (<[l := LocalMemorySlot.make p size memorySpace]> (locals m)) m))
       (fun m => Ret (fresh (dom (locals m)))).

(** The local slot of a global slot is replaced; the pointer of a local slot is changed in place. *)
Definition setSourceLocalMemorySlot (g l : nat) : prog (Machine (t L)) unit :=
  update (fun m => s ← globals m !! g;
                   Some (set_globals (<[g := GlobalMemorySlot.setSourceLocalMemorySlot (Some l) s]> (globals m)) m)).

Definition with_pointer (p : ptr) (s : LocalMemorySlot.t) : LocalMemorySlot.t :=
  LocalMemorySlot.mk p (LocalMemorySlot._size s) (LocalMemorySlot._memorySpace s)
    (LocalMemorySlot._messagesRecv s) (LocalMemorySlot._messagesSent s).

End Access.
End Mpi.

(** ** The communication manager *)

Module MpiCommunicationManager.
Import Mpi.

Section Operations.
Context {L : Type} {M : MPI L}.

(** *** Windows *)

Definition lockMPIWindow (rank : Z) (window : nat) (MPILockType MPIAssert : bool) : prog (Machine (t L)) unit :=
  mpiStatus ← call (MPI_Win_lock MPILockType rank MPIAssert window);
  throw_if (negb (mpiStatus =? MPI_SUCCESS)) logic.

Definition unlockMPIWindow (rank : Z) (window : nat) : prog (Machine (t L)) unit :=
  mpiStatus ← call (MPI_Win_unlock rank window);
  throw_if (negb (mpiStatus =? MPI_SUCCESS)) logic.

(** A status other than success is a runtime error. *)
Definition check (status : Z) : prog (Machine (t L)) unit := throw_if (negb (status =? MPI_SUCCESS)) runtime.

Definition increaseWindowCounter (rank : Z) (window : nat) : prog (Machine (t L)) unit :=
  _ ← lockMPIWindow rank window MPI_LOCK_EXCLUSIVE (negb MPI_MODE_NOCHECK);
  status ← call (MPI_Fetch_and_op rank window);
  _ ← check status;
  unlockMPIWindow rank window.

(** *** Copies *)

Definition increaseMessageRecvCounter (l : nat) : prog (Machine (t L)) unit :=
  update_local LocalMemorySlot.increaseMessagesRecv l.

Definition increaseMessageSentCounter (l : nat) : prog (Machine (t L)) unit :=
  update_local LocalMemorySlot.increaseMessagesSent l.

Definition memcpyImplLL (this destination : nat) (dst_offset : Z) (source : nat) (src_offset size : Z) :
    prog (Machine (t L)) unit :=
  srcPtr ← getPointer source;
  dstPtr ← getPointer destination;
  _ ← std_memcpy (ptr_add dstPtr dst_offset) (ptr_add srcPtr src_offset) size;
  _ ← increaseMessageRecvCounter destination;
  increaseMessageSentCounter source.

Definition memcpyImplLG (this destinationSlot : nat) (dst_offset : Z) (sourceSlotPtr : nat) (sourceOffset size : Z) :
    prog (Machine (t L)) unit :=
  source ← cast_global sourceSlotPtr;
  let sourceRank := MpiGlobalSlot._rank source in
  let isSourceSlotLockAcquired := MpiGlobalSlot._lockAcquired source in
  p ← getPointer destinationSlot;
  let destinationPointer := ptr_add p dst_offset in
  sourceDataWindow ← window (MpiGlobalSlot._dataWindow source);
  _ ← (if isSourceSlotLockAcquired then mret tt
       else lockMPIWindow sourceRank sourceDataWindow (negb MPI_LOCK_EXCLUSIVE) MPI_MODE_NOCHECK);
  status ← call (MPI_Get destinationPointer (to_int size) sourceRank (to_int sourceOffset) sourceDataWindow);
  _ ← check status;
  status ← call (MPI_Win_flush sourceRank sourceDataWindow);
  _ ← check status;
  _ ← (if isSourceSlotLockAcquired then mret tt else unlockMPIWindow sourceRank sourceDataWindow);
  sourceSentMessageWindow ← window (MpiGlobalSlot._sentMessageCountWindow source);
  _ ← increaseWindowCounter sourceRank sourceSentMessageWindow;
  increaseMessageRecvCounter destinationSlot.

Definition memcpyImplGL (this destinationSlotPtr : nat) (dst_offset : Z) (sourceSlot : nat) (sourceOffset size : Z) :
    prog (Machine (t L)) unit :=
  destination ← cast_global destinationSlotPtr;
  let destinationRank := MpiGlobalSlot._rank destination in
  let isDestinationSlotLockAcquired := MpiGlobalSlot._lockAcquired destination in
  p ← getPointer sourceSlot;
  let sourcePointer := ptr_add p sourceOffset in
  destinationDataWindow ← window (MpiGlobalSlot._dataWindow destination);
  _ ← (if isDestinationSlotLockAcquired then mret tt
       else lockMPIWindow destinationRank destinationDataWindow (negb MPI_LOCK_EXCLUSIVE) MPI_MODE_NOCHECK);
  status ← call (MPI_Put sourcePointer (to_int size) destinationRank (to_int dst_offset) destinationDataWindow);
  _ ← check status;
  status ← call (MPI_Win_flush destinationRank destinationDataWindow);
  _ ← check status;
  _ ← (if isDestinationSlotLockAcquired then mret tt else unlockMPIWindow destinationRank destinationDataWindow);
  _ ← increaseMessageSentCounter sourceSlot;
  destinationRecvMessageWindow ← window (MpiGlobalSlot._recvMessageCountWindow destination);
  increaseWindowCounter destinationRank destinationRecvMessageWindow.

(** *** Locks *)

Definition acquireGlobalLockImpl (this memorySlot : nat) : prog (Machine (t L)) bool :=
  m ← cast_global memorySlot;
  w ← window (MpiGlobalSlot._dataWindow m);
  _ ← lockMPIWindow (MpiGlobalSlot._rank m) w MPI_LOCK_EXCLUSIVE (negb MPI_MODE_NOCHECK);
  _ ← update_slot (MpiGlobalSlot.setLockAcquiredValue true) memorySlot;
  mret true.

Definition releaseGlobalLockImpl (this memorySlot : nat) : prog (Machine (t L)) unit :=
  m ← cast_global memorySlot;
  w ← window (MpiGlobalSlot._dataWindow m);
  _ ← unlockMPIWindow (MpiGlobalSlot._rank m) w;
  update_slot (MpiGlobalSlot.setLockAcquiredValue false) memorySlot.

(** *** The exchange of slots *)

(** The first element of each process in the receive buffer, and the size of it. *)
Fixpoint slot_offsets (counts : list Z) (currentOffset : Z) : prog (Machine (t L)) (list Z) :=
  match counts with
  | [] => mret []
  | count :: counts' =>
      next ← int_add currentOffset count;
      rest ← slot_offsets counts' next;
      mret (currentOffset :: rest)
  end.

Fixpoint slot_total (counts : list Z) (total : Z) : prog (Machine (t L)) Z :=
  match counts with
  | [] => mret total
  | count :: counts' => total' ← int_add total count; slot_total counts' total'
  end.

(** The local slots of the gathered entries: those of this process, in the order of the call. *)
Fixpoint source_slots (rank : Z) (processIds : list Z) (memorySlots : list (Z * nat)) :
    prog (Machine (t L)) (list (option nat)) :=
  match processIds with
  | [] => mret []
  | id :: processIds' =>
      if negb (id =? rank) then rest ← source_slots rank processIds' memorySlots; mret (None :: rest)
      else match memorySlots with
           | [] => Crash undefined
           | entry :: memorySlots' => rest ← source_slots rank processIds' memorySlots'; mret (Some entry.2 :: rest)
           end
  end.

(** The size of a local slot to exchange, which has to be an MPI slot. *)
Definition local_size (entry : Z * nat) : prog (Machine (t L)) Z :=
  isMpi ← gets (fun m => bool_decide (entry.2 ∈ mpi_locals (backend m)));
  _ ← throw_if (negb isMpi) logic;
  getSize entry.2.

(** The storage of a local slot is moved into the window. *)
Definition move_to_window (g source : nat) (p : ptr) (size : Z) : prog (Machine (t L)) unit :=
  s ← local_slot source;
  _ ← std_memcpy p (LocalMemorySlot._pointer s) size;
  _ ← update_local (with_pointer p) source;
  l ← new_local_slot p size (LocalMemorySlot._memorySpace s);
  setSourceLocalMemorySlot g l.

(** One gathered entry: the process that owns it, its key, its size, its local slot. *)
Definition create_slot (this : nat) (tag rank : Z) (entry : Z * Z * Z * option nat) : prog (Machine (t L)) unit :=
  let '(processId, key, size, source) := entry in
  g ← new_global_slot processId tag key source;
  dataWindow ← call (MPI_Win_allocate (if processId =? rank then to_int size else 0));
  let '(status, p, w) := dataWindow in
  _ ← update_slot (MpiGlobalSlot.set_data w) g;
  _ ← (if processId =? rank
       then match source with Some l => move_to_window g l p size | None => Crash undefined end
       else mret tt);
  _ ← check status;
  recvWindow ← call (MPI_Win_allocate (if processId =? rank then SIZEOF_SIZE_T else 0));
  let '(status, p, w) := recvWindow in
  _ ← update_slot (MpiGlobalSlot.set_recv w) g;
  _ ← check status;
  sentWindow ← call (MPI_Win_allocate (if processId =? rank then SIZEOF_SIZE_T else 0));
  let '(status, p, w) := sentWindow in
  _ ← update_slot (MpiGlobalSlot.set_sent w) g;
  _ ← check status;
  CommunicationManager.registerGlobalMemorySlot this g.

Definition exchangeGlobalMemorySlotsImpl (this : nat) (tag : Z) (memorySlots : list (Z * nat)) : prog (Machine (t L)) unit :=
  f ← fields this;
  let localSlotCount := to_int (Z.of_nat (length memorySlots)) in
  perProcessSlotCount ← call (MPI_Allgather localSlotCount);
  perProcessSlotOffsets ← slot_offsets perProcessSlotCount 0;
  globalSlotCount ← slot_total perProcessSlotCount 0;
  localSlotSizes ← map_each local_size memorySlots;
  globalSlotSizes ← call (MPI_Allgatherv localSlotSizes globalSlotCount perProcessSlotCount perProcessSlotOffsets);
  globalSlotKeys ← call (MPI_Allgatherv memorySlots.*1 globalSlotCount perProcessSlotCount perProcessSlotOffsets);
  globalSlotProcessId ← call (MPI_Allgatherv (map (fun _ => _rank f) memorySlots) globalSlotCount
                                perProcessSlotCount perProcessSlotOffsets);
  globalSourceSlots ← source_slots (_rank f) globalSlotProcessId memorySlots;
  for_each (zip (zip (zip globalSlotProcessId globalSlotKeys) globalSlotSizes) globalSourceSlots)
    (create_slot this tag (_rank f)).

(** *** Destruction *)

Definition destroyGlobalMemorySlotImpl (this memorySlotPtr : nat) : prog (Machine (t L)) unit :=
  memorySlot ← cast_global memorySlotPtr;
  w ← window (MpiGlobalSlot._dataWindow memorySlot);
  status ← call (MPI_Win_free w);
  _ ← check status;
  w ← window (MpiGlobalSlot._recvMessageCountWindow memorySlot);
  status ← call (MPI_Win_free w);
  _ ← check status;
  w ← window (MpiGlobalSlot._sentMessageCountWindow memorySlot);
  status ← call (MPI_Win_free w);
  check status.

(** [map[tag]] creates the entry when it is missing. *)
Definition keys_of (this : nat) (tag : Z) : prog (Machine (t L)) (gmap Z nat) :=
  _ ← CommunicationManager.set_fields this (fun c =>
        let tkm := CommunicationManagerFields._globalMemorySlotTagKeyMap c in
        CommunicationManager.with_tag_key_map (<[tag := default ∅ (tkm !! tag)]> tkm) c);
  c ← CommunicationManager.fields this;
  mret (default ∅ (CommunicationManagerFields._globalMemorySlotTagKeyMap c !! tag)).

Definition deregistered_keys_of (this : nat) (tag : Z) : prog (Machine (t L)) (gmap Z nat) :=
  _ ← update_fields this (fun f =>
        let d := _deregisteredGlobalMemorySlotsTagKeyMap f in set_deregistered (<[tag := default ∅ (d !! tag)]> d) f);
  f ← fields this;
  mret (default ∅ (_deregisteredGlobalMemorySlotsTagKeyMap f !! tag)).

(** The slot of a key is taken out of the map of registered slots, or of that of
    deregistered ones, and destroyed. *)
Definition destroy_key (this : nat) (tag key : Z) : prog (Machine (t L)) unit :=
  keyMap ← keys_of this tag;
  match keyMap !! key with
  | Some memorySlot =>
      _ ← CommunicationManager.set_fields this (fun c =>
            CommunicationManager.with_tag_key_map
              (<[tag := delete key keyMap]> (CommunicationManagerFields._globalMemorySlotTagKeyMap c)) c);
      destroyGlobalMemorySlotImpl this memorySlot
  | None =>
      deregistered ← deregistered_keys_of this tag;
      match deregistered !! key with
      | Some memorySlot =>
          _ ← update_fields this (fun f =>
                set_deregistered (<[tag := delete key deregistered]> (_deregisteredGlobalMemorySlotsTagKeyMap f)) f);
          destroyGlobalMemorySlotImpl this memorySlot
      | None => Raise fatal
      end
  end.

(** The elements of the [std::set] of a range. *)
Definition key_set (keys : list Z) : list Z := merge_sort Z.le (remove_dups keys).

Definition destroyGlobalMemorySlotsCollectiveImpl (this : nat) (tag : Z) : prog (Machine (t L)) unit :=
  _ ← CommunicationManager.set_fields this (fun c =>
        let d := CommunicationManagerFields._globalMemorySlotsToDestroyPerTag c in
        CommunicationManager.with_to_destroy (<[tag := default [] (d !! tag)]> d) c);
  c ← CommunicationManager.fields this;
  let slots := default [] (CommunicationManagerFields._globalMemorySlotsToDestroyPerTag c !! tag) in
  let localDestroySlotsCount := to_int (Z.of_nat (length slots)) in
  perProcessDestroySlotCount ← call (MPI_Allgather localDestroySlotsCount);
  perProcessSlotOffsets ← slot_offsets perProcessDestroySlotCount 0;
  globalDestroySlotsCount ← slot_total perProcessDestroySlotCount 0;
  if globalDestroySlotsCount =? 0 then mret tt else
  localDestroySlotKeys ← map_each (fun g => s ← global_slot g; mret (GlobalMemorySlot._globalKey s)) slots;
  globalDestroySlotKeys ← call (MPI_Allgatherv localDestroySlotKeys globalDestroySlotsCount
                                  perProcessDestroySlotCount perProcessSlotOffsets);
  for_each (key_set globalDestroySlotKeys) (destroy_key this tag).

(** *** The other operations *)

Definition fenceImpl (this : nat) (tag : Z) : prog (Machine (t L)) unit :=
  _ ← call MPI_Barrier;
  destroyGlobalMemorySlotsCollectiveImpl this tag.

Definition getGlobalMemorySlotImpl (this : nat) (tag globalKey : Z) : prog (Machine (t L)) (option nat) := mret None.

Definition queryMemorySlotUpdatesImpl (this memorySlot : nat) : prog (Machine (t L)) unit := mret tt.

Definition deregisterGlobalMemorySlotImpl (this memorySlot : nat) : prog (Machine (t L)) unit :=
  _ ← cast_global memorySlot;
  g ← global_slot memorySlot;
  let tag := GlobalMemorySlot._globalTag g in
  let key := GlobalMemorySlot._globalKey g in
  update_fields this (fun f =>
    let d := _deregisteredGlobalMemorySlotsTagKeyMap f in
    set_deregistered (<[tag := <[key := memorySlot]> (default ∅ (d !! tag))]> d) f).

End Operations.
End MpiCommunicationManager.

#[global] Instance mpi_backend {L : Type} {M : MPI L} : CommBackend (Mpi.t L) := {
  getGlobalMemorySlotImpl := MpiCommunicationManager.getGlobalMemorySlotImpl;
  exchangeGlobalMemorySlotsImpl := MpiCommunicationManager.exchangeGlobalMemorySlotsImpl;
  queryMemorySlotUpdatesImpl := MpiCommunicationManager.queryMemorySlotUpdatesImpl;
  deregisterGlobalMemorySlotImpl := MpiCommunicationManager.deregisterGlobalMemorySlotImpl;
  memcpyImplLL := MpiCommunicationManager.memcpyImplLL;
  memcpyImplGL := MpiCommunicationManager.memcpyImplGL;
  memcpyImplLG := MpiCommunicationManager.memcpyImplLG;
  fenceImplTag := MpiCommunicationManager.fenceImpl;
  fenceImplLocal := fun _ _ _ _ => mret tt;
  fenceImplGlobal := fun _ _ _ _ => mret tt;
  acquireGlobalLockImpl := MpiCommunicationManager.acquireGlobalLockImpl;
  releaseGlobalLockImpl := MpiCommunicationManager.releaseGlobalLockImpl;
  flushSent := fun _ => mret tt;
  flushReceived := fun _ => mret tt;
  locked := fun x g => MpiGlobalSlot._lockAcquired <$> Mpi.mpi_slots x !! g;
  lock_slot := fun g x => Mpi.set_slots (alter (MpiGlobalSlot.setLockAcquiredValue true) g (Mpi.mpi_slots x)) x;
  unlock_slot := fun g x => Mpi.set_slots (alter (MpiGlobalSlot.setLockAcquiredValue false) g (Mpi.mpi_slots x)) x
}.

(** The elements of a set, each once and in their order. *)
Lemma key_set_spec keys :
  StronglySorted Z.le (MpiCommunicationManager.key_set keys) /\ NoDup (MpiCommunicationManager.key_set keys) /\ forall key, key ∈ MpiCommunicationManager.key_set keys <-> key ∈ keys.
Proof.
  unfold MpiCommunicationManager.key_set. pose proof (merge_sort_Permutation Z.le (remove_dups keys)) as HP. split_and!.
  - apply (StronglySorted_merge_sort Z.le).
  - rewrite HP. apply NoDup_remove_dups.
  - intros key. rewrite HP. apply elem_of_remove_dups.
Qed.
