(* ===== verification/MpiSpec.v ===== *)
(** * The MPI backend: copies, exchange and destruction

    The theorems of [Mpi.v].  [MpiSpec] has what they rely on of the library, as
    the MPI standard documents it: what the gathering operations deliver, that a
    copy is complete after the flush, what locks and windows do.  [MpiDemo] is a
    small library for which all of this holds. *)

From S2P Require Import Prelude Memory CommunicationManager Mpi.
From Stdlib Require Import ZArith Lia.
From Stdlib.Strings Require Import Byte.
From stdpp Require Import base list gmap option sorting.

Local Open Scope Z_scope.
Local Open Scope hicr_scope.

(** ** What is relied on

    [self]: the rank of this process.  [incoming]: what the gathering operations
    to come deliver to it, in their order.  [win_mem]: the bytes of a window at a
    rank.  [held]: whether this process has locked a window at a rank.  [live]:
    the windows it has allocated and not freed; [win_base]: where the memory of such a
    window begins at this process; [freed]: those it has freed, in
    order.  [available]: whether there is memory for windows and for transfers. *)
Class MpiSpec (L : Type) {M : MPI L} : Type := {
  self : L -> Z;
  incoming : L -> list (list Z);
  win_mem : memory * L -> nat -> Z -> option (list byte);
  held : L -> nat -> Z -> bool;
  live : L -> nat -> Prop;
  win_base : L -> nat -> ptr;
  freed : L -> list nat;
  available : L -> Prop;
  barrier_ok : forall h l, exists l', run MPI_Barrier (h, l) = Done tt (h, l') /\
    self l' = self l /\ incoming l' = incoming l /\ freed l' = freed l /\ (forall w, live l w -> live l' w);
  allgather_ok : forall h l x xs rest, incoming l = xs :: rest -> xs !! Z.to_nat (self l) = Some x ->
    exists l', run (MPI_Allgather x) (h, l) = Done xs (h, l') /\
      self l' = self l /\ incoming l' = rest /\ freed l' = freed l /\ (forall w, live l w -> live l' w /\ win_base l' w = win_base l w) /\
      (available l -> available l');
  allgatherv_ok : forall h l mine n counts displs count displ xs rest, incoming l = xs :: rest ->
    n = Z.of_nat (length xs) -> counts !! Z.to_nat (self l) = Some count -> displs !! Z.to_nat (self l) = Some displ ->
    take (Z.to_nat count) (drop (Z.to_nat displ) xs) = mine ->
    exists l', run (MPI_Allgatherv mine n counts displs) (h, l) = Done xs (h, l') /\
      self l' = self l /\ incoming l' = rest /\ freed l' = freed l /\ (forall w, live l w -> live l' w /\ win_base l' w = win_base l w) /\
      (available l -> available l');
  win_allocate_ok : forall n h l, available l -> 0 <= n < 2 ^ 31 ->
    exists p w h' l', run (MPI_Win_allocate n) (h, l) = Done (MPI_SUCCESS, p, w) (h', l') /\
      (if 0 <? n then exists b bs, p = Ptr b 0 /\ h !! b = None /\ h' = <[b := bs]> h /\ length bs = Z.to_nat n else h' = h) /\
      self l' = self l /\ incoming l' = incoming l /\ live l' w /\ win_base l' w = p /\
      (forall w', live l w' -> live l' w' /\ w' <> w /\ win_base l' w' = win_base l w') /\ available l';
  free_ok : forall w h l, live l w -> exists l', run (MPI_Win_free w) (h, l) = Done MPI_SUCCESS (h, l') /\
    self l' = self l /\ incoming l' = incoming l /\ freed l' = freed l ++ [w] /\ (forall w', w' <> w -> live l w' -> live l' w');
  lock_ok : forall exclusive r nocheck w h l, held l w r = false ->
    exists l', run (MPI_Win_lock exclusive r nocheck w) (h, l) = Done MPI_SUCCESS (h, l') /\ self l' = self l /\
      (available l -> available l') /\ held l' w r = true /\ (forall w' r', (w', r') <> (w, r) -> held l' w' r' = held l w' r') /\
      forall w' r', win_mem (h, l') w' r' = win_mem (h, l) w' r';
  unlock_ok : forall r w h l, held l w r = true ->
    exists l', run (MPI_Win_unlock r w) (h, l) = Done MPI_SUCCESS (h, l') /\ self l' = self l /\
      held l' w r = false /\ (forall w' r', (w', r') <> (w, r) -> held l' w' r' = held l w' r') /\
      forall w' r', win_mem (h, l') w' r' = win_mem (h, l) w' r';
  put_ok : forall p n r d w h l bs old new, available l -> r <> self l -> held l w r = true -> mem_load h p n = Some bs ->
    win_mem (h, l) w r = Some old -> 0 <= d -> write_at (Z.to_nat d) bs old = Some new ->
    exists l', run (s ← MPI_Put p n r d w; s' ← MPI_Win_flush r w; mret (s, s')) (h, l) =
        Done (MPI_SUCCESS, MPI_SUCCESS) (h, l') /\ self l' = self l /\
      win_mem (h, l') w r = Some new /\ (forall w' r', held l' w' r' = held l w' r') /\
      forall w' r', (w', r') <> (w, r) -> win_mem (h, l') w' r' = win_mem (h, l) w' r';
  get_ok : forall p n r d w h h' l bs bytes, r <> self l -> held l w r = true -> win_mem (h, l) w r = Some bytes ->
    0 <= d -> 0 <= n -> read_at (Z.to_nat d) (Z.to_nat n) bytes = Some bs -> mem_store h p bs = Some h' ->
    exists l', run (s ← MPI_Get p n r d w; s' ← MPI_Win_flush r w; mret (s, s')) (h, l) =
        Done (MPI_SUCCESS, MPI_SUCCESS) (h', l') /\ self l' = self l /\
      (forall w' r', held l' w' r' = held l w' r') /\
      forall w' r', r' <> self l -> win_mem (h', l') w' r' = win_mem (h, l) w' r';
  fetch_ok : forall r w h l, r <> self l -> held l w r = true ->
    exists l', run (MPI_Fetch_and_op r w) (h, l) = Done MPI_SUCCESS (h, l') /\ self l' = self l /\
      (forall w' r', held l' w' r' = held l w' r') /\
      forall w' r', (w', r') <> (w, r) -> win_mem (h, l') w' r' = win_mem (h, l) w' r'
}.

(** ** Calls of the library *)

Section Calls.
Context {L : Type}.
Implicit Types m : Machine (Mpi.t L).

Definition after (h : memory) (l : L) (m : Machine (Mpi.t L)) : Machine (Mpi.t L) :=
  set_backend (Mpi.set_library l (backend m)) (set_heap h m).

Abbreviation lib m := (Mpi.library (backend m)) (only parsing).

Lemma run_mpi_call {A : Type} (p : prog (memory * L) A) m :
  run (Mpi.call p) m =
  match run p (heap m, lib m) with
  | Done a s => Done a (after s.1 s.2 m)
  | Thrown e s => Thrown e (after s.1 s.2 m)
  | Crashed c s => Crashed c (after s.1 s.2 m)
  | Blocked s => Blocked (after s.1 s.2 m)
  end.
Proof.
  unfold Mpi.call. erewrite run_zoom; [reflexivity|done| |..].
  - by destruct m as [? ? ? ? []].
  - by intros [].
  - by intros [] [] [].
Qed.

Lemma run_mpi_call_Done {A : Type} (p : prog (memory * L) A) a h l m :
  run p (heap m, lib m) = Done a (h, l) -> run (Mpi.call p) m = Done a (after h l m).
Proof. intros E. by rewrite run_mpi_call, E. Qed.

Lemma after_after h l h' l' m : after h' l' (after h l m) = after h' l' m.
Proof. by destruct m. Qed.

Lemma after_id m : after (heap m) (lib m) m = m.
Proof. by destruct m as [? ? ? ? []]. Qed.

(** The slots do not change in a call. *)
Lemma after_slot_at h l m s p n : slot_at (after h l m) s p n <-> slot_at m s p n.
Proof. done. Qed.

End Calls.

(** ** The layout of the receive buffer *)

(** The sum of the elements of a list. *)
Definition sum (counts : list Z) : Z := foldr Z.add 0 counts.

Section Layout.
Context {L : Type} {M : MPI L}.
Implicit Types m : Machine (Mpi.t L).
Import MpiCommunicationManager.

Lemma sum_nonneg counts : Forall (fun c => 0 <= c) counts -> 0 <= sum counts.
Proof. induction 1; cbn; [lia|]. unfold sum in *. lia. Qed.

Lemma run_int_add {S : Type} (s : S) a b :
  run (int_add a b) s = if bool_decide (is_int (a + b)) then Done (a + b) s else Crashed undefined s.
Proof.
  unfold int_add, is_int. case_bool_decide; destruct (Z.leb_spec (- 2 ^ 31) (a + b)), (Z.ltb_spec (a + b) (2 ^ 31)); cbn; done || lia.
Qed.

Lemma run_slot_total counts m : forall total,
  Forall (fun c => 0 <= c) counts -> 0 <= total < 2 ^ 31 ->
  run (slot_total counts total) m =
    if total + sum counts <? 2 ^ 31 then Done (total + sum counts) m else Crashed undefined m.
Proof.
  induction counts as [|c counts IH]; intros total Hc Ht; cbn [slot_total sum foldr].
  { rewrite Z.add_0_r. case_bool; [done|lia]. }
  apply Forall_cons in Hc as [Hc Hcs]. pose proof (sum_nonneg _ Hcs). unfold sum in *.
  rewrite run_bind, run_int_add. unfold is_int. case_bool_decide; cycle 1.
  - case_bool; [lia|done].
  - rewrite IH by (done || lia). by rewrite Z.add_assoc.
Qed.

(** The offset of a process is the number of elements of those before it. *)
Lemma run_slot_offsets counts m : forall offset,
  Forall (fun c => 0 <= c) counts -> 0 <= offset -> offset + sum counts < 2 ^ 31 ->
  exists offsets, run (slot_offsets counts offset) m = Done offsets m /\ length offsets = length counts /\
    forall i, (i < length counts)%nat -> offsets !! i = Some (offset + sum (take i counts)).
Proof.
  induction counts as [|c counts IH]; intros offset Hc Ho Hs; cbn [slot_offsets sum foldr] in *.
  { exists []. split_and!; [done|done|cbn; lia]. }
  apply Forall_cons in Hc as [Hc Hcs]. pose proof (sum_nonneg _ Hcs). unfold sum in *.
  destruct (IH (offset + c)) as (offs & E & Hl & Hi); [done|lia..|].
  exists (offset :: offs). split_and!.
  - rewrite run_bind, run_int_add, bool_decide_true by (unfold is_int; lia). cbn beta iota.
    by rewrite (run_bind_Done _ _ _ _ _ E).
  - cbn. by rewrite Hl.
  - intros [|i] Hlt; cbn in *; [f_equal; lia|]. rewrite Hi by lia. f_equal. lia.
Qed.

(** The processes contribute [cs], by rank. *)
Definition counts_of (cs : list (list Z)) : list Z := map (fun c => Z.of_nat (length c)) cs.

Lemma counts_nonneg cs : Forall (fun c => 0 <= c) (counts_of cs).
Proof. apply Forall_map, Forall_true. intros. cbn. lia. Qed.

Lemma sum_counts cs : sum (counts_of cs) = Z.of_nat (length (concat cs)).
Proof. induction cs as [|c cs IH]; [done|]. unfold sum, counts_of in *. cbn [map foldr concat]. rewrite length_app. lia. Qed.

Lemma gathered_segment cs r mine :
  cs !! r = Some mine -> take (length mine) (drop (Z.to_nat (sum (take r (counts_of cs)))) (concat cs)) = mine.
Proof.
  intros Hr. unfold counts_of. rewrite firstn_map. fold (counts_of (take r cs)). rewrite sum_counts, Nat2Z.id.
  rewrite <- (take_drop_middle _ _ _ Hr) at 2. rewrite concat_app, drop_app_length. cbn. apply take_app_length.
Qed.

(** The offsets and the total that are computed from the counts are the layout of
    the receive buffer: the part of a process is what it has contributed. *)
Lemma run_layout cs m :
  Z.of_nat (length (concat cs)) < 2 ^ 31 ->
  exists offsets, run (slot_offsets (counts_of cs) 0) m = Done offsets m /\
    run (slot_total (counts_of cs) 0) m = Done (Z.of_nat (length (concat cs))) m /\
    forall r mine, cs !! r = Some mine -> exists offset, offsets !! r = Some offset /\
      counts_of cs !! r = Some (Z.of_nat (length mine)) /\
      take (length mine) (drop (Z.to_nat offset) (concat cs)) = mine.
Proof.
  intros Hlt. pose proof (counts_nonneg cs) as Hnn. pose proof (sum_counts cs) as Hsum.
  destruct (run_slot_offsets (counts_of cs) m 0) as (offsets & E & Hl & Ho); [done|lia|lia|].
  exists offsets. split_and!; [done| |].
  - rewrite run_slot_total by (done || lia). rewrite Z.add_0_l, Hsum. case_bool; [done|lia].
  - intros r mine Hr. exists (sum (take r (counts_of cs))). split_and!.
    + rewrite Ho; [done|]. unfold counts_of. rewrite length_map. by eapply lookup_lt_Some.
    + unfold counts_of. by rewrite list_lookup_fmap, Hr.
    + by apply gathered_segment.
Qed.

End Layout.

(** ** Windows and copies *)

Section Copies.
Context {L : Type} {M : MPI L} {Sp : MpiSpec L}.
Implicit Types m : Machine (Mpi.t L).
Import MpiCommunicationManager.

Lemma run_check status m : status = MPI_SUCCESS -> run (check (L := L) status) m = Done tt m.
Proof. by intros ->. Qed.

(** [l'] is [l] up to the lock of the window [w] at [r]. *)
Definition lock_changed (h : memory) (w : nat) (r : Z) (b : bool) (l l' : L) : Prop :=
  self l' = self l /\ held l' w r = b /\ (forall w' r', (w', r') <> (w, r) -> held l' w' r' = held l w' r') /\
  forall w' r', win_mem (h, l') w' r' = win_mem (h, l) w' r'.

Lemma run_lock rank w exclusive nocheck m :
  held (Mpi.library (backend m)) w rank = false ->
  exists l, run (lockMPIWindow rank w exclusive nocheck) m = Done tt (after (heap m) l m) /\
    lock_changed (heap m) w rank true (Mpi.library (backend m)) l /\ (available (Mpi.library (backend m)) -> available l).
Proof.
  intros Hh. destruct (lock_ok exclusive rank nocheck w (heap m) _ Hh) as (l & E & S & A & H). exists l. split; [|done].
  unfold lockMPIWindow. by rewrite (run_bind_Done _ _ _ _ _ (run_mpi_call_Done _ _ _ _ m E)).
Qed.

Lemma run_unlock rank w m :
  held (Mpi.library (backend m)) w rank = true ->
  exists l, run (unlockMPIWindow rank w) m = Done tt (after (heap m) l m) /\
    lock_changed (heap m) w rank false (Mpi.library (backend m)) l.
Proof.
  intros Hh. destruct (unlock_ok rank w (heap m) _ Hh) as (l & E & H). exists l. split; [|exact H].
  unfold unlockMPIWindow. by rewrite (run_bind_Done _ _ _ _ _ (run_mpi_call_Done _ _ _ _ m E)).
Qed.

(** [l'] is [l] up to the bytes of the window [w] at [r]. *)
Definition bytes_changed (h : memory) (w : nat) (r : Z) (l l' : L) : Prop :=
  self l' = self l /\ (forall w' r', held l' w' r' = held l w' r') /\
  forall w' r', (w', r') <> (w, r) -> win_mem (h, l') w' r' = win_mem (h, l) w' r'.

(** The counter of a remote window is increased under its lock, which is released. *)
Lemma run_increase rank w m :
  rank <> self (Mpi.library (backend m)) -> held (Mpi.library (backend m)) w rank = false ->
  exists l, run (increaseWindowCounter rank w) m = Done tt (after (heap m) l m) /\
    bytes_changed (heap m) w rank (Mpi.library (backend m)) l.
Proof.
  intros Hr Hh. unfold increaseWindowCounter.
  destruct (run_lock rank w MPI_LOCK_EXCLUSIVE (negb MPI_MODE_NOCHECK) m Hh) as (l1 & E1 & (Hs1 & Hh1 & Ho1 & Hm1) & _).
  rewrite (run_bind_Done _ _ _ _ _ E1).
  destruct (fetch_ok rank w (heap m) l1) as (l2 & E2 & Hs2 & Hh2 & Hm2); [by rewrite Hs1|done|].
  rewrite (run_bind_Done _ _ _ _ _ (run_mpi_call_Done _ _ _ _ (after (heap m) l1 m) E2)), after_after.
  rewrite (run_bind_Done _ _ _ _ _ (run_check _ _ eq_refl)).
  destruct (run_unlock rank w (after (heap m) l2 m)) as (l3 & E3 & Hs3 & Hh3 & Ho3 & Hm3); [cbn; by rewrite Hh2|].
  rewrite E3, after_after. exists l3. split; [done|]. cbn in *. split_and!; [congruence|..].
  - intros w' r'. destruct (decide ((w', r') = (w, rank))) as [[= -> ->]|Hne]; [congruence|]. by rewrite Ho3, Hh2, Ho1.
  - intros w' r' Hne. by rewrite Hm3, Hm2, Hm1.
Qed.

(** A lock that is taken for one copy only, unless it is held anyway. *)
Lemma run_lock_unless acquired rank w m :
  held (Mpi.library (backend m)) w rank = acquired ->
  exists l, run (if acquired then mret tt else lockMPIWindow rank w (negb MPI_LOCK_EXCLUSIVE) MPI_MODE_NOCHECK) m =
      Done tt (after (heap m) l m) /\ lock_changed (heap m) w rank true (Mpi.library (backend m)) l /\
    (available (Mpi.library (backend m)) -> available l).
Proof.
  intros Hh. destruct acquired; [|by apply run_lock]. exists (Mpi.library (backend m)). rewrite after_id. by split_and!.
Qed.

Lemma run_unlock_unless (acquired : bool) rank w m :
  held (Mpi.library (backend m)) w rank = true ->
  exists l, run (if acquired then mret tt else unlockMPIWindow rank w) m = Done tt (after (heap m) l m) /\
    lock_changed (heap m) w rank acquired (Mpi.library (backend m)) l.
Proof.
  intros Hh. destruct acquired; [|by apply run_unlock]. exists (Mpi.library (backend m)). rewrite after_id. by split_and!.
Qed.

(** A global slot of another process: its windows, of which the lock of the data
    window is held exactly when the slot says so. *)
Record remote_slot (g : nat) (r : Z) (acquired : bool) (w wr ws : nat) (m : Machine (Mpi.t L)) : Prop := mkRemoteSlot {
  rs_slot : Mpi.mpi_slots (backend m) !! g = Some (MpiGlobalSlot.mk acquired r (Some w) (Some wr) (Some ws));
  rs_remote : r <> self (Mpi.library (backend m));
  rs_lock : held (Mpi.library (backend m)) w r = acquired;
  rs_recv : w <> wr /\ held (Mpi.library (backend m)) wr r = false;
  rs_sent : w <> ws /\ held (Mpi.library (backend m)) ws r = false
}.

Lemma run_cast g s m : Mpi.mpi_slots (backend m) !! g = Some s -> run (Mpi.cast_global g) m = Done s m.
Proof. intros E. unfold Mpi.cast_global. rewrite (run_bind_Done _ _ _ _ _ (run_gets _ m)). by rewrite E. Qed.

Lemma run_window w m : run (Mpi.window (Some w)) m = Done w m.
Proof. done. Qed.

Lemma to_int_small z : 0 <= z < 2 ^ 31 -> to_int z = z.
Proof. intros. unfold to_int. rewrite Z.mod_small by lia. lia. Qed.

(** Counting a message changes the counters of the slot only. *)
Lemma run_count f s m :
  (forall x, slot_sim x (f x)) -> is_Some (locals m !! s) ->
  exists ls, run (update_local f s) m = Done tt (set_locals ls m) /\ locals_sim (locals m) ls.
Proof.
  intros Hf [x E]. eexists. split; [apply run_update; by rewrite E|]. by eapply locals_sim_insert.
Qed.

(** Slots are where they were after the counters have changed. *)
Lemma counted_slot_at ls h l m s p n :
  locals_sim (locals m) ls -> slot_at (set_locals ls (after h l m)) s p n <-> slot_at m s p n.
Proof.
  intros Hs. rewrite <- (after_slot_at h l m s p n).
  assert (Hm : machine_sim (after h l m) (set_locals ls (after h l m))) by (by split). by rewrite <- Hm.
Qed.

(** The two calls of a copy, from what is known of them together. *)
Lemma run_two_calls {A : Type} (p1 p2 : prog (memory * L) Z) (k : prog (Machine (Mpi.t L)) A) h l m :
  run (s ← p1; s' ← p2; mret (s, s')) (heap m, Mpi.library (backend m)) = Done (MPI_SUCCESS, MPI_SUCCESS) (h, l) ->
  run (status ← Mpi.call p1; _ ← check status; status ← Mpi.call p2; _ ← check status; k) m = run k (after h l m).
Proof.
  intros (s1 & [h1 l1] & E1 & (s2 & [h2 l2] & E2 & E3)%run_bind_inv)%run_bind_inv. injection E3 as -> -> -> ->.
  rewrite (run_bind_Done _ _ _ _ _ (run_mpi_call_Done _ _ _ _ _ E1)), (run_bind_Done _ _ _ _ _ (run_check _ _ eq_refl)).
  rewrite (run_bind_Done _ _ _ _ _ (run_mpi_call_Done _ _ _ _ (after h1 l1 m) E2)), (run_bind_Done _ _ _ _ _ (run_check _ _ eq_refl)).
  by rewrite after_after.
Qed.

Lemma run_put this g r acquired w wr ws dO src sp ss sO n bs old new m :
  available (Mpi.library (backend m)) -> remote_slot g r acquired w wr ws m -> slot_at m src sp ss ->
  0 <= n < 2 ^ 31 -> 0 <= dO < 2 ^ 31 -> mem_load (heap m) (ptr_add sp sO) n = Some bs ->
  win_mem (heap m, Mpi.library (backend m)) w r = Some old -> write_at (Z.to_nat dO) bs old = Some new ->
  exists ls l, run (memcpyImplGL this g dO src sO n) m = Done tt (set_locals ls (after (heap m) l m)) /\
    locals_sim (locals m) ls /\ self l = self (Mpi.library (backend m)) /\ win_mem (heap m, l) w r = Some new /\
    (forall w' r', held l w' r' = held (Mpi.library (backend m)) w' r') /\
    forall w' r', (w', r') <> (w, r) -> (w', r') <> (wr, r) ->
      win_mem (heap m, l) w' r' = win_mem (heap m, Mpi.library (backend m)) w' r'.
Proof.
  intros Hava [Hs Hr Hl [Hwr Hlr] _] Hsrc Hn Hd HL Hold Hnew. unfold memcpyImplGL.
  rewrite (run_bind_Done _ _ _ _ _ (run_cast _ _ _ Hs)). cbv zeta. cbn [MpiGlobalSlot._rank MpiGlobalSlot._lockAcquired
    MpiGlobalSlot._dataWindow MpiGlobalSlot._recvMessageCountWindow].
  rewrite (run_bind_Done _ _ _ _ _ (run_getPointer _ _ _ _ Hsrc)), (run_bind_Done _ _ _ _ _ (run_window w _)).
  destruct (run_lock_unless acquired r w m Hl) as (l1 & E1 & (Hs1 & Hh1 & Ho1 & Hm1) & Hav).
  rewrite (run_bind_Done _ _ _ _ _ E1). rewrite !to_int_small by done.
  destruct (put_ok (ptr_add sp sO) n r dO w (heap m) l1 bs old new) as (l2 & E2 & Hs2 & Hnew2 & Hh2 & Hm2);
    [by apply Hav|congruence|done|done|by rewrite Hm1|lia|done|].
  erewrite run_two_calls by exact E2. rewrite after_after.
  destruct (run_unlock_unless acquired r w (after (heap m) l2 m)) as (l3 & E3 & Hs3 & Hh3 & Ho3 & Hm3); [cbn; by rewrite Hh2|].
  rewrite (run_bind_Done _ _ _ _ _ E3), after_after. cbn in Hs3, Hh3, Ho3, Hm3.
  destruct (run_count LocalMemorySlot.increaseMessagesSent src (after (heap m) l3 m)) as (ls & E4 & Hls4).
  { done. }
  { destruct Hsrc as (x & Ex & _). by exists x. }
  rewrite (run_bind_Done _ _ _ _ _ E4), (run_bind_Done _ _ _ _ _ (run_window wr _)).
  assert (Hne : (wr, r) <> (w, r)) by congruence.
  destruct (run_increase r wr (set_locals ls (after (heap m) l3 m))) as (l5 & E5 & Hs5 & Hh5 & Hm5); [cbn; congruence| |].
  { cbn. by rewrite Ho3, Hh2, Ho1. }
  cbn in Hs5, Hh5, Hm5. exists ls, l5. split; [by rewrite E5|]. split_and!; [done|congruence|..].
  - by rewrite Hm5, Hm3 by congruence.
  - intros w' r'. rewrite Hh5. destruct (decide ((w', r') = (w, r))) as [[= -> ->]|Hw]; [congruence|].
    by rewrite Ho3, Hh2, Ho1.
  - intros w' r' H1 H2. by rewrite Hm5, Hm3, Hm2, Hm1.
Qed.

Lemma run_get this g r acquired w wr ws dst dp ds dO sO n bs bytes h m :
  remote_slot g r acquired w wr ws m -> slot_at m dst dp ds ->
  0 <= n < 2 ^ 31 -> 0 <= sO < 2 ^ 31 -> win_mem (heap m, Mpi.library (backend m)) w r = Some bytes ->
  read_at (Z.to_nat sO) (Z.to_nat n) bytes = Some bs -> mem_store (heap m) (ptr_add dp dO) bs = Some h ->
  exists ls l, run (memcpyImplLG this dst dO g sO n) m = Done tt (set_locals ls (after h l m)) /\ locals_sim (locals m) ls /\
    (forall w' r', held l w' r' = held (Mpi.library (backend m)) w' r').
Proof.
  intros [Hs Hr Hl _ [Hws Hls]] Hdst Hn Ho Hbytes Hread Hstore. unfold memcpyImplLG.
  rewrite (run_bind_Done _ _ _ _ _ (run_cast _ _ _ Hs)). cbv zeta. cbn [MpiGlobalSlot._rank MpiGlobalSlot._lockAcquired
    MpiGlobalSlot._dataWindow MpiGlobalSlot._sentMessageCountWindow].
  rewrite (run_bind_Done _ _ _ _ _ (run_getPointer _ _ _ _ Hdst)), (run_bind_Done _ _ _ _ _ (run_window w _)).
  destruct (run_lock_unless acquired r w m Hl) as (l1 & E1 & (Hs1 & Hh1 & Ho1 & Hm1) & Hav).
  rewrite (run_bind_Done _ _ _ _ _ E1). rewrite !to_int_small by done.
  destruct (get_ok (ptr_add dp dO) n r sO w (heap m) h l1 bs bytes) as (l2 & E2 & Hs2 & Hh2 & _);
    [congruence|done|by rewrite Hm1|lia|lia|done|done|].
  erewrite run_two_calls by exact E2. rewrite after_after.
  destruct (run_unlock_unless acquired r w (after h l2 m)) as (l3 & E3 & Hs3 & Hh3 & Ho3 & _); [cbn; by rewrite Hh2|].
  rewrite (run_bind_Done _ _ _ _ _ E3), after_after. cbn in Hs3, Hh3, Ho3. rewrite (run_bind_Done _ _ _ _ _ (run_window ws _)).
  assert (Hne : (ws, r) <> (w, r)) by congruence.
  destruct (run_increase r ws (after h l3 m)) as (l5 & E5 & Hs5 & Hh5 & _); [cbn; congruence|cbn; by rewrite Ho3, Hh2, Ho1|].
  rewrite (run_bind_Done _ _ _ _ _ E5), after_after. cbn in Hs5, Hh5.
  destruct (run_count LocalMemorySlot.increaseMessagesRecv dst (after h l5 m)) as (ls & E6 & Hls6).
  { done. }
  { destruct Hdst as (x & Ex & _). by exists x. }
  exists ls, l5. split; [exact E6|]. split; [done|]. intros w' r'. rewrite Hh5.
  destruct (decide ((w', r') = (w, r))) as [[= -> ->]|Hw]; [congruence|]. by rewrite Ho3, Hh2, Ho1.
Qed.

(** ** Theorems *)

(** C16: A copy to a slot of another process and back, on windows large enough.  The
    bytes that the first copy takes from a local slot are those that the second
    one brings to another; the windows are locked for the time of each copy,
    unless the slot has been locked before, and no lock is left behind. *)
Theorem mpi_copy_roundtrip this g r acquired w wr ws src sp ss sO dst dp ds dO off n bs old new h (m : Machine (Mpi.t L)) :
  available (Mpi.library (backend m)) -> remote_slot g r acquired w wr ws m -> slot_at m src sp ss -> slot_at m dst dp ds ->
  0 <= n < 2 ^ 31 -> 0 <= off < 2 ^ 31 -> is_size (n + sO) -> n + sO <= ss -> is_size (n + dO) -> n + dO <= ds ->
  mem_load (heap m) (ptr_add sp sO) n = Some bs -> win_mem (heap m, Mpi.library (backend m)) w r = Some old ->
  write_at (Z.to_nat off) bs old = Some new -> mem_store (heap m) (ptr_add dp dO) bs = Some h ->
  exists m1 m2, run (CommunicationManager.memcpyGL this g off src sO n) m = Done tt m1 /\
    run (CommunicationManager.memcpyLG this dst dO g off n) m1 = Done tt m2 /\
    win_mem (heap m1, Mpi.library (backend m1)) w r = Some new /\ heap m1 = heap m /\ heap m2 = h /\
    (forall w' r', held (Mpi.library (backend m2)) w' r' = held (Mpi.library (backend m)) w' r').
Proof.
  intros Hava Hrs Hsrc Hdst Hn Ho ???? HL Hold Hnew Hst.
  destruct (run_put this g r acquired w wr ws off src sp ss sO n bs old new m) as (ls & l & E1 & Hls & Hself & Hw & Hheld & _); [done..|].
  exists (set_locals ls (after (heap m) l m)). destruct (mem_load_length _ _ _ _ HL) as [Hlen _].
  destruct (run_get this g r acquired w wr ws dst dp ds dO off n bs new h (set_locals ls (after (heap m) l m)))
    as (ls2 & l2 & E2 & _ & Hheld2); try done.
  - destruct Hrs as [? ? ? [? ?] [? ?]]. split; cbn; rewrite ?Hself, ?Hheld; done.
  - by apply counted_slot_at.
  - replace (Z.to_nat n) with (length bs) by lia. by apply read_write_same with old.
  - exists (set_locals ls2 (after h l2 (set_locals ls (after (heap m) l m)))).
    split_and!; [..|intros w' r'; cbn; by rewrite Hheld2; apply Hheld]; try done.
    + unfold CommunicationManager.memcpyGL. rewrite (run_bind_Done _ _ _ _ _ (run_getSize _ _ _ _ Hsrc)). cbv zeta.
      erewrite run_bind_Done by (by apply run_throw_if_false, gtb_wrap_false). exact E1.
    + unfold CommunicationManager.memcpyLG.
      rewrite (run_bind_Done _ _ _ _ _ (run_getSize _ _ dp ds (proj2 (counted_slot_at _ _ _ _ _ _ _ Hls) Hdst))). cbv zeta.
      erewrite run_bind_Done by (by apply run_throw_if_false, gtb_wrap_false). exact E2.
Qed.

(** When [MPI_Put] fails, the copy throws at once: the window that it has locked
    stays locked, and a later copy to the slot would lock it a second time. *)
Theorem mpi_put_leaves_lock this g r w wr ws dO src sp ss sO n status (m : Machine (Mpi.t L)) :
  remote_slot g r false w wr ws m -> slot_at m src sp ss -> 0 <= n < 2 ^ 31 -> 0 <= dO < 2 ^ 31 ->
  status <> MPI_SUCCESS ->
  (forall l, run (MPI_Win_lock (negb MPI_LOCK_EXCLUSIVE) r MPI_MODE_NOCHECK w) (heap m, Mpi.library (backend m)) = Done MPI_SUCCESS (heap m, l) ->
     exists h' l', run (MPI_Put (ptr_add sp sO) n r dO w) (heap m, l) = Done status (h', l') /\ held l' w r = held l w r) ->
  exists m', run (memcpyImplGL this g dO src sO n) m = Thrown runtime m' /\
    held (Mpi.library (backend m')) w r = true /\
    Mpi.mpi_slots (backend m') !! g = Some (MpiGlobalSlot.mk false r (Some w) (Some wr) (Some ws)).
Proof.
  intros [Hs Hr Hl _ _] Hsrc Hn Hd Hst Hput. unfold memcpyImplGL.
  rewrite (run_bind_Done _ _ _ _ _ (run_cast _ _ _ Hs)). cbv zeta. cbn [MpiGlobalSlot._rank MpiGlobalSlot._lockAcquired MpiGlobalSlot._dataWindow].
  rewrite (run_bind_Done _ _ _ _ _ (run_getPointer _ _ _ _ Hsrc)), (run_bind_Done _ _ _ _ _ (run_window w _)).
  destruct (lock_ok (negb MPI_LOCK_EXCLUSIVE) r MPI_MODE_NOCHECK w (heap m) _ Hl) as (l1 & E1 & _ & _ & Hh1 & _).
  destruct (Hput l1 E1) as (h & l & E & Hheld). rewrite Hh1 in Hheld. unfold lockMPIWindow.
  erewrite run_bind_Done by (by rewrite (run_bind_Done _ _ _ _ _ (run_mpi_call_Done _ _ _ _ m E1))). rewrite !to_int_small by done.
  rewrite (run_bind_Done _ _ _ _ _ (run_mpi_call_Done _ _ _ _ (after (heap m) l1 m) E)), after_after.
  exists (after h l m). split; [|done]. rewrite run_bind. unfold check.
  by rewrite run_throw_if_true by (by rewrite (proj2 (Z.eqb_neq _ _) Hst)).
Qed.

End Copies.

(** ** The slots of a manager *)

Section Slots.
Context {L : Type}.

(** The slot that a manager has kept after its deregistration, under a tag and a key. *)
Definition deregistered_slot (this : nat) (tag key : Z) (m : Machine (Mpi.t L)) : option nat :=
  f ← Mpi.mpi_managers (backend m) !! this; default ∅ (Mpi._deregisteredGlobalMemorySlotsTagKeyMap f !! tag) !! key.

(** The registered ones come first. *)
Definition known (this : nat) (tag key : Z) (m : Machine (Mpi.t L)) : option nat :=
  match registered_slot this tag key m with
  | Some g => Some g
  | None => deregistered_slot this tag key m
  end.

End Slots.
