(* ===== verification/MpiDestroy.v ===== *)
(** * The MPI backend: the collective destruction of slots

    A fence destroys, in the order of their keys, the slots that any of the
    processes has marked. *)

From S2P Require Import Prelude Memory CommunicationManager Mpi MpiSpec.
From Stdlib Require Import ZArith Lia.
From Stdlib.Strings Require Import Byte.
From stdpp Require Import base list gmap option sorting.

Local Open Scope Z_scope.
Local Open Scope hicr_scope.

(** ** Destruction *)

Section Destruction.
Context {L : Type} {M : MPI L} {Sp : MpiSpec L}.
Implicit Types m : Machine (Mpi.t L).
Import MpiCommunicationManager.

(** The slot under [key] has the windows [ws]. *)
Definition has_windows (this : nat) (tag key : Z) (ws : list nat) (m : Machine (Mpi.t L)) : Prop :=
  exists g acquired r w wr wsent, known this tag key m = Some g /\
    Mpi.mpi_slots (backend m) !! g = Some (MpiGlobalSlot.mk acquired r (Some w) (Some wr) (Some wsent)) /\
    ws = [w; wr; wsent].

(** [m'] is [m] without the keys [keys] of [tag]. *)
Record forgotten (this : nat) (tag : Z) (keys : list Z) (m m' : Machine (Mpi.t L)) : Prop := mkForgotten {
  fo_registered : forall tag' key, tag' <> tag \/ key ∉ keys -> registered_slot this tag' key m' = registered_slot this tag' key m;
  fo_deregistered : forall tag' key, tag' <> tag \/ key ∉ keys -> deregistered_slot this tag' key m' = deregistered_slot this tag' key m;
  fo_gone : forall key, key ∈ keys -> is_Some (registered_slot this tag key m) -> registered_slot this tag key m' = None;
  fo_managers : is_Some (managers m' !! this) /\ is_Some (Mpi.mpi_managers (backend m') !! this);
  fo_slots : Mpi.mpi_slots (backend m') = Mpi.mpi_slots (backend m);
  fo_heap : heap m' = heap m
}.

(** The three windows of a slot are freed. *)
Lemma run_free3 this g acquired r w wr ws m :
  Mpi.mpi_slots (backend m) !! g = Some (MpiGlobalSlot.mk acquired r (Some w) (Some wr) (Some ws)) ->
  NoDup [w; wr; ws] -> Forall (live (Mpi.library (backend m))) [w; wr; ws] ->
  exists l, run (destroyGlobalMemorySlotImpl this g) m = Done tt (after (heap m) l m) /\
    self l = self (Mpi.library (backend m)) /\ incoming l = incoming (Mpi.library (backend m)) /\
    freed l = freed (Mpi.library (backend m)) ++ [w; wr; ws] /\
    forall w', w' ∉ [w; wr; ws] -> live (Mpi.library (backend m)) w' -> live l w'.
Proof.
  intros Hs Hnd Hlive. apply Forall_cons in Hlive as [H1 [H2 [H3 _]%Forall_cons]%Forall_cons].
  apply NoDup_cons in Hnd as [N1 [N2 _]%NoDup_cons]. unfold destroyGlobalMemorySlotImpl.
  rewrite (run_bind_Done _ _ _ _ _ (run_cast _ _ _ Hs)). cbn [MpiGlobalSlot._dataWindow MpiGlobalSlot._recvMessageCountWindow MpiGlobalSlot._sentMessageCountWindow].
  rewrite (run_bind_Done _ _ _ _ _ (run_window w m)).
  destruct (free_ok w (heap m) _ H1) as (l1 & E1 & S1 & I1 & F1 & L1).
  rewrite (run_bind_Done _ _ _ _ _ (run_mpi_call_Done _ _ _ _ m E1)), (run_bind_Done _ _ _ _ _ (run_check _ _ eq_refl)).
  rewrite (run_bind_Done _ _ _ _ _ (run_window wr _)).
  destruct (free_ok wr (heap m) l1) as (l2 & E2 & S2 & I2 & F2 & L2); [apply L1; [set_solver|done]|].
  rewrite (run_bind_Done _ _ _ _ _ (run_mpi_call_Done _ _ _ _ (after (heap m) l1 m) E2)), (run_bind_Done _ _ _ _ _ (run_check _ _ eq_refl)), after_after.
  rewrite (run_bind_Done _ _ _ _ _ (run_window ws _)).
  destruct (free_ok ws (heap m) l2) as (l3 & E3 & S3 & I3 & F3 & L3); [apply L2, L1; [set_solver..|done]|].
  rewrite (run_bind_Done _ _ _ _ _ (run_mpi_call_Done _ _ _ _ (after (heap m) l2 m) E3)), after_after.
  exists l3. split; [done|]. split_and!; [congruence|congruence|by rewrite F3, F2, F1, <- !app_assoc|].
  intros w' Hw' Hl'. apply L3, L2, L1; set_solver.
Qed.

(** Access to the maps creates their entries for the tag, which is not observed. *)
Lemma run_keys_of this tag c m :
  managers m !! this = Some c ->
  run (keys_of this tag) m = Done (default ∅ (CommunicationManagerFields._globalMemorySlotTagKeyMap c !! tag))
    (set_managers (<[this := CommunicationManager.with_tag_key_map
       (<[tag := default ∅ (CommunicationManagerFields._globalMemorySlotTagKeyMap c !! tag)]>
          (CommunicationManagerFields._globalMemorySlotTagKeyMap c)) c]> (managers m)) m).
Proof.
  intros Hc. unfold keys_of. erewrite run_bind_Done; [|apply run_update; rewrite Hc; reflexivity].
  erewrite run_bind_Done; [|apply run_fetch; cbn; apply lookup_insert_eq]. cbn. by rewrite lookup_insert_eq.
Qed.

Lemma run_deregistered_keys_of this tag f m :
  Mpi.mpi_managers (backend m) !! this = Some f ->
  run (deregistered_keys_of this tag) m = Done (default ∅ (Mpi._deregisteredGlobalMemorySlotsTagKeyMap f !! tag))
    (set_backend (Mpi.set_managers (<[this := Mpi.set_deregistered
       (<[tag := default ∅ (Mpi._deregisteredGlobalMemorySlotsTagKeyMap f !! tag)]>
          (Mpi._deregisteredGlobalMemorySlotsTagKeyMap f)) f]> (Mpi.mpi_managers (backend m))) (backend m)) m).
Proof.
  intros Hf. unfold deregistered_keys_of. erewrite run_bind_Done; [|apply run_update; rewrite Hf; reflexivity].
  erewrite run_bind_Done; [|apply run_fetch; cbn; apply lookup_insert_eq]. cbn. by rewrite lookup_insert_eq.
Qed.

(** The lookup of a key in a map of maps after a key of one of them is gone. *)
Lemma lookup_forget (mm : gmap Z (gmap Z nat)) tag key tag' key' :
  tag' <> tag \/ key' <> key ->
  default ∅ (<[tag := delete key (default ∅ (mm !! tag))]> mm !! tag') !! key' = default ∅ (mm !! tag') !! key'.
Proof.
  intros H. rewrite lookup_insert. case_decide as E; [subst|done]. cbn. rewrite lookup_delete_ne; [done|].
  destruct H; congruence.
Qed.

Lemma lookup_touch (mm : gmap Z (gmap Z nat)) tag tag' :
  default ∅ (<[tag := default ∅ (mm !! tag)]> mm !! tag') = default ∅ (mm !! tag').
Proof. rewrite lookup_insert. by case_decide as E; [subst|]. Qed.

(** What freeing the windows [ws] does to the library. *)
Definition library_freed (ws : list nat) (l l' : L) : Prop :=
  self l' = self l /\ incoming l' = incoming l /\ freed l' = freed l ++ ws /\ forall w, w ∉ ws -> live l w -> live l' w.

(** One key is taken out of the maps and its slot destroyed. *)
Lemma run_destroy_key this tag key ws m :
  is_Some (managers m !! this) -> is_Some (Mpi.mpi_managers (backend m) !! this) ->
  has_windows this tag key ws m -> NoDup ws -> Forall (live (Mpi.library (backend m))) ws ->
  exists m', run (destroy_key this tag key) m = Done tt m' /\ forgotten this tag [key] m m' /\
    library_freed ws (Mpi.library (backend m)) (Mpi.library (backend m')).
Proof.
  intros [c Hc] [f Hf] (g & acquired & r & w & wr & wsent & Hk & Hs & ->) Hnd Hlive.
  unfold destroy_key. rewrite (run_bind_Done _ _ _ _ _ (run_keys_of this tag c m Hc)).
  unfold known, registered_slot, deregistered_slot in Hk. rewrite Hc, Hf in Hk. cbn in Hk.
  set (tkm := CommunicationManagerFields._globalMemorySlotTagKeyMap c) in *.
  set (d := Mpi._deregisteredGlobalMemorySlotsTagKeyMap f) in *.
  destruct (default ∅ (tkm !! tag) !! key) as [g'|] eqn:Ek.
  - injection Hk as ->. erewrite run_bind_Done; [|apply run_update; cbn; rewrite lookup_insert_eq; reflexivity].
    match goal with |- context [run (destroyGlobalMemorySlotImpl _ _) ?u] =>
      destruct (run_free3 this g acquired r w wr wsent u Hs Hnd Hlive) as (l & E & ? & ? & ? & ?) end.
    eexists. split; [exact E|]. split; [|by split_and!].
    split; try done; unfold registered_slot, deregistered_slot; cbn; rewrite ?Hc, ?Hf, ?lookup_insert_eq; cbn; fold tkm; [..|by eauto].
    + intros tag' key' Hne. rewrite insert_insert_eq, lookup_forget; [done|]. set_solver.
    + intros key' ->%list_elem_of_singleton _. rewrite insert_insert_eq, lookup_insert_eq. cbn. apply lookup_delete_eq.
  - erewrite run_bind_Done; [|apply run_deregistered_keys_of; exact Hf]. fold d. rewrite Hk.
    erewrite run_bind_Done; [|apply run_update; cbn; rewrite lookup_insert_eq; reflexivity].
    match goal with |- context [run (destroyGlobalMemorySlotImpl _ _) ?u] =>
      destruct (run_free3 this g acquired r w wr wsent u Hs Hnd Hlive) as (l & E & ? & ? & ? & ?) end.
    eexists. split; [exact E|]. split; [|by split_and!].
    split; try done; unfold registered_slot, deregistered_slot; cbn; rewrite ?Hc, ?Hf, ?lookup_insert_eq; cbn; fold tkm d; [..|by eauto].
    + intros tag' key' Hne. by rewrite lookup_touch.
    + intros tag' key' Hne. rewrite insert_insert_eq, lookup_forget; [done|]. set_solver.
    + intros key' ->%list_elem_of_singleton. rewrite Ek. by intros [].
Qed.

Lemma has_windows_forgotten this tag keys key ws m m' :
  forgotten this tag keys m m' -> key ∉ keys -> has_windows this tag key ws m -> has_windows this tag key ws m'.
Proof.
  intros Hf Hk (g & acquired & r & w & wr & wsent & E & Hs & ->). exists g, acquired, r, w, wr, wsent.
  unfold known in *. rewrite (fo_registered _ _ _ _ _ Hf), (fo_deregistered _ _ _ _ _ Hf), (fo_slots _ _ _ _ _ Hf) by (by right). done.
Qed.

(** All keys, one after the other. *)
Lemma run_destroy_keys this tag ws keys : forall m,
  is_Some (managers m !! this) -> is_Some (Mpi.mpi_managers (backend m) !! this) -> NoDup keys ->
  (forall key, key ∈ keys -> has_windows this tag key (ws key) m) ->
  NoDup (concat (map ws keys)) -> Forall (live (Mpi.library (backend m))) (concat (map ws keys)) ->
  exists m', run (for_each keys (destroy_key this tag)) m = Done tt m' /\ forgotten this tag keys m m' /\
    library_freed (concat (map ws keys)) (Mpi.library (backend m)) (Mpi.library (backend m')).
Proof.
  induction keys as [|key keys IH]; intros m Hc Hf Hnd Hws Hn Hl; cbn [for_each map concat] in *.
  { exists m. split; [done|]. split; [by split; [..|intros ? ?%not_elem_of_nil| | |]|]. split_and!; [done|done|by rewrite app_nil_r|done]. }
  apply NoDup_cons in Hnd as [Hk Hnd]. apply NoDup_app in Hn as (Hn1 & Hd & Hn2). apply Forall_app in Hl as [Hl1 Hl2].
  destruct (run_destroy_key this tag key (ws key) m) as (m1 & E1 & F1 & S1 & I1 & R1 & L1); [done|done|apply Hws; left|done|done|].
  destruct (IH m1) as (m2 & E2 & F2 & S2 & I2 & R2 & L2); [apply F1|apply F1|done| |done| |].
  - intros key' Hin. eapply has_windows_forgotten; [exact F1| |apply Hws; by right]. set_solver.
  - apply Forall_forall. intros w Hw. apply L1; [intros Hw'; by apply (Hd w)|]. by eapply Forall_forall in Hl2.
  - exists m2. split; [by rewrite (run_bind_Done _ _ _ _ _ E1)|]. split; [|split_and!].
    + split.
      * intros tag' key' H. rewrite (fo_registered _ _ _ _ _ F2), (fo_registered _ _ _ _ _ F1); [done|set_solver..].
      * intros tag' key' H. rewrite (fo_deregistered _ _ _ _ _ F2), (fo_deregistered _ _ _ _ _ F1); [done|set_solver..].
      * intros key' Hin Hreg. destruct (decide (key' ∈ keys)) as [Hin'|Hin'].
        -- apply (fo_gone _ _ _ _ _ F2); [done|]. rewrite (fo_registered _ _ _ _ _ F1); [done|set_solver].
        -- rewrite (fo_registered _ _ _ _ _ F2) by (by right). apply (fo_gone _ _ _ _ _ F1); [set_solver|done].
      * apply F2.
      * by rewrite (fo_slots _ _ _ _ _ F2), (fo_slots _ _ _ _ _ F1).
      * by rewrite (fo_heap _ _ _ _ _ F2), (fo_heap _ _ _ _ _ F1).
    + congruence.
    + congruence.
    + by rewrite R2, R1, app_assoc.
    + intros w Hw Hlw. apply L2, L1; set_solver.
Qed.

(** The keys of the slots marked for destruction. *)
Lemma run_marked_keys slots mine m :
  Forall2 (fun g key => exists s, globals m !! g = Some s /\ GlobalMemorySlot._globalKey s = key) slots mine ->
  run (map_each (fun g => s ← global_slot g; mret (GlobalMemorySlot._globalKey s)) slots) m = Done mine m.
Proof.
  induction 1 as [|g key slots mine (s & E & <-) _ IH]; [done|]. cbn [map_each].
  erewrite run_bind_Done; [|erewrite run_bind_Done; [reflexivity|by apply run_fetch]]. by rewrite (run_bind_Done _ _ _ _ _ IH).
Qed.

(** The collective part of a fence. *)
Lemma run_destroy_collective this tag c ws cs mine rest m :
  managers m !! this = Some c -> is_Some (Mpi.mpi_managers (backend m) !! this) ->
  Forall2 (fun g key => exists s, globals m !! g = Some s /\ GlobalMemorySlot._globalKey s = key)
    (default [] (CommunicationManagerFields._globalMemorySlotsToDestroyPerTag c !! tag)) mine ->
  incoming (Mpi.library (backend m)) = counts_of cs :: concat cs :: rest ->
  cs !! Z.to_nat (self (Mpi.library (backend m))) = Some mine ->
  0 < Z.of_nat (length (concat cs)) < 2 ^ 31 -> Z.of_nat (length mine) < 2 ^ 31 ->
  (forall key, key ∈ concat cs -> has_windows this tag key (ws key) m) ->
  NoDup (concat (map ws (key_set (concat cs)))) ->
  Forall (live (Mpi.library (backend m))) (concat (map ws (key_set (concat cs)))) ->
  exists m', run (destroyGlobalMemorySlotsCollectiveImpl this tag) m = Done tt m' /\
    forgotten this tag (concat cs) m m' /\
    freed (Mpi.library (backend m')) = freed (Mpi.library (backend m)) ++ concat (map ws (key_set (concat cs))) /\
    incoming (Mpi.library (backend m')) = rest.
Proof.
  intros Hc Hf Hmine Hin Hcs Hlen Hmlen Hws Hnd Hlive. unfold destroyGlobalMemorySlotsCollectiveImpl.
  set (slots := default [] (CommunicationManagerFields._globalMemorySlotsToDestroyPerTag c !! tag)) in *.
  erewrite run_bind_Done; [|apply run_update; rewrite Hc; reflexivity].
  erewrite run_bind_Done; [|apply run_fetch; cbn; apply lookup_insert_eq]. cbv zeta.
  set (m1 := set_managers _ m). cbn [CommunicationManagerFields._globalMemorySlotsToDestroyPerTag CommunicationManager.with_to_destroy].
  fold slots. rewrite lookup_insert_eq. change (default [] (Some slots)) with slots. pose proof (Forall2_length _ _ _ Hmine) as Hml.
  destruct (run_layout cs m1) as (offsets & Eo & Et & Hseg); [lia|]. destruct (Hseg _ _ Hcs) as (offset & Ho & Hcount & Hmy).
  destruct (allgather_ok (heap m1) (Mpi.library (backend m1)) (Z.of_nat (length mine)) _ _ Hin Hcount)
    as (l1 & E1 & S1 & I1 & F1 & L1 & _).
  rewrite Hml, to_int_small by lia. rewrite (run_bind_Done _ _ _ _ _ (run_mpi_call_Done _ _ _ _ m1 E1)).
  set (m2 := after (heap m1) l1 m1).
  destruct (run_layout cs m2) as (offsets' & Eo' & Et' & Hseg'); [lia|]. destruct (Hseg' _ _ Hcs) as (offset' & Ho' & _ & Hmy').
  rewrite (run_bind_Done _ _ _ _ _ Eo'), (run_bind_Done _ _ _ _ _ Et'). rewrite (proj2 (Z.eqb_neq _ 0)) by lia.
  rewrite (run_bind_Done _ _ _ _ _ (run_marked_keys _ _ m2 Hmine)).
  destruct (allgatherv_ok (heap m2) l1 mine (Z.of_nat (length (concat cs))) (counts_of cs) offsets' (Z.of_nat (length mine)) offset'
    (concat cs) rest) as (l2 & E2 & S2 & I2 & F2 & L2 & _); [done|done|by rewrite S1|by rewrite S1|by rewrite Nat2Z.id|].
  rewrite (run_bind_Done _ _ _ _ _ (run_mpi_call_Done _ _ _ _ m2 E2)). destruct (key_set_spec (concat cs)) as (_ & Hns & Helem).
  destruct (run_destroy_keys this tag ws (key_set (concat cs)) (after (heap m2) l2 m2)) as (m3 & E3 & Hfo & S3 & I3 & F3 & _).
  - exists (CommunicationManager.with_to_destroy
      (<[tag := slots]> (CommunicationManagerFields._globalMemorySlotsToDestroyPerTag c)) c). apply lookup_insert_eq.
  - exact Hf.
  - done.
  - intros key Hk%Helem. destruct (Hws key Hk) as (g & a & r & w & wr & wsn & Hkn & ?). exists g, a, r, w, wr, wsn.
    split; [|done]. rewrite <- Hkn. unfold known, registered_slot. cbn. by rewrite Hc, lookup_insert_eq.
  - done.
  - eapply Forall_impl; [exact Hlive|]. intros w Hw. by apply L2, L1.
  - exists m3. split; [exact E3|]. split; [|split; [by rewrite F3; cbn; rewrite F2, F1|by rewrite I3]].
    destruct Hfo as [Hr Hd Hg Hm Hsl Hh].
    assert (Hsame : forall tag' key, registered_slot this tag' key (after (heap m2) l2 m2) = registered_slot this tag' key m).
    { intros. unfold registered_slot. cbn. by rewrite Hc, lookup_insert_eq. }
    split; try done.
    + intros tag' key Hne. rewrite Hr, Hsame; [done|]. by rewrite Helem.
    + intros tag' key Hne. rewrite Hd; [done|]. by rewrite Helem.
    + intros key Hk Hreg. apply Hg; [by apply Helem|by rewrite Hsame].
Qed.

(** ** Theorem *)

(** C15: The fence of a tag destroys the slots whose keys any of the processes has
    marked, each once and in ascending order of the keys, so that the collective
    calls that free the windows come in the same order in every process.  [cs]
    are the marked keys of the processes by rank; every key is known to this
    process, registered or deregistered, with windows that exist.  Afterwards
    the slots that were registered under these keys are gone, all others are
    kept, and nothing is marked. *)
Theorem mpi_fence_destroys this tag c ws cs mine rest (m : Machine (Mpi.t L)) :
  managers m !! this = Some c -> is_Some (Mpi.mpi_managers (backend m) !! this) ->
  Forall2 (fun g key => exists s, globals m !! g = Some s /\ GlobalMemorySlot._globalKey s = key)
    (default [] (CommunicationManagerFields._globalMemorySlotsToDestroyPerTag c !! tag)) mine ->
  incoming (Mpi.library (backend m)) = counts_of cs :: concat cs :: rest ->
  cs !! Z.to_nat (self (Mpi.library (backend m))) = Some mine ->
  0 < Z.of_nat (length (concat cs)) < 2 ^ 31 -> Z.of_nat (length mine) < 2 ^ 31 ->
  (forall key, key ∈ concat cs -> has_windows this tag key (ws key) m) ->
  NoDup (concat (map ws (key_set (concat cs)))) ->
  Forall (live (Mpi.library (backend m))) (concat (map ws (key_set (concat cs)))) ->
  exists m', run (CommunicationManager.fence this tag) m = Done tt m' /\
    forgotten this tag (concat cs) m m' /\
    freed (Mpi.library (backend m')) = freed (Mpi.library (backend m)) ++ concat (map ws (key_set (concat cs))) /\
    StronglySorted Z.le (key_set (concat cs)) /\ NoDup (key_set (concat cs)) /\ (forall key, key ∈ key_set (concat cs) <-> key ∈ concat cs) /\
    (forall c', managers m' !! this = Some c' -> CommunicationManagerFields._globalMemorySlotsToDestroyPerTag c' !! tag = None).
Proof.
  intros Hc Hf Hmine Hin Hcs Hlen Hmlen Hws Hnd Hlive. destruct (key_set_spec (concat cs)) as (K1 & K2 & K3).
  destruct (barrier_ok (heap m) (Mpi.library (backend m))) as (l & E & S & I & F & Hl).
  destruct (run_destroy_collective this tag c ws cs mine rest (after (heap m) l m)) as (m1 & E1 & Hfo & F1 & _);
    [done|done|done|cbn; congruence|cbn; congruence|done|done|done|done| |].
  { eapply Forall_impl; [exact Hlive|]. intros w Hw. by apply Hl. }
  destruct Hfo as [Hr Hd Hg [[c1 Hc1] [f1 Hf1]] Hs Hh].
  eexists. split; [|split; [|split; [|split; [exact K1|split; [exact K2|split; [exact K3|]]]]]].
  - unfold CommunicationManager.fence. cbn [fenceImplTag mpi_backend]. unfold fenceImpl.
    erewrite run_bind_Done; [|rewrite (run_bind_Done _ _ _ _ _ (run_mpi_call_Done _ _ _ _ m E)); exact E1].
    apply run_update. rewrite Hc1. reflexivity.
  - assert (Hsame : forall tag' key, registered_slot this tag' key
      (set_managers (<[this := CommunicationManager.with_to_destroy (delete tag (CommunicationManagerFields._globalMemorySlotsToDestroyPerTag c1)) c1]> (managers m1)) m1)
      = registered_slot this tag' key m1).
    { intros. unfold registered_slot. cbn. by rewrite lookup_insert_eq, Hc1. }
    split; try done.
    + intros tag' key Hne. rewrite Hsame. by apply Hr.
    + intros key Hk Hreg. rewrite Hsame. by apply Hg.
    + cbn. rewrite lookup_insert_eq, Hf1. eauto.
  - cbn in F1 |- *. congruence.
  - intros c'. cbn. rewrite lookup_insert_eq. intros [= <-]. cbn. apply lookup_delete_eq.
Qed.

End Destruction.
