(* ===== verification/MpiExchange.v ===== *)
(** * The MPI backend: the exchange of slots

    Every process ends with one global slot per entry of any process, in the same
    order, and its own local slots are moved to the memory of the windows. *)

From S2P Require Import Prelude Memory CommunicationManager Mpi MpiSpec.
From Stdlib Require Import ZArith Lia.
From Stdlib.Strings Require Import Byte.
From stdpp Require Import base list gmap option sorting.

Local Open Scope Z_scope.
Local Open Scope hicr_scope.

(** ** The exchange of slots *)

Section Exchange.
Context {L : Type} {M : MPI L} {Sp : MpiSpec L}.
Implicit Types m : Machine (Mpi.t L).
Import MpiCommunicationManager.

(** What allocating windows does to the library. *)
Definition library_allocated (ws : list nat) (l l' : L) : Prop :=
  self l' = self l /\ incoming l' = incoming l /\ available l' /\ NoDup ws /\ Forall (live l') ws /\
  forall w, live l w -> live l' w /\ (w ∉ ws) /\ win_base l' w = win_base l w.

(** The window [w] has the block [b] for its memory at this process, which was not
    there in [h]. *)
Definition window_memory (l : L) (w b : nat) (h : memory) : Prop := win_base l w = Ptr b 0 /\ h !! b = None.

(** A counter has eight bytes. *)
Definition counter_block (h : memory) (b : nat) : Prop := exists bytes, h !! b = Some bytes /\ Z.of_nat (length bytes) = SIZEOF_SIZE_T.

(** [m'] is [m] with the slot [g] for one gathered entry: registered under its
    key, with three windows that have not been there before; for an entry of this
    process, whose local slot is [source], each of them has a new block for its memory,
    that of the data window holds the bytes [bs], and both [source] and the local slot of
    [g] now point there. *)
Record created (this : nat) (tag : Z) (entry : Z * Z * Z * option nat) (bs : list byte) (g : nat)
    (m m' : Machine (Mpi.t L)) : Prop := mkCreated {
  cr_fresh : globals m !! g = None;
  cr_globals : forall g', g' <> g -> globals m' !! g' = globals m !! g';
  cr_slots : forall g', g' <> g -> Mpi.mpi_slots (backend m') !! g' = Mpi.mpi_slots (backend m) !! g';
  cr_registered : registered_slot this tag entry.1.1.2 m' = Some g;
  cr_others : forall tag' key', (tag', key') <> (tag, entry.1.1.2) -> registered_slot this tag' key' m' = registered_slot this tag' key' m;
  cr_heap : forall b bytes, heap m !! b = Some bytes -> heap m' !! b = Some bytes;
  cr_made : exists w wr ws, library_allocated [w; wr; ws] (Mpi.library (backend m)) (Mpi.library (backend m')) /\
    Mpi.mpi_slots (backend m') !! g = Some (MpiGlobalSlot.mk false entry.1.1.1 (Some w) (Some wr) (Some ws)) /\
    match entry.2 with
    | None => globals m' !! g = Some (GlobalMemorySlot.mk tag entry.1.1.2 None) /\ locals m' = locals m
    | Some source => exists l b br bs', globals m' !! g = Some (GlobalMemorySlot.mk tag entry.1.1.2 (Some l)) /\
        locals m !! l = None /\ slot_at m' l (Ptr b 0) entry.1.2 /\ slot_at m' source (Ptr b 0) entry.1.2 /\
        heap m' !! b = Some bs /\ counter_block (heap m') br /\ counter_block (heap m') bs' /\ NoDup [b; br; bs'] /\
        window_memory (Mpi.library (backend m')) w b (heap m) /\ window_memory (Mpi.library (backend m')) wr br (heap m) /\
        window_memory (Mpi.library (backend m')) ws bs' (heap m) /\
        forall l', l' <> l -> l' <> source -> locals m' !! l' = locals m !! l'
    end;
  cr_managers : Mpi.mpi_managers (backend m') = Mpi.mpi_managers (backend m) /\ is_Some (managers m' !! this)
}.

(** A window is allocated and stored in the slot. *)
Lemma run_win_allocate n m :
  available (Mpi.library (backend m)) -> 0 <= n < 2 ^ 31 ->
  exists p w h l, run (Mpi.call (MPI_Win_allocate n)) m = Done (MPI_SUCCESS, p, w) (after h l m) /\
    (if 0 <? n then exists b bs, p = Ptr b 0 /\ heap m !! b = None /\ h = <[b := bs]> (heap m) /\ length bs = Z.to_nat n else h = heap m) /\
    library_allocated [w] (Mpi.library (backend m)) l /\ win_base l w = p.
Proof.
  intros Ha Hn. destruct (win_allocate_ok n (heap m) _ Ha Hn) as (p & w & h & l & E & Hh & S & I & Hw & Hb & Hl & Ha').
  exists p, w, h, l. split; [by apply run_mpi_call_Done|]. split; [done|]. split; [|done]. split_and!; [done|done|done|by apply NoDup_singleton|by repeat constructor|].
  intros w' Hw'. destruct (Hl w' Hw') as (? & ? & ?). split_and!; [done|by rewrite list_elem_of_singleton|done].
Qed.

Lemma library_allocated_app ws ws' l1 l2 l3 :
  library_allocated ws l1 l2 -> library_allocated ws' l2 l3 -> library_allocated (ws ++ ws') l1 l3.
Proof.
  intros (S1 & I1 & _ & N1 & F1 & L1) (S2 & I2 & A2 & N2 & F2 & L2). split_and!; [congruence|congruence|done| | |].
  - apply NoDup_app. split_and!; [done| |done]. intros w Hw. eapply Forall_forall in F1; [|exact Hw]. by destruct (L2 w F1) as (_ & ? & _).
  - apply Forall_app. split; [|done]. eapply Forall_impl; [exact F1|]. intros w Hw. by destruct (L2 w Hw) as (? & _ & _).
  - intros w Hw. destruct (L1 w Hw) as (Hw2 & ? & ?), (L2 w Hw2) as (? & ? & ?). split_and!; [done|rewrite elem_of_app; tauto|congruence].
Qed.

(** The storage of a local slot is moved: the new memory has its bytes. *)
Lemma run_move g source sp size old gs b m :
  slot_at m source sp size -> mem_load (heap m) sp size = Some old ->
  (exists bytes, heap m !! b = Some bytes /\ Z.of_nat (length bytes) = size) -> globals m !! g = Some gs ->
  exists l m', run (move_to_window g source (Ptr b 0) size) m = Done tt m' /\
    heap m' = <[b := old]> (heap m) /\ locals m !! l = None /\
    globals m' = <[g := GlobalMemorySlot.setSourceLocalMemorySlot (Some l) gs]> (globals m) /\
    slot_at m' l (Ptr b 0) size /\ slot_at m' source (Ptr b 0) size /\
    (forall l', l' <> l -> l' <> source -> locals m' !! l' = locals m !! l') /\
    managers m' = managers m /\ Mpi.mpi_slots (backend m') = Mpi.mpi_slots (backend m) /\
    Mpi.mpi_managers (backend m') = Mpi.mpi_managers (backend m) /\ Mpi.library (backend m') = Mpi.library (backend m).
Proof.
  intros (s & Es & Ep & En) Hold (bytes & Eb & Hlen) Hg. unfold move_to_window.
  rewrite (run_bind_Done _ _ _ _ _ (run_fetch (fun m => locals m !! source) m s Es)). rewrite Ep.
  destruct (mem_load_length _ _ _ _ Hold) as [Hl _].
  assert (Est : mem_store (heap m) (Ptr b 0) old = Some (<[b := old]> (heap m))).
  { cbn. rewrite Eb. cbn. unfold write_at. rewrite !bool_decide_true by lia. cbn.
    rewrite drop_ge by lia. by rewrite app_nil_r. }
  erewrite run_bind_Done; [|apply run_update; rewrite Hold; unfold mbind, option_bind; rewrite Est; reflexivity].
  erewrite run_bind_Done; [|apply run_update; cbn; rewrite Es; reflexivity]. unfold Mpi.new_local_slot. cbn.
  set (l := fresh _). assert (Hfr : l ∉ dom (<[source:=Mpi.with_pointer (Ptr b 0) s]> (locals m))) by apply is_fresh.
  rewrite Hg. cbn. assert (Hls : l <> source) by (intros ->; apply Hfr; rewrite dom_insert; set_solver).
  exists l. eexists. split; [reflexivity|]. cbn. split_and!; try done.
  - apply not_elem_of_dom. rewrite dom_insert in Hfr. set_solver.
  - eexists. cbn. rewrite lookup_insert_eq. by split_and!.
  - exists (Mpi.with_pointer (Ptr b 0) s). cbn. rewrite lookup_insert_ne, lookup_insert_eq by done. by split_and!.
  - intros l' H1 H2. by rewrite !lookup_insert_ne by done.
Qed.

(** Later allocations keep the memory that is there. *)
Definition heap_grows (h h' : memory) : Prop := forall b bytes, h !! b = Some bytes -> h' !! b = Some bytes.

Lemma allocated_grows n (p : ptr) (h h' : memory) :
  (if 0 <? n then exists b bs, p = Ptr b 0 /\ h !! b = None /\ h' = <[b := bs]> h /\ length bs = Z.to_nat n else h' = h) ->
  heap_grows h h'.
Proof.
  case_bool; [|by intros -> ? ?]. intros (b & bs & _ & Hb & -> & _) b' bytes Hb'. rewrite lookup_insert_ne; [done|]. congruence.
Qed.

(** A window for a counter. *)
Lemma run_counter_window (own : bool) f g s m :
  available (Mpi.library (backend m)) -> Mpi.mpi_slots (backend m) !! g = Some s ->
  exists w m', (forall A (k : prog (Machine (Mpi.t L)) A),
      run (r ← Mpi.call (MPI_Win_allocate (if own then SIZEOF_SIZE_T else 0));
           let '(status, p, w) := r in _ ← Mpi.update_slot (f w) g; _ ← check status; k) m = run k m') /\
    library_allocated [w] (Mpi.library (backend m)) (Mpi.library (backend m')) /\
    (own = true -> exists b, window_memory (Mpi.library (backend m')) w b (heap m) /\ counter_block (heap m') b) /\
    Mpi.mpi_slots (backend m') = <[g := f w s]> (Mpi.mpi_slots (backend m)) /\ heap_grows (heap m) (heap m') /\
    globals m' = globals m /\ locals m' = locals m /\ managers m' = managers m /\
    Mpi.mpi_managers (backend m') = Mpi.mpi_managers (backend m).
Proof.
  intros Ha Hs. destruct (run_win_allocate (if own then SIZEOF_SIZE_T else 0) m Ha) as (p & w & h & l & E & Hh & Hl & Hb);
    [destruct own; unfold SIZEOF_SIZE_T; lia|].
  exists w. eexists. split.
  - intros A k. rewrite (run_bind_Done _ _ _ _ _ E). cbn beta iota.
    erewrite run_bind_Done; [|apply run_update; cbn; rewrite Hs; reflexivity].
    by rewrite (run_bind_Done _ _ _ _ _ (run_check _ _ eq_refl)).
  - cbn. split_and!; try done; [|by eapply allocated_grows]. intros ->. cbn in Hh. destruct Hh as (b & bs & -> & Hn & -> & Hlen).
    exists b. split; [done|]. exists bs. rewrite lookup_insert_eq, Hlen. done.
Qed.

(** The counters' windows are allocated and the slot is registered. *)
Lemma run_create_end this tag key (own : bool) g id w src c m :
  available (Mpi.library (backend m)) -> managers m !! this = Some c ->
  Mpi.mpi_slots (backend m) !! g = Some (MpiGlobalSlot.mk false id (Some w) None None) ->
  globals m !! g = Some (GlobalMemorySlot.mk tag key src) ->
  exists wr ws m',
    run (recvWindow ← Mpi.call (MPI_Win_allocate (if own then SIZEOF_SIZE_T else 0));
         let '(status, p, w) := recvWindow in
         _ ← Mpi.update_slot (MpiGlobalSlot.set_recv w) g;
         _ ← check status;
         sentWindow ← Mpi.call (MPI_Win_allocate (if own then SIZEOF_SIZE_T else 0));
         let '(status, p, w) := sentWindow in
         _ ← Mpi.update_slot (MpiGlobalSlot.set_sent w) g;
         _ ← check status;
         CommunicationManager.registerGlobalMemorySlot this g) m = Done tt m' /\
    library_allocated [wr; ws] (Mpi.library (backend m)) (Mpi.library (backend m')) /\
    (own = true -> exists b b', b <> b' /\ window_memory (Mpi.library (backend m')) wr b (heap m) /\ counter_block (heap m') b /\
       window_memory (Mpi.library (backend m')) ws b' (heap m) /\ counter_block (heap m') b') /\
    Mpi.mpi_slots (backend m') = <[g := MpiGlobalSlot.mk false id (Some w) (Some wr) (Some ws)]> (Mpi.mpi_slots (backend m)) /\
    heap_grows (heap m) (heap m') /\ globals m' = globals m /\ locals m' = locals m /\
    registered_slot this tag key m' = Some g /\
    (forall tag' key', (tag', key') <> (tag, key) -> registered_slot this tag' key' m' = registered_slot this tag' key' m) /\
    Mpi.mpi_managers (backend m') = Mpi.mpi_managers (backend m) /\ is_Some (managers m' !! this).
Proof.
  intros Ha Hc Hs Hg. destruct (run_counter_window own MpiGlobalSlot.set_recv g _ m Ha Hs) as (wr & m1 & E1 & L1 & B1 & S1 & H1 & G1 & O1 & C1 & M1).
  destruct (run_counter_window own MpiGlobalSlot.set_sent g (MpiGlobalSlot.mk false id (Some w) (Some wr) None) m1)
    as (ws & m2 & E2 & L2 & B2 & S2 & H2 & G2 & O2 & C2 & M2); [apply L1|by rewrite S1, lookup_insert_eq|].
  destruct (run_register_slot this g tag key src c m2) as (c' & E3 & R3 & R3'); [by rewrite C2, C1|by rewrite G2, G1|].
  exists wr, ws. eexists. split; [rewrite E1, E2; exact E3|].
  split; [by apply (library_allocated_app [wr] [ws] _ _ _ L1)|]. cbn. split_and!; try congruence.
  - intros ->. destruct (B1 eq_refl) as (b & [Hb Hn] & x & Hx & Hlx), (B2 eq_refl) as (b' & [Hb' Hn'] & Hx').
    destruct L1 as (_ & _ & _ & _ & F1 & _). apply Forall_cons_1 in F1 as [F1 _]. destruct L2 as (_ & _ & _ & _ & _ & L2).
    destruct (L2 wr F1) as (_ & _ & Hw). exists b, b'. split_and!; [congruence|split; [|done]| |split; [done|]|done].
    + by rewrite <- Hb.
    + exists x. split; [by apply H2|done].
    + destruct (heap m !! b') as [y|] eqn:Ey; [|done]. by rewrite (H1 _ _ Ey) in Hn'.
  - rewrite S2, S1. by rewrite insert_insert_eq.
  - intros b bytes Hb. by apply H2, H1.
  - intros tag' key' Hne. rewrite R3' by done. unfold registered_slot. by rewrite C2, C1.
  - rewrite lookup_insert_eq. eauto.
Qed.

(** An entry is remote, or it is that of a local slot of this process, whose
    bytes are [bs]. *)
Definition entry_ok (rank : Z) (entry : Z * Z * Z * option nat) (bs : list byte) (m : Machine (Mpi.t L)) : Prop :=
  match entry.2 with
  | None => entry.1.1.1 <> rank
  | Some source => entry.1.1.1 = rank /\ 0 < entry.1.2 < 2 ^ 31 /\
      exists sp, slot_at m source sp entry.1.2 /\ mem_load (heap m) sp entry.1.2 = Some bs
  end.

(** Loads are not affected by new memory. *)
Lemma grows_load h h' p n bs : heap_grows h h' -> mem_load h p n = Some bs -> mem_load h' p n = Some bs.
Proof. intros Hg. destruct p as [|b o]; [done|]. cbn. destruct (h !! b) as [l|] eqn:E; [|done]. by rewrite (Hg _ _ E). Qed.

(** A new global slot and its data window. *)
Lemma run_create_start tag rank id key size src n m :
  available (Mpi.library (backend m)) -> n = (if id =? rank then to_int size else 0) -> 0 <= n < 2 ^ 31 ->
  exists g p w m', (forall A (k : nat -> Z -> ptr -> prog (Machine (Mpi.t L)) A),
      run (g ← Mpi.new_global_slot id tag key src; r ← Mpi.call (MPI_Win_allocate n);
           let '(status, p, w) := r in _ ← Mpi.update_slot (MpiGlobalSlot.set_data w) g; k g status p) m = run (k g MPI_SUCCESS p) m') /\
    globals m !! g = None /\ library_allocated [w] (Mpi.library (backend m)) (Mpi.library (backend m')) /\ win_base (Mpi.library (backend m')) w = p /\
    Mpi.mpi_slots (backend m') = <[g := MpiGlobalSlot.mk false id (Some w) None None]> (Mpi.mpi_slots (backend m)) /\
    (if 0 <? n then exists b bs, p = Ptr b 0 /\ heap m !! b = None /\ heap m' = <[b := bs]> (heap m) /\ length bs = Z.to_nat n
     else heap m' = heap m) /\
    globals m' = <[g := GlobalMemorySlot.mk tag key src]> (globals m) /\ locals m' = locals m /\ managers m' = managers m /\
    Mpi.mpi_managers (backend m') = Mpi.mpi_managers (backend m).
Proof.
  intros Ha -> Hn. set (g := fresh (dom (globals m))). assert (Hg : globals m !! g = None) by (apply not_elem_of_dom, is_fresh).
  set (m1 := set_backend (Mpi.set_slots (<[g := MpiGlobalSlot.make id]> (Mpi.mpi_slots (backend m))) (backend m))
               (set_globals (<[g := GlobalMemorySlot.mk tag key src]> (globals m)) m)).
  destruct (run_win_allocate (if id =? rank then to_int size else 0) m1 Ha Hn) as (p & w & h & l & E & Hh & Hl & Hb).
  exists g, p, w. eexists. split.
  - intros A k. erewrite run_bind_Done by reflexivity. fold g. fold m1. rewrite (run_bind_Done _ _ _ _ _ E). cbn beta iota.
    erewrite run_bind_Done; [reflexivity|]. apply run_update. cbn. rewrite lookup_insert_eq. reflexivity.
  - cbn. split_and!; try done. by rewrite insert_insert_eq.
Qed.

(** The slot of an entry of this process, and that of a remote one. *)
Lemma run_create_own this tag rank key size source sp bs c m :
  available (Mpi.library (backend m)) -> managers m !! this = Some c -> 0 < size < 2 ^ 31 ->
  slot_at m source sp size -> mem_load (heap m) sp size = Some bs ->
  exists g m', run (create_slot this tag rank (rank, key, size, Some source)) m = Done tt m' /\
    created this tag (rank, key, size, Some source) bs g m m'.
Proof.
  intros Ha Hc Hsize Hsl Hbs. unfold create_slot. rewrite Z.eqb_refl, to_int_small by lia.
  destruct (run_create_start tag rank rank key size (Some source) size m Ha) as (g & p & w & m1 & E1 & Hg & L1 & B1 & S1 & H1 & G1 & O1 & C1 & M1);
    [by rewrite Z.eqb_refl, to_int_small by lia|lia|]. rewrite E1.
  rewrite (proj2 (Z.ltb_lt 0 size)) in H1 by lia. destruct H1 as (b & old & -> & Hb & H1 & Hlen).
  assert (Hgr : heap_grows (heap m) (heap m1)) by (intros b' ? ?; rewrite H1, lookup_insert_ne; congruence).
  destruct (run_move g source sp size bs (GlobalMemorySlot.mk tag key (Some source)) b m1) as (l & m2 & E2 & H2 & Hl2 & G2 & Hn2 & Hs2 & O2 & C2 & S2 & M2 & L2).
  - destruct Hsl as (x & Ex & ?). exists x. by rewrite O1.
  - by eapply grows_load.
  - exists old. rewrite H1, lookup_insert_eq. split; [done|]. lia.
  - by rewrite G1, lookup_insert_eq.
  - rewrite (run_bind_Done _ _ _ _ _ E2), (run_bind_Done _ _ _ _ _ (run_check _ _ eq_refl)).
    destruct (run_create_end this tag key true g rank w (Some l) c m2) as (wr & ws & m3 & E3 & L3 & B3 & S3 & H3 & G3 & O3 & R3 & R3' & M3 & C3).
    + rewrite L2. apply L1.
    + by rewrite C2, C1.
    + by rewrite S2, S1, lookup_insert_eq.
    + by rewrite G2, lookup_insert_eq.
    + rewrite L2 in L3. exists g, m3. split; [exact E3|]. split; cbn.
      * done.
      * intros g' Hne. by rewrite G3, G2, G1, !lookup_insert_ne by done.
      * intros g' Hne. by rewrite S3, S2, S1, !lookup_insert_ne by done.
      * done.
      * intros tag' key' Hne. rewrite R3' by done. unfold registered_slot. by rewrite C2, C1.
      * intros b' bytes Hb'. apply H3. rewrite H2, lookup_insert_ne by congruence. by apply Hgr.
      * exists w, wr, ws. split; [by apply (library_allocated_app [w] [wr; ws] _ _ _ L1)|]. split; [by rewrite S3, lookup_insert_eq|].
        destruct (B3 eq_refl) as (br & bw & Hne & [Wr Nr] & Cr & [Ww Nw] & Cw). rewrite O1 in Hl2.
        assert (Hin : forall b', heap m2 !! b' = None -> heap m !! b' = None /\ b <> b').
        { intros b' Hb'. rewrite H2, lookup_insert_None, H1, lookup_insert_None in Hb'. tauto. }
        destruct (Hin br Nr), (Hin bw Nw). exists l, b, br, bw. split_and!; try done.
        -- by rewrite G3, G2, lookup_insert_eq.
        -- unfold slot_at. by rewrite O3.
        -- unfold slot_at. by rewrite O3.
        -- apply H3. by rewrite H2, lookup_insert_eq.
        -- apply NoDup_cons. split; [set_solver|]. apply NoDup_cons. split; [set_solver|apply NoDup_singleton].
        -- destruct L1 as (_ & _ & _ & _ & F1 & _), L3 as (_ & _ & _ & _ & _ & L3). apply Forall_cons_1 in F1 as [F1 _].
           split; [|done]. by destruct (L3 w F1) as (_ & _ & ->).
        -- intros l' ??. by rewrite O3, O2, O1.
      * split; [congruence|done].
Qed.

Lemma run_create_remote this tag rank id key size bs c m :
  available (Mpi.library (backend m)) -> managers m !! this = Some c -> id <> rank ->
  exists g m', run (create_slot this tag rank (id, key, size, None)) m = Done tt m' /\
    created this tag (id, key, size, None) bs g m m'.
Proof.
  intros Ha Hc Hid. unfold create_slot. rewrite (proj2 (Z.eqb_neq id rank)) by done.
  destruct (run_create_start tag rank id key size None 0 m Ha) as (g & p & w & m1 & E1 & Hg & L1 & B1 & S1 & H1 & G1 & O1 & C1 & M1);
    [by rewrite (proj2 (Z.eqb_neq id rank))|lia|]. rewrite E1. cbn in H1.
  rewrite (run_bind_Done _ _ _ _ _ (run_ret tt m1)), (run_bind_Done _ _ _ _ _ (run_check _ _ eq_refl)).
  destruct (run_create_end this tag key false g id w None c m1) as (wr & ws & m3 & E3 & L3 & B3 & S3 & H3 & G3 & O3 & R3 & R3' & M3 & C3);
    [apply L1|by rewrite C1|by rewrite S1, lookup_insert_eq|by rewrite G1, lookup_insert_eq|].
  exists g, m3. split; [exact E3|]. split; cbn.
  - done.
  - intros g' Hne. by rewrite G3, G1, !lookup_insert_ne by done.
  - intros g' Hne. by rewrite S3, S1, !lookup_insert_ne by done.
  - done.
  - intros tag' key' Hne. rewrite R3' by done. unfold registered_slot. by rewrite C1.
  - intros b' bytes Hb'. apply H3. by rewrite H1.
  - exists w, wr, ws. split; [by apply (library_allocated_app [w] [wr; ws] _ _ _ L1)|]. split; [by rewrite S3, lookup_insert_eq|].
    split; [by rewrite G3, G1, lookup_insert_eq|by rewrite O3, O1].
  - split; [congruence|done].
Qed.

Lemma run_create this tag rank entry bs c m :
  available (Mpi.library (backend m)) -> managers m !! this = Some c -> entry_ok rank entry bs m ->
  exists g m', run (create_slot this tag rank entry) m = Done tt m' /\ created this tag entry bs g m m'.
Proof.
  destruct entry as [[[id key] size] [source|]]; intros Ha Hc Hok; unfold entry_ok in Hok; cbn in Hok.
  - destruct Hok as (-> & Hsize & sp & Hsl & Hbs). by eapply run_create_own.
  - by eapply run_create_remote.
Qed.

(** The slot [g] of an entry, once the exchange, begun with the memory [h], has
    come to its end: it has three different windows; for an own entry these have three
    different new blocks for their memory, and the data window has that block to which
    both local slots point and which holds the bytes. *)
Definition slot_for (tag : Z) (entry : Z * Z * Z * option nat) (bs : list byte) (g : nat) (h : memory) (m : Machine (Mpi.t L)) : Prop :=
  exists w wr ws, NoDup [w; wr; ws] /\ Forall (live (Mpi.library (backend m))) [w; wr; ws] /\
    Mpi.mpi_slots (backend m) !! g = Some (MpiGlobalSlot.mk false entry.1.1.1 (Some w) (Some wr) (Some ws)) /\
    match entry.2 with
    | None => globals m !! g = Some (GlobalMemorySlot.mk tag entry.1.1.2 None)
    | Some source => exists l b br bs', globals m !! g = Some (GlobalMemorySlot.mk tag entry.1.1.2 (Some l)) /\
        slot_at m l (Ptr b 0) entry.1.2 /\ slot_at m source (Ptr b 0) entry.1.2 /\
        heap m !! b = Some bs /\ counter_block (heap m) br /\ counter_block (heap m) bs' /\ NoDup [b; br; bs'] /\
        window_memory (Mpi.library (backend m)) w b h /\ window_memory (Mpi.library (backend m)) wr br h /\
        window_memory (Mpi.library (backend m)) ws bs' h
    end.

(** The windows of a slot, and, when it has a local slot, the blocks of their memory. *)
Definition windows_of (m : Machine (Mpi.t L)) (g : nat) : list nat :=
  match Mpi.mpi_slots (backend m) !! g with
  | Some s => option_list (MpiGlobalSlot._dataWindow s) ++ option_list (MpiGlobalSlot._recvMessageCountWindow s) ++
              option_list (MpiGlobalSlot._sentMessageCountWindow s)
  | None => []
  end.

Definition blocks_of (m : Machine (Mpi.t L)) (g : nat) : list nat :=
  match GlobalMemorySlot._sourceLocalMemorySlot <$> globals m !! g with
  | Some (Some _) => omap (fun w => match win_base (Mpi.library (backend m)) w with Ptr b _ => Some b | nullptr => None end) (windows_of m g)
  | _ => []
  end.

(** The windows of the slots [gs] and their blocks are all different, and none of them
    has been there before. *)
Record all_new (gs : list nat) (m m' : Machine (Mpi.t L)) : Prop := mkAllNew {
  new_windows : NoDup (mjoin (map (windows_of m') gs));
  new_windows_free : forall w, live (Mpi.library (backend m)) w -> w ∉ mjoin (map (windows_of m') gs);
  new_blocks : NoDup (mjoin (map (blocks_of m') gs));
  new_blocks_free : forall b, is_Some (heap m !! b) -> b ∉ mjoin (map (blocks_of m') gs)
}.

(** What the rest of an exchange, with the local slots [sources], leaves alone. *)
Record untouched (this : nat) (tag : Z) (keys : list Z) (sources : list nat) (m m' : Machine (Mpi.t L)) : Prop := mkUntouched {
  un_globals : forall g x, globals m !! g = Some x -> globals m' !! g = Some x;
  un_slots : forall g x, is_Some (globals m !! g) -> Mpi.mpi_slots (backend m) !! g = Some x -> Mpi.mpi_slots (backend m') !! g = Some x;
  un_locals : forall l x, l ∉ sources -> locals m !! l = Some x -> locals m' !! l = Some x;
  un_heap : heap_grows (heap m) (heap m');
  un_live : forall w, live (Mpi.library (backend m)) w ->
    live (Mpi.library (backend m')) w /\ win_base (Mpi.library (backend m')) w = win_base (Mpi.library (backend m)) w;
  un_registered : forall tag' key, tag' <> tag \/ key ∉ keys -> registered_slot this tag' key m' = registered_slot this tag' key m;
  un_managers : Mpi.mpi_managers (backend m') = Mpi.mpi_managers (backend m)
}.

Lemma created_untouched this tag entry bs g m m' :
  created this tag entry bs g m m' -> untouched this tag [entry.1.1.2] (option_list entry.2) m m'.
Proof.
  intros [Hf Hg Hs _ Ho Hh (w & wr & ws & Hl & _ & Hsrc) [Hm _]]. split; try done.
  - intros g' x Hx. rewrite Hg; [done|]. congruence.
  - intros g' x [y Hy] Hx. rewrite Hs; [done|]. congruence.
  - intros l x Hl' Hx. destruct (entry.2) as [source|]; [|by destruct Hsrc as [_ ->]].
    destruct Hsrc as (l1 & b & ? & ? & _ & Hn & _ & _ & _ & _ & _ & _ & _ & _ & _ & Hother). rewrite Hother; [done|congruence|]. set_solver.
  - intros w' Hw'. by destruct Hl as (_ & _ & _ & _ & _ & Hl), (Hl w' Hw') as (? & _ & ?).
  - intros tag' key Hne. apply Ho. intros [= -> ->]. set_solver.
Qed.

Lemma untouched_trans this tag keys keys' sources sources' m1 m2 m3 :
  untouched this tag keys sources m1 m2 -> untouched this tag keys' sources' m2 m3 ->
  untouched this tag (keys ++ keys') (sources ++ sources') m1 m3.
Proof.
  intros [G1 S1 O1 H1 L1 R1 M1] [G2 S2 O2 H2 L2 R2 M2]. split; try congruence.
  - eauto.
  - intros g x [y Hy] Hx. eapply S2; [exists y; by apply G1|]. by apply S1.
  - intros l x Hn Hx. apply O2, O1; set_solver.
  - intros b x Hx. by apply H2, H1.
  - intros w Hw. destruct (L1 w Hw) as [Hw2 ?], (L2 w Hw2). split; [done|congruence].
  - intros tag' key Hne. rewrite R2, R1; [done|set_solver..].
Qed.

(** The description of a slot and what is to come survive. *)
Lemma slot_for_untouched this tag keys sources entry bs g h m m' :
  untouched this tag keys sources m m' -> (forall source, entry.2 = Some source -> source ∉ sources) ->
  (forall l b x, globals m !! g = Some (GlobalMemorySlot.mk tag entry.1.1.2 (Some l)) -> slot_at m l b x -> l ∉ sources) ->
  slot_for tag entry bs g h m -> slot_for tag entry bs g h m'.
Proof.
  intros Hu Hsrc Hl (w & wr & ws & Hnd & Hlive & Hs & Hd). exists w, wr, ws. split; [done|]. split_and!.
  - eapply Forall_impl; [exact Hlive|]. intros x Hx. by apply Hu.
  - apply Hu; [|done]. destruct (entry.2); [destruct Hd as (? & ? & ? & ? & -> & _)|rewrite Hd]; eauto.
  - destruct (entry.2) as [source|]; [|by apply Hu]. destruct Hd as (l & b & br & bs' & Hg & Hls & Hss & Hb & (x1 & ? & ?) & (x2 & ? & ?) & Hnb & [W1 ?] & [W2 ?] & [W3 ?]).
    apply Forall_cons_1 in Hlive as [V1 [V2 [V3 _]%Forall_cons_1]%Forall_cons_1].
    exists l, b, br, bs'. split_and!; try (by apply Hu); try done.
    + pose proof (Hl _ _ _ Hg Hls). destruct Hls as (x & Ex & ?). exists x. split; [by apply (un_locals _ _ _ _ _ _ Hu)|done].
    + destruct Hss as (x & Ex & ?). exists x. split; [apply (un_locals _ _ _ _ _ _ Hu); [by apply Hsrc|done]|done].
    + exists x1. split; [by apply Hu|done].
    + exists x2. split; [by apply Hu|done].
    + split; [|done]. by rewrite (proj2 (un_live _ _ _ _ _ _ Hu w V1)).
    + split; [|done]. by rewrite (proj2 (un_live _ _ _ _ _ _ Hu wr V2)).
    + split; [|done]. by rewrite (proj2 (un_live _ _ _ _ _ _ Hu ws V3)).
Qed.

Lemma entry_ok_untouched this tag keys sources rank entry bs m m' :
  untouched this tag keys sources m m' -> (forall source, entry.2 = Some source -> source ∉ sources) ->
  entry_ok rank entry bs m -> entry_ok rank entry bs m'.
Proof.
  intros Hu Hsrc. unfold entry_ok. destruct (entry.2) as [source|]; [|done].
  intros (? & ? & sp & (x & Ex & ?) & HL). do 2 (split; [done|]). exists sp. split.
  - exists x. split; [apply (un_locals _ _ _ _ _ _ Hu); [by apply Hsrc|done]|done].
  - eapply grows_load; [apply Hu|done].
Qed.

Lemma untouched_refl this tag m : untouched this tag [] [] m m.
Proof. split; try done. by intros ? ?. Qed.

Lemma created_slot_for this tag entry bs g m m' : created this tag entry bs g m m' -> slot_for tag entry bs g (heap m) m'.
Proof.
  intros [_ _ _ _ _ _ (w & wr & ws & (_ & _ & _ & Hnd & Hl & _) & Hs & Hsrc) _]. exists w, wr, ws. split_and!; [done..|].
  destruct (entry.2); [|by destruct Hsrc]. destruct Hsrc as (l & b & br & bs' & ? & _ & ? & ? & ? & ? & ? & ? & ? & ? & ? & _). by exists l, b, br, bs'.
Qed.

Lemma slot_for_older tag entry bs g h h' m : heap_grows h h' -> slot_for tag entry bs g h' m -> slot_for tag entry bs g h m.
Proof.
  intros Hg (w & wr & ws & ? & ? & ? & Hd). exists w, wr, ws. split_and!; [done..|]. destruct (entry.2); [|done].
  assert (Hn : forall b, h' !! b = None -> h !! b = None).
  { intros b Hb. destruct (h !! b) as [x|] eqn:E; [|done]. by rewrite (Hg _ _ E) in Hb. }
  destruct Hd as (l & b & br & bs' & ? & ? & ? & ? & ? & ? & ? & [? ?] & [? ?] & [? ?]). exists l, b, br, bs'. split_and!; try done; split; auto.
Qed.

(** The windows and blocks of one new slot. *)
Lemma created_resources this tag entry bs g m m' : created this tag entry bs g m m' ->
  NoDup (windows_of m' g) /\ Forall (fun w => live (Mpi.library (backend m')) w /\ ~ live (Mpi.library (backend m)) w) (windows_of m' g) /\
  NoDup (blocks_of m' g) /\ Forall (fun b => is_Some (heap m' !! b) /\ heap m !! b = None) (blocks_of m' g).
Proof.
  intros [_ _ _ _ _ _ (w & wr & ws & (_ & _ & _ & Hnd & Hl & Hold) & Hs & Hsrc) _].
  assert (Hw : windows_of m' g = [w; wr; ws]) by (unfold windows_of; by rewrite Hs). unfold blocks_of. rewrite Hw. split; [done|]. split.
  - apply Forall_forall. intros x Hx. split; [by eapply Forall_forall in Hl|]. intros Hx'. by destruct (Hold x Hx') as (_ & ? & _).
  - destruct (entry.2); [|destruct Hsrc as [-> _]; split; constructor].
    destruct Hsrc as (l & b & br & bs' & -> & _ & _ & _ & Hb & (? & Hr & _) & (? & Hs' & _) & Hnb & [W1 N1] & [W2 N2] & [W3 N3] & _). cbn.
    rewrite W1, W2, W3. split; [done|]. repeat constructor; eauto.
Qed.

(** They stay what they are. *)
Lemma untouched_resources this tag keys sources g m m' :
  untouched this tag keys sources m m' -> is_Some (globals m !! g) -> is_Some (Mpi.mpi_slots (backend m) !! g) ->
  Forall (live (Mpi.library (backend m))) (windows_of m g) ->
  windows_of m' g = windows_of m g /\ blocks_of m' g = blocks_of m g.
Proof.
  intros Hu [x Hx] [s Hs] Hl. assert (Hw : windows_of m' g = windows_of m g).
  { unfold windows_of. rewrite Hs. erewrite (un_slots _ _ _ _ _ _ Hu); [done|by eexists|done]. }
  split; [done|]. unfold blocks_of. rewrite Hw, Hx, (un_globals _ _ _ _ _ _ Hu _ _ Hx). cbn. destruct (GlobalMemorySlot._sourceLocalMemorySlot x); [|done].
  clear Hw. induction Hl as [|w l Hwl _ IH]; [done|]. cbn. rewrite (proj2 (un_live _ _ _ _ _ _ Hu w Hwl)). cbn in IH. by rewrite IH.
Qed.

Lemma all_new_cons this tag keys sources entry bs g gs m m1 m2 :
  created this tag entry bs g m m1 -> untouched this tag keys sources m1 m2 -> all_new gs m1 m2 -> all_new (g :: gs) m m2.
Proof.
  intros Hcr Hu [NW FW NB FB]. destruct (created_resources _ _ _ _ _ _ _ Hcr) as (Nw & Fw & Nb & Fb).
  destruct (untouched_resources _ _ _ _ g _ _ Hu) as [Ew Eb].
  { destruct (cr_made _ _ _ _ _ _ _ Hcr) as (? & ? & ? & _ & _ & Hm). destruct (entry.2); [destruct Hm as (? & ? & ? & ? & -> & _)|destruct Hm as [-> _]]; eauto. }
  { destruct (cr_made _ _ _ _ _ _ _ Hcr) as (? & ? & ? & _ & -> & _). eauto. }
  { eapply Forall_impl; [exact Fw|]. by intros w [? _]. }
  pose proof (created_untouched _ _ _ _ _ _ _ Hcr) as Hu1. rewrite Forall_forall in Fw, Fb. split; cbn [map mjoin list_join]; rewrite ?Ew, ?Eb.
  - apply NoDup_app. split_and!; [done| |done]. intros w Hw. apply FW. by apply Fw.
  - intros w Hw [Hin|Hin]%elem_of_app; [by apply (Fw w Hin)|]. by apply (FW w); [apply Hu1|].
  - apply NoDup_app. split_and!; [done| |done]. intros b Hb. apply FB. by apply Fb.
  - intros b [x Hb] [Hin|Hin]%elem_of_app.
    + destruct (Fb b Hin) as [_ ?]. congruence.
    + apply (FB b); [|done]. exists x. by apply Hu1.
Qed.

(** The local slots of the entries to come exist already. *)
Lemma entry_sources rank entries bss m l :
  Forall2 (fun e bs => entry_ok rank e bs m) entries bss -> l ∈ omap snd entries -> is_Some (locals m !! l).
Proof.
  intros Hok ([[[id key] size] src] & Hin & Hl)%list_elem_of_omap. cbn in Hl. subst src.
  apply list_elem_of_lookup in Hin as [i Hi]. destruct (Forall2_lookup_l _ _ _ _ _ Hok Hi) as (bs & _ & _ & _ & sp & (x & Hx & _) & _).
  by exists x.
Qed.

(** All the entries, one after the other. *)
Lemma run_create_all this tag rank entries : forall bss m,
  available (Mpi.library (backend m)) -> is_Some (managers m !! this) ->
  Forall2 (fun e bs => entry_ok rank e bs m) entries bss ->
  NoDup (omap snd entries) -> NoDup (map (fun e => e.1.1.2) entries) ->
  exists gs m', run (for_each entries (create_slot this tag rank)) m = Done tt m' /\
    untouched this tag (map (fun e => e.1.1.2) entries) (omap snd entries) m m' /\
    incoming (Mpi.library (backend m')) = incoming (Mpi.library (backend m)) /\ all_new gs m m' /\
    Forall3 (fun e bs g => globals m !! g = None /\ registered_slot this tag e.1.1.2 m' = Some g /\ slot_for tag e bs g (heap m) m') entries bss gs.
Proof.
  induction entries as [|e entries IH]; intros bss m Ha [c Hc] Hok Hsrc Hkeys; cbn [for_each map] in *.
  { inversion Hok; subst. exists [], m. split; [done|]. split_and!; [apply untouched_refl|done| |constructor].
    split; cbn; try apply NoDup_nil_2; intros ? _; apply not_elem_of_nil. }
  inversion Hok as [|? bs ? bss' He Hes]; subst. apply NoDup_cons in Hkeys as [Hk Hkeys].
  destruct (run_create this tag rank e bs c m Ha Hc He) as (g & m1 & E1 & Hcr). pose proof (created_untouched _ _ _ _ _ _ _ Hcr) as Hu1.
  assert (Hnd : NoDup (omap snd entries) /\ forall source, e.2 = Some source -> source ∉ omap snd entries).
  { cbn in Hsrc. destruct (e.2) as [source|]; [|by split]. apply NoDup_cons in Hsrc as [? ?]. split; [done|]. by intros ? [= <-]. }
  destruct Hnd as [Hnd Hnot].
  destruct (IH bss' m1) as (gs & m2 & E2 & Hu2 & Hi2 & Hn2 & H3); [|apply (cr_managers _ _ _ _ _ _ _ Hcr)| |done|done|].
  - by destruct (cr_made _ _ _ _ _ _ _ Hcr) as (? & ? & ? & (_ & _ & ? & _) & _).
  - apply Forall2_same_length_lookup. split; [exact (Forall2_length _ _ _ Hes)|]. intros i e' b' Hi Hb.
    eapply entry_ok_untouched; [exact Hu1| |exact (Forall2_lookup_lr _ _ _ _ _ _ Hes Hi Hb)]. intros source Hs Hin.
    destruct (e.2) as [source'|]; [|by apply not_elem_of_nil in Hin]. apply list_elem_of_singleton in Hin as <-.
    apply (Hnot source eq_refl), list_elem_of_omap. exists e'. split; [by eapply list_elem_of_lookup_2|done].
  - exists (g :: gs), m2. split; [by rewrite (run_bind_Done _ _ _ _ _ E1)|]. split; [|split; [|split; [by eapply all_new_cons|constructor]]].
    + pose proof (untouched_trans _ _ _ _ _ _ _ _ _ Hu1 Hu2) as Hu. cbn [omap list_omap]. by destruct (e.2).
    + rewrite Hi2. by destruct (cr_made _ _ _ _ _ _ _ Hcr) as (? & ? & ? & (_ & ? & _) & _).
    + split_and!; [apply Hcr|rewrite (un_registered _ _ _ _ _ _ Hu2) by (by right); apply Hcr|].
      eapply slot_for_untouched; [exact Hu2|done| |by eapply created_slot_for]. intros l b x Hg _ Hin.
      destruct (entry_sources _ _ _ _ _ Hes Hin) as [y Hy]. destruct (cr_made _ _ _ _ _ _ _ Hcr) as (? & ? & ? & _ & _ & Hs).
      destruct (e.2); [|by destruct Hs; congruence]. destruct Hs as (l' & b' & ? & ? & Hg' & Hn & _). rewrite Hg in Hg'. by simplify_eq.
    + eapply Forall3_impl; [exact H3|]. intros e' b' g' (Hf & Hr & Hs). split_and!; [|done|].
      * destruct (globals m !! g') as [x|] eqn:Ex; [|done]. by rewrite (un_globals _ _ _ _ _ _ Hu1 _ _ Ex) in Hf.
      * eapply slot_for_older; [|exact Hs]. apply Hu1.
Qed.

(** *** The gathered entries

    An own slot is given by its key, the local slot, its size and its bytes; the
    entries of the processes of lower and higher rank by rank, key and size. *)
Abbreviation own_slot := (Z * nat * Z * list byte)%type.

Definition gathered_entries (rank : Z) (before : list (Z * Z * Z)) (own : list own_slot) (behind : list (Z * Z * Z)) :
    list (Z * Z * Z * option nat) :=
  map (fun e => (e, None)) before ++ map (fun o : own_slot => (rank, o.1.1.1, o.1.2, Some o.1.1.2)) own ++
  map (fun e => (e, None)) behind.

Definition contents_of (before : list (Z * Z * Z)) (own : list own_slot) (behind : list (Z * Z * Z)) : list (list byte) :=
  map (fun _ => []) before ++ map snd own ++ map (fun _ => []) behind.

Definition slots_of (own : list own_slot) : list (Z * nat) := map (fun o : own_slot => o.1.1) own.

Lemma zip_entries (l : list (Z * Z * Z * option nat)) :
  zip (zip (zip (map (fun e => e.1.1.1) l) (map (fun e => e.1.1.2) l)) (map (fun e => e.1.2) l)) (map snd l) = l.
Proof. induction l as [|[[[]]] l IH]; [done|]. cbn. by f_equal. Qed.

Lemma run_source_slots rank before own behind m :
  Forall (fun e => e.1.1 <> rank) before -> Forall (fun e => e.1.1 <> rank) behind ->
  run (source_slots rank (map (fun e => e.1.1.1) (gathered_entries rank before own behind)) (slots_of own)) m =
    Done (map snd (gathered_entries rank before own behind)) m.
Proof.
  intros Hb Ha. unfold gathered_entries. induction Hb as [|e before He _ IH]; cbn [map app source_slots].
  - induction own as [|o own IH]; cbn [map app slots_of source_slots].
    + induction Ha as [|e behind He _ IH]; [done|]. cbn. rewrite (proj2 (Z.eqb_neq _ _) He). cbn. by rewrite (run_bind_Done _ _ _ _ _ IH).
    + cbn. rewrite Z.eqb_refl. cbn. by rewrite (run_bind_Done _ _ _ _ _ IH).
  - cbn. rewrite (proj2 (Z.eqb_neq _ _) He). cbn. by rewrite (run_bind_Done _ _ _ _ _ IH).
Qed.

(** An own slot is an MPI slot with accessible bytes. *)
Definition own_ok (m : Machine (Mpi.t L)) (o : own_slot) : Prop :=
  o.1.1.2 ∈ Mpi.mpi_locals (backend m) /\ 0 < o.1.2 < 2 ^ 31 /\
  exists sp, slot_at m o.1.1.2 sp o.1.2 /\ mem_load (heap m) sp o.1.2 = Some o.2.

Lemma run_local_sizes own m :
  Forall (own_ok m) own -> run (map_each local_size (slots_of own)) m = Done (map (fun o : own_slot => o.1.2) own) m.
Proof.
  induction 1 as [|o own (Hin & _ & sp & Hs & _) _ IH]; [done|]. cbn [slots_of map map_each].
  erewrite run_bind_Done; [|unfold local_size; rewrite (run_bind_Done _ _ _ _ _ (run_gets _ m)), bool_decide_true by done;
    by apply (run_getSize m _ sp)]. by rewrite (run_bind_Done _ _ _ _ _ IH).
Qed.

Lemma entries_ok rank before own behind m :
  Forall (fun e => e.1.1 <> rank) before -> Forall (fun e => e.1.1 <> rank) behind -> Forall (own_ok m) own ->
  Forall2 (fun e bs => entry_ok rank e bs m) (gathered_entries rank before own behind) (contents_of before own behind).
Proof.
  intros Hb Ha Ho. repeat apply Forall2_app.
  - induction Hb; constructor; done.
  - induction Ho as [|o own (_ & ? & sp & ? & ?)]; constructor; [|done]. split; [done|]. split; [done|]. by exists sp.
  - induction Ha; constructor; done.
Qed.

Lemma own_segment {A : Type} (f : Z * Z * Z * option nat -> A) rank before own behind :
  take (length own) (drop (length before) (map f (gathered_entries rank before own behind))) =
  map (fun o : own_slot => f (rank, o.1.1.1, o.1.2, Some o.1.1.2)) own.
Proof.
  unfold gathered_entries. rewrite !map_app, drop_app_length' by (by rewrite !length_map).
  rewrite take_app_length' by (by rewrite !length_map). by rewrite map_map.
Qed.

Lemma entries_sources rank before own behind : omap snd (gathered_entries rank before own behind) = (slots_of own).*2.
Proof.
  unfold gathered_entries. rewrite !omap_app.
  assert (Hn : forall l : list (Z * Z * Z), omap snd (map (fun e => (e, @None nat)) l) = []) by (induction l; done).
  rewrite !Hn, app_nil_r. cbn. induction own as [|o own IH]; [done|]. cbn. by f_equal.
Qed.

(** The contributions of the processes, as this one receives them: the counts,
    the sizes, the keys and the ranks of all the entries. *)
Definition gathered (rank : Z) (before : list (Z * Z * Z)) (own : list own_slot) (behind : list (Z * Z * Z))
    (counts : list Z) (rest : list (list Z)) (l : L) : Prop :=
  incoming l = counts :: map (fun e => e.1.2) (gathered_entries rank before own behind)
                      :: map (fun e => e.1.1.2) (gathered_entries rank before own behind)
                      :: map (fun e => e.1.1.1) (gathered_entries rank before own behind) :: rest /\
  counts !! Z.to_nat rank = Some (Z.of_nat (length own)) /\ Forall (fun n => 0 <= n) counts /\
  sum (take (Z.to_nat rank) counts) = Z.of_nat (length before) /\
  sum counts = Z.of_nat (length (gathered_entries rank before own behind)) /\ sum counts < 2 ^ 31.

(** One of the three gatherings of the exchange. *)
Lemma run_gather (f : Z * Z * Z * option nat -> Z) rank before own behind counts offsets rest m l :
  self l = rank -> available l -> incoming l = map f (gathered_entries rank before own behind) :: rest ->
  counts !! Z.to_nat rank = Some (Z.of_nat (length own)) -> offsets !! Z.to_nat rank = Some (Z.of_nat (length before)) ->
  exists l', self l' = self l /\ available l' /\ incoming l' = rest /\ (forall w, live l w -> live l' w /\ win_base l' w = win_base l w) /\ forall A (k : list Z -> prog (Machine (Mpi.t L)) A),
    run (xs ← Mpi.call (MPI_Allgatherv (map (fun o : own_slot => f (rank, o.1.1.1, o.1.2, Some o.1.1.2)) own)
           (Z.of_nat (length (gathered_entries rank before own behind))) counts offsets); k xs) (after (heap m) l m) =
      run (k (map f (gathered_entries rank before own behind))) (after (heap m) l' m).
Proof.
  intros Hself Ha Hin Hc Ho.
  destruct (allgatherv_ok (heap m) l (map (fun o : own_slot => f (rank, o.1.1.1, o.1.2, Some o.1.1.2)) own)
    (Z.of_nat (length (gathered_entries rank before own behind))) counts offsets (Z.of_nat (length own)) (Z.of_nat (length before)) _ _ Hin) as (l' & E & S & I & _ & W & A'); rewrite ?Hself; try done.
  - by rewrite length_map.
  - rewrite !Nat2Z.id. apply own_segment.
  - exists l'. split_and!; [congruence|by apply A'|done|done|]. intros A k. by rewrite (run_bind_Done _ _ _ _ _ (run_mpi_call_Done _ _ _ _ (after (heap m) l m) E)).
Qed.

Lemma run_mpi_exchange this tag f before own behind counts rest m :
  is_Some (managers m !! this) -> Mpi.mpi_managers (backend m) !! this = Some f ->
  Mpi._rank f = self (Mpi.library (backend m)) -> available (Mpi.library (backend m)) ->
  gathered (Mpi._rank f) before own behind counts rest (Mpi.library (backend m)) ->
  Forall (fun e => e.1.1 <> Mpi._rank f) before -> Forall (fun e => e.1.1 <> Mpi._rank f) behind -> Forall (own_ok m) own ->
  NoDup (slots_of own).*2 -> NoDup (map (fun e => e.1.1.2) (gathered_entries (Mpi._rank f) before own behind)) ->
  exists gs m', run (exchangeGlobalMemorySlotsImpl this tag (slots_of own)) m = Done tt m' /\
    untouched this tag (map (fun e => e.1.1.2) (gathered_entries (Mpi._rank f) before own behind)) (slots_of own).*2 m m' /\
    Forall3 (fun e bs g => globals m !! g = None /\ registered_slot this tag e.1.1.2 m' = Some g /\ slot_for tag e bs g (heap m) m')
      (gathered_entries (Mpi._rank f) before own behind) (contents_of before own behind) gs /\
    all_new gs m m' /\ incoming (Mpi.library (backend m')) = rest.
Proof.
  intros Hc Hf Hrank Ha (Hin & Hcount & Hnn & Hoff & Hsum & Hlt) Hb Ha' Hown Hnd Hkeys.
  set (rank := Mpi._rank f) in *. set (es := gathered_entries rank before own behind) in *.
  unfold exchangeGlobalMemorySlotsImpl.
  rewrite (run_bind_Done _ _ _ _ _ (run_fetch (fun m => Mpi.mpi_managers (backend m) !! this) m f Hf)). cbv zeta. fold rank.
  assert (Hlo : Z.of_nat (length own) < 2 ^ 31).
  { unfold es, gathered_entries in Hsum. rewrite !length_app, !length_map in Hsum. lia. }
  assert (Hls : length (slots_of own) = length own) by apply length_map.
  rewrite Hls, to_int_small by lia. rewrite Hrank in Hcount.
  destruct (allgather_ok (heap m) _ (Z.of_nat (length own)) _ _ Hin Hcount) as (l1 & E1 & S1 & I1 & _ & W1 & A1). rewrite <- Hrank in Hcount.
  rewrite (run_bind_Done _ _ _ _ _ (run_mpi_call_Done _ _ _ _ m E1)).
  destruct (run_slot_offsets counts (after (heap m) l1 m) 0 Hnn) as (offsets & Eo & _ & Ho); [lia|lia|].
  rewrite (run_bind_Done _ _ _ _ _ Eo).
  erewrite run_bind_Done; [|rewrite run_slot_total by (done || lia); rewrite (proj2 (Z.ltb_lt _ _)) by lia; reflexivity].
  rewrite Z.add_0_l, Hsum. rewrite (run_bind_Done _ _ _ _ _ (run_local_sizes own (after (heap m) l1 m) Hown)).
  assert (Hoffset : offsets !! Z.to_nat rank = Some (Z.of_nat (length before))).
  { rewrite Ho by (by eapply lookup_lt_Some). by rewrite Z.add_0_l, Hoff. }
  destruct (run_gather (fun e => e.1.2) rank before own behind counts offsets
    (map (fun e => e.1.1.2) es :: map (fun e => e.1.1.1) es :: rest) m l1) as (l2 & S2 & A2 & I2 & W2 & E2);
    [congruence|by apply A1|exact I1|done|done|]. rewrite E2. clear E2.
  destruct (run_gather (fun e => e.1.1.2) rank before own behind counts offsets (map (fun e => e.1.1.1) es :: rest) m l2) as (l3 & S3 & A3 & I3 & W3 & E3);
    [congruence|done|exact I2|done|done|].
  replace (slots_of own).*1 with (map (fun o : own_slot => o.1.1.1) own) by (unfold slots_of; by rewrite <- list_fmap_compose).
  rewrite E3. clear E3.
  destruct (run_gather (fun e => e.1.1.1) rank before own behind counts offsets rest m l3) as (l4 & S4 & A4 & I4 & W4 & E4);
    [congruence|done|exact I3|done|done|].
  replace (map (fun _ => rank) (slots_of own)) with (map (fun o : own_slot => rank) own) by (unfold slots_of; by rewrite map_map).
  rewrite E4. clear E4. fold es. rewrite (run_bind_Done _ _ _ _ _ (run_source_slots rank before own behind (after (heap m) l4 m) Hb Ha')).
  fold es. rewrite zip_entries.
  destruct (run_create_all this tag rank es (contents_of before own behind) (after (heap m) l4 m)) as (gs & m' & E & Hu & Hi & Hn & H3);
    [done|done|by apply entries_ok|by unfold es; rewrite entries_sources|done|].
  unfold es in Hu. rewrite entries_sources in Hu. fold es in Hu.
  assert (W : forall w, live (Mpi.library (backend m)) w -> live l4 w /\ win_base l4 w = win_base (Mpi.library (backend m)) w).
  { intros w Hw. destruct (W1 w Hw) as [V1 ?], (W2 w V1) as [V2 ?], (W3 w V2) as [V3 ?], (W4 w V3) as [V4 ?]. split; [done|congruence]. }
  exists gs, m'. split_and!; [exact E| |exact H3| |by rewrite Hi].
  - destruct Hu as [U1 U2 U3 U4 U5 U6 U7]. split; try done. intros w Hw. destruct (W w Hw) as [V EV], (U5 w V) as [? EU]. split; [done|]. by rewrite EU.
  - destruct Hn as [N1 N2 N3 N4]. split; [done| |done|done]. intros w Hw. apply N2. by apply W.
Qed.

(** ** Theorem *)

(** C14: The exchange of slots, as one process sees it: [before], [own] and [behind]
    are the entries of the processes of lower rank, of this process and of those
    of higher rank.  For every entry there is a new global slot, registered under
    its key, with the rank of its owner and three windows; the slots of the other
    processes have no local slot; an own one has a local slot in the memory of
    its data window, a new block that holds the bytes of the exchanged slot, and the
    exchanged slot itself points there from now on; its other windows have blocks for
    counters.  The windows of all the slots are different from each other and from those
    that were there before, and so are the blocks of their memory.  Everything else is
    left alone.  All processes go through the same entries in the same order. *)
Theorem mpi_exchange_spec this tag f before own behind counts rest (m : Machine (Mpi.t L)) :
  is_Some (managers m !! this) -> Mpi.mpi_managers (backend m) !! this = Some f ->
  Mpi._rank f = self (Mpi.library (backend m)) -> available (Mpi.library (backend m)) ->
  gathered (Mpi._rank f) before own behind counts rest (Mpi.library (backend m)) ->
  Forall (fun e => e.1.1 <> Mpi._rank f) before -> Forall (fun e => e.1.1 <> Mpi._rank f) behind -> Forall (own_ok m) own ->
  NoDup (slots_of own).*2 -> NoDup (map (fun e => e.1.1.2) (gathered_entries (Mpi._rank f) before own behind)) ->
  exists gs m', run (CommunicationManager.exchangeGlobalMemorySlots this tag (slots_of own)) m = Done tt m' /\
    untouched this tag (map (fun e => e.1.1.2) (gathered_entries (Mpi._rank f) before own behind)) (slots_of own).*2 m m' /\
    Forall3 (fun e bs g => globals m !! g = None /\ registered_slot this tag e.1.1.2 m' = Some g /\ slot_for tag e bs g (heap m) m')
      (gathered_entries (Mpi._rank f) before own behind) (contents_of before own behind) gs /\
    all_new gs m m' /\ incoming (Mpi.library (backend m')) = rest.
Proof. apply run_mpi_exchange. Qed.

End Exchange.
