(* ===== verification/MpiManagers.v ===== *)
(** * The MPI backend: memory and instances

    Models [backends/mpi/memoryManager.hpp], [instanceManager.hpp], [instance.hpp]
    and the constructor of [communicationManager.hpp].  The functions of the
    library that they call are the class [MPIProcess]. *)

From S2P Require Import Prelude Memory CommunicationManager HwlocTopology MemoryManager Topology InstanceManager.
From S2P Require Import Mpi MpiSpec MpiExchange.
From Stdlib Require Import ZArith Lia.
From Stdlib.Strings Require Import Byte.
From stdpp Require Import base list gmap option sorting.

Local Open Scope Z_scope.
Local Open Scope hicr_scope.

(** ** The library *)

(** [MPI_Init_thread] takes the level of thread support that is asked for and
    gives the one that is provided; [MPI_Alloc_mem] gives a status and the memory. *)
Class MPIProcess (L : Type) : Type := {
  MPI_Comm_size : prog (memory * L) Z;
  MPI_Comm_rank : prog (memory * L) Z;
  MPI_Initialized : prog (memory * L) bool;
  MPI_Init_thread : Z -> prog (memory * L) Z;
  MPI_Comm_set_errhandler : prog (memory * L) unit;
  MPI_Abort : Z -> prog (memory * L) unit;
  MPI_Finalize : prog (memory * L) unit;
  MPI_Alloc_mem : Z -> prog (memory * L) (Z * ptr)
}.

Definition MPI_THREAD_MULTIPLE : Z := 3.

(** [(MPI_Aint) z]: a signed integer of the size of an address. *)
Definition to_aint (z : Z) : Z := (z + 2 ^ 63) mod 2 ^ 64 - 2 ^ 63.

(** ** Instances *)

Module MpiInstance.

Record t : Type := mk { _id : Z; _rank : Z }.

Definition make (rank : Z) : t := mk (wrap64 rank) rank.

Definition _HICR_MPI_INSTANCE_ROOT_ID : Z := 0.

Definition isRootInstance (i : t) : bool := _rank i =? _HICR_MPI_INSTANCE_ROOT_ID.

Definition getRank (i : t) : Z := _rank i.

End MpiInstance.

Module MpiInstanceManager.
Section Operations.
Context {L : Type} {P : MPIProcess L}.

(** The class does not override the operations that create and terminate instances. *)
#[global] Instance mpi_instances : InstanceBackend (Machine (Mpi.t L)) MpiInstance.t := {
  getId := MpiInstance._id;
  createInstanceImpl := fun _ => InstanceManager.unsupported;
  addInstanceImpl := fun _ => InstanceManager.unsupported;
  terminateInstanceImpl := fun _ => InstanceManager.unsupported
}.

(** One round of the loop of the constructor. *)
Definition add_rank (rank i : Z) : prog (Machine (Mpi.t L) * InstanceManager.t MpiInstance.t) unit :=
  let instance := MpiInstance.make i in
  _ ← (if i =? rank then InstanceManager.setCurrentInstance instance else mret tt);
  InstanceManager.push_instance instance.

(** The constructor, on an object that the constructor of the base class has made. *)
Definition make : prog (Machine (Mpi.t L) * InstanceManager.t MpiInstance.t) unit :=
  size ← on_fst (Mpi.call MPI_Comm_size);
  rank ← on_fst (Mpi.call MPI_Comm_rank);
  for_each (seqZ 0 size) (add_rank rank).

Definition finalize : prog (Machine (Mpi.t L)) unit := Mpi.call MPI_Finalize.

Definition abort (errorCode : Z) : prog (Machine (Mpi.t L)) unit := Mpi.call (MPI_Abort errorCode).

Definition createDefault : prog (Machine (Mpi.t L) * InstanceManager.t MpiInstance.t) unit :=
  initialized ← on_fst (Mpi.call MPI_Initialized);
  _ ← (if negb initialized
       then provided ← on_fst (Mpi.call (MPI_Init_thread MPI_THREAD_MULTIPLE));
            if negb (provided =? MPI_THREAD_MULTIPLE) then on_fst (Mpi.call (MPI_Abort 1)) else mret tt
       else mret tt);
  _ ← on_fst (Mpi.call MPI_Comm_set_errhandler);
  make.

Definition getRootInstanceId : Z := MpiInstance._HICR_MPI_INSTANCE_ROOT_ID.

End Operations.
End MpiInstanceManager.

(** ** The communication manager's constructor *)

Module MpiConstructor.
Section Operations.
Context {L : Type} {P : MPIProcess L}.

(** The new manager [this]: the fields of the base class and those of its own. *)
Definition make (this : nat) : prog (Machine (Mpi.t L)) unit :=
  _ ← modify (fun m => set_managers (<[this := CommunicationManagerFields.mk ∅ ∅]> (managers m)) m);
  size ← Mpi.call MPI_Comm_size;
  rank ← Mpi.call MPI_Comm_rank;
  modify (fun m => set_backend (Mpi.set_managers (<[this := Mpi.mkManager size rank ∅]> (Mpi.mpi_managers (backend m))) (backend m)) m).

End Operations.
End MpiConstructor.

(** ** The memory manager *)

Module MpiMemoryManager.
Section Operations.
Context {L : Type} {P : MPIProcess L}.

Definition registerLocalMemorySlotImpl (memorySpace : space_ref) (p : ptr) (size : Z) : prog (Machine (Mpi.t L) * unit) nat :=
  on_fst (Mpi.new_local_slot p size (Some (space_id memorySpace))).

Definition allocateLocalMemorySlotImpl (memorySpace : space_ref) (size : Z) : prog (Machine (Mpi.t L) * unit) nat :=
  match memorySpace with
  | other_space _ => Raise logic
  | hwloc_space _ _ =>
      r ← on_fst (Mpi.call (MPI_Alloc_mem (to_aint size)));
      let '(status, p) := r in
      _ ← throw_if (negb (status =? MPI_SUCCESS) || bool_decide (p = nullptr)) runtime;
      registerLocalMemorySlotImpl memorySpace p size
  end.

Definition freeLocalMemorySlotImpl (memorySlot : nat) : prog (Machine (Mpi.t L) * unit) unit := mret tt.

Definition deregisterLocalMemorySlotImpl (memorySlot : nat) : prog (Machine (Mpi.t L) * unit) unit := mret tt.

#[global] Instance mpi_memory : MemoryBackend (Mpi.t L) unit := {
  allocateLocalMemorySlotImpl := allocateLocalMemorySlotImpl;
  registerLocalMemorySlotImpl := registerLocalMemorySlotImpl;
  deregisterLocalMemorySlotImpl := deregisterLocalMemorySlotImpl;
  memsetImpl := MemoryManager.default_memsetImpl;
  freeLocalMemorySlotImpl := freeLocalMemorySlotImpl
}.

End Operations.
End MpiMemoryManager.

(** ** What is relied on *)

(** [comm_size]: the number of processes. *)
Class MpiProcessSpec (L : Type) {M : MPI L} {P : MPIProcess L} {Sp : MpiSpec L} : Type := {
  comm_size : L -> Z;
  comm_size_ok : forall h l, run MPI_Comm_size (h, l) = Done (comm_size l) (h, l);
  comm_rank_ok : forall h l, run MPI_Comm_rank (h, l) = Done (self l) (h, l);
  alloc_mem_ok : forall n h l, available l -> 0 < n < 2 ^ 63 ->
    exists b bs l', run (MPI_Alloc_mem n) (h, l) = Done (MPI_SUCCESS, Ptr b 0) (<[b := bs]> h, l') /\
      h !! b = None /\ length bs = Z.to_nat n /\ self l' = self l /\ incoming l' = incoming l /\ available l' /\
      forall w, live l w -> live l' w
}.

(** ** Theorems *)

Section Managers.
Context {L : Type} {M : MPI L} {P : MPIProcess L} {Sp : MpiSpec L} {Ps : MpiProcessSpec L}.
Implicit Types m : Machine (Mpi.t L).

Lemma filter_none {A : Type} (Q : A -> Prop) `{forall x, Decision (Q x)} (l : list A) :
  Forall (fun x => ~ Q x) l -> filter Q l = [].
Proof. induction 1 as [|x l Hx _ IH]; [done|]. by rewrite filter_cons_False. Qed.

Lemma run_add_ranks rank l : forall m o,
  run (for_each l (MpiInstanceManager.add_rank rank)) (m, o) =
  Done tt (m, InstanceManager.mk (InstanceManager._instances o ++ map MpiInstance.make l)
                (if bool_decide (rank ∈ l) then Some (MpiInstance.make rank) else InstanceManager._currentInstance o)).
Proof.
  induction l as [|i l IH]; intros m [instances cur]; cbn [for_each map]; [by rewrite app_nil_r|].
  rewrite run_bind. unfold MpiInstanceManager.add_rank at 1. cbv zeta. destruct (Z.eqb_spec i rank) as [->|Hne].
  - rewrite (bool_decide_true (rank ∈ rank :: l)) by left. cbn. rewrite IH. cbn. rewrite <- app_assoc. by case_bool_decide.
  - rewrite (bool_decide_ext (rank ∈ i :: l) (rank ∈ l)) by set_solver. cbn. rewrite IH. cbn. by rewrite <- app_assoc.
Qed.

(** The constructor of the instance manager: the instances are the processes, in
    the order of their ranks, which are their identifiers; the current instance
    is this process, and the only root instance is the one with the identifier
    [getRootInstanceId].  Creating, adding and terminating instances are not
    supported, and leave the manager as it is. *)
Theorem mpi_instances_by_rank (m : Machine (Mpi.t L)) :
  0 <= self (Mpi.library (backend m)) < comm_size (Mpi.library (backend m)) ->
  comm_size (Mpi.library (backend m)) < 2 ^ 31 ->
  exists o current, run MpiInstanceManager.make (m, InstanceManager.empty) = Done tt (m, o) /\
    map MpiInstance._id (InstanceManager._instances o) = seqZ 0 (comm_size (Mpi.library (backend m))) /\
    map MpiInstance._rank (InstanceManager._instances o) = seqZ 0 (comm_size (Mpi.library (backend m))) /\
    InstanceManager._currentInstance o = Some current /\ current ∈ InstanceManager._instances o /\
    MpiInstance._rank current = self (Mpi.library (backend m)) /\
    map MpiInstance._id (filter (fun i => MpiInstance.isRootInstance i = true) (InstanceManager._instances o)) =
      [MpiInstanceManager.getRootInstanceId] /\
    (forall t, run (InstanceManager.createInstance t) (m, o) = Thrown logic (m, o)) /\
    (forall id, run (InstanceManager.addInstance id) (m, o) = Thrown logic (m, o)) /\
    (forall i, run (InstanceManager.terminateInstance i) (m, o) = Thrown logic (m, o)).
Proof.
  intros Hr Hs. set (size := comm_size _) in *. set (rank := self _) in *.
  assert (Hids : Forall (fun i => 0 <= i < 2 ^ 31) (seqZ 0 size)).
  { apply Forall_forall. intros i Hi%elem_of_seqZ. lia. }
  eexists _, (MpiInstance.make rank). split_and!; [..|done|done|done].
  - unfold MpiInstanceManager.make.
    rewrite (run_bind_Done _ _ _ _ _ (run_on_fst_Done _ _ _ _ _ (run_mpi_call_Done _ _ _ _ m (comm_size_ok _ _)))).
    rewrite (run_bind_Done _ _ _ _ _ (run_on_fst_Done _ _ _ _ _ (run_mpi_call_Done _ _ _ _ _ (comm_rank_ok _ _)))).
    cbn. rewrite run_add_ranks. rewrite bool_decide_true by (apply elem_of_seqZ; fold rank size; lia).
    by rewrite after_after, after_id.
  - cbn. rewrite map_map. etrans; [|apply map_id]. apply map_ext_in. intros i Hi%list_elem_of_In.
    eapply Forall_forall in Hids; [|exact Hi]. cbn. apply wrap64_small. size_lia.
  - cbn. rewrite map_map. apply map_id.
  - done.
  - cbn. apply list_elem_of_fmap. exists rank. split; [done|]. apply elem_of_seqZ. lia.
  - done.
  - cbn [InstanceManager._instances InstanceManager.empty app]. rewrite seqZ_cons by lia. cbn [map].
    rewrite filter_cons_True by done. rewrite filter_none; [done|]. apply Forall_map, Forall_forall. intros i Hi%elem_of_seqZ. cbn.
    unfold MpiInstance.isRootInstance. cbn. rewrite Z.eqb_eq. unfold MpiInstance._HICR_MPI_INSTANCE_ROOT_ID. lia.
Qed.

Lemma run_mpi_allocate id sp size m status p h l :
  run (MPI_Alloc_mem (to_aint size)) (heap m, Mpi.library (backend m)) = Done (status, p) (h, l) ->
  let s := fresh (dom (locals m)) in
  run (MemoryManager.allocateLocalMemorySlot (hwloc_space id sp) size) (m, tt) =
  if negb (status =? MPI_SUCCESS) || bool_decide (p = nullptr) then Thrown runtime (after h l m, tt)
  else Done s (set_backend (Mpi.set_mpi_locals ({[ s ]} ∪ Mpi.mpi_locals (backend m)) (backend (after h l m)))
                 (set_locals (<[s := LocalMemorySlot.make p size (Some id)]> (locals m)) (after h l m)), tt).
Proof.
  intros E s. unfold MemoryManager.allocateLocalMemorySlot. cbn [MemoryManager.allocateLocalMemorySlotImpl allocateLocalMemorySlotImpl MpiMemoryManager.mpi_memory].
  unfold MpiMemoryManager.allocateLocalMemorySlotImpl.
  rewrite (run_bind_Done _ _ _ _ _ (run_on_fst_Done _ _ _ _ _ (run_mpi_call_Done _ _ _ _ m E))). cbn beta iota.
  rewrite run_bind. by destruct (negb (status =? MPI_SUCCESS) || bool_decide (p = nullptr)).
Qed.

Lemma to_aint_small z : 0 <= z < 2 ^ 63 -> to_aint z = z.
Proof. intros. unfold to_aint. rewrite Z.mod_small by lia. lia. Qed.

(** [allocateLocalMemorySlot] of the MPI memory manager on every branch.  A memory
    space of another backend is a logic error; a status other than success, or a
    null pointer, is a runtime error, and there is no new slot.  Otherwise there is
    one, for the memory that the library has given. *)
Theorem mpi_allocate_spec (m : Machine (Mpi.t L)) r size status p h l :
  run (MPI_Alloc_mem (to_aint size)) (heap m, Mpi.library (backend m)) = Done (status, p) (h, l) ->
  match r with
  | other_space _ => run (MemoryManager.allocateLocalMemorySlot r size) (m, tt) = Thrown logic (m, tt)
  | hwloc_space _ _ =>
      if decide (status = MPI_SUCCESS /\ p <> nullptr)
      then exists s m', run (MemoryManager.allocateLocalMemorySlot r size) (m, tt) = Done s (m', tt) /\
             locals m !! s = None /\ s ∈ Mpi.mpi_locals (backend m') /\ slot_at m' s p size /\ heap m' = h /\
             forall s', s' <> s -> locals m' !! s' = locals m !! s'
      else run (MemoryManager.allocateLocalMemorySlot r size) (m, tt) = Thrown runtime (after h l m, tt)
  end.
Proof.
  intros E. destruct r as [id sp|id]; [|done]. rewrite (run_mpi_allocate id sp size m status p h l E). cbv zeta.
  assert (Hf : locals m !! fresh (dom (locals m)) = None) by (apply not_elem_of_dom, is_fresh).
  case_decide as Hd; destruct (Z.eqb_spec status MPI_SUCCESS), (bool_decide_reflect (p = nullptr)); cbn [negb orb]; try (done || tauto).
  eexists _, _. split; [reflexivity|]. cbn. split_and!; [done|set_solver| |done|].
  - eexists. cbn. rewrite lookup_insert_eq. done.
  - intros s' Hs. by rewrite lookup_insert_ne.
Qed.

(** A slot that has been allocated and then exchanged under [key], while the other
    processes contribute [before] and [behind].  The new global slot is backed by
    memory of the window; the memory that was allocated first is still there,
    although nothing refers to it any more, and freeing the slot releases neither
    of the two. *)
Theorem mpi_promotion_leaks (m : Machine (Mpi.t L)) this tag f id sp size key before behind counts rest :
  is_Some (managers m !! this) -> Mpi.mpi_managers (backend m) !! this = Some f ->
  Mpi._rank f = self (Mpi.library (backend m)) -> available (Mpi.library (backend m)) -> 0 < size < 2 ^ 31 ->
  (forall s bs, gathered (Mpi._rank f) before [(key, s, size, bs)] behind counts rest (Mpi.library (backend m))) ->
  Forall (fun e => e.1.1 <> Mpi._rank f) before -> Forall (fun e => e.1.1 <> Mpi._rank f) behind ->
  NoDup (map (fun e => e.1.2) before ++ key :: map (fun e => e.1.2) behind) ->
  exists s m1 b bs m2 g l w, run (MemoryManager.allocateLocalMemorySlot (hwloc_space id sp) size) (m, tt) = Done s (m1, tt) /\
    heap m !! b = None /\ slot_at m1 s (Ptr b 0) size /\ heap m1 !! b = Some bs /\
    run (CommunicationManager.exchangeGlobalMemorySlots this tag [(key, s)]) m1 = Done tt m2 /\
    registered_slot this tag key m2 = Some g /\ globals m2 !! g = Some (GlobalMemorySlot.mk tag key (Some l)) /\
    w <> b /\ slot_at m2 l (Ptr w 0) size /\ slot_at m2 s (Ptr w 0) size /\ heap m2 !! w = Some bs /\
    run (MemoryManager.freeLocalMemorySlot s) (m2, tt) = Done tt (m2, tt) /\ heap m2 !! b = Some bs.
Proof.
  intros Hc Hf Hrank Ha Hsize Hgat Hb Hbe Hkeys.
  destruct (alloc_mem_ok size (heap m) _ Ha) as (b & bs & l & E & Hb0 & Hlen & S & I & A & _); [lia|].
  pose proof (run_mpi_allocate id sp size m MPI_SUCCESS (Ptr b 0) (<[b := bs]> (heap m)) l) as E1.
  rewrite to_aint_small in E1 by lia. specialize (E1 E). cbn zeta in E1. rewrite Z.eqb_refl, bool_decide_false in E1 by done. cbn [negb orb] in E1.
  set (s := fresh (dom (locals m))) in *. set (m1 := set_backend _ _) in E1.
  assert (Hs1 : slot_at m1 s (Ptr b 0) size) by (eexists; cbn; by rewrite lookup_insert_eq).
  assert (Hb1 : heap m1 !! b = Some bs) by apply lookup_insert_eq.
  destruct (run_mpi_exchange this tag f before [(key, s, size, bs)] behind counts rest m1) as (gs & m2 & E2 & Hu & H3 & _);
    [done|done|cbn; congruence|done|destruct (Hgat s bs) as [Hi Hg]; split; [etrans; [exact I|exact Hi]|exact Hg]|done|done| |by repeat constructor; set_solver| |].
  - constructor; [|constructor]. split_and!; cbn; [set_solver|lia|lia|]. exists (Ptr b 0). split; [done|].
    change (mem_load (heap m1) (Ptr b 0) size = Some bs). unfold mem_load. rewrite Hb1. unfold mbind, option_bind, read_at. rewrite bool_decide_true by lia.
    rewrite bool_decide_true by (rewrite Hlen; cbn; lia). f_equal. cbn. apply take_ge. by rewrite Hlen.
  - unfold gathered_entries. rewrite !map_app, !map_map. exact Hkeys.
  - destruct (Forall3_lookup_l _ _ _ _ (length before) (Mpi._rank f, key, size, Some s) H3) as (bs' & g & Hbs & _ & _ & Hreg & ? & ? & ? & _ & _ & _ & l2 & w & ? & ? & Hg & Hl2 & Hs2 & Hw2 & _ & _ & _ & [_ Hw] & _).
    { unfold gathered_entries. by rewrite lookup_app_r, length_map, Nat.sub_diag by (by rewrite length_map). }
    unfold contents_of in Hbs. rewrite lookup_app_r, length_map, Nat.sub_diag in Hbs by (by rewrite length_map). injection Hbs as <-.
    exists s, m1, b, bs, m2, g, l2, w. split_and!; try done; [congruence|]. by apply Hu.
Qed.

End Managers.
