(* ===== verification/MpiDemo.v ===== *)
(** * A small MPI library, and the theorems of the MPI backend on it

    [World] is the library as seen by one process: what the other processes send
    is fixed in advance, the memory of their windows is part of the state.  It
    satisfies [MpiSpec] and [MpiProcessSpec], so that the theorems of [MpiSpec.v],
    [MpiDestroy.v], [MpiExchange.v] and [MpiManagers.v] apply to it. *)

From S2P Require Import Prelude Memory CommunicationManager HwlocTopology MemoryManager InstanceManager.
From S2P Require Import Mpi MpiSpec MpiDestroy MpiExchange MpiManagers.
From Stdlib Require Import ZArith Lia.
From Stdlib.Strings Require Import Byte.
From stdpp Require Import base list gmap option sorting.

Local Open Scope Z_scope.
Local Open Scope hicr_scope.

Module World.

(** [w_fails]: every put answers an error. *)
Record t : Type := mk {
  w_self : Z;
  w_incoming : list (list Z);
  w_mem : gmap (nat * Z) (list byte);
  w_held : gset (nat * Z);
  w_live : gset nat;
  w_base : gmap nat ptr;
  w_freed : list nat;
  w_fails : bool
}.

Definition set_incoming (i : list (list Z)) (l : t) : t := mk (w_self l) i (w_mem l) (w_held l) (w_live l) (w_base l) (w_freed l) (w_fails l).
Definition set_mem (x : gmap (nat * Z) (list byte)) (l : t) : t := mk (w_self l) (w_incoming l) x (w_held l) (w_live l) (w_base l) (w_freed l) (w_fails l).
Definition set_held (x : gset (nat * Z)) (l : t) : t := mk (w_self l) (w_incoming l) (w_mem l) x (w_live l) (w_base l) (w_freed l) (w_fails l).
Definition set_windows (x : gset nat) (b : gmap nat ptr) (y : list nat) (l : t) : t := mk (w_self l) (w_incoming l) (w_mem l) (w_held l) x b y (w_fails l).

(** The next message of the other processes; without one the call does not return. *)
Definition gather : prog (memory * t) (list Z) :=
  Step (fun s => (s.1, set_incoming (tail (w_incoming s.2)) s.2))
       (fun s => match w_incoming s.2 with xs :: _ => Ret xs | [] => Await (fun _ => false) (Ret []) end).

Definition allocate (n : Z) : prog (memory * t) (Z * ptr * nat) :=
  Step (fun s =>
          (if 0 <? n then <[fresh (dom s.1) := replicate (Z.to_nat n) x00]> s.1 else s.1,
           set_windows ({[ fresh (w_live s.2) ]} ∪ w_live s.2)
             (<[fresh (w_live s.2) := if 0 <? n then Ptr (fresh (dom s.1)) 0 else nullptr]> (w_base s.2)) (w_freed s.2) s.2))
       (fun s => Ret (MPI_SUCCESS, if 0 <? n then Ptr (fresh (dom s.1)) 0 else nullptr, fresh (w_live s.2))).

Definition free (w : nat) : prog (memory * t) Z :=
  Step (fun s => (s.1, set_windows (w_live s.2 ∖ {[ w ]}) (w_base s.2) (w_freed s.2 ++ [w]) s.2)) (fun _ => Ret MPI_SUCCESS).

Definition lock (r : Z) (w : nat) : prog (memory * t) Z :=
  Step (fun s => (s.1, set_held ({[ (w, r) ]} ∪ w_held s.2) s.2)) (fun _ => Ret MPI_SUCCESS).

Definition unlock (r : Z) (w : nat) : prog (memory * t) Z :=
  Step (fun s => (s.1, set_held (w_held s.2 ∖ {[ (w, r) ]}) s.2)) (fun _ => Ret MPI_SUCCESS).

Definition put (p : ptr) (n r d : Z) (w : nat) : prog (memory * t) Z :=
  Step (fun s =>
          match (bs ← mem_load s.1 p n; old ← w_mem s.2 !! (w, r); write_at (Z.to_nat d) bs old) with
          | Some new => if w_fails s.2 then s else (s.1, set_mem (<[(w, r) := new]> (w_mem s.2)) s.2)
          | None => s
          end)
       (fun s => Ret (if w_fails s.2 then 1 else MPI_SUCCESS)).

Definition get (p : ptr) (n r d : Z) (w : nat) : prog (memory * t) Z :=
  Step (fun s =>
          match (old ← w_mem s.2 !! (w, r); bs ← read_at (Z.to_nat d) (Z.to_nat n) old; mem_store s.1 p bs) with
          | Some h => (h, s.2)
          | None => s
          end)
       (fun _ => Ret MPI_SUCCESS).

Definition add_one (r : Z) (w : nat) : prog (memory * t) Z :=
  Step (fun s => (s.1, set_mem (alter (fun bs => le_bytes 8 (le_value bs +w 1)) (w, r) (w_mem s.2)) s.2)) (fun _ => Ret MPI_SUCCESS).

Definition allocate_memory (n : Z) : prog (memory * t) (Z * ptr) :=
  Step (fun s => (<[fresh (dom s.1) := replicate (Z.to_nat n) x00]> s.1, s.2))
       (fun s => Ret (MPI_SUCCESS, Ptr (fresh (dom s.1)) 0)).

End World.

#[global] Instance world_mpi : MPI World.t := {
  MPI_Barrier := Ret tt;
  MPI_Allgather := fun _ => World.gather;
  MPI_Allgatherv := fun _ _ _ _ => World.gather;
  MPI_Win_allocate := World.allocate;
  MPI_Win_free := World.free;
  MPI_Win_lock := fun _ r _ w => World.lock r w;
  MPI_Win_unlock := World.unlock;
  MPI_Get := World.get;
  MPI_Put := World.put;
  MPI_Win_flush := fun _ _ => Ret MPI_SUCCESS;
  MPI_Fetch_and_op := World.add_one
}.

(** It has what the theorems rely on, as long as puts do not fail. *)
#[global, refine] Instance world_spec : MpiSpec World.t := {
  self := World.w_self;
  incoming := World.w_incoming;
  win_mem := fun s w r => World.w_mem s.2 !! (w, r);
  held := fun l w r => bool_decide ((w, r) ∈ World.w_held l);
  live := fun l w => w ∈ World.w_live l;
  win_base := fun l w => default nullptr (World.w_base l !! w);
  freed := World.w_freed;
  available := fun l => World.w_fails l = false
}.
Proof.
  - intros h l. exists l. by split_and!.
  - intros h l x xs rest Hin _. exists (World.set_incoming rest l). cbn. rewrite Hin. by split_and!.
  - intros h l mine n counts displs count displ xs rest Hin _ _ _ _. exists (World.set_incoming rest l). cbn. rewrite Hin. by split_and!.
  - intros n h l Ha Hn. cbn. do 4 eexists. split; [reflexivity|]. cbn.
    assert (Hold : forall p w', w' ∈ World.w_live l -> (w' ∈ {[fresh (World.w_live l)]} ∪ World.w_live l) /\ w' <> fresh (World.w_live l) /\
      default nullptr (<[fresh (World.w_live l) := p]> (World.w_base l) !! w') = default nullptr (World.w_base l !! w')).
    { intros p w' Hw. assert (w' <> fresh (World.w_live l)) by (intros ->; by apply (is_fresh (World.w_live l))).
      split_and!; [set_solver|done|by rewrite lookup_insert_ne]. }
    case_bool.
    + split; [|split_and!; try done; [set_solver|by rewrite lookup_insert_eq|by apply Hold]].
      eexists _, _. split_and!; [done|apply not_elem_of_dom, is_fresh|done|apply length_replicate].
    + split; [done|]. split_and!; try done; [set_solver|by rewrite lookup_insert_eq|by apply Hold].
  - intros w h l Hl. eexists. split; [reflexivity|]. cbn. split_and!; try done. intros w' Hne Hl'. set_solver.
  - intros ex r nc w h l Hh. eexists. split; [reflexivity|]. cbn. split_and!; try done.
    + apply bool_decide_true. set_solver.
    + intros w' r' Hne. apply bool_decide_ext. set_solver.
  - intros r w h l Hh. eexists. split; [reflexivity|]. cbn. split_and!; try done.
    + apply bool_decide_false. set_solver.
    + intros w' r' Hne. apply bool_decide_ext. set_solver.
  - intros p n r d w h l bs old new Ha Hr Hh HL Hold Hd Hnew. cbn in *. rewrite HL. cbn. rewrite Hold. cbn. rewrite Hnew, Ha.
    eexists. split; [reflexivity|]. cbn. split_and!; [done|apply lookup_insert_eq|done|].
    intros w' r' Hne. by rewrite lookup_insert_ne.
  - intros p n r d w h h' l bs bytes Hr Hh Hb Hd Hn Hread Hst. cbn in *. rewrite Hb. cbn. rewrite Hread. cbn. rewrite Hst.
    eexists. split; [reflexivity|]. by split_and!.
  - intros r w h l Hr Hh. eexists. split; [reflexivity|]. cbn. split_and!; try done.
    intros w' r' Hne. by rewrite lookup_alter_ne.
Defined.

(** Three processes; the library is initialized. *)
#[global] Instance world_process : MPIProcess World.t := {
  MPI_Comm_size := Ret 3;
  MPI_Comm_rank := gets (fun s => World.w_self s.2);
  MPI_Initialized := Ret true;
  MPI_Init_thread := fun level => Ret level;
  MPI_Comm_set_errhandler := Ret tt;
  MPI_Abort := fun _ => Await (fun _ => false) (Ret tt);
  MPI_Finalize := Ret tt;
  MPI_Alloc_mem := World.allocate_memory
}.

#[global, refine] Instance world_process_spec : MpiProcessSpec World.t := { comm_size := fun _ => 3 }.
Proof.
  - done.
  - done.
  - intros n h l Ha Hn. eexists _, _, l. split; [reflexivity|]. split_and!; try done; [apply not_elem_of_dom, is_fresh|apply length_replicate].
Defined.

(** ** A process of rank one among three *)

Module MpiDemo.

Definition slot (b : nat) (n : Z) : LocalMemorySlot.t := LocalMemorySlot.make (Ptr b 0) n None.

(** The slots 20 and 21 are those of ranks zero and one; slot 20 is marked. *)
Definition fields : CommunicationManagerFields.t :=
  CommunicationManagerFields.mk (<[7 := <[3 := 20%nat]> (<[5 := 21%nat]> ∅)]> ∅) (<[7 := [20%nat]]> ∅).

Definition global_slot (rank : Z) (w : nat) : MpiGlobalSlot.t :=
  MpiGlobalSlot.mk false rank (Some w) (Some (w + 1)%nat) (Some (w + 2)%nat).

(** Two local slots of four bytes; the windows 1 to 6; the other processes send [incoming]. *)
Definition machine (incoming : list (list Z)) (fails : bool) : Machine (Mpi.t World.t) :=
  mkMachine
    (<[0%nat := [x0a; x0b; x0c; x0d]]> (<[1%nat := replicate 4 x00]> ∅))
    (<[0%nat := slot 0 4]> (<[1%nat := slot 1 4]> ∅))
    (<[20%nat := GlobalMemorySlot.mk 7 3 None]> (<[21%nat := GlobalMemorySlot.mk 7 5 (Some 1%nat)]> ∅))
    (<[0%nat := fields]> ∅)
    (Mpi.mk (<[0%nat := Mpi.mkManager 3 1 ∅]> ∅) (<[20%nat := global_slot 0 1]> (<[21%nat := global_slot 1 4]> ∅)) {[ 0%nat; 1%nat ]}
       (World.mk 1 incoming (<[(1%nat, 0) := replicate 8 xff]> ∅) ∅ {[ 1; 2; 3; 4; 5; 6 ]}%nat ∅ [] fails)).

Lemma remote_demo fails : remote_slot 20 0 false 1 2 3 (machine [] fails).
Proof. split; by vm_compute. Qed.

Lemma slot_demo incoming fails b : b = 0%nat \/ b = 1%nat -> slot_at (machine incoming fails) b (Ptr b 0) 4.
Proof. intros [->| ->]; by eexists. Qed.

Lemma mpi_copy_roundtrip_witness :
  exists m1 m2, run (CommunicationManager.memcpyGL 0 20 2 0 1 3) (machine [] false) = Done tt m1 /\
    run (CommunicationManager.memcpyLG 0 1 0 20 2 3) m1 = Done tt m2 /\
    heap m2 = <[1%nat := [x0b; x0c; x0d; x00]]> (heap (machine [] false)).
Proof.
  destruct (mpi_copy_roundtrip 0 20 0 false 1 2 3 0 (Ptr 0 0) 4 1 1 (Ptr 1 0) 4 0 2 3 [x0b; x0c; x0d] (replicate 8 xff)
    [xff; xff; x0b; x0c; x0d; xff; xff; xff] (<[1%nat := [x0b; x0c; x0d; x00]]> (heap (machine [] false))) (machine [] false))
    as (m1 & m2 & E1 & E2 & _ & _ & Hh & _);
    [done|apply remote_demo|apply slot_demo; by left|apply slot_demo; by right|lia|lia|size_lia|lia|size_lia|lia|by vm_compute..|].
  by exists m1, m2.
Defined.

Lemma mpi_put_leaves_lock_witness :
  exists m', run (MpiCommunicationManager.memcpyImplGL 0 20 2 0 1 3) (machine [] true) = Thrown runtime m' /\
    held (Mpi.library (backend m')) 1 0 = true.
Proof.
  destruct (mpi_put_leaves_lock 0 20 0 1 2 3 2 0 (Ptr 0 0) 4 1 3 1 (machine [] true)) as (m' & E & Hh & _);
    [apply remote_demo|apply slot_demo; by left|lia|lia|done| |by exists m'].
  intros l [= <-]. eexists _, _. split; [by vm_compute|done].
Defined.

(** Rank zero has one slot, this process two, rank two none. *)
Definition own : list (Z * nat * Z * list byte) :=
  [(11, 0%nat, 4, [x0a; x0b; x0c; x0d]); (12, 1%nat, 4, replicate 4 x00)].

Definition exchange : Machine (Mpi.t World.t) := machine [[1; 2; 0]; [16; 4; 4]; [10; 11; 12]; [0; 1; 1]] false.

Lemma mpi_exchange_spec_witness :
  exists gs m', run (CommunicationManager.exchangeGlobalMemorySlots 0 7 [(11, 0%nat); (12, 1%nat)]) exchange = Done tt m' /\
    Forall3 (fun e bs g => globals exchange !! g = None /\ registered_slot 0 7 e.1.1.2 m' = Some g /\ slot_for 7 e bs g (heap exchange) m')
      [(0, 10, 16, None); (1, 11, 4, Some 0%nat); (1, 12, 4, Some 1%nat)] [[]; [x0a; x0b; x0c; x0d]; replicate 4 x00] gs /\
    all_new gs exchange m'.
Proof.
  destruct (mpi_exchange_spec 0 7 (Mpi.mkManager 3 1 ∅) [(0, 10, 16)] own [] [1; 2; 0] [] exchange) as (gs & m' & E & _ & H & Hn & _).
  - by eexists.
  - reflexivity.
  - reflexivity.
  - reflexivity.
  - split_and!; [reflexivity|reflexivity|repeat constructor; lia|reflexivity|reflexivity|reflexivity].
  - by repeat constructor.
  - constructor.
  - repeat constructor; cbn; try lia; try set_solver; (eexists; split; [by apply slot_demo; auto|reflexivity]).
  - by apply (bool_decide_unpack _).
  - by apply (bool_decide_unpack _).
  - exists gs, m'. split_and!; [exact E|exact H|exact Hn].
Defined.

(** This process has marked the slot of key 3, rank zero that of key 5. *)
Definition windows (key : Z) : list nat := if key =? 3 then [1; 2; 3]%nat else [4; 5; 6]%nat.

Definition marked : Machine (Mpi.t World.t) := machine [[1; 1; 0]; [5; 3]] false.

Lemma mpi_fence_destroys_witness :
  exists m', run (CommunicationManager.fence 0 7) marked = Done tt m' /\
    freed (Mpi.library (backend m')) = [1; 2; 3; 4; 5; 6]%nat /\ registered_slot 0 7 5 m' = None.
Proof.
  destruct (mpi_fence_destroys 0 7 fields windows [[5]; [3]; []] [3] [] marked) as (m' & E & Hf & Hw & _).
  - reflexivity.
  - by eexists.
  - change (default [] _) with [20%nat]. by repeat econstructor.
  - reflexivity.
  - reflexivity.
  - cbn. lia.
  - cbn. lia.
  - intros key [->|[->|[]%not_elem_of_nil]%elem_of_cons]%elem_of_cons.
    + by exists 21%nat, false, 1, 4%nat, 5%nat, 6%nat.
    + by exists 20%nat, false, 0, 1%nat, 2%nat, 3%nat.
  - by apply (bool_decide_unpack _).
  - repeat constructor; by vm_compute.
  - exists m'. split_and!; [done|rewrite Hw; by vm_compute|]. apply (fo_gone _ _ _ _ _ Hf); [by left|by eexists].
Defined.

Lemma mpi_instances_by_rank_witness :
  exists o current, run MpiInstanceManager.make (machine [] false, InstanceManager.empty) = Done tt (machine [] false, o) /\
    map MpiInstance._id (InstanceManager._instances o) = [0; 1; 2] /\
    InstanceManager._currentInstance o = Some current /\ MpiInstance._rank current = 1.
Proof.
  destruct (mpi_instances_by_rank (machine [] false)) as (o & current & E & Hid & _ & Hc & _ & Hr & _); [cbn; lia|cbn; lia|].
  by exists o, current.
Defined.

Definition ram : space_ref := hwloc_space 2 (HwlocMemorySpace.make 64 None 1).

Lemma mpi_allocate_spec_witness :
  exists s m', run (MemoryManager.allocateLocalMemorySlot ram 8) (machine [] false, tt) = Done s (m', tt) /\
    slot_at m' s (Ptr (fresh (dom (heap (machine [] false)))) 0) 8.
Proof.
  pose proof (mpi_allocate_spec (machine [] false) ram 8 MPI_SUCCESS
    (Ptr (fresh (dom (heap (machine [] false)))) 0) _ _ eq_refl) as H.
  rewrite decide_True in H by done. destruct H as (s & m' & E & _ & _ & Hs & _). by exists s, m'.
Defined.

Lemma mpi_promotion_leaks_witness :
  exists s m1 b bs m2, run (MemoryManager.allocateLocalMemorySlot ram 8)
      (machine [[1; 1; 0]; [16; 8]; [10; 11]; [0; 1]] false, tt) = Done s (m1, tt) /\
    slot_at m1 s (Ptr b 0) 8 /\ run (CommunicationManager.exchangeGlobalMemorySlots 0 7 [(11, s)]) m1 = Done tt m2 /\
    run (MemoryManager.freeLocalMemorySlot s) (m2, tt) = Done tt (m2, tt) /\ heap m2 !! b = Some bs.
Proof.
  destruct (mpi_promotion_leaks (machine [[1; 1; 0]; [16; 8]; [10; 11]; [0; 1]] false) 0 7 (Mpi.mkManager 3 1 ∅) 2
    (HwlocMemorySpace.make 64 None 1) 8 11 [(0, 10, 16)] [] [1; 1; 0] []) as (s & m1 & b & bs & m2 & g & l & w & E1 & _ & Hs & _ & E2 & _ & _ & _ & _ & _ & _ & E3 & Hb).
  - by eexists.
  - reflexivity.
  - reflexivity.
  - reflexivity.
  - lia.
  - intros s bs. split_and!; [reflexivity|reflexivity|repeat constructor; lia|reflexivity|reflexivity|reflexivity].
  - by repeat constructor.
  - constructor.
  - by apply (bool_decide_unpack _).
  - by exists s, m1, b, bs, m2.
Defined.

End MpiDemo.
