(* ===== verification/Lpf.v ===== *)
(** * The LPF backend

    Models [backends/lpf/communicationManager.hpp], [globalMemorySlot.hpp],
    [localMemorySlot.hpp] and [common.hpp] as one process sees them.  The functions
    of the LPF library are the class [LPF], over the memory of the process and a
    state of the library; what the theorems rely on is in [LpfSpec.v].  The library
    reads and writes memory that the process has registered with it, so the arrays
    that the collective operations use are blocks of that memory. *)

From S2P Require Import Prelude Memory CommunicationManager Mpi ObjectStore.
From Stdlib Require Import ZArith Lia.
From Stdlib.Strings Require Import Byte.
From stdpp Require Import base list gmap option sorting.

Local Open Scope Z_scope.
Local Open Scope hicr_scope.

(** ** The library *)

(** Every function gives a status first.  The arguments are those of the library
    without the context, the attributes of messages and of synchronizations, and
    the offsets of a swap value, which are always the defaults and zero.  Slots and
    ranks are unsigned integers of [SIZEOF_MEMSLOT] and [SIZEOF_PID] bytes.
    [lpf_noc_serialize_slot] gives the content of the buffer that it allocates,
    [lpf_noc_deserialize_slot] takes that of the buffer it reads. *)
Class LPF (L : Type) : Type := {
  LPF_SUCCESS : Z;
  LPF_INVALID_MEMSLOT : Z;
  SIZEOF_PID : nat;
  SIZEOF_MEMSLOT : nat;
  lpf_register_local : ptr -> Z -> prog (memory * L) (Z * Z);
  lpf_register_global : ptr -> Z -> prog (memory * L) (Z * Z);
  lpf_deregister : Z -> prog (memory * L) Z;
  lpf_sync : prog (memory * L) Z;
  lpf_collectives_init : Z -> Z -> Z -> Z -> Z -> prog (memory * L) (Z * nat);
  lpf_collectives_destroy : nat -> prog (memory * L) Z;
  lpf_allgather : nat -> Z -> Z -> Z -> bool -> prog (memory * L) Z;
  lpf_allgatherv : nat -> Z -> Z -> list Z -> bool -> prog (memory * L) Z;
  lpf_get : Z -> Z -> Z -> Z -> Z -> Z -> prog (memory * L) Z;
  lpf_put : Z -> Z -> Z -> Z -> Z -> Z -> prog (memory * L) Z;
  lpf_noc_register : ptr -> Z -> prog (memory * L) (Z * Z);
  lpf_noc_deregister : Z -> prog (memory * L) Z;
  lpf_noc_serialize_slot : Z -> prog (memory * L) (Z * list byte);
  lpf_noc_deserialize_slot : list byte -> Z -> prog (memory * L) Z;
  lpf_counting_sync_per_slot : Z -> Z -> Z -> prog (memory * L) Z;
  lpf_sync_per_slot : Z -> prog (memory * L) Z;
  lpf_get_rcvd_msg_count_per_slot : Z -> prog (memory * L) (Z * Z);
  lpf_get_sent_msg_count_per_slot : Z -> prog (memory * L) (Z * Z);
  lpf_flush_sent : prog (memory * L) Z;
  lpf_flush_received : prog (memory * L) Z;
  lpf_lock_slot : Z -> Z -> Z -> Z -> prog (memory * L) Z;
  lpf_unlock_slot : Z -> Z -> Z -> Z -> prog (memory * L) Z
}.

(** [sizeof(uint64_t)]. *)
Definition SIZEOF_UINT64 : Z := 8.

(** ** Slots *)

Module LpfGlobalSlot.

(** What the class adds to [GlobalMemorySlot]. *)
Record t : Type := mk {
  _rank : Z;
  _lpfMemSlot : Z;
  _lpfSwapSlot : Z
}.

Definition getRank (s : t) : Z := _rank s.
Definition getLPFSlot (s : t) : Z := _lpfMemSlot s.
Definition getLPFSwapSlot (s : t) : Z := _lpfSwapSlot s.

End LpfGlobalSlot.

Module LpfLocalSlot.

(** What the class adds to [LocalMemorySlot]; [_swapValue] is where the member of
    that name is, since its address is taken. *)
Record t : Type := mk {
  _lpfMemSlot : Z;
  _swapValue : ptr
}.

Definition getLPFSlot (s : t) : Z := _lpfMemSlot s.
Definition setLPFSlot (slot : Z) (s : t) : t := mk slot (_swapValue s).
Definition getLPFSwapPointer (s : t) : ptr := _swapValue s.

End LpfLocalSlot.

(** ** The state of the backend *)

Module Lpf.

(** The fields of a manager; [_localSwap] is where the member of that name is. *)
Record manager : Type := mkManager {
  _size : Z;
  _rank : Z;
  _localSwap : ptr;
  _localSwapSlot : Z
}.

Definition set_localSwapSlot (s : Z) (f : manager) : manager := mkManager (_size f) (_rank f) (_localSwap f) s.

(** The managers, the slots of the dynamic types [lpf::GlobalMemorySlot] and
    [lpf::LocalMemorySlot], and the library. *)
Record t (L : Type) : Type := mk {
  lpf_managers : gmap nat manager;
  lpf_globals : gmap nat LpfGlobalSlot.t;
  lpf_locals : gmap nat LpfLocalSlot.t;
  library : L
}.

Arguments mk {L} _ _ _ _.
Arguments lpf_managers {L} _.
Arguments lpf_globals {L} _.
Arguments lpf_locals {L} _.
Arguments library {L} _.

Section Access.
Context {L : Type} {M : LPF L}.

Definition set_managers (ms : gmap nat manager) (x : t L) : t L := mk ms (lpf_globals x) (lpf_locals x) (library x).
Definition set_globals (s : gmap nat LpfGlobalSlot.t) (x : t L) : t L := mk (lpf_managers x) s (lpf_locals x) (library x).
Definition set_locals (s : gmap nat LpfLocalSlot.t) (x : t L) : t L := mk (lpf_managers x) (lpf_globals x) s (library x).
Definition set_library (l : L) (x : t L) : t L := mk (lpf_managers x) (lpf_globals x) (lpf_locals x) l.

(** A call of the library. *)
Definition call {A : Type} (p : prog (memory * L) A) : prog (Machine (t L)) A :=
  zoom (fun m => Some (heap m, library (backend m)))
       (fun hl m => set_backend (set_library hl.2 (backend m)) (set_heap hl.1 m)) p.

(** [CHECK]: any status but success is a runtime error. *)
Definition CHECK (p : prog (memory * L) Z) : prog (Machine (t L)) unit :=
  status ← call p; throw_if (negb (status =? LPF_SUCCESS)) runtime.

Definition CHECK_value {A : Type} (p : prog (memory * L) (Z * A)) : prog (Machine (t L)) A :=
  r ← call p;
  _ ← throw_if (negb (r.1 =? LPF_SUCCESS)) runtime;
  mret r.2.

Definition fields (this : nat) : prog (Machine (t L)) manager := fetch (fun m => lpf_managers (backend m) !! this).

Definition update_fields (this : nat) (f : manager -> manager) : prog (Machine (t L)) unit :=
  update (fun m => c ← lpf_managers (backend m) !! this;
                   Some (set_backend (set_managers (<[this := f c]> (lpf_managers (backend m))) (backend m)) m)).

(** [dynamic_pointer_cast], which gives a null pointer for a slot of another class;
    with the check for it, and without, when the result is dereferenced at once. *)
Definition cast_global (g : nat) : prog (Machine (t L)) (option LpfGlobalSlot.t) := gets (fun m => lpf_globals (backend m) !! g).
Definition cast_local (l : nat) : prog (Machine (t L)) (option LpfLocalSlot.t) := gets (fun m => lpf_locals (backend m) !! l).

Definition or_throw {S A : Type} (e : exn) (o : option A) : prog S A :=
  match o with Some a => mret a | None => Raise e end.

Definition or_crash {S A : Type} (o : option A) : prog S A :=
  match o with Some a => mret a | None => Crash undefined end.

(** A change of a local slot of the backend. *)
Definition update_slot (f : LpfLocalSlot.t -> LpfLocalSlot.t) (l : nat) : prog (Machine (t L)) unit :=
  update (fun m => s ← lpf_locals (backend m) !! l;
                   Some (set_backend (set_locals (<[l := f s]> (lpf_locals (backend m))) (backend m)) m)).

(** [std::make_shared<lpf::GlobalMemorySlot>]. *)
Definition new_global_slot (rank slot swap tag key : Z) (source : option nat) : prog (Machine (t L)) nat :=
  Step (fun m =>
          let g := fresh (dom (globals m)) in
          set_backend (set_globals (<[g := LpfGlobalSlot.mk rank slot swap]> (lpf_globals (backend m))) (backend m))
            (Memory.set_globals (<[g := GlobalMemorySlot.mk tag key source]> (globals m)) m))
       (fun m => Ret (fresh (dom (globals m)))).

(** [std::make_shared<lpf::LocalMemorySlot>], with its swap value. *)
Definition new_local_slot (slot : Z) (p : ptr) (size : Z) (memorySpace : option nat) : prog (Machine (t L)) nat :=
  Step (fun m =>
          let l := fresh (dom (locals m)) in
          let b := fresh (dom (heap m)) in
          set_backend (set_locals (<[l := LpfLocalSlot.mk slot (Ptr b 0)]> (lpf_locals (backend m))) (backend m))
            (Memory.set_locals (<[l := LocalMemorySlot.make p size memorySpace]> (locals m))
               (set_heap (<[b := replicate 8 x00]> (heap m)) m)))
       (fun m => Ret (fresh (dom (locals m)))).

End Access.

(** *** Local variables and arrays whose address is taken *)

(** [q] is run at the end of [p], also when [p] throws. *)
Fixpoint finally {S A : Type} (p : prog S A) (q : prog S unit) : prog S A :=
  match p with
  | Ret a => _ ← q; Ret a
  | Raise e => _ ← q; Raise e
  | Crash c => Crash c
  | Step f k => Step f (fun s => finally (k s) q)
  | Await c k => Await c (finally k q)
  end.

Definition with_array {X A : Type} (content : list byte) (body : ptr -> prog (Machine X) A) : prog (Machine X) A :=
  Step (fun m => set_heap (<[fresh (dom (heap m)) := content]> (heap m)) m)
       (fun m => let b := fresh (dom (heap m)) in
                 finally (body (Ptr b 0)) (modify (fun m' => set_heap (delete b (heap m')) m'))).

(** The elements of an array, [w] bytes each. *)
Definition encode (w : nat) (zs : list Z) : list byte := concat (map (le_bytes w) zs).

Fixpoint decode (w n : nat) (bs : list byte) : list Z :=
  match n with
  | O => []
  | S n' => le_value (take w bs) :: decode w n' (drop w bs)
  end.

Definition zeros (w : nat) (n : Z) : list byte := replicate (w * Z.to_nat n) x00.

Definition read_array {X : Type} (w : nat) (p : ptr) (n : Z) : prog (Machine X) (list Z) :=
  bs ← read_bytes p (Z.of_nat w * n); mret (decode w (Z.to_nat n) bs).

End Lpf.

(** ** The communication manager *)

Module LpfCommunicationManager.
Import Lpf.

Section Operations.
Context {L : Type} {M : LPF L}.

(** The constructor: the new manager [this], with the fields of the base class and
    its own, the member [_localSwap] of which is zero. *)
Definition make (this : nat) (size rank : Z) : prog (Machine (t L)) unit :=
  modify (fun m =>
    let b := fresh (dom (heap m)) in
    set_backend (set_managers (<[this := mkManager size (rank mod 256 ^ Z.of_nat SIZEOF_PID) (Ptr b 0) LPF_INVALID_MEMSLOT]> (lpf_managers (backend m))) (backend m))
      (Memory.set_managers (<[this := CommunicationManagerFields.empty]> (managers m))
         (set_heap (<[b := replicate 8 x00]> (heap m)) m))).

(** *** Serialization and promotion *)

Definition serializeGlobalMemorySlot (this : nat) (globalSlot : option nat) : prog (Machine (t L)) (list byte) :=
  f ← fields this;
  lpfSlot ← (match globalSlot with Some g => cast_global g | None => mret None end);
  lpfSlot ← or_throw logic lpfSlot;
  serialized ← CHECK_value (lpf_noc_serialize_slot (LpfGlobalSlot.getLPFSlot lpfSlot));
  mret (le_bytes SIZEOF_PID (_rank f) ++ le_bytes 8 (Z.of_nat (length serialized)) ++ serialized).

(** The size is read and not used.  A buffer that is too short is read beyond its end. *)
Definition deserializeGlobalMemorySlot (this : nat) (buffer : list byte) (tag : Z) : prog (Machine (t L)) nat :=
  rank ← or_crash (le_value <$> read_at 0 SIZEOF_PID buffer);
  size ← or_crash (le_value <$> read_at SIZEOF_PID 8 buffer);
  let serialized := drop (SIZEOF_PID + 8) buffer in
  slot ← CHECK_value (lpf_noc_register nullptr 0);
  _ ← CHECK (lpf_noc_deserialize_slot serialized slot);
  new_global_slot rank slot LPF_INVALID_MEMSLOT tag 0 None.

Definition promoteLocalMemorySlot (this : nat) (memorySlot : option nat) (tag : Z) : prog (Machine (t L)) nat :=
  f ← fields this;
  lpfSlot ← (match memorySlot with Some l => cast_local l | None => mret None end);
  lpfSlot ← or_throw logic lpfSlot;
  l ← or_crash memorySlot;
  p ← getPointer l;
  size ← getSize l;
  promotedSlot ← CHECK_value (lpf_noc_register p size);
  lpfSwapSlot ← CHECK_value (lpf_noc_register (LpfLocalSlot.getLPFSwapPointer lpfSlot) SIZEOF_UINT64);
  new_global_slot (_rank f) promotedSlot lpfSwapSlot tag 0 (Some l).

Definition destroyPromotedGlobalMemorySlot (this memorySlot : nat) : prog (Machine (t L)) unit :=
  s ← cast_global memorySlot;
  lpfSlot ← or_throw logic s;
  _ ← CHECK (lpf_noc_deregister (LpfGlobalSlot.getLPFSlot lpfSlot));
  if negb (LpfGlobalSlot.getLPFSwapSlot lpfSlot =? LPF_INVALID_MEMSLOT)
  then CHECK (lpf_noc_deregister (LpfGlobalSlot.getLPFSwapSlot lpfSlot)) else mret tt.

(** *** The exchange of slots *)

Definition getGlobalMemorySlotImpl (this : nat) (tag globalKey : Z) : prog (Machine (t L)) (option nat) := mret None.

(** The number of slots of each process. *)
Definition exchange_counts (f : manager) (localSlotCount : Z) : prog (Machine (t L)) (list Z) :=
  with_array (encode 8 [localSlotCount]) (fun source =>
  with_array (zeros 8 (_size f)) (fun globalSlotCounts =>
    src_slot ← CHECK_value (lpf_register_global source SIZEOF_SIZE_T);
    dst_slot ← CHECK_value (lpf_register_global globalSlotCounts (SIZEOF_SIZE_T *w _size f));
    coll ← CHECK_value (lpf_collectives_init (_rank f) (_size f) 1 0 (SIZEOF_SIZE_T *w _size f));
    _ ← CHECK (lpf_allgather coll src_slot dst_slot SIZEOF_SIZE_T false);
    _ ← CHECK lpf_sync;
    _ ← CHECK (lpf_collectives_destroy coll);
    _ ← CHECK (lpf_deregister src_slot);
    _ ← CHECK (lpf_deregister dst_slot);
    read_array 8 globalSlotCounts (_size f))).

Definition total_count (counts : list Z) : Z := foldl (fun total count => total +w count) 0 counts.

Definition counts_in_bytes (width : Z) (counts : list Z) : list Z := map (fun count => count *w width) counts.

(** The sizes of the slots of all processes, and the processes they belong to. *)
Definition gather_sizes_and_ids (f : manager) (localSlotSizes counts : list Z) : prog (Machine (t L)) (list Z * list Z) :=
  let localSlotCount := Z.of_nat (length localSlotSizes) in
  let globalSlotCount := total_count counts in
  let sizeofPid := Z.of_nat SIZEOF_PID in
  with_array (encode 8 localSlotSizes) (fun localSizes =>
  with_array (encode SIZEOF_PID (map (fun _ => _rank f) localSlotSizes)) (fun localSlotProcessId =>
  with_array (zeros 8 globalSlotCount) (fun globalSlotSizes =>
  with_array (zeros SIZEOF_PID globalSlotCount) (fun globalSlotProcessId =>
    slot_local_sizes ← CHECK_value (lpf_register_local localSizes (localSlotCount *w SIZEOF_SIZE_T));
    slot_global_sizes ← CHECK_value (lpf_register_global globalSlotSizes (globalSlotCount *w SIZEOF_SIZE_T));
    _ ← CHECK lpf_sync;
    coll ← CHECK_value (lpf_collectives_init (_rank f) (_size f) 2 0 (SIZEOF_SIZE_T *w globalSlotCount));
    _ ← CHECK (lpf_allgatherv coll slot_local_sizes slot_global_sizes (counts_in_bytes SIZEOF_SIZE_T counts) false);
    _ ← CHECK lpf_sync;
    slot_local_process_ids ← CHECK_value (lpf_register_local localSlotProcessId (localSlotCount *w sizeofPid));
    slot_global_process_ids ← CHECK_value (lpf_register_global globalSlotProcessId (globalSlotCount *w sizeofPid));
    _ ← CHECK lpf_sync;
    _ ← CHECK (lpf_allgatherv coll slot_local_process_ids slot_global_process_ids (counts_in_bytes sizeofPid counts) false);
    _ ← CHECK lpf_sync;
    _ ← CHECK (lpf_collectives_destroy coll);
    _ ← CHECK (lpf_deregister slot_local_sizes);
    _ ← CHECK (lpf_deregister slot_global_sizes);
    _ ← CHECK (lpf_deregister slot_local_process_ids);
    _ ← CHECK (lpf_deregister slot_global_process_ids);
    sizes ← read_array 8 globalSlotSizes globalSlotCount;
    ids ← read_array SIZEOF_PID globalSlotProcessId globalSlotCount;
    mret (sizes, ids))))).

(** The keys of the slots of all processes. *)
Definition gather_keys (f : manager) (localSlotKeys counts : list Z) : prog (Machine (t L)) (list Z) :=
  let localSlotCount := Z.of_nat (length localSlotKeys) in
  let globalSlotCount := total_count counts in
  with_array (encode 8 localSlotKeys) (fun localKeys =>
  with_array (zeros 8 globalSlotCount) (fun globalSlotKeys =>
    slot_local_keys ← CHECK_value (lpf_register_local localKeys (localSlotCount *w SIZEOF_SIZE_T));
    slot_global_keys ← CHECK_value (lpf_register_global globalSlotKeys (globalSlotCount *w SIZEOF_SIZE_T));
    _ ← CHECK lpf_sync;
    coll ← CHECK_value (lpf_collectives_init (_rank f) (_size f) 1 0 (SIZEOF_SIZE_T *w globalSlotCount));
    _ ← CHECK (lpf_allgatherv coll slot_local_keys slot_global_keys (counts_in_bytes SIZEOF_SIZE_T counts) false);
    _ ← CHECK lpf_sync;
    _ ← CHECK (lpf_collectives_destroy coll);
    _ ← CHECK (lpf_deregister slot_local_keys);
    _ ← CHECK (lpf_deregister slot_global_keys);
    read_array 8 globalSlotKeys globalSlotCount)).

(** One gathered entry: the process that owns it, its key and its size.  The local
    slots of this process are taken in the order of the call. *)
Definition create_slot (this : nat) (tag rank : Z) (entry : Z * Z * Z) (source : option nat) : prog (Machine (t L)) unit :=
  let '(processId, key, size) := entry in
  let own := processId =? rank in
  globalSlotPointer ← (match source with Some l => getPointer l | None => mret nullptr end);
  globalSwapSlotPointer ← (match source with
                           | Some l => s ← cast_local l; localSlot ← or_crash s; mret (LpfLocalSlot.getLPFSwapPointer localSlot)
                           | None => mret nullptr
                           end);
  newSlot ← CHECK_value (lpf_register_global globalSlotPointer (if own then size else 0));
  swapValueSlot ← CHECK_value (lpf_register_global globalSwapSlotPointer (if own then SIZEOF_UINT64 else 0));
  _ ← CHECK lpf_sync;
  _ ← (match source with Some l => update_slot (LpfLocalSlot.setLPFSlot newSlot) l | None => mret tt end);
  memorySlot ← new_global_slot processId newSlot swapValueSlot tag key source;
  CommunicationManager.registerGlobalMemorySlot this memorySlot.

Fixpoint create_slots (this : nat) (tag rank : Z) (entries : list (Z * Z * Z)) (memorySlots : list (Z * nat)) :
    prog (Machine (t L)) unit :=
  match entries with
  | [] => mret tt
  | entry :: entries' =>
      if entry.1.1 =? rank
      then match memorySlots with
           | [] => Crash undefined
           | slot :: memorySlots' => _ ← create_slot this tag rank entry (Some slot.2); create_slots this tag rank entries' memorySlots'
           end
      else _ ← create_slot this tag rank entry None; create_slots this tag rank entries' memorySlots
  end.

Definition exchangeGlobalMemorySlotsImpl (this : nat) (tag : Z) (memorySlots : list (Z * nat)) : prog (Machine (t L)) unit :=
  f ← fields this;
  let localSlotCount := Z.of_nat (length memorySlots) in
  globalSlotCounts ← exchange_counts f localSlotCount;
  localSlotSizes ← map_each (fun slot => getSize slot.2) memorySlots;
  r ← gather_sizes_and_ids f localSlotSizes globalSlotCounts;
  let '(globalSlotSizes, globalSlotProcessId) := r in
  globalSlotKeys ← gather_keys f memorySlots.*1 globalSlotCounts;
  localSwapSlot ← CHECK_value (lpf_register_local (_localSwap f) SIZEOF_UINT64);
  _ ← update_fields this (set_localSwapSlot localSwapSlot);
  create_slots this tag (_rank f) (zip (zip globalSlotProcessId globalSlotKeys) globalSlotSizes) memorySlots.

(** *** Destruction *)

(** [getGlobalMemorySlotsToDestroyPerTag()[tag]], which creates the entry when it is missing. *)
Definition slots_to_destroy (this : nat) (tag : Z) : prog (Machine (t L)) (list nat) :=
  _ ← CommunicationManager.set_fields this (fun c =>
        let d := CommunicationManagerFields._globalMemorySlotsToDestroyPerTag c in
        CommunicationManager.with_to_destroy (<[tag := default [] (d !! tag)]> d) c);
  c ← CommunicationManager.fields this;
  mret (default [] (CommunicationManagerFields._globalMemorySlotsToDestroyPerTag c !! tag)).

Definition destroy_counts (f : manager) (localDestroySlotsCount : Z) : prog (Machine (t L)) (list Z) :=
  with_array (encode 8 [localDestroySlotsCount]) (fun source =>
  with_array (zeros 8 (_size f)) (fun globalDestroySlotCounts =>
    src_slot ← CHECK_value (lpf_register_global source SIZEOF_SIZE_T);
    dst_slot ← CHECK_value (lpf_register_global globalDestroySlotCounts (SIZEOF_SIZE_T *w _size f));
    _ ← CHECK lpf_sync;
    coll ← CHECK_value (lpf_collectives_init (_rank f) (_size f) 1 0 (SIZEOF_SIZE_T *w _size f));
    _ ← CHECK (lpf_allgather coll src_slot dst_slot SIZEOF_SIZE_T false);
    _ ← CHECK lpf_sync;
    _ ← CHECK (lpf_collectives_destroy coll);
    _ ← CHECK (lpf_deregister src_slot);
    _ ← CHECK (lpf_deregister dst_slot);
    read_array 8 globalDestroySlotCounts (_size f))).

(** The library slots of the marked slots of this process, and of all of them. *)
Definition local_ids (slots : list nat) : prog (Machine (t L)) (list Z) :=
  ids ← map_each (fun g => s ← cast_global g;
                           memorySlot ← or_throw fatal s;
                           mret [LpfGlobalSlot.getLPFSlot memorySlot; LpfGlobalSlot.getLPFSwapSlot memorySlot]) slots;
  mret (concat ids).

Definition gather_ids (f : manager) (localDestroySlotIds counts : list Z) : prog (Machine (t L)) (list Z) :=
  let localDestroySlotsCount := Z.of_nat (length localDestroySlotIds) in
  let globalDestroySlotTotalCount := total_count counts *w 2 in
  let sizeofMemslot := Z.of_nat SIZEOF_MEMSLOT in
  with_array (encode SIZEOF_MEMSLOT localDestroySlotIds) (fun localIds =>
  with_array (zeros SIZEOF_MEMSLOT globalDestroySlotTotalCount) (fun globalDestroySlotIds =>
    slot_local_ids ← CHECK_value (lpf_register_local localIds (localDestroySlotsCount *w sizeofMemslot));
    slot_global_ids ← CHECK_value (lpf_register_global globalDestroySlotIds (globalDestroySlotTotalCount *w sizeofMemslot));
    _ ← CHECK lpf_sync;
    coll ← CHECK_value (lpf_collectives_init (_rank f) (_size f) 1 0 (sizeofMemslot *w globalDestroySlotTotalCount));
    _ ← CHECK (lpf_allgatherv coll slot_local_ids slot_global_ids (counts_in_bytes SIZEOF_SIZE_T (counts_in_bytes 2 counts)) false);
    _ ← CHECK lpf_sync;
    _ ← CHECK (lpf_collectives_destroy coll);
    _ ← CHECK (lpf_deregister slot_local_ids);
    _ ← CHECK (lpf_deregister slot_global_ids);
    read_array SIZEOF_MEMSLOT globalDestroySlotIds globalDestroySlotTotalCount)).

(** The status of the final deregistrations is not looked at. *)
Definition destroyGlobalMemorySlotsCollectiveImpl (this : nat) (tag : Z) : prog (Machine (t L)) unit :=
  f ← fields this;
  slots ← slots_to_destroy this tag;
  globalDestroySlotCounts ← destroy_counts f (Z.of_nat (length slots));
  if total_count globalDestroySlotCounts =? 0 then mret tt else
  localDestroySlotIds ← local_ids slots;
  globalDestroySlotIds ← gather_ids f localDestroySlotIds globalDestroySlotCounts;
  for_each (MpiCommunicationManager.key_set globalDestroySlotIds) (fun id => _ ← call (lpf_deregister id); mret tt).

Definition destroyGlobalMemorySlotImpl (this memorySlotPtr : nat) : prog (Machine (t L)) unit :=
  s ← cast_global memorySlotPtr;
  memorySlot ← or_throw logic s;
  _ ← CHECK (lpf_deregister (LpfGlobalSlot.getLPFSlot memorySlot));
  CHECK (lpf_deregister (LpfGlobalSlot.getLPFSwapSlot memorySlot)).

(** *** Copies *)

(** The check of the source looks at the pointer before the cast: a slot of another
    backend passes it, and is dereferenced as a null pointer.  The status of the
    transfer is not looked at. *)
Definition memcpyImplLG (this destination : nat) (dst_offset : Z) (source : nat) (src_offset size : Z) : prog (Machine (t L)) unit :=
  src ← cast_global source;
  d ← cast_local destination;
  dest ← or_throw logic d;
  src ← or_crash src;
  _ ← call (lpf_get (LpfGlobalSlot.getRank src) (LpfGlobalSlot.getLPFSlot src) src_offset (LpfLocalSlot.getLPFSlot dest) dst_offset size);
  mret tt.

Definition memcpyImplGL (this destination : nat) (dst_offset : Z) (source : nat) (src_offset size : Z) : prog (Machine (t L)) unit :=
  s ← cast_local source;
  src ← or_throw logic s;
  d ← cast_global destination;
  dest ← or_throw logic d;
  _ ← call (lpf_put (LpfLocalSlot.getLPFSlot src) src_offset (LpfGlobalSlot.getRank dest) (LpfGlobalSlot.getLPFSlot dest) dst_offset size);
  mret tt.

(** *** Fences and message counters *)

Definition fenceImpl (this : nat) (tag : Z) : prog (Machine (t L)) unit :=
  _ ← CHECK lpf_sync;
  destroyGlobalMemorySlotsCollectiveImpl this tag.

Definition getGlobalMemorySlots (this : nat) (tag : Z) : prog (Machine (t L)) (gmap Z nat) :=
  c ← CommunicationManager.fields this;
  or_throw logic (CommunicationManagerFields._globalMemorySlotTagKeyMap c !! tag).

(** The casts of the following operations are not checked. *)
Definition fenceImplLocal (this slot : nat) (expectedSent expectedRcvd : Z) : prog (Machine (t L)) unit :=
  s ← cast_local slot;
  memSlot ← or_crash s;
  let lpfSlot := LpfLocalSlot.getLPFSlot memSlot in
  _ ← throw_if (lpfSlot =? LPF_INVALID_MEMSLOT) logic;
  sent ← getMessagesSent slot;
  recv ← getMessagesRecv slot;
  _ ← CHECK (lpf_counting_sync_per_slot lpfSlot (sent +w expectedSent) (recv +w expectedRcvd));
  _ ← update_local (fun s => LocalMemorySlot.setMessagesSent (LocalMemorySlot._messagesSent s +w expectedSent) s) slot;
  update_local (fun s => LocalMemorySlot.setMessagesRecv (LocalMemorySlot._messagesRecv s +w expectedRcvd) s) slot.

Definition updateMessagesRecv (this memorySlot : nat) : prog (Machine (t L)) unit :=
  s ← cast_local memorySlot;
  memSlot ← or_crash s;
  r ← call (lpf_get_rcvd_msg_count_per_slot (LpfLocalSlot.getLPFSlot memSlot));
  update_local (LocalMemorySlot.setMessagesRecv r.2) memorySlot.

Definition updateMessagesSent (this memorySlot : nat) : prog (Machine (t L)) unit :=
  s ← cast_local memorySlot;
  memSlot ← or_crash s;
  r ← call (lpf_get_sent_msg_count_per_slot (LpfLocalSlot.getLPFSlot memSlot));
  update_local (LocalMemorySlot.setMessagesSent r.2) memorySlot.

Definition fenceImplSingle (this hicrSlot : nat) : prog (Machine (t L)) unit :=
  s ← cast_local hicrSlot;
  memorySlot ← or_crash s;
  _ ← CHECK (lpf_sync_per_slot (LpfLocalSlot.getLPFSlot memorySlot));
  _ ← updateMessagesRecv this hicrSlot;
  updateMessagesSent this hicrSlot.

Definition queryMemorySlotUpdatesImpl (this memorySlot : nat) : prog (Machine (t L)) unit := fenceImplSingle this memorySlot.

Definition flushSent (this : nat) : prog (Machine (t L)) unit := _ ← call lpf_flush_sent; mret tt.

Definition flushReceived (this : nat) : prog (Machine (t L)) unit := _ ← call lpf_flush_received; mret tt.

(** *** Locks *)

Definition acquireGlobalLockImpl (this memorySlot : nat) : prog (Machine (t L)) bool :=
  f ← fields this;
  s ← cast_global memorySlot;
  hicrSlot ← or_crash s;
  _ ← CHECK (lpf_lock_slot (_localSwapSlot f) (LpfGlobalSlot.getRank hicrSlot) (LpfGlobalSlot.getLPFSwapSlot hicrSlot) SIZEOF_UINT64);
  mret true.

Definition releaseGlobalLockImpl (this memorySlot : nat) : prog (Machine (t L)) unit :=
  f ← fields this;
  s ← cast_global memorySlot;
  hicrSlot ← or_crash s;
  CHECK (lpf_unlock_slot (_localSwapSlot f) (LpfGlobalSlot.getRank hicrSlot) (LpfGlobalSlot.getLPFSwapSlot hicrSlot) SIZEOF_UINT64).

End Operations.
End LpfCommunicationManager.

(** The lock of a slot is the swap value of its owner, which only the library
    looks at: the process itself does not know its state. *)
#[global] Instance lpf_backend {L : Type} {M : LPF L} : CommBackend (Lpf.t L) := {
  getGlobalMemorySlotImpl := LpfCommunicationManager.getGlobalMemorySlotImpl;
  exchangeGlobalMemorySlotsImpl := LpfCommunicationManager.exchangeGlobalMemorySlotsImpl;
  queryMemorySlotUpdatesImpl := LpfCommunicationManager.queryMemorySlotUpdatesImpl;
  deregisterGlobalMemorySlotImpl := fun _ _ => mret tt;
  memcpyImplLL := fun _ _ _ _ _ _ => Raise logic;
  memcpyImplGL := LpfCommunicationManager.memcpyImplGL;
  memcpyImplLG := LpfCommunicationManager.memcpyImplLG;
  fenceImplTag := LpfCommunicationManager.fenceImpl;
  fenceImplLocal := LpfCommunicationManager.fenceImplLocal;
  fenceImplGlobal := fun _ _ _ _ => mret tt;
  acquireGlobalLockImpl := LpfCommunicationManager.acquireGlobalLockImpl;
  releaseGlobalLockImpl := LpfCommunicationManager.releaseGlobalLockImpl;
  flushSent := LpfCommunicationManager.flushSent;
  flushReceived := LpfCommunicationManager.flushReceived;
  locked := fun _ _ => None;
  lock_slot := fun _ x => x;
  unlock_slot := fun _ x => x
}.

#[global] Instance lpf_promotion {L : Type} {M : LPF L} : PromotionBackend (Lpf.t L) := {
  serializeGlobalMemorySlot := LpfCommunicationManager.serializeGlobalMemorySlot;
  deserializeGlobalMemorySlot := LpfCommunicationManager.deserializeGlobalMemorySlot;
  promoteLocalMemorySlot := LpfCommunicationManager.promoteLocalMemorySlot;
  destroyPromotedGlobalMemorySlot := LpfCommunicationManager.destroyPromotedGlobalMemorySlot
}.
