(* ===== verification/LpfSpec.v ===== *)
(** * The LPF backend: what is relied on, calls and gathering

    [LpfSpec] has what the theorems rely on of the library: slots are registered
    and deregistered; a gathering operation is scheduled by the call and has
    happened after the next synchronization, when the memory registered as its
    destination holds what the processes have contributed, in the order of their
    ranks; a transfer is complete after the synchronization of its local slot; a
    slot that has been serialized can be reached through the slot into which it is
    deserialized.  [LpfDemo.v] has a small library for which all of this holds. *)

From S2P Require Import Prelude Memory CommunicationManager Mpi Lpf.
From Stdlib Require Import ZArith Lia.
From Stdlib.Strings Require Import Byte.
From stdpp Require Import base list gmap option.

Local Open Scope Z_scope.
Local Open Scope hicr_scope.

(** A slot for communication without collective registration refers to memory of a
    process. *)
Record target : Type := mkTarget { tg_rank : Z; tg_pointer : ptr; tg_size : Z }.

(** [self], [procs]: the rank of this process and the number of processes.  [reg]:
    the slots that it has registered, with their memory.  [noc]: the slots for
    communication without collective registration, with what they refer to.
    [pending]: the destinations of the gathering operations that have been
    scheduled.  [incoming]: what these and the next ones deliver.  [encodes]: the
    serialized form of a slot.  [remote]: the bytes of a slot
    at a rank.  [far]: the bytes of the memory of another process that a slot for
    communication without collective registration refers to; once such a slot has
    been deserialized it gives access to them.  [available]: there is room for registrations,
    and the library does not fail.
    [sent], [rcvd]: the messages that a local slot has sent with [lpf_put] and has
    received with [lpf_get], none when it has just been registered; a counting synchronization returns when they are as
    expected. *)
Class LpfSpec (L : Type) {M : LPF L} : Type := {
  self : L -> Z;
  procs : L -> Z;
  reg : L -> gmap Z (ptr * Z);
  noc : L -> gmap Z target;
  pending : L -> list Z;
  incoming : L -> list (list byte);
  encodes : list byte -> target -> Prop;
  remote : L -> Z -> Z -> option (list byte);
  far : L -> target -> option (list byte);
  available : L -> Prop;
  sent : L -> Z -> Z;
  rcvd : L -> Z -> Z;
  kept : L -> L -> Prop := fun l l' =>
    self l' = self l /\ procs l' = procs l /\ (available l -> available l') /\ (forall r s, remote l' r s = remote l r s) /\
    (forall d, far l' d = far l d);
  register_local_ok : forall p n h l, available l -> 0 <= n ->
    exists s l', run (lpf_register_local p n) (h, l) = Done (LPF_SUCCESS, s) (h, l') /\ reg l !! s = None /\
      s <> LPF_INVALID_MEMSLOT /\ reg l' = <[s := (p, n)]> (reg l) /\ noc l' = noc l /\
      pending l' = pending l /\ incoming l' = incoming l /\ kept l l';
  register_counts : forall p n h h' l l' s, run (lpf_register_local p n) (h, l) = Done (LPF_SUCCESS, s) (h', l') ->
    sent l' s = 0 /\ rcvd l' s = 0;
  register_global_ok : forall p n h l, available l -> 0 <= n ->
    exists s l', run (lpf_register_global p n) (h, l) = Done (LPF_SUCCESS, s) (h, l') /\ reg l !! s = None /\
      s <> LPF_INVALID_MEMSLOT /\ reg l' = <[s := (p, n)]> (reg l) /\ noc l' = noc l /\
      pending l' = pending l /\ incoming l' = incoming l /\ kept l l';
  deregister_ok : forall s h l, is_Some (reg l !! s) ->
    exists l', run (lpf_deregister s) (h, l) = Done LPF_SUCCESS (h, l') /\ reg l' = delete s (reg l) /\ noc l' = noc l /\
      pending l' = pending l /\ incoming l' = incoming l /\ kept l l';
  init_ok : forall r n calls k size h l,
    exists c l', run (lpf_collectives_init r n calls k size) (h, l) = Done (LPF_SUCCESS, c) (h, l') /\ reg l' = reg l /\ noc l' = noc l /\
      pending l' = pending l /\ incoming l' = incoming l /\ kept l l';
  destroy_ok : forall c h l,
    exists l', run (lpf_collectives_destroy c) (h, l) = Done LPF_SUCCESS (h, l') /\ reg l' = reg l /\ noc l' = noc l /\
      pending l' = pending l /\ incoming l' = incoming l /\ kept l l';
  allgather_ok : forall c src dst n p q bs rest h l,
    reg l !! src = Some (p, n) -> reg l !! dst = Some (q, n * procs l) -> incoming l = bs :: rest ->
    Z.of_nat (length bs) = n * procs l ->
    mem_load h p n = Some (take (Z.to_nat n) (drop (Z.to_nat (n * self l)) bs)) -> pending l = [] ->
    exists l', run (lpf_allgather c src dst n false) (h, l) = Done LPF_SUCCESS (h, l') /\ reg l' = reg l /\ noc l' = noc l /\
      pending l' = [dst] /\ incoming l' = incoming l /\ kept l l';
  allgatherv_ok : forall c src dst sizes n p q total bs rest h l,
    reg l !! src = Some (p, n) -> reg l !! dst = Some (q, total) -> incoming l = bs :: rest ->
    sizes !! Z.to_nat (self l) = Some n -> foldr Z.add 0 sizes = total -> Z.of_nat (length bs) = total ->
    mem_load h p n = Some (take (Z.to_nat n) (drop (Z.to_nat (foldr Z.add 0 (take (Z.to_nat (self l)) sizes))) bs)) -> pending l = [] ->
    exists l', run (lpf_allgatherv c src dst sizes false) (h, l) = Done LPF_SUCCESS (h, l') /\ reg l' = reg l /\ noc l' = noc l /\
      pending l' = [dst] /\ incoming l' = incoming l /\ kept l l';
  sync_ok : forall h l, pending l = [] ->
    exists l', run lpf_sync (h, l) = Done LPF_SUCCESS (h, l') /\ reg l' = reg l /\ noc l' = noc l /\
      pending l' = [] /\ incoming l' = incoming l /\ kept l l';
  sync_gather_ok : forall dst q n bs rest h h' l, pending l = [dst] -> reg l !! dst = Some (q, n) -> incoming l = bs :: rest ->
    Z.of_nat (length bs) = n -> mem_store h q bs = Some h' ->
    exists l', run lpf_sync (h, l) = Done LPF_SUCCESS (h', l') /\ reg l' = reg l /\ noc l' = noc l /\
      pending l' = [] /\ incoming l' = rest /\ kept l l';
  noc_register_ok : forall p n h l, available l -> 0 <= n ->
    exists s l', run (lpf_noc_register p n) (h, l) = Done (LPF_SUCCESS, s) (h, l') /\ noc l !! s = None /\
      s <> LPF_INVALID_MEMSLOT /\ noc l' = <[s := mkTarget (self l) p n]> (noc l) /\ reg l' = reg l /\
      pending l' = pending l /\ incoming l' = incoming l /\ kept l l';
  noc_deregister_ok : forall s h l, is_Some (noc l !! s) ->
    exists l', run (lpf_noc_deregister s) (h, l) = Done LPF_SUCCESS (h, l') /\ noc l' = delete s (noc l) /\ reg l' = reg l /\
      pending l' = pending l /\ incoming l' = incoming l /\ kept l l';
  serialize_ok : forall s d h l, noc l !! s = Some d ->
    exists bs, run (lpf_noc_serialize_slot s) (h, l) = Done (LPF_SUCCESS, bs) (h, l) /\ encodes bs d;
  deserialize_ok : forall s bs d h l, is_Some (noc l !! s) -> encodes bs d ->
    exists l', run (lpf_noc_deserialize_slot bs s) (h, l) = Done LPF_SUCCESS (h, l') /\ noc l' = <[s := d]> (noc l) /\ reg l' = reg l /\
      pending l' = pending l /\ incoming l' = incoming l /\
      self l' = self l /\ procs l' = procs l /\ (available l -> available l') /\ (forall d', far l' d' = far l d') /\
      (forall r s', s' <> s -> remote l' r s' = remote l r s') /\ (tg_rank d <> self l -> remote l' (tg_rank d) s = far l d);
  put_ok : forall r s sO d dO n x p bs old new h l, available l -> r <> self l -> reg l !! s = Some (p, x) -> 0 <= sO -> n + sO <= x ->
    mem_load h (ptr_add p sO) n = Some bs -> remote l r d = Some old -> 0 <= dO -> write_at (Z.to_nat dO) bs old = Some new ->
    exists l', run (a ← lpf_put s sO r d dO n; b ← lpf_counting_sync_per_slot s (sent l s + 1) (rcvd l s); mret (a, b)) (h, l) =
        Done (LPF_SUCCESS, LPF_SUCCESS) (h, l') /\ reg l' = reg l /\ self l' = self l /\ available l' /\ remote l' r d = Some new /\
      (forall r' d', (r', d') <> (r, d) -> remote l' r' d' = remote l r' d') /\
      (forall s', sent l' s' = sent l s' + (if s' =? s then 1 else 0)) /\ (forall s', rcvd l' s' = rcvd l s');
  get_ok : forall r s sO d dO n x p bs bytes h h' l, available l -> r <> self l -> reg l !! d = Some (p, x) -> 0 <= dO -> n + dO <= x -> 0 <= n ->
    remote l r s = Some bytes -> 0 <= sO -> read_at (Z.to_nat sO) (Z.to_nat n) bytes = Some bs -> mem_store h (ptr_add p dO) bs = Some h' ->
    exists l', run (a ← lpf_get r s sO d dO n; b ← lpf_counting_sync_per_slot d (sent l d) (rcvd l d + 1); mret (a, b)) (h, l) =
        Done (LPF_SUCCESS, LPF_SUCCESS) (h', l') /\ reg l' = reg l /\ self l' = self l /\ available l' /\
      (forall r' d', remote l' r' d' = remote l r' d') /\
      (forall s', sent l' s' = sent l s') /\ (forall s', rcvd l' s' = rcvd l s' + (if s' =? d then 1 else 0)) /\ noc l' = noc l
}.

(** ** Calls of the library *)

Section Calls.
Context {L : Type} {M : LPF L}.
Implicit Types m : Machine (Lpf.t L).
Import Lpf.

(** [m] with another memory and another state of the library. *)
Definition after (h : memory) (l : L) (m : Machine (Lpf.t L)) : Machine (Lpf.t L) :=
  set_backend (set_library l (backend m)) (set_heap h m).

Abbreviation lib m := (Lpf.library (backend m)) (only parsing).

Lemma run_lpf_call {A : Type} (p : prog (memory * L) A) m :
  run (call p) m =
  match run p (heap m, lib m) with
  | Done a s => Done a (after s.1 s.2 m)
  | Thrown e s => Thrown e (after s.1 s.2 m)
  | Crashed c s => Crashed c (after s.1 s.2 m)
  | Blocked s => Blocked (after s.1 s.2 m)
  end.
Proof.
  unfold call. erewrite run_zoom; [reflexivity|done| |..].
  - by destruct m as [? ? ? ? []].
  - by intros [].
  - by intros [] [] [].
Qed.

Lemma after_twice h l h' l' m : after h' l' (after h l m) = after h' l' m.
Proof. by destruct m. Qed.

Lemma after_same m : after (heap m) (lib m) m = m.
Proof. by destruct m as [? ? ? ? []]. Qed.

Lemma run_CHECK p m h l :
  run p (heap m, lib m) = Done LPF_SUCCESS (h, l) -> run (CHECK p) m = Done tt (after h l m).
Proof. intros E. unfold CHECK. rewrite run_bind, run_lpf_call, E. by rewrite Z.eqb_refl. Qed.

Lemma run_CHECK_value {A : Type} (p : prog (memory * L) (Z * A)) m a h l :
  run p (heap m, lib m) = Done (LPF_SUCCESS, a) (h, l) -> run (CHECK_value p) m = Done a (after h l m).
Proof. intros E. unfold CHECK_value. rewrite run_bind, run_lpf_call, E. cbn. by rewrite Z.eqb_refl. Qed.

(** Any other status is a runtime error. *)
Lemma run_CHECK_failed p m status h l :
  run p (heap m, lib m) = Done status (h, l) -> status <> LPF_SUCCESS -> run (CHECK p) m = Thrown runtime (after h l m).
Proof. intros E Hs. unfold CHECK. rewrite run_bind, run_lpf_call, E. cbn. apply Z.eqb_neq in Hs. by rewrite Hs. Qed.

(** *** Arrays *)

Lemma run_finally {S A : Type} (p : prog S A) (f : S -> S) s :
  run (finally p (modify f)) s =
  match run p s with
  | Done a s' => Done a (f s')
  | Thrown e s' => Thrown e (f s')
  | Crashed c s' => Crashed c s'
  | Blocked s' => Blocked s'
  end.
Proof. revert s. induction p as [a|e|c|g k IH|c k IH]; intros s; cbn; [done..|by apply IH|]. destruct (c s); [apply IH|done]. Qed.

(** An array is a new block, which is gone afterwards. *)
Lemma run_with_array {A : Type} content (body : ptr -> prog (Machine (t L)) A) h l m (Q : A -> memory -> L -> Prop) :
  (forall b, h !! b = None -> exists a h' l',
     run (body (Ptr b 0)) (after (<[b := content]> h) l m) = Done a (after h' l' m) /\ Q a (delete b h') l') ->
  exists a h' l', run (with_array content body) (after h l m) = Done a (after h' l' m) /\ Q a h' l'.
Proof.
  intros H. set (b := fresh (dom h)). assert (Hb : h !! b = None) by apply not_elem_of_dom, is_fresh.
  destruct (H b Hb) as (a & h' & l' & E & HQ). exists a, (delete b h'), l'. split; [|done]. unfold with_array. cbn [run]. cbn. fold b.
  rewrite run_finally. replace (set_heap _ _) with (after (<[b := content]> h) l m) by done. rewrite E. by destruct m.
Qed.

(** The memory as it was, after two arrays. *)
Lemma run_two_arrays {A : Type} x y (body : ptr -> ptr -> prog (Machine (t L)) A) m a (Q : L -> Prop) :
  (forall b c, b <> c -> exists z l',
     run (body (Ptr b 0) (Ptr c 0)) (after (<[c := y]> (<[b := x]> (heap m))) (lib m) m) =
       Done a (after (<[c := z]> (<[c := y]> (<[b := x]> (heap m)))) l' m) /\ Q l') ->
  exists l', run (with_array x (fun s => with_array y (body s))) m = Done a (after (heap m) l' m) /\ Q l'.
Proof.
  intros H. assert (X : exists r h l', run (with_array x (fun s => with_array y (body s))) (after (heap m) (lib m) m) = Done r (after h l' m) /\
    (r = a /\ h = heap m /\ Q l')); [|rewrite after_same in X; destruct X as (r & h & l' & E & -> & -> & HQ); by exists l'].
  apply (run_with_array x (fun s => with_array y (body s)) _ _ _ (fun r h l' => r = a /\ h = heap m /\ Q l')). intros b Hb.
  apply (run_with_array y (body (Ptr b 0)) _ _ _ (fun r h l' => r = a /\ delete b h = heap m /\ Q l')). intros c Hc.
  destruct (H b c) as (z & l' & E & HQ); [intros ->; by rewrite lookup_insert_eq in Hc|].
  eexists _, _, l'. split; [exact E|]. split_and!; [done| |done]. rewrite insert_insert_eq. rewrite (delete_insert_id _ c) by done. by apply delete_insert_id.
Qed.

Lemma length_encode w zs : length (encode w zs) = (w * length zs)%nat.
Proof. induction zs as [|z zs IH]; cbn; [lia|]. rewrite length_app, length_le_bytes. unfold encode in IH. lia. Qed.

Lemma encode_app w xs ys : encode w (xs ++ ys) = encode w xs ++ encode w ys.
Proof. unfold encode. by rewrite map_app, concat_app. Qed.

Lemma decode_encode w zs : Forall (fun z => 0 <= z < 256 ^ Z.of_nat w) zs -> decode w (length zs) (encode w zs) = zs.
Proof.
  induction 1 as [|z zs Hz _ IH]; [done|]. cbn. rewrite take_app_length', drop_app_length' by (by rewrite length_le_bytes).
  rewrite le_value_bytes, Z.mod_small by done. f_equal. exact IH.
Qed.

(** A whole block. *)
Lemma mem_load_block (h : memory) b bs n : h !! b = Some bs -> n = Z.of_nat (length bs) -> mem_load h (Ptr b 0) n = Some bs.
Proof.
  intros E ->. unfold mem_load. rewrite E. cbn. rewrite bool_decide_true by lia. unfold read_at. rewrite Nat2Z.id.
  rewrite bool_decide_true by lia. by rewrite drop_0, firstn_all.
Qed.

Lemma mem_store_block (h : memory) b old bs : h !! b = Some old -> length bs = length old -> mem_store h (Ptr b 0) bs = Some (<[b := bs]> h).
Proof.
  intros E Hl. unfold mem_store. rewrite E. cbn. rewrite bool_decide_true by lia. unfold write_at. rewrite bool_decide_true by lia.
  cbn. rewrite drop_ge by lia. by rewrite app_nil_r.
Qed.

Lemma run_read_array w b zs n m (h : memory) l :
  h !! b = Some (encode w zs) -> n = Z.of_nat (length zs) -> Forall (fun z => 0 <= z < 256 ^ Z.of_nat w) zs ->
  run (read_array w (Ptr b 0) n) (after h l m) = Done zs (after h l m).
Proof.
  intros E -> Hz. unfold read_array. erewrite run_bind_Done.
  - cbn. by rewrite Nat2Z.id, decode_encode.
  - apply (run_fetch (fun m => mem_load (heap m) _ _)). apply mem_load_block; [done|]. rewrite length_encode. lia.
Qed.

End Calls.

(** The next call of a program is known. *)
Ltac lpf_value E := erewrite run_bind_Done by (eapply run_CHECK_value; exact E); rewrite ?after_twice; cbn beta.
Ltac lpf_check E := erewrite run_bind_Done by (eapply run_CHECK; exact E); rewrite ?after_twice; cbn beta.

(** ** Gathering *)

Section Gathering.
Context {L : Type} {M : LPF L} {Sp : LpfSpec L}.
Implicit Types (m : Machine (Lpf.t L)) (l : L).
Import Lpf LpfCommunicationManager.

Abbreviation lib m := (Lpf.library (backend m)) (only parsing).

(** What a gathering operation does to the library: the next contribution is consumed. *)
Record gathers (n : nat) l l' : Prop := mkGathers {
  ga_reg : reg l' = reg l;
  ga_noc : noc l' = noc l;
  ga_pending : pending l' = [];
  ga_incoming : incoming l' = drop n (incoming l);
  ga_kept : kept l l'
}.

Lemma kept_trans l1 l2 l3 : kept l1 l2 -> kept l2 l3 -> kept l1 l3.
Proof.
  intros (? & ? & ? & Hr & Hf) (? & ? & ? & Hr' & Hf'). split_and!; [congruence|congruence|by auto|intros; by rewrite Hr', Hr|intros; by rewrite Hf', Hf].
Qed.

Lemma kept_refl l : kept l l.
Proof. by split_and!. Qed.

(** The elements of all processes, by rank: [css]. *)
Definition sizes_of (w : nat) (css : list (list Z)) : list Z := map (fun c => Z.of_nat (w * length c)) css.

Lemma sum_sizes_of w css : foldr Z.add 0 (sizes_of w css) = Z.of_nat (w * length (concat css)).
Proof. induction css as [|c css IH]; cbn; [lia|]. rewrite length_app. unfold sizes_of in IH. lia. Qed.

Lemma own_part w css r mine : css !! r = Some mine ->
  take (w * length mine) (drop (Z.to_nat (foldr Z.add 0 (take r (sizes_of w css)))) (encode w (concat css))) = encode w mine.
Proof.
  intros Hr. unfold sizes_of. rewrite firstn_map. fold (sizes_of w (take r css)). rewrite sum_sizes_of, Nat2Z.id.
  rewrite <- (take_drop_middle _ _ _ Hr) at 2. rewrite concat_app, encode_app. cbn [concat]. rewrite encode_app.
  rewrite drop_app_length' by (by rewrite length_encode). by rewrite take_app_length' by (by rewrite length_encode).
Qed.

(** [gather_keys] and [gather_ids] have one form. *)
Definition gather_calls (w : nat) (f : manager) (count total : Z) (bytes : list Z) (maxSize : Z) (src dst : ptr) : prog (Machine (t L)) (list Z) :=
  s ← CHECK_value (lpf_register_local src (count *w Z.of_nat w));
  d ← CHECK_value (lpf_register_global dst (total *w Z.of_nat w));
  _ ← CHECK lpf_sync;
  coll ← CHECK_value (lpf_collectives_init (_rank f) (_size f) 1 0 maxSize);
  _ ← CHECK (lpf_allgatherv coll s d bytes false);
  _ ← CHECK lpf_sync;
  _ ← CHECK (lpf_collectives_destroy coll);
  _ ← CHECK (lpf_deregister s);
  _ ← CHECK (lpf_deregister d);
  read_array w dst total.

Definition gather_array (w : nat) (f : manager) (vals : list Z) (total : Z) (bytes : list Z) (maxSize : Z) : prog (Machine (t L)) (list Z) :=
  with_array (encode w vals) (fun src => with_array (zeros w total) (gather_calls w f (Z.of_nat (length vals)) total bytes maxSize src)).

Lemma length_own (css : list (list Z)) r (mine : list Z) : css !! r = Some mine -> (length mine <= length (concat css))%nat.
Proof. intros Hr. rewrite <- (take_drop_middle _ _ _ Hr), concat_app. cbn. rewrite !length_app. lia. Qed.

(** The arrays [b] and [c] have the elements of this process and room for all. *)
Record arrays (w : nat) (css : list (list Z)) (vals : list Z) (b c : nat) (h : memory) : Prop := mkArrays {
  ar_source : h !! b = Some (encode w vals);
  ar_room : exists old, h !! c = Some old /\ length old = (w * length (concat css))%nat;
  ar_other : b <> c;
  ar_size : Z.of_nat (w * length (concat css)) < SIZE_BOUND;
  ar_values : Forall (fun z => 0 <= z < 256 ^ Z.of_nat w) (concat css)
}.

(** The two calls that gather; [s] and [d] are the slots of the arrays. *)
Lemma gather_step coll s d w css vals b c rest h l :
  arrays w css vals b c h -> reg l !! s = Some (Ptr b 0, Z.of_nat (length vals) * Z.of_nat w) ->
  reg l !! d = Some (Ptr c 0, Z.of_nat (length (concat css)) * Z.of_nat w) ->
  pending l = [] -> incoming l = encode w (concat css) :: rest -> css !! Z.to_nat (self l) = Some vals ->
  exists l1 l', run (lpf_allgatherv coll s d (sizes_of w css) false) (h, l) = Done LPF_SUCCESS (h, l1) /\
    run lpf_sync (h, l1) = Done LPF_SUCCESS (<[c := encode w (concat css)]> h, l') /\ gathers 1 l l'.
Proof.
  intros [Hb (old & Hc & Hold) Hbc Hsz Hall] Hs Hd Hp Hin Hmine.
  destruct (allgatherv_ok coll s d (sizes_of w css) _ _ _ _ (encode w (concat css)) rest h l Hs Hd Hin) as (l1 & E1 & R1 & N1 & P1 & I1 & K1).
  { unfold sizes_of. rewrite list_lookup_fmap, Hmine. cbn. f_equal. lia. }
  { rewrite sum_sizes_of. lia. }
  { rewrite length_encode. lia. }
  { replace (Z.to_nat (Z.of_nat (length vals) * Z.of_nat w)) with (w * length vals)%nat by lia.
    rewrite own_part by done. apply mem_load_block; [done|]. rewrite length_encode. lia. }
  { done. }
  destruct (sync_gather_ok d (Ptr c 0) (Z.of_nat (length (concat css)) * Z.of_nat w) (encode w (concat css)) rest h (<[c := encode w (concat css)]> h) l1 P1) as (l2 & E2 & R2 & N2 & P2 & I2 & K2).
  { rewrite R1. exact Hd. }
  { congruence. }
  { rewrite length_encode. lia. }
  { eapply mem_store_block; [done|]. by rewrite length_encode. }
  exists l1, l2. split_and!; [done|done|]. split; [congruence|congruence|done|by rewrite I2, Hin|by eapply kept_trans].
Qed.

(** Two registrations that have been undone. *)
Lemma deregistered (R : gmap Z (ptr * Z)) s d x y :
  R !! s = None -> <[s := x]> R !! d = None -> delete d (delete s (<[d := y]> (<[s := x]> R))) = R.
Proof.
  intros Hs Hd. assert (s <> d) by (intros ->; by rewrite lookup_insert_eq in Hd). rewrite lookup_insert_ne in Hd by done.
  rewrite delete_insert_ne by done. rewrite (delete_insert_id R s x) by done. by apply delete_insert_id.
Qed.

Lemma kept_available l l' : kept l l' -> available l -> available l'.
Proof. intros (_ & _ & H & _). exact H. Qed.

Lemma kept_self l l' : kept l l' -> self l' = self l.
Proof. by intros (H & _). Qed.

(** The two arrays are registered, and later deregistered. *)
Lemma run_register_pair p n q k h l m :
  available l -> pending l = [] -> 0 <= n -> 0 <= k ->
  exists s d l', reg l !! s = None /\ <[s := (p, n)]> (reg l) !! d = None /\ s <> d /\
    reg l' = <[d := (q, k)]> (<[s := (p, n)]> (reg l)) /\ noc l' = noc l /\ pending l' = [] /\ incoming l' = incoming l /\ kept l l' /\
    forall A (K : Z -> Z -> prog (Machine (t L)) A),
      run (s ← CHECK_value (lpf_register_local p n); d ← CHECK_value (lpf_register_global q k); _ ← CHECK lpf_sync; K s d) (after h l m) =
      run (K s d) (after h l' m).
Proof.
  intros Ha Hp Hn Hk. destruct (register_local_ok p n h l Ha Hn) as (s & l1 & E1 & F1 & _ & R1 & N1 & P1 & I1 & K1).
  destruct (register_global_ok q k h l1 (kept_available _ _ K1 Ha) Hk) as (d & l2 & E2 & F2 & _ & R2 & N2 & P2 & I2 & K2).
  destruct (sync_ok h l2) as (l3 & E3 & R3 & N3 & P3 & I3 & K3); [congruence|]. rewrite R1 in F2.
  exists s, d, l3. split_and!; [done|done|intros ->; by rewrite lookup_insert_eq in F2|congruence..| |].
  - eapply kept_trans; [exact K1|]. by eapply kept_trans.
  - intros A K. lpf_value E1. lpf_value E2. by lpf_check E3.
Qed.

Lemma run_deregister_pair s d h l m :
  is_Some (reg l !! s) -> is_Some (reg l !! d) -> s <> d ->
  exists l', reg l' = delete d (delete s (reg l)) /\ noc l' = noc l /\ pending l' = pending l /\ incoming l' = incoming l /\ kept l l' /\
    forall A (K : prog (Machine (t L)) A),
      run (_ ← CHECK (lpf_deregister s); _ ← CHECK (lpf_deregister d); K) (after h l m) = run K (after h l' m).
Proof.
  intros Hs Hd Hsd. destruct (deregister_ok s h l Hs) as (l1 & E1 & R1 & N1 & P1 & I1 & K1).
  destruct (deregister_ok d h l1) as (l2 & E2 & R2 & N2 & P2 & I2 & K2); [by rewrite R1, lookup_delete_ne|].
  exists l2. split_and!; [congruence..|by eapply kept_trans|]. intros A K. lpf_check E1. by lpf_check E2.
Qed.

Lemma run_gather_calls w f vals maxSize css rest b c h l m :
  arrays w css vals b c h -> available l -> pending l = [] -> incoming l = encode w (concat css) :: rest ->
  css !! Z.to_nat (self l) = Some vals ->
  exists l', run (gather_calls w f (Z.of_nat (length vals)) (Z.of_nat (length (concat css))) (sizes_of w css) maxSize (Ptr b 0) (Ptr c 0)) (after h l m) =
    Done (concat css) (after (<[c := encode w (concat css)]> h) l' m) /\ gathers 1 l l'.
Proof.
  intros Har Ha Hp Hin Hmine. pose proof Har as [_ _ Hbc Hsz Hall]. pose proof (length_own _ _ _ Hmine) as Hle. set (N := length (concat css)) in *.
  assert (Z.of_nat (length vals) * Z.of_nat w <= Z.of_nat (w * N)) by nia.
  unfold gather_calls. rewrite (wrap64_small (Z.of_nat (length vals) * _)), (wrap64_small (Z.of_nat N * _)) by size_lia.
  destruct (run_register_pair (Ptr b 0) (Z.of_nat (length vals) * Z.of_nat w) (Ptr c 0) (Z.of_nat N * Z.of_nat w) h l m Ha Hp)
    as (s & d & l3 & F1 & F2 & Hsd & R3 & N3 & P3 & I3 & K3 & E3); [lia..|]. rewrite E3. clear E3.
  destruct (init_ok (_rank f) (_size f) 1 0 maxSize h l3) as (coll & l4 & E4 & R4 & N4 & P4 & I4 & K4). lpf_value E4.
  rewrite R3 in R4. pose proof (kept_trans _ _ _ K3 K4) as K.
  destruct (gather_step coll s d w css vals b c rest h l4 Har) as (l5 & l6 & E5 & E6 & [R6 N6 P6 I6 K6]).
  { rewrite R4. by rewrite lookup_insert_ne, lookup_insert_eq by done. }
  { rewrite R4. by rewrite lookup_insert_eq. }
  { congruence. }
  { congruence. }
  { by rewrite (kept_self _ _ K). }
  lpf_check E5. lpf_check E6. set (h' := <[c := encode w (concat css)]> h) in *.
  destruct (destroy_ok coll h' l6) as (l7 & E7 & R7 & N7 & P7 & I7 & K7). lpf_check E7. rewrite R6, R4 in R7.
  destruct (run_deregister_pair s d h' l7 m) as (l9 & R9 & N9 & P9 & I9 & K9 & E9);
    [rewrite R7, lookup_insert_ne, lookup_insert_eq by done; by eexists|rewrite R7, lookup_insert_eq; by eexists|done|].
  rewrite E9. exists l9. split; [apply run_read_array; [apply lookup_insert_eq|done|done]|].
  split; [|congruence|congruence|rewrite I9, I7, I6; congruence|].
  - rewrite R9, R7. by apply deregistered.
  - eapply kept_trans; [exact K|]. eapply kept_trans; [exact K6|]. by eapply kept_trans.
Qed.

(** What is gathered does not depend on where the arrays are. *)
Lemma run_gather_array w f vals total bytes maxSize css rest m :
  available (lib m) -> pending (lib m) = [] -> incoming (lib m) = encode w (concat css) :: rest ->
  css !! Z.to_nat (self (lib m)) = Some vals -> bytes = sizes_of w css -> total = Z.of_nat (length (concat css)) ->
  Z.of_nat (w * length (concat css)) < SIZE_BOUND -> Forall (fun z => 0 <= z < 256 ^ Z.of_nat w) (concat css) ->
  exists l, run (gather_array w f vals total bytes maxSize) m = Done (concat css) (after (heap m) l m) /\ gathers 1 (lib m) l.
Proof.
  intros Ha Hp Hin Hmine -> -> Hsz Hall. apply run_two_arrays. intros b c Hbc.
  destruct (run_gather_calls w f vals maxSize css rest b c (<[c := zeros w (Z.of_nat (length (concat css)))]> (<[b := encode w vals]> (heap m))) (lib m) m) as (l & E & Hg);
    [|done..|by eexists _, l].
  split; [by rewrite lookup_insert_ne, lookup_insert_eq|eexists; split; [apply lookup_insert_eq|]|done..].
  unfold zeros. by rewrite length_replicate, Nat2Z.id.
Qed.

(** *** The counts *)

(** [exchange_counts] and [destroy_counts]; the second synchronizes [first]. *)
Definition count_calls (first : prog (Machine (t L)) unit) (f : manager) (src dst : ptr) : prog (Machine (t L)) (list Z) :=
  s ← CHECK_value (lpf_register_global src SIZEOF_SIZE_T);
  d ← CHECK_value (lpf_register_global dst (SIZEOF_SIZE_T *w _size f));
  _ ← first;
  coll ← CHECK_value (lpf_collectives_init (_rank f) (_size f) 1 0 (SIZEOF_SIZE_T *w _size f));
  _ ← CHECK (lpf_allgather coll s d SIZEOF_SIZE_T false);
  _ ← CHECK lpf_sync;
  _ ← CHECK (lpf_collectives_destroy coll);
  _ ← CHECK (lpf_deregister s);
  _ ← CHECK (lpf_deregister d);
  read_array 8 dst (_size f).

Definition count_array (first : prog (Machine (t L)) unit) (f : manager) (n : Z) : prog (Machine (t L)) (list Z) :=
  with_array (encode 8 [n]) (fun src => with_array (zeros 8 (_size f)) (count_calls first f src)).

(** [first] does nothing that can be noticed. *)
Definition harmless (first : prog (Machine (t L)) unit) : Prop :=
  forall h l m, pending l = [] -> exists l', run first (after h l m) = Done tt (after h l' m) /\ gathers 0 l l'.

Lemma harmless_ret : harmless (mret tt).
Proof. intros h l m Hp. exists l. split; [done|]. split; try done. Qed.

Lemma harmless_sync : harmless (CHECK lpf_sync).
Proof.
  intros h l m Hp. destruct (sync_ok h l Hp) as (l' & E & ? & ? & ? & ? & ?). exists l'.
  split; [|by split]. rewrite (run_CHECK _ (after h l m) h l' E). by rewrite after_twice.
Qed.

Lemma own_count counts r n : counts !! r = Some n -> take 8 (drop (8 * r) (encode 8 counts)) = encode 8 [n].
Proof.
  intros Hr. rewrite <- (take_drop_middle _ _ _ Hr), encode_app. pose proof (lookup_lt_Some _ _ _ Hr).
  rewrite drop_app_length' by (rewrite length_encode, length_take; lia). cbn [encode map concat].
  by rewrite take_app_length' by (by rewrite length_le_bytes).
Qed.

Lemma run_count_calls first f n counts rest b c h l m :
  harmless first -> h !! b = Some (encode 8 [n]) -> h !! c = Some (zeros 8 (_size f)) -> b <> c ->
  available l -> pending l = [] -> incoming l = encode 8 counts :: rest -> counts !! Z.to_nat (self l) = Some n ->
  0 <= self l -> Z.of_nat (length counts) = procs l -> _size f = procs l -> 8 * procs l < SIZE_BOUND -> Forall is_size counts ->
  exists l', run (count_calls first f (Ptr b 0) (Ptr c 0)) (after h l m) = Done counts (after (<[c := encode 8 counts]> h) l' m) /\ gathers 1 l l'.
Proof.
  intros Hfirst Hb Hc Hbc Ha Hp Hin Hmine Hself Hlen Hsize Hsz Hall. unfold count_calls. rewrite Hsize in *.
  rewrite (wrap64_small (SIZEOF_SIZE_T * procs l)) by size_lia. change SIZEOF_SIZE_T with 8. assert (Hrng : 0 <= 8 * procs l) by lia.
  destruct (register_global_ok (Ptr b 0) 8 h l Ha ltac:(lia)) as (s & l1 & E1 & F1 & _ & R1 & N1 & P1 & I1 & K1).
  lpf_value E1. destruct (register_global_ok (Ptr c 0) (8 * procs l) h l1 (kept_available _ _ K1 Ha) Hrng) as (d & l2 & E2 & F2 & _ & R2 & N2 & P2 & I2 & K2).
  lpf_value E2. destruct (Hfirst h l2 m) as (l3 & E3 & [R3 N3 P3 I3 K3]); [congruence|]. rewrite (run_bind_Done _ _ _ _ _ E3). cbn beta.
  destruct (init_ok (_rank f) (procs l) 1 0 (8 * procs l) h l3) as (coll & l4 & E4 & R4 & N4 & P4 & I4 & K4). lpf_value E4.
  rewrite R1 in F2. assert (Hsd : s <> d) by (intros ->; by rewrite lookup_insert_eq in F2).
  assert (R : reg l4 = <[d := (Ptr c 0, 8 * procs l)]> (<[s := (Ptr b 0, 8)]> (reg l))) by congruence.
  pose proof (kept_trans _ _ _ (kept_trans _ _ _ (kept_trans _ _ _ K1 K2) K3) K4) as K. pose proof K as (S4 & Q4 & _).
  destruct (allgather_ok coll s d 8 (Ptr b 0) (Ptr c 0) (encode 8 counts) rest h l4) as (l5 & E5 & R5 & N5 & P5 & I5 & K5).
  { rewrite R. by rewrite lookup_insert_ne, lookup_insert_eq by done. }
  { rewrite R, Q4. by rewrite lookup_insert_eq. }
  { rewrite I4, I3. rewrite drop_0. congruence. }
  { rewrite length_encode, Q4. lia. }
  { rewrite S4. replace (Z.to_nat (8 * self l)) with (8 * Z.to_nat (self l))%nat by lia. change (Z.to_nat 8) with 8%nat.
    rewrite (own_count _ _ n) by done. by apply mem_load_block. }
  { congruence. }
  lpf_check E5. set (h' := <[c := encode 8 counts]> h).
  destruct (sync_gather_ok d (Ptr c 0) (8 * procs l) (encode 8 counts) rest h h' l5) as (l6 & E6 & R6 & N6 & P6 & I6 & K6).
  { done. }
  { rewrite R5, R. by rewrite lookup_insert_eq. }
  { rewrite I5, I4, I3. rewrite drop_0. congruence. }
  { rewrite length_encode. lia. }
  { eapply mem_store_block; [done|]. unfold zeros. rewrite length_encode, length_replicate. lia. }
  lpf_check E6. destruct (destroy_ok coll h' l6) as (l7 & E7 & R7 & N7 & P7 & I7 & K7). lpf_check E7.
  destruct (deregister_ok s h' l7) as (l8 & E8 & R8 & N8 & P8 & I8 & K8).
  { rewrite R7, R6, R5, R. rewrite lookup_insert_ne, lookup_insert_eq by done. by eexists. }
  lpf_check E8. destruct (deregister_ok d h' l8) as (l9 & E9 & R9 & N9 & P9 & I9 & K9).
  { rewrite R8, R7, R6, R5, R. rewrite lookup_delete_ne, lookup_insert_eq by done. by eexists. }
  lpf_check E9. exists l9. split; [apply run_read_array; [apply lookup_insert_eq|done|done]|].
  split; [|congruence|congruence|rewrite I9, I8, I7, I6, Hin; done|].
  - rewrite R9, R8, R7, R6, R5, R. by apply deregistered.
  - eapply kept_trans; [exact K|]. eapply kept_trans; [exact K5|]. eapply kept_trans; [exact K6|].
    eapply kept_trans; [exact K7|]. by eapply kept_trans.
Qed.

Lemma run_count_array first f n counts rest m :
  harmless first -> available (lib m) -> pending (lib m) = [] -> incoming (lib m) = encode 8 counts :: rest ->
  counts !! Z.to_nat (self (lib m)) = Some n -> 0 <= self (lib m) -> Z.of_nat (length counts) = procs (lib m) -> _size f = procs (lib m) ->
  8 * procs (lib m) < SIZE_BOUND -> Forall is_size counts ->
  exists l, run (count_array first f n) m = Done counts (after (heap m) l m) /\ gathers 1 (lib m) l.
Proof.
  intros. apply run_two_arrays. intros b c Hbc.
  destruct (run_count_calls first f n counts rest b c (<[c := zeros 8 (_size f)]> (<[b := encode 8 [n]]> (heap m))) (lib m) m) as (l & E & Hg);
    [done|by rewrite lookup_insert_ne, lookup_insert_eq|apply lookup_insert_eq|done..|by eexists _, l].
Qed.

End Gathering.
