(* ===== verification/LpfExchange.v ===== *)
(** * The LPF backend: the exchange of slots

    [lpf_exchange_spec]: the slots that the processes of a group contribute become
    global slots of the manager.  The numbers of slots, their sizes, owners and keys
    are gathered through arrays that are registered for the time of the operation;
    then every entry gets two slots of the library, for its memory and for its lock. *)

From S2P Require Import Prelude Memory CommunicationManager Mpi Lpf LpfSpec.
From Stdlib Require Import ZArith Lia.
From Stdlib.Strings Require Import Byte.
From stdpp Require Import base gmap option list sorting.

Local Open Scope Z_scope.
Local Open Scope hicr_scope.

Section Exchange.
Context {L : Type} {M : LPF L} {Sp : LpfSpec L}.
Implicit Types (m : Machine (Lpf.t L)) (l : L).
Import Lpf LpfCommunicationManager.

Abbreviation lib m := (Lpf.library (backend m)) (only parsing).

(** ** Sizes and owners *)

(** The elements of each process, replaced by the rank of the process. *)
Definition owners {A : Type} (css : list (list A)) : list (list Z) := imap (fun r c => map (fun _ => Z.of_nat r) c) css.

Lemma lookup_owners {A : Type} (css : list (list A)) r c : css !! r = Some c -> owners css !! r = Some (map (fun _ => Z.of_nat r) c).
Proof. intros H. unfold owners. by rewrite list_lookup_imap, H. Qed.

Lemma lengths_owners {A : Type} (css : list (list A)) : map length (owners css) = map length css.
Proof.
  apply list_eq. intros r. unfold owners. rewrite !list_lookup_fmap, list_lookup_imap. destruct (css !! r); [|done].
  cbn. by rewrite length_map.
Qed.

Lemma length_concat_owners {A : Type} (css : list (list A)) : length (concat (owners css)) = length (concat css).
Proof. by rewrite !length_concat, lengths_owners. Qed.

Lemma sizes_of_owners {A : Type} w (css : list (list A)) : sizes_of w (owners css) = map (fun c => Z.of_nat (w * length c)) css.
Proof.
  unfold sizes_of. rewrite <- (map_map length (fun n => Z.of_nat (w * n)) (owners css)), lengths_owners. by rewrite map_map.
Qed.

Lemma owners_bound {A : Type} (css : list (list A)) n : Z.of_nat (length css) <= n -> Forall (fun z => 0 <= z < n) (concat (owners css)).
Proof.
  intros Hn. apply Forall_concat, Forall_lookup_2. intros r c Hr. unfold owners in Hr. rewrite list_lookup_imap in Hr.
  destruct (css !! r) as [x|] eqn:E; simplify_eq/=. apply lookup_lt_Some in E. apply Forall_map, Forall_true. intros _. lia.
Qed.

(** The total, when it is small. *)
Definition counts_of {A : Type} (css : list (list A)) : list Z := map (fun c => Z.of_nat (length c)) css.

Lemma total_count_from {A : Type} (css : list (list A)) k :
  0 <= k -> k + Z.of_nat (length (concat css)) < SIZE_BOUND ->
  foldl (fun total count => total +w count) k (counts_of css) = k + Z.of_nat (length (concat css)).
Proof.
  revert k. induction css as [|c css IH]; intros k Hk Hb; cbn in *; [lia|]. rewrite length_app in *.
  rewrite wrap64_small by size_lia. fold (counts_of css). rewrite IH by lia. lia.
Qed.

Lemma total_count_small {A : Type} (css : list (list A)) :
  Z.of_nat (length (concat css)) < SIZE_BOUND -> total_count (counts_of css) = Z.of_nat (length (concat css)).
Proof. intros H. unfold total_count. rewrite total_count_from by lia. lia. Qed.

Lemma counts_in_bytes_small {A : Type} w (css : list (list A)) :
  Z.of_nat (w * length (concat css)) < SIZE_BOUND -> counts_in_bytes (Z.of_nat w) (counts_of css) = map (fun c => Z.of_nat (w * length c)) css.
Proof.
  intros H. unfold counts_in_bytes, counts_of. rewrite map_map. induction css as [|c css IH]; [done|]. cbn in *. rewrite length_app in H.
  rewrite wrap64_small by (unfold is_size; nia). f_equal; [lia|]. apply IH. lia.
Qed.

Definition sizes_and_ids_calls (f : manager) (n total : Z) (bytes bytes' : list Z) (p p' q q' : ptr) : prog (Machine (t L)) (list Z * list Z) :=
  s ← CHECK_value (lpf_register_local p (n *w SIZEOF_SIZE_T));
  d ← CHECK_value (lpf_register_global q (total *w SIZEOF_SIZE_T));
  _ ← CHECK lpf_sync;
  coll ← CHECK_value (lpf_collectives_init (_rank f) (_size f) 2 0 (SIZEOF_SIZE_T *w total));
  _ ← CHECK (lpf_allgatherv coll s d bytes false);
  _ ← CHECK lpf_sync;
  s' ← CHECK_value (lpf_register_local p' (n *w Z.of_nat SIZEOF_PID));
  d' ← CHECK_value (lpf_register_global q' (total *w Z.of_nat SIZEOF_PID));
  _ ← CHECK lpf_sync;
  _ ← CHECK (lpf_allgatherv coll s' d' bytes' false);
  _ ← CHECK lpf_sync;
  _ ← CHECK (lpf_collectives_destroy coll);
  _ ← CHECK (lpf_deregister s);
  _ ← CHECK (lpf_deregister d);
  _ ← CHECK (lpf_deregister s');
  _ ← CHECK (lpf_deregister d');
  sizes ← read_array 8 q total;
  ids ← read_array SIZEOF_PID q' total;
  mret (sizes, ids).

Lemma deregistered_all (R : gmap Z (ptr * Z)) s d s' d' x y x' y' :
  R !! s = None -> <[s := x]> R !! d = None -> <[d := y]> (<[s := x]> R) !! s' = None -> <[s' := x']> (<[d := y]> (<[s := x]> R)) !! d' = None ->
  delete d' (delete s' (delete d (delete s (<[d' := y']> (<[s' := x']> (<[d := y]> (<[s := x]> R))))))) = R.
Proof.
  intros Hs Hd Hs' Hd'. assert (s <> d) by (intros ->; by rewrite lookup_insert_eq in Hd).
  apply lookup_insert_None in Hs' as [Hs' ?]. apply lookup_insert_None in Hs' as [Hs' ?].
  apply lookup_insert_None in Hd' as [Hd' ?]. apply lookup_insert_None in Hd' as [Hd' ?]. apply lookup_insert_None in Hd' as [Hd' ?].
  rewrite (delete_insert_ne _ s d'), (delete_insert_ne _ s s'), (delete_insert_ne _ d d'), (delete_insert_ne _ d s') by done.
  rewrite (deregistered R s d) by done.
  apply deregistered; [done|]. by rewrite lookup_insert_ne.
Qed.

(** Two steps in one: the sizes [sss] and the owners [iss]. *)
Lemma run_sizes_and_ids_calls f sss iss sizes ids rest b b' c c' h l m :
  arrays 8 sss sizes b c h -> arrays SIZEOF_PID iss ids b' c' h -> b' <> c -> c <> c' -> length (concat iss) = length (concat sss) ->
  length ids = length sizes -> available l -> pending l = [] ->
  incoming l = encode 8 (concat sss) :: encode SIZEOF_PID (concat iss) :: rest ->
  sss !! Z.to_nat (self l) = Some sizes -> iss !! Z.to_nat (self l) = Some ids ->
  exists l', run (sizes_and_ids_calls f (Z.of_nat (length sizes)) (Z.of_nat (length (concat sss))) (sizes_of 8 sss) (sizes_of SIZEOF_PID iss)
      (Ptr b 0) (Ptr b' 0) (Ptr c 0) (Ptr c' 0)) (after h l m) =
    Done (concat sss, concat iss) (after (<[c' := encode SIZEOF_PID (concat iss)]> (<[c := encode 8 (concat sss)]> h)) l' m) /\ gathers 2 l l'.
Proof.
  intros A1 A2 Hbc Hcc HN Hn Ha Hp Hin Hs Hi. pose proof A1 as [_ _ _ Z1 V1]. pose proof A2 as [Hb' Hc' Hbc' Z2 V2].
  pose proof (length_own _ _ _ Hs) as Hle. set (N := length (concat sss)) in *. rewrite HN in Z2.
  assert (Z.of_nat (length sizes) * Z.of_nat SIZEOF_PID <= Z.of_nat (SIZEOF_PID * N)) by nia.
  unfold sizes_and_ids_calls. change SIZEOF_SIZE_T with (Z.of_nat 8).
  rewrite (wrap64_small (Z.of_nat (length sizes) * Z.of_nat 8)), (wrap64_small (Z.of_nat N * Z.of_nat 8)) by size_lia.
  rewrite (wrap64_small (Z.of_nat (length sizes) * _)), (wrap64_small (Z.of_nat N * Z.of_nat SIZEOF_PID)) by size_lia.
  destruct (run_register_pair (Ptr b 0) (Z.of_nat (length sizes) * Z.of_nat 8) (Ptr c 0) (Z.of_nat N * Z.of_nat 8) h l m Ha Hp)
    as (s & d & l1 & F1 & F2 & Hsd & R1 & N1 & P1 & I1 & K1 & E1); [lia..|]. rewrite E1. clear E1.
  destruct (init_ok (_rank f) (_size f) 2 0 (Z.of_nat 8 *w Z.of_nat N) h l1) as (coll & l2 & E2 & R2 & N2 & P2 & I2 & K2). lpf_value E2.
  pose proof (kept_trans _ _ _ K1 K2) as K. rewrite R1 in R2.
  destruct (gather_step coll s d 8 sss sizes b c (encode SIZEOF_PID (concat iss) :: rest) h l2 A1) as (l3 & l4 & E3 & E4 & [R4 N4 P4 I4 K4]);
    [by rewrite R2, lookup_insert_ne, lookup_insert_eq by done|by rewrite R2, lookup_insert_eq|congruence|congruence|by rewrite (kept_self _ _ K)|].
  lpf_check E3. lpf_check E4. clear E3 E4. set (h1 := <[c := encode 8 (concat sss)]> h) in *. pose proof (kept_trans _ _ _ K K4) as K'.
  destruct (run_register_pair (Ptr b' 0) (Z.of_nat (length sizes) * Z.of_nat SIZEOF_PID) (Ptr c' 0) (Z.of_nat N * Z.of_nat SIZEOF_PID) h1 l4 m (kept_available _ _ K' Ha) P4)
    as (s' & d' & l5 & F5 & F6 & Hsd' & R5 & N5 & P5 & I5 & K5 & E5); [lia..|]. rewrite E5. clear E5. pose proof (kept_trans _ _ _ K' K5) as K''.
  rewrite R4, R2 in R5, F5, F6.
  destruct (gather_step coll s' d' SIZEOF_PID iss ids b' c' rest h1 l5) as (l6 & l7 & E6 & E7 & [R7 N7 P7 I7 K7]).
  { split; [by unfold h1; rewrite lookup_insert_ne|by unfold h1; rewrite lookup_insert_ne|done|by rewrite HN|done]. }
  { rewrite R5, lookup_insert_ne, lookup_insert_eq by done. by rewrite Hn. }
  { rewrite R5, lookup_insert_eq. by rewrite HN. }
  { done. }
  { rewrite I5, I4, I2, I1, Hin. done. }
  { by rewrite (kept_self _ _ K''). }
  lpf_check E6. lpf_check E7. clear E6 E7. set (h2 := <[c' := _]> h1) in *.
  destruct (destroy_ok coll h2 l7) as (l8 & E8 & R8 & N8 & P8 & I8 & K8). lpf_check E8. clear E8. rewrite R7, R5 in R8.
  assert (D : s' <> s /\ s' <> d /\ d' <> s /\ d' <> d).
  { apply lookup_insert_None in F5 as [F5 ?]. apply lookup_insert_None in F5 as [? ?].
    apply lookup_insert_None in F6 as [F6 ?]. apply lookup_insert_None in F6 as [F6 ?]. apply lookup_insert_None in F6 as [? ?]. by split_and!. }
  destruct D as (? & ? & ? & ?).
  destruct (run_deregister_pair s d h2 l8 m) as (l9 & R9 & N9 & P9 & I9 & K9 & E9);
    [rewrite R8, 3!lookup_insert_ne, lookup_insert_eq by done; by eexists|rewrite R8, 2!lookup_insert_ne, lookup_insert_eq by done; by eexists|done|].
  rewrite E9. clear E9.
  destruct (run_deregister_pair s' d' h2 l9 m) as (l10 & R10 & N10 & P10 & I10 & K10 & E10).
  { rewrite R9, R8, 2!lookup_delete_ne, lookup_insert_ne, lookup_insert_eq by done. by eexists. }
  { rewrite R9, R8, 2!lookup_delete_ne, lookup_insert_eq by done. by eexists. }
  { done. }
  rewrite E10. clear E10. exists l10. split.
  - erewrite run_bind_Done by (apply run_read_array; [unfold h2, h1; by rewrite lookup_insert_ne, lookup_insert_eq|done|done]).
    erewrite run_bind_Done by (apply run_read_array; [unfold h2; by rewrite lookup_insert_eq|by rewrite HN|done]). done.
  - split; [rewrite R10, R9, R8; by apply deregistered_all|congruence|congruence|rewrite I10, I9, I8, I7, I5, I4, I2, I1, Hin; done|].
    eapply kept_trans; [exact K''|]. eapply kept_trans; [exact K7|]. eapply kept_trans; [exact K8|]. by eapply kept_trans.
Qed.

Lemma run_gather_sizes_and_ids f sizes sss rest m :
  available (lib m) -> pending (lib m) = [] -> incoming (lib m) = encode 8 (concat sss) :: encode SIZEOF_PID (concat (owners sss)) :: rest ->
  sss !! Z.to_nat (self (lib m)) = Some sizes -> _rank f = self (lib m) -> 0 <= self (lib m) ->
  Z.of_nat (8 * length (concat sss)) < SIZE_BOUND -> Z.of_nat (SIZEOF_PID * length (concat sss)) < SIZE_BOUND ->
  Forall is_size (concat sss) -> Z.of_nat (length sss) <= 256 ^ Z.of_nat SIZEOF_PID ->
  exists l, run (gather_sizes_and_ids f sizes (counts_of sss)) m = Done (concat sss, concat (owners sss)) (after (heap m) l m) /\ gathers 2 (lib m) l.
Proof.
  intros Ha Hp Hin Hmine Hrank Hself Z1 Z2 V1 V2. unfold gather_sizes_and_ids.
  rewrite total_count_small by lia. change SIZEOF_SIZE_T with (Z.of_nat 8). rewrite !counts_in_bytes_small by done.
  rewrite <- (sizes_of_owners SIZEOF_PID). fold (sizes_of 8 sss). set (N := length (concat sss)) in *. set (h0 := heap m).
  pose proof (lookup_owners _ _ _ Hmine) as Hi. rewrite Z2Nat.id in Hi by done. rewrite <- Hrank in Hi. set (ids := map _ sizes) in *.
  set (r := (concat sss, concat (owners sss))). set (e := encode 8 (concat sss)).
  match goal with |- exists l, run ?p m = _ /\ _ =>
    assert (X : exists a h l, run p (after h0 (lib m) m) = Done a (after h l m) /\ (a = r /\ h = h0 /\ gathers 2 (lib m) l)) end;
    [|unfold h0 in X; rewrite after_same in X; destruct X as (a & h & l & E & -> & -> & HQ); by exists l].
  apply (run_with_array _ _ _ _ _ (fun a h l => a = r /\ h = h0 /\ gathers 2 (lib m) l)). intros b Hb. set (h1 := <[b := _]> h0) in *.
  apply (run_with_array _ _ _ _ _ (fun a h l => a = r /\ delete b h = h0 /\ gathers 2 (lib m) l)). intros b' Hb'. set (h2 := <[b' := _]> h1) in *.
  apply (run_with_array _ _ _ _ _ (fun a h l => a = r /\ delete b (delete b' h) = h0 /\ gathers 2 (lib m) l)). intros c Hc. set (h3 := <[c := _]> h2) in *.
  apply (run_with_array _ _ _ _ _ (fun a h l => a = r /\ delete b (delete b' (delete c h)) = h0 /\ gathers 2 (lib m) l)). intros c' Hc'. set (h4 := <[c' := _]> h3) in *.
  assert (D : b <> b' /\ b <> c /\ b' <> c /\ b <> c' /\ b' <> c' /\ c <> c').
  { unfold h3, h2, h1 in *. apply lookup_insert_None in Hb' as [? ?]. apply lookup_insert_None in Hc as [Hc ?]. apply lookup_insert_None in Hc as [? ?].
    apply lookup_insert_None in Hc' as [Hc' ?]. apply lookup_insert_None in Hc' as [Hc' ?]. apply lookup_insert_None in Hc' as [? ?]. by split_and!. }
  destruct D as (? & ? & ? & ? & ? & ?).
  destruct (run_sizes_and_ids_calls f sss (owners sss) sizes ids rest b b' c c' h4 (lib m) m) as (l & E & Hg).
  { split; [unfold h4, h3, h2, h1; by rewrite 3!lookup_insert_ne, lookup_insert_eq by done|unfold h4, h3|done..].
    rewrite lookup_insert_ne, lookup_insert_eq by done. eexists. split; [done|]. unfold zeros. by rewrite length_replicate, Nat2Z.id. }
  { split; [unfold h4, h3, h2; by rewrite 2!lookup_insert_ne, lookup_insert_eq by done|unfold h4|done| |by apply owners_bound].
    - rewrite lookup_insert_eq. eexists. split; [done|]. unfold zeros. by rewrite length_replicate, Nat2Z.id, length_concat_owners.
    - by rewrite length_concat_owners. }
  all: try done.
  { apply length_concat_owners. }
  { unfold ids. apply length_map. }
  { by rewrite <- Hrank. }
  eexists _, _, l. split; [exact E|]. split_and!; [done| |done]. fold e. unfold h4, h3, h2, h1.
  rewrite (insert_insert_ne _ c), insert_insert_eq, insert_insert_eq by done.
  rewrite delete_insert_id by (unfold h3, h2, h1 in Hc'; rewrite lookup_insert_ne in Hc' |- * by done; done). rewrite delete_insert_id by done. rewrite delete_insert_id by done. by rewrite delete_insert_id.
Qed.

(** ** The slots *)

(** An entry (owner, key and size) is that of a local slot of this process, which
    the backend has made, or it is remote. *)
Definition entry_ok (rank : Z) (e : Z * Z * Z) (src : option nat) m : Prop :=
  is_size e.2 /\
  match src with
  | None => e.1.1 <> rank
  | Some l => e.1.1 = rank /\ (exists p, slot_at m l p e.2) /\ is_Some (lpf_locals (backend m) !! l)
  end.

(** The global slot of an entry: it has two slots of the library; for an entry of
    this process they are the memory and the swap value of the local slot, which
    knows the first of them. *)
Definition slot_made (tag : Z) (e : Z * Z * Z) (src : option nat) (g : nat) m : Prop :=
  exists s w, lpf_globals (backend m) !! g = Some (LpfGlobalSlot.mk e.1.1 s w) /\
    s <> LPF_INVALID_MEMSLOT /\ w <> LPF_INVALID_MEMSLOT /\ s <> w /\
    globals m !! g = Some (GlobalMemorySlot.mk tag e.1.2 src) /\
    match src with
    | None => reg (lib m) !! s = Some (nullptr, 0) /\ reg (lib m) !! w = Some (nullptr, 0)
    | Some l => exists p x, slot_at m l p e.2 /\ lpf_locals (backend m) !! l = Some x /\ LpfLocalSlot._lpfMemSlot x = s /\
        reg (lib m) !! s = Some (p, e.2) /\ reg (lib m) !! w = Some (LpfLocalSlot._swapValue x, 8)
    end.

(** What is the same after slots under the keys [keys], for the local slots [sources], have been made. *)
Record grown (this : nat) (tag : Z) (keys : list Z) (sources : list nat) m m' : Prop := mkGrown {
  gr_heap : heap m' = heap m;
  gr_locals : locals m' = locals m;
  gr_globals : forall g x, globals m !! g = Some x -> globals m' !! g = Some x;
  gr_lpf_globals : forall g x, is_Some (globals m !! g) -> lpf_globals (backend m) !! g = Some x -> lpf_globals (backend m') !! g = Some x;
  gr_lpf_locals : forall i, i ∉ sources -> lpf_locals (backend m') !! i = lpf_locals (backend m) !! i;
  gr_kind : forall i, is_Some (lpf_locals (backend m) !! i) -> is_Some (lpf_locals (backend m') !! i);
  gr_managers : lpf_managers (backend m') = lpf_managers (backend m);
  gr_this : is_Some (managers m' !! this);
  gr_registered : forall tag' key, tag' <> tag \/ key ∉ keys -> registered_slot this tag' key m' = registered_slot this tag' key m;
  gr_reg : reg (lib m) ⊆ reg (lib m');
  gr_size : size (reg (lib m')) = (size (reg (lib m)) + 2 * length keys)%nat;
  gr_noc : noc (lib m') = noc (lib m);
  gr_pending : pending (lib m') = [];
  gr_incoming : incoming (lib m') = incoming (lib m);
  gr_kept : kept (lib m) (lib m');
  gr_others : forall j, j <> this -> managers m' !! j = managers m !! j
}.

Lemma grown_refl this tag m : is_Some (managers m !! this) -> pending (lib m) = [] -> grown this tag [] [] m m.
Proof. intros. split; try done; cbn; lia. Qed.

Lemma grown_trans this tag ks ks' srcs srcs' m1 m2 m3 :
  grown this tag ks srcs m1 m2 -> grown this tag ks' srcs' m2 m3 -> grown this tag (ks ++ ks') (srcs ++ srcs') m1 m3.
Proof.
  intros [H1 L1 G1 X1 O1 Q1 F1 T1 R1 S1 Z1 N1 P1 I1 K1 M1] [H2 L2 G2 X2 O2 Q2 F2 T2 R2 S2 Z2 N2 P2 I2 K2 M2]. split; try congruence; auto.
  - intros g x [y Hy] Hx. eapply X2; [exists y; by apply G1|]. by apply X1; [eexists|].
  - intros l Hl. rewrite O2, O1; [done|set_solver..].
  - intros tag' key Hk. rewrite R2, R1; [done|set_solver..].
  - by transitivity (reg (lib m2)).
  - rewrite Z2, Z1, length_app. lia.
  - by eapply kept_trans.
  - intros j Hj. by rewrite M2, M1.
Qed.

(** Two slots of the library for one entry. *)
Lemma run_register_two p n q k h l m :
  available l -> pending l = [] -> 0 <= n -> 0 <= k ->
  exists s w l', s <> LPF_INVALID_MEMSLOT /\ w <> LPF_INVALID_MEMSLOT /\ s <> w /\ reg l !! s = None /\ reg l !! w = None /\
    reg l' = <[w := (q, k)]> (<[s := (p, n)]> (reg l)) /\ noc l' = noc l /\ pending l' = [] /\ incoming l' = incoming l /\ kept l l' /\
    forall A (K : Z -> Z -> prog (Machine (t L)) A),
      run (s ← CHECK_value (lpf_register_global p n); w ← CHECK_value (lpf_register_global q k); _ ← CHECK lpf_sync; K s w) (after h l m) =
      run (K s w) (after h l' m).
Proof.
  intros Ha Hp Hn Hk. destruct (register_global_ok p n h l Ha Hn) as (s & l1 & E1 & F1 & V1 & R1 & N1 & P1 & I1 & K1).
  destruct (register_global_ok q k h l1 (kept_available _ _ K1 Ha) Hk) as (w & l2 & E2 & F2 & V2 & R2 & N2 & P2 & I2 & K2).
  destruct (sync_ok h l2) as (l3 & E3 & R3 & N3 & P3 & I3 & K3); [congruence|]. rewrite R1 in F2.
  apply lookup_insert_None in F2 as [F2 ?].
  exists s, w, l3. split_and!; try done; try congruence.
  - eapply kept_trans; [exact K1|]. by eapply kept_trans.
  - intros A K. lpf_value E1. lpf_value E2. by lpf_check E3.
Qed.

(** The end of [create_slot]: the global slot is made and registered. *)
Lemma run_new_slot this tag rank s w key src c m :
  managers m !! this = Some c ->
  exists g m', run (memorySlot ← new_global_slot rank s w tag key src; CommunicationManager.registerGlobalMemorySlot this memorySlot) m = Done tt m' /\
    globals m !! g = None /\ globals m' = <[g := GlobalMemorySlot.mk tag key src]> (globals m) /\
    lpf_globals (backend m') = <[g := LpfGlobalSlot.mk rank s w]> (lpf_globals (backend m)) /\ registered_slot this tag key m' = Some g /\
    (forall tag' key', (tag', key') <> (tag, key) -> registered_slot this tag' key' m' = registered_slot this tag' key' m) /\
    heap m' = heap m /\ locals m' = locals m /\ is_Some (managers m' !! this) /\ lpf_locals (backend m') = lpf_locals (backend m) /\
    lpf_managers (backend m') = lpf_managers (backend m) /\ lib m' = lib m /\ (forall j, j <> this -> managers m' !! j = managers m !! j).
Proof.
  intros Hc. set (g := fresh (dom (globals m))). assert (Hg : globals m !! g = None) by (apply not_elem_of_dom, is_fresh).
  set (m1 := set_backend (Lpf.set_globals (<[g := LpfGlobalSlot.mk rank s w]> (lpf_globals (backend m))) (backend m))
               (Memory.set_globals (<[g := GlobalMemorySlot.mk tag key src]> (globals m)) m)).
  destruct (run_register_slot this g tag key src c m1 Hc) as (c' & E & R & R'); [apply lookup_insert_eq|].
  assert (Hn : run (new_global_slot rank s w tag key src) m = Done g m1) by done.
  exists g. eexists. split; [rewrite (run_bind_Done _ _ _ _ _ Hn); exact E|].
  split_and!; try done; cbn; [rewrite lookup_insert_eq; by eexists|]. intros j Hj. by rewrite lookup_insert_ne.
Qed.

(** After the pointers of an entry are known; [u] stores the new slot in the local slot. *)
Lemma run_create_rest this tag (u : Z -> prog (Machine (t L)) unit) lo p n q k owner key src m :
  (forall s h l, run (u s) (after h l m) = Done tt (set_backend (set_locals (lo s) (backend (after h l m))) (after h l m))) ->
  available (lib m) -> pending (lib m) = [] -> is_Some (managers m !! this) -> 0 <= n -> 0 <= k ->
  exists s w g m',
    run (newSlot ← CHECK_value (lpf_register_global p n);
         swapValueSlot ← CHECK_value (lpf_register_global q k);
         _ ← CHECK lpf_sync;
         _ ← u newSlot;
         memorySlot ← new_global_slot owner newSlot swapValueSlot tag key src;
         CommunicationManager.registerGlobalMemorySlot this memorySlot) m = Done tt m' /\
    s <> LPF_INVALID_MEMSLOT /\ w <> LPF_INVALID_MEMSLOT /\ s <> w /\
    globals m !! g = None /\ registered_slot this tag key m' = Some g /\
    globals m' !! g = Some (GlobalMemorySlot.mk tag key src) /\ lpf_globals (backend m') !! g = Some (LpfGlobalSlot.mk owner s w) /\
    reg (lib m') !! s = Some (p, n) /\ reg (lib m') !! w = Some (q, k) /\ locals m' = locals m /\ lpf_locals (backend m') = lo s /\
    forall srcs, (forall i, i ∉ srcs -> lo s !! i = lpf_locals (backend m) !! i) ->
      (forall i, is_Some (lpf_locals (backend m) !! i) -> is_Some (lo s !! i)) -> grown this tag [key] srcs m m'.
Proof.
  intros Hu Ha Hp [c Hc] Hn Hk. destruct (run_register_two p n q k (heap m) (lib m) m Ha Hp Hn Hk) as (s & w & l' & Vs & Vw & Hsw & Fs & Fw & R & N & P & I & K & E).
  set (m1 := set_backend (set_locals (lo s) (backend (after (heap m) l' m))) (after (heap m) l' m)).
  destruct (run_new_slot this tag owner s w key src c m1 Hc) as (g & m' & E' & Hg & G & X & Rg & Rg' & H & O & T & LO & MA & LI & MO).
  change (lib m1) with l' in LI. change (lpf_locals (backend m1)) with (lo s) in LO. change (globals m1) with (globals m) in Hg, G.
  change (lpf_globals (backend m1)) with (lpf_globals (backend m)) in X.
  exists s, w, g, m'. split.
  { rewrite <- (after_same m) at 1. rewrite E. rewrite (run_bind_Done _ _ _ _ _ (Hu s (heap m) l')). exact E'. }
  split_and!; try done.
  - by rewrite G, lookup_insert_eq.
  - by rewrite X, lookup_insert_eq.
  - by rewrite LI, R, lookup_insert_ne, lookup_insert_eq.
  - by rewrite LI, R, lookup_insert_eq.
  - intros srcs Hlo Hkind. split; rewrite ?LI; try done.
    + intros g' x Hx. rewrite G, lookup_insert_ne; [done|]. intros ->. by rewrite Hg in Hx.
    + intros g' x [y Hy] Hx. rewrite X, lookup_insert_ne; [done|]. intros ->. by rewrite Hg in Hy.
    + intros i Hi. rewrite LO. by apply Hlo.
    + intros i Hi. rewrite LO. by apply Hkind.
    + intros tag' key' Hne. rewrite Rg'; [done|]. intros [= -> ->]. set_solver.
    + rewrite R. transitivity (<[s := (p, n)]> (reg (lib m))); apply insert_subseteq; [done|by rewrite lookup_insert_ne].
    + rewrite R, !map_size_insert_None; [cbn; lia|done|by rewrite lookup_insert_ne].
Qed.

Lemma run_create_slot this tag rank e src m :
  available (lib m) -> pending (lib m) = [] -> is_Some (managers m !! this) -> entry_ok rank e src m ->
  exists g m', run (create_slot this tag rank e src) m = Done tt m' /\ globals m !! g = None /\
    registered_slot this tag e.1.2 m' = Some g /\ slot_made tag e src g m' /\ grown this tag [e.1.2] (option_list src) m m'.
Proof.
  destruct e as [[owner key] sz]. intros Ha Hp Hc [Hsz Hok]. cbn in *. unfold create_slot. destruct src as [i|].
  - destruct Hok as (-> & (p & Hs) & (x & Hx)). rewrite Z.eqb_refl.
    rewrite (run_bind_Done _ _ _ _ _ (run_getPointer _ _ _ _ Hs)). erewrite run_bind_Done by (cbn; rewrite Hx; reflexivity).
    destruct (run_create_rest this tag (fun s => update_slot (LpfLocalSlot.setLPFSlot s) i) (fun s => <[i := LpfLocalSlot.setLPFSlot s x]> (lpf_locals (backend m)))
      p sz (LpfLocalSlot._swapValue x) 8 rank key (Some i) m) as (s & w & g & m' & E & Vs & Vw & Hsw & Hg & Rg & G & X & R1 & R2 & O & LO & Gr); try done.
    { intros s h l. apply run_update. cbn. by rewrite Hx. }
    { apply Hsz. }
    exists g, m'. split; [exact E|]. split_and!; [done|done| |].
    + exists s, w. split_and!; try done. exists p, (LpfLocalSlot.setLPFSlot s x). split_and!; try done.
      * unfold slot_at. by rewrite O.
      * by rewrite LO, lookup_insert_eq.
    + apply Gr; cbn.
      * intros i' Hi'. rewrite lookup_insert_ne; [done|]. set_solver.
      * intros i' Hi'. rewrite lookup_insert. case_decide; [by eexists|done].
  - rewrite (proj2 (Z.eqb_neq owner rank) Hok). rewrite !(run_bind_Done _ _ _ _ _ (run_ret nullptr m)).
    destruct (run_create_rest this tag (fun _ => mret tt) (fun _ => lpf_locals (backend m)) nullptr 0 nullptr 0 owner key None m)
      as (s & w & g & m' & E & Vs & Vw & Hsw & Hg & Rg & G & X & R1 & R2 & O & LO & Gr); try done.
    exists g, m'. split; [exact E|]. split_and!; [done|done| |by apply Gr]. exists s, w. by split_and!.
Qed.

Lemma slot_made_grown this tag keys sources e src g m m' :
  grown this tag keys sources m m' -> (forall i, src = Some i -> i ∉ sources) -> slot_made tag e src g m -> slot_made tag e src g m'.
Proof.
  intros Hgr Hsrc (s & w & X & Vs & Vw & Hsw & G & D). pose proof (gr_reg _ _ _ _ _ _ Hgr) as Hreg. rewrite map_subseteq_spec in Hreg.
  exists s, w. split_and!; try done; [eapply gr_lpf_globals; [exact Hgr|by eexists|done]|by eapply gr_globals|].
  destruct src as [i|]; [|destruct D; by auto]. destruct D as (p & x & Hs & Hx & Hm & R1 & R2). exists p, x. split_and!; auto.
  - unfold slot_at. by rewrite (gr_locals _ _ _ _ _ _ Hgr).
  - by rewrite (gr_lpf_locals _ _ _ _ _ _ Hgr) by (by apply Hsrc).
Qed.

Lemma entry_ok_grown this tag keys sources rank e src m m' :
  grown this tag keys sources m m' -> entry_ok rank e src m -> entry_ok rank e src m'.
Proof.
  intros Hgr [Hsz Hok]. split; [done|]. destruct src as [i|]; [|done]. destruct Hok as (? & (p & Hs) & Hx). split_and!; [done| |by eapply gr_kind].
  exists p. unfold slot_at. by rewrite (gr_locals _ _ _ _ _ _ Hgr).
Qed.

(** All entries, one after the other; the local slots are taken in their order. *)
Lemma run_create_slots this tag rank entries : forall srcs slots m,
  available (lib m) -> pending (lib m) = [] -> is_Some (managers m !! this) -> Forall2 (fun e src => entry_ok rank e src m) entries srcs ->
  slots.*2 = omap id srcs -> NoDup (omap id srcs) -> NoDup (map (fun e => e.1.2) entries) ->
  exists gs m', run (create_slots this tag rank entries slots) m = Done tt m' /\
    Forall3 (fun e src g => globals m !! g = None /\ registered_slot this tag e.1.2 m' = Some g /\ slot_made tag e src g m') entries srcs gs /\
    grown this tag (map (fun e => e.1.2) entries) (omap id srcs) m m'.
Proof.
  induction entries as [|e entries IH]; intros srcs slots m Ha Hp Hc Hok Hslots Hnd Hkeys.
  { inversion Hok; subst. exists [], m. split_and!; [done|constructor|by apply grown_refl]. }
  inversion Hok as [|? src ? srcs' He Hes]; subst. cbn [map] in Hkeys. apply NoDup_cons in Hkeys as [Hk Hkeys].
  destruct (run_create_slot this tag rank e src m Ha Hp Hc He) as (g & m1 & E1 & Hg & Rg & Hmade & Hgr).
  assert (Hsplit : omap id (src :: srcs') = option_list src ++ omap id srcs') by (by destruct src).
  rewrite Hsplit in Hnd, Hslots |- *. apply NoDup_app in Hnd as (_ & Hdis & Hnd).
  assert (Hrun : exists slots', slots'.*2 = omap id srcs' /\
    run (create_slots this tag rank (e :: entries) slots) m = run (create_slots this tag rank entries slots') m1).
  { cbn [create_slots]. destruct He as [_ He]. destruct src as [i|].
    - destruct He as [-> _]. rewrite Z.eqb_refl. destruct slots as [|[k j] slots']; [done|]. cbn in Hslots. injection Hslots as -> Hslots.
      exists slots'. split; [done|]. cbn [snd]. by rewrite (run_bind_Done _ _ _ _ _ E1).
    - rewrite (proj2 (Z.eqb_neq _ _) He). exists slots. split; [done|]. by rewrite (run_bind_Done _ _ _ _ _ E1). }
  destruct Hrun as (slots' & Hslots' & ->).
  destruct (IH srcs' slots' m1) as (gs & m2 & E2 & H3 & Hgr2); [|apply Hgr|apply Hgr| |done|done|done|].
  { eapply kept_available; [apply Hgr|done]. }
  { eapply Forall2_impl; [exact Hes|]. intros e' src'. by eapply entry_ok_grown. }
  exists (g :: gs), m2. split; [exact E2|]. split; [|exact (grown_trans _ _ _ _ _ _ _ _ _ Hgr Hgr2)]. constructor.
  - split_and!; [done| |eapply slot_made_grown; [exact Hgr2| |done]].
    + rewrite (gr_registered _ _ _ _ _ _ Hgr2) by (by right). done.
    + intros i ->. apply Hdis. cbn. set_solver.
  - eapply Forall3_impl; [exact H3|]. intros e' src' g' (Hn & ? & ?). split_and!; try done.
    destruct (globals m !! g') as [x|] eqn:Ex; [|done]. by rewrite (gr_globals _ _ _ _ _ _ Hgr _ _ Ex) in Hn.
Qed.

(** ** The operation *)

(** [css]: the keys and sizes of the slots of each process, by rank.  The entries
    of all of them, with their owners. *)
Fixpoint entries_from (r : nat) (css : list (list (Z * Z))) : list (Z * Z * Z) :=
  match css with
  | [] => []
  | c :: css' => map (fun ks => (Z.of_nat r, ks.1, ks.2)) c ++ entries_from (S r) css'
  end.

(** The local slots of the process [r] are those of its entries. *)
Fixpoint sources (css : list (list (Z * Z))) (r : nat) (slots : list nat) : list (option nat) :=
  match css, r with
  | [], _ => []
  | _ :: css', O => map Some slots ++ map (fun _ => None) (concat css')
  | c :: css', S r' => map (fun _ => None) c ++ sources css' r' slots
  end.

Lemma omap_nones {A : Type} (xs : list A) : omap id (map (fun _ => @None nat) xs) = [].
Proof. by induction xs. Qed.

Lemma omap_sources css : forall r slots, (r < length css)%nat -> omap id (sources css r slots) = slots.
Proof.
  induction css as [|c css IH]; intros [|r] slots Hr; cbn in *; [lia..| |]; rewrite omap_app, omap_nones.
  - rewrite app_nil_r. induction slots as [|i slots IHs]; [done|]. cbn. by f_equal.
  - apply IH. lia.
Qed.

Lemma lpf_zip_entries css : forall n (g : nat -> Z), (forall i, g i = Z.of_nat (n + i)) ->
  zip (zip (concat (imap (fun i c => map (fun _ => g i) c) (map (map snd) css))) (concat (map (map fst) css))) (concat (map (map snd) css)) =
  entries_from n css.
Proof.
  induction css as [|c css IH]; intros n g Hg; [done|]. cbn [map]. rewrite imap_cons. cbn [concat entries_from].
  rewrite !zip_with_app by (by rewrite ?length_zip_with, !length_map, ?Nat.min_id). f_equal.
  - rewrite Hg, Nat.add_0_r. induction c as [|ks c IHc]; [done|]. cbn. by f_equal.
  - apply (IH (S n) (fun i => g (S i))). intros i. rewrite Hg. lia.
Qed.

(** The entries of a group fit the local slots of this process. *)
Lemma entries_remote rank m css : forall n, rank < Z.of_nat n \/ Z.of_nat (n + length css) <= rank ->
  Forall (fun ks => is_size ks.2) (concat css) ->
  Forall2 (fun e src => entry_ok rank e src m) (entries_from n css) (map (fun _ => None) (concat css)).
Proof.
  induction css as [|c css IH]; intros n Hn Hall; cbn in *; [constructor|]. apply Forall_app in Hall as [Hc Hall]. rewrite map_app.
  apply Forall2_app; [|apply IH; [lia|done]]. apply Forall2_fmap. induction Hc; constructor; [|done]. split; [done|]. cbn. lia.
Qed.

Lemma entries_fit rank m css : forall n r own slots, css !! r = Some own -> rank = Z.of_nat (n + r) ->
  Forall (fun ks => is_size ks.2) (concat css) ->
  Forall2 (fun i ks => (exists p, slot_at m i p ks.2) /\ is_Some (lpf_locals (backend m) !! i)) slots own ->
  Forall2 (fun e src => entry_ok rank e src m) (entries_from n css) (sources css r slots).
Proof.
  induction css as [|c css IH]; intros n [|r] own slots Hr Hrank Hall Hown; [done..| |]; cbn in *; apply Forall_app in Hall as [Hc Hall].
  - injection Hr as ->. apply Forall2_app; [|apply entries_remote; [lia|done]]. apply Forall2_fmap.
    clear Hall. revert Hc. induction Hown as [|i ks slots own [Hp Hi] Hown IHo]; intros Hc; constructor; inversion Hc; subst; [|by apply IHo].
    split; [done|]. cbn. split_and!; [lia|done|done].
  - apply Forall2_app; [|by eapply IH; [|lia|..]]. apply Forall2_fmap. induction Hc; constructor; [|by apply IHHc].
    split; [done|]. cbn. lia.
Qed.

(** The state before an exchange: the process contributes [slots], the local slots
    with their keys, to the slots [css] of the group; the library is about to
    deliver the counts, sizes, owners and keys that this makes. *)
Record exchanging (this : nat) (slots : list (Z * nat)) (css : list (list (Z * Z))) (f : manager) (rest : list (list byte)) m : Prop := mkExchanging {
  xc_available : available (lib m);
  xc_pending : pending (lib m) = [];
  xc_this : is_Some (managers m !! this);
  xc_fields : lpf_managers (backend m) !! this = Some f;
  xc_rank : _rank f = self (lib m) /\ 0 <= self (lib m);
  xc_size : _size f = procs (lib m) /\ Z.of_nat (length css) = procs (lib m);
  xc_own : exists own, css !! Z.to_nat (self (lib m)) = Some own /\
    Forall2 (fun slot ks => slot.1 = ks.1 /\ (exists p, slot_at m slot.2 p ks.2) /\ is_Some (lpf_locals (backend m) !! slot.2)) slots own;
  xc_incoming : incoming (lib m) = encode 8 (counts_of css) :: encode 8 (map snd (concat css)) ::
    encode SIZEOF_PID (concat (owners css)) :: encode 8 (map fst (concat css)) :: rest;
  xc_keys : NoDup (map fst (concat css));
  xc_slots : NoDup slots.*2;
  xc_sizes : Forall (fun ks => is_size ks.1 /\ is_size ks.2) (concat css);
  xc_room : 8 * procs (lib m) < SIZE_BOUND /\ Z.of_nat (8 * length (concat css)) < SIZE_BOUND /\
    Z.of_nat (SIZEOF_PID * length (concat css)) < SIZE_BOUND /\ procs (lib m) <= 256 ^ Z.of_nat SIZEOF_PID
}.

(** The state after it: every entry has a slot, which is found under its key; the
    swap value of the manager and every entry have their slots of the library, and
    nothing else is left in it. *)
Record exchanged (this : nat) (tag : Z) (slots : list (Z * nat)) (css : list (list (Z * Z))) (f : manager) (rest : list (list byte)) (gs : list nat)
    m m' : Prop := mkExchanged {
  xd_slots : Forall3 (fun e src g => globals m !! g = None /\ registered_slot this tag e.1.2 m' = Some g /\ slot_made tag e src g m')
    (entries_from 0 css) (sources css (Z.to_nat (self (lib m))) slots.*2) gs;
  xd_swap : exists w, lpf_managers (backend m') = <[this := set_localSwapSlot w f]> (lpf_managers (backend m)) /\
    w <> LPF_INVALID_MEMSLOT /\ reg (lib m') !! w = Some (_localSwap f, 8);
  xd_heap : heap m' = heap m;
  xd_locals : locals m' = locals m;
  xd_globals : forall g x, globals m !! g = Some x -> globals m' !! g = Some x;
  xd_lpf_locals : forall i, i ∉ slots.*2 -> lpf_locals (backend m') !! i = lpf_locals (backend m) !! i;
  xd_registered : forall tag' key, tag' <> tag \/ key ∉ map fst (concat css) -> registered_slot this tag' key m' = registered_slot this tag' key m;
  xd_reg : reg (lib m) ⊆ reg (lib m');
  xd_count : size (reg (lib m')) = (size (reg (lib m)) + 1 + 2 * length (concat css))%nat;
  xd_lpf_globals : forall g x, is_Some (globals m !! g) -> lpf_globals (backend m) !! g = Some x -> lpf_globals (backend m') !! g = Some x;
  xd_managers : forall j, j <> this -> managers m' !! j = managers m !! j;
  xd_library : noc (lib m') = noc (lib m) /\ pending (lib m') = [] /\ incoming (lib m') = rest /\ kept (lib m) (lib m')
}.

Lemma keys_of_entries css : forall n, map (fun e => e.1.2) (entries_from n css) = map fst (concat css).
Proof. induction css as [|c css IH]; intros n; [done|]. cbn. rewrite !map_app, map_map, IH. done. Qed.

Lemma concat_map_map {A B : Type} (h : A -> B) (css : list (list A)) : concat (map (map h) css) = map h (concat css).
Proof. by rewrite concat_map. Qed.

Lemma counts_of_map {A B : Type} (h : A -> B) (css : list (list A)) : counts_of (map (map h) css) = counts_of css.
Proof. unfold counts_of. rewrite map_map. apply map_ext. intros c. by rewrite length_map. Qed.

Lemma owners_map {A B : Type} (h : A -> B) (css : list (list A)) : owners (map (map h) css) = owners css.
Proof.
  unfold owners. apply list_eq. intros r. rewrite !list_lookup_imap, list_lookup_fmap. destruct (css !! r); [|done]. cbn. by rewrite map_map.
Qed.

(** The three gathering phases. *)
Lemma run_exchange_gathers this slots css f rest m :
  exchanging this slots css f rest m ->
  exists l, gathers 4 (lib m) l /\ forall A (K : list (Z * Z * Z) -> prog (Machine (t L)) A),
    run (globalSlotCounts ← exchange_counts f (Z.of_nat (length slots));
         localSlotSizes ← map_each (fun slot => getSize slot.2) slots;
         r ← gather_sizes_and_ids f localSlotSizes globalSlotCounts;
         let '(globalSlotSizes, globalSlotProcessId) := r in
         globalSlotKeys ← gather_keys f slots.*1 globalSlotCounts;
         K (zip (zip globalSlotProcessId globalSlotKeys) globalSlotSizes)) m =
    run (K (entries_from 0 css)) (after (heap m) l m).
Proof.
  intros [Ha Hp Hc Hf [Hr Hself] [Hsz Hlen] (own & Hown & Hslots) Hin Hkeys Hnd Hall (B1 & B2 & B3 & B4)].
  destruct (run_count_array (mret tt) f (Z.of_nat (length slots)) (counts_of css) (drop 1 (incoming (lib m))) m) as (l1 & E1 & [R1 N1 P1 I1 K1]); try done.
  { apply harmless_ret. }
  { by rewrite Hin. }
  { unfold counts_of. rewrite list_lookup_fmap, Hown. cbn. by rewrite (Forall2_length _ _ _ Hslots). }
  { unfold counts_of. rewrite length_map. lia. }
  { unfold counts_of. apply Forall_map, Forall_lookup_2. intros r c Hc'. pose proof (length_own (map (map fst) css) r (map fst c)) as Hle.
    rewrite list_lookup_fmap, Hc', concat_map_map, !length_map in Hle. specialize (Hle eq_refl). size_lia. }
  set (m1 := after (heap m) l1 m) in *.
  assert (E2 : run (map_each (fun slot => getSize slot.2) slots) m1 = Done (map snd own) m1).
  { apply run_map_each_pure. apply Forall2_fmap_r. eapply Forall2_impl; [exact Hslots|]. intros slot ks (_ & (p & Hs) & _). by apply (run_getSize m1 _ p). }
  destruct (run_gather_sizes_and_ids f (map snd own) (map (map snd) css) (drop 3 (incoming (lib m))) m1) as (l3 & E3 & [R3 N3 P3 I3 K3]); rewrite ?concat_map_map, ?length_map; try done.
  { by eapply kept_available. }
  { change (lib m1) with l1. by rewrite I1, Hin, owners_map. }
  { change (lib m1) with l1. by rewrite (kept_self _ _ K1), list_lookup_fmap, Hown. }
  { change (lib m1) with l1. by rewrite (kept_self _ _ K1). }
  { change (lib m1) with l1. by rewrite (kept_self _ _ K1). }
  { apply Forall_map. eapply Forall_impl; [exact Hall|]. by intros ks [_ ?]. }
  { lia. }
  set (m2 := after (heap m1) l3 m1) in *. pose proof (kept_trans _ _ _ K1 K3) as K.
  destruct (run_gather_array 8 f slots.*1 (total_count (counts_of css)) (counts_in_bytes SIZEOF_SIZE_T (counts_of css)) (SIZEOF_SIZE_T *w total_count (counts_of css))
    (map (map fst) css) rest m2) as (l4 & E4 & [R4 N4 P4 I4 K4]); rewrite ?concat_map_map, ?length_map; try done.
  { by eapply kept_available. }
  { change (lib m2) with l3. change (lib m1) with l1 in I3. rewrite I3, I1, Hin. done. }
  { change (lib m2) with l3. rewrite (kept_self _ _ K), list_lookup_fmap, Hown. cbn. f_equal.
    clear -Hslots. induction Hslots as [|slot ks slots own (Hk & _) _ IH]; [done|]. cbn. rewrite <- Hk. by f_equal. }
  { change SIZEOF_SIZE_T with (Z.of_nat 8). rewrite counts_in_bytes_small by done. unfold sizes_of. rewrite map_map. apply map_ext.
    intros c. by rewrite length_map. }
  { by rewrite total_count_small by lia. }
  { apply Forall_map. eapply Forall_impl; [exact Hall|]. by intros ks [? _]. }
  exists l4. split.
  - change (lib m1) with l1 in *. change (lib m2) with l3 in *. split; try congruence; [|by eapply kept_trans]. rewrite I4, I3, I1. by rewrite !drop_drop.
  - intros A K0. rewrite (run_bind_Done _ _ _ _ _ E1), (run_bind_Done _ _ _ _ _ E2). rewrite counts_of_map in E3. rewrite (run_bind_Done _ _ _ _ _ E3).
    rewrite (run_bind_Done _ _ _ _ _ E4). rewrite <- (lpf_zip_entries css 0 Z.of_nat) by done. rewrite !concat_map_map. unfold m2, m1. by rewrite !after_twice.
Qed.

(** C17: the exchange of slots over LPF turns the slots that all processes of the
    group contribute into global slots of the manager, each found under its key,
    with the rank of its owner and two registered slots of the library; the local
    slots of this process know theirs.  The memory, all other slots and
    the other managers stay as they were, the arrays used on the way are no longer registered, and what is left in
    the library is one slot for the swap value and two per entry. *)
Theorem lpf_exchange_spec this tag slots css f rest m :
  exchanging this slots css f rest m ->
  exists gs m', run (CommunicationManager.exchangeGlobalMemorySlots this tag slots) m = Done tt m' /\ exchanged this tag slots css f rest gs m m'.
Proof.
  intros Hx. destruct (run_exchange_gathers _ _ _ _ _ _ Hx) as (l & [R N P I K] & E).
  destruct Hx as [Ha Hp Hc Hf [Hr Hself] [Hsz Hlen] (own & Hown & Hslots) Hin Hkeys Hnd Hall _].
  destruct (register_local_ok (_localSwap f) 8 (heap m) l (kept_available _ _ K Ha) ltac:(done)) as (w & l1 & E1 & F1 & V1 & R1 & N1 & P1 & I1 & K1).
  set (m1 := set_backend (set_managers (<[this := set_localSwapSlot w f]> (lpf_managers (backend m))) (backend (after (heap m) l1 m))) (after (heap m) l1 m)).
  pose proof (kept_trans _ _ _ K K1) as Kt.
  destruct (run_create_slots this tag (_rank f) (entries_from 0 css) (sources css (Z.to_nat (self (lib m))) slots.*2) slots m1) as (gs & m' & E2 & H3 & Hgr); try done.
  { by eapply kept_available. }
  { change (lib m1) with l1. by rewrite P1. }
  { eapply entries_fit; [exact Hown|rewrite Hr; lia| |].
    - eapply Forall_impl; [exact Hall|]. by intros ks [_ ?].
    - apply Forall2_fmap_l. eapply Forall2_impl; [exact Hslots|]. intros slot ks (_ & Hs & Hl). done. }
  { rewrite omap_sources; [done|]. by eapply lookup_lt_Some. }
  { rewrite omap_sources; [done|]. by eapply lookup_lt_Some. }
  { by rewrite keys_of_entries. }
  exists gs, m'. split.
  { change (run (exchangeGlobalMemorySlotsImpl this tag slots) m = Done tt m'). unfold exchangeGlobalMemorySlotsImpl. rewrite (run_bind_Done _ _ _ _ _ (run_fetch (fun m => lpf_managers (backend m) !! this) m f Hf)). cbv zeta.
    rewrite (E unit (fun entries => localSwapSlot ← CHECK_value (lpf_register_local (_localSwap f) SIZEOF_UINT64);
       _ ← update_fields this (set_localSwapSlot localSwapSlot); create_slots this tag (_rank f) entries slots)).
    lpf_value E1. erewrite run_bind_Done; [exact E2|]. apply run_update. cbn. rewrite Hf. reflexivity. }
  destruct Hgr as [G1 G2 G3 G4 G5 _ G7 _ G9 G10 G11 G12 G13 G14 G15 G16]. rewrite omap_sources in G5 by (by eapply lookup_lt_Some). rewrite keys_of_entries in G9, G11.
  change (lib m1) with l1 in *. rewrite length_map in G11. split; try done.
  - exists w. split_and!; [done|done|]. rewrite map_subseteq_spec in G10. apply G10. by rewrite R1, lookup_insert_eq.
  - transitivity (reg l1); [|done]. rewrite R1, R. apply insert_subseteq. by rewrite <- R.
  - rewrite G11, R1, map_size_insert_None by done. rewrite R. lia.
  - split_and!; [congruence|done| |by eapply kept_trans]. by rewrite G14, I1, I, Hin.
Qed.

End Exchange.
