(* ===== verification/LpfCopies.v ===== *)
(** * The LPF backend: copies, fences and errors

    [lpf_copy_roundtrip]: bytes put into a slot of another process and fetched
    again are the same, and the message counters of the local slots agree with
    those of the library after each fence.  The other theorems are about what
    happens when the library reports an error, or a slot is of another backend, and about
    the promotion and serialization of slots. *)

From S2P Require Import Prelude Memory CommunicationManager Mpi Lpf LpfSpec.
From Stdlib Require Import ZArith Lia.
From Stdlib.Strings Require Import Byte.
From stdpp Require Import base list gmap option.

Local Open Scope Z_scope.
Local Open Scope hicr_scope.

Section Copies.
Context {L : Type} {M : LPF L} {Sp : LpfSpec L}.
Implicit Types (m : Machine (Lpf.t L)) (l : L).
Import Lpf LpfCommunicationManager.

Abbreviation lib m := (Lpf.library (backend m)) (only parsing).

(** The local slot [i] has the library's slot [s], registered for its memory, and
    its message counters are those of [s]. *)
Record attached (i : nat) (s : Z) (p : ptr) (n : Z) m : Prop := mkAttached {
  at_local : exists x, locals m !! i = Some x /\ LocalMemorySlot._pointer x = p /\ LocalMemorySlot._size x = n /\
    LocalMemorySlot._messagesSent x = sent (lib m) s /\ LocalMemorySlot._messagesRecv x = rcvd (lib m) s;
  at_kind : exists y, lpf_locals (backend m) !! i = Some y /\ LpfLocalSlot.getLPFSlot y = s;
  at_reg : reg (lib m) !! s = Some (p, n);
  at_valid : s <> LPF_INVALID_MEMSLOT;
  at_counts : 0 <= sent (lib m) s /\ sent (lib m) s + 1 < SIZE_BOUND /\ 0 <= rcvd (lib m) s /\ rcvd (lib m) s + 1 < SIZE_BOUND
}.

Lemma attached_slot_at i s p n m : attached i s p n m -> slot_at m i p n.
Proof. intros [(x & ? & ? & ? & _) _ _ _ _]. by exists x. Qed.

(** [m] with other counters of the local slot [i]. *)
Definition counted (i : nat) (sn rc : Z) m : Machine (t L) :=
  Memory.set_locals (alter (fun x => LocalMemorySlot.setMessagesRecv rc (LocalMemorySlot.setMessagesSent sn x)) i (locals m)) m.

(** The fence of a slot after the library's counters have reached [sn] and [rc]. *)
Lemma run_fence_local this i s p n a b h l m h0 l0 :
  attached i s p n m -> is_size (sent (lib m) s + a) -> is_size (rcvd (lib m) s + b) ->
  run (lpf_counting_sync_per_slot s (sent (lib m) s + a) (rcvd (lib m) s + b)) (h0, l0) = Done LPF_SUCCESS (h, l) ->
  run (CommunicationManager.fenceLocal this i a b) (after h0 l0 m) =
    Done tt (counted i (sent (lib m) s + a) (rcvd (lib m) s + b) (after h l m)).
Proof.
  intros [(x & Hx & _ & _ & Hsn & Hrc) (y & Hy & <-) _ Hv _] Ha Hb E. unfold CommunicationManager.fenceLocal.
  change (CommunicationManager.fenceImplLocal this i a b) with (LpfCommunicationManager.fenceImplLocal this i a b). unfold LpfCommunicationManager.fenceImplLocal.
  rewrite (run_bind_Done _ _ _ _ _ (eq_refl : run (cast_local i) (after h0 l0 m) = Done (lpf_locals (backend m) !! i) _)), Hy. cbn [or_crash].
  rewrite (run_bind_Done _ _ _ _ _ (run_ret y _)). cbv zeta.
  rewrite (run_bind_Done _ _ _ _ _ (run_throw_if_false _ _ _ (proj2 (Z.eqb_neq _ _) Hv))).
  erewrite run_bind_Done by (unfold getMessagesSent; erewrite run_bind_Done by (apply run_fetch; exact Hx); reflexivity).
  erewrite run_bind_Done by (unfold getMessagesRecv; erewrite run_bind_Done by (apply run_fetch; exact Hx); reflexivity).
  rewrite Hsn, Hrc, !wrap64_small by done. lpf_check E.
  erewrite run_bind_Done by (apply run_update; cbn; rewrite Hx; reflexivity).
  unfold update_local. erewrite run_update by (cbn; rewrite lookup_insert_eq; reflexivity). f_equal. unfold counted. cbn. rewrite Hsn, Hrc, !wrap64_small by done.
  destruct m as [hp lo gl ma ba]. cbn in *. unfold after, Memory.set_locals. cbn. f_equal. rewrite insert_insert_eq. apply map_eq. intros j. rewrite lookup_insert, lookup_alter. case_decide; [subst j; by rewrite Hx|done].
Qed.

Lemma split_calls {S A B : Type} (p : prog S A) (q : prog S B) x y s s' :
  run (a ← p; b ← q; mret (a, b)) s = Done (x, y) s' -> exists s1, run p s = Done x s1 /\ run q s1 = Done y s'.
Proof.
  rewrite run_bind. destruct (run p s) as [a s1|?|?|?] eqn:E; [|done..]. rewrite run_bind. destruct (run q s1) as [b s2|?|?|?] eqn:E'; [|done..].
  cbn. intros [= -> -> ->]. by exists s1.
Qed.

(** The other slots keep their counters. *)
Lemma attached_other i j sn rc s p n h l m :
  i <> j -> reg l = reg (lib m) -> sent l s = sent (lib m) s -> rcvd l s = rcvd (lib m) s ->
  attached j s p n m -> attached j s p n (counted i sn rc (after h l m)).
Proof.
  intros Hij R S C [(x & Hx & ? & ? & ? & ?) Hk Hr Hv Hc]. split; cbn; rewrite ?R, ?S, ?C; try done. exists x.
  rewrite lookup_alter_ne by done. by split_and!.
Qed.

(** The slot itself, whose new counters are those of the library. *)
Lemma attached_self i sn rc s p n h l m :
  reg l = reg (lib m) -> sent l s = sn -> rcvd l s = rc -> 0 <= sn /\ sn + 1 < SIZE_BOUND /\ 0 <= rc /\ rc + 1 < SIZE_BOUND ->
  attached i s p n m -> attached i s p n (counted i sn rc (after h l m)).
Proof.
  intros R S C Hb [(x & Hx & ? & ? & ? & ?) Hk Hr Hv Hc]. split; cbn; rewrite ?R, ?S, ?C; try done.
  eexists. rewrite lookup_alter_eq, Hx. cbn. by split_and!.
Qed.

(** A slot of the process [r], with [bytes], that this process knows. *)
Record foreign (g : nat) (r d : Z) (bytes : list byte) m : Prop := mkForeign {
  fo_slot : exists w, lpf_globals (backend m) !! g = Some (LpfGlobalSlot.mk r d w);
  fo_available : available (lib m);
  fo_rank : r <> self (lib m);
  fo_bytes : remote (lib m) r d = Some bytes
}.

Lemma run_lpf_put this g r d off i s p n0 sO n bs old new m :
  attached i s p n0 m -> foreign g r d old m -> 0 <= sO -> 0 <= off -> is_size (n + sO) -> n + sO <= n0 ->
  mem_load (heap m) (ptr_add p sO) n = Some bs -> write_at (Z.to_nat off) bs old = Some new ->
  exists l, let m' := counted i (sent (lib m) s + 1) (rcvd (lib m) s) (after (heap m) l m) in
    run (_ ← CommunicationManager.memcpyGL this g off i sO n; CommunicationManager.fenceLocal this i 1 0) m = Done tt m' /\
    foreign g r d new m' /\ reg l = reg (lib m) /\ (forall s', sent l s' = sent (lib m) s' + (if s' =? s then 1 else 0)) /\ forall s', rcvd l s' = rcvd (lib m) s'.
Proof.
  intros Hat [[w Hw] Ha Hr Hold] HsO Hoff Hn Hle HL Hnew. pose proof Hat as [_ (y & Hy & Hys) Hreg Hv Hc].
  destruct (put_ok r s sO d off n n0 p bs old new (heap m) (lib m)) as (l & E & R & S & Ha' & Hrem & _ & Hsn & Hrc); [done..|].
  apply split_calls in E as ([h1 l1] & E1 & E2). exists l. cbn zeta. split; [|split_and!; try done].
  - assert (E : run (CommunicationManager.memcpyGL this g off i sO n) m = Done tt (after h1 l1 m)).
    { unfold CommunicationManager.memcpyGL. rewrite (run_bind_Done _ _ _ _ _ (run_getSize _ _ _ _ (attached_slot_at _ _ _ _ _ Hat))). cbv zeta.
      erewrite run_bind_Done by (by apply run_throw_if_false, gtb_wrap_false).
      change (CommunicationManager.memcpyImplGL this g off i sO n) with (LpfCommunicationManager.memcpyImplGL this g off i sO n).
      unfold LpfCommunicationManager.memcpyImplGL. erewrite run_bind_Done by (cbn; rewrite Hy; reflexivity). cbn [or_throw].
      rewrite (run_bind_Done _ _ _ _ _ (run_ret y m)). erewrite run_bind_Done by (cbn; rewrite Hw; reflexivity). cbn [or_throw].
      rewrite (run_bind_Done _ _ _ _ _ (run_ret _ m)), Hys, run_bind, run_lpf_call. cbn [LpfGlobalSlot.getRank LpfGlobalSlot.getLPFSlot LpfGlobalSlot._rank LpfGlobalSlot._lpfMemSlot].
      by rewrite E1. }
    rewrite (run_bind_Done _ _ _ _ _ E). rewrite <- (Z.add_0_r (rcvd (lib m) s)) in E2 |- *.
    eapply run_fence_local; [exact Hat|size_lia|size_lia|exact E2].
  - split; cbn; [by exists w|done|by rewrite S|done].
Qed.

(** The copy has been started; the bytes are there after the fence. *)
Lemma run_lpf_get_parts this g r d off i s p n0 dO n bs bytes h m :
  attached i s p n0 m -> foreign g r d bytes m -> 0 <= dO -> 0 <= off -> 0 <= n -> is_size (n + dO) -> n + dO <= n0 ->
  read_at (Z.to_nat off) (Z.to_nat n) bytes = Some bs -> mem_store (heap m) (ptr_add p dO) bs = Some h ->
  exists h1 l1 l, let m' := counted i (sent (lib m) s) (rcvd (lib m) s + 1) (after h l m) in
    run (CommunicationManager.memcpyLG this i dO g off n) m = Done tt (after h1 l1 m) /\
    run (CommunicationManager.fenceLocal this i 0 1) (after h1 l1 m) = Done tt m' /\
    foreign g r d bytes m' /\ reg l = reg (lib m) /\ (forall s', sent l s' = sent (lib m) s') /\
    (forall s', rcvd l s' = rcvd (lib m) s' + (if s' =? s then 1 else 0)) /\ noc l = noc (lib m).
Proof.
  intros Hat [[w Hw] Ha Hr Hold] HdO Hoff Hn Hs Hle HL Hst. pose proof Hat as [_ (y & Hy & Hys) Hreg Hv Hc].
  destruct (get_ok r d off s dO n n0 p bs bytes (heap m) h (lib m)) as (l & E & R & S & Ha' & Hrem & Hsn & Hrc & HN); [done..|].
  apply split_calls in E as ([h1 l1] & E1 & E2). exists h1, l1, l. cbn zeta. split; [|split; [|split_and!; try done]].
  - unfold CommunicationManager.memcpyLG. rewrite (run_bind_Done _ _ _ _ _ (run_getSize _ _ _ _ (attached_slot_at _ _ _ _ _ Hat))). cbv zeta.
    erewrite run_bind_Done by (by apply run_throw_if_false, gtb_wrap_false).
    change (CommunicationManager.memcpyImplLG this i dO g off n) with (LpfCommunicationManager.memcpyImplLG this i dO g off n).
    unfold LpfCommunicationManager.memcpyImplLG. erewrite run_bind_Done by (cbn; rewrite Hw; reflexivity).
    erewrite run_bind_Done by (cbn; rewrite Hy; reflexivity). cbn [or_throw or_crash].
    rewrite (run_bind_Done _ _ _ _ _ (run_ret y m)), (run_bind_Done _ _ _ _ _ (run_ret _ m)), Hys, run_bind, run_lpf_call.
    cbn [LpfGlobalSlot.getRank LpfGlobalSlot.getLPFSlot LpfGlobalSlot._rank LpfGlobalSlot._lpfMemSlot]. by rewrite E1.
  - rewrite <- (Z.add_0_r (sent (lib m) s)) in E2 |- *. eapply run_fence_local; [exact Hat|size_lia|size_lia|exact E2].
  - split; cbn; [by exists w|done|by rewrite S|by rewrite Hrem].
Qed.

Lemma run_lpf_get this g r d off i s p n0 dO n bs bytes h m :
  attached i s p n0 m -> foreign g r d bytes m -> 0 <= dO -> 0 <= off -> 0 <= n -> is_size (n + dO) -> n + dO <= n0 ->
  read_at (Z.to_nat off) (Z.to_nat n) bytes = Some bs -> mem_store (heap m) (ptr_add p dO) bs = Some h ->
  exists l, let m' := counted i (sent (lib m) s) (rcvd (lib m) s + 1) (after h l m) in
    run (_ ← CommunicationManager.memcpyLG this i dO g off n; CommunicationManager.fenceLocal this i 0 1) m = Done tt m' /\
    foreign g r d bytes m' /\ reg l = reg (lib m) /\ (forall s', sent l s' = sent (lib m) s') /\ forall s', rcvd l s' = rcvd (lib m) s' + (if s' =? s then 1 else 0).
Proof.
  intros. destruct (run_lpf_get_parts this g r d off i s p n0 dO n bs bytes h m) as (h1 & l1 & l & E1 & E2 & F & R & S & C & _); [done..|].
  exists l. split; [|by split_and!]. by rewrite (run_bind_Done _ _ _ _ _ E1).
Qed.

(** ** Theorems *)

(** C18: A copy to a slot of another process and back over LPF, each followed by the
    fence of its local slot: the bytes that the first copy takes are those that the
    second one brings, and the message counters of the two local slots have moved
    with those of the library. *)
Theorem lpf_copy_roundtrip this g r d off src s sp ss sO dst s' dp ds dO n bs old new h m :
  attached src s sp ss m -> attached dst s' dp ds m -> src <> dst -> s <> s' -> foreign g r d old m ->
  0 <= sO -> 0 <= dO -> 0 <= off -> 0 <= n -> is_size (n + sO) -> n + sO <= ss -> is_size (n + dO) -> n + dO <= ds ->
  mem_load (heap m) (ptr_add sp sO) n = Some bs -> write_at (Z.to_nat off) bs old = Some new -> mem_store (heap m) (ptr_add dp dO) bs = Some h ->
  exists m1 m2, run (_ ← CommunicationManager.memcpyGL this g off src sO n; CommunicationManager.fenceLocal this src 1 0) m = Done tt m1 /\
    run (_ ← CommunicationManager.memcpyLG this dst dO g off n; CommunicationManager.fenceLocal this dst 0 1) m1 = Done tt m2 /\
    foreign g r d new m1 /\ foreign g r d new m2 /\ heap m1 = heap m /\ heap m2 = h /\
    sent (lib m2) s = sent (lib m) s + 1 /\ rcvd (lib m2) s' = rcvd (lib m) s' + 1 /\
    LocalMemorySlot._messagesSent <$> locals m2 !! src = Some (sent (lib m2) s) /\
    LocalMemorySlot._messagesRecv <$> locals m2 !! dst = Some (rcvd (lib m2) s').
Proof.
  intros H1 H2 Hne Hss Hf HsO HdO Hoff Hn Hs1 Hs2 Hd1 Hd2 HL Hnew Hst. destruct (mem_load_length _ _ _ _ HL) as [Hlen _].
  destruct (run_lpf_put this g r d off src s sp ss sO n bs old new m) as (l1 & E1 & F1 & R1 & S1 & C1); [done..|].
  set (m1 := counted _ _ _ _) in *. assert (A2 : attached dst s' dp ds m1).
  { apply attached_other; try done. rewrite S1, (proj2 (Z.eqb_neq s' s)) by done. lia. }
  destruct (run_lpf_get this g r d off dst s' dp ds dO n bs new h m1) as (l2 & E2 & F2 & R2 & S2 & C2); try done.
  { replace (Z.to_nat n) with (length bs) by lia. by apply read_write_same with old. }
  set (m2 := counted dst _ _ _) in *. exists m1, m2. change (lib m2) with l2. change (lib m1) with l1 in S2, C2.
  split_and!; try done; [by rewrite S2, S1, Z.eqb_refl|by rewrite C2, C1, Z.eqb_refl| |].
  - unfold m2, m1. cbn. rewrite lookup_alter_ne, lookup_alter_eq by done. destruct (at_local _ _ _ _ _ H1) as (x & -> & _). cbn.
    by rewrite S2, S1, Z.eqb_refl.
  - unfold m2. cbn -[m1]. rewrite lookup_alter_eq. destruct (at_local _ _ _ _ _ A2) as (x & -> & _). cbn -[m1].
    by rewrite C2, Z.eqb_refl.
Qed.

(** What goes wrong is noticed by the fence and not by the copy.  The status of
    the transfer is ignored, whatever it is; the fence of a slot whose
    synchronization fails throws a runtime error, and leaves the counters of the
    slot as they were; that of a slot without library slot throws before any call. *)
Theorem lpf_failures_at_fence this g x i y z off sO n a b m :
  lpf_globals (backend m) !! g = Some x -> lpf_locals (backend m) !! i = Some y -> locals m !! i = Some z ->
  (forall status h l, run (lpf_put (LpfLocalSlot.getLPFSlot y) sO (LpfGlobalSlot.getRank x) (LpfGlobalSlot.getLPFSlot x) off n) (heap m, lib m) = Done status (h, l) ->
     run (LpfCommunicationManager.memcpyImplGL this g off i sO n) m = Done tt (after h l m)) /\
  (forall status h l, LpfLocalSlot.getLPFSlot y <> LPF_INVALID_MEMSLOT -> status <> LPF_SUCCESS ->
     run (lpf_counting_sync_per_slot (LpfLocalSlot.getLPFSlot y) (LocalMemorySlot._messagesSent z +w a) (LocalMemorySlot._messagesRecv z +w b)) (heap m, lib m) = Done status (h, l) ->
     run (LpfCommunicationManager.fenceImplLocal this i a b) m = Thrown runtime (after h l m) /\ locals (after h l m) !! i = Some z) /\
  (LpfLocalSlot.getLPFSlot y = LPF_INVALID_MEMSLOT -> run (LpfCommunicationManager.fenceImplLocal this i a b) m = Thrown logic m).
Proof.
  intros Hx Hy Hz. unfold LpfCommunicationManager.memcpyImplGL, LpfCommunicationManager.fenceImplLocal. split_and!.
  - intros status h l E. erewrite run_bind_Done by (cbn; rewrite Hy; reflexivity). cbn [or_throw].
    rewrite (run_bind_Done _ _ _ _ _ (run_ret y m)). erewrite run_bind_Done by (cbn; rewrite Hx; reflexivity). cbn [or_throw].
    rewrite (run_bind_Done _ _ _ _ _ (run_ret _ m)), run_bind, run_lpf_call. by rewrite E.
  - intros status h l Hv Hst E. split; [|done]. erewrite run_bind_Done by (cbn; rewrite Hy; reflexivity). cbn [or_crash].
    rewrite (run_bind_Done _ _ _ _ _ (run_ret y m)). cbv zeta.
    rewrite (run_bind_Done _ _ _ _ _ (run_throw_if_false _ _ _ (proj2 (Z.eqb_neq _ _) Hv))).
    erewrite run_bind_Done by (unfold getMessagesSent; erewrite run_bind_Done by (apply run_fetch; exact Hz); reflexivity).
    erewrite run_bind_Done by (unfold getMessagesRecv; erewrite run_bind_Done by (apply run_fetch; exact Hz); reflexivity).
    rewrite run_bind. by rewrite (run_CHECK_failed _ _ _ _ _ E Hst).
  - intros Hv. erewrite run_bind_Done by (cbn; rewrite Hy; reflexivity). cbn [or_crash]. rewrite (run_bind_Done _ _ _ _ _ (run_ret y m)). cbv zeta.
    by rewrite run_bind, run_throw_if_true by (by rewrite Hv, Z.eqb_refl).
Qed.

(** A global slot that another backend has made is refused as the destination of a
    copy, but as the source of one it is dereferenced: the check looks at the
    argument instead of the result of the cast. *)
Theorem lpf_foreign_source_crashes this g i y off sO n m :
  lpf_globals (backend m) !! g = None -> lpf_locals (backend m) !! i = Some y ->
  run (LpfCommunicationManager.memcpyImplGL this g off i sO n) m = Thrown logic m /\
  run (LpfCommunicationManager.memcpyImplLG this i off g sO n) m = Crashed undefined m.
Proof.
  intros Hg Hy. split.
  - unfold LpfCommunicationManager.memcpyImplGL. cbn. rewrite Hy. cbn. by rewrite Hg.
  - unfold LpfCommunicationManager.memcpyImplLG. cbn. rewrite Hy. cbn. by rewrite Hg.
Qed.

End Copies.

(** ** Promotion

    A local slot that one process promotes and serializes is, once another process has
    deserialized the buffer, a global slot through which that process reaches the same
    memory. *)

Section Promotion.
Context {L : Type} {M : LPF L} {Sp : LpfSpec L}.
Implicit Types (m : Machine (Lpf.t L)) (l : L).
Import Lpf LpfCommunicationManager.

Abbreviation lib m := (Lpf.library (backend m)) (only parsing).

(** A new global slot. *)
Definition with_global (g : nat) (x : LpfGlobalSlot.t) (y : GlobalMemorySlot.t) m : Machine (t L) :=
  set_backend (Lpf.set_globals (<[g := x]> (lpf_globals (backend m))) (backend m)) (Memory.set_globals (<[g := y]> (globals m)) m).

Lemma run_new_global_slot rank s w tag key src m :
  exists g, globals m !! g = None /\
    run (new_global_slot rank s w tag key src) m = Done g (with_global g (LpfGlobalSlot.mk rank s w) (GlobalMemorySlot.mk tag key src) m).
Proof. exists (fresh (dom (globals m))). split; [apply not_elem_of_dom, is_fresh|done]. Qed.

(** The promoted slot has two slots for communication without collective registration. *)
Lemma run_promote this f i y tag p n m :
  lpf_managers (backend m) !! this = Some f -> slot_at m i p n -> lpf_locals (backend m) !! i = Some y -> available (lib m) -> 0 <= n ->
  exists g s w l, run (promoteLocalMemorySlot this (Some i) tag) m =
      Done g (with_global g (LpfGlobalSlot.mk (_rank f) s w) (GlobalMemorySlot.mk tag 0 (Some i)) (after (heap m) l m)) /\
    globals m !! g = None /\ noc (lib m) !! s = None /\ noc (lib m) !! w = None /\ s <> w /\ w <> LPF_INVALID_MEMSLOT /\
    noc l = <[w := mkTarget (self (lib m)) (LpfLocalSlot._swapValue y) 8]> (<[s := mkTarget (self (lib m)) p n]> (noc (lib m))) /\
    reg l = reg (lib m) /\ kept (lib m) l.
Proof.
  intros Hf Hs Hy Ha Hn. unfold promoteLocalMemorySlot.
  rewrite (run_bind_Done _ _ _ _ _ (run_fetch (fun m => lpf_managers (backend m) !! this) m f Hf)).
  erewrite run_bind_Done by (cbn; rewrite Hy; reflexivity). cbn [or_throw or_crash].
  rewrite (run_bind_Done _ _ _ _ _ (run_ret y m)), (run_bind_Done _ _ _ _ _ (run_ret i m)).
  rewrite (run_bind_Done _ _ _ _ _ (run_getPointer _ _ _ _ Hs)), (run_bind_Done _ _ _ _ _ (run_getSize _ _ _ _ Hs)).
  destruct (noc_register_ok p n (heap m) (lib m) Ha Hn) as (s & l1 & E1 & F1 & V1 & N1 & R1 & P1 & I1 & K1). lpf_value E1.
  destruct (noc_register_ok (LpfLocalSlot._swapValue y) 8 (heap m) l1) as (w & l2 & E2 & F2 & V2 & N2 & R2 & P2 & I2 & K2);
    [destruct K1 as (_ & _ & Ka & _); by apply Ka|done|]. lpf_value E2. rewrite N1 in F2. apply lookup_insert_None in F2 as [F2 Hsw].
  destruct (run_new_global_slot (_rank f) s w tag 0 (Some i) (after (heap m) l2 m)) as (g & Hg & E3).
  exists g, s, w, l2. split; [exact E3|]. pose proof (kept_self _ _ K1) as S1.
  split_and!; try done; try congruence. by eapply kept_trans.
Qed.

(** The layout of the buffer. *)
Lemma read_buffer r bs : 0 <= r < 256 ^ Z.of_nat SIZEOF_PID ->
  let buffer := le_bytes SIZEOF_PID r ++ le_bytes 8 (Z.of_nat (length bs)) ++ bs in
  le_value <$> read_at 0 SIZEOF_PID buffer = Some r /\ is_Some (le_value <$> read_at SIZEOF_PID 8 buffer) /\ drop (SIZEOF_PID + 8) buffer = bs.
Proof.
  intros Hr. cbn zeta. unfold read_at. rewrite !length_app, !length_le_bytes. rewrite !bool_decide_true by lia. split_and!.
  - rewrite drop_0, take_app_length' by (by rewrite length_le_bytes). cbn [fmap option_fmap option_map]. by rewrite le_value_bytes, Z.mod_small.
  - by eexists.
  - rewrite app_assoc. apply drop_app_length'. by rewrite length_app, !length_le_bytes.
Qed.

(** The buffer of a slot: the rank, the size of the serialized slot, the slot. *)
Definition slot_buffer (r : Z) (bs : list byte) : list byte := le_bytes SIZEOF_PID r ++ le_bytes 8 (Z.of_nat (length bs)) ++ bs.

Lemma run_serialize_slot this f g r s w d m :
  lpf_managers (backend m) !! this = Some f -> lpf_globals (backend m) !! g = Some (LpfGlobalSlot.mk r s w) -> noc (lib m) !! s = Some d ->
  exists bs, encodes bs d /\ run (serializeGlobalMemorySlot this (Some g)) m = Done (slot_buffer (_rank f) bs) m.
Proof.
  intros Hf Hx HN. destruct (serialize_ok s d (heap m) (lib m) HN) as (bs & E & Henc). exists bs. split; [done|]. unfold serializeGlobalMemorySlot.
  rewrite (run_bind_Done _ _ _ _ _ (run_fetch (fun m => lpf_managers (backend m) !! this) m f Hf)).
  erewrite run_bind_Done by (unfold cast_global, gets; cbn [run]; rewrite Hx; reflexivity). cbn [or_throw]. rewrite (run_bind_Done _ _ _ _ _ (run_ret _ m)).
  by rewrite (run_bind_Done _ _ _ _ _ (run_CHECK_value _ _ _ _ _ E)), after_same.
Qed.

(** The process that reads it has a slot that refers to the same memory. *)
Lemma run_deserialize_slot that r bs d tag m :
  0 <= r < 256 ^ Z.of_nat SIZEOF_PID -> encodes bs d -> tg_rank d = r -> available (lib m) ->
  exists g s l, run (deserializeGlobalMemorySlot that (slot_buffer r bs) tag) m =
      Done g (with_global g (LpfGlobalSlot.mk r s LPF_INVALID_MEMSLOT) (GlobalMemorySlot.mk tag 0 None) (after (heap m) l m)) /\
    globals m !! g = None /\ noc (lib m) !! s = None /\ noc l = <[s := d]> (noc (lib m)) /\ reg l = reg (lib m) /\
    self l = self (lib m) /\ available l /\ (r <> self (lib m) -> remote l r s = far (lib m) d).
Proof.
  intros Hr Henc Hd Ha. unfold deserializeGlobalMemorySlot. destruct (read_buffer r bs Hr) as (B1 & [z B2] & B3). fold (slot_buffer r bs) in B1, B2, B3.
  rewrite B1, B2, B3. cbn [or_crash]. rewrite (run_bind_Done _ _ _ _ _ (run_ret _ m)), (run_bind_Done _ _ _ _ _ (run_ret _ m)). cbv zeta.
  destruct (noc_register_ok nullptr 0 (heap m) (lib m) Ha ltac:(lia)) as (s & l1 & E3 & F3 & V3 & N3 & R3 & _ & _ & S3 & _ & A3 & _ & Hf3).
  rewrite (run_bind_Done _ _ _ _ _ (run_CHECK_value _ _ _ _ _ E3)).
  destruct (deserialize_ok s bs d (heap m) l1 ltac:(rewrite N3, lookup_insert_eq; by eexists) Henc)
    as (l2 & E4 & N4 & R4 & _ & _ & S4 & _ & A4 & _ & _ & Hrem).
  lpf_check E4. destruct (run_new_global_slot r s LPF_INVALID_MEMSLOT tag 0 None (after (heap m) l2 m)) as (g & Hg & E5).
  exists g, s, l2. split; [exact E5|]. split_and!; [done|done|by rewrite N4, N3, insert_insert_eq|congruence|congruence|by auto|].
  intros Hne. rewrite <- Hf3, <- Hrem; [by rewrite Hd|congruence].
Qed.

(** C19: Promotion over LPF: the local slot [i] of one process is promoted and
    serialized; when another process deserializes the buffer it gets a global slot
    of the first process which reaches the memory of [i], whole.  Destroying the
    promoted slot undoes its registrations. *)
Theorem lpf_promotion_roundtrip this f i y tag p n m :
  lpf_managers (backend m) !! this = Some f -> _rank f = self (lib m) -> 0 <= self (lib m) < 256 ^ Z.of_nat SIZEOF_PID ->
  slot_at m i p n -> lpf_locals (backend m) !! i = Some y -> available (lib m) -> 0 <= n ->
  exists g m1 buffer, run (promoteLocalMemorySlot this (Some i) tag) m = Done g m1 /\ globals m1 !! g = Some (GlobalMemorySlot.mk tag 0 (Some i)) /\
    run (serializeGlobalMemorySlot this (Some g)) m1 = Done buffer m1 /\
    (exists m2, run (destroyPromotedGlobalMemorySlot this g) m1 = Done tt m2 /\ noc (lib m2) = noc (lib m) /\ reg (lib m2) = reg (lib m)) /\
    forall that tag' m', available (lib m') ->
      exists g' s m2, run (deserializeGlobalMemorySlot that buffer tag') m' = Done g' m2 /\ globals m' !! g' = None /\
        globals m2 !! g' = Some (GlobalMemorySlot.mk tag' 0 None) /\
        lpf_globals (backend m2) !! g' = Some (LpfGlobalSlot.mk (self (lib m)) s LPF_INVALID_MEMSLOT) /\
        noc (lib m') !! s = None /\ noc (lib m2) = <[s := mkTarget (self (lib m)) p n]> (noc (lib m')) /\ heap m2 = heap m'.
Proof.
  intros Hf Hrank Hself Hs Hy Ha Hn. destruct (run_promote this f i y tag p n m Hf Hs Hy Ha Hn) as (g & s & w & l & E1 & Hg & Fs & Fw & Hsw & Vw & N & R & K).
  rewrite Hrank in E1. set (m1 := with_global _ _ _ _) in E1. assert (Hx : lpf_globals (backend m1) !! g = Some (LpfGlobalSlot.mk (self (lib m)) s w)) by apply lookup_insert_eq.
  assert (HN : noc (lib m1) !! s = Some (mkTarget (self (lib m)) p n)) by (change (lib m1) with l; by rewrite N, lookup_insert_ne, lookup_insert_eq).
  destruct (run_serialize_slot this f g _ s w _ m1 Hf Hx HN) as (bs & Henc & E2). rewrite Hrank in E2.
  exists g, m1, (slot_buffer (self (lib m)) bs). split; [done|]. split; [apply lookup_insert_eq|]. split; [done|split].
  - unfold destroyPromotedGlobalMemorySlot.
    erewrite run_bind_Done by (unfold cast_global, gets; cbn [run]; rewrite Hx; reflexivity). cbn [or_throw]. rewrite (run_bind_Done _ _ _ _ _ (run_ret _ m1)).
    destruct (noc_deregister_ok s (heap m1) (lib m1)) as (l2 & E3 & N3 & R3 & _); [by rewrite HN|].
    rewrite (run_bind_Done _ _ _ _ _ (run_CHECK _ _ _ _ E3)). cbn [LpfGlobalSlot.getLPFSwapSlot LpfGlobalSlot._lpfSwapSlot].
    rewrite (proj2 (Z.eqb_neq w _) Vw). cbn [negb]. change (lib m1) with l in N3, R3.
    destruct (noc_deregister_ok w (heap m1) l2) as (l3 & E4 & N4 & R4 & _).
    { rewrite N3, lookup_delete_ne, N, lookup_insert_eq by done. by eexists. }
    exists (after (heap m1) l3 m1). rewrite (run_CHECK _ (after (heap m1) l2 m1) _ _ E4), after_twice. split_and!; [done| |cbn -[m1]; by rewrite R4, R3, R].
    cbn -[m1]. rewrite N4, N3, N. rewrite delete_insert_ne by done. rewrite (delete_insert_id (noc (lib m)) s) by done. by apply delete_insert_id.
  - intros that tag' m' Ha'.
    destruct (run_deserialize_slot that _ bs (mkTarget (self (lib m)) p n) tag' m' Hself Henc eq_refl Ha') as (g' & s' & l' & E3 & Hg' & F3 & N3 & _).
    exists g', s'. eexists. split; [exact E3|]. split_and!; [done|apply lookup_insert_eq|apply lookup_insert_eq|done|exact N3|done].
Qed.

End Promotion.
