(* ===== verification/LpfDestroy.v ===== *)
(** * The LPF backend: the collective fence

    [lpf_fence_destroys]: at a fence the processes of the group tell each other the
    library slots of the global slots that they have marked for destruction, and
    each deregisters all of them, every one once. *)

From S2P Require Import Prelude Memory CommunicationManager Mpi Lpf LpfSpec LpfExchange.
From Stdlib Require Import ZArith Lia.
From Stdlib.Strings Require Import Byte.
From stdpp Require Import base gmap option list sorting.

Local Open Scope Z_scope.
Local Open Scope hicr_scope.

Section Destroy.
Context {L : Type} {M : LPF L} {Sp : LpfSpec L}.
Implicit Types (m : Machine (Lpf.t L)) (l : L).
Import Lpf LpfCommunicationManager.

Abbreviation lib m := (Lpf.library (backend m)) (only parsing).

(** The library slots of a global slot. *)
Definition ids_of (c : list LpfGlobalSlot.t) : list Z := concat (map (fun x => [LpfGlobalSlot.getLPFSlot x; LpfGlobalSlot.getLPFSwapSlot x]) c).

Lemma length_ids_of c : length (ids_of c) = (2 * length c)%nat.
Proof. induction c as [|x c IH]; cbn; [done|]. unfold ids_of in IH. lia. Qed.

Lemma length_all_ids css : length (concat (map ids_of css)) = (2 * length (concat css))%nat.
Proof. induction css as [|c css IH]; cbn; [done|]. rewrite !length_app, length_ids_of. lia. Qed.

Lemma id_counts css :
  Z.of_nat (2 * length (concat css)) < SIZE_BOUND -> counts_in_bytes 2 (counts_of css) = counts_of (map ids_of css).
Proof.
  intros H. change 2 with (Z.of_nat 2). rewrite counts_in_bytes_small by done. unfold counts_of. rewrite map_map. apply map_ext.
  intros c. by rewrite length_ids_of.
Qed.

(** Each of the slots [ids] is deregistered. *)
Lemma run_deregister_all : forall ids m, NoDup ids -> (forall s, s ∈ ids -> is_Some (reg (lib m) !! s)) ->
  exists l, run (for_each ids (fun id => _ ← call (lpf_deregister id); mret tt)) m = Done tt (after (heap m) l m) /\
    (forall s, reg l !! s = if bool_decide (s ∈ ids) then None else reg (lib m) !! s) /\ noc l = noc (lib m) /\
    pending l = pending (lib m) /\ incoming l = incoming (lib m) /\ kept (lib m) l.
Proof.
  induction ids as [|id ids IH]; intros m Hnd Hreg.
  { exists (lib m). rewrite after_same. by split_and!. }
  apply NoDup_cons in Hnd as [Hid Hnd]. destruct (deregister_ok id (heap m) (lib m)) as (l1 & E1 & R1 & N1 & P1 & I1 & K1); [apply Hreg; set_solver|].
  destruct (IH (after (heap m) l1 m) Hnd) as (l2 & E2 & R2 & N2 & P2 & I2 & K2).
  { intros s Hs. cbn. rewrite R1, lookup_delete_ne by set_solver. apply Hreg. set_solver. }
  exists l2. cbn in R2, N2, P2, I2, K2. split_and!; try congruence.
  - cbn [for_each]. erewrite run_bind_Done by (rewrite run_bind, run_lpf_call, E1; reflexivity). etransitivity; [exact E2|]. cbn. by rewrite after_twice.
  - intros s. rewrite R2, R1. destruct (decide (s = id)) as [->|Hne].
    + rewrite lookup_delete_eq, (bool_decide_true (id ∈ id :: ids)) by set_solver. by case_bool_decide.
    + rewrite lookup_delete_ne by done. destruct (decide (s ∈ ids)); [rewrite !bool_decide_true by set_solver; done|].
      rewrite !bool_decide_false by set_solver. done.
  - by eapply kept_trans.
Qed.

(** The library slots of the marked slots of this process. *)
Lemma run_local_ids slots mine m :
  Forall2 (fun g x => lpf_globals (backend m) !! g = Some x) slots mine -> run (local_ids slots) m = Done (ids_of mine) m.
Proof.
  intros H. unfold local_ids, ids_of. erewrite run_bind_Done; [reflexivity|]. apply run_map_each_pure, Forall2_fmap_r.
  eapply Forall2_impl; [exact H|]. intros g x Hx. cbn. by rewrite Hx.
Qed.

(** Before a fence on [tag]: [css] are the slots that the processes have marked. *)
Record fencing (this : nat) (tag : Z) (css : list (list LpfGlobalSlot.t)) (f : manager) (rest : list (list byte)) m : Prop := mkFencing {
  fc_available : available (lib m);
  fc_pending : pending (lib m) = [];
  fc_fields : lpf_managers (backend m) !! this = Some f;
  fc_rank : 0 <= self (lib m);
  fc_size : _size f = procs (lib m) /\ Z.of_nat (length css) = procs (lib m);
  fc_own : exists c mine, managers m !! this = Some c /\ css !! Z.to_nat (self (lib m)) = Some mine /\
    Forall2 (fun g x => lpf_globals (backend m) !! g = Some x) (default [] (CommunicationManagerFields._globalMemorySlotsToDestroyPerTag c !! tag)) mine;
  fc_incoming : incoming (lib m) = encode 8 (counts_of css) ::
    (if bool_decide (concat css = []) then rest else encode SIZEOF_MEMSLOT (concat (map ids_of css)) :: rest);
  fc_registered : forall s, s ∈ concat (map ids_of css) -> is_Some (reg (lib m) !! s) /\ is_size s;
  fc_width : SIZEOF_MEMSLOT = 8%nat;
  fc_room : 8 * procs (lib m) < SIZE_BOUND /\ Z.of_nat (16 * length (concat css)) < SIZE_BOUND
}.

(** [m] with other fields of the base class. *)
Definition with_fields (this : nat) (c : CommunicationManagerFields.t) m : Machine (t L) :=
  Memory.set_managers (<[this := c]> (managers m)) m.

Lemma run_slots_to_destroy this tag c m :
  managers m !! this = Some c -> let d := CommunicationManagerFields._globalMemorySlotsToDestroyPerTag c in
  run (slots_to_destroy this tag) m =
    Done (default [] (d !! tag)) (with_fields this (CommunicationManager.with_to_destroy (<[tag := default [] (d !! tag)]> d) c) m).
Proof.
  intros Hc. cbn zeta. unfold slots_to_destroy. erewrite run_bind_Done by (apply run_update; rewrite Hc; reflexivity).
  erewrite run_bind_Done by (apply run_fetch; cbn; apply lookup_insert_eq). cbn. by rewrite lookup_insert_eq.
Qed.

(** What the processes have marked is gathered and deregistered. *)
Lemma run_destroy_marked this tag css f rest m :
  fencing this tag css f rest m ->
  exists c l, run (destroyGlobalMemorySlotsCollectiveImpl this tag) m = Done tt (with_fields this c (after (heap m) l m)) /\
    (exists c0 d, managers m !! this = Some c0 /\ c = CommunicationManager.with_to_destroy d c0) /\
    (forall s, reg l !! s = if bool_decide (s ∈ concat (map ids_of css)) then None else reg (lib m) !! s) /\
    noc l = noc (lib m) /\ pending l = [] /\ incoming l = rest /\ kept (lib m) l.
Proof.
  intros [Ha Hp Hf Hself [Hsz Hlen] (c & mine & Hc & Hmine & Hown) Hin Hreg Hw (B1 & B2)].
  unfold destroyGlobalMemorySlotsCollectiveImpl.
  rewrite (run_bind_Done _ _ _ _ _ (run_fetch (fun m => lpf_managers (backend m) !! this) m f Hf)).
  rewrite (run_bind_Done _ _ _ _ _ (run_slots_to_destroy this tag c m Hc)). set (d := <[tag := _]> _). set (slots := default [] _) in *.
  set (c1 := CommunicationManager.with_to_destroy d c). set (m1 := with_fields this c1 m).
  destruct (run_count_array (CHECK lpf_sync) f (Z.of_nat (length slots)) (counts_of css) (drop 1 (incoming (lib m))) m1) as (l1 & E1 & [R1 N1 P1 I1 K1]); try done.
  { apply harmless_sync. }
  { change (lib m1) with (lib m). by rewrite Hin. }
  { unfold counts_of. rewrite list_lookup_fmap. change (lib m1) with (lib m). rewrite Hmine. cbn. by rewrite (Forall2_length _ _ _ Hown). }
  { unfold counts_of. rewrite length_map. done. }
  { unfold counts_of. apply Forall_map, Forall_lookup_2. intros r x Hx. pose proof (length_own (map ids_of css) r (ids_of x)) as Hle.
    rewrite list_lookup_fmap, Hx, length_all_ids, length_ids_of in Hle. specialize (Hle eq_refl). size_lia. }
  change (lib m1) with (lib m) in *. rewrite (run_bind_Done _ _ _ _ _ (E1 : run (destroy_counts f _) m1 = _)). rewrite total_count_small by lia.
  rewrite Hin in I1. match type of I1 with _ = drop 1 (_ :: ?xs) => change (incoming l1 = xs) in I1 end. clear E1 Hin. set (m2 := after (heap m1) l1 m1). exists c1. case_bool_decide as Hnone.
  - rewrite Hnone. cbn [length Z.of_nat Z.eqb]. exists l1. split; [done|]. split; [by exists c, d|]. split_and!; try done.
    intros s. rewrite R1. rewrite bool_decide_false; [done|]. intros (x & Hx & Hin')%list_elem_of_In%in_concat.
    apply in_map_iff in Hx as (y & <- & Hy). apply concat_nil_Forall in Hnone. rewrite List.Forall_forall in Hnone. by rewrite (Hnone y Hy) in Hin'.
  - rewrite (proj2 (Z.eqb_neq _ _)) by (destruct (concat css); [done|cbn; lia]).
    rewrite (run_bind_Done _ _ _ _ _ (run_local_ids slots mine m2 Hown)).
    destruct (run_gather_array SIZEOF_MEMSLOT f (ids_of mine) (total_count (counts_of css) *w 2)
      (counts_in_bytes SIZEOF_SIZE_T (counts_in_bytes 2 (counts_of css))) (Z.of_nat SIZEOF_MEMSLOT *w (total_count (counts_of css) *w 2))
      (map ids_of css) rest m2) as (l2 & E2 & [R2 N2 P2 I2 K2]); try done; change (lib m2) with l1 in *.
    { by eapply kept_available. }
    { by rewrite (kept_self _ _ K1), list_lookup_fmap, Hmine. }
    { rewrite id_counts by lia. change SIZEOF_SIZE_T with (Z.of_nat 8). rewrite counts_in_bytes_small by (rewrite length_all_ids; lia). by rewrite Hw. }
    { rewrite total_count_small, wrap64_small, length_all_ids by size_lia. lia. }
    { rewrite Hw, length_all_ids. lia. }
    { rewrite Hw. apply Forall_lookup_2. intros k s Hs. by apply Hreg; eapply list_elem_of_lookup_2. }
    rewrite (run_bind_Done _ _ _ _ _ (E2 : run (gather_ids f _ _) m2 = _)). destruct (key_set_spec (concat (map ids_of css))) as (_ & Hnd & Hset).
    destruct (run_deregister_all (MpiCommunicationManager.key_set (concat (map ids_of css))) (after (heap m2) l2 m2) Hnd) as (l3 & E3 & R3 & N3 & P3 & I3 & K3).
    { intros s Hs. cbn. rewrite R2, R1. apply Hreg. by apply Hset. }
    cbn in R3, N3, P3, I3, K3. exists l3. rewrite E3. split; [unfold m2; cbn; by rewrite !after_twice|]. split; [by exists c, d|]. split_and!; try congruence.
    + intros s. rewrite R3, R2, R1. by rewrite (bool_decide_ext _ _ (Hset s)).
    + by rewrite I3, I2, I1.
    + eapply kept_trans; [exact K1|]. by eapply kept_trans.
Qed.

(** C20: A fence on a tag over LPF: every library slot of a global slot that any process
    has marked is deregistered, the other registrations and the memory stay, and
    nothing is marked any more. *)
Theorem lpf_fence_destroys this tag css f rest m :
  fencing this tag css f rest m ->
  exists m' c, run (CommunicationManager.fence this tag) m = Done tt m' /\
    (forall s, reg (lib m') !! s = if bool_decide (s ∈ concat (map ids_of css)) then None else reg (lib m) !! s) /\
    managers m' !! this = Some c /\ CommunicationManagerFields._globalMemorySlotsToDestroyPerTag c !! tag = None /\
    (forall tag' key, registered_slot this tag' key m' = registered_slot this tag' key m) /\
    heap m' = heap m /\ locals m' = locals m /\ globals m' = globals m /\ lpf_globals (backend m') = lpf_globals (backend m) /\
    incoming (lib m') = rest /\ pending (lib m') = [].
Proof.
  intros H. pose proof (fc_pending _ _ _ _ _ _ H) as Hp. destruct (sync_ok (heap m) (lib m) Hp) as (l1 & E1 & R1 & N1 & P1 & I1 & K1).
  assert (H1 : fencing this tag css f rest (after (heap m) l1 m)).
  { destruct H as [Ha _ Hf Hself Hsz Hown Hin Hreg Hw HB]. pose proof K1 as (S1 & Q1 & A1 & _).
    split; cbn; rewrite ?S1, ?Q1, ?R1, ?I1; try done. by apply A1. }
  destruct (run_destroy_marked _ _ _ _ _ _ H1) as (c & l & E & (c0 & d & Hc0 & ->) & R & N & P & I & K). cbn in R, N, I, K.
  eexists _, _. split.
  - unfold CommunicationManager.fence. erewrite run_bind_Done.
    2:{ change (fenceImplTag this tag) with (LpfCommunicationManager.fenceImpl this tag). unfold fenceImpl.
        rewrite (run_bind_Done _ _ _ _ _ (run_CHECK _ _ _ _ E1)). exact E. }
    cbv beta. apply run_update. cbn. rewrite lookup_insert_eq. reflexivity.
  - cbn. split_and!; try done; [intros s; rewrite R; by rewrite R1|apply lookup_insert_eq|cbn; apply lookup_delete_eq|].
    intros tag' key. unfold registered_slot. cbn. rewrite lookup_insert_eq. cbn in Hc0. by rewrite Hc0.
Qed.

End Destroy.
