(* ===== verification/LpfMemory.v ===== *)
(** * The LPF backend: the memory manager

    Models [backends/lpf/memoryManager.hpp].  Memory comes from [malloc], whose
    answers and blocks are those of the state of [HwlocMemoryManager], and is
    registered with the library.

    [allocateLocalMemorySlotImpl] calls [increaseUsage] on the memory space.  No
    class of the repository has such a member; it is the class [SpaceUsage] here.

    The last section is the object store over LPF: [object_transfer] follows an
    object from its owner to another process. *)

From S2P Require Import Prelude Memory CommunicationManager HwlocTopology MemoryManager ObjectStore Mpi Lpf LpfSpec LpfCopies.
From Stdlib Require Import ZArith Lia.
From Stdlib.Strings Require Import Byte.
From stdpp Require Import base list gmap option.

Local Open Scope Z_scope.
Local Open Scope hicr_scope.

(** The accounting of a memory space, which changes neither the memory nor the slots. *)
Class SpaceUsage (X Y : Type) : Type := {
  increaseUsage : space_ref -> Z -> prog (Machine X * Y) unit;
  increaseUsage_ok : forall r n st, run (increaseUsage r n) st = Done tt st
}.

Module LpfMemoryManager.
Import Lpf.

Section Operations.
Context {L : Type} {M : LPF L}.

Abbreviation state := (Machine (Lpf.t L) * HwlocMemoryManager.t)%type (only parsing).

Definition MIN_BYTES : Z := 32.

Definition registerLocalMemorySlotImpl (memorySpace : space_ref) (p : ptr) (size : Z) : prog state nat :=
  match memorySpace with
  | other_space _ => Raise logic
  | hwloc_space _ _ =>
      lpfSlot ← on_fst (CHECK_value (lpf_register_local p size));
      on_fst (new_local_slot lpfSlot p size (Some (space_id memorySpace)))
  end.

(** The status of the deregistration is not looked at. *)
Definition deregisterLocalMemorySlotImpl (memorySlot : nat) : prog state unit :=
  s ← on_fst (cast_local memorySlot);
  slot ← or_throw logic s;
  _ ← on_fst (call (lpf_deregister (LpfLocalSlot.getLPFSlot slot)));
  mret tt.

Definition allocateLocalMemorySlotImpl `{SpaceUsage (Lpf.t L) HwlocMemoryManager.t} (memorySpace : space_ref) (size : Z) : prog state nat :=
  match memorySpace with
  | other_space _ => Raise logic
  | hwloc_space _ _ =>
      let newSize := Z.max size MIN_BYTES in
      p ← HwlocMemoryManager.allocate_block HwlocMemoryManager.Malloc newSize;
      _ ← throw_if (bool_decide (p = nullptr)) runtime;
      _ ← increaseUsage memorySpace (newSize -w size);
      registerLocalMemorySlotImpl memorySpace p newSize
  end.

(** The second check of the code looks at the slot again, not at its pointer. *)
Definition freeLocalMemorySlotImpl (memorySlot : nat) : prog state unit :=
  s ← on_fst (cast_local memorySlot);
  slot ← or_throw logic s;
  p ← on_fst (getPointer memorySlot);
  _ ← deregisterLocalMemorySlotImpl memorySlot;
  HwlocMemoryManager.std_free p.

(** Its virtual operations; a backend is chosen where it is used, since the hwloc
    manager has the same state. *)
Definition lpf_memory `{SpaceUsage (Lpf.t L) HwlocMemoryManager.t} : MemoryBackend (Lpf.t L) HwlocMemoryManager.t := {|
  MemoryManager.allocateLocalMemorySlotImpl := allocateLocalMemorySlotImpl;
  MemoryManager.registerLocalMemorySlotImpl := registerLocalMemorySlotImpl;
  MemoryManager.deregisterLocalMemorySlotImpl := deregisterLocalMemorySlotImpl;
  MemoryManager.memsetImpl := MemoryManager.default_memsetImpl;
  MemoryManager.freeLocalMemorySlotImpl := freeLocalMemorySlotImpl
|}.

End Operations.
End LpfMemoryManager.

Section Allocation.
Context {L : Type} {M : LPF L} {Sp : LpfSpec L} `{SpaceUsage (Lpf.t L) HwlocMemoryManager.t}.
Implicit Types (m : Machine (Lpf.t L)) (o : HwlocMemoryManager.t) (l : L).
Import Lpf LpfMemoryManager.
#[local] Existing Instance lpf_memory | 0.

Abbreviation lib m := (Lpf.library (backend m)) (only parsing).

(** A slot is made for memory that the library has registered. *)
Lemma run_register_memory id sp p size m o :
  available (lib m) -> 0 <= size ->
  exists s i b l, let r := hwloc_space id sp in
    run (MemoryManager.registerLocalMemorySlot r p size) (m, o) =
      Done i (set_backend (set_locals (<[i := LpfLocalSlot.mk s (Ptr b 0)]> (lpf_locals (backend m))) (backend (after (heap m) l m)))
               (Memory.set_locals (<[i := LocalMemorySlot.make p size (Some id)]> (locals m)) (after (<[b := replicate 8 x00]> (heap m)) l m)), o) /\
    locals m !! i = None /\ heap m !! b = None /\ reg (lib m) !! s = None /\ s <> LPF_INVALID_MEMSLOT /\ reg l = <[s := (p, size)]> (reg (lib m)) /\
    kept (lib m) l /\ noc l = noc (lib m) /\ sent l s = 0 /\ rcvd l s = 0.
Proof.
  intros Ha Hs. destruct (register_local_ok p size (heap m) (lib m) Ha Hs) as (s & l & E & F & V & R & N & P & I & K).
  destruct (register_counts _ _ _ _ _ _ _ E) as [C1 C2].
  exists s, (fresh (dom (locals m))), (fresh (dom (heap m))), l. split.
  - unfold MemoryManager.registerLocalMemorySlot. change (MemoryManager.registerLocalMemorySlotImpl (hwloc_space id sp) p size) with (LpfMemoryManager.registerLocalMemorySlotImpl (hwloc_space id sp) p size).
    unfold LpfMemoryManager.registerLocalMemorySlotImpl. rewrite (run_bind_Done _ _ _ _ _ (run_on_fst_Done _ _ _ _ _ (run_CHECK_value _ _ _ _ _ E))).
    reflexivity.
  - split_and!; try done; apply not_elem_of_dom, is_fresh.
Qed.

(** The block that [malloc] gives. *)
Definition grown_heap (size : Z) (content : list byte) m : Machine (Lpf.t L) :=
  set_heap (<[fresh (dom (heap m)) := resize (Z.to_nat (Z.max size MIN_BYTES)) x00 content]> (heap m)) m.

Definition grown_origins (rest : list (option (list byte))) m o : HwlocMemoryManager.t :=
  HwlocMemoryManager.mk (HwlocMemoryManager._hwlocBindingRequested o) (HwlocMemoryManager.bindings o)
    (<[fresh (dom (heap m)) := HwlocMemoryManager.Malloc]> (HwlocMemoryManager.origins o)) rest (HwlocMemoryManager.releases o).

(** With a block, an allocation is the registration of at least 32 bytes. *)
Lemma run_allocate_block id sp size content rest m o :
  HwlocMemoryManager.allocations o = Some content :: rest ->
  run (MemoryManager.allocateLocalMemorySlot (hwloc_space id sp) size) (m, o) =
  run (MemoryManager.registerLocalMemorySlot (hwloc_space id sp) (Ptr (fresh (dom (heap m))) 0) (Z.max size MIN_BYTES)) (grown_heap size content m, grown_origins rest m o).
Proof.
  intros Ho. unfold MemoryManager.allocateLocalMemorySlot.
  change (MemoryManager.allocateLocalMemorySlotImpl (hwloc_space id sp) size) with (LpfMemoryManager.allocateLocalMemorySlotImpl (hwloc_space id sp) size).
  unfold LpfMemoryManager.allocateLocalMemorySlotImpl. cbv zeta.
  erewrite run_bind_Done by (unfold HwlocMemoryManager.allocate_block; cbn [run]; rewrite Ho; reflexivity).
  erewrite run_bind_Done by (apply run_throw_if_false; by apply bool_decide_false). by rewrite (run_bind_Done _ _ _ _ _ (increaseUsage_ok _ _ _)).
Qed.

(** The allocated slot is known to the library and has moved no messages. *)
Lemma run_allocate_attached id sp size content rest m o :
  available (lib m) -> 0 <= size -> HwlocMemoryManager.allocations o = Some content :: rest ->
  exists i b s q m1 o1, run (MemoryManager.allocateLocalMemorySlot (hwloc_space id sp) size) (m, o) = Done i (m1, o1) /\
    HwlocMemoryManager.allocations o1 = rest /\ HwlocMemoryManager.origins o1 !! b = Some HwlocMemoryManager.Malloc /\
    heap m !! b = None /\ locals m !! i = None /\ reg (lib m) !! s = None /\ attached i s (Ptr b 0) (Z.max size MIN_BYTES) m1 /\
    lpf_locals (backend m1) !! i = Some (LpfLocalSlot.mk s q) /\ reg (lib m1) = <[s := (Ptr b 0, Z.max size MIN_BYTES)]> (reg (lib m)) /\
    heap m ⊆ heap m1 /\ (exists c, heap m1 !! b = Some c /\ Z.of_nat (length c) = Z.max size MIN_BYTES) /\ locals m ⊆ locals m1 /\ globals m1 = globals m /\
    lpf_globals (backend m1) = lpf_globals (backend m) /\ kept (lib m) (lib m1) /\ noc (lib m1) = noc (lib m).
Proof.
  intros Ha Hs Ho. rewrite (run_allocate_block id sp size content rest m o Ho). set (b := fresh (dom (heap m))). set (m0 := grown_heap size content m).
  assert (Hb : heap m !! b = None) by (apply not_elem_of_dom, is_fresh). assert (Hn : 0 <= Z.max size MIN_BYTES) by (unfold MIN_BYTES; lia).
  destruct (run_register_memory id sp (Ptr b 0) (Z.max size MIN_BYTES) m0 (grown_origins rest m o) Ha Hn)
    as (s & i & w & l & E & Hi & Hw & F & V & R & K & N & C1 & C2).
  cbn zeta in E. set (m1 := set_backend _ _) in E. change (lib m0) with (lib m) in *.
  assert (Hb0 : heap m0 !! b = Some (resize (Z.to_nat (Z.max size MIN_BYTES)) x00 content)) by apply lookup_insert_eq.
  assert (Hbw : b <> w) by congruence.
  eexists i, b, s, _, m1, _. split; [exact E|]. split_and!; try done.
  - apply lookup_insert_eq.
  - split; try done.
    + eexists. cbn. rewrite lookup_insert_eq. split_and!; [done|done|done|by rewrite C1|by rewrite C2].
    + eexists. cbn. by rewrite lookup_insert_eq.
    + change (lib m1) with l. by rewrite R, lookup_insert_eq.
    + change (lib m1) with l. rewrite C1, C2. size_lia.
  - apply lookup_insert_eq.
  - cbn. etrans; [apply (insert_subseteq _ b); exact Hb|]. by apply insert_subseteq.
  - eexists. cbn. rewrite lookup_insert_ne by done. split; [apply lookup_insert_eq|]. rewrite length_resize. lia.
  - by apply insert_subseteq.
Qed.

(** A slot is freed: deregistered, and its block released. *)
Lemma run_free_memory i s q b n c m o :
  lpf_locals (backend m) !! i = Some (LpfLocalSlot.mk s q) -> slot_at m i (Ptr b 0) n -> heap m !! b = Some c ->
  HwlocMemoryManager.origins o !! b = Some HwlocMemoryManager.Malloc -> is_Some (reg (lib m) !! s) ->
  exists l o', run (MemoryManager.freeLocalMemorySlot i) (m, o) = Done tt (set_heap (delete b (heap m)) (after (heap m) l m), o') /\
    reg l = delete s (reg (lib m)) /\ noc l = noc (lib m) /\ HwlocMemoryManager.origins o' !! b = None.
Proof.
  intros Hl Hs Hb Ho Hr. destruct (deregister_ok s (heap m) (lib m) Hr) as (l2 & E2 & R2 & N2 & _).
  eexists l2, _. split; [|split; [exact R2|split; [exact N2|]]].
  - unfold MemoryManager.freeLocalMemorySlot. change (MemoryManager.freeLocalMemorySlotImpl i) with (LpfMemoryManager.freeLocalMemorySlotImpl i).
    unfold LpfMemoryManager.freeLocalMemorySlotImpl, LpfMemoryManager.deregisterLocalMemorySlotImpl.
    assert (Hc : run (on_fst (cast_local i)) (m, o) = Done (Some (LpfLocalSlot.mk s q)) (m, o)) by (cbn; by rewrite Hl).
    rewrite (run_bind_Done _ _ _ _ _ Hc). cbn [or_throw]. rewrite (run_bind_Done _ _ _ _ _ (run_ret _ (m, o))).
    erewrite run_bind_Done by (apply run_on_fst_Done; eapply run_getPointer; exact Hs).
    erewrite run_bind_Done.
    2:{ rewrite (run_bind_Done _ _ _ _ _ Hc). cbn [or_throw]. rewrite (run_bind_Done _ _ _ _ _ (run_ret _ (m, o))).
        erewrite run_bind_Done; [reflexivity|]. apply run_on_fst_Done. rewrite run_lpf_call. cbn [LpfLocalSlot.getLPFSlot LpfLocalSlot._lpfMemSlot]. rewrite E2. reflexivity. }
    unfold HwlocMemoryManager.std_free. rewrite bool_decide_false by done. apply run_update. unfold HwlocMemoryManager.block_of. cbn.
    rewrite bool_decide_true; [reflexivity|]. split_and!; [done|done|]. by rewrite Hb.
  - cbn. apply lookup_delete_eq.
Qed.

(** A slot allocated by the LPF memory manager has the requested bytes, and at least
    32, in a block of its own that is registered with the library; freeing it
    deregisters and releases the block, and everything else is as it was. *)
Theorem lpf_allocate_free id sp size content rest m o :
  available (lib m) -> 0 <= size -> HwlocMemoryManager.allocations o = Some content :: rest ->
  exists i b s m1 o1 m2 o2,
    run (MemoryManager.allocateLocalMemorySlot (hwloc_space id sp) size) (m, o) = Done i (m1, o1) /\
    heap m !! b = None /\ locals m !! i = None /\ slot_at m1 i (Ptr b 0) (Z.max size 32) /\ accessible (heap m1) (Ptr b 0) (Z.max size 32) /\
    reg (lib m1) = <[s := (Ptr b 0, Z.max size 32)]> (reg (lib m)) /\ reg (lib m) !! s = None /\ heap m ⊆ heap m1 /\ locals m ⊆ locals m1 /\
    run (MemoryManager.freeLocalMemorySlot i) (m1, o1) = Done tt (m2, o2) /\
    heap m2 = delete b (heap m1) /\ heap m ⊆ heap m2 /\ reg (lib m2) = reg (lib m) /\ HwlocMemoryManager.origins o2 !! b = None.
Proof.
  intros Ha Hs Ho.
  destruct (run_allocate_attached id sp size content rest m o Ha Hs Ho)
    as (i & b & s & q & m1 & o1 & E & _ & Ho1 & Hb & Hi & F & Hat & Hl & R & Hh & (c & Hc & Hlen) & Hsub & _).
  destruct (run_free_memory i s q b _ c m1 o1 Hl (attached_slot_at _ _ _ _ _ Hat) Hc Ho1) as (l2 & o2 & E2 & R2 & _ & Ho2);
    [rewrite R, lookup_insert_eq; by eexists|].
  exists i, b, s, m1, o1, (set_heap (delete b (heap m1)) (after (heap m1) l2 m1)), o2. split; [exact E|]. split_and!; try done.
  - by eapply attached_slot_at.
  - unfold accessible. rewrite (mem_load_block _ _ _ _ Hc); [by eexists|done].
  - cbn. apply map_subseteq_spec. intros k x Hk. rewrite lookup_delete_ne by (intros ->; congruence). by eapply lookup_weaken.
  - cbn. rewrite R2, R. by apply delete_insert_id.
Qed.

(** The other ends of an allocation.  A memory space of another backend is a logic
    error, a refused [malloc] a runtime error, and neither changes anything; when the
    registration fails, the block stays allocated and no slot refers to it. *)
Theorem lpf_allocate_errors r size m o :
  match r, HwlocMemoryManager.allocations o with
  | other_space _, _ => run (MemoryManager.allocateLocalMemorySlot r size) (m, o) = Thrown logic (m, o)
  | hwloc_space id sp, Some content :: rest =>
      forall status s h l, status <> LPF_SUCCESS ->
        run (lpf_register_local (Ptr (fresh (dom (heap m))) 0) (Z.max size 32)) (heap (grown_heap size content m), lib m) = Done (status, s) (h, l) ->
        run (MemoryManager.allocateLocalMemorySlot r size) (m, o) = Thrown runtime (after h l m, grown_origins rest m o)
  | hwloc_space id sp, _ => exists o', run (MemoryManager.allocateLocalMemorySlot r size) (m, o) = Thrown runtime (m, o') /\
      HwlocMemoryManager.origins o' = HwlocMemoryManager.origins o
  end.
Proof.
  destruct r as [id sp|]; [|done]. destruct o as [rq bi ori [|[content|] rest] rel]; [by eexists| |by eexists].
  intros status s h l Hst E. cbn [HwlocMemoryManager.allocations]. rewrite (run_allocate_block id sp size content rest) by done.
  unfold MemoryManager.registerLocalMemorySlot.
  change (MemoryManager.registerLocalMemorySlotImpl (hwloc_space id sp)) with (LpfMemoryManager.registerLocalMemorySlotImpl (hwloc_space id sp)).
  unfold LpfMemoryManager.registerLocalMemorySlotImpl, CHECK_value. rewrite run_bind.
  erewrite run_on_fst. rewrite run_bind, run_lpf_call. change (Z.max size MIN_BYTES) with (Z.max size 32). change (lib (grown_heap size content m)) with (lib m).
  rewrite E. cbn. by rewrite (proj2 (Z.eqb_neq _ _) Hst).
Qed.

End Allocation.

(** ** Objects between two processes

    The object store over LPF.  The copy that [get] starts is complete after the
    fence of the object. *)

Section Objects.
Context {L : Type} {M : LPF L} {Sp : LpfSpec L} `{SpaceUsage (Lpf.t L) HwlocMemoryManager.t}.
Implicit Types (m : Machine (Lpf.t L)) (y : HwlocMemoryManager.t) (w : ObjectStore.world) (d : DataObject.t) (bytes : list byte).
Import Lpf LpfMemoryManager.
#[local] Existing Instance lpf_memory | 0.

Abbreviation lib m := (Lpf.library (backend m)) (only parsing).

(** The block of an object is in the slot [l], in a memory block [b] of its own,
    and whatever was there before is unchanged. *)
Record received d bytes (l b : nat) m m' : Prop := mkReceived {
  rv_block : heap m !! b = None;
  rv_local : locals m !! l = None;
  rv_slot : slot_at m' l (Ptr b 0) (Z.max (DataObject._size d) MIN_BYTES);
  rv_bytes : mem_load (heap m') (Ptr b 0) (DataObject._size d) = Some bytes;
  rv_heap : forall q n, accessible (heap m) q n -> mem_load (heap m') q n = mem_load (heap m) q n;
  rv_locals : locals m ⊆ locals m'
}.

Lemma mem_load_weaken (h h' : memory) q n x : h ⊆ h' -> mem_load h q n = Some x -> mem_load h' q n = Some x.
Proof.
  intros Hsub. destruct q as [|b o]; [done|]. cbn. destruct (h !! b) as [c|] eqn:E; [|done].
  by rewrite (lookup_weaken _ _ _ _ E Hsub).
Qed.

Lemma foreign_kept g r x bytes m m' :
  lpf_globals (backend m') = lpf_globals (backend m) -> kept (lib m) (lib m') -> foreign g r x bytes m -> foreign g r x bytes m'.
Proof. intros Hg (Hs & _ & Ha & Hr & _) [Hw A R Hb]. split; rewrite ?Hg, ?Hs, ?Hr; auto. Qed.

(** A store in a new block. *)
Lemma new_block_frame (h h1 h2 : memory) b bytes q n :
  h ⊆ h1 -> h !! b = None -> mem_store h1 (Ptr b 0) bytes = Some h2 -> accessible h q n -> mem_load h2 q n = mem_load h q n.
Proof.
  intros Hsub Hb Hst [x Hx]. rewrite (mem_load_store_disjoint _ _ _ _ q n Hst).
  - rewrite Hx. by eapply mem_load_weaken.
  - destruct q as [|b' o']; [done|]. left. intros <-. unfold mem_load in Hx. by rewrite Hb in Hx.
Qed.

(** The first [get] of an object of another process, and the fence of the object. *)
Lemma run_get_and_fence s id sp o d g r x bytes content rest m y w :
  ObjectStore._memorySpace s = hwloc_space id sp -> HwlocMemoryManager.allocations y = Some content :: rest ->
  ObjectStore.objects w !! o = Some d -> DataObject._localSlot d = None -> DataObject._globalSlot d = Some g ->
  DataObject._size d = Z.of_nat (length bytes) -> is_size (DataObject._size d) -> foreign g r x bytes m ->
  exists l b t q m1 m2 y1, run (ObjectStore.get s o) ((m, y), w) = Done l ((m1, y1), fetched s o l d w) /\
    run (ObjectStore.fence_object s o) ((m1, y1), fetched s o l d w) = Done true ((m2, y1), fetched s o l d w) /\
    received d bytes l b m m2 /\ foreign g r x bytes m2 /\
    HwlocMemoryManager.allocations y1 = rest /\ HwlocMemoryManager.origins y1 !! b = Some HwlocMemoryManager.Malloc /\
    is_Some (heap m2 !! b) /\ lpf_globals (backend m2) = lpf_globals (backend m) /\ lpf_locals (backend m2) !! l = Some (LpfLocalSlot.mk t q) /\
    reg (lib m) !! t = None /\ reg (lib m2) = <[t := (Ptr b 0, Z.max (DataObject._size d) MIN_BYTES)]> (reg (lib m)) /\ noc (lib m2) = noc (lib m).
Proof.
  intros Hsp Hal Ho Hl Hg Hsz Hs Hf.
  destruct (run_allocate_attached id sp (DataObject._size d) content rest m y (fo_available _ _ _ _ _ Hf) (proj1 Hs) Hal)
    as (l & b & t & q & m0 & y1 & E0 & Hy1 & Hor & Hb & Hi & Ft & Hat & Hq & R & Hsub & (c & Hc & Hlen) & Hls & Hgl & Hlg & K & N).
  pose proof (foreign_kept _ _ _ _ m m0 Hlg K Hf) as Hf0. set (n := DataObject._size d) in *.
  assert (Hmax : n <= Z.max n MIN_BYTES) by lia.
  destruct (mem_store_accessible (heap m0) (Ptr b 0) bytes) as [h Hst].
  { apply accessible_iff. exists c. split; [done|]. lia. }
  destruct (run_lpf_get_parts (ObjectStore._communicationManager s) g r x 0 l t (Ptr b 0) (Z.max n MIN_BYTES) 0 n bytes bytes h m0)
    as (h1 & l1 & l2 & E1 & E2 & F2 & R2 & _ & _ & N2); [done|done|lia|lia|lia|size_lia|lia| |exact Hst|].
  { rewrite Hsz, Nat2Z.id. unfold read_at. rewrite bool_decide_true by (cbn; lia). by rewrite drop_0, firstn_all. }
  eexists l, b, t, q, _, _, y1. split; [|split; [eapply run_fence_object; [apply fetched_object|done|exact E2]|]].
  { eapply run_get_new; [done|done|done|by rewrite Hsp|exact E1]. }
  split; [|split_and!; try done].
  - split; try done.
    + destruct (at_local _ _ _ _ _ Hat) as (z & Hz & Hp & Hn & _). eexists. cbn. rewrite lookup_alter_eq, Hz. done.
    + fold n. rewrite Hsz. by apply mem_load_store_same in Hst.
    + intros p k Hp. by eapply new_block_frame.
    + cbn. apply map_subseteq_spec. intros j z Hj. rewrite lookup_alter_ne by (intros <-; congruence). by eapply lookup_weaken.
  - cbn. apply mem_store_inv in Hst as (c1 & c2 & _ & _ & _ & ->). rewrite lookup_insert_eq. by eexists.
  - cbn. by rewrite R2, R.
  - cbn. by rewrite N2, N.
Qed.





(** Two objects made of the same handle do not share memory: when a process gets
    both, it has two slots with two blocks, one copy of the content each. *)
Theorem get_copies_differ s id sp o1 o2 d g r x bytes c1 c2 rest m y w :
  ObjectStore._memorySpace s = hwloc_space id sp -> HwlocMemoryManager.allocations y = Some c1 :: Some c2 :: rest ->
  o1 <> o2 -> ObjectStore.objects w !! o1 = Some d -> ObjectStore.objects w !! o2 = Some d ->
  DataObject._localSlot d = None -> DataObject._globalSlot d = Some g ->
  DataObject._size d = Z.of_nat (length bytes) -> is_size (DataObject._size d) -> foreign g r x bytes m ->
  exists l1 b1 m1 y1 w1 l2 b2 m2 y2 w2,
    run (l ← ObjectStore.get s o1; _ ← ObjectStore.fence_object s o1; mret l) ((m, y), w) = Done l1 ((m1, y1), w1) /\
    run (l ← ObjectStore.get s o2; _ ← ObjectStore.fence_object s o2; mret l) ((m1, y1), w1) = Done l2 ((m2, y2), w2) /\
    l1 <> l2 /\ b1 <> b2 /\ slot_at m1 l1 (Ptr b1 0) (Z.max (DataObject._size d) MIN_BYTES) /\ slot_at m2 l2 (Ptr b2 0) (Z.max (DataObject._size d) MIN_BYTES) /\
    mem_load (heap m2) (Ptr b1 0) (DataObject._size d) = Some bytes /\ mem_load (heap m2) (Ptr b2 0) (DataObject._size d) = Some bytes.
Proof.
  intros Hsp Hal Hne H1 H2 Hl Hg Hsz Hs Hf.
  destruct (run_get_and_fence s id sp o1 d g r x bytes c1 _ m y w Hsp Hal H1 Hl Hg Hsz Hs Hf)
    as (l1 & b1 & t1 & q1 & ma & m1 & y1 & Ea & Eb & [] & Hf1 & Hal1 & _).
  destruct (run_get_and_fence s id sp o2 d g r x bytes c2 rest m1 y1 (fetched s o1 l1 d w) Hsp Hal1) as (l2 & b2 & t2 & q2 & mb & m2 & y2 & Ec & Ed & [] & _);
    [by apply fetched_other|done..|].
  eexists l1, b1, m1, y1, _, l2, b2, m2, y2, _. split_and!; try done.
  - by rewrite (run_bind_Done _ _ _ _ _ Ea), (run_bind_Done _ _ _ _ _ Eb).
  - by rewrite (run_bind_Done _ _ _ _ _ Ec), (run_bind_Done _ _ _ _ _ Ed).
  - intros <-. destruct rv_slot0 as (z & Hz & _). congruence.
  - intros <-. unfold mem_load in rv_bytes0. by rewrite rv_block1 in rv_bytes0.
  - rewrite rv_heap1; [done|by exists bytes].
Qed.

(** Fetching a block of another instance and destroying the object gives back the
    memory and the registrations, of the slot and of the deserialized slot, and
    leaves no entry in the store. *)
Theorem get_destroy s id sp o d g r x bytes content rest m y w :
  ObjectStore._memorySpace s = hwloc_space id sp -> HwlocMemoryManager.allocations y = Some content :: rest ->
  DataObject._instanceId d <> ObjectStore._instanceId s -> ObjectStore.objects w !! o = Some d ->
  DataObject._localSlot d = None -> DataObject._globalSlot d = Some g ->
  DataObject._size d = Z.of_nat (length bytes) -> is_size (DataObject._size d) -> foreign g r x bytes m ->
  lpf_globals (backend m) !! g = Some (LpfGlobalSlot.mk r x LPF_INVALID_MEMSLOT) -> is_Some (noc (lib m) !! x) ->
  exists b m' y' w', run (_ ← ObjectStore.get s o; _ ← ObjectStore.fence_object s o; ObjectStore.destroy s o) ((m, y), w) = Done tt ((m', y'), w') /\
    heap m' !! b = None /\ (forall q n, accessible (heap m) q n -> mem_load (heap m') q n = mem_load (heap m) q n) /\
    reg (lib m') = reg (lib m) /\ noc (lib m') = delete x (noc (lib m)) /\
    default ∅ (ObjectStore._globalObjects w' !! ObjectStore.self s) !! ObjectStore.compoundId d = None.
Proof.
  intros Hsp Hal Hi Ho Hl Hg Hsz Hs Hf Hlg Hx.
  destruct (run_get_and_fence s id sp o d g r x bytes content rest m y w Hsp Hal Ho Hl Hg Hsz Hs Hf)
    as (l & b & t & q & m1 & m2 & y1 & E1 & E2 & [] & Hf2 & _ & Hor & [c Hc] & Hlg2 & Hq & Ft & R & N).
  destruct (run_free_memory l t q b _ c m2 y1 Hq rv_slot0 Hc Hor) as (l3 & y3 & E3 & R3 & N3 & _); [rewrite R, lookup_insert_eq; by eexists|].
  set (m3 := set_heap _ _) in E3. destruct (noc_deregister_ok x (heap m3) (lib m3)) as (l4 & E4 & N4 & R4 & _);
    [change (lib m3) with l3; by rewrite N3, N|]. change (lib m3) with l3 in N4, R4.
  assert (E5 : run (LpfCommunicationManager.destroyPromotedGlobalMemorySlot (ObjectStore._communicationManager s) g) m3 = Done tt (after (heap m3) l4 m3)).
  { unfold LpfCommunicationManager.destroyPromotedGlobalMemorySlot. assert (Hm3 : lpf_globals (backend m3) !! g = Some (LpfGlobalSlot.mk r x LPF_INVALID_MEMSLOT)) by (cbn; by rewrite Hlg2).
    erewrite run_bind_Done by (unfold cast_global, gets; cbn [run]; rewrite Hm3; reflexivity). cbn [or_throw].
    rewrite (run_bind_Done _ _ _ _ _ (run_ret _ m3)), (run_bind_Done _ _ _ _ _ (run_CHECK _ _ _ _ E4)). cbn [LpfGlobalSlot.getLPFSwapSlot LpfGlobalSlot._lpfSwapSlot].
    by rewrite Z.eqb_refl. }
  eexists b, _, y3, _. split; [rewrite (run_bind_Done _ _ _ _ _ E1), (run_bind_Done _ _ _ _ _ E2);
    apply (run_destroy_fetched (P := lpf_promotion) s o (DataObject.set_localSlot l d) l g m2 y1 _ m3 y3 _ (fetched_object _ _ _ _ _) Hi eq_refl Hg E3 E5)|].
  split_and!.
  - cbn. apply lookup_delete_eq.
  - intros p n Hp. rewrite <- rv_heap0 by done. destruct p as [|b' o']; [done|]. cbn. rewrite lookup_delete_ne; [done|].
    intros <-. destruct Hp as [? Hp]. unfold mem_load in Hp. by rewrite rv_block0 in Hp.
  - cbn. rewrite R4, R3, R. by apply delete_insert_id.
  - cbn. by rewrite N4, N3, N.
  - cbn. rewrite !lookup_insert_eq. apply lookup_delete_eq.
Qed.

End Objects.
