(* ===== verification/LpfDemo.v ===== *)
(** * A small LPF library, and the theorems of the LPF backend on it

    [Wire] is the library as seen by one process: what the other processes
    contribute is fixed in advance, and the memory of their slots is part of the
    state.  It satisfies [LpfSpec], so that the theorems of [LpfExchange.v],
    [LpfCopies.v], [LpfDestroy.v] and [LpfMemory.v] apply to it. *)

From S2P Require Import Prelude Memory CommunicationManager HwlocTopology MemoryManager ObjectStore Mpi Lpf LpfSpec LpfExchange LpfCopies LpfDestroy LpfMemory.
From Stdlib Require Import ZArith Lia.
From Stdlib.Strings Require Import Byte.
From stdpp Require Import base gmap option list sorting countable.

Local Open Scope Z_scope.
Local Open Scope hicr_scope.

#[global] Instance ptr_countable : Countable ptr.
Proof.
  refine (inj_countable' (fun p => match p with nullptr => None | Ptr b o => Some (b, o) end)
            (fun x => match x with None => nullptr | Some (b, o) => Ptr b o end) _). by intros [].
Defined.

#[global] Instance target_eq_dec : EqDecision target.
Proof. solve_decision. Defined.

#[global] Instance target_countable : Countable target.
Proof.
  refine (inj_countable' (fun d => (tg_rank d, tg_pointer d, tg_size d)) (fun '(r, p, n) => mkTarget r p n) _). by intros [].
Defined.

Module Wire.

(** [w_fails]: puts and counting synchronizations answer an error. *)
Record t : Type := mk {
  w_self : Z;
  w_procs : Z;
  w_reg : gmap Z (ptr * Z);
  w_noc : gmap Z target;
  w_pending : list Z;
  w_incoming : list (list byte);
  w_remote : gmap (Z * Z) (list byte);
  w_far : gmap target (list byte);
  w_sent : gmap Z Z;
  w_rcvd : gmap Z Z;
  w_fails : bool
}.

Definition set_reg (x : gmap Z (ptr * Z)) (l : t) : t :=
  mk (w_self l) (w_procs l) x (w_noc l) (w_pending l) (w_incoming l) (w_remote l) (w_far l) (w_sent l) (w_rcvd l) (w_fails l).
Definition set_noc (x : gmap Z target) (l : t) : t :=
  mk (w_self l) (w_procs l) (w_reg l) x (w_pending l) (w_incoming l) (w_remote l) (w_far l) (w_sent l) (w_rcvd l) (w_fails l).
Definition set_gathering (x : list Z) (y : list (list byte)) (l : t) : t :=
  mk (w_self l) (w_procs l) (w_reg l) (w_noc l) x y (w_remote l) (w_far l) (w_sent l) (w_rcvd l) (w_fails l).
Definition set_transfers (x : gmap (Z * Z) (list byte)) (y z : gmap Z Z) (l : t) : t :=
  mk (w_self l) (w_procs l) (w_reg l) (w_noc l) (w_pending l) (w_incoming l) x (w_far l) y z (w_fails l).

Definition INVALID : Z := -1.

Definition sent (l : t) (s : Z) : Z := default 0 (w_sent l !! s).
Definition rcvd (l : t) (s : Z) : Z := default 0 (w_rcvd l !! s).

Definition register (p : ptr) (n : Z) : prog (memory * t) (Z * Z) :=
  Step (fun s =>
          let x := fresh ({[ INVALID ]} ∪ dom (w_reg s.2)) in
          (s.1, set_reg (<[x := (p, n)]> (w_reg s.2)) (set_transfers (w_remote s.2) (delete x (w_sent s.2)) (delete x (w_rcvd s.2)) s.2)))
       (fun s => Ret (0, fresh ({[ INVALID ]} ∪ dom (w_reg s.2)))).

Definition deregister (x : Z) : prog (memory * t) Z :=
  Step (fun s => (s.1, set_reg (delete x (w_reg s.2)) s.2)) (fun _ => Ret 0).

Definition gather (dst : Z) : prog (memory * t) Z :=
  Step (fun s => (s.1, set_gathering (dst :: w_pending s.2) (w_incoming s.2) s.2)) (fun _ => Ret 0).

(** What has been gathered is delivered. *)
Definition deliver (s : memory * t) : memory * t :=
  match w_pending s.2, w_incoming s.2 with
  | dst :: _, bs :: rest => (default s.1 (x ← w_reg s.2 !! dst; mem_store s.1 x.1 bs), set_gathering [] rest s.2)
  | _, _ => s
  end.

Definition sync : prog (memory * t) Z := Step deliver (fun _ => Ret 0).

Definition noc_register (p : ptr) (n : Z) : prog (memory * t) (Z * Z) :=
  Step (fun s => (s.1, set_noc (<[fresh ({[ INVALID ]} ∪ dom (w_noc s.2)) := mkTarget (w_self s.2) p n]> (w_noc s.2)) s.2))
       (fun s => Ret (0, fresh ({[ INVALID ]} ∪ dom (w_noc s.2)))).

Definition noc_deregister (x : Z) : prog (memory * t) Z :=
  Step (fun s => (s.1, set_noc (delete x (w_noc s.2)) s.2)) (fun _ => Ret 0).

(** A slot is serialized as the number that stands for what it refers to, in 24
    bytes when these are enough. *)
Definition slot_number (d : target) : positive := encode d.
Definition slot_image (d : target) : list byte := le_bytes (Nat.max 24 (Pos.size_nat (slot_number d))) (Zpos (slot_number d)).
Definition slot_of_image (bs : list byte) : option target :=
  match le_value bs with Zpos p => decode p | _ => None end.

Definition serialize (x : Z) : prog (memory * t) (Z * list byte) :=
  r ← gets (fun s => slot_image <$> w_noc s.2 !! x);
  mret (match r with Some bs => (0, bs) | None => (1, []) end).

Definition deserialize (bs : list byte) (x : Z) : prog (memory * t) Z :=
  match slot_of_image bs with
  | Some d =>
      Step (fun s =>
              let l := set_noc (<[x := d]> (w_noc s.2)) s.2 in
              (s.1, set_transfers (partial_alter (fun _ => w_far l !! d) (tg_rank d, x) (w_remote l)) (w_sent l) (w_rcvd l) l))
           (fun _ => Ret 0)
  | None => Ret 1
  end.

(** Transfers happen at once, and are counted. *)
Definition put (x sO r d dO n : Z) : prog (memory * t) Z :=
  Step (fun s =>
          match (p ← w_reg s.2 !! x; bs ← mem_load s.1 (ptr_add p.1 sO) n; old ← w_remote s.2 !! (r, d); write_at (Z.to_nat dO) bs old) with
          | Some new => if w_fails s.2 then s
                        else (s.1, set_transfers (<[(r, d) := new]> (w_remote s.2)) (<[x := sent s.2 x + 1]> (w_sent s.2)) (w_rcvd s.2) s.2)
          | None => s
          end)
       (fun s => Ret (if w_fails s.2 then 1 else 0)).

Definition get (r x sO d dO n : Z) : prog (memory * t) Z :=
  Step (fun s =>
          match (p ← w_reg s.2 !! d; bytes ← w_remote s.2 !! (r, x); bs ← read_at (Z.to_nat sO) (Z.to_nat n) bytes; mem_store s.1 (ptr_add p.1 dO) bs) with
          | Some h => (h, set_transfers (w_remote s.2) (w_sent s.2) (<[d := rcvd s.2 d + 1]> (w_rcvd s.2)) s.2)
          | None => s
          end)
       (fun _ => Ret 0).

(** It waits for the expected numbers. *)
Definition counting_sync (x sn rc : Z) : prog (memory * t) Z :=
  failing ← gets (fun s : memory * t => w_fails s.2);
  if (failing : bool) then mret 1 else Await (fun s : memory * t => bool_decide (sent s.2 x = sn /\ rcvd s.2 x = rc)) (Ret 0).

End Wire.

#[global] Instance wire_lpf : LPF Wire.t := {
  LPF_SUCCESS := 0;
  LPF_INVALID_MEMSLOT := Wire.INVALID;
  SIZEOF_PID := 4;
  SIZEOF_MEMSLOT := 8;
  lpf_register_local := Wire.register;
  lpf_register_global := Wire.register;
  lpf_deregister := Wire.deregister;
  lpf_sync := Wire.sync;
  lpf_collectives_init := fun _ _ _ _ _ => Ret (0, 0%nat);
  lpf_collectives_destroy := fun _ => Ret 0;
  lpf_allgather := fun _ _ dst _ _ => Wire.gather dst;
  lpf_allgatherv := fun _ _ dst _ _ => Wire.gather dst;
  lpf_get := Wire.get;
  lpf_put := Wire.put;
  lpf_noc_register := Wire.noc_register;
  lpf_noc_deregister := Wire.noc_deregister;
  lpf_noc_serialize_slot := Wire.serialize;
  lpf_noc_deserialize_slot := Wire.deserialize;
  lpf_counting_sync_per_slot := Wire.counting_sync;
  lpf_sync_per_slot := fun _ => Wire.sync;
  lpf_get_rcvd_msg_count_per_slot := fun x => gets (fun s => (0, Wire.rcvd s.2 x));
  lpf_get_sent_msg_count_per_slot := fun x => gets (fun s => (0, Wire.sent s.2 x));
  lpf_flush_sent := Ret 0;
  lpf_flush_received := Ret 0;
  lpf_lock_slot := fun _ _ _ _ => Ret 0;
  lpf_unlock_slot := fun _ _ _ _ => Ret 0
}.

Lemma pos_size_bound p : Z.pos p < 2 ^ Z.of_nat (Pos.size_nat p).
Proof. induction p; cbn [Pos.size_nat]; rewrite Nat2Z.inj_succ, Z.pow_succ_r by lia; lia. Qed.

Lemma slot_of_slot_image d : Wire.slot_of_image (Wire.slot_image d) = Some d.
Proof.
  unfold Wire.slot_of_image, Wire.slot_image. rewrite le_value_bytes, Z.mod_small.
  - apply decode_encode.
  - split; [lia|]. eapply Z.lt_le_trans; [apply pos_size_bound|]. etransitivity; [|apply (Z.pow_le_mono_l 2 256); lia]. apply Z.pow_le_mono_r; lia.
Qed.

Lemma fresh_slot {A : Type} (R : gmap Z A) (x := fresh ({[ Wire.INVALID ]} ∪ dom R)) : R !! x = None /\ x <> Wire.INVALID.
Proof. pose proof (is_fresh ({[ Wire.INVALID ]} ∪ dom R)) as H. split; [apply not_elem_of_dom|]; set_solver. Qed.

(** It has what the theorems rely on, as long as it does not fail. *)
#[global, refine] Instance wire_spec : LpfSpec Wire.t := {
  self := Wire.w_self;
  procs := Wire.w_procs;
  reg := Wire.w_reg;
  noc := Wire.w_noc;
  pending := Wire.w_pending;
  incoming := Wire.w_incoming;
  encodes := fun bs d => bs = Wire.slot_image d;
  remote := fun l r s => Wire.w_remote l !! (r, s);
  far := fun l d => Wire.w_far l !! d;
  available := fun l => Wire.w_fails l = false;
  sent := Wire.sent;
  rcvd := Wire.rcvd
}.
Proof.
  - intros p n h l Ha Hn. eexists _, _. split; [reflexivity|]. destruct (fresh_slot (Wire.w_reg l)). by split_and!.
  - intros p n h h' l l' s [= <- _ <-]. unfold Wire.sent, Wire.rcvd. cbn. by rewrite !lookup_delete_eq.
  - intros p n h l Ha Hn. eexists _, _. split; [reflexivity|]. destruct (fresh_slot (Wire.w_reg l)). by split_and!.
  - intros s h l _. eexists. split; [reflexivity|]. by split_and!.
  - intros r n calls k size h l. eexists _, _. split; [reflexivity|]. by split_and!.
  - intros c h l. eexists. split; [reflexivity|]. by split_and!.
  - intros c src dst n p q bs rest h l _ _ _ _ _ Hp. eexists. split; [reflexivity|]. cbn. rewrite Hp. by split_and!.
  - intros c src dst sizes n p q total bs rest h l _ _ _ _ _ _ _ Hp. eexists. split; [reflexivity|]. cbn. rewrite Hp. by split_and!.
  - intros h l Hp. exists l. cbn. unfold Wire.deliver. cbn. rewrite Hp. by split_and!.
  - intros dst q n bs rest h h' l Hp Hd Hi _ Hst. eexists. cbn. unfold Wire.deliver. cbn. rewrite Hp, Hi, Hd. cbn. rewrite Hst.
    split; [reflexivity|]. by split_and!.
  - intros p n h l Ha Hn. eexists _, _. split; [reflexivity|]. destruct (fresh_slot (Wire.w_noc l)). by split_and!.
  - intros s h l _. eexists. split; [reflexivity|]. by split_and!.
  - intros s d h l Hd. exists (Wire.slot_image d). cbn. rewrite Hd. done.
  - intros s bs d h l _ ->. eexists. cbn. unfold Wire.deserialize. rewrite slot_of_slot_image. split; [reflexivity|]. cbn. split_and!; try done.
    + intros r s' Hne. rewrite lookup_partial_alter_ne; [done|]. congruence.
    + intros _. by rewrite lookup_partial_alter_eq.
  - intros r s sO d dO n x p bs old new h l Ha _ Hs _ _ HL Hold _ Hnew. eexists. cbn. rewrite Hs. cbn. rewrite HL. cbn. rewrite Hold. cbn. rewrite Hnew, Ha.
    cbn. rewrite Ha. cbn. unfold Wire.sent, Wire.rcvd. cbn. rewrite lookup_insert_eq. rewrite bool_decide_true by done. split; [reflexivity|]. cbn.
    split_and!; try done; [apply lookup_insert_eq|intros r' d' Hne; by rewrite lookup_insert_ne|].
    intros s'. rewrite lookup_insert. case_decide as E; [subst; by rewrite Z.eqb_refl|]. rewrite (proj2 (Z.eqb_neq s' s)) by done. lia.
  - intros r s sO d dO n x p bs bytes h h' l Ha _ Hd _ _ _ Hb _ Hread Hst. eexists. cbn. rewrite Hd. cbn. rewrite Hb. cbn. rewrite Hread. cbn. rewrite Hst.
    cbn. rewrite Ha. cbn. unfold Wire.sent, Wire.rcvd. cbn. rewrite lookup_insert_eq. rewrite bool_decide_true by done. split; [reflexivity|]. cbn.
    split_and!; try done. intros s'. rewrite lookup_insert. case_decide as E; [subst; by rewrite Z.eqb_refl|]. rewrite (proj2 (Z.eqb_neq s' d)) by done. lia.
Defined.

(** ** A process of rank one among three *)

Module LpfDemo.
Import Lpf.

Definition slot (b : nat) (n : Z) : LocalMemorySlot.t := LocalMemorySlot.make (Ptr b 0) n None.

(** The slots 20 and 21 belong to rank zero and to this process; slot 20 is marked. *)
Definition fields : CommunicationManagerFields.t :=
  CommunicationManagerFields.mk (<[7 := <[3 := 20%nat]> ∅]> ∅) (<[7 := [20%nat]]> ∅).

Definition manager : Lpf.manager := mkManager 3 1 (Ptr 2 0) Wire.INVALID.

Definition remote_slot : LpfGlobalSlot.t := LpfGlobalSlot.mk 0 30 31.

(** Two local slots of four bytes, registered as 10 and 11; the other processes
    contribute [incoming]. *)
Definition wire (incoming : list (list byte)) (fails : bool) : Wire.t :=
  Wire.mk 1 3
    (<[10 := (Ptr 0 0, 4)]> (<[11 := (Ptr 1 0, 4)]> (<[30 := (nullptr, 0)]> (<[31 := (nullptr, 0)]> (<[40 := (nullptr, 0)]> (<[41 := (nullptr, 0)]> ∅))))))
    ∅ [] incoming (<[(0, 30) := replicate 8 xff]> ∅) ∅ ∅ ∅ fails.

Definition machine (incoming : list (list byte)) (fails : bool) : Machine (Lpf.t Wire.t) :=
  mkMachine
    (<[0%nat := [x0a; x0b; x0c; x0d]]> (<[1%nat := replicate 4 x00]> (<[2%nat := replicate 8 x00]> (<[3%nat := replicate 8 x00]> (<[4%nat := replicate 8 x00]> ∅)))))
    (<[0%nat := slot 0 4]> (<[1%nat := slot 1 4]> ∅))
    (<[20%nat := GlobalMemorySlot.mk 7 3 None]> (<[25%nat := GlobalMemorySlot.mk 7 8 None]> ∅))
    (<[0%nat := fields]> ∅)
    (Lpf.mk (<[0%nat := manager]> ∅) (<[20%nat := remote_slot]> ∅)
       (<[0%nat := LpfLocalSlot.mk 10 (Ptr 3 0)]> (<[1%nat := LpfLocalSlot.mk 11 (Ptr 4 0)]> ∅)) (wire incoming fails)).

Lemma lpf_slot_demo incoming fails b : b = 0%nat \/ b = 1%nat -> slot_at (machine incoming fails) b (Ptr b 0) 4.
Proof. intros [-> | ->]; by eexists. Qed.

(** *** The exchange *)

(** Four slots in all; the local slot zero is that of this process, under the key 5. *)
Definition group : list (list (Z * Z)) := [[(3, 16)]; [(5, 4)]; [(9, 64); (4, 2)]].

Definition group_messages : list (list byte) :=
  [encode 8 [1; 1; 2]; encode 8 [16; 4; 64; 2]; encode 4 [0; 1; 2; 2]; encode 8 [3; 5; 9; 4]].

Lemma exchanging_demo : exchanging 0 [(5, 0%nat)] group manager [] (machine group_messages false).
Proof.
  split; try done.
  - exists [(5, 4)]. split; [done|]. repeat constructor; cbn; [exists (Ptr 0 0); apply lpf_slot_demo; by left|by eexists].
  - apply (bool_decide_unpack _). by vm_compute.
  - apply (bool_decide_unpack _). by vm_compute.
  - repeat constructor; cbn; lia.
Qed.

Lemma lpf_exchange_spec_witness : exists gs m',
  run (CommunicationManager.exchangeGlobalMemorySlots 0 7 [(5, 0%nat)]) (machine group_messages false) = Done tt m' /\
  exchanged 0 7 [(5, 0%nat)] group manager [] gs (machine group_messages false) m'.
Proof. apply (lpf_exchange_spec 0 7 [(5, 0%nat)] group manager []). exact exchanging_demo. Defined.

(** *** Copies *)

Lemma lpf_attached_demo fails b s : b = 0%nat /\ s = 10 \/ b = 1%nat /\ s = 11 -> attached b s (Ptr b 0) 4 (machine [] fails).
Proof. intros [[-> ->]|[-> ->]]; split; try done; by eexists. Qed.

Lemma foreign_demo : foreign 20 0 30 (replicate 8 xff) (machine [] false).
Proof. split; try done. by exists 31. Qed.

Lemma lpf_copy_roundtrip_witness : exists m1 m2,
  run (_ ← CommunicationManager.memcpyGL 0 20 2 0 1 3; CommunicationManager.fenceLocal 0 0 1 0) (machine [] false) = Done tt m1 /\
  run (_ ← CommunicationManager.memcpyLG 0 1 0 20 2 3; CommunicationManager.fenceLocal 0 1 0 1) m1 = Done tt m2 /\
  heap m2 = <[1%nat := [x0b; x0c; x0d; x00]]> (heap (machine [] false)).
Proof.
  destruct (lpf_copy_roundtrip 0 20 0 30 2 0 10 (Ptr 0 0) 4 1 1 11 (Ptr 1 0) 4 0 3 [x0b; x0c; x0d] (replicate 8 xff)
    [xff; xff; x0b; x0c; x0d; xff; xff; xff] (<[1%nat := [x0b; x0c; x0d; x00]]> (heap (machine [] false))) (machine [] false))
    as (m1 & m2 & E1 & E2 & _ & _ & _ & Hh & _);
    [apply lpf_attached_demo; by left|apply lpf_attached_demo; by right|done|done|apply foreign_demo|lia|lia|lia|lia|size_lia|lia|size_lia|lia|by vm_compute..|].
  by exists m1, m2.
Defined.

Lemma lpf_failures_at_fence_witness : exists m1,
  run (LpfCommunicationManager.memcpyImplGL 0 20 2 0 1 3) (machine [] true) = Done tt (machine [] true) /\
  run (LpfCommunicationManager.fenceImplLocal 0 0 1 0) (machine [] true) = Thrown runtime m1 /\ locals m1 !! 0%nat = Some (slot 0 4).
Proof.
  destruct (lpf_failures_at_fence 0 20 remote_slot 0 (LpfLocalSlot.mk 10 (Ptr 3 0)) (slot 0 4) 2 1 3 1 0 (machine [] true) eq_refl eq_refl eq_refl) as (H1 & H2 & _).
  destruct (H2 1 (heap (machine [] true)) (wire [] true)) as [H3 H4]; [done|done|by vm_compute|].
  eexists. split; [|split; [exact H3|exact H4]]. apply (H1 1). by vm_compute.
Defined.

Lemma lpf_foreign_source_crashes_witness :
  run (LpfCommunicationManager.memcpyImplGL 0 25 2 0 1 3) (machine [] false) = Thrown logic (machine [] false) /\
  run (LpfCommunicationManager.memcpyImplLG 0 0 2 25 1 3) (machine [] false) = Crashed undefined (machine [] false).
Proof. by apply (lpf_foreign_source_crashes 0 25 0 (LpfLocalSlot.mk 10 (Ptr 3 0))). Defined.

(** *** Promotion; the buffer is read by a process of rank two *)

Definition other : Machine (Lpf.t Wire.t) :=
  set_backend (Lpf.set_library (Wire.mk 2 3 ∅ ∅ [] [] ∅ (<[mkTarget 1 (Ptr 0 0) 4 := [x0a; x0b; x0c; x0d]]> ∅) ∅ ∅ false) (backend (machine [] false))) (machine [] false).

Lemma lpf_promotion_roundtrip_witness : exists g m1 buffer g' s m2,
  run (LpfCommunicationManager.promoteLocalMemorySlot 0 (Some 0%nat) 7) (machine [] false) = Done g m1 /\
  run (LpfCommunicationManager.serializeGlobalMemorySlot 0 (Some g)) m1 = Done buffer m1 /\
  run (LpfCommunicationManager.deserializeGlobalMemorySlot 0 buffer 9) other = Done g' m2 /\
  noc (library (backend m2)) = <[s := mkTarget 1 (Ptr 0 0) 4]> ∅.
Proof.
  destruct (lpf_promotion_roundtrip 0 manager 0 (LpfLocalSlot.mk 10 (Ptr 3 0)) 7 (Ptr 0 0) 4 (machine [] false)) as (g & m1 & buffer & E1 & _ & E2 & _ & H);
    [done|done|by split|apply lpf_slot_demo; by left|done|done|lia|].
  destruct (H 0%nat 9 other eq_refl) as (g' & s & m2 & E3 & _ & _ & _ & _ & N & _). exists g, m1, buffer, g', s, m2. by split_and!.
Defined.

(** *** The fence; this process has marked slot 20, rank zero another slot *)

Definition marked : list (list LpfGlobalSlot.t) := [[LpfGlobalSlot.mk 0 40 41]; [remote_slot]; []].

Definition marked_messages : list (list byte) := [encode 8 [1; 1; 0]; encode 8 [40; 41; 30; 31]].

Lemma lpf_fence_destroys_witness : exists m' c,
  run (CommunicationManager.fence 0 7) (machine marked_messages false) = Done tt m' /\
  (forall s, reg (library (backend m')) !! s = if bool_decide (s ∈ [40; 41; 30; 31]) then None else reg (wire [] false) !! s) /\
  managers m' !! 0%nat = Some c /\ CommunicationManagerFields._globalMemorySlotsToDestroyPerTag c !! 7 = None.
Proof.
  destruct (lpf_fence_destroys 0 7 marked manager [] (machine marked_messages false)) as (m' & c & E & R & Hc & Hd & _).
  - split; try done.
    + exists fields, [remote_slot]. split_and!; [done|done|]. by repeat constructor.
    + intros s Hs. cbn in Hs. repeat (apply elem_of_cons in Hs as [->|Hs]; [split; [by eexists|size_lia]|]). by apply not_elem_of_nil in Hs.
  - exists m', c. split_and!; [exact E|exact R|exact Hc|exact Hd].
Defined.

(** *** Memory *)

#[local] Instance no_usage : SpaceUsage (Lpf.t Wire.t) HwlocMemoryManager.t := { increaseUsage := fun _ _ => mret tt; increaseUsage_ok := fun _ _ _ => eq_refl }.

#[local] Existing Instance LpfMemoryManager.lpf_memory | 0.

Definition ram : space_ref := hwloc_space 0 (HwlocMemorySpace.make 1024 None 1).

(** [malloc] answers once. *)
Definition answers : HwlocMemoryManager.t := HwlocMemoryManager.mk 1 ∅ ∅ [Some []] [].

Lemma lpf_allocate_free_witness : exists i b m1 o1 m2 o2,
  run (MemoryManager.allocateLocalMemorySlot ram 5) (machine [] false, answers) = Done i (m1, o1) /\ slot_at m1 i (Ptr b 0) 32 /\
  run (MemoryManager.freeLocalMemorySlot i) (m1, o1) = Done tt (m2, o2) /\ heap m2 = delete b (heap m1) /\
  reg (library (backend m2)) = reg (wire [] false).
Proof.
  destruct (lpf_allocate_free 0 (HwlocMemorySpace.make 1024 None 1) 5 [] [] (machine [] false) answers) as (i & b & s & m1 & o1 & m2 & o2 & E1 & _ & _ & Hs & _ & _ & _ & _ & _ & E2 & Hh & _ & R & _);
    [done|lia|done|]. exists i, b, m1, o1, m2, o2. by split_and!.
Defined.

(** *** Objects: the process of rank one shares its slot 0, that of rank two fetches it *)

Definition owner_store : ObjectStore.t := ObjectStore.mk 0 7 ram 1 0.



(** Two objects of the block of rank zero behind the global slot 20. *)
Definition remote_object : DataObject.t := DataObject.mk 0 5 8 None (Some 20%nat).
Definition two_objects : ObjectStore.world := ObjectStore.mkWorld (<[0%nat := remote_object]> (<[1%nat := remote_object]> ∅)) ∅.

Lemma get_copies_differ_witness : exists l1 m1 y1 w1 l2 m2 y2 w2,
  run (l ← ObjectStore.get owner_store 0; _ ← ObjectStore.fence_object owner_store 0; mret l)
    ((machine [] false, HwlocMemoryManager.mk 1 ∅ ∅ [Some []; Some []] []), two_objects) = Done l1 ((m1, y1), w1) /\
  run (l ← ObjectStore.get owner_store 1; _ ← ObjectStore.fence_object owner_store 1; mret l) ((m1, y1), w1) = Done l2 ((m2, y2), w2) /\ l1 <> l2.
Proof.
  destruct (get_copies_differ owner_store 0 (HwlocMemorySpace.make 1024 None 1) 0 1 remote_object 20 0 30 (replicate 8 xff) [] [] []
    (machine [] false) (HwlocMemoryManager.mk 1 ∅ ∅ [Some []; Some []] []) two_objects)
    as (l1 & b1 & m1 & y1 & w1 & l2 & b2 & m2 & y2 & w2 & E1 & E2 & Hne & _);
    [done|done|done|reflexivity|reflexivity|done|done|done|by split|apply foreign_demo|].
  exists l1, m1, y1, w1, l2, m2, y2, w2. by split_and!.
Defined.

End LpfDemo.
