(* ===== verification/Nosv.v ===== *)
(** * The nOS-V backend

    Models [backends/nosv/executionState.hpp], [processingUnit.hpp],
    [computeManager.hpp] and [common.hpp].  An execution state is a task of the
    nOS-V library, which a thread of its own runs: [resume] submits that task and
    pauses the caller, [suspend] submits the caller again and pauses the task.  So
    the two are programs of a pool, over the world, the library and the task.

    The functions of the library are the class [NOSV]; each is one atomic action,
    and those that block wait for a condition first. *)

From S2P Require Import Prelude Tasking Compute.
From Stdlib Require Import ZArith Lia.
From stdpp Require Import base gmap option list.

Local Open Scope Z_scope.
Local Open Scope hicr_scope.

(** Tasks, types and barriers are identifiers; a null task is [None].
    [has_metadata]: whether [nosv_get_task_metadata] gives a pointer.  [submitted]:
    what a paused task and a task that has not begun wait for; [nosv_begin] is what
    the runtime does when it begins to execute a submitted task.  [barrier_open]:
    whether all have arrived. *)
Class NOSV (L : Type) : Type := {
  NOSV_SUCCESS : Z;
  nosv_affinity_t : Type;
  nosv_type_init : L -> (Z * nat) * L;
  nosv_create : nat -> L -> (Z * nat) * L;
  has_metadata : nat -> L -> bool;
  nosv_affinity_get : Z -> nosv_affinity_t;
  nosv_get_task_affinity : nat -> L -> nosv_affinity_t;
  nosv_set_task_affinity : nat -> nosv_affinity_t -> L -> L;
  nosv_submit : option nat -> bool -> L -> Z * L;
  submitted : nat -> L -> bool;
  nosv_begin : nat -> L -> L;
  nosv_pause : nat -> L -> Z * L;
  nosv_barrier_init : Z -> L -> (Z * nat) * L;
  barrier_arrive : nat -> L -> L;
  barrier_open : nat -> L -> bool;
  nosv_barrier_wait : nat -> L -> Z * L;
  nosv_barrier_destroy : nat -> L -> Z * L
}.

(** [check]: any error of the library is a runtime error. *)
Definition check {L : Type} {N : NOSV L} {S : Type} (error : Z) : prog S unit := throw_if (negb (error =? NOSV_SUCCESS)) runtime.

(** ** Execution states *)

Module NosvExecutionState.

(** The members, with those of the metadata of the task, which has a pointer to
    the execution state.  The function has its argument with it. *)
Record t (V : Type) : Type := mk {
  _executionStateTask : nat;
  mainLoop : bool;
  mainLoop_barrier : option nat;
  fc : option (body V);
  parent_task : option nat;
  _completed : bool
}.
Arguments mk {V} _ _ _ _ _ _.
Arguments _executionStateTask {V} _.
Arguments mainLoop {V} _.
Arguments mainLoop_barrier {V} _.
Arguments fc {V} _.
Arguments parent_task {V} _.
Arguments _completed {V} _.

Section Operations.
Context {L : Type} {N : NOSV L} {W : Type}.

(** The world of a task, with the library. *)
Abbreviation V := (W * L)%type (only parsing).

Definition set_parent (p : option nat) (e : t V) : t V :=
  mk (_executionStateTask e) (mainLoop e) (mainLoop_barrier e) (fc e) p (_completed e).
Definition set_completed (e : t V) : t V :=
  mk (_executionStateTask e) (mainLoop e) (mainLoop_barrier e) (fc e) (parent_task e) true.
Definition set_main (b : nat) (e : t V) : t V :=
  mk (_executionStateTask e) true (Some b) (fc e) (parent_task e) (_completed e).

(** A call of the library. *)
Definition call_library {T A : Type} (f : L -> A * L) : prog (V * T) A :=
  Step (fun st => ((st.1.1, (f st.1.2).2), st.2)) (fun st => Ret (f st.1.2).1).

Definition ask_library {T A : Type} (f : L -> A) : prog (V * T) A := gets (fun st => f st.1.2).

Definition getTaskMetadata {T : Type} (task : nat) : prog (V * T) unit :=
  present ← ask_library (has_metadata task);
  throw_if (negb present) runtime.

Definition submit {T : Type} (task : option nat) (unlocked : bool) : prog (V * T) unit :=
  error ← call_library (nosv_submit task unlocked); check error.

Definition pause {T : Type} (self : nat) : prog (V * T) unit :=
  Await (fun st => submitted self st.1.2) (error ← call_library (nosv_pause self); check error).

Definition barrier_wait {T : Type} (b : nat) : prog (V * T) unit :=
  _ ← call_library (fun l => (tt, barrier_arrive b l));
  Await (fun st => barrier_open b st.1.2) (error ← call_library (nosv_barrier_wait b); check error).

(** The constructor, of a pointer to an execution unit, which may have no function. *)
Definition make {T : Type} (executionUnit : option (option (body V))) : prog (V * T) (t V) :=
  _ ← throw_if (negb (bool_decide (is_Some executionUnit))) logic;
  r ← call_library nosv_type_init;
  _ ← check r.1;
  r ← call_library (nosv_create r.2);
  _ ← check r.1;
  _ ← getTaskMetadata r.2;
  mret (mk r.2 false None (mjoin executionUnit) None false).

(** The operations reach the execution state, with the metadata of its task,
    through what owns it: a task of [frontends/tasking] or a processing unit. *)
Section Owner.
Context {T : Type} (metadata : prog (V * T) (t V)) (update_metadata : (t V -> t V) -> prog (V * T) unit).

(** [self] is the task of the calling thread, [nosv_self()]. *)
Definition resumeImpl (self : nat) : prog (V * T) unit :=
  e ← metadata;
  let task := _executionStateTask e in
  _ ← getTaskMetadata task;
  _ ← update_metadata (set_parent (Some self));
  self_affinity ← ask_library (nosv_get_task_affinity self);
  _ ← call_library (fun l => (tt, nosv_set_task_affinity task self_affinity l));
  _ ← submit (Some task) false;
  pause self.

Definition suspendImpl (self : nat) : prog (V * T) unit :=
  e ← metadata;
  _ ← throw_if (negb (bool_decide (self = _executionStateTask e))) runtime;
  _ ← getTaskMetadata self;
  _ ← submit (parent_task e) false;
  pause self.

(** The function, called by the thread of the task. *)
Fixpoint call_function (suspend : prog (V * T) unit) (b : body V) : prog (V * T) unit :=
  match b with
  | Return => mret tt
  | Act f k => w ← on_fst (Step f Ret); call_function suspend (k w)
  | Suspend k => _ ← suspend; call_function suspend k
  end.

Definition run_callback (suspend : prog (V * T) unit) (task : nat) : prog (V * T) unit :=
  _ ← getTaskMetadata task;
  e ← metadata;
  _ ← (if mainLoop e
       then match mainLoop_barrier e with Some b => barrier_wait b | None => Crash undefined end
       else mret tt);
  match fc e with
  | Some b => call_function suspend b
  | None => Raise runtime
  end.

Definition completed_callback (task : nat) : prog (V * T) unit :=
  _ ← getTaskMetadata task;
  _ ← update_metadata set_completed;
  e ← metadata;
  if mainLoop e then mret tt else
  _ ← throw_if (negb (bool_decide (is_Some (parent_task e)))) runtime;
  submit (parent_task e) true.

(** The thread in which the runtime executes a task, once it is submitted. *)
Definition task_thread (suspend : prog (V * T) unit) (task : nat) : prog (V * T) unit :=
  Await (fun st => submitted task st.1.2)
    (_ ← call_library (fun l => (tt, nosv_begin task l));
     _ ← run_callback suspend task;
     completed_callback task).

End Owner.

Definition checkFinalizationImpl (e : t V) : bool := _completed e.

(** *** Owned by a task *)

Abbreviation state := ((W * L) * Task.t (W * L) (t (W * L)))%type (only parsing).

Definition metadata_of_task : prog state (t V) := e ← exec; mret (ExecutionState.impl e).

Definition update_metadata_of_task (f : t V -> t V) : prog state unit := update_exec (ExecutionState.set_impl f).

(** The backend, for calls of the thread of [self]; [task] is the task that the
    constructor has made. *)
Definition nosv_exec (self task : nat) : ExecBackend V (t V) := {|
  createExecutionState := fun b => mk task false None (Some b) None false;
  Tasking.resumeImpl := fun _ => resumeImpl metadata_of_task update_metadata_of_task self;
  Tasking.suspendImpl := suspendImpl metadata_of_task self;
  Tasking.checkFinalizationImpl := checkFinalizationImpl
|}.

(** The thread of a task. *)
Definition thread_of_task (task : nat) : prog state unit :=
  task_thread metadata_of_task update_metadata_of_task (TaskOps.suspend (B := nosv_exec task task)) task.

End Operations.
End NosvExecutionState.

(** ** Processing units *)

Module NosvProcessingUnit.
Import NosvExecutionState.

(** The unit owns the execution state it has been started with. *)
Record unit_t {L : Type} {N : NOSV L} (V : Type) : Type := mkUnit {
  _executionState : option (ExecutionState.t (t V));
  _nosv_affinity : nosv_affinity_t
}.
Arguments mkUnit {L N V} _ _.
Arguments _executionState {L N V} _.
Arguments _nosv_affinity {L N V} _.

Section Operations.
Context {L : Type} {N : NOSV L} {W : Type}.

Abbreviation V := (W * L)%type (only parsing).
Abbreviation state := ((W * L) * ProcessingUnit.t (unit_t (W * L)))%type (only parsing).

(** The constructor; [pid] is the processor of the compute resource, [None] when
    that is not an hwloc one. *)
Definition make {S : Type} (pid : option Z) : prog S (unit_t V) :=
  match pid with
  | None => Raise logic
  | Some pid => mret (mkUnit None (nosv_affinity_get pid))
  end.

(** The execution state of the unit; a null pointer is undefined behaviour. *)
Definition owned : prog state (ExecutionState.t (t V)) := fetch (fun st => _executionState (ProcessingUnit.impl st.2)).

Definition update_owned (f : ExecutionState.t (t V) -> ExecutionState.t (t V)) : prog state unit :=
  update (fun st => e ← _executionState (ProcessingUnit.impl st.2);
                    Some (st.1, ProcessingUnit.set_impl (fun u => mkUnit (Some (f e)) (_nosv_affinity u)) st.2)).

Definition metadata_of_unit : prog state (t V) := e ← owned; mret (ExecutionState.impl e).

Definition update_metadata_of_unit (f : t V -> t V) : prog state unit := update_owned (ExecutionState.set_impl f).

(** [ExecutionState::suspend], when the function of the unit calls it. *)
Definition suspend_owned (self : nat) : prog state unit :=
  e ← owned;
  _ ← throw_if (bool_decide (ExecutionState._state e <> ExecutionState.running)) runtime;
  _ ← update_owned (ExecutionState.set_state ExecutionState.suspended);
  suspendImpl metadata_of_unit self.

(** The thread of the execution state. *)
Definition thread_of_unit (task : nat) : prog state unit :=
  task_thread metadata_of_unit update_metadata_of_unit (suspend_owned task) task.

Definition initialize : prog state unit := mret tt.

Definition suspend : prog state unit := Raise runtime.

Definition resume : prog state unit := Raise runtime.

(** [None] stands for an execution state of another backend. *)
Definition start (executionState : option (ExecutionState.t (t V))) : prog state unit :=
  match executionState with
  | None => Raise logic
  | Some c =>
      _ ← set_this (ProcessingUnit.set_impl (fun u => mkUnit (Some c) (_nosv_affinity u)));
      let task := _executionStateTask (ExecutionState.impl c) in
      _ ← getTaskMetadata task;
      r ← call_library (nosv_barrier_init 2);
      _ ← update_metadata_of_unit (set_main r.2);
      _ ← check r.1;
      affinity ← this (fun u => _nosv_affinity (ProcessingUnit.impl u));
      _ ← call_library (fun l => (tt, nosv_set_task_affinity task affinity l));
      _ ← submit (Some task) false;
      _ ← barrier_wait r.2;
      error ← call_library (nosv_barrier_destroy r.2);
      check error
  end.

Definition terminate : prog state unit := mret tt.

(** The loop yields until [checkFinalization] says that the function has ended. *)
Definition await : prog state unit :=
  e ← metadata_of_unit;
  _ ← getTaskMetadata (_executionStateTask e);
  _ ← throw_if (negb (mainLoop e)) runtime;
  Await (fun st => match _executionState (ProcessingUnit.impl st.2) with
                   | Some e => checkFinalizationImpl (ExecutionState.impl e)
                   | None => false
                   end)
    (update_owned (ExecutionState.set_state ExecutionState.finished)).

End Operations.
End NosvProcessingUnit.

(** ** The compute manager *)

#[global] Instance nosv_compute {L : Type} {N : NOSV L} (W : Type) :
    ComputeBackend (W * L) (NosvProcessingUnit.unit_t (W * L)) (option (ExecutionState.t (NosvExecutionState.t (W * L)))) := {
  initializeImpl := NosvProcessingUnit.initialize;
  startImpl := NosvProcessingUnit.start;
  suspendImpl := NosvProcessingUnit.suspend;
  resumeImpl := NosvProcessingUnit.resume;
  terminateImpl := NosvProcessingUnit.terminate;
  awaitImpl := NosvProcessingUnit.await
}.
