(* ===== verification/NosvSpec.v ===== *)
(** * The nOS-V backend: tasks that run in threads of their own

    [nosv_task_completes]: whatever the interleaving of the thread that runs a task
    and of the thread of its execution state, the task has the effect of its
    uninterrupted body, as over coroutines, and nothing is ever stuck.

    What is relied on of the library is [NosvSpec]: a submission lets its task go on
    once, also when it comes before the task pauses. *)

From S2P Require Import Prelude Concurrency Interference Tasking TaskingSpec Compute Nosv.
From Stdlib Require Import ZArith Lia.
From stdpp Require Import base gmap option list relations.

Local Open Scope Z_scope.
Local Open Scope hicr_scope.

(** [signals]: the submissions of a task that it has not used yet.  [arrivals]: how
    many have arrived at a barrier. *)
Class NosvSpec (L : Type) {N : NOSV L} : Type := {
  signals : L -> nat -> Z;
  arrivals : L -> nat -> Z;
  metadata_ok : forall t l, has_metadata t l = true;
  affinity_ok : forall t a l, (forall t', signals (nosv_set_task_affinity t a l) t' = signals l t') /\
    forall b, arrivals (nosv_set_task_affinity t a l) b = arrivals l b;
  submit_ok : forall t u l, (nosv_submit (Some t) u l).1 = NOSV_SUCCESS /\
    (forall t', signals (nosv_submit (Some t) u l).2 t' = signals l t' + (if decide (t' = t) then 1 else 0)) /\
    forall b, arrivals (nosv_submit (Some t) u l).2 b = arrivals l b;
  submitted_ok : forall t l, submitted t l = (0 <? signals l t);
  begin_ok : forall t l, (forall t', signals (nosv_begin t l) t' = signals l t' - (if decide (t' = t) then 1 else 0)) /\
    forall b, arrivals (nosv_begin t l) b = arrivals l b;
  pause_ok : forall t l, (nosv_pause t l).1 = NOSV_SUCCESS /\
    forall t', signals (nosv_pause t l).2 t' = signals l t' - (if decide (t' = t) then 1 else 0);
  barrier_init_ok : forall n l, let r := nosv_barrier_init n l in
    r.1.1 = NOSV_SUCCESS /\ (forall t, signals r.2 t = signals l t) /\ arrivals r.2 r.1.2 = 0;
  arrive_ok : forall b l, (forall t, signals (barrier_arrive b l) t = signals l t) /\ arrivals (barrier_arrive b l) b = arrivals l b + 1;
  open_ok : forall b l, barrier_open b l = (2 <=? arrivals l b);
  barrier_wait_ok : forall b l, let r := nosv_barrier_wait b l in
    r.1 = NOSV_SUCCESS /\ (forall t, signals r.2 t = signals l t) /\ arrivals r.2 b = arrivals l b;
  barrier_destroy_ok : forall b l, let r := nosv_barrier_destroy b l in r.1 = NOSV_SUCCESS /\ forall t, signals r.2 t = signals l t
}.

(** ** Steps that nobody else notices *)

Section Quiet.
Context {S : Type} (same : relation S) `{!PreOrder same}.

Inductive quietly {A : Type} : prog S A -> S -> prog S A -> S -> Prop :=
| quiet_here p s : quietly p s p s
| quiet_step f k s p' s' : same s (f s) -> quietly (k s) (f s) p' s' -> quietly (Step f k) s p' s'.

Lemma quietly_same {A : Type} (p : prog S A) s p' s' : quietly p s p' s' -> same s s'.
Proof. induction 1 as [|f k s p' s' Hs _ IH]; [done|]. by transitivity (f s). Qed.

Lemma quietly_trans {A : Type} (p : prog S A) s p1 s1 p2 s2 : quietly p s p1 s1 -> quietly p1 s1 p2 s2 -> quietly p s p2 s2.
Proof. induction 1 as [|f k s p' s' Hs _ IH]; [done|]. intros H. constructor; [done|]. by apply IH. Qed.

Lemma quietly_bind {A B : Type} (p : prog S A) s p1 s1 (k : A -> prog S B) : quietly p s p1 s1 -> quietly (p ≫= k) s (p1 ≫= k) s1.
Proof. induction 1 as [|f k' s p' s' Hs _ IH]; [constructor|]. change (quietly (Step f (fun x => k' x ≫= k)) s (p' ≫= k) s'). by constructor. Qed.

(** The rest after a part that has ended. *)
Lemma quietly_seq {A B : Type} (p : prog S A) s a s1 (k : A -> prog S B) p2 s2 :
  quietly p s (Ret a) s1 -> quietly (k a) s1 p2 s2 -> quietly (p ≫= k) s p2 s2.
Proof. intros H1 H2. eapply quietly_trans; [by apply quietly_bind|]. exact H2. Qed.

(** A step is one of them, or is made from where they lead. *)
Lemma quietly_next {A : Type} (p : prog S A) s p1 s1 p' s' :
  quietly p s p1 s1 -> thread_step p s p' s' -> p = p1 /\ s = s1 \/ quietly p' s' p1 s1 /\ same s s'.
Proof. intros H Ht. destruct H as [|f k s p1 s1 Hs H]; [by left|]. right. inversion Ht; subst. done. Qed.

Lemma quietly_can {A : Type} (p : prog S A) s p1 s1 : quietly p s p1 s1 -> p = p1 /\ s = s1 \/ exists p' s', thread_step p s p' s'.
Proof. intros H. destruct H; [by left|]. right. do 2 eexists. constructor. Qed.

End Quiet.

(** ** Two threads *)

Section Threads.
Context {L : Type} {N : NOSV L} {Sp : NosvSpec L} {W : Type}.
Import NosvExecutionState.

Abbreviation V := (W * L)%type (only parsing).
Abbreviation state := ((W * L) * Task.t (W * L) (NosvExecutionState.t (W * L)))%type (only parsing).

(** A body that does not use the library. *)
Fixpoint lift (b : body W) : body V :=
  match b with
  | Return => Return
  | Act f k => Act (fun v => (f v.1, v.2)) (fun v => lift (k v.1))
  | Suspend k => Suspend (lift k)
  end.

(** No signal is used or made. *)
Definition same_signals {T : Type} : relation (V * T) := fun s s' => forall t, signals s'.1.2 t = signals s.1.2 t.

#[local] Instance same_signals_preorder {T : Type} : PreOrder (@same_signals T).
Proof. split; [done|]. intros x y z H1 H2 t. by rewrite H2, H1. Qed.

Abbreviation quiet := (quietly same_signals).

Lemma quiet_ret {T A : Type} (a : A) (s : V * T) : quiet (Ret a) s (Ret a) s.
Proof. constructor. Qed.

Lemma quiet_ask {T A : Type} (f : L -> A) (s : V * T) : quiet (ask_library f) s (Ret (f s.1.2)) s.
Proof. apply (quiet_step same_signals); [done|]. constructor. Qed.

Lemma quiet_metadata {T : Type} task (s : V * T) : quiet (getTaskMetadata task) s (Ret tt) s.
Proof. eapply quietly_seq; [apply quiet_ask|]. rewrite metadata_ok. constructor. Qed.

Lemma quiet_throw_if {T : Type} b e (s : V * T) : b = false -> quiet (throw_if b e) s (Ret tt) s.
Proof. intros ->. constructor. Qed.

Lemma quiet_affinity {T : Type} task a (s : V * T) :
  quiet (call_library (fun l => (tt, nosv_set_task_affinity task a l))) s (Ret tt) ((s.1.1, nosv_set_task_affinity task a s.1.2), s.2).
Proof. apply (quiet_step same_signals); [|constructor]. intros t. apply affinity_ok. Qed.

(** *** A task and its execution state *)

Variables (u : body V) (P T tk : nat) (b0 : body W).
Hypothesis HPT : P <> T.

Definition task_in (st : ExecutionState.state_t) (parent : option nat) (completed : bool) : Task.t V (NosvExecutionState.t V) :=
  Task.mk u None (Some (ExecutionState.mk st (NosvExecutionState.mk T false None (Some (lift b0)) parent completed))).

Lemma quiet_exec w l st parent c : quiet exec ((w, l), task_in st parent c) (Ret (ExecutionState.mk st (NosvExecutionState.mk T false None (Some (lift b0)) parent c))) ((w, l), task_in st parent c).
Proof. apply (quiet_step same_signals); [done|]. constructor. Qed.

Lemma quiet_update f w l st parent c e : f (ExecutionState.mk st (NosvExecutionState.mk T false None (Some (lift b0)) parent c)) = e ->
  quiet (update_exec f) ((w, l), task_in st parent c) (Ret tt) ((w, l), Task.mk u None (Some e)).
Proof. intros <-. apply (quiet_step same_signals); [done|]. constructor. Qed.

Lemma quiet_this {A : Type} (f : Task.t V (NosvExecutionState.t V) -> A) (s : state) : quiet (this f) s (Ret (f s.2)) s.
Proof. apply (quiet_step same_signals); [done|]. constructor. Qed.

Lemma quiet_notify c w l st parent d : quiet (TaskOps.notify tk c) ((w, l), task_in st parent d) (Ret tt) ((w, l), task_in st parent d).
Proof. eapply quietly_seq; [apply quiet_this|]. constructor. Qed.

Lemma quiet_task_metadata w l st parent c :
  quiet metadata_of_task ((w, l), task_in st parent c) (Ret (NosvExecutionState.mk T false None (Some (lift b0)) parent c)) ((w, l), task_in st parent c).
Proof. eapply quietly_seq; [apply quiet_exec|]. constructor. Qed.

(** *** The thread that runs the task *)

Abbreviation runs := (run_times (B := nosv_exec P T) tk) (only parsing).

(** The end of [Task::run]. *)
Definition finish : prog state unit :=
  isFinished ← Exec.checkFinalization (B := nosv_exec P T);
  state ← this Task.getState;
  _ ← throw_if (bool_decide (state <> ExecutionState.suspended /\ state <> ExecutionState.finished)) runtime;
  _ ← (if bool_decide (state = ExecutionState.suspended) then TaskOps.notify tk Task.onTaskSuspend else mret tt);
  if bool_decide (state = ExecutionState.finished) then TaskOps.notify tk Task.onTaskFinish else mret tt.

(** Where it submits the task, and where it waits for the task, before [n] more runs. *)
Definition submitting (n : nat) : prog state unit := ((_ ← submit (Some T) false; pause P) ≫= fun _ => finish) ≫= fun _ => runs n.

Definition waiting_for_task (n : nat) : prog state unit := (pause P ≫= fun _ => finish) ≫= fun _ => runs n.

Lemma quiet_run n w l st parent :
  st = ExecutionState.initialized \/ st = ExecutionState.suspended ->
  exists l', quiet (runs (S n)) ((w, l), task_in st parent false) (submitting n) ((w, l'), task_in ExecutionState.running (Some P) false).
Proof.
  intros Hst. eexists. cbn [run_times]. apply quietly_bind. unfold TaskOps.run.
  eapply quietly_seq; [apply quiet_this|]. eapply quietly_seq; [apply quiet_throw_if, bool_decide_false; cbn; intros [? ?]; by destruct Hst|].
  eapply quietly_seq; [apply quiet_notify|]. apply quietly_bind. unfold Exec.resume.
  eapply quietly_seq; [apply quiet_exec|]. eapply quietly_seq; [apply quiet_throw_if, bool_decide_false; cbn; intros [? ?]; by destruct Hst|].
  eapply quietly_seq; [by apply quiet_update|]. cbn [Tasking.resumeImpl nosv_exec]. unfold NosvExecutionState.resumeImpl.
  eapply quietly_seq; [apply quiet_task_metadata|]. cbv zeta. eapply quietly_seq; [apply quiet_metadata|].
  eapply quietly_seq; [by apply quiet_update|]. eapply quietly_seq; [apply quiet_ask|]. eapply quietly_seq; [apply quiet_affinity|]. constructor.
Qed.

Lemma quiet_finish_suspended w l parent :
  quiet finish ((w, l), task_in ExecutionState.suspended parent false) (Ret tt) ((w, l), task_in ExecutionState.suspended parent false).
Proof.
  unfold finish. eapply quietly_seq; [eapply quietly_seq; [apply quiet_exec|]; apply quiet_ret|].
  eapply quietly_seq; [apply quiet_this|]. cbn. eapply quietly_seq; [by apply quiet_throw_if, bool_decide_false; intros [? _]|].
  rewrite (bool_decide_true (ExecutionState.suspended = ExecutionState.suspended)), (bool_decide_false (ExecutionState.suspended = ExecutionState.finished)) by done. eapply quietly_seq; [apply quiet_notify|]. constructor.
Qed.

Lemma quiet_finish_completed w l parent :
  quiet finish ((w, l), task_in ExecutionState.running parent true) (Ret tt) ((w, l), task_in ExecutionState.finished parent true).
Proof.
  unfold finish. eapply quietly_seq.
  { eapply quietly_seq; [apply quiet_exec|]. cbv zeta. eapply quietly_seq; [by apply quiet_update|]. apply quiet_ret. }
  eapply quietly_seq; [apply quiet_this|]. cbn. eapply quietly_seq; [by apply quiet_throw_if, bool_decide_false; intros [_ ?]|].
  rewrite (bool_decide_true (ExecutionState.finished = ExecutionState.finished)), (bool_decide_false (ExecutionState.finished = ExecutionState.suspended)) by done. eapply quietly_seq; [constructor|]. apply quiet_notify.
Qed.

(** *** The thread of the task *)

Abbreviation suspending := (TaskOps.suspend (B := nosv_exec T T)) (only parsing).
Abbreviation completing := (completed_callback metadata_of_task update_metadata_of_task T) (only parsing).
Abbreviation calling k := (call_function suspending (lift k)) (only parsing).

(** Where it submits the thread that waits for it, at a suspension and at the end. *)
Definition giving_back (k : body W) : prog state unit := ((_ ← submit (Some P) false; pause T) ≫= fun _ => calling k) ≫= fun _ => completing.

Definition ending : prog state unit := submit (Some P) true.

(** The task, before the rest [k] of its body. *)
Definition waiting_for_run (k : body W) : prog state unit := (pause T ≫= fun _ => calling k) ≫= fun _ => completing.

(** What it does next, when its body runs up to the given point. *)
Definition reaches (c : prog state unit) (s : state) (point : W * option (body W)) : Prop :=
  exists l, match point.2 with
            | Some k => quiet c s (giving_back k) ((point.1, l), task_in ExecutionState.suspended (Some P) false)
            | None => quiet c s ending ((point.1, l), task_in ExecutionState.running (Some P) true)
            end.

Lemma reaches_call b : forall w l,
  reaches (calling b ≫= fun _ => completing) ((w, l), task_in ExecutionState.running (Some P) false) (segment b w).
Proof.
  induction b as [|f k IH|k IH]; intros w l; cbn [lift call_function segment].
  - exists l. cbn [fst snd]. eapply quietly_seq; [constructor|]. unfold completed_callback.
    eapply quietly_seq; [apply quiet_metadata|]. eapply quietly_seq; [by apply quiet_update|].
    eapply quietly_seq; [apply (quiet_task_metadata w l ExecutionState.running (Some P) true)|]. cbn [mainLoop].
    eapply quietly_seq; [by apply quiet_throw_if|]. constructor.
  - destruct (IH w (f w) l) as [l' H]. exists l'.
    assert (Hq : forall p s, quiet (calling (k w) ≫= fun _ => completing) ((f w, l), task_in ExecutionState.running (Some P) false) p s ->
      quiet ((w' ← on_fst (Step (fun v : V => (f v.1, v.2)) Ret); calling (k w'.1)) ≫= fun _ => completing) ((w, l), task_in ExecutionState.running (Some P) false) p s).
    { intros p s Hp. eapply quietly_trans; [apply quietly_bind; apply quietly_bind; apply (quiet_step same_signals); [done|constructor]|exact Hp]. }
    destruct (segment (k w) (f w)) as [w' [k'|]]; cbn [fst snd] in H |- *; by apply Hq.
  - exists l. cbn [fst snd]. apply quietly_bind, quietly_bind. unfold TaskOps.suspend.
    eapply quietly_seq; [apply quiet_this|]. eapply quietly_seq; [apply quiet_throw_if, bool_decide_false; cbn; tauto|]. unfold Exec.suspend.
    eapply quietly_seq; [apply quiet_exec|]. eapply quietly_seq; [apply quiet_throw_if, bool_decide_false; cbn; tauto|].
    eapply quietly_seq; [by apply quiet_update|]. cbn [Tasking.suspendImpl nosv_exec]. unfold NosvExecutionState.suspendImpl.
    eapply quietly_seq; [apply (quiet_task_metadata w l ExecutionState.suspended)|].
    eapply quietly_seq; [by apply quiet_throw_if; cbn; rewrite bool_decide_true|]. eapply quietly_seq; [apply quiet_metadata|]. constructor.
Qed.

(** *** Turns *)

Abbreviation sig s t := (signals (s : state).1.2 t) (only parsing).

(** The task waits to be run; when it is, it uses one signal and runs the next part
    of its body. *)
Definition woken (k : body W) (c : prog state unit) : Prop :=
  forall w l, exists f kk l', c = Step f kk /\ let s := ((w, l), task_in ExecutionState.running (Some P) false) in
    f s = ((w, l'), task_in ExecutionState.running (Some P) false) /\
    (forall t, signals l' t = signals l t - (if decide (t = T) then 1 else 0)) /\ reaches (kk s) (f s) (segment k w).

Definition parked (k : body W) (c : prog state unit) : Prop := exists c', c = Await (fun st => submitted T st.1.2) c' /\ woken k c'.

Lemma parked_suspended k : parked k (waiting_for_run k).
Proof.
  eexists. split; [reflexivity|]. intros w l. eexists _, _, _. split; [reflexivity|]. cbn zeta. split; [reflexivity|].
  destruct (pause_ok T l) as [E H]. split; [exact H|]. cbn beta. cbn [fst snd]. rewrite E. unfold check. rewrite Z.eqb_refl. apply reaches_call.
Qed.

Lemma parked_new : parked b0 (thread_of_task T).
Proof.
  eexists. split; [reflexivity|]. intros w l. eexists _, _, _. split; [reflexivity|]. cbn zeta. split; [reflexivity|].
  split; [apply begin_ok|]. cbn [fst snd]. destruct (reaches_call b0 w (nosv_begin T l)) as [l' H]. exists l'.
  assert (Hq : forall p s, quiet (calling b0 ≫= fun _ => completing) ((w, nosv_begin T l), task_in ExecutionState.running (Some P) false) p s ->
    quiet (run_callback metadata_of_task suspending T ≫= fun _ => completing) ((w, nosv_begin T l), task_in ExecutionState.running (Some P) false) p s).
  { intros p s Hp. eapply quietly_trans; [apply quietly_bind; unfold run_callback|exact Hp].
    eapply quietly_seq; [apply quiet_metadata|]. eapply quietly_seq; [apply quiet_task_metadata|]. eapply quietly_seq; [constructor|]. constructor. }
  destruct (segment b0 w) as [w' [k'|]]; cbn [fst snd] in H |- *; by apply Hq.
Qed.

Variable wf : W.

(** The rest of the body, with [n] suspensions, leads to the world [wf]. *)
Definition remaining (n : nat) (k : body W) (w : W) : Prop := suspensions k w = n /\ complete k w = wf.

Definition remaining_at (n : nat) (point : W * option (body W)) : Prop :=
  match point.2 with
  | Some k => exists n', n = S n' /\ remaining n' k point.1
  | None => n = O /\ point.1 = wf
  end.

Lemma remaining_segment n k w : remaining n k w -> remaining_at n (segment k w).
Proof.
  intros [Hn Hw]. destruct (segment_spec k w) as [Hc Hs]. unfold remaining_at. destruct (segment k w) as [w' [k'|]]; cbn in *; [|split; congruence].
  exists (suspensions k' w'). split; [congruence|]. split; congruence.
Qed.

(** The task has handed over to the thread that runs it: it is suspended or has ended. *)
Definition handed (n : nat) (c : prog state unit) (s : state) : Prop :=
  exists w l, signals l T = 0 /\ signals l P = 1 /\
    ((exists k n', n = S n' /\ parked k c /\ remaining n' k w /\ s = ((w, l), task_in ExecutionState.suspended (Some P) false)) \/
     (n = O /\ c = Ret tt /\ w = wf /\ s = ((w, l), task_in ExecutionState.running (Some P) true))).

(** The thread that runs the task, once its wait is over. *)
Definition going_on (n : nat) : prog state unit :=
  ((error ← call_library (nosv_pause P); check error) ≫= fun _ => finish) ≫= fun _ => runs n.

Inductive phase : prog state unit -> prog state unit -> state -> Prop :=
| ph_before p c s n k w l : parked k c -> sig s T = 0 -> sig s P = 0 ->
    quiet p s (submitting n) ((w, l), task_in ExecutionState.running (Some P) false) -> remaining n k w -> phase p c s
| ph_submitted c n k w l : parked k c -> signals l T = 1 -> signals l P = 0 -> remaining n k w ->
    phase (waiting_for_task n) c ((w, l), task_in ExecutionState.running (Some P) false)
| ph_woken c n k w l : woken k c -> signals l T = 1 -> signals l P = 0 -> remaining n k w ->
    phase (waiting_for_task n) c ((w, l), task_in ExecutionState.running (Some P) false)
| ph_body c s n point : reaches c s point -> sig s T = 0 -> sig s P = 0 -> remaining_at n point -> phase (waiting_for_task n) c s
| ph_handed c s n : handed n c s -> phase (waiting_for_task n) c s
| ph_awake c s n : handed n c s -> phase (going_on n) c s
| ph_end p s l : quiet p s (Ret tt) ((wf, l), task_in ExecutionState.finished (Some P) true) -> phase p (Ret tt) s.

(** The submissions, as steps. *)
Definition signalled (t : nat) (l l' : L) : Prop := forall t', signals l' t' = signals l t' + (if decide (t' = t) then 1 else 0).

Ltac submit_step t un l :=
  let Ht := fresh in intros Ht; inversion Ht; subst;
  let Es := fresh in let Hs := fresh in destruct (submit_ok t un l) as (Es & Hs & _); eexists; split; [|split; [reflexivity|exact Hs]];
  cbn; rewrite Es; unfold check; by rewrite Z.eqb_refl.

Lemma submitting_step n w l (tsk : Task.t V (NosvExecutionState.t V)) p' s' :
  thread_step (submitting n) ((w, l), tsk) p' s' -> exists l', p' = waiting_for_task n /\ s' = ((w, l'), tsk) /\ signalled T l l'.
Proof. submit_step T false l. Qed.

Lemma giving_back_step k w l (tsk : Task.t V (NosvExecutionState.t V)) p' s' :
  thread_step (giving_back k) ((w, l), tsk) p' s' -> exists l', p' = waiting_for_run k /\ s' = ((w, l'), tsk) /\ signalled P l l'.
Proof. submit_step P false l. Qed.

Lemma ending_step w l (tsk : Task.t V (NosvExecutionState.t V)) p' s' :
  thread_step ending ((w, l), tsk) p' s' -> exists l', p' = Ret tt /\ s' = ((w, l'), tsk) /\ signalled P l l'.
Proof. submit_step P true l. Qed.

(** Nobody goes on without a signal. *)
Lemma blocked_step t (c : prog state unit) (s : state) p' s' : sig s t = 0 -> thread_step (Await (fun st => submitted t st.1.2) c) s p' s' -> False.
Proof. intros Hs Ht. inversion Ht as [|? ? ? Hc]; subst. rewrite submitted_ok, Hs in Hc. done. Qed.

Lemma phase_parent p c s p' s' : phase p c s -> thread_step p s p' s' -> phase p' c s'.
Proof.
  intros Hph Ht. destruct Hph as [p c s n k w l Hc HT HP Hq Hr|c n k w l Hc HT HP Hr|c n k w l Hc HT HP Hr|c s n pt Hc HT HP Hr|c s n Hh|c s n Hh|p s l Hq].
  - destruct (quietly_next _ _ _ _ _ _ _ Hq Ht) as [[-> ->]|[Hq' Hs]].
    + apply submitting_step in Ht as (l' & -> & -> & Hs). cbn in HT, HP. eapply ph_submitted; [done| | |done]; rewrite Hs; case_decide; lia || done.
    + eapply ph_before; [done|by rewrite Hs|by rewrite Hs|done|done].
  - by apply blocked_step in Ht.
  - by apply blocked_step in Ht.
  - by apply blocked_step in Ht.
  - inversion Ht; subst. by apply ph_awake.
  - destruct Hh as (w & l & HT & HP & Hh). inversion Ht; subst. cbn [fst snd]. destruct (pause_ok P s.1.2) as [Es Hs]. rewrite Es. unfold check. rewrite Z.eqb_refl. cbn [negb throw_if].
    destruct Hh as [(k & n' & -> & Hc & Hr & ->)|(-> & -> & -> & ->)]; cbn [fst snd] in *.
    + destruct (quiet_run n' w (nosv_pause P l).2 ExecutionState.suspended (Some P)) as [l2 Hq]; [by right|].
      eapply ph_before; [exact Hc|cbn; rewrite Hs, decide_False; [lia|done]|cbn; rewrite Hs, decide_True; [lia|done]| |exact Hr].
      eapply quietly_seq; [apply quiet_finish_suspended|exact Hq].
    + eapply ph_end. eapply quietly_seq; [apply quiet_finish_completed|]. constructor.
  - destruct (quietly_next _ _ _ _ _ _ _ Hq Ht) as [[-> ->]|[Hq' _]]; [inversion Ht|by eapply ph_end].
Qed.

Lemma phase_child p c s c' s' : phase p c s -> thread_step c s c' s' -> phase p c' s'.
Proof.
  intros Hph Ht. destruct Hph as [p c s n k w l Hc HT HP Hq Hr|c n k w l Hc HT HP Hr|c n k w l Hc HT HP Hr|c s n pt Hc HT HP Hr|c s n Hh|c s n Hh|p s l Hq].
  - destruct Hc as (c1 & -> & _). by apply blocked_step in Ht.
  - destruct Hc as (c1 & -> & Hc). inversion Ht; subst. by eapply ph_woken.
  - destruct (Hc w l) as (f & kk & l' & -> & E & Hs & Hreach). inversion Ht; subst. eapply ph_body; [exact Hreach| | |by apply remaining_segment].
    + rewrite E. cbn. rewrite Hs, decide_True; [lia|done].
    + rewrite E. cbn. rewrite Hs, decide_False; [lia|done].
  - destruct pt as [w [k|]], Hc as [l Hq]; cbn [fst snd remaining_at] in *.
    + destruct (quietly_next _ _ _ _ _ _ _ Hq Ht) as [[-> ->]|[Hq' Hs]].
      * apply giving_back_step in Ht as (l' & -> & -> & Hs). cbn in HT, HP. destruct Hr as (n' & -> & Hr). apply ph_handed. exists w, l'.
        split_and!; [rewrite Hs, decide_False; [lia|done]|rewrite Hs, decide_True; [lia|done]|]. left. exists k, n'. split_and!; [done|apply parked_suspended|done|done].
      * eapply (ph_body _ _ _ (w, Some k)); [by exists l|by rewrite Hs|by rewrite Hs|done].
    + destruct (quietly_next _ _ _ _ _ _ _ Hq Ht) as [[-> ->]|[Hq' Hs]].
      * apply ending_step in Ht as (l' & -> & -> & Hs). cbn in HT, HP. destruct Hr as [-> ->]. apply ph_handed. exists wf, l'.
        split_and!; [rewrite Hs, decide_False; [lia|done]|rewrite Hs, decide_True; [lia|done]|]. by right.
      * eapply (ph_body _ _ _ (w, None)); [by exists l|by rewrite Hs|by rewrite Hs|done].
  - destruct Hh as (w & l & HT & HP & [(k & n' & -> & (c1 & -> & _) & Hr & ->)|(-> & -> & _)]); [by apply blocked_step in Ht|inversion Ht].
  - destruct Hh as (w & l & HT & HP & [(k & n' & -> & (c1 & -> & _) & Hr & ->)|(-> & -> & _)]); [by apply blocked_step in Ht|inversion Ht].
  - inversion Ht.
Qed.

Lemma wake t (c : prog state unit) (s : state) : sig s t = 1 -> exists p' s', thread_step (Await (fun st => submitted t st.1.2) c) s p' s'.
Proof. intros Hs. do 2 eexists. apply thread_wake. by rewrite submitted_ok, Hs. Qed.

(** Somebody can go on until both have ended. *)
Lemma phase_can p c s : phase p c s ->
  (p = Ret tt /\ c = Ret tt /\ exists l, s = ((wf, l), task_in ExecutionState.finished (Some P) true)) \/
  (exists p' s', thread_step p s p' s') \/ (exists c' s', thread_step c s c' s').
Proof.
  intros [p' c' s' n k w l Hc HT HP Hq Hr|c' n k w l Hc HT HP Hr|c' n k w l Hc HT HP Hr|c' s' n pt Hc HT HP Hr|c' s' n Hh|c' s' n Hh|p' s' l Hq].
  - right. left. destruct (quietly_can _ _ _ _ _ Hq) as [[-> ->]|H]; [|done]. do 2 eexists. constructor.
  - right. right. destruct Hc as (c1 & -> & _). by apply wake.
  - right. right. destruct (Hc w l) as (f & kk & l' & -> & _). do 2 eexists. constructor.
  - right. right. destruct pt as [w [k|]], Hc as [l Hq]; (destruct (quietly_can _ _ _ _ _ Hq) as [[-> ->]|H]; [do 2 eexists; constructor|done]).
  - right. left. destruct Hh as (w & l & HT & HP & Hh). apply wake. by destruct Hh as [(? & ? & _ & _ & _ & ->)|(_ & _ & _ & ->)].
  - right. left. do 2 eexists. constructor.
  - destruct (quietly_can _ _ _ _ _ Hq) as [[-> ->]|H]; [left; split_and!; [done|done|by exists l]|by right; left].
Qed.

Definition in_phase (ps : list (prog state unit)) (s : state) : Prop := exists p c, ps = [p; c] /\ phase p c s.

Lemma in_phase_step ps s i p p' s' : in_phase ps s -> ps !! i = Some p -> thread_step p s p' s' -> in_phase (<[i := p']> ps) s'.
Proof.
  intros (q & c & -> & Hph) Hi Ht. destruct i as [|[|i]]; cbn in Hi; [injection Hi as ->|injection Hi as ->|done].
  - exists p', c. split; [done|]. by eapply phase_parent.
  - exists q, p'. split; [done|]. by eapply phase_child.
Qed.

Definition ended (ps : list (prog state unit)) (s : state) : Prop :=
  ps = [Ret tt; Ret tt] /\ exists l, s = ((wf, l), task_in ExecutionState.finished (Some P) true).

Lemma in_phase_can ps s : in_phase ps s -> ended ps s \/ exists st, pool_step (ps, s) st.
Proof.
  intros (p & c & -> & Hph). destruct (phase_can _ _ _ Hph) as [(-> & -> & H)|[(p' & s' & Ht)|(c' & s' & Ht)]].
  - left. by split.
  - right. exists ([p'; c], s'). by apply (pool_act [p; c] 0 p p').
  - right. exists ([p; c'], s'). by apply (pool_act [p; c] 1 c c').
Qed.

End Threads.

(** C9: A task over nOS-V, initialized with an execution state for its body and run as
    often as the body suspends and once more, by a thread [P], while the library
    executes the task [T] in a thread of its own.  In whatever order the two take
    their steps, none of them throws, they are never stuck, and at the end the task
    is finished and its world that of the uninterrupted body.

    A comment in [completed_callback] (backends/nosv/executionState.hpp:230) reports
    that the runtime exception of [Task::run] for a task that is neither suspended
    nor finished does occur, rarely.  Under [NosvSpec], where a pause ends by a
    submission and each submission ends one pause, and with the accesses to the
    volatile [_completed] in program order, it cannot: what the comment reports
    needs a pause that returns without a submission, or a store that is seen late,
    and [resumeImpl] does not check what woke it. *)
Theorem nosv_task_completes {L : Type} {N : NOSV L} {Sp : NosvSpec L} {W : Type} (P T tk : nat) (b : body W) (w : W) (l : L) k0 :
  P <> T -> signals l P = 0 -> signals l T = 0 ->
  run (TaskOps.initialize (ExecutionState.make (createExecutionState (ExecBackend := NosvExecutionState.nosv_exec P T) (lift b)))) ((w, l), Task.make (lift b) None) = Done tt ((w, l), k0) ->
  let ps := [run_times (B := NosvExecutionState.nosv_exec P T) tk (S (suspensions b w)); NosvExecutionState.thread_of_task T] in
  let final ps' (s' : (W * L) * Task.t (W * L) (NosvExecutionState.t (W * L))) :=
    ps' = [Ret tt; Ret tt] /\ s'.1.1 = complete b w /\ Task.getState s'.2 = ExecutionState.finished in
  forall ps' s', pool_steps (ps, ((w, l), k0)) (ps', s') ->
    (final ps' s' \/ exists st, pool_step (ps', s') st) /\ exists ps2 s2, pool_steps (ps', s') (ps2, s2) /\ final ps2 s2.
Proof.
  intros HPT HP HT E ps final ps' s' Hsteps. injection E as <-.
  assert (HI : in_phase (lift b) P T tk b (complete b w) ps' s').
  { refine (pool_invariant (in_phase (lift b) P T tk b (complete b w)) ps _ ps' s' _ _ Hsteps).
    - intros qs v i p p' v'. by apply in_phase_step.
    - destruct (quiet_run (lift b) P T tk b (suspensions b w) w l ExecutionState.initialized None) as [l' Hq]; [by left|].
      eexists _, _. split; [reflexivity|]. eapply ph_before; [apply parked_new|done|done|exact Hq|done]. }
  assert (Hend : forall qs v, ended (lift b) P T b (complete b w) qs v -> final qs v) by (intros qs v (-> & l' & ->); done).
  split; [destruct (in_phase_can _ _ _ _ _ _ _ _ HI) as [H|H]; [left; by apply Hend|by right]|].
  destruct (pool_reaches (in_phase (lift b) P T tk b (complete b w)) (ended (lift b) P T b (complete b w)) ps' s') as (ps2 & s2 & H2 & Hf).
  - intros qs v qs' v' H Hp. inversion Hp; subst. by eapply in_phase_step.
  - intros qs v. apply in_phase_can.
  - done.
  - exists ps2, s2. split; [done|by apply Hend].
Qed.

(** ** Processing units *)

(** A unit over nOS-V cannot be suspended or resumed: the request throws, and the
    unit is nevertheless left in the state that it would have led to.  An execution
    state of another backend is refused, also with the unit already running. *)
Theorem nosv_unit_refuses {L : Type} {N : NOSV L} {W : Type} e (s : W * L) (u : ProcessingUnit.t (NosvProcessingUnit.unit_t (W * L))) :
  let E := option (ExecutionState.t (NosvExecutionState.t (W * L))) in
  (ProcessingUnit._state u = ProcessingUnit.running ->
     run (pu_exec (E := E) e SuspendUnit) (s, u) = Thrown runtime (s, ProcessingUnit.setState ProcessingUnit.suspended u)) /\
  (ProcessingUnit._state u = ProcessingUnit.suspended ->
     run (pu_exec (E := E) e ResumeUnit) (s, u) = Thrown runtime (s, ProcessingUnit.setState ProcessingUnit.running u)) /\
  (ProcessingUnit._state u = ProcessingUnit.ready -> e = None ->
     run (pu_exec (E := E) e Start) (s, u) = Thrown logic (s, ProcessingUnit.setState ProcessingUnit.running u)).
Proof. destruct u as [st r i]. cbn [ProcessingUnit._state]. split_and!; [by intros ->|by intros ->|by intros -> ->]. Qed.

(** ** A small library *)

Module Nanos.

Record t : Type := mk { n_signals : gmap nat Z; n_arrivals : gmap nat Z; n_affinity : gmap nat Z; n_tasks : nat }.

Definition signals_of (l : t) (x : nat) : Z := default 0 (n_signals l !! x).
Definition arrivals_of (l : t) (b : nat) : Z := default 0 (n_arrivals l !! b).

Definition add_signal (d : Z) (x : nat) (l : t) : t := mk (<[x := signals_of l x + d]> (n_signals l)) (n_arrivals l) (n_affinity l) (n_tasks l).
Definition set_arrivals (b : nat) (z : Z) (l : t) : t := mk (n_signals l) (<[b := z]> (n_arrivals l)) (n_affinity l) (n_tasks l).
Definition set_affinity (x : nat) (a : Z) (l : t) : t := mk (n_signals l) (n_arrivals l) (<[x := a]> (n_affinity l)) (n_tasks l).
Definition new_task (l : t) : t := mk (n_signals l) (n_arrivals l) (n_affinity l) (S (n_tasks l)).

End Nanos.

#[global] Instance nanos : NOSV Nanos.t := {
  NOSV_SUCCESS := 0;
  nosv_affinity_t := Z;
  nosv_type_init := fun l => ((0, O), l);
  nosv_create := fun _ l => ((0, Nanos.n_tasks l), Nanos.new_task l);
  has_metadata := fun _ _ => true;
  nosv_affinity_get := id;
  nosv_get_task_affinity := fun x l => default 0 (Nanos.n_affinity l !! x);
  nosv_set_task_affinity := Nanos.set_affinity;
  nosv_submit := fun x _ l => match x with Some x => (0, Nanos.add_signal 1 x l) | None => (1, l) end;
  submitted := fun x l => 0 <? Nanos.signals_of l x;
  nosv_begin := Nanos.add_signal (-1);
  nosv_pause := fun x l => (0, Nanos.add_signal (-1) x l);
  nosv_barrier_init := fun _ l => ((0, fresh (dom (Nanos.n_arrivals l))), Nanos.set_arrivals (fresh (dom (Nanos.n_arrivals l))) 0 l);
  barrier_arrive := fun b l => Nanos.set_arrivals b (Nanos.arrivals_of l b + 1) l;
  barrier_open := fun b l => 2 <=? Nanos.arrivals_of l b;
  nosv_barrier_wait := fun _ l => (0, l);
  nosv_barrier_destroy := fun _ l => (0, l)
}.

Lemma signals_added d x l x' : Nanos.signals_of (Nanos.add_signal d x l) x' = Nanos.signals_of l x' + (if decide (x' = x) then d else 0).
Proof.
  unfold Nanos.signals_of at 1. cbn. rewrite lookup_insert. destruct (decide (x = x')) as [->|Hne].
  - by rewrite decide_True.
  - rewrite decide_False by done. unfold Nanos.signals_of. lia.
Qed.

#[global, refine] Instance nanos_spec : NosvSpec Nanos.t := { signals := Nanos.signals_of; arrivals := Nanos.arrivals_of }.
Proof.
  - done.
  - done.
  - intros t un l. split_and!; [done| |done]. intros t'. apply signals_added.
  - done.
  - intros t l. split; [|done]. intros t'. cbn. rewrite signals_added. case_decide; lia.
  - intros t l. split; [done|]. intros t'. cbn. rewrite signals_added. case_decide; lia.
  - intros n l. cbn. split_and!; [done|done|]. unfold Nanos.arrivals_of. cbn. by rewrite lookup_insert_eq.
  - intros b l. split; [done|]. unfold Nanos.arrivals_of at 1. cbn. by rewrite lookup_insert_eq.
  - done.
  - done.
  - done.
Defined.

Module NosvDemo.

Definition library : Nanos.t := Nanos.mk ∅ ∅ ∅ 5.

(** It adds one, suspends, and doubles. *)
Definition work : body Z := Act (fun z => z + 1) (fun _ => Suspend (Act (fun z => 2 * z) (fun _ => Return))).

Definition initial : (Z * Nanos.t) * Task.t (Z * Nanos.t) (NosvExecutionState.t (Z * Nanos.t)) :=
  ((20, library), task_in (lift work) 2 work ExecutionState.initialized None false).

Lemma nosv_task_completes_witness : exists ps2 s2,
  pool_steps ([run_times (B := NosvExecutionState.nosv_exec 1 2) 0 2; NosvExecutionState.thread_of_task 2], initial) (ps2, s2) /\
  ps2 = [Ret tt; Ret tt] /\ s2.1.1 = 42 /\ Task.getState s2.2 = ExecutionState.finished.
Proof.
  refine (proj2 (nosv_task_completes 1 2 0 work 20 library initial.2 _ _ _ _ _ initial _)); [done|done|done|done|]. constructor.
Defined.

(** The constructor makes the execution state that the task of its library stands for. *)
Example nosv_execution_state_made (self : nat) : exists l,
  run (NosvExecutionState.make (T := unit) (Some (Some (lift work)))) ((20, library), tt)
  = Done (createExecutionState (ExecBackend := NosvExecutionState.nosv_exec self 5) (lift work)) ((20, l), tt) /\
  run (NosvExecutionState.make (T := unit) None) ((20, library), tt) = Thrown logic ((20, library), tt).
Proof. eexists. split; reflexivity. Qed.

(** A unit: it is started, its function runs in the other thread while the first
    one is between the barrier and the wait, and it is waited for. *)
Definition main_task : ExecutionState.t (NosvExecutionState.t (Z * Nanos.t)) :=
  ExecutionState.make (NosvExecutionState.mk 2 false None (Some (lift (Act (fun z => z + 1) (fun _ => Return)))) None false).

Definition idle_unit : ProcessingUnit.t (NosvProcessingUnit.unit_t (Z * Nanos.t)) := ProcessingUnit.make 0 (NosvProcessingUnit.mkUnit None (3 : nosv_affinity_t)).

Definition unit_pool : list (prog ((Z * Nanos.t) * ProcessingUnit.t (NosvProcessingUnit.unit_t (Z * Nanos.t))) unit) :=
  [(_ ← pu_exec (Some main_task) Initialize; _ ← pu_exec (Some main_task) Start; pu_exec (Some main_task) AwaitEnd); NosvProcessingUnit.thread_of_unit 2].

(** The function has run, and the unit ends terminated. *)
Example nosv_unit_runs :
  (fun r => (r.2.1.1, ProcessingUnit._state r.2.2)) <$> schedule (replicate 12 0 ++ replicate 11 1 ++ replicate 9 0)%nat unit_pool ((7, library), idle_unit)
  = Some (8, ProcessingUnit.terminated).
Proof. vm_compute. reflexivity. Qed.

End NosvDemo.
