(* ===== verification/Accelerators.v ===== *)
(** * What the accelerator backends share

    The ACL and the OpenCL backend read serialized topologies in the same way, and
    their execution states, which act on a device, are owned by processing units. *)

From S2P Require Import Prelude Json Topology TopologySpec Memory CommunicationManager Tasking.
From Stdlib Require Import ZArith Lia String.
From stdpp Require Import base list gmap option strings.

Local Open Scope string_scope.
Local Open Scope Z_scope.
Local Open Scope list_scope.
Local Open Scope hicr_scope.

(** ** Reading devices *)

(** The loop over one list of the serialized resources of a device: the type of
    each has to be accepted. *)
Definition read_resources {A : Type} (accepts : string -> bool) (make : Json.t -> prog Device.t A) (add : A -> prog Device.t unit)
    (resources : Json.t) : prog Device.t unit :=
  for_each (Json.elements resources) (fun resource =>
    v ← Json.at_key resource "Type";
    ty ← Json.get_string v;
    _ ← throw_if (negb (accepts ty)) logic;
    o ← make resource;
    add o).

(** [deserializeTopology] of a topology manager: devices of other types are
    skipped, and the metadata is not read. *)
Definition read_topology {S : Type} (recognized : string -> bool) (make : Json.t -> prog Topology.t Device.t) (topology : Json.t) : prog S Topology.t :=
  _ ← Topology.verify topology;
  devices ← Json.at_key topology "Devices";
  construct (for_each (Json.elements devices) (fun device =>
    v ← Json.at_key device "Type";
    ty ← Json.get_string v;
    if recognized ty then d ← make device; Topology.addDevice d else mret tt)) Topology.empty.

(** ** Execution states *)

(** The operations of [core/executionState.hpp], for an execution state in the world
    [V] whose virtual operations act on what the backend adds to it, [I]. *)
Module StateOps.
Section Operations.
Context {V I : Type} (resumeImpl suspendImpl : prog (V * I) unit) (checkFinalizationImpl : prog (V * I) bool).

Definition on_impl {A : Type} (p : prog (V * I) A) : prog (V * ExecutionState.t I) A :=
  zoom (fun st => Some (st.1, ExecutionState.impl st.2)) (fun vi st => (vi.1, ExecutionState.set_impl (fun _ => vi.2) st.2)) p.

Definition resume : prog (V * ExecutionState.t I) unit :=
  state ← this ExecutionState._state;
  _ ← throw_if (bool_decide (state <> ExecutionState.initialized /\ state <> ExecutionState.suspended)) runtime;
  _ ← set_this (ExecutionState.set_state ExecutionState.running);
  on_impl resumeImpl.

Definition suspend : prog (V * ExecutionState.t I) unit :=
  state ← this ExecutionState._state;
  _ ← throw_if (bool_decide (state <> ExecutionState.running)) runtime;
  _ ← set_this (ExecutionState.set_state ExecutionState.suspended);
  on_impl suspendImpl.

Definition checkFinalization : prog (V * ExecutionState.t I) bool :=
  isFinished ← on_impl checkFinalizationImpl;
  _ ← (if isFinished : bool then set_this (ExecutionState.set_state ExecutionState.finished) else mret tt);
  mret isFinished.

End Operations.
End StateOps.

Lemma run_on_impl {V I A : Type} (p : prog (V * I) A) (v : V) (e : ExecutionState.t I) :
  run (StateOps.on_impl p) (v, e) =
  let put := fun vi : V * I => (vi.1, ExecutionState.set_impl (fun _ => vi.2) e) in
  match run p (v, ExecutionState.impl e) with
  | Done a s => Done a (put s)
  | Thrown x s => Thrown x (put s)
  | Crashed c s => Crashed c (put s)
  | Blocked s => Blocked (put s)
  end.
Proof.
  unfold StateOps.on_impl. erewrite run_zoom; [reflexivity|reflexivity|by destruct e|by intros [] []|by intros [] [] []].
Qed.

(** ** Copies *)

Section Counters.
Context {X : Type}.
Implicit Types (m : Machine X).

(** A copy between local slots within their sizes is what the backend does. *)
Lemma run_checked_copy impl this dst p1 n1 o1 src p2 n2 o2 n m :
  slot_at m dst p1 n1 -> slot_at m src p2 n2 -> is_size (n + o1) -> n + o1 <= n1 -> is_size (n + o2) -> n + o2 <= n2 ->
  run (CommunicationManager.memcpyLL_with impl this dst o1 src o2 n) m = run (impl this dst o1 src o2 n) m.
Proof.
  intros H1 H2 Hz1 Hn1 Hz2 Hn2. unfold CommunicationManager.memcpyLL_with.
  rewrite (run_bind_Done _ _ _ _ _ (run_getSize _ _ _ _ H2)), (run_bind_Done _ _ _ _ _ (run_getSize _ _ _ _ H1)). cbv zeta.
  rewrite !wrap64_small by done. by rewrite !(run_bind_Done (throw_if _ _) _ m m tt) by (apply run_throw_if_false; rewrite Z.gtb_ltb; apply Z.ltb_ge; lia).
Qed.

(** The message counters after a copy. *)
Definition counted (dst src : nat) (m : Machine X) : Machine X :=
  set_locals (alter LocalMemorySlot.increaseMessagesSent src (alter LocalMemorySlot.increaseMessagesRecv dst (locals m))) m.

Lemma run_copy_count dst src m : is_Some (locals m !! dst) -> is_Some (locals m !! src) ->
  run (_ ← update_local LocalMemorySlot.increaseMessagesRecv dst; update_local LocalMemorySlot.increaseMessagesSent src) m = Done tt (counted dst src m).
Proof.
  intros [s1 H1] [s2 H2]. unfold update_local.
  erewrite run_bind_Done; [|apply run_update; rewrite H1; reflexivity].
  assert (Hs : exists s', <[dst := LocalMemorySlot.increaseMessagesRecv s1]> (locals m) !! src = Some s').
  { rewrite lookup_insert. case_decide; eauto. }
  destruct Hs as [s' Hs]. erewrite run_update; [|cbn; rewrite Hs; reflexivity].
  f_equal. unfold counted, set_locals. cbn. f_equal. apply map_eq. intros i. rewrite !lookup_alter, !lookup_insert.
  rewrite lookup_insert in Hs. repeat case_decide; subst; rewrite ?H1, ?Hs in *; cbn; by simplify_eq.
Qed.

Lemma counted_lookup dst src m i : (locals (counted dst src m) !! i) =
  (if decide (src = i) then LocalMemorySlot.increaseMessagesSent <$> (if decide (dst = i) then LocalMemorySlot.increaseMessagesRecv <$> locals m !! i else locals m !! i)
   else if decide (dst = i) then LocalMemorySlot.increaseMessagesRecv <$> locals m !! i else locals m !! i).
Proof. unfold counted. cbn. rewrite !lookup_alter. repeat case_decide; subst; done. Qed.

Lemma counted_slot dst src m i s : locals m !! i = Some s -> exists s', locals (counted dst src m) !! i = Some s' /\ slot_sim s s'.
Proof.
  intros Hs. rewrite counted_lookup, Hs. repeat case_decide; cbn; eexists; (split; [done|]); by split_and!.
Qed.

Lemma counted_sim dst src m : locals_sim (locals m) (locals (counted dst src m)).
Proof.
  intros i. destruct (locals m !! i) as [s|] eqn:E.
  - destruct (counted_slot dst src m i s E) as (s' & -> & H). by constructor.
  - rewrite counted_lookup, E. repeat case_decide; constructor.
Qed.

End Counters.

(** A loop that makes one result for each element, each with a property that later
    rounds keep. *)
Lemma run_map_each_rel {S X Y : Type} (R : S -> S -> Prop) `{!PreOrder R} (P : S -> X -> Y -> Prop) :
  (forall s s' x y, R s s' -> P s x y -> P s' x y) -> forall (f : X -> prog S Y) (l : list X) (s : S),
  Forall (fun x => forall t, exists y t', run (f x) t = Done y t' /\ P t' x y /\ R t t') l ->
  exists ys s', run (map_each f l) s = Done ys s' /\ Forall2 (P s') l ys /\ R s s'.
Proof.
  intros Hlater f l. induction l as [|x l IH]; intros s Hl; [by exists [], s|]. apply Forall_cons_1 in Hl as [Hx Hl].
  destruct (Hx s) as (y & s1 & E1 & P1 & R1). destruct (IH s1 Hl) as (ys & s2 & E2 & P2 & R2). exists (y :: ys), s2. cbn [map_each].
  rewrite (run_bind_Done _ _ _ _ _ E1), (run_bind_Done _ _ _ _ _ E2). split_and!; [done| |by etrans]. constructor; [by eapply Hlater|done].
Qed.

(** ** Reading what was serialized *)

(** A topology manager reads, of a serialized topology, the devices of the types it
    recognizes; [rd d] is what it makes of the device [d]. *)
Lemma run_read_topology {S : Type} (recognized : string -> bool) (make : Json.t -> prog Topology.t Device.t)
    (rd : Device.t -> option Device.t) (ds : list Device.t) metadata (s : S) :
  Forall (fun d => device_adds d /\ forall j t, Device.serialize d = Some j ->
    if recognized (Device._type d) then exists r, rd d = Some r /\ run (make j) t = Done r t else rd d = None) ds ->
  exists j, Topology.serialize (Topology.mk metadata ds) = Some j /\
    run (read_topology recognized make j) s = Done (Topology.mk Json.null (omap rd ds)) s.
Proof.
  intros Hds. unfold Topology.serialize. cbn [Topology._deviceList Topology._metadata].
  destruct (serialize_list_runs Device.serialize "Devices" ds _ keyed_null) as (j1 & js & E & Hf & HF & _).
  { eapply Forall_impl; [exact Hds|]. intros d [Ha _]. destruct (serialize_device _ Ha) as (j & ? & _). by eexists. }
  rewrite E. cbn [mbind option_bind]. destruct (assign_spec "Metadata" metadata j1) as (j & -> & _ & _ & Ho); [by eapply find_keyed|].
  eexists. split; [done|]. rewrite <- (Ho "Devices") in Hf by done. unfold read_topology.
  assert (HP : Forall2 (fun d j => Device.serialize d = Some j /\ parse_device j = Some (base_device d)) ds js).
  { clear -HF Hds. induction HF as [|d j ds js Ej HF IH]; [constructor|]. apply Forall_cons_1 in Hds as [[Ha _] Hds]. constructor; [|by apply IH].
    destruct (serialize_device _ Ha) as (j' & E' & Hp'). by replace j with j' by congruence. }
  assert (Hp : mapM parse_device js = Some (map base_device ds)).
  { apply mapM_Some, Forall2_fmap_r, Forall2_flip. eapply Forall2_impl; [exact HP|]. by intros ? ? []. }
  rewrite run_bind, (run_verify _ js _ s Hf Hp), run_bind, (run_at_key _ _ _ _ Hf), run_construct. cbn [Json.elements].
  assert (Hrun : forall ds0, run (for_each js (fun device => v ← Json.at_key device "Type"; ty ← Json.get_string v;
      if recognized ty then d ← make device; Topology.addDevice d else mret tt)) (Topology.mk Json.null ds0)
      = Done tt (Topology.mk Json.null (ds0 ++ omap rd ds))).
  { clear -Hds HP. induction HP as [|d j ds js [Ej Hp] HP IH]; intros ds0; [by rewrite app_nil_r|].
    apply Forall_cons_1 in Hds as [[Ha Hr] Hds]. destruct (parse_device_inv j _ Hp) as (_ & _ & Et & _).
    cbn [for_each]. rewrite run_bind, run_bind, (run_at_key _ _ _ _ Et), run_bind. cbn [run Json.get_string mret prog_mret base_device Device._type].
    specialize (Hr j (Topology.mk Json.null ds0) Ej). cbn [omap list_omap]. destruct (recognized (Device._type d)).
    - destruct Hr as (r & -> & Er). unfold Topology.addDevice. rewrite run_bind, Er, run_modify, IH by done. cbn. by rewrite <- app_assoc.
    - rewrite Hr, run_ret. by apply IH. }
  unfold Topology.empty. by rewrite (Hrun []).
Qed.

(** Reading the resources of a device that all have the accepted type: [base] is
    the object of the base class that is added. *)
Lemma run_read_resources {A B : Type} (accepts : string -> bool) (make : Json.t -> prog Device.t A) (base : A -> B) (add : B -> Device.t -> Device.t)
    (l : list Json.t) (xs : list A) (d : Device.t) :
  Forall2 (fun j x => exists ty, Json.find j "Type" = Some (Json.string_ ty) /\ accepts ty = true /\ forall t, run (make j) t = Done x t) l xs ->
  run (read_resources accepts make (fun o => modify (add (base o))) (Json.array l)) d = Done tt (foldl (fun d x => add x d) d (map base xs)).
Proof.
  intros HF. unfold read_resources. cbn [Json.elements]. revert d.
  induction HF as [|j x l xs (ty & Et & Ha & Em) HF IH]; intros d; [done|]. cbn [for_each foldl map].
  rewrite run_bind, run_bind, (run_at_key _ _ _ _ Et), run_bind. cbn [run Json.get_string mret prog_mret].
  rewrite Ha, run_bind. cbn [negb throw_if run]. rewrite run_bind, Em, run_modify. apply IH.
Qed.

Lemma parse_compute_inv j c : parse_compute j = Some c ->
  Json.find j "Type" = Some (Json.string_ (ComputeResource._type c)) /\ c = ComputeResource.mk (ComputeResource._type c) Some.
Proof. unfold parse_compute, parse_type. destruct (Json.find j "Type") as [[]|]; try done. by intros [= <-]. Qed.

Lemma parse_space_inv j c : parse_space j = Some c ->
  Json.find j "Type" = Some (Json.string_ (MemorySpace._type c)) /\ Json.find j "Size" = Some (Json.number_unsigned (MemorySpace._size c)) /\
  c = MemorySpace.mk (MemorySpace._type c) (MemorySpace._size c) Some.
Proof.
  unfold parse_space, parse_type. destruct (Json.find j "Type") as [[]|]; try done. cbn [mbind option_bind].
  destruct (Json.find j "Size") as [[]|]; try done. by intros [= <-].
Qed.
