(* ===== verification/Acl.v ===== *)
(** * The ACL backend: devices, memory and communication

    Models [backends/acl/device.hpp], [memorySpace.hpp], [computeResource.hpp],
    [topologyManager.hpp], [localMemorySlot.hpp], [memoryManager.hpp] and
    [communicationManager.hpp].  The functions of the ACL library are the class
    [ACL], over the memory and a state of the library; what the theorems rely on is
    in [AclSpec.v].  Memory of a device is a block of the memory like any other;
    only the library is asked to read and write it. *)

From S2P Require Import Prelude Json Topology Memory CommunicationManager HwlocTopology MemoryManager Mpi Accelerators.
From Stdlib Require Import ZArith Lia String.
From Stdlib.Strings Require Import Byte.
From stdpp Require Import base list gmap option strings.

Local Open Scope string_scope.
Local Open Scope Z_scope.
Local Open Scope list_scope.
Local Open Scope hicr_scope.

(** ** The library *)

(** [aclrtMemcpyKind]. *)
Inductive memcpy_kind : Type := HOST_TO_HOST | HOST_TO_DEVICE | DEVICE_TO_HOST | DEVICE_TO_DEVICE.

#[global] Instance memcpy_kind_eq_dec : EqDecision memcpy_kind.
Proof. solve_decision. Defined.

(** [aclrtEventRecordedStatus]. *)
Inductive event_status : Type := NOT_READY | COMPLETE.

(** Every function gives a status first, [aclCreateDataBuffer] a pointer.  Contexts,
    streams, events, data buffers and tensor descriptors are identifiers; the
    options that are always the same are left out. *)
Class ACL (L : Type) : Type := {
  ACL_SUCCESS : Z;
  aclInit : prog (memory * L) Z;
  aclrtGetDeviceCount : prog (memory * L) (Z * Z);
  aclrtSetDevice : Z -> prog (memory * L) Z;
  aclrtCreateContext : Z -> prog (memory * L) (Z * nat);
  aclrtGetCurrentContext : prog (memory * L) (Z * nat);
  aclrtSetCurrentContext : nat -> prog (memory * L) Z;
  aclrtDestroyContext : nat -> prog (memory * L) Z;
  aclrtGetMemInfo : prog (memory * L) (Z * (Z * Z));
  aclrtDeviceCanAccessPeer : Z -> Z -> prog (memory * L) (Z * Z);
  aclrtDeviceEnablePeerAccess : Z -> prog (memory * L) Z;
  aclrtMalloc : Z -> prog (memory * L) (Z * ptr);
  aclrtMallocHost : Z -> prog (memory * L) (Z * ptr);
  aclrtFree : ptr -> prog (memory * L) Z;
  aclrtFreeHost : ptr -> prog (memory * L) Z;
  aclCreateDataBuffer : ptr -> Z -> prog (memory * L) (option nat);
  aclDestroyDataBuffer : nat -> prog (memory * L) Z;
  aclrtMemset : ptr -> Z -> Z -> Z -> prog (memory * L) Z;
  aclrtMemcpy : ptr -> Z -> ptr -> Z -> memcpy_kind -> prog (memory * L) Z;
  aclrtMemcpyAsync : ptr -> Z -> ptr -> Z -> memcpy_kind -> nat -> prog (memory * L) Z;
  aclrtCreateStreamWithConfig : prog (memory * L) (Z * nat);
  aclrtDestroyStream : nat -> prog (memory * L) Z;
  aclrtSynchronizeStream : nat -> prog (memory * L) Z;
  aclrtCreateEvent : prog (memory * L) (Z * nat);
  aclrtDestroyEvent : nat -> prog (memory * L) Z;
  aclrtRecordEvent : nat -> nat -> prog (memory * L) Z;
  aclrtQueryEventStatus : nat -> prog (memory * L) (Z * event_status);
  aclopLoad : list byte -> prog (memory * L) Z;
  aclopExecuteV2 : string -> list nat -> list nat -> list nat -> list nat -> option nat -> nat -> prog (memory * L) Z
}.

(** ** Compute resources, memory spaces and devices *)

Module AclComputeResource.

(** [_device] is a weak pointer to a device. *)
Record t : Type := mk { _type : string; _device : option nat }.

Definition make (device : nat) : t := mk "Huawei Processor" (Some device).

Definition getDevice (r : t) : option nat := _device r.

(** Nothing is added to the entries of the base class. *)
Definition base (r : t) : ComputeResource.t := ComputeResource.mk (_type r) Some.

Definition deserialize (input : Json.t) : prog t unit :=
  ty ← Json.getString input "Type";
  modify (fun r => mk ty (_device r)).

Definition make_from {S : Type} (input : Json.t) : prog S t := construct (deserialize input) (mk "" None).

End AclComputeResource.

Module AclMemorySpace.

Record t : Type := mk { _type : string; _size : Z; _device : option nat }.

Definition make (device : nat) (size : Z) : t := mk "Huawei Device RAM" size (Some device).

Definition getDevice (m : t) : option nat := _device m.

Definition base (m : t) : MemorySpace.t := MemorySpace.mk (_type m) (_size m) Some.

Definition deserialize (input : Json.t) : prog t unit :=
  ty ← Json.getString input "Type";
  _ ← modify (fun m => mk ty (_size m) (_device m));
  v ← Json.require Json.is_number_unsigned input "Size";
  n ← Json.get_size v;
  modify (fun m => mk (_type m) n (_device m)).

Definition make_from {S : Type} (input : Json.t) : prog S t := construct (deserialize input) (mk "" 0 None).

End AclMemorySpace.

Module AclDevice.

(** [_context] is what the pointer of that name refers to, [None] when it is null. *)
Record t : Type := mk {
  _type : string;
  _id : Z;
  _context : option nat;
  _computeResources : list AclComputeResource.t;
  _memorySpaces : list AclMemorySpace.t
}.

Definition getId (d : t) : Z := _id d.

Definition set_context (c : nat) (d : t) : t := mk (_type d) (_id d) (Some c) (_computeResources d) (_memorySpaces d).

Definition addComputeResource (r : AclComputeResource.t) (d : t) : t :=
  mk (_type d) (_id d) (_context d) (_computeResources d ++ [r]) (_memorySpaces d).

Definition addMemorySpace (m : AclMemorySpace.t) (d : t) : t :=
  mk (_type d) (_id d) (_context d) (_computeResources d) (_memorySpaces d ++ [m]).

Definition serializeImpl (id : Z) (output : Json.t) : option Json.t :=
  Json.assign "Device Identifier" (Json.number_unsigned id) output.

(** Seen as an object of the base class. *)
Definition base (d : t) : Device.t :=
  Device.mk (_type d) (map AclComputeResource.base (_computeResources d)) (map AclMemorySpace.base (_memorySpaces d)) (serializeImpl (_id d)).

(** The identifier, which [serializeImpl] writes again, and the resources. *)
Definition deserializeImpl (input : Json.t) : prog Device.t unit :=
  v ← Json.require Json.is_number input "Device Identifier";
  n ← Json.get_size v;
  _ ← modify (fun d => Device.mk (Device._type d) (Device._computeResources d) (Device._memorySpaces d) (serializeImpl n));
  cs ← Json.at_key input Device._HICR_DEVICE_COMPUTE_RESOURCES_KEY_;
  _ ← read_resources (String.eqb "Huawei Processor") AclComputeResource.make_from (fun o => Device.addComputeResource (AclComputeResource.base o)) cs;
  ms ← Json.at_key input Device._HICR_DEVICE_MEMORY_SPACES_KEY_;
  read_resources (String.eqb "Huawei Device RAM") AclMemorySpace.make_from (fun o => Device.addMemorySpace (AclMemorySpace.base o)) ms.

Definition make_from {S : Type} (input : Json.t) : prog S Device.t :=
  construct (Device.deserialize_with deserializeImpl input) (Device.mk "" [] [] (serializeImpl 0)).

End AclDevice.

(** ** The state of the backend *)

Module Acl.

(** The objects that pointers refer to: devices, memory spaces, and the data buffers
    of the slots of the dynamic type [acl::LocalMemorySlot]. *)
Record t (L : Type) : Type := mk {
  acl_devices : gmap nat AclDevice.t;
  acl_spaces : gmap nat AclMemorySpace.t;
  acl_buffers : gmap nat nat;
  library : L
}.

Arguments mk {L} _ _ _ _.
Arguments acl_devices {L} _.
Arguments acl_spaces {L} _.
Arguments acl_buffers {L} _.
Arguments library {L} _.

Section Access.
Context {L : Type} {M : ACL L}.

Definition set_devices (ds : gmap nat AclDevice.t) (x : t L) : t L := mk ds (acl_spaces x) (acl_buffers x) (library x).
Definition set_spaces (s : gmap nat AclMemorySpace.t) (x : t L) : t L := mk (acl_devices x) s (acl_buffers x) (library x).
Definition set_buffers (s : gmap nat nat) (x : t L) : t L := mk (acl_devices x) (acl_spaces x) s (library x).
Definition set_library (l : L) (x : t L) : t L := mk (acl_devices x) (acl_spaces x) (acl_buffers x) l.

(** A call of the library. *)
Definition call {A : Type} (p : prog (memory * L) A) : prog (Machine (t L)) A :=
  zoom (fun m => Some (heap m, library (backend m)))
       (fun hl m => set_backend (set_library hl.2 (backend m)) (set_heap hl.1 m)) p.

(** [if (err != ACL_SUCCESS) HICR_THROW_RUNTIME(...)]. *)
Definition check (p : prog (memory * L) Z) : prog (Machine (t L)) unit :=
  err ← call p; throw_if (negb (err =? ACL_SUCCESS)) runtime.

Definition check_value {A : Type} (p : prog (memory * L) (Z * A)) : prog (Machine (t L)) A :=
  r ← call p;
  _ ← throw_if (negb (r.1 =? ACL_SUCCESS)) runtime;
  mret r.2.

(** *** Devices *)

Definition device (d : nat) : prog (Machine (t L)) AclDevice.t := fetch (fun m => acl_devices (backend m) !! d).

Definition update_device (f : AclDevice.t -> AclDevice.t) (d : nat) : prog (Machine (t L)) unit :=
  update (fun m => x ← acl_devices (backend m) !! d; Some (set_backend (set_devices (<[d := f x]> (acl_devices (backend m))) (backend m)) m)).

(** [new_device]: [std::make_shared<acl::Device>(id, {}, {})].  The constructor leaves
    the type empty. *)
Definition new_device (id : Z) : prog (Machine (t L)) nat :=
  context ← check_value (aclrtCreateContext id);
  Step (fun m => let d := fresh (dom (acl_devices (backend m))) in
          set_backend (set_devices (<[d := AclDevice.mk "" id (Some context) [] []]> (acl_devices (backend m))) (backend m)) m)
       (fun m => Ret (fresh (dom (acl_devices (backend m))))).

Definition new_space (m : AclMemorySpace.t) : prog (Machine (t L)) nat :=
  Step (fun st => set_backend (set_spaces (<[fresh (dom (acl_spaces (backend st))) := m]> (acl_spaces (backend st))) (backend st)) st)
       (fun st => Ret (fresh (dom (acl_spaces (backend st))))).

(** [select]; a null context is dereferenced. *)
Definition select (d : nat) : prog (Machine (t L)) unit :=
  x ← device d;
  match AclDevice._context x with
  | Some c => check (aclrtSetCurrentContext c)
  | None => Crash undefined
  end.

(** The destructor, which does not expect the device of a deserialized topology. *)
Definition destroy (d : AclDevice.t) : prog (Machine (t L)) unit :=
  match AclDevice._context d with
  | Some c => noexcept (check (aclrtDestroyContext c))
  | None => Crash undefined
  end.

(** [weak.lock()->select()]. *)
Definition lock_and_select (weak : option nat) : prog (Machine (t L)) unit :=
  match weak with Some d => select d | None => Crash undefined end.

End Access.
End Acl.

(** ** The topology manager *)

Module AclTopologyManager.
Import Acl.

Section Operations.
Context {L : Type} {M : ACL L}.

(** One round of the loop of [queryTopology]. *)
Definition query_device (deviceId : Z) : prog (Machine (Acl.t L)) nat :=
  _ ← check (aclrtSetDevice deviceId);
  d ← new_device deviceId;
  context ← check_value aclrtGetCurrentContext;
  _ ← update_device (AclDevice.set_context context) d;
  info ← check_value aclrtGetMemInfo;
  let space := AclMemorySpace.make d info.2 in
  _ ← new_space space;
  _ ← update_device (AclDevice.addComputeResource (AclComputeResource.make d)) d;
  _ ← update_device (AclDevice.addMemorySpace space) d;
  mret d.

Definition enable_access (src dst : nat) : prog (Machine (Acl.t L)) unit :=
  s ← device src;
  d ← device dst;
  if AclDevice.getId s =? AclDevice.getId d then mret tt else
  canAccessPeer ← check_value (aclrtDeviceCanAccessPeer (AclDevice.getId s) (AclDevice.getId d));
  _ ← throw_if (canAccessPeer =? 0) runtime;
  _ ← select dst;
  check (aclrtDeviceEnablePeerAccess (AclDevice.getId s)).

Definition setupInterDeviceCommunication (devices : list nat) : prog (Machine (Acl.t L)) unit :=
  for_each devices (fun src => for_each devices (enable_access src)).

(** The devices of the topology that is returned. *)
Definition queryTopology : prog (Machine (Acl.t L)) (list nat) :=
  deviceCount ← check_value aclrtGetDeviceCount;
  devices ← map_each (fun i => query_device (Z.of_nat i)) (seq 0 (Z.to_nat deviceCount));
  _ ← setupInterDeviceCommunication devices;
  mret devices.

(** That topology. *)
Definition topology_of (devices : list nat) (m : Machine (Acl.t L)) : Topology.t :=
  Topology.mk Json.null (map AclDevice.base (omap (fun d => acl_devices (backend m) !! d) devices)).

Definition deserializeTopology {S : Type} (topology : Json.t) : prog S Topology.t :=
  read_topology (String.eqb "Huawei Device") AclDevice.make_from topology.

Definition createDefault : prog (Machine (Acl.t L)) unit := check aclInit.

End Operations.
End AclTopologyManager.

(** ** The memory manager *)

Module AclMemoryManager.
Import Acl.

Section Operations.
Context {L : Type} {M : ACL L}.

Abbreviation state := (Machine (Acl.t L) * unit)%type (only parsing).

(** A memory space that is not one of hwloc may be one of this backend. *)
Definition cast_space (memorySpace : space_ref) : prog (Machine (Acl.t L)) (option AclMemorySpace.t) :=
  match memorySpace with
  | hwloc_space _ _ => mret None
  | other_space id => gets (fun m => acl_spaces (backend m) !! id)
  end.

Definition new_slot (p : ptr) (size : Z) (memorySpace : space_ref) : prog (Machine (Acl.t L)) nat :=
  Step (fun m => set_locals (<[fresh (dom (locals m)) := LocalMemorySlot.make p size (Some (space_id memorySpace))]> (locals m)) m)
       (fun m => Ret (fresh (dom (locals m)))).

Definition deviceAlloc (memorySpace : AclMemorySpace.t) (size : Z) : prog (Machine (Acl.t L)) ptr :=
  _ ← lock_and_select (AclMemorySpace.getDevice memorySpace);
  check_value (aclrtMalloc size).

Definition hostAlloc (size : Z) : prog (Machine (Acl.t L)) ptr := check_value (aclrtMallocHost size).

Definition allocateLocalDeviceMemorySlot (space : AclMemorySpace.t) (memorySpace : space_ref) (size : Z) : prog (Machine (Acl.t L)) nat :=
  p ← deviceAlloc space size;
  dataBuffer ← call (aclCreateDataBuffer p size);
  match dataBuffer with
  | None => Raise runtime
  | Some b =>
      l ← new_slot p size memorySpace;
      _ ← modify (fun m => set_backend (set_buffers (<[l := b]> (acl_buffers (backend m))) (backend m)) m);
      mret l
  end.

Definition allocateLocalHostMemorySlot (memorySpace : space_ref) (size : Z) : prog (Machine (Acl.t L)) nat :=
  p ← hostAlloc size;
  new_slot p size memorySpace.

Definition allocateLocalMemorySlotImpl (memorySpace : space_ref) (size : Z) : prog state nat :=
  space ← on_fst (cast_space memorySpace);
  match space, memorySpace with
  | Some s, _ => on_fst (allocateLocalDeviceMemorySlot s memorySpace size)
  | None, hwloc_space _ _ => on_fst (allocateLocalHostMemorySlot memorySpace size)
  | None, other_space _ => Raise logic
  end.

Definition registerLocalMemorySlotImpl (memorySpace : space_ref) (p : ptr) (size : Z) : prog state nat := on_fst (new_slot p size memorySpace).

Definition memsetImpl (memorySlot : nat) (value size : Z) : prog state unit :=
  on_fst (p ← getPointer memorySlot;
          n ← getSize memorySlot;
          check (aclrtMemset p n value size)).

(** The memory space of a slot of the device; another one is dereferenced as null. *)
Definition device_of_slot (memorySlot : nat) : prog (Machine (Acl.t L)) (option nat) :=
  s ← local_slot memorySlot;
  space ← fetch (fun m => id ← LocalMemorySlot._memorySpace s; acl_spaces (backend m) !! id);
  mret (AclMemorySpace.getDevice space).

Definition freeLocalDeviceMemorySlot (memorySlot dataBuffer : nat) : prog (Machine (Acl.t L)) unit :=
  p ← getPointer memorySlot;
  weak ← device_of_slot memorySlot;
  _ ← (match weak with Some d => device d | None => Crash undefined end);
  _ ← check (aclrtFree p);
  check (aclDestroyDataBuffer dataBuffer).

Definition freeLocalHostMemorySlot (memorySlot : nat) : prog (Machine (Acl.t L)) unit :=
  p ← getPointer memorySlot;
  check (aclrtFreeHost p).

Definition freeLocalMemorySlotImpl (memorySlot : nat) : prog state unit :=
  on_fst (b ← gets (fun m => acl_buffers (backend m) !! memorySlot);
          match b with
          | None => freeLocalHostMemorySlot memorySlot
          | Some b => freeLocalDeviceMemorySlot memorySlot b
          end).

Definition deregisterLocalMemorySlotImpl (memorySlot : nat) : prog state unit := mret tt.

#[global] Instance acl_memory : MemoryBackend (Acl.t L) unit := {
  MemoryManager.allocateLocalMemorySlotImpl := allocateLocalMemorySlotImpl;
  MemoryManager.registerLocalMemorySlotImpl := registerLocalMemorySlotImpl;
  MemoryManager.deregisterLocalMemorySlotImpl := deregisterLocalMemorySlotImpl;
  MemoryManager.memsetImpl := memsetImpl;
  MemoryManager.freeLocalMemorySlotImpl := freeLocalMemorySlotImpl
}.

End Operations.
End AclMemoryManager.

(** ** The communication manager *)

Module AclCommunicationManager.
Import Acl.

(** [deviceType_t]; [none] cannot be reached by a slot that exists. *)
Inductive deviceType_t : Type := none | host | device.

Section Operations.
Context {L : Type} {M : ACL L}.

(** The kind of a copy, and whose device is selected for it. *)
Definition choose (srcType dstType : deviceType_t) (source destination : nat) : memcpy_kind * option nat :=
  match srcType, dstType with
  | device, device => (DEVICE_TO_DEVICE, Some destination)
  | device, _ => (DEVICE_TO_HOST, Some source)
  | _, device => (HOST_TO_DEVICE, Some destination)
  | _, _ => (HOST_TO_HOST, None)
  end.

Definition deviceType (slot : nat) : prog (Machine (Acl.t L)) deviceType_t :=
  b ← gets (fun m => acl_buffers (backend m) !! slot);
  mret (match b with Some _ => device | None => host end).

(** [stream] is [None] for a copy that is complete on return. *)
Definition memcpyInternal (destination : nat) (dst_offset : Z) (source : nat) (src_offset size : Z) (stream : option nat) : prog (Machine (Acl.t L)) unit :=
  srcType ← deviceType source;
  dstType ← deviceType destination;
  srcPtr ← getPointer source;
  dstPtr ← getPointer destination;
  let '(memcpyKind, deviceMemSlot) := choose srcType dstType source destination in
  let actualSrcPtr := ptr_add srcPtr src_offset in
  let actualDstPtr := ptr_add dstPtr dst_offset in
  _ ← (match deviceMemSlot with
       | Some slot => weak ← AclMemoryManager.device_of_slot slot; lock_and_select weak
       | None => mret tt
       end);
  _ ← check (match stream with
             | Some s => aclrtMemcpyAsync actualDstPtr size actualSrcPtr size memcpyKind s
             | None => aclrtMemcpy actualDstPtr size actualSrcPtr size memcpyKind
             end);
  _ ← update_local LocalMemorySlot.increaseMessagesRecv destination;
  update_local LocalMemorySlot.increaseMessagesSent source.

Definition memcpyAsync (destination : nat) (dst_offset : Z) (source : nat) (src_offset size : Z) (stream : nat) : prog (Machine (Acl.t L)) unit :=
  memcpyInternal destination dst_offset source src_offset size (Some stream).

Definition memcpyImpl (this destination : nat) (dst_offset : Z) (source : nat) (src_offset size : Z) : prog (Machine (Acl.t L)) unit :=
  memcpyInternal destination dst_offset source src_offset size None.

(** What is not implemented. *)
Definition not_implemented {S A : Type} : prog S A := Raise runtime.

Definition getGlobalMemorySlotImpl (this : nat) (tag globalKey : Z) : prog (Machine (Acl.t L)) (option nat) := mret None.

Definition fenceImpl (this : nat) (tag : Z) : prog (Machine (Acl.t L)) unit := mret tt.

End Operations.
End AclCommunicationManager.

(** Copies that involve global slots are the refusing ones of the base class. *)
#[global] Instance acl_backend {L : Type} {M : ACL L} : CommBackend (Acl.t L) := {
  getGlobalMemorySlotImpl := AclCommunicationManager.getGlobalMemorySlotImpl;
  exchangeGlobalMemorySlotsImpl := fun _ _ _ => AclCommunicationManager.not_implemented;
  queryMemorySlotUpdatesImpl := fun _ _ => AclCommunicationManager.not_implemented;
  deregisterGlobalMemorySlotImpl := fun _ _ => mret tt;
  memcpyImplLL := AclCommunicationManager.memcpyImpl;
  memcpyImplGL := fun _ _ _ _ _ _ => Raise logic;
  memcpyImplLG := fun _ _ _ _ _ _ => Raise logic;
  fenceImplTag := AclCommunicationManager.fenceImpl;
  fenceImplLocal := fun _ _ _ _ => mret tt;
  fenceImplGlobal := fun _ _ _ _ => mret tt;
  acquireGlobalLockImpl := fun _ _ => AclCommunicationManager.not_implemented;
  releaseGlobalLockImpl := fun _ _ => AclCommunicationManager.not_implemented;
  flushSent := fun _ => mret tt;
  flushReceived := fun _ => mret tt;
  locked := fun _ _ => None;
  lock_slot := fun _ x => x;
  unlock_slot := fun _ x => x
}.
