(* ===== verification/AclSpec.v ===== *)
(** * The ACL backend: what is relied on of the library

    [AclSpec] describes the functions of the library by what they do to a [view] of
    its state: contexts, streams with the operations that have not been executed yet,
    events, data buffers and blocks of memory.  The functions may fail only where
    the class says so. *)

From S2P Require Import Prelude Memory Mpi Acl.
From Stdlib Require Import ZArith Lia String.
From Stdlib.Strings Require Import Byte.
From stdpp Require Import base list gmap option strings.

Local Open Scope Z_scope.
Local Open Scope hicr_scope.

(** What an operation in a stream does to the memory. *)
Definition op : Type := memory -> memory.

Definition copy_op (dst src : ptr) (n : Z) : op := fun h => default h (bs ← mem_load h src n; mem_store h dst bs).

(** The operations of a list, one after the other. *)
Definition perform (ops : list op) (h : memory) : memory := foldl (fun h o => o h) h ops.

Lemma perform_app ops1 ops2 h : perform (ops1 ++ ops2) h = perform ops2 (perform ops1 h).
Proof. unfold perform. apply foldl_app. Qed.

(** [v_contexts]: the device of every context.  [v_access]: the pairs of devices of
    which the first can access the memory of the second.  [v_pending]: the streams.
    [v_recorded]: the events that are the last element of a stream.  [v_buffers]: the
    data buffers.  [v_blocks]: the blocks the library has allocated, on a device or, for
    [None], on the host. *)
Record view : Type := mkView {
  v_contexts : gmap nat Z;
  v_current : option nat;
  v_access : gset (Z * Z);
  v_pending : gmap nat (list op);
  v_events : gset nat;
  v_recorded : gmap nat nat;
  v_buffers : gmap nat (ptr * Z);
  v_blocks : gmap nat (option Z)
}.

Definition with_contexts (cs : gmap nat Z) (c : option nat) (v : view) : view :=
  mkView cs c (v_access v) (v_pending v) (v_events v) (v_recorded v) (v_buffers v) (v_blocks v).
Definition with_access (a : gset (Z * Z)) (v : view) : view :=
  mkView (v_contexts v) (v_current v) a (v_pending v) (v_events v) (v_recorded v) (v_buffers v) (v_blocks v).
Definition with_pending (p : gmap nat (list op)) (r : gmap nat nat) (v : view) : view :=
  mkView (v_contexts v) (v_current v) (v_access v) p (v_events v) r (v_buffers v) (v_blocks v).
Definition with_events (e : gset nat) (v : view) : view :=
  mkView (v_contexts v) (v_current v) (v_access v) (v_pending v) e (v_recorded v) (v_buffers v) (v_blocks v).
Definition with_buffers (b : gmap nat (ptr * Z)) (v : view) : view :=
  mkView (v_contexts v) (v_current v) (v_access v) (v_pending v) (v_events v) (v_recorded v) b (v_blocks v).
Definition with_blocks (b : gmap nat (option Z)) (v : view) : view :=
  mkView (v_contexts v) (v_current v) (v_access v) (v_pending v) (v_events v) (v_recorded v) (v_buffers v) b.

(** The device whose context is the current one. *)
Definition current_device (v : view) : option Z := c ← v_current v; v_contexts v !! c.

(** The device to whose memory a pointer leads; what the library has not allocated is
    memory of the host, for which it is [None]. *)
Definition device_of (v : view) (p : ptr) : option Z :=
  match p with Ptr b _ => mjoin (v_blocks v !! b) | nullptr => None end.

(** The first of two choices, if there is one. *)
Definition prefer (d e : option Z) : option Z := match d with Some _ => d | None => e end.

(** When a copy of kind [k] from memory of [src] to memory of [dst] is possible: the
    kind is the right one; when one side is on a device, the context of that device is
    the current one; between two devices, that of the destination is the current one,
    and it has access to the other. *)
Definition copy_possible (k : memcpy_kind) (v : view) (src dst : option Z) : Prop :=
  match k with
  | HOST_TO_HOST => src = None /\ dst = None
  | HOST_TO_DEVICE => src = None /\ is_Some dst /\ current_device v = dst
  | DEVICE_TO_HOST => is_Some src /\ dst = None /\ current_device v = src
  | DEVICE_TO_DEVICE => exists a b, src = Some a /\ dst = Some b /\ current_device v = dst /\ (a = b \/ (b, a) ∈ v_access v)
  end.

(** Something is put into a stream, behind whatever event was its last element. *)
Definition enqueued (s : nat) (ops : list op) (v : view) : view :=
  with_pending (<[s := default [] (v_pending v !! s) ++ ops]> (v_pending v)) (filter (fun es => es.2 <> s) (v_recorded v)) v.

Class AclSpec (L : Type) {M : ACL L} : Type := {
  look : L -> view;
  device_count : nat;
  device_memory : Z -> Z;
  peers : Z -> Z -> bool;
  kernel_effect : string -> list nat -> list nat -> list nat -> list nat -> option nat -> gmap nat (ptr * Z) -> op;
  (** Devices and contexts. *)
  count_ok : forall h l, exists l', run aclrtGetDeviceCount (h, l) = Done (ACL_SUCCESS, Z.of_nat device_count) (h, l') /\ look l' = look l;
  set_device_ok : forall d h l, 0 <= d < Z.of_nat device_count -> exists c cs l', run (aclrtSetDevice d) (h, l) = Done ACL_SUCCESS (h, l') /\
    v_contexts (look l) ⊆ cs /\ cs !! c = Some d /\ look l' = with_contexts cs (Some c) (look l);
  create_context_ok : forall d h l, 0 <= d < Z.of_nat device_count -> exists c cur l', run (aclrtCreateContext d) (h, l) = Done (ACL_SUCCESS, c) (h, l') /\
    v_contexts (look l) !! c = None /\ (cur = v_current (look l) \/ cur = Some c) /\
    look l' = with_contexts (<[c := d]> (v_contexts (look l))) cur (look l);
  get_context_ok : forall c h l, v_current (look l) = Some c -> exists l', run aclrtGetCurrentContext (h, l) = Done (ACL_SUCCESS, c) (h, l') /\ look l' = look l;
  set_context_ok : forall c d h l, v_contexts (look l) !! c = Some d -> exists l', run (aclrtSetCurrentContext c) (h, l) = Done ACL_SUCCESS (h, l') /\
    look l' = with_contexts (v_contexts (look l)) (Some c) (look l);
  mem_info_ok : forall d h l, current_device (look l) = Some d -> exists free l', run aclrtGetMemInfo (h, l) = Done (ACL_SUCCESS, (free, device_memory d)) (h, l') /\
    look l' = look l;
  can_access_ok : forall a b h l, exists l', run (aclrtDeviceCanAccessPeer a b) (h, l) = Done (ACL_SUCCESS, Z.b2z (peers a b)) (h, l') /\ look l' = look l;
  enable_access_ok : forall a d h l, current_device (look l) = Some d -> peers a d = true -> exists l',
    run (aclrtDeviceEnablePeerAccess a) (h, l) = Done ACL_SUCCESS (h, l') /\ look l' = with_access ({[(d, a)]} ∪ v_access (look l)) (look l);
  (** Memory: an allocation may fail. *)
  malloc_ok : forall d n h l, current_device (look l) = Some d -> 0 <= n -> exists r l', run (aclrtMalloc n) (h, l) = Done r l' /\
    (r.1 <> ACL_SUCCESS /\ l'.1 = h /\ look l'.2 = look l \/
     r.1 = ACL_SUCCESS /\ exists b bs, r.2 = Ptr b 0 /\ h !! b = None /\ v_blocks (look l) !! b = None /\ Z.of_nat (length bs) = n /\
       l'.1 = <[b := bs]> h /\ look l'.2 = with_blocks (<[b := Some d]> (v_blocks (look l))) (look l));
  malloc_host_ok : forall n h l, 0 <= n -> exists r l', run (aclrtMallocHost n) (h, l) = Done r l' /\
    (r.1 <> ACL_SUCCESS /\ l'.1 = h /\ look l'.2 = look l \/
     r.1 = ACL_SUCCESS /\ exists b bs, r.2 = Ptr b 0 /\ h !! b = None /\ v_blocks (look l) !! b = None /\ Z.of_nat (length bs) = n /\
       l'.1 = <[b := bs]> h /\ look l'.2 = with_blocks (<[b := None]> (v_blocks (look l))) (look l));
  free_ok : forall b d h l, v_blocks (look l) !! b = Some (Some d) -> exists l', run (aclrtFree (Ptr b 0)) (h, l) = Done ACL_SUCCESS (delete b h, l') /\
    look l' = with_blocks (delete b (v_blocks (look l))) (look l);
  free_host_ok : forall b h l, v_blocks (look l) !! b = Some None -> exists l', run (aclrtFreeHost (Ptr b 0)) (h, l) = Done ACL_SUCCESS (delete b h, l') /\
    look l' = with_blocks (delete b (v_blocks (look l))) (look l);
  create_buffer_ok : forall p n h l, exists r l', run (aclCreateDataBuffer p n) (h, l) = Done r (h, l') /\
    match r with
    | None => look l' = look l
    | Some d => v_buffers (look l) !! d = None /\ look l' = with_buffers (<[d := (p, n)]> (v_buffers (look l))) (look l)
    end;
  destroy_buffer_ok : forall d h l, is_Some (v_buffers (look l) !! d) -> exists l', run (aclDestroyDataBuffer d) (h, l) = Done ACL_SUCCESS (h, l') /\
    look l' = with_buffers (delete d (v_buffers (look l))) (look l);
  memset_ok : forall p n x k h h' l, 0 <= k <= n -> mem_store h p (replicate (Z.to_nat k) (byte_of_Z x)) = Some h' -> exists l',
    run (aclrtMemset p n x k) (h, l) = Done ACL_SUCCESS (h', l') /\ look l' = look l;
  memcpy_ok : forall dst src n k bs h h' l, mem_load h src n = Some bs -> mem_store h dst bs = Some h' ->
    copy_possible k (look l) (device_of (look l) src) (device_of (look l) dst) -> exists l',
    run (aclrtMemcpy dst n src n k) (h, l) = Done ACL_SUCCESS (h', l') /\ look l' = look l;
  (** Streams: operations are executed in order, at the latest when the stream is synchronized. *)
  create_stream_ok : forall h l, exists s l', run aclrtCreateStreamWithConfig (h, l) = Done (ACL_SUCCESS, s) (h, l') /\
    v_pending (look l) !! s = None /\ look l' = with_pending (<[s := []]> (v_pending (look l))) (v_recorded (look l)) (look l);
  memcpy_async_ok : forall dst src n k s h l, accessible h src n -> accessible h dst n -> is_Some (v_pending (look l) !! s) ->
    copy_possible k (look l) (device_of (look l) src) (device_of (look l) dst) -> exists l',
    run (aclrtMemcpyAsync dst n src n k s) (h, l) = Done ACL_SUCCESS (h, l') /\ look l' = enqueued s [copy_op dst src n] (look l);
  execute_ok : forall name ind inb outd outb attr s h l, is_Some (current_device (look l)) -> is_Some (v_pending (look l) !! s) -> exists l',
    run (aclopExecuteV2 name ind inb outd outb attr s) (h, l) = Done ACL_SUCCESS (h, l') /\
    look l' = enqueued s [kernel_effect name ind inb outd outb attr (v_buffers (look l))] (look l);
  create_event_ok : forall h l, exists e l', run aclrtCreateEvent (h, l) = Done (ACL_SUCCESS, e) (h, l') /\
    (e ∉ v_events (look l)) /\ v_recorded (look l) !! e = None /\ look l' = with_events ({[e]} ∪ v_events (look l)) (look l);
  record_ok : forall e s h l, e ∈ v_events (look l) -> is_Some (v_pending (look l) !! s) -> exists l',
    run (aclrtRecordEvent e s) (h, l) = Done ACL_SUCCESS (h, l') /\
    look l' = with_pending (v_pending (look l)) (<[e := s]> (filter (fun es => es.2 <> s) (v_recorded (look l)))) (look l);
  query_ok : forall e s ops h l, e ∈ v_events (look l) -> v_recorded (look l) !! e = Some s -> v_pending (look l) !! s = Some ops -> exists st k l',
    run (aclrtQueryEventStatus e) (h, l) = Done (ACL_SUCCESS, st) (perform (take k ops) h, l') /\ (st = COMPLETE -> drop k ops = []) /\
    look l' = with_pending (<[s := drop k ops]> (v_pending (look l))) (v_recorded (look l)) (look l);
  synchronize_ok : forall s ops h l, v_pending (look l) !! s = Some ops -> exists l',
    run (aclrtSynchronizeStream s) (h, l) = Done ACL_SUCCESS (perform ops h, l') /\
    look l' = with_pending (<[s := []]> (v_pending (look l))) (v_recorded (look l)) (look l);
  destroy_event_ok : forall e h l, e ∈ v_events (look l) -> exists l', run (aclrtDestroyEvent e) (h, l) = Done ACL_SUCCESS (h, l') /\
    look l' = with_events (v_events (look l) ∖ {[e]}) (with_pending (v_pending (look l)) (delete e (v_recorded (look l))) (look l))
}.

(** ** Calls *)

Section Calls.
Context {L : Type} {M : ACL L}.
Implicit Types (m : Machine (Acl.t L)) (l : L).
Import Acl.

(** The machine after a call. *)
Definition after (h : memory) (l : L) (m : Machine (Acl.t L)) : Machine (Acl.t L) :=
  set_backend (set_library l (backend m)) (set_heap h m).

Abbreviation lib m := (Acl.library (backend m)) (only parsing).

Lemma run_acl_call {A : Type} (p : prog (memory * L) A) m :
  run (call p) m =
  match run p (heap m, lib m) with
  | Done a s => Done a (after s.1 s.2 m)
  | Thrown e s => Thrown e (after s.1 s.2 m)
  | Crashed c s => Crashed c (after s.1 s.2 m)
  | Blocked s => Blocked (after s.1 s.2 m)
  end.
Proof.
  unfold call. erewrite run_zoom; [reflexivity|reflexivity|by destruct m as [? ? ? ? []]|by intros [] [? ? ? ? []]|by intros [] [] [? ? ? ? []]].
Qed.

Lemma run_acl_check p m h l : run p (heap m, lib m) = Done ACL_SUCCESS (h, l) -> run (check p) m = Done tt (after h l m).
Proof. intros E. unfold check. rewrite run_bind, run_acl_call, E. by rewrite Z.eqb_refl. Qed.

Lemma run_check_value {A : Type} (p : prog (memory * L) (Z * A)) m a h l :
  run p (heap m, lib m) = Done (ACL_SUCCESS, a) (h, l) -> run (check_value p) m = Done a (after h l m).
Proof. intros E. unfold check_value. rewrite run_bind, run_acl_call, E. cbn. by rewrite Z.eqb_refl. Qed.

(** Any other status is a runtime error. *)
Lemma run_check_failed p m status h l :
  run p (heap m, lib m) = Done status (h, l) -> status <> ACL_SUCCESS -> run (check p) m = Thrown runtime (after h l m).
Proof. intros E Hs. unfold check. rewrite run_bind, run_acl_call, E. cbn. apply Z.eqb_neq in Hs. by rewrite Hs. Qed.

Lemma run_check_value_failed {A : Type} (p : prog (memory * L) (Z * A)) m r h l :
  run p (heap m, lib m) = Done r (h, l) -> r.1 <> ACL_SUCCESS -> run (check_value p) m = Thrown runtime (after h l m).
Proof. intros E Hs. unfold check_value. rewrite run_bind, run_acl_call, E. cbn. apply Z.eqb_neq in Hs. by rewrite Hs. Qed.

(** Selecting a device makes its context the current one. *)
Lemma run_acl_select {Sp : AclSpec L} d x c i m :
  acl_devices (backend m) !! d = Some x -> AclDevice._context x = Some c -> v_contexts (look (lib m)) !! c = Some i ->
  exists l, run (select d) m = Done tt (after (heap m) l m) /\
    look l = with_contexts (v_contexts (look (lib m))) (Some c) (look (lib m)).
Proof.
  intros Hd Hc Hi. destruct (set_context_ok c i (heap m) (lib m) Hi) as (l & E & V). exists l. split; [|done].
  unfold select, device. rewrite (run_bind_Done _ _ _ _ _ (run_fetch _ m x Hd)), Hc. by apply run_acl_check.
Qed.

End Calls.
