(* ===== verification/AclTopology.v ===== *)
(** * The ACL backend: theorems on topologies

    [queryTopology] finds every device of the library, with its memory, and lets
    every pair of devices access each other.  Devices that have a type are read back
    from their serialization, but those that [queryTopology] makes have none: their
    topology is lost when it is serialized and read again. *)

From S2P Require Import Prelude Json Topology TopologySpec Memory Mpi HwlocTopology Accelerators Acl AclSpec.
From Stdlib Require Import ZArith Lia String.
From stdpp Require Import base list gmap option strings.

Local Open Scope string_scope.
Local Open Scope Z_scope.
Local Open Scope list_scope.
Local Open Scope hicr_scope.

(** ** Discovery *)

Section Query.
Context {L : Type} {M : ACL L} {Sp : AclSpec L}.
Implicit Types (m : Machine (Acl.t L)) (l : L).
Import Acl AclTopologyManager.

Abbreviation lib m := (Acl.library (backend m)) (only parsing).

(** Everything but devices, contexts and accesses stays. *)
Record discovering (m m' : Machine (Acl.t L)) : Prop := mkDiscovering {
  disc_heap : heap m' = heap m;
  disc_locals : locals m' = locals m;
  disc_buffers : acl_buffers (backend m') = acl_buffers (backend m);
  disc_devices : acl_devices (backend m) ⊆ acl_devices (backend m');
  disc_contexts : v_contexts (look (lib m)) ⊆ v_contexts (look (lib m'));
  disc_access : v_access (look (lib m)) ⊆ v_access (look (lib m'))
}.

#[local] Instance discovering_preorder : PreOrder discovering.
Proof.
  split; [done|]. intros x y z [] []. split; try congruence; by etrans.
Qed.

(** A device with its context and resources. *)
Definition found (m : Machine (Acl.t L)) (i : Z) (d : nat) : Prop :=
  exists c, acl_devices (backend m) !! d =
      Some (AclDevice.mk "" i (Some c) [AclComputeResource.make d] [AclMemorySpace.make d (device_memory i)]) /\
    v_contexts (look (lib m)) !! c = Some i.

Lemma found_later m m' i d : discovering m m' -> found m i d -> found m' i d.
Proof.
  intros H (c & Hd & Hc). exists c. split; eapply lookup_weaken; eauto using disc_devices, disc_contexts.
Qed.

Lemma run_query_device i m : 0 <= i < Z.of_nat device_count ->
  exists d m', run (query_device i) m = Done d m' /\ discovering m m' /\ found m' i d /\
    acl_devices (backend m) !! d = None.
Proof.
  intros Hi. unfold query_device.
  destruct (set_device_ok i (heap m) (lib m) Hi) as (c0 & cs & l1 & E1 & Hcs & Hc0 & V1).
  rewrite (run_bind_Done _ _ _ _ _ (run_acl_check _ m _ _ E1)).
  destruct (create_context_ok i (heap m) l1 Hi) as (c1 & cur & l2 & E2 & Hc1 & Hcur & V2).
  set (m1 := after (heap m) l1 m). set (d := fresh (dom (acl_devices (backend m)))).
  assert (En : run (new_device i) m1 = Done d (set_backend (set_devices (<[d := AclDevice.mk "" i (Some c1) [] []]> (acl_devices (backend m)))
      (backend (after (heap m) l2 m1))) (after (heap m) l2 m1))).
  { unfold new_device. by rewrite (run_bind_Done _ _ _ _ _ (run_check_value _ m1 _ _ _ E2)). }
  rewrite (run_bind_Done _ _ _ _ _ En). clear En. rewrite V1 in Hc1, Hcur, V2. cbn in Hc1, Hcur, V2.
  assert (Hc : exists c, cur = Some c /\ <[c1 := i]> cs !! c = Some i).
  { destruct Hcur as [->| ->]; [|exists c1; by rewrite lookup_insert_eq]. exists c0. split; [done|].
    rewrite lookup_insert_ne; [done|]. by intros ->; rewrite Hc0 in Hc1. }
  destruct Hc as (c & -> & Hc).
  match goal with |- context [run _ ?x] => set (m2 := x) end.
  destruct (get_context_ok c (heap m2) (lib m2)) as (l3 & E3 & V3); [by cbn; rewrite V2|].
  rewrite (run_bind_Done _ _ _ _ _ (run_check_value _ m2 _ _ _ E3)).
  rewrite (run_bind_Done _ _ _ (set_backend (set_devices (<[d := AclDevice.mk "" i (Some c) [] []]> (acl_devices (backend m))) (backend (after (heap m2) l3 m2))) (after (heap m2) l3 m2)) tt); cycle 1.
  { apply run_update. cbn. rewrite lookup_insert_eq. cbn. by rewrite insert_insert_eq. }
  match goal with |- context [run _ ?x] => set (m3 := x) end.
  destruct (mem_info_ok i (heap m3) (lib m3)) as (fr & l4 & E4 & V4); [unfold current_device; cbn; by rewrite V3; cbn; rewrite V2|].
  rewrite (run_bind_Done _ _ _ _ _ (run_check_value _ m3 _ _ _ E4)). cbn zeta. cbn [snd].
  do 3 (erewrite run_bind_Done; [|first [reflexivity|by apply run_update; cbn; rewrite lookup_insert_eq; cbn; rewrite insert_insert_eq]]).
  eexists _, _. split; [reflexivity|]. assert (Hfresh : acl_devices (backend m) !! d = None) by apply not_elem_of_dom, is_fresh.
  assert (VC : v_contexts (look l4) = <[c1 := i]> cs) by (rewrite V4; cbn; rewrite V3; cbn; by rewrite V2).
  split_and!; [split; try done| |done].
  - cbn. by apply insert_subseteq.
  - cbn. rewrite VC. etrans; [exact Hcs|]. by apply insert_subseteq.
  - cbn. rewrite V4. cbn. rewrite V3. cbn. by rewrite V2.
  - exists c. cbn. rewrite lookup_insert_eq, VC. split; [|done]. reflexivity.
Qed.

Lemma run_query_devices n m : (n <= device_count)%nat ->
  exists ds m', run (map_each (fun i => query_device (Z.of_nat i)) (seq (device_count - n) n)) m = Done ds m' /\ discovering m m' /\
    Forall2 (fun i d => found m' (Z.of_nat i) d /\ acl_devices (backend m) !! d = None) (seq (device_count - n) n) ds.
Proof.
  revert m. induction n as [|n IH]; intros m Hn; [by exists [], m|]. cbn [seq map_each].
  destruct (run_query_device (Z.of_nat (device_count - S n)) m) as (d & m1 & E1 & D1 & F1 & N1); [lia|].
  rewrite (run_bind_Done _ _ _ _ _ E1). destruct (IH m1) as (ds & m2 & E2 & D2 & F2); [lia|].
  replace (S (device_count - S n)) with (device_count - n)%nat by lia. rewrite (run_bind_Done _ _ _ _ _ E2).
  exists (d :: ds), m2. split_and!; [done|by etrans|]. constructor; [by split; [eapply found_later|]|].
  eapply Forall2_impl; [exact F2|]. intros i x [? Hx]. split; [done|].
  by eapply lookup_weaken_None; [|apply D1].
Qed.

(** *** Accesses between devices *)

Definition may_access (m : Machine (Acl.t L)) (i j : Z) : Prop := i <> j -> (j, i) ∈ v_access (look (lib m)).

Lemma run_enable_access m i j src dst : found m i src -> found m j dst -> (i <> j -> peers i j = true) ->
  exists m', run (enable_access src dst) m = Done tt m' /\ discovering m m' /\ may_access m' i j.
Proof.
  intros (c1 & H1 & C1) (c2 & H2 & C2) Hp. unfold enable_access, device.
  rewrite (run_bind_Done _ _ _ _ _ (run_fetch _ m _ H1)), (run_bind_Done _ _ _ _ _ (run_fetch _ m _ H2)). cbn [AclDevice.getId AclDevice._id].
  destruct (Z.eqb_spec i j) as [->|Hij]; [exists m; split_and!; [done|done|by intros ?]|].
  destruct (can_access_ok i j (heap m) (lib m)) as (l1 & E1 & V1). rewrite (run_bind_Done _ _ _ _ _ (run_check_value _ m _ _ _ E1)).
  rewrite (Hp Hij). cbn [Z.b2z]. rewrite (run_bind_Done _ _ _ _ _ (run_throw_if_false _ _ _ eq_refl)).
  destruct (run_acl_select dst _ c2 j (after (heap m) l1 m) H2 eq_refl) as (l2 & E2 & V2); [by cbn; rewrite V1|].
  rewrite (run_bind_Done _ _ _ _ _ E2). match goal with |- context [run _ ?x] => set (m2 := x) end.
  destruct (enable_access_ok i j (heap m2) (lib m2)) as (l3 & E3 & V3); [unfold current_device; cbn; rewrite V2; cbn; by rewrite V1|by apply Hp|].
  eexists. split; [by apply run_acl_check|]. assert (V : look l3 = with_access ({[(j, i)]} ∪ v_access (look (lib m))) (with_contexts (v_contexts (look (lib m))) (Some c2) (look (lib m)))).
  { rewrite V3. cbn. rewrite V2. cbn. by rewrite V1. }
  split; [split; try done; cbn; rewrite V; cbn; [done|set_solver]|]. intros _. cbn. rewrite V. cbn. set_solver.
Qed.

(** All pairs of a list whose first component is a given one. *)
Lemma run_enable_from m i src (dsts : list nat) (js : list nat) :
  found m i src -> Forall2 (fun j d => found m (Z.of_nat j) d /\ (i <> Z.of_nat j -> peers i (Z.of_nat j) = true)) js dsts ->
  exists m', run (for_each dsts (enable_access src)) m = Done tt m' /\ discovering m m' /\ Forall (fun j => may_access m' i (Z.of_nat j)) js.
Proof.
  intros Hs HF. revert m Hs HF. induction dsts as [|d dsts IH] in js |- *; intros m Hs HF; inversion HF as [|j ? js' ? [Hd Hp] HF']; subst; [by exists m|].
  destruct (run_enable_access m i (Z.of_nat j) src d Hs Hd Hp) as (m1 & E1 & D1 & A1).
  cbn [for_each]. rewrite (run_bind_Done _ _ _ _ _ E1). destruct (IH js' m1) as (m2 & E2 & D2 & A2); [by eapply found_later| |].
  { eapply Forall2_impl; [exact HF'|]. intros k x [? ?]. split; [by eapply found_later|done]. }
  exists m2. split_and!; [done|by etrans|]. constructor; [|done]. intros Hne. apply D2. by apply A1.
Qed.

Lemma run_setup m (idx : list nat) ds :
  Forall2 (fun i d => found m (Z.of_nat i) d) idx ds ->
  (forall i j, i ∈ idx -> j ∈ idx -> i <> j -> peers (Z.of_nat i) (Z.of_nat j) = true) ->
  exists m', run (setupInterDeviceCommunication ds) m = Done tt m' /\ discovering m m' /\
    forall i j, i ∈ idx -> j ∈ idx -> may_access m' (Z.of_nat i) (Z.of_nat j).
Proof.
  intros HF Hp. unfold setupInterDeviceCommunication.
  assert (H : forall idx0 ds0 m0, discovering m m0 -> Forall2 (fun i d => found m0 (Z.of_nat i) d) idx0 ds0 -> idx0 ⊆ idx ->
    exists m', run (for_each ds0 (fun src => for_each ds (enable_access src))) m0 = Done tt m' /\ discovering m0 m' /\
      forall i j, i ∈ idx0 -> j ∈ idx -> may_access m' (Z.of_nat i) (Z.of_nat j)).
  { intros idx0 ds0. revert idx0. induction ds0 as [|d ds0 IH]; intros idx0 m0 Hm HF0 Hsub; inversion HF0 as [|i ? idx1 ? Hd HF1]; subst.
    { exists m0. split_and!; [done|done|]. intros ? ? Hn. by apply elem_of_nil in Hn. }
    destruct (run_enable_from m0 (Z.of_nat i) d ds idx Hd) as (m1 & E1 & D1 & A1).
    { apply Forall2_same_length_lookup_2; [by eapply Forall2_length|]. intros k j x Hj Hx. split.
      - eapply found_later; [exact Hm|]. exact (Forall2_lookup_lr _ _ _ _ _ _ HF Hj Hx).
      - intros Hne. apply Hp; [apply Hsub; by left|by eapply list_elem_of_lookup_2|congruence]. }
    cbn [for_each]. rewrite (run_bind_Done _ _ _ _ _ E1). destruct (IH idx1 m1) as (m2 & E2 & D2 & A2); [by etrans| |by intros x Hx; apply Hsub; right|].
    { eapply Forall2_impl; [exact HF1|]. intros k x. by apply found_later. }
    exists m2. split_and!; [done|by etrans|]. intros a b Ha Hb. apply elem_of_cons in Ha as [->|Ha]; [|by apply A2].
    intros Hne. apply D2. eapply Forall_forall in A1; [|exact Hb]. by apply A1. }
  destruct (H idx ds m) as (m' & ? & ? & ?); [done|done|done|]. by exists m'.
Qed.

Lemma run_acl_queryTopology m :
  (forall i j, (i < device_count)%nat -> (j < device_count)%nat -> i <> j -> peers (Z.of_nat i) (Z.of_nat j) = true) ->
  exists ds m', run queryTopology m = Done ds m' /\ discovering m m' /\
    Forall2 (fun i d => found m' (Z.of_nat i) d) (seq 0 device_count) ds /\
    forall i j, (i < device_count)%nat -> (j < device_count)%nat -> may_access m' (Z.of_nat i) (Z.of_nat j).
Proof.
  intros Hp. unfold queryTopology. destruct (count_ok (heap m) (lib m)) as (l1 & E1 & V1).
  rewrite (run_bind_Done _ _ _ _ _ (run_check_value _ m _ _ _ E1)), Nat2Z.id. set (m1 := after (heap m) l1 m).
  destruct (run_query_devices device_count m1 (le_n _)) as (ds & m2 & E2 & D2 & F2). rewrite Nat.sub_diag in E2, F2.
  rewrite (run_bind_Done _ _ _ _ _ E2).
  assert (F2' : Forall2 (fun i d => found m2 (Z.of_nat i) d) (seq 0 device_count) ds) by (eapply Forall2_impl; [exact F2|]; by intros ? ? []).
  destruct (run_setup m2 (seq 0 device_count) ds F2') as (m3 & E3 & D3 & A3).
  { intros i j Hi%elem_of_seq Hj%elem_of_seq. apply Hp; lia. }
  rewrite (run_bind_Done _ _ _ _ _ E3). exists ds, m3. split_and!; [done| | |].
  - etrans; [|exact D3]. etrans; [|exact D2]. split; try done; cbn; by rewrite V1.
  - eapply Forall2_impl; [exact F2'|]. intros i d. by apply found_later.
  - intros i j Hi Hj. apply A3; apply elem_of_seq; lia.
Qed.

End Query.

(** ** Serialization *)

Lemma adds_nothing : adds Some.
Proof. intros j Hj. by exists j. Qed.

Lemma acl_device_adds d : device_adds (AclDevice.base d).
Proof.
  split; cbn.
  - by apply adds_assign.
  - apply Forall_fmap, Forall_forall. intros r _. apply adds_nothing.
  - apply Forall_fmap, Forall_forall. intros r _. apply adds_nothing.
Qed.

(** A device whose type and whose resources' types are those of this backend. *)
Definition acl_typed (d : AclDevice.t) : Prop :=
  AclDevice._type d = "Huawei Device" /\
  Forall (fun r => AclComputeResource._type r = "Huawei Processor") (AclDevice._computeResources d) /\
  Forall (fun r => AclMemorySpace._type r = "Huawei Device RAM") (AclDevice._memorySpaces d).

(** The two lists of a device, read by this class: the reference to the device is
    not serialized. *)
Lemma run_read_computes l cs d :
  mapM parse_compute l = Some cs -> Forall (fun c => ComputeResource._type c = "Huawei Processor") cs ->
  run (read_resources (String.eqb "Huawei Processor") AclComputeResource.make_from (fun o => Device.addComputeResource (AclComputeResource.base o)) (Json.array l)) d
  = Done tt (Device.mk (Device._type d) (Device._computeResources d ++ cs) (Device._memorySpaces d) (Device.serializeImpl d)).
Proof.
  intros Hp%mapM_Some Ht. unfold Device.addComputeResource.
  erewrite (run_read_resources _ _ AclComputeResource.base (fun c d => Device.mk (Device._type d) (Device._computeResources d ++ [c]) (Device._memorySpaces d) (Device.serializeImpl d)) l
    (map (fun c => AclComputeResource.mk (ComputeResource._type c) None) cs)).
  - rewrite foldl_add_compute, map_map. do 3 f_equal. clear Ht. induction Hp as [|j c l cs Hj _ IH]; [done|]. apply parse_compute_inv in Hj as [_ Hc]. cbn. rewrite IH. by f_equal.
  - apply Forall2_fmap_r. induction Hp as [|j c l cs Hj _ IH]; [constructor|]. apply Forall_cons_1 in Ht as [Hc Ht]. constructor; [|by apply IH].
    apply parse_compute_inv in Hj as [Hj _]. eexists. split_and!; [exact Hj|by rewrite Hc|]. intros t. unfold AclComputeResource.make_from, AclComputeResource.deserialize.
    by rewrite run_construct, run_bind, run_getString, Hj.
Qed.

Lemma run_read_spaces l ms d :
  mapM parse_space l = Some ms -> Forall (fun c => MemorySpace._type c = "Huawei Device RAM") ms ->
  run (read_resources (String.eqb "Huawei Device RAM") AclMemorySpace.make_from (fun o => Device.addMemorySpace (AclMemorySpace.base o)) (Json.array l)) d
  = Done tt (Device.mk (Device._type d) (Device._computeResources d) (Device._memorySpaces d ++ ms) (Device.serializeImpl d)).
Proof.
  intros Hp%mapM_Some Ht. unfold Device.addMemorySpace.
  erewrite (run_read_resources _ _ AclMemorySpace.base (fun c d => Device.mk (Device._type d) (Device._computeResources d) (Device._memorySpaces d ++ [c]) (Device.serializeImpl d)) l
    (map (fun c => AclMemorySpace.mk (MemorySpace._type c) (MemorySpace._size c) None) ms)).
  - rewrite foldl_add_space, map_map. do 3 f_equal. clear Ht. induction Hp as [|j c l ms Hj _ IH]; [done|]. apply parse_space_inv in Hj as (_ & _ & Hc). cbn. rewrite IH. by f_equal.
  - apply Forall2_fmap_r. induction Hp as [|j c l ms Hj _ IH]; [constructor|]. apply Forall_cons_1 in Ht as [Hc Ht]. constructor; [|by apply IH].
    apply parse_space_inv in Hj as (Hj & Hs & _). eexists. split_and!; [exact Hj|by rewrite Hc|]. intros t. unfold AclMemorySpace.make_from, AclMemorySpace.deserialize.
    by rewrite run_construct, run_bind, run_getString, Hj, run_bind, run_modify, run_bind, run_require, Hs.
Qed.

Lemma acl_device_read {S : Type} d j (s : S) :
  acl_typed d -> Device.serialize (AclDevice.base d) = Some j -> run (AclDevice.make_from j) s = Done (AclDevice.base d) s.
Proof.
  intros (Hty & Hcs & Hms) Ej. destruct (serialize_device_entries _ (acl_device_adds d)) as (j' & j0 & j1 & E & Hp & Hk & E1 & Ho).
  replace j' with j in * by congruence. unfold AclDevice.make_from. rewrite run_construct.
  destruct (parse_device_inv j _ Hp) as (lc & ls & _ & Ec & Es & Ecs & Ems & _).
  assert (Hbc : map base_compute (map AclComputeResource.base (AclDevice._computeResources d)) = map AclComputeResource.base (AclDevice._computeResources d)) by by rewrite map_map.
  assert (Hbs : map base_space (map AclMemorySpace.base (AclDevice._memorySpaces d)) = map AclMemorySpace.base (AclDevice._memorySpaces d)) by by rewrite map_map.
  erewrite (run_deserialize_with _ j _ _ (AclDevice.serializeImpl (AclDevice._id d)) Hp).
  - unfold AclDevice.base at 2. cbn [base_device Device._type Device._computeResources Device._memorySpaces AclDevice.base]. by rewrite Hbc, Hbs.
  - destruct (assign_spec "Device Identifier" (Json.number_unsigned (AclDevice._id d)) j0 Hk) as (j2 & E2 & _ & Hn & _).
    assert (j2 = j1) as -> by (cbn in E1; unfold AclDevice.serializeImpl in E1; congruence).
    unfold AclDevice.deserializeImpl. rewrite <- (Ho "Device Identifier") in Hn by done.
    rewrite run_bind, run_require, Hn. cbn [Json.is_number]. rewrite run_bind. cbn [run Json.get_size mret prog_mret]. rewrite run_bind, run_modify.
    rewrite run_bind, (run_at_key _ _ _ _ Ec), run_bind, (run_read_computes _ _ _ Ecs).
    + rewrite run_bind, (run_at_key _ _ _ _ Es), (run_read_spaces _ _ _ Ems); [done|]. cbn. rewrite Hbs. by apply Forall_fmap.
    + cbn. rewrite Hbc. by apply Forall_fmap.
Qed.

(** Devices with the types of this backend are serialized without error and read
    back by the topology manager as they were, up to the references to the devices
    and the contexts. *)
Theorem acl_devices_roundtrip {S : Type} (ds : list AclDevice.t) metadata (s : S) :
  Forall acl_typed ds ->
  exists j, Topology.serialize (Topology.mk metadata (map AclDevice.base ds)) = Some j /\
    run (AclTopologyManager.deserializeTopology j) s = Done (Topology.mk Json.null (map AclDevice.base ds)) s.
Proof.
  intros Hds. destruct (run_read_topology (String.eqb "Huawei Device") AclDevice.make_from Some (map AclDevice.base ds) metadata s) as (j & Ej & Er).
  - apply Forall_fmap. eapply Forall_impl; [exact Hds|]. intros d Hd. split; [apply acl_device_adds|]. intros j t Ej. cbn [AclDevice.base Device._type].
    destruct Hd as (Hty & Hd). rewrite Hty. cbn. eexists. split; [done|]. by apply acl_device_read.
  - exists j. split; [done|]. unfold AclTopologyManager.deserializeTopology. rewrite Er. do 2 f_equal.
    generalize (map AclDevice.base ds). intros l. induction l as [|x l IH]; [done|]. cbn. by rewrite IH.
Qed.

(** ** The topology that is found *)

Section Found.
Context {L : Type} {M : ACL L} {Sp : AclSpec L}.
Implicit Types m : Machine (Acl.t L).
Import Acl AclTopologyManager.

(** The devices of the library as they are seen in the topology. *)
Definition acl_device_of (i d : nat) : Device.t :=
  AclDevice.base (AclDevice.mk "" (Z.of_nat i) None [AclComputeResource.make d] [AclMemorySpace.make d (device_memory (Z.of_nat i))]).

Lemma topology_of_found m (idx ds : list nat) :
  Forall2 (fun i d => found m (Z.of_nat i) d) idx ds -> topology_of ds m = Topology.mk Json.null (zip_with acl_device_of idx ds).
Proof.
  intros HF. unfold topology_of. f_equal. induction HF as [|i d idx ds (c & Hd & _) _ IH]; [done|]. cbn. rewrite Hd. cbn. by rewrite IH.
Qed.

(** [queryTopology] returns one device for each device of the library, in the
    order of their numbers: device [i] has the identifier [i], a context of its own
    device, one compute resource and one memory space of the size the library tells
    for it.  Afterwards any two different devices can access each other. *)
Theorem acl_query_topology m :
  (forall i j, (i < device_count)%nat -> (j < device_count)%nat -> i <> j -> peers (Z.of_nat i) (Z.of_nat j) = true) ->
  exists ds m', run queryTopology m = Done ds m' /\ discovering m m' /\
    Forall2 (fun i d => found m' (Z.of_nat i) d) (seq 0 device_count) ds /\
    topology_of ds m' = Topology.mk Json.null (zip_with acl_device_of (seq 0 device_count) ds) /\
    forall i j, (i < device_count)%nat -> (j < device_count)%nat -> i <> j ->
      (Z.of_nat i, Z.of_nat j) ∈ v_access (look (Acl.library (backend m'))).
Proof.
  intros Hp. destruct (run_acl_queryTopology m Hp) as (ds & m' & E & D & F & A). exists ds, m'.
  split_and!; [done|done|done|by apply topology_of_found|]. intros i j Hi Hj Hne. apply (A j i); [done|done|lia].
Qed.

(** C37: the topology that [queryTopology] returns does not survive its serialization:
    it is serialized without error, but its devices have no type, and the topology
    manager that reads the result finds no device in it. *)
Theorem acl_topology_lost {S : Type} m (s : S) :
  (forall i j, (i < device_count)%nat -> (j < device_count)%nat -> i <> j -> peers (Z.of_nat i) (Z.of_nat j) = true) ->
  exists ds m' j, run queryTopology m = Done ds m' /\ length (Topology.getDevices (topology_of ds m')) = device_count /\
    Topology.serialize (topology_of ds m') = Some j /\ run (deserializeTopology j) s = Done Topology.empty s.
Proof.
  intros Hp. destruct (run_acl_queryTopology m Hp) as (ds & m' & E & D & F & A).
  pose proof (topology_of_found m' _ ds F) as Ht. apply Forall2_length in F. rewrite length_seq in F.
  destruct (run_read_topology (String.eqb "Huawei Device") AclDevice.make_from (fun _ => None) (zip_with acl_device_of (seq 0 device_count) ds) Json.null s) as (j & Ej & Er).
  - apply Forall_forall. intros x Hx. apply elem_of_lookup_zip_with in Hx as (k & i & d & -> & _). split; [apply acl_device_adds|done].
  - exists ds, m', j. rewrite Ht. split_and!; [done| |done|].
    + cbn. rewrite length_zip_with, length_seq. lia.
    + unfold deserializeTopology. rewrite Er. unfold Topology.empty. do 2 f_equal. generalize (zip_with acl_device_of (seq 0 device_count) ds).
      intros l. induction l as [|x l IH]; [done|]. by cbn.
Qed.

End Found.
