(* ===== verification/AclMemory.v ===== *)
(** * The ACL backend: theorems on memory and copies *)

From S2P Require Import Prelude Memory CommunicationManager MemoryManager Mpi Accelerators Acl AclSpec.
From Stdlib Require Import ZArith Lia String.
From Stdlib.Strings Require Import Byte.
From stdpp Require Import base list gmap option strings.

Local Open Scope Z_scope.
Local Open Scope hicr_scope.

Section Slots.
Context {L : Type} {M : ACL L} {Sp : AclSpec L}.
Implicit Types (m : Machine (Acl.t L)) (l : L).
Import Acl.

Abbreviation lib m := (Acl.library (backend m)) (only parsing).

(** The device of a memory space is there, and has a context, on the device [i]. *)
Definition usable (m : Machine (Acl.t L)) (sp : AclMemorySpace.t) (i : Z) : Prop :=
  exists d x c, AclMemorySpace._device sp = Some d /\ acl_devices (backend m) !! d = Some x /\ AclDevice._context x = Some c /\
    v_contexts (look (lib m)) !! c = Some i.

Definition selectable (m : Machine (Acl.t L)) (i : nat) (d : Z) : Prop :=
  exists s id sp, locals m !! i = Some s /\ LocalMemorySlot._memorySpace s = Some id /\ acl_spaces (backend m) !! id = Some sp /\ usable m sp d.

(** A slot in the memory of the device [dev], which has a data buffer, or in that of
    the host. *)
Definition acl_slot (m : Machine (Acl.t L)) (i : nat) (p : ptr) (n : Z) (dev : option Z) : Prop :=
  slot_at m i p n /\ device_of (look (lib m)) p = dev /\
  match dev with
  | Some d => is_Some (acl_buffers (backend m) !! i) /\ selectable m i d
  | None => acl_buffers (backend m) !! i = None
  end.

(** The first of two devices has access to the memory of the second. *)
Definition reaches (v : view) (d e : option Z) : Prop :=
  forall a b, d = Some a -> e = Some b -> b = a \/ (a, b) ∈ v_access v.

(** Only the current context may be another one: that of the device [d], if any. *)
Definition selects (d : option Z) (v v' : view) : Prop :=
  (exists c, v' = with_contexts (v_contexts v) c v) /\ current_device v' = prefer d (current_device v).

Lemma selects_refl v : selects None v v.
Proof. split; [|done]. exists (v_current v). by destruct v. Qed.

Lemma run_lock_and_select sp d m : usable m sp d ->
  exists l, run (lock_and_select (AclMemorySpace.getDevice sp)) m = Done tt (after (heap m) l m) /\ selects (Some d) (look (lib m)) (look l).
Proof.
  intros (dv & x & c & Hd & Hx & Hc & Hi). unfold lock_and_select, AclMemorySpace.getDevice. rewrite Hd.
  destruct (run_acl_select dv x c d m Hx Hc Hi) as (l & E & V). exists l. split; [done|]. split; [by eexists|]. by rewrite V.
Qed.

Lemma run_select_slot i d m : selectable m i d ->
  exists l, run (weak ← AclMemoryManager.device_of_slot i; lock_and_select weak) m = Done tt (after (heap m) l m) /\ selects (Some d) (look (lib m)) (look l).
Proof.
  intros (s & id & sp & Hs & Hid & Hsp & Hu). destruct (run_lock_and_select sp d m Hu) as (l & E & V). exists l. split; [|done].
  rewrite <- E. unfold AclMemoryManager.device_of_slot, local_slot. rewrite run_bind_assoc, (run_bind_Done _ _ _ _ _ (run_fetch _ m s Hs)).
  rewrite run_bind_assoc. erewrite (run_bind_Done (fetch _)); [|apply run_fetch; rewrite Hid; exact Hsp]. done.
Qed.

(** ** Copies *)

Definition slot_type (d : option Z) : AclCommunicationManager.deviceType_t :=
  match d with Some _ => AclCommunicationManager.device | None => AclCommunicationManager.host end.

Lemma run_deviceType m i p n d : acl_slot m i p n d -> run (AclCommunicationManager.deviceType i) m = Done (slot_type d) m.
Proof.
  intros (_ & _ & Hb). unfold AclCommunicationManager.deviceType. rewrite run_bind, run_gets. destruct d; [destruct Hb as [[b ->] _]|rewrite Hb]; done.
Qed.

(** The rest of a copy, once the library has been called with the right kind and with
    the right device. *)
Lemma run_memcpyInternal dst p1 n1 d1 dO src p2 n2 d2 sO n stream m (Q : memory -> L -> Prop) :
  acl_slot m dst p1 n1 d1 -> acl_slot m src p2 n2 d2 -> reaches (look (lib m)) d1 d2 ->
  (forall k l1, copy_possible k (look l1) d2 d1 -> selects (prefer d1 d2) (look (lib m)) (look l1) -> exists h2 l2,
     run (match stream with
          | Some s => aclrtMemcpyAsync (ptr_add p1 dO) n (ptr_add p2 sO) n k s
          | None => aclrtMemcpy (ptr_add p1 dO) n (ptr_add p2 sO) n k
          end) (heap m, l1) = Done ACL_SUCCESS (h2, l2) /\ Q h2 l2) ->
  exists h2 l2, run (AclCommunicationManager.memcpyInternal dst dO src sO n stream) m = Done tt (counted dst src (after h2 l2 m)) /\ Q h2 l2.
Proof.
  intros H1 H2 Hr Hcall. pose proof H1 as (S1 & O1 & B1). pose proof H2 as (S2 & O2 & B2).
  set (k := AclCommunicationManager.choose (slot_type d2) (slot_type d1) src dst).
  assert (Hsel : exists l1, run (match k.2 with Some slot => weak ← AclMemoryManager.device_of_slot slot; lock_and_select weak | None => mret tt end) m
      = Done tt (after (heap m) l1 m) /\ selects (prefer d1 d2) (look (lib m)) (look l1)).
  { unfold k. destruct d1, d2; cbn [AclCommunicationManager.choose slot_type prefer snd]; try (apply run_select_slot; tauto).
    exists (lib m). split; [|apply selects_refl]. rewrite run_ret. do 2 f_equal. by destruct m as [? ? ? ? []]. }
  destruct Hsel as (l1 & E1 & V1). assert (Hk : copy_possible k.1 (look l1) d2 d1).
  { destruct V1 as [(c & V1) Vc]. unfold k. destruct d1 as [a|], d2 as [b|]; cbn in *; try by eauto.
    exists b, a. split_and!; [done..|]. rewrite V1. by apply Hr. }
  destruct (Hcall k.1 l1 Hk V1) as (h2 & l2 & E2 & HQ). exists h2, l2. split; [|done].
  unfold AclCommunicationManager.memcpyInternal. rewrite (run_bind_Done _ _ _ _ _ (run_deviceType _ _ _ _ _ H2)), (run_bind_Done _ _ _ _ _ (run_deviceType _ _ _ _ _ H1)).
  rewrite (run_bind_Done _ _ _ _ _ (run_getPointer _ _ _ _ S2)), (run_bind_Done _ _ _ _ _ (run_getPointer _ _ _ _ S1)).
  fold k. rewrite (surjective_pairing k).
  change (run ((match k.2 with Some slot => weak ← AclMemoryManager.device_of_slot slot; lock_and_select weak | None => mret tt end) ≫= fun _ =>
    (check (match stream with Some s => aclrtMemcpyAsync (ptr_add p1 dO) n (ptr_add p2 sO) n k.1 s
                            | None => aclrtMemcpy (ptr_add p1 dO) n (ptr_add p2 sO) n k.1 end) ≫= fun _ =>
     (_ ← update_local LocalMemorySlot.increaseMessagesRecv dst; update_local LocalMemorySlot.increaseMessagesSent src))) m = Done tt (counted dst src (after h2 l2 m))).
  rewrite (run_bind_Done _ _ _ _ _ E1). rewrite (run_bind_Done _ _ _ _ _ (run_acl_check _ (after (heap m) l1 m) h2 l2 E2)).
  destruct S1 as (? & ? & _), S2 as (? & ? & _). apply run_copy_count; cbn; eauto.
Qed.

Lemma acl_slot_later dst src h2 l2 m i p n dev :
  acl_slot m i p n dev -> v_contexts (look l2) = v_contexts (look (lib m)) -> v_blocks (look l2) = v_blocks (look (lib m)) ->
  acl_slot (counted dst src (after h2 l2 m)) i p n dev.
Proof.
  intros ((s & Hs & Hp & Hn) & Ho & Hb) Hc Hbl. destruct (counted_slot dst src (after h2 l2 m) i s Hs) as (s' & Hs' & (Ep & En & Em)). split_and!.
  - exists s'. split_and!; [done|congruence|congruence].
  - revert Ho. unfold device_of. destruct p; [done|]. cbn. by rewrite Hbl.
  - destruct dev; [|done]. destruct Hb as [Hb (s0 & id & sp & H0 & Hid & Hsp & d & x & c & Hd & Hx & Hxc & Hc')]. split; [done|].
    exists s', id, sp. split_and!; [done|congruence|done|]. exists d, x, c. split_and!; [done..|]. cbn. by rewrite Hc.
Qed.

Lemma device_of_add v p k : device_of v (ptr_add p k) = device_of v p.
Proof. by destruct p. Qed.

Lemma selects_device_of d v v' p : selects d v v' -> device_of v' p = device_of v p.
Proof. by intros [(c & ->) _]. Qed.

(** A copy between two slots, on the host or on a device. *)
Lemma run_acl_copy this dst p1 n1 d1 dO src p2 n2 d2 sO n bs h' m :
  acl_slot m dst p1 n1 d1 -> acl_slot m src p2 n2 d2 -> reaches (look (lib m)) d1 d2 ->
  is_size (n + dO) -> n + dO <= n1 -> is_size (n + sO) -> n + sO <= n2 ->
  mem_load (heap m) (ptr_add p2 sO) n = Some bs -> mem_store (heap m) (ptr_add p1 dO) bs = Some h' ->
  exists l2, run (CommunicationManager.memcpyLL this dst dO src sO n) m = Done tt (counted dst src (after h' l2 m)) /\
    selects (prefer d1 d2) (look (lib m)) (look l2).
Proof.
  intros H1 H2 Hr Hz1 Hn1 Hz2 Hn2 Hl Hst. unfold CommunicationManager.memcpyLL.
  rewrite (run_checked_copy _ _ _ _ _ _ _ _ _ _ _ _ (proj1 H1) (proj1 H2)) by done.
  destruct (run_memcpyInternal dst p1 n1 d1 dO src p2 n2 d2 sO n None m (fun h l => h = h' /\ selects (prefer d1 d2) (look (lib m)) (look l)) H1 H2 Hr) as (h2 & l2 & E & -> & V).
  - intros k l1 Hk Hs. destruct (memcpy_ok (ptr_add p1 dO) (ptr_add p2 sO) n k bs (heap m) h' l1 Hl Hst) as (l2 & E & V).
    + by rewrite !device_of_add, !(selects_device_of _ _ _ _ Hs), (proj1 (proj2 H1)), (proj1 (proj2 H2)).
    + exists h', l2. split_and!; [done|done|]. by rewrite V.
  - exists l2. by split.
Qed.

(** C23: a copy from one slot to a second and from there to a third, each on the host or
    on a device and at offsets of its own, brings the same bytes; the library, which
    copies to or from a device only when the kind of the copy is right and the context of
    that device is the current one, accepts both copies.  At the end the context is that
    of the last device selected, other memory keeps its content, and the slots stay what
    they were. *)
Theorem acl_copy_roundtrip this a pa na da oa b pb nb db ob c pc nc dc oc n bs m :
  acl_slot m a pa na da -> acl_slot m b pb nb db -> acl_slot m c pc nc dc ->
  reaches (look (lib m)) db da -> reaches (look (lib m)) dc db ->
  is_size (n + oa) -> is_size (n + ob) -> is_size (n + oc) -> n + oa <= na -> n + ob <= nb -> n + oc <= nc ->
  mem_load (heap m) (ptr_add pa oa) n = Some bs -> accessible (heap m) (ptr_add pb ob) n -> accessible (heap m) (ptr_add pc oc) n ->
  exists m', run (_ ← CommunicationManager.memcpyLL this b ob a oa n; CommunicationManager.memcpyLL this c oc b ob n) m = Done tt m' /\
    mem_load (heap m') (ptr_add pc oc) n = Some bs /\
    (forall q k, disjoint_ranges (ptr_add pb ob) n q k -> disjoint_ranges (ptr_add pc oc) n q k -> mem_load (heap m') q k = mem_load (heap m) q k) /\
    current_device (look (lib m')) = prefer (prefer dc db) (prefer (prefer db da) (current_device (look (lib m)))) /\
    acl_slot m' a pa na da /\ acl_slot m' b pb nb db /\ acl_slot m' c pc nc dc.
Proof.
  intros Ha Hb Hc Rba Rcb Za Zb Zc Hna Hnb Hnc Hl Hab Hac. destruct (mem_load_length _ _ _ _ Hl) as [Hlen _].
  destruct (mem_store_accessible (heap m) (ptr_add pb ob) bs) as (h1 & E1); [by rewrite Hlen|].
  destruct (run_acl_copy this b pb nb db ob a pa na da oa n bs h1 m Hb Ha Rba) as (l1 & R1 & (c1 & V1) & D1); try done.
  set (m1 := counted b a (after h1 l1 m)). fold m1 in R1.
  assert (Hs : forall i p k d, acl_slot m i p k d -> acl_slot m1 i p k d) by (intros i p k d H; apply acl_slot_later; [done|by rewrite V1|by rewrite V1]).
  assert (Hl1 : mem_load (heap m1) (ptr_add pb ob) n = Some bs) by (rewrite <- Hlen; exact (mem_load_store_same _ _ _ _ E1)).
  destruct (mem_store_accessible (heap m1) (ptr_add pc oc) bs) as (h2 & E2); [rewrite Hlen; by apply (mem_store_accessible_iff _ _ _ _ _ _ E1)|].
  destruct (run_acl_copy this c pc nc dc oc b pb nb db ob n bs h2 m1 (Hs _ _ _ _ Hc) (Hs _ _ _ _ Hb)) as (l2 & R2 & (c2 & V2) & D2); try done.
  { change (reaches (look l1) dc db). by rewrite V1. }
  exists (counted c b (after h2 l2 m1)). split_and!.
  - by rewrite (run_bind_Done _ _ _ _ _ R1).
  - rewrite <- Hlen. exact (mem_load_store_same _ _ _ _ E2).
  - intros q k Hq1 Hq2. rewrite <- Hlen in Hq1, Hq2. exact (eq_trans (mem_load_store_disjoint _ _ _ _ _ _ E2 Hq2) (mem_load_store_disjoint _ _ _ _ _ _ E1 Hq1)).
  - change (current_device (look l2) = prefer (prefer dc db) (prefer (prefer db da) (current_device (look (lib m))))). rewrite D2. f_equal. exact D1.
  - apply acl_slot_later; [by apply Hs|by rewrite V2|by rewrite V2].
  - apply acl_slot_later; [by apply Hs|by rewrite V2|by rewrite V2].
  - apply acl_slot_later; [by apply Hs|by rewrite V2|by rewrite V2].
Qed.

(** ** Allocation *)

Import AclMemoryManager.

Abbreviation allocate r n := (MemoryManager.allocateLocalMemorySlot (B := acl_memory) r n) (only parsing).
Abbreviation release i := (MemoryManager.freeLocalMemorySlot (B := acl_memory) i) (only parsing).

(** The state with a new slot. *)
Definition with_slot (p : ptr) (n : Z) (id : nat) (m : Machine (Acl.t L)) : Machine (Acl.t L) :=
  set_locals (<[fresh (dom (locals m)) := LocalMemorySlot.make p n (Some id)]> (locals m)) m.

Definition with_buffer (i d : nat) (m : Machine (Acl.t L)) : Machine (Acl.t L) :=
  set_backend (set_buffers (<[i := d]> (acl_buffers (backend m))) (backend m)) m.

Lemma run_allocate_device id sp dev n m :
  acl_spaces (backend m) !! id = Some sp -> usable m sp dev -> 0 <= n ->
  (exists h l, run (allocate (other_space id) n) (m, tt) = Thrown runtime (after h l m, tt)) \/
  (exists b d bs l, run (allocate (other_space id) n) (m, tt) =
      Done (fresh (dom (locals m))) (with_buffer (fresh (dom (locals m))) d (with_slot (Ptr b 0) n id (after (<[b := bs]> (heap m)) l m)), tt) /\
    heap m !! b = None /\ v_blocks (look (lib m)) !! b = None /\ v_buffers (look (lib m)) !! d = None /\ Z.of_nat (length bs) = n /\
    exists c, look l = with_buffers (<[d := (Ptr b 0, n)]> (v_buffers (look (lib m)))) (with_blocks (<[b := Some dev]> (v_blocks (look (lib m)))) (with_contexts (v_contexts (look (lib m))) c (look (lib m))))).
Proof.
  intros Hsp Hu Hn. unfold MemoryManager.allocateLocalMemorySlot. cbn [MemoryManager.allocateLocalMemorySlotImpl acl_memory].
  unfold AclMemoryManager.allocateLocalMemorySlotImpl, cast_space. rewrite (run_bind_Done _ _ _ _ _ (run_on_fst_Done _ m m tt _ (run_gets _ m))), Hsp.
  rewrite run_on_fst. unfold allocateLocalDeviceMemorySlot, deviceAlloc. destruct (run_lock_and_select sp dev m Hu) as (l1 & E1 & (c & V1) & D1).
  destruct (malloc_ok dev n (heap m) l1 D1 Hn) as (r & [h2 l2] & E2 & [(Hf & _)|(Hr & b & bs & Hb & H1 & H2 & Hlen & Hh & V2)]).
  - left. rewrite run_bind, (run_bind_Done _ _ _ _ _ E1), (run_check_value_failed _ (after (heap m) l1 m) r _ _ E2 Hf). by eexists _, _.
  - rewrite run_bind, (run_bind_Done _ _ _ _ _ E1). rewrite (surjective_pairing r), Hr, Hb in E2. rewrite (run_check_value _ (after (heap m) l1 m) _ _ _ E2).
    cbn [fst snd] in Hh, V2. subst h2. destruct (create_buffer_ok (Ptr b 0) n (<[b := bs]> (heap m)) l2) as (o & l3 & E3 & V3).
    rewrite run_bind, run_acl_call. cbn [heap backend after set_heap set_backend Acl.library set_library]. rewrite E3. cbn [fst snd].
    destruct o as [d|]; [|left; by eexists _, _]. destruct V3 as [Hd V3]. right. exists b, d, bs, l3. rewrite V2, V1 in Hd, V3. rewrite V1 in H2. cbn in Hd, H2.
    split_and!; try done. by exists c.
Qed.

(** Memory for a slot on a device.  When the library has memory and a data buffer
    for it, the new slot lies in a block of its own of the given size on the device,
    and freeing it gives both back to the library and leaves the rest of the memory
    as it was; otherwise a runtime error is thrown and no slot is made. *)
Theorem acl_allocate_free id sp dev n m :
  acl_spaces (backend m) !! id = Some sp -> usable m sp dev -> 0 <= n ->
  (exists m', run (allocate (other_space id) n) (m, tt) = Thrown runtime (m', tt) /\ locals m' = locals m) \/
  (exists i b m1 m2, run (allocate (other_space id) n) (m, tt) = Done i (m1, tt) /\ locals m !! i = None /\ heap m !! b = None /\
    acl_slot m1 i (Ptr b 0) n (Some dev) /\ accessible (heap m1) (Ptr b 0) n /\ heap m ⊆ heap m1 /\
    run (release i) (m1, tt) = Done tt (m2, tt) /\ heap m2 = heap m /\
    v_blocks (look (lib m2)) = v_blocks (look (lib m)) /\ v_buffers (look (lib m2)) = v_buffers (look (lib m))).
Proof.
  intros Hsp Hu Hn. destruct (run_allocate_device id sp dev n m Hsp Hu Hn) as [(h & l & E)|(b & d & bs & l & E & Hb & Hv & Hd & Hlen & c & V)]; [left; by eexists|].
  right. set (i := fresh (dom (locals m))) in *. match type of E with _ = Done _ (?x, _) => set (m1 := x) in * end.
  assert (Hi : locals m1 !! i = Some (LocalMemorySlot.make (Ptr b 0) n (Some id))) by apply lookup_insert_eq.
  assert (Hu1 : usable m1 sp dev).
  { destruct Hu as (dv & x & cx & ? & ? & ? & ?). exists dv, x, cx. split_and!; [done..|]. change (lib m1) with l. by rewrite V. }
  assert (Hslot : slot_at m1 i (Ptr b 0) n) by (by eexists).
  destruct (free_ok b dev (heap m1) l) as (l2 & E2 & V2); [rewrite V; apply lookup_insert_eq|].
  destruct (destroy_buffer_ok d (delete b (heap m1)) l2) as (l3 & E3 & V3); [rewrite V2, V; cbn; rewrite lookup_insert_eq; by eexists|].
  exists i, b, m1, (after (delete b (heap m1)) l3 (after (delete b (heap m1)) l2 m1)). split_and!; [done|apply not_elem_of_dom, is_fresh|done| | | | | | |].
  - split; [done|split].
    + change (lib m1) with l. rewrite V. cbn. by rewrite lookup_insert_eq.
    + split; [change (acl_buffers (backend m1)) with (<[i := d]> (acl_buffers (backend m))); rewrite lookup_insert_eq; by eexists|].
      by exists (LocalMemorySlot.make (Ptr b 0) n (Some id)), id, sp.
  - apply accessible_iff. exists bs. split; [apply lookup_insert_eq|lia].
  - by apply insert_subseteq.
  - unfold MemoryManager.freeLocalMemorySlot. cbn [MemoryManager.freeLocalMemorySlotImpl acl_memory]. unfold AclMemoryManager.freeLocalMemorySlotImpl.
    erewrite run_on_fst_Done; [reflexivity|]. rewrite (run_bind_Done _ _ _ _ _ (run_gets _ m1)).
    change (acl_buffers (backend m1)) with (<[i := d]> (acl_buffers (backend m))). rewrite lookup_insert_eq. unfold freeLocalDeviceMemorySlot.
    rewrite (run_bind_Done _ _ _ _ _ (run_getPointer _ _ _ _ Hslot)). destruct Hu1 as (dv & x & cx & Hdv & Hx & _ & _).
    erewrite run_bind_Done; cycle 1.
    { unfold device_of_slot. rewrite (run_bind_Done _ _ _ _ _ (run_local_slot _ _ _ Hi)). erewrite run_bind_Done; [reflexivity|]. apply run_fetch. exact Hsp. }
    unfold AclMemorySpace.getDevice. rewrite Hdv. unfold device. rewrite (run_bind_Done _ _ _ _ _ (run_fetch _ m1 x Hx)).
    rewrite (run_bind_Done _ _ _ _ _ (run_acl_check _ m1 _ _ E2)). by apply run_acl_check.
  - change (delete b (<[b := bs]> (heap m)) = heap m). rewrite delete_insert_id; done.
  - change (v_blocks (look l3) = v_blocks (look (lib m))). rewrite V3. cbn. rewrite V2. cbn. rewrite V. cbn. by rewrite delete_insert_id.
  - change (v_buffers (look l3) = v_buffers (look (lib m))). rewrite V3. cbn. rewrite V2. cbn. rewrite V. cbn. by rewrite delete_insert_id.
Qed.

(** Spaces of other backends are refused. *)
Theorem acl_foreign_space id n m : acl_spaces (backend m) !! id = None -> run (allocate (other_space id) n) (m, tt) = Thrown logic (m, tt).
Proof.
  intros Hsp. unfold MemoryManager.allocateLocalMemorySlot. cbn [MemoryManager.allocateLocalMemorySlotImpl acl_memory].
  unfold AclMemoryManager.allocateLocalMemorySlotImpl, cast_space. by rewrite (run_bind_Done _ _ _ _ _ (run_on_fst_Done _ m m tt _ (run_gets _ m))), Hsp.
Qed.

(** When the data buffer of a slot cannot be created, the error leaves the memory that
    has been allocated for it behind: the library still has the block, and no slot
    refers to it. *)
Theorem acl_buffer_failure_leaks id sp n m l1 b h2 l2 l3 :
  acl_spaces (backend m) !! id = Some sp ->
  run (lock_and_select (AclMemorySpace.getDevice sp)) m = Done tt (after (heap m) l1 m) ->
  run (aclrtMalloc n) (heap m, l1) = Done (ACL_SUCCESS, Ptr b 0) (h2, l2) -> run (aclCreateDataBuffer (Ptr b 0) n) (h2, l2) = Done None (h2, l3) ->
  run (allocate (other_space id) n) (m, tt) = Thrown runtime (after h2 l3 m, tt).
Proof.
  intros Hsp E1 E2 E3. unfold MemoryManager.allocateLocalMemorySlot. cbn [MemoryManager.allocateLocalMemorySlotImpl acl_memory].
  unfold AclMemoryManager.allocateLocalMemorySlotImpl, cast_space. rewrite (run_bind_Done _ _ _ _ _ (run_on_fst_Done _ m m tt _ (run_gets _ m))), Hsp.
  rewrite run_on_fst. unfold allocateLocalDeviceMemorySlot, deviceAlloc. rewrite run_bind, (run_bind_Done _ _ _ _ _ E1), (run_check_value _ (after (heap m) l1 m) _ _ _ E2).
  rewrite run_bind, run_acl_call. cbn [heap backend after set_heap set_backend Acl.library set_library]. by rewrite E3.
Qed.

End Slots.
