(* ===== verification/AclCompute.v ===== *)
(** * The ACL backend: kernels, execution states and processing units

    Models [backends/acl/memoryKernel.hpp], [computationKernel.hpp],
    [executionUnit.hpp], [executionState.hpp], [processingUnit.hpp] and
    [computeManager.hpp].  Kernels are put into a stream of the library, which
    executes them in order and at its own pace; an event behind them tells when they
    are complete. *)

From S2P Require Import Prelude Memory CommunicationManager Tasking Compute Accelerators Acl.
From Stdlib Require Import ZArith Lia String.
From Stdlib.Strings Require Import Byte.
From stdpp Require Import base list gmap option strings.

Local Open Scope Z_scope.
Local Open Scope hicr_scope.

(** ** Kernels *)

Module AclKernel.
Import Acl.

(** [tensorData_t]. *)
Record tensorData_t : Type := mkTensor { dataBuffer : nat; tensorDescriptor : nat }.

(** [MemoryKernel]. *)
Record memory_kernel : Type := mkMemory { _dst : nat; _dstOffset : Z; _src : nat; _srcOffset : Z; _size : Z }.

(** [ComputationKernel]. *)
Record computation_kernel : Type := mkComputation {
  _kernelName : string;
  _kernelAttrs : option nat;
  _inputTensorDescriptors : list nat;
  _inputDataBuffers : list nat;
  _outputTensorDescriptors : list nat;
  _outputDataBuffers : list nat
}.

Inductive t : Type :=
| MemoryKernel (k : memory_kernel)
| ComputationKernel (k : computation_kernel).

(** [initializeDataBuffersAndDescriptors]. *)
Fixpoint initializeDataBuffersAndDescriptors (tensors : list tensorData_t) (descriptors dataBuffers : list nat) : list nat * list nat :=
  match tensors with
  | [] => (descriptors, dataBuffers)
  | x :: tensors' => initializeDataBuffersAndDescriptors tensors' (descriptors ++ [tensorDescriptor x]) (dataBuffers ++ [dataBuffer x])
  end.

(** The constructor for a kernel that has been loaded. *)
Definition make_computation (kernelName : string) (inputs outputs : list tensorData_t) (kernelAttrs : option nat) : computation_kernel :=
  let '(inputDescriptors, inputBuffers) := initializeDataBuffersAndDescriptors inputs [] [] in
  let '(outputDescriptors, outputBuffers) := initializeDataBuffersAndDescriptors outputs [] [] in
  mkComputation kernelName kernelAttrs inputDescriptors inputBuffers outputDescriptors outputBuffers.

Section Operations.
Context {L : Type} {M : ACL L}.

Definition createTensorData (memorySlot descriptor : nat) : prog (Machine (Acl.t L)) tensorData_t :=
  b ← gets (fun m => acl_buffers (backend m) !! memorySlot);
  match b with
  | None => Raise logic
  | Some b => mret (mkTensor b descriptor)
  end.

(** [content] is what can be read of the file, whose size is [filesize]. *)
Definition loadKernel (filesize : Z) (content : list byte) : prog (Machine (Acl.t L)) unit :=
  let kernel := take (Z.to_nat filesize) content in
  _ ← throw_if (Z.of_nat (length kernel) <? filesize) runtime;
  check (aclopLoad kernel).

(** The constructor for a kernel in a file. *)
Definition load_computation (filesize : Z) (content : list byte) (kernelName : string) (inputs outputs : list tensorData_t) (kernelAttrs : option nat) :
    prog (Machine (Acl.t L)) computation_kernel :=
  let k := make_computation kernelName inputs outputs kernelAttrs in
  _ ← loadKernel filesize content;
  mret k.

Definition start (stream : nat) (k : t) : prog (Machine (Acl.t L)) unit :=
  match k with
  | MemoryKernel k =>
      AclCommunicationManager.memcpyAsync (_dst k) (_dstOffset k) (_src k) (_srcOffset k) (_size k) stream
  | ComputationKernel k =>
      check (aclopExecuteV2 (_kernelName k) (_inputTensorDescriptors k) (_inputDataBuffers k)
               (_outputTensorDescriptors k) (_outputDataBuffers k) (_kernelAttrs k) stream)
  end.

(** [ExecutionUnit::start]. *)
Definition start_all (stream : nat) (kernels : list t) : prog (Machine (Acl.t L)) unit := for_each kernels (start stream).

End Operations.
End AclKernel.

(** ** Execution states *)

Module AclExecutionState.
Import Acl.

(** [_executionUnit] has the kernels of the unit; the event and the stream are not
    set from the beginning. *)
Record t : Type := mk {
  _executionUnit : list AclKernel.t;
  _syncEvent : option nat;
  _stream : option nat;
  _isStreamActive : bool
}.

Section Operations.
Context {L : Type} {M : ACL L}.

Abbreviation state := (Machine (Acl.t L) * t)%type (only parsing).

(** [None] stands for an execution unit of another backend. *)
Definition make {S : Type} (executionUnit : option (list AclKernel.t)) : prog S t :=
  match executionUnit with
  | None => Raise logic
  | Some kernels => mret (mk kernels None None false)
  end.

Definition setStream (stream : nat) (e : t) : t := mk (_executionUnit e) (_syncEvent e) (Some stream) (_isStreamActive e).
Definition set_event (event : nat) (e : t) : t := mk (_executionUnit e) (Some event) (_stream e) (_isStreamActive e).
Definition set_active (b : bool) (e : t) : t := mk (_executionUnit e) (_syncEvent e) (_stream e) b.

(** The handles; before they are set their values are indeterminate. *)
Definition stream : prog state nat := fetch (fun st => _stream st.2).
Definition event : prog state nat := fetch (fun st => _syncEvent st.2).

Definition finalizeStream : prog state unit :=
  active ← this _isStreamActive;
  if active : bool
  then s ← stream;
       _ ← on_fst (check (aclrtSynchronizeStream s));
       e ← event;
       _ ← on_fst (check (aclrtDestroyEvent e));
       set_this (set_active false)
  else mret tt.

Definition resumeImpl : prog state unit :=
  e ← on_fst (check_value aclrtCreateEvent);
  _ ← set_this (set_event e);
  _ ← set_this (set_active true);
  s ← stream;
  kernels ← this _executionUnit;
  _ ← on_fst (AclKernel.start_all s kernels);
  on_fst (check (aclrtRecordEvent e s)).

Definition suspendImpl : prog state unit := Raise runtime.

Definition checkFinalizationImpl : prog state bool :=
  e ← event;
  status ← on_fst (check_value (aclrtQueryEventStatus e));
  match status with
  | NOT_READY => mret false
  | COMPLETE => _ ← finalizeStream; mret true
  end.

End Operations.
End AclExecutionState.

(** ** Processing units *)

Module AclProcessingUnit.
Import Acl AclExecutionState.

(** [_resource] is the compute resource, with its static type. *)
Record unit_t : Type := mkUnit {
  _resource : AclComputeResource.t;
  _unitStream : nat;
  _executionState : option (ExecutionState.t AclExecutionState.t)
}.

Section Operations.
Context {L : Type} {M : ACL L}.

Abbreviation state := (Machine (Acl.t L) * ProcessingUnit.t unit_t)%type (only parsing).

(** The constructor; [None] stands for a compute resource of another backend. *)
Definition make (computeResource : option AclComputeResource.t) : prog (Machine (Acl.t L)) unit_t :=
  match computeResource with
  | None => Raise logic
  | Some c =>
      _ ← lock_and_select (AclComputeResource.getDevice c);
      stream ← check_value aclrtCreateStreamWithConfig;
      mret (mkUnit c stream None)
  end.

(** The destructor. *)
Definition destroy (u : unit_t) : prog (Machine (Acl.t L)) unit := noexcept (check (aclrtDestroyStream (_unitStream u))).

Definition set_executionState (e : option (ExecutionState.t AclExecutionState.t)) (u : unit_t) : unit_t := mkUnit (_resource u) (_unitStream u) e.

(** What the unit does with its execution state; a null pointer is dereferenced. *)
Definition on_state {A : Type} (p : prog (Machine (Acl.t L) * ExecutionState.t AclExecutionState.t) A) : prog state A :=
  zoom (fun st => e ← _executionState (ProcessingUnit.impl st.2); Some (st.1, e))
       (fun me st => (me.1, ProcessingUnit.set_impl (set_executionState (Some me.2)) st.2)) p.

Definition select_device : prog state unit :=
  weak ← this (fun u => AclComputeResource.getDevice (_resource (ProcessingUnit.impl u)));
  on_fst (lock_and_select weak).

Definition initialize : prog state unit := mret tt.

(** [None] stands for an execution state of another backend. *)
Definition start (executionState : option (ExecutionState.t AclExecutionState.t)) : prog state unit :=
  match executionState with
  | None => Raise logic
  | Some e =>
      _ ← set_this (ProcessingUnit.set_impl (set_executionState (Some e)));
      _ ← select_device;
      stream ← this (fun u => _unitStream (ProcessingUnit.impl u));
      _ ← on_state (set_this (ExecutionState.set_impl (setStream stream)));
      on_state (StateOps.resume resumeImpl)
  end.

Definition await : prog state unit :=
  _ ← select_device;
  on_state (StateOps.on_impl finalizeStream).

(** Suspending and resuming are refused by the compute manager, which has nothing to
    do for a termination. *)
Definition not_supported : prog state unit := Raise runtime.

Definition terminate : prog state unit := mret tt.

End Operations.
End AclProcessingUnit.

(** ** The compute manager *)

#[global] Instance acl_compute {L : Type} {M : ACL L} :
    ComputeBackend (Machine (Acl.t L)) AclProcessingUnit.unit_t (option (ExecutionState.t AclExecutionState.t)) := {
  initializeImpl := AclProcessingUnit.initialize;
  startImpl := AclProcessingUnit.start;
  suspendImpl := AclProcessingUnit.not_supported;
  resumeImpl := AclProcessingUnit.not_supported;
  terminateImpl := AclProcessingUnit.terminate;
  awaitImpl := AclProcessingUnit.await
}.
