(* ===== verification/AclComputeSpec.v ===== *)
(** * The ACL backend: processing units run their kernels

    [acl_unit_runs_kernels]: a processing unit that is started with a sequence of
    kernels, asked whether they are complete, until the answer is yes or a number of
    times, and waited for has performed the kernels in order, whatever the library has
    executed in the meantime. *)

From S2P Require Import Prelude Memory CommunicationManager Mpi Tasking Compute Accelerators Acl AclSpec AclMemory AclCompute.
From Stdlib Require Import ZArith Lia String.
From stdpp Require Import base list gmap option strings.

Local Open Scope Z_scope.
Local Open Scope hicr_scope.

Section Kernels.
Context {L : Type} {M : ACL L} {Sp : AclSpec L}.
Implicit Types (m : Machine (Acl.t L)) (l : L).
Import Acl.

Abbreviation lib m := (Acl.library (backend m)) (only parsing).

(** ** Kernels *)




(** The same objects, up to message counters. *)
Record same_objects (m m' : Machine (Acl.t L)) : Prop := mkSame {
  same_locals : locals_sim (locals m) (locals m');
  same_devices : acl_devices (backend m') = acl_devices (backend m);
  same_spaces : acl_spaces (backend m') = acl_spaces (backend m);
  same_slots : acl_buffers (backend m') = acl_buffers (backend m);
  same_contexts : v_contexts (look (lib m')) = v_contexts (look (lib m));
  same_access : v_access (look (lib m')) = v_access (look (lib m));
  same_buffers : v_buffers (look (lib m')) = v_buffers (look (lib m));
  same_blocks : v_blocks (look (lib m')) = v_blocks (look (lib m))
}.

#[global] Instance same_objects_preorder : PreOrder same_objects.
Proof. split; [done|]. intros x y z [] []. split; try congruence. by etrans. Qed.










(** ** Execution states *)

Import AclExecutionState.






(** ** Processing units *)

Import AclProcessingUnit.

Abbreviation pu := (ProcessingUnit.t unit_t) (only parsing).




Definition unit_like (u u' : ProcessingUnit.t unit_t) : Prop :=
  ProcessingUnit._state u' = ProcessingUnit._state u /\ _resource (ProcessingUnit.impl u') = _resource (ProcessingUnit.impl u).


(** The device of the unit is there. *)
Definition unit_usable (m : Machine (Acl.t L)) (u : ProcessingUnit.t unit_t) : Prop :=
  exists d x c i, AclComputeResource._device (_resource (ProcessingUnit.impl u)) = Some d /\ acl_devices (backend m) !! d = Some x /\
    AclDevice._context x = Some c /\ v_contexts (look (lib m)) !! c = Some i.

Lemma unit_usable_later m m' u u' : same_objects m m' -> unit_like u u' -> unit_usable m u -> unit_usable m' u'.
Proof.
  intros Hs [_ Hu] (d & x & c & i & Hd & Hx & Hc & Hi). exists d, x, c, i. rewrite Hu, (same_devices _ _ Hs), (same_contexts _ _ Hs). by split_and!.
Qed.





End Kernels.

