(* ===== verification/AclDemo.v ===== *)
(** * A small ACL library, and the theorems on it

    The library keeps the [view] as its state.  It has two devices, gives memory for at
    most a megabyte at a time, copies only with the right kind and the right current
    context, and executes one operation of a stream whenever it is
    asked about an event.  Its kernels write the bytes of their first input buffer
    to their first output buffer in reverse. *)

From S2P Require Import Prelude Json Topology Memory CommunicationManager HwlocTopology MemoryManager Mpi Tasking Compute Accelerators.
From S2P Require Import Acl AclSpec AclTopology AclMemory AclCompute AclComputeSpec.
From Stdlib Require Import ZArith Lia String.
From Stdlib.Strings Require Import Byte.
From stdpp Require Import base list gmap option strings.

Local Open Scope Z_scope.
Local Open Scope hicr_scope.

Module AclLibrary.

Definition act {A : Type} (f : memory -> view -> A * (memory * view)) : prog (memory * view) A :=
  Step (fun s => (f s.1 s.2).2) (fun s => Ret (f s.1 s.2).1).

Definition reverse_effect (inputs outputs : list nat) (buffers : gmap nat (ptr * Z)) : op := fun h =>
  default h (i ← head inputs; o ← head outputs; '(p, n) ← buffers !! i; '(q, _) ← buffers !! o; bs ← mem_load h p n; mem_store h q (reverse bs)).

Definition malloc (host : bool) (n : Z) : prog (memory * view) (Z * ptr) :=
  act (fun h v => let b := fresh (dom h ∪ dom (v_blocks v)) in
         if n <=? 2 ^ 20
         then ((0, Ptr b 0), (<[b := replicate (Z.to_nat n) x00]> h, with_blocks (<[b := if host then None else current_device v]> (v_blocks v)) v))
         else ((1, nullptr), (h, v))).

Definition release (p : ptr) : prog (memory * view) Z :=
  act (fun h v => match p with Ptr b 0 => (0, (delete b h, with_blocks (delete b (v_blocks v)) v)) | _ => (1, (h, v)) end).

(** A store that may not be possible. *)
Definition storing (f : memory -> view -> option memory) : prog (memory * view) Z :=
  act (fun h v => match f h v with Some h' => (0, (h', v)) | None => (1, (h, v)) end).

Definition allowed (k : memcpy_kind) (v : view) (src dst : option Z) : bool :=
  match k, src, dst with
  | HOST_TO_HOST, None, None => true
  | HOST_TO_DEVICE, None, Some _ => bool_decide (current_device v = dst)
  | DEVICE_TO_HOST, Some _, None => bool_decide (current_device v = src)
  | DEVICE_TO_DEVICE, Some a, Some b => bool_decide (current_device v = dst) && bool_decide (a = b \/ (b, a) ∈ v_access v)
  | _, _, _ => false
  end.

Lemma copy_allowed k v src dst : copy_possible k v src dst -> allowed k v src dst = true.
Proof.
  destruct k; cbn.
  - by intros [-> ->].
  - intros (-> & [d ->] & E). by rewrite bool_decide_true.
  - intros ([d ->] & -> & E). by rewrite bool_decide_true.
  - intros (a & b & -> & -> & E & H). by rewrite !bool_decide_true.
Qed.

Definition query (e : nat) : prog (memory * view) (Z * event_status) :=
  act (fun h v =>
    match s ← v_recorded v !! e; ops ← v_pending v !! s; Some (s, ops) with
    | Some (s, ops) => ((0, if bool_decide (length ops <= 1)%nat then COMPLETE else NOT_READY),
                        (perform (take 1 ops) h, with_pending (<[s := drop 1 ops]> (v_pending v)) (v_recorded v) v))
    | None => ((1, NOT_READY), (h, v))
    end).

Definition synchronize (s : nat) : prog (memory * view) Z :=
  act (fun h v => match v_pending v !! s with
                  | Some ops => (0, (perform ops h, with_pending (<[s := []]> (v_pending v)) (v_recorded v) v))
                  | None => (1, (h, v))
                  end).

End AclLibrary.

Import AclLibrary.

#[global] Instance demo_acl : ACL view := {
  ACL_SUCCESS := 0;
  aclInit := act (fun h v => (0, (h, v)));
  aclrtGetDeviceCount := act (fun h v => ((0, 2), (h, v)));
  aclrtSetDevice := fun d => act (fun h v => let c := fresh (dom (v_contexts v)) in (0, (h, with_contexts (<[c := d]> (v_contexts v)) (Some c) v)));
  aclrtCreateContext := fun d => act (fun h v => let c := fresh (dom (v_contexts v)) in ((0, c), (h, with_contexts (<[c := d]> (v_contexts v)) (Some c) v)));
  aclrtGetCurrentContext := act (fun h v => match v_current v with Some c => ((0, c), (h, v)) | None => ((1, O), (h, v)) end);
  aclrtSetCurrentContext := fun c => act (fun h v => (0, (h, with_contexts (v_contexts v) (Some c) v)));
  aclrtDestroyContext := fun c => act (fun h v => (0, (h, with_contexts (delete c (v_contexts v)) (v_current v) v)));
  aclrtGetMemInfo := act (fun h v => ((0, (0, 1024 * (1 + default 0 (current_device v)))), (h, v)));
  aclrtDeviceCanAccessPeer := fun _ _ => act (fun h v => ((0, 1), (h, v)));
  aclrtDeviceEnablePeerAccess := fun a => act (fun h v => (0, (h, with_access ({[(default 0 (current_device v), a)]} ∪ v_access v) v)));
  aclrtMalloc := malloc false;
  aclrtMallocHost := malloc true;
  aclrtFree := release;
  aclrtFreeHost := release;
  aclCreateDataBuffer := fun p n => act (fun h v => let d := fresh (dom (v_buffers v)) in (Some d, (h, with_buffers (<[d := (p, n)]> (v_buffers v)) v)));
  aclDestroyDataBuffer := fun d => act (fun h v => (0, (h, with_buffers (delete d (v_buffers v)) v)));
  aclrtMemset := fun p _ x k => storing (fun h _ => mem_store h p (replicate (Z.to_nat k) (byte_of_Z x)));
  aclrtMemcpy := fun dst _ src n k => storing (fun h v =>
    if allowed k v (device_of v src) (device_of v dst) then bs ← mem_load h src n; mem_store h dst bs else None);
  aclrtMemcpyAsync := fun dst _ src n k s => act (fun h v =>
    if allowed k v (device_of v src) (device_of v dst) then (0, (h, enqueued s [copy_op dst src n] v)) else (1, (h, v)));
  aclrtCreateStreamWithConfig := act (fun h v => let s := fresh (dom (v_pending v)) in ((0, s), (h, with_pending (<[s := []]> (v_pending v)) (v_recorded v) v)));
  aclrtDestroyStream := fun s => act (fun h v => (0, (h, with_pending (delete s (v_pending v)) (v_recorded v) v)));
  aclrtSynchronizeStream := synchronize;
  aclrtCreateEvent := act (fun h v => let e := fresh (v_events v ∪ dom (v_recorded v)) in ((0, e), (h, with_events ({[e]} ∪ v_events v) v)));
  aclrtDestroyEvent := fun e => act (fun h v => (0, (h, with_events (v_events v ∖ {[e]}) (with_pending (v_pending v) (delete e (v_recorded v)) v))));
  aclrtRecordEvent := fun e s => act (fun h v => (0, (h, with_pending (v_pending v) (<[e := s]> (filter (fun es => es.2 <> s) (v_recorded v))) v)));
  aclrtQueryEventStatus := query;
  aclopLoad := fun _ => act (fun h v => (0, (h, v)));
  aclopExecuteV2 := fun _ _ inb _ outb _ s => act (fun h v => (0, (h, enqueued s [reverse_effect inb outb (v_buffers v)] v)))
}.

Lemma malloc_spec host n h v : 0 <= n -> exists r l', run (malloc host n) (h, v) = Done r l' /\
  (r.1 <> 0 /\ l'.1 = h /\ l'.2 = v \/
   r.1 = 0 /\ exists b bs, r.2 = Ptr b 0 /\ h !! b = None /\ v_blocks v !! b = None /\ Z.of_nat (length bs) = n /\
     l'.1 = <[b := bs]> h /\ l'.2 = with_blocks (<[b := if host then None else current_device v]> (v_blocks v)) v).
Proof.
  intros Hn. unfold malloc, act. cbn [run fst snd]. destruct (n <=? 2 ^ 20); [|eexists _, _; split; [reflexivity|]; left; by split_and!].
  pose proof (is_fresh (dom h ∪ dom (v_blocks v))) as Hf. apply not_elem_of_union in Hf as [H1 H2].
  eexists _, _. split; [reflexivity|]. right. split; [done|]. eexists _, _. split_and!; try reflexivity; [by apply not_elem_of_dom|by apply not_elem_of_dom|].
  rewrite length_replicate. lia.
Qed.

#[global, refine] Instance demo_acl_spec : AclSpec view := {
  look := id;
  device_count := 2;
  device_memory := fun d => 1024 * (1 + d);
  peers := fun _ _ => true;
  kernel_effect := fun _ _ inb _ outb _ buffers => reverse_effect inb outb buffers
}.
Proof.
  - intros h l. by eexists.
  - intros d h l _. eexists _, _, _. split; [reflexivity|]. split_and!; [apply insert_subseteq, not_elem_of_dom, is_fresh|apply lookup_insert_eq|reflexivity].
  - intros d h l _. eexists _, _, _. split; [reflexivity|]. split_and!; [apply not_elem_of_dom, is_fresh|by right|reflexivity].
  - intros c h l Hc. cbn in *. rewrite Hc. by eexists.
  - intros c d h l _. eexists. split; reflexivity.
  - intros d h l Hd. cbn in *. rewrite Hd. by eexists _, _.
  - intros a b h l. by eexists.
  - intros a d h l Hd _. cbn in *. rewrite Hd. eexists. split; reflexivity.
  - intros d n h l Hd. cbn in Hd. rewrite <- Hd. exact (malloc_spec false n h l).
  - intros n h l. exact (malloc_spec true n h l).
  - intros b d h l _. eexists. split; reflexivity.
  - intros b h l _. eexists. split; reflexivity.
  - intros p n h l. eexists _, _. split; [reflexivity|]. split; [apply not_elem_of_dom, is_fresh|reflexivity].
  - intros d h l _. eexists. split; reflexivity.
  - intros p n x k h h' l _ E. eexists. cbn. rewrite E. split; reflexivity.
  - intros dst src n k bs h h' l E1 E2 Hk. eexists. apply copy_allowed in Hk. cbn in *. unfold id in *. rewrite Hk, E1. cbn. rewrite E2. split; reflexivity.
  - intros h l. eexists _, _. split; [reflexivity|]. split; [apply not_elem_of_dom, is_fresh|reflexivity].
  - intros dst src n k s h l _ _ _ Hk. eexists. apply copy_allowed in Hk. cbn in *. unfold id in *. rewrite Hk. split; reflexivity.
  - intros name ind inb outd outb attr s h l _ _. eexists. split; reflexivity.
  - intros h l. eexists _, _. split; [reflexivity|]. cbn. pose proof (is_fresh (v_events l ∪ dom (v_recorded l))) as Hf.
    apply not_elem_of_union in Hf as [H1 H2]. split_and!; [done|by apply not_elem_of_dom|reflexivity].
  - intros e s h l _ _. eexists. split; reflexivity.
  - intros e s ops h l _ Hr Hp. cbn in Hr, Hp. eexists _, 1%nat, _. cbn. unfold id in *. rewrite Hr. cbn. rewrite Hp. cbn. split; [reflexivity|]. split; [|reflexivity].
    case_bool_decide; [|done]. intros _. apply length_zero_iff_nil. rewrite length_drop. lia.
  - intros s ops h l Hp. cbn in Hp. eexists. cbn. unfold id in *. rewrite Hp. split; reflexivity.
  - intros e h l _. eexists. split; reflexivity.
Defined.

(** A machine with two devices, of which the second has access to the memory of the
    first: the blocks 0 and 2 are memory of the host, 1 and 3 of the first device, 4 of
    the second; the slots 10 to 14 are these blocks. *)
Module AclDemo.

Definition words : list byte := [x01; x02; x03; x04].

Definition library : view :=
  mkView {[7%nat := 0; 8%nat := 1]} None {[(1, 0)]} {[40%nat := []]} ∅ ∅
    {[30%nat := (Ptr 1 0, 4); 31%nat := (Ptr 3 0, 4); 32%nat := (Ptr 4 0, 4)]} {[1%nat := Some 0; 3%nat := Some 0; 4%nat := Some 1]}.

Definition device : AclDevice.t := AclDevice.mk "" 0 (Some 7%nat) [AclComputeResource.make 5] [AclMemorySpace.make 5 1024].
Definition device2 : AclDevice.t := AclDevice.mk "" 1 (Some 8%nat) [AclComputeResource.make 6] [AclMemorySpace.make 6 1024].

Definition machine : Machine (Acl.t view) :=
  mkMachine {[0%nat := words; 1%nat := replicate 4 x00; 2%nat := replicate 4 x00; 3%nat := replicate 4 x00; 4%nat := replicate 4 x00]}
    {[10%nat := LocalMemorySlot.make (Ptr 0 0) 4 (Some 21%nat); 11%nat := LocalMemorySlot.make (Ptr 1 0) 4 (Some 20%nat);
      12%nat := LocalMemorySlot.make (Ptr 2 0) 4 (Some 21%nat); 13%nat := LocalMemorySlot.make (Ptr 3 0) 4 (Some 20%nat);
      14%nat := LocalMemorySlot.make (Ptr 4 0) 4 (Some 22%nat)]} ∅ ∅
    (Acl.mk {[5%nat := device; 6%nat := device2]} {[20%nat := AclMemorySpace.make 5 1024; 22%nat := AclMemorySpace.make 6 1024]}
       {[11%nat := 30%nat; 13%nat := 31%nat; 14%nat := 32%nat]} library).

Lemma machine_usable : usable machine (AclMemorySpace.make 5 1024) 0.
Proof. by exists 5%nat, device, 7%nat. Qed.

Lemma machine_usable2 : usable machine (AclMemorySpace.make 6 1024) 1.
Proof. by exists 6%nat, device2, 8%nat. Qed.

Lemma host_slot i b : locals machine !! i = Some (LocalMemorySlot.make (Ptr b 0) 4 (Some 21%nat)) -> v_blocks library !! b = None ->
  Acl.acl_buffers (backend machine) !! i = None -> acl_slot machine i (Ptr b 0) 4 None.
Proof. intros Hi Hb Hs. split; [by eexists|]. split; [|done]. change (mjoin (v_blocks library !! b) = None). by rewrite Hb. Qed.

Lemma device_slot i b d id sp dev : locals machine !! i = Some (LocalMemorySlot.make (Ptr b 0) 4 (Some id)) -> v_blocks library !! b = Some (Some dev) ->
  Acl.acl_buffers (backend machine) !! i = Some d -> Acl.acl_spaces (backend machine) !! id = Some sp -> usable machine sp dev ->
  acl_slot machine i (Ptr b 0) 4 (Some dev).
Proof.
  intros Hi Hb Hs Hsp Hu. split; [by eexists|]. split; [change (mjoin (v_blocks library !! b) = Some dev); by rewrite Hb|]. split; [by eexists|].
  by exists (LocalMemorySlot.make (Ptr b 0) 4 (Some id)), id, sp.
Qed.

Lemma slot11 : acl_slot machine 11 (Ptr 1 0) 4 (Some 0).
Proof. by apply (device_slot 11 1 30 20 _ 0 eq_refl eq_refl eq_refl eq_refl), machine_usable. Qed.


Lemma slot14 : acl_slot machine 14 (Ptr 4 0) 4 (Some 1).
Proof. by apply (device_slot 14 4 32 22 _ 1 eq_refl eq_refl eq_refl eq_refl), machine_usable2. Qed.

(** Two words of the host, from the second on, go to the first device and from there
    to the second one. *)
Lemma acl_copy_roundtrip_witness : exists m',
  run (_ ← CommunicationManager.memcpyLL 0 11 1 10 1 2; CommunicationManager.memcpyLL 0 14 2 11 1 2) machine = Done tt m' /\
  mem_load (heap m') (Ptr 4 2) 2 = Some [x02; x03] /\ current_device (look (Acl.library (backend m'))) = Some 1.
Proof.
  destruct (acl_copy_roundtrip 0 10 (Ptr 0 0) 4 None 1 11 (Ptr 1 0) 4 (Some 0) 1 14 (Ptr 4 0) 4 (Some 1) 2 2 [x02; x03] machine) as (m' & E & Hl & _ & Hd & _).
  - by apply host_slot.
  - exact slot11.
  - exact slot14.
  - by intros a b _.
  - intros a b [= <-] [= <-]. right. by apply (elem_of_singleton_2 (C := gset (Z * Z)) (1, 0) (1, 0)).
  - split; [lia|done].
  - split; [lia|done].
  - split; [lia|done].
  - lia.
  - lia.
  - lia.
  - done.
  - by eexists.
  - by eexists.
  - exists m'. split_and!; [exact E|exact Hl|exact Hd].
Defined.

Lemma acl_allocate_free_witness : exists i b m1 m2,
  run (MemoryManager.allocateLocalMemorySlot (other_space 20) 16) (machine, tt) = Done i (m1, tt) /\ heap machine !! b = None /\
  run (MemoryManager.freeLocalMemorySlot i) (m1, tt) = Done tt (m2, tt) /\ heap m2 = heap machine.
Proof.
  destruct (acl_allocate_free 20 (AclMemorySpace.make 5 1024) 0 16 machine) as [(m' & E & _)|(i & b & m1 & m2 & E1 & _ & Hb & _ & _ & _ & E2 & Hh & _)].
  - done.
  - apply machine_usable.
  - lia.
  - exfalso. by vm_compute in E.
  - by exists i, b, m1, m2.
Defined.

Lemma acl_query_topology_witness : exists ds m',
  run AclTopologyManager.queryTopology machine = Done ds m' /\
  AclTopologyManager.topology_of ds m' = Topology.mk Json.null (zip_with acl_device_of [0%nat; 1%nat] ds) /\ (0, 1) ∈ v_access (look (Acl.library (backend m'))).
Proof.
  destruct (acl_query_topology machine) as (ds & m' & E & _ & _ & Ht & Ha); [done|].
  exists ds, m'. split_and!; [exact E|exact Ht|]. apply (Ha 0%nat 1%nat); cbn; lia.
Defined.

Lemma acl_topology_lost_witness : exists ds m' j, run AclTopologyManager.queryTopology machine = Done ds m' /\
  length (Topology.getDevices (AclTopologyManager.topology_of ds m')) = 2%nat /\ Topology.serialize (AclTopologyManager.topology_of ds m') = Some j /\
  run (AclTopologyManager.deserializeTopology j) tt = Done Topology.empty tt.
Proof. exact (acl_topology_lost machine tt (fun _ _ _ _ _ => eq_refl)). Defined.





End AclDemo.
