(* ===== verification/Opencl.v ===== *)
(** * The OpenCL backend: devices, memory and communication

    Models [backends/opencl/device.hpp], [memorySpace.hpp], [computeResource.hpp],
    [topologyManager.hpp], [localMemorySlot.hpp], [memoryManager.hpp] and
    [communicationManager.hpp].  The functions of the OpenCL library are the class
    [OPENCL], over the memory of the host and a state of the library, which keeps the
    content of buffers.  What the host reads and writes of a buffer is the region of
    its memory where the buffer is mapped.

    The classes of devices, memory spaces and compute resources declare a member
    [_type] of their own, which hides that of their base class: the former is
    [_openclType] here. *)

From S2P Require Import Prelude Json Topology Memory CommunicationManager HwlocTopology MemoryManager Mpi Accelerators.
From Stdlib Require Import ZArith Lia String.
From Stdlib.Strings Require Import Byte.
From stdpp Require Import base list gmap option strings.

Local Open Scope string_scope.
Local Open Scope Z_scope.
Local Open Scope list_scope.
Local Open Scope hicr_scope.

(** ** The library *)

(** The values of [CL_DEVICE_TYPE]. *)
Inductive cl_device_type : Type := CL_CPU | CL_GPU | CL_ACCELERATOR | CL_CUSTOM | CL_OTHER (n : Z).

(** The flags a buffer is created with; [USE_HOST_PTR] comes with the pointer. *)
Inductive cl_mem_flags : Type := READ_WRITE | ALLOC_HOST_PTR | USE_HOST_PTR (p : ptr).

(** Devices, queues, buffers, kernels and events are identifiers.  A function that has
    an error code gives it first.  The map is blocking, of the whole buffer, and for
    reading and writing; [CL_COMPLETE] is the status of an event whose command has
    ended.  The context is that of the queue. *)
Class OPENCL (L : Type) : Type := {
  CL_SUCCESS : Z;
  cl_platforms : prog (memory * L) (list nat);
  cl_platform_devices : nat -> prog (memory * L) (list nat);
  cl_device_info_type : nat -> prog (memory * L) cl_device_type;
  cl_device_info_size : nat -> prog (memory * L) Z;
  cl_command_queue : nat -> prog (memory * L) nat;
  cl_buffer : nat -> cl_mem_flags -> Z -> prog (memory * L) (Z * nat);
  enqueueMapBuffer : nat -> nat -> Z -> prog (memory * L) (Z * ptr);
  enqueueUnmapMemObject : nat -> nat -> ptr -> prog (memory * L) Z;
  enqueueCopyBuffer : nat -> nat -> nat -> Z -> Z -> Z -> prog (memory * L) (Z * nat);
  enqueueFillBuffer : nat -> nat -> Z -> Z -> prog (memory * L) (Z * nat);
  enqueueNDRangeKernel : nat -> nat -> list Z -> list Z -> list Z -> prog (memory * L) Z;
  setArg : nat -> nat -> nat -> prog (memory * L) Z;
  enqueueMarkerWithWaitList : nat -> prog (memory * L) (Z * nat);
  cl_event_wait : nat -> prog (memory * L) Z;
  cl_event_status : nat -> prog (memory * L) Z;
  CL_COMPLETE : Z
}.

(** ** Compute resources, memory spaces and devices *)

Module OpenclComputeResource.

Record t : Type := mk { _type : string; _openclType : string; _device : option nat }.

Definition make (device : nat) : t := mk "" "OpenCL Processor" (Some device).

Definition getDevice (r : t) : option nat := _device r.

Definition serializeImpl (r : t) (output : Json.t) : option Json.t := Json.assign "Compute Resource Type" (Json.string_ (_openclType r)) output.

Definition base (r : t) : ComputeResource.t := ComputeResource.mk (_type r) (serializeImpl r).

Definition deserialize (input : Json.t) : prog t unit :=
  ty ← Json.getString input "Type";
  _ ← modify (fun r => mk ty (_openclType r) (_device r));
  v ← Json.require Json.is_number input "Compute Resource Type";
  s ← Json.get_string v;
  modify (fun r => mk (_type r) s (_device r)).

Definition make_from {S : Type} (input : Json.t) : prog S t := construct (deserialize input) (mk "" "" None).

End OpenclComputeResource.

Module OpenclMemorySpace.

Record t : Type := mk { _type : string; _openclType : string; _size : Z; _device : option nat }.

Definition make (device : nat) (size : Z) : t := mk "" "OpenCL Device RAM" size (Some device).

Definition getDevice (m : t) : option nat := _device m.

Definition serializeImpl (m : t) (output : Json.t) : option Json.t := Json.assign "Memory Space Type" (Json.string_ (_openclType m)) output.

Definition base (m : t) : MemorySpace.t := MemorySpace.mk (_type m) (_size m) (serializeImpl m).

Definition deserialize (input : Json.t) : prog t unit :=
  ty ← Json.getString input "Type";
  _ ← modify (fun m => mk ty (_openclType m) (_size m) (_device m));
  v ← Json.require Json.is_number input "Memory Space Type";
  s ← Json.get_string v;
  _ ← modify (fun m => mk (_type m) s (_size m) (_device m));
  v ← Json.require Json.is_number_unsigned input "Size";
  n ← Json.get_size v;
  modify (fun m => mk (_type m) (_openclType m) n (_device m)).

Definition make_from {S : Type} (input : Json.t) : prog S t := construct (deserialize input) (mk "" "" 0 None).

End OpenclMemorySpace.

Module OpenclDevice.

(** [_clDevice] is the device of the library. *)
Record t : Type := mk {
  _type : string;
  _openclType : string;
  _id : Z;
  _clDevice : nat;
  _computeResources : list OpenclComputeResource.t;
  _memorySpaces : list OpenclMemorySpace.t
}.

(** The constructor leaves the type of the base class empty. *)
Definition make (id : Z) (type : string) (clDevice : nat) : t := mk "" type id clDevice [] [].

Definition getId (d : t) : Z := _id d.
Definition getOpenCLDevice (d : t) : nat := _clDevice d.

Definition addComputeResource (r : OpenclComputeResource.t) (d : t) : t :=
  mk (_type d) (_openclType d) (_id d) (_clDevice d) (_computeResources d ++ [r]) (_memorySpaces d).

Definition addMemorySpace (m : OpenclMemorySpace.t) (d : t) : t :=
  mk (_type d) (_openclType d) (_id d) (_clDevice d) (_computeResources d) (_memorySpaces d ++ [m]).

Definition serializeImpl (id : Z) (type : string) (output : Json.t) : option Json.t :=
  output ← Json.assign "Device Identifier" (Json.number_unsigned id) output;
  Json.assign "Device Type" (Json.string_ type) output.

Definition base (d : t) : Device.t :=
  Device.mk (_type d) (map OpenclComputeResource.base (_computeResources d)) (map OpenclMemorySpace.base (_memorySpaces d)) (serializeImpl (_id d) (_openclType d)).

(** [getType()] is that of the base class. *)
Definition deserializeImpl (input : Json.t) : prog Device.t unit :=
  idv ← Json.require Json.is_number input "Device Identifier";
  typev ← Json.require Json.is_number input "Device Type";
  id ← Json.get_size idv;
  type ← Json.get_string typev;
  _ ← modify (fun d => Device.mk (Device._type d) (Device._computeResources d) (Device._memorySpaces d) (serializeImpl id type));
  ty ← gets Device.getType;
  cs ← Json.at_key input Device._HICR_DEVICE_COMPUTE_RESOURCES_KEY_;
  _ ← read_resources (String.eqb (String.append ty " Processing Unit")) OpenclComputeResource.make_from (fun o => Device.addComputeResource (OpenclComputeResource.base o)) cs;
  ms ← Json.at_key input Device._HICR_DEVICE_MEMORY_SPACES_KEY_;
  read_resources (String.eqb (String.append ty " RAM")) OpenclMemorySpace.make_from (fun o => Device.addMemorySpace (OpenclMemorySpace.base o)) ms.

Definition make_from {S : Type} (input : Json.t) : prog S Device.t :=
  construct (Device.deserialize_with deserializeImpl input) (Device.mk "" [] [] (serializeImpl 0 "")).

End OpenclDevice.

(** ** The state of the backend *)

Module Opencl.

(** The objects that pointers refer to: devices, memory spaces, the buffers of the
    slots of the dynamic type [opencl::LocalMemorySlot], and the queues of each
    communication manager. *)
Record t (L : Type) : Type := mk {
  cl_devices : gmap nat OpenclDevice.t;
  cl_spaces : gmap nat OpenclMemorySpace.t;
  cl_slots : gmap nat nat;
  cl_managers : gmap nat (list (Z * nat));
  library : L
}.

Arguments mk {L} _ _ _ _ _.
Arguments cl_devices {L} _.
Arguments cl_spaces {L} _.
Arguments cl_slots {L} _.
Arguments cl_managers {L} _.
Arguments library {L} _.

Section Access.
Context {L : Type} {M : OPENCL L}.

Definition set_devices (ds : gmap nat OpenclDevice.t) (x : t L) : t L := mk ds (cl_spaces x) (cl_slots x) (cl_managers x) (library x).
Definition set_spaces (s : gmap nat OpenclMemorySpace.t) (x : t L) : t L := mk (cl_devices x) s (cl_slots x) (cl_managers x) (library x).
Definition set_slots (s : gmap nat nat) (x : t L) : t L := mk (cl_devices x) (cl_spaces x) s (cl_managers x) (library x).
Definition set_library (l : L) (x : t L) : t L := mk (cl_devices x) (cl_spaces x) (cl_slots x) (cl_managers x) l.

(** A call of the library. *)
Definition call {A : Type} (p : prog (memory * L) A) : prog (Machine (t L)) A :=
  zoom (fun m => Some (heap m, library (backend m)))
       (fun hl m => set_backend (set_library hl.2 (backend m)) (set_heap hl.1 m)) p.

(** [if (err != CL_SUCCESS) HICR_THROW_RUNTIME(...)]. *)
Definition check (p : prog (memory * L) Z) : prog (Machine (t L)) unit :=
  err ← call p; throw_if (negb (err =? CL_SUCCESS)) runtime.

Definition check_value {A : Type} (p : prog (memory * L) (Z * A)) : prog (Machine (t L)) A :=
  r ← call p;
  _ ← throw_if (negb (r.1 =? CL_SUCCESS)) runtime;
  mret r.2.

(** The buffer of a slot; [None] for a slot of another backend. *)
Definition cast_slot (slot : nat) : prog (Machine (t L)) (option nat) := gets (fun m => cl_slots (backend m) !! slot).

Definition or_raise {A : Type} (e : exn) (o : option A) : prog (Machine (t L)) A :=
  match o with Some a => mret a | None => Raise e end.

(** [memSlot->getPointer() = p]. *)
Definition set_pointer (p : ptr) (slot : nat) : prog (Machine (t L)) unit :=
  update_local (fun s => LocalMemorySlot.mk p (LocalMemorySlot._size s) (LocalMemorySlot._memorySpace s) (LocalMemorySlot._messagesRecv s) (LocalMemorySlot._messagesSent s)) slot.

(** [getQueue]: the queue for a memory space, of those of a manager.  For a space of
    hwloc it is the first one in the order of the map, which is dereferenced even
    when there is none. *)
Definition space_queue (queues : list (Z * nat)) (memorySpace : space_ref) : prog (Machine (t L)) nat :=
  match memorySpace with
  | hwloc_space _ _ => match queues with (_, q) :: _ => mret q | [] => Crash undefined end
  | other_space id =>
      space ← gets (fun m => cl_spaces (backend m) !! id);
      match space with
      | None => Raise logic
      | Some sp =>
          d ← fetch (fun m => weak ← OpenclMemorySpace.getDevice sp; cl_devices (backend m) !! weak);
          match find (fun kq => bool_decide (kq.1 = OpenclDevice.getId d)) queues with
          | Some (_, q) => mret q
          | None => Raise out_of_range
          end
      end
  end.

End Access.
End Opencl.

(** ** The topology manager *)

Module OpenclTopologyManager.
Import Opencl.

Section Operations.
Context {L : Type} {M : OPENCL L}.

Definition device_type_name (type : cl_device_type) : option string :=
  match type with
  | CL_CPU => Some "OpenCL Host"
  | CL_GPU => Some "OpenCL GPU"
  | CL_ACCELERATOR => Some "OpenCL Accelerator"
  | CL_CUSTOM => Some "OpenCL Custom Hardware"
  | CL_OTHER _ => None
  end.

Definition new_device (d : OpenclDevice.t) : prog (Machine (Opencl.t L)) nat :=
  Step (fun m => set_backend (set_devices (<[fresh (dom (cl_devices (backend m))) := d]> (cl_devices (backend m))) (backend m)) m)
       (fun m => Ret (fresh (dom (cl_devices (backend m))))).

Definition update_device (f : OpenclDevice.t -> OpenclDevice.t) (d : nat) : prog (Machine (Opencl.t L)) unit :=
  update (fun m => x ← cl_devices (backend m) !! d; Some (set_backend (set_devices (<[d := f x]> (cl_devices (backend m))) (backend m)) m)).

(** One round of the inner loop of [queryTopology]; the identifier is never increased. *)
Definition query_device (deviceId : Z) (device : nat) : prog (Machine (Opencl.t L)) nat :=
  deviceTypeEnum ← call (cl_device_info_type device);
  deviceMemorySize ← call (cl_device_info_size device);
  deviceType ← or_raise runtime (device_type_name deviceTypeEnum);
  d ← new_device (OpenclDevice.make deviceId deviceType device);
  let space := OpenclMemorySpace.make d deviceMemorySize in
  _ ← modify (fun m => set_backend (set_spaces (<[fresh (dom (cl_spaces (backend m))) := space]> (cl_spaces (backend m))) (backend m)) m);
  _ ← update_device (OpenclDevice.addMemorySpace space) d;
  _ ← update_device (OpenclDevice.addComputeResource (OpenclComputeResource.make d)) d;
  mret d.

Definition query_platform (platform : nat) : prog (Machine (Opencl.t L)) (list nat) :=
  devices ← call (cl_platform_devices platform);
  map_each (query_device 0) devices.

Definition queryTopology : prog (Machine (Opencl.t L)) (list nat) :=
  platforms ← call cl_platforms;
  _ ← throw_if (bool_decide (platforms = [])) runtime;
  devices ← map_each query_platform platforms;
  mret (concat devices).

(** That topology. *)
Definition topology_of (devices : list nat) (m : Machine (Opencl.t L)) : Topology.t :=
  Topology.mk Json.null (map OpenclDevice.base (omap (fun d => cl_devices (backend m) !! d) devices)).

(** [type.find("OpenCL") != std::string::npos]. *)
Definition recognized (type : string) : bool := bool_decide (is_Some (String.index 0 "OpenCL" type)).

Definition deserializeTopology {S : Type} (topology : Json.t) : prog S Topology.t := read_topology recognized OpenclDevice.make_from topology.

End Operations.
End OpenclTopologyManager.

(** ** The memory manager *)

Module OpenclMemoryManager.
Import Opencl.

Section Operations.
Context {L : Type} {M : OPENCL L}.

(** [_deviceQueueMap], in the order in which the map is visited. *)
Abbreviation state := (Machine (Opencl.t L) * list (Z * nat))%type (only parsing).

Definition getQueue (memorySpace : space_ref) : prog state nat :=
  queues ← this (fun q => q);
  on_fst (space_queue queues memorySpace).

Definition new_slot (p : ptr) (size : Z) (buffer : nat) (memorySpace : space_ref) : prog (Machine (Opencl.t L)) nat :=
  Step (fun m => let i := fresh (dom (locals m)) in
          set_backend (set_slots (<[i := buffer]> (cl_slots (backend m))) (backend m))
            (set_locals (<[i := LocalMemorySlot.make p size (Some (space_id memorySpace))]> (locals m)) m))
       (fun m => Ret (fresh (dom (locals m)))).

(** The body that the ways to make a slot share: a buffer is created and mapped. *)
Definition make_slot (flags : cl_mem_flags) (memorySpace : space_ref) (size : Z) : prog state nat :=
  queue ← getQueue memorySpace;
  buffer ← on_fst (check_value (cl_buffer queue flags size));
  hostPtr ← on_fst (check_value (enqueueMapBuffer queue buffer size));
  _ ← throw_if (bool_decide (hostPtr = nullptr)) runtime;
  on_fst (new_slot hostPtr size buffer memorySpace).

Definition allocateLocalDeviceMemorySlot (memorySpace : space_ref) (size : Z) : prog state nat := make_slot READ_WRITE memorySpace size.

Definition allocateLocalHostMemorySlot (memorySpace : space_ref) (size : Z) : prog state nat := make_slot ALLOC_HOST_PTR memorySpace size.

(** Memory for a space of hwloc is allocated as memory of a device, and that for a
    space of a device as memory of the host. *)
Definition allocateLocalMemorySlotImpl (memorySpace : space_ref) (size : Z) : prog state nat :=
  match memorySpace with
  | hwloc_space _ _ => allocateLocalDeviceMemorySlot memorySpace size
  | other_space id =>
      space ← on_fst (gets (fun m => cl_spaces (backend m) !! id));
      match space with
      | Some _ => allocateLocalHostMemorySlot memorySpace size
      | None => Raise logic
      end
  end.

Definition registerLocalMemorySlotImpl (memorySpace : space_ref) (p : ptr) (size : Z) : prog state nat :=
  _ ← (match memorySpace with
       | hwloc_space _ _ => mret tt
       | other_space id => space ← on_fst (gets (fun m => cl_spaces (backend m) !! id)); throw_if (bool_decide (is_Some space)) runtime
       end);
  make_slot (USE_HOST_PTR p) memorySpace size.

(** The memory space of a slot, which may be one of hwloc. *)
Definition space_of_slot (hwloc : gmap nat HwlocMemorySpace.t) (slot : nat) : prog (Machine (Opencl.t L)) space_ref :=
  s ← local_slot slot;
  match LocalMemorySlot._memorySpace s with
  | Some id => mret (match hwloc !! id with Some h => hwloc_space id h | None => other_space id end)
  | None => Raise logic
  end.

Context (hwloc : gmap nat HwlocMemorySpace.t).

(** The value is a pattern of [sizeof(cl_int)] bytes, and the whole slot is filled. *)
Definition memsetImpl (memorySlot : nat) (value size : Z) : prog state unit :=
  o ← on_fst (cast_slot memorySlot);
  buffer ← on_fst (or_raise runtime o);
  space ← on_fst (space_of_slot hwloc memorySlot);
  queue ← getQueue space;
  n ← on_fst (getSize memorySlot);
  completionEvent ← on_fst (check_value (enqueueFillBuffer queue buffer value n));
  _ ← on_fst (call (cl_event_wait completionEvent));
  mret tt.

(** The [reset] at the end is that of a copy of the pointer to the buffer. *)
Definition freeLocalMemorySlotImpl (memorySlot : nat) : prog state unit :=
  o ← on_fst (cast_slot memorySlot);
  buffer ← on_fst (or_raise runtime o);
  space ← on_fst (space_of_slot hwloc memorySlot);
  queue ← getQueue space;
  p ← on_fst (getPointer memorySlot);
  on_fst (check (enqueueUnmapMemObject queue buffer p)).

Definition deregisterLocalMemorySlotImpl (memorySlot : nat) : prog state unit := mret tt.

Definition opencl_memory : MemoryBackend (Opencl.t L) (list (Z * nat)) := {|
  MemoryManager.allocateLocalMemorySlotImpl := allocateLocalMemorySlotImpl;
  MemoryManager.registerLocalMemorySlotImpl := registerLocalMemorySlotImpl;
  MemoryManager.deregisterLocalMemorySlotImpl := deregisterLocalMemorySlotImpl;
  MemoryManager.memsetImpl := memsetImpl;
  MemoryManager.freeLocalMemorySlotImpl := freeLocalMemorySlotImpl
|}.

End Operations.
End OpenclMemoryManager.

(** ** The communication manager *)

Module OpenclCommunicationManager.
Import Opencl.

Section Operations.
Context {L : Type} {M : OPENCL L} (hwloc : gmap nat HwlocMemorySpace.t).

Definition map (queue slot buffer : nat) : prog (Machine (Opencl.t L)) unit :=
  size ← getSize slot;
  r ← call (enqueueMapBuffer queue buffer size);
  _ ← set_pointer r.2 slot;
  throw_if (negb (r.1 =? CL_SUCCESS)) runtime.

Definition unmap (queue slot buffer : nat) : prog (Machine (Opencl.t L)) unit :=
  p ← getPointer slot;
  check (enqueueUnmapMemObject queue buffer p).

Definition getQueue (this slot : nat) : prog (Machine (Opencl.t L)) nat :=
  space ← OpenclMemoryManager.space_of_slot hwloc slot;
  queues ← fetch (fun m => cl_managers (backend m) !! this);
  space_queue queues space.

(** [queue] is [None] for a copy that is complete on return.  The status of the wait
    is not looked at. *)
Definition memcpyInternal (this destination : nat) (dst_offset : Z) (source : nat) (src_offset size : Z) (queue : option nat) : prog (Machine (Opencl.t L)) unit :=
  o ← cast_slot source;
  o' ← cast_slot destination;
  src ← or_raise logic o;
  dst ← or_raise logic o';
  q ← (match queue with Some q => mret q | None => getQueue this destination end);
  _ ← unmap q source src;
  _ ← unmap q destination dst;
  completionEvent ← check_value (enqueueCopyBuffer q src dst src_offset dst_offset size);
  _ ← (match queue with Some _ => mret tt | None => _ ← call (cl_event_wait completionEvent); mret tt end);
  _ ← map q source src;
  _ ← map q destination dst;
  _ ← update_local LocalMemorySlot.increaseMessagesRecv destination;
  update_local LocalMemorySlot.increaseMessagesSent source.

Definition memcpyAsync (this destination : nat) (dst_offset : Z) (source : nat) (src_offset size : Z) (queue : nat) : prog (Machine (Opencl.t L)) unit :=
  memcpyInternal this destination dst_offset source src_offset size (Some queue).

Definition memcpyImpl (this destination : nat) (dst_offset : Z) (source : nat) (src_offset size : Z) : prog (Machine (Opencl.t L)) unit :=
  memcpyInternal this destination dst_offset source src_offset size None.

(** What is not implemented. *)
Definition not_implemented {S A : Type} : prog S A := Raise runtime.

Definition getGlobalMemorySlotImpl (this : nat) (tag globalKey : Z) : prog (Machine (Opencl.t L)) (option nat) := mret None.

Definition fenceImpl (this : nat) (tag : Z) : prog (Machine (Opencl.t L)) unit := mret tt.

(** Copies that involve global slots are the refusing ones of the base class. *)
Definition opencl_backend : CommBackend (Opencl.t L) := {|
  CommunicationManager.getGlobalMemorySlotImpl := getGlobalMemorySlotImpl;
  exchangeGlobalMemorySlotsImpl := fun _ _ _ => not_implemented;
  queryMemorySlotUpdatesImpl := fun _ _ => not_implemented;
  deregisterGlobalMemorySlotImpl := fun _ _ => mret tt;
  memcpyImplLL := memcpyImpl;
  memcpyImplGL := fun _ _ _ _ _ _ => Raise logic;
  memcpyImplLG := fun _ _ _ _ _ _ => Raise logic;
  fenceImplTag := fenceImpl;
  fenceImplLocal := fun _ _ _ _ => mret tt;
  fenceImplGlobal := fun _ _ _ _ => mret tt;
  acquireGlobalLockImpl := fun _ _ => not_implemented;
  releaseGlobalLockImpl := fun _ _ => not_implemented;
  flushSent := fun _ => mret tt;
  flushReceived := fun _ => mret tt;
  locked := fun _ _ => None;
  lock_slot := fun _ x => x;
  unlock_slot := fun _ x => x
|}.

End Operations.
End OpenclCommunicationManager.
