(* ===== verification/OpenclCompute.v ===== *)
(** * The OpenCL backend: kernels, execution states and processing units

    Models [backends/opencl/memoryKernel.hpp], [computationKernel.hpp],
    [executionUnit.hpp], [executionState.hpp], [processingUnit.hpp] and
    [computeManager.hpp].  While a kernel runs, the buffers of its arguments are not
    mapped to the memory of the host. *)

From S2P Require Import Prelude Memory CommunicationManager HwlocTopology Tasking Compute Accelerators Opencl.
From Stdlib Require Import ZArith Lia.
From stdpp Require Import base list gmap option.

Local Open Scope Z_scope.
Local Open Scope hicr_scope.

(** ** Kernels *)

Module OpenclKernel.
Import Opencl.

(** [MemoryKernel]; [_commManager] is the communication manager. *)
Record memory_kernel : Type := mkMemory { _commManager : nat; _dst : nat; _dstOffset : Z; _src : nat; _srcOffset : Z; _size : Z }.

(** [ComputationKernel]; the arguments are slots. *)
Record computation_kernel : Type := mkComputation { _kernel : nat; _args : list nat; _offset : list Z; _global : list Z; _local : list Z }.

Inductive t : Type :=
| MemoryKernel (k : memory_kernel)
| ComputationKernel (k : computation_kernel).

Section Operations.
Context {L : Type} {M : OPENCL L} (hwloc : gmap nat HwlocMemorySpace.t).

(** The buffer of an argument. *)
Definition getArgument (slot : nat) : prog (Machine (Opencl.t L)) nat := o ← cast_slot slot; or_raise runtime o.

Fixpoint set_args (kernel i : nat) (args : list nat) : prog (Machine (Opencl.t L)) unit :=
  match args with
  | [] => mret tt
  | a :: args' =>
      buffer ← getArgument a;
      _ ← check (setArg kernel i buffer);
      set_args kernel (S i) args'
  end.

(** The constructor. *)
Definition make_computation (kernel : nat) (args : list nat) (offset global local : list Z) : prog (Machine (Opencl.t L)) computation_kernel :=
  _ ← set_args kernel 0 args;
  mret (mkComputation kernel args offset global local).

(** The loop before the kernel: slots that occur more than once are unmapped once. *)
Fixpoint unmap_args (queue : nat) (args : list nat) (unmappedSlots : gset nat) : prog (Machine (Opencl.t L)) (gset nat) :=
  match args with
  | [] => mret unmappedSlots
  | a :: args' =>
      buffer ← getArgument a;
      if bool_decide (a ∈ unmappedSlots) then unmap_args queue args' unmappedSlots else
      p ← getPointer a;
      _ ← check (enqueueUnmapMemObject queue buffer p);
      unmap_args queue args' ({[a]} ∪ unmappedSlots)
  end.

(** The loop after the kernel. *)
Fixpoint map_args (queue : nat) (args : list nat) (unmappedSlots : gset nat) : prog (Machine (Opencl.t L)) unit :=
  match args with
  | [] => mret tt
  | a :: args' =>
      buffer ← getArgument a;
      if bool_decide (unmappedSlots = ∅) then mret tt else
      if bool_decide (a ∉ unmappedSlots) then map_args queue args' unmappedSlots else
      _ ← OpenclCommunicationManager.map queue a buffer;
      map_args queue args' (unmappedSlots ∖ {[a]})
  end.

Definition start (queue : nat) (k : t) : prog (Machine (Opencl.t L)) unit :=
  match k with
  | MemoryKernel k =>
      OpenclCommunicationManager.memcpyAsync hwloc (_commManager k) (_dst k) (_dstOffset k) (_src k) (_srcOffset k) (_size k) queue
  | ComputationKernel k =>
      unmappedSlots ← unmap_args queue (_args k) ∅;
      _ ← check (enqueueNDRangeKernel queue (_kernel k) (_offset k) (_global k) (_local k));
      map_args queue (_args k) unmappedSlots
  end.

(** [ExecutionUnit::start]. *)
Definition start_all (queue : nat) (kernels : list t) : prog (Machine (Opencl.t L)) unit := for_each kernels (start queue).

End Operations.
End OpenclKernel.

(** ** Execution states *)

Module OpenclExecutionState.
Import Opencl.

(** [_executionUnit] has the kernels of the unit; [_syncEvent] is [None] for an event
    that refers to no command. *)
Record t : Type := mk {
  _executionUnit : list OpenclKernel.t;
  _syncEvent : option nat;
  _queue : option nat;
  _isStreamActive : bool
}.

Section Operations.
Context {L : Type} {M : OPENCL L} (hwloc : gmap nat HwlocMemorySpace.t).

Abbreviation state := (Machine (Opencl.t L) * t)%type (only parsing).

(** [None] stands for an execution unit of another backend. *)
Definition make {S : Type} (executionUnit : option (list OpenclKernel.t)) : prog S t :=
  match executionUnit with
  | None => Raise logic
  | Some kernels => mret (mk kernels None None false)
  end.

Definition setQueue (queue : nat) (e : t) : t := mk (_executionUnit e) (_syncEvent e) (Some queue) (_isStreamActive e).
Definition set_event (event : option nat) (e : t) : t := mk (_executionUnit e) event (_queue e) (_isStreamActive e).
Definition set_active (b : bool) (e : t) : t := mk (_executionUnit e) (_syncEvent e) (_queue e) b.

Definition finalizeStream : prog state unit :=
  active ← this _isStreamActive;
  if active : bool
  then e ← this _syncEvent;
       _ ← (match e with Some e => on_fst (check (cl_event_wait e)) | None => Raise runtime end);
       set_this (set_active false)
  else mret tt.

Definition resumeImpl : prog state unit :=
  _ ← set_this (set_event None);
  _ ← set_this (set_active true);
  queue ← fetch (fun st => _queue st.2);
  kernels ← this _executionUnit;
  _ ← on_fst (OpenclKernel.start_all hwloc queue kernels);
  e ← on_fst (check_value (enqueueMarkerWithWaitList queue));
  set_this (set_event (Some e)).

Definition suspendImpl : prog state unit := Raise runtime.

Definition checkFinalizationImpl : prog state bool :=
  e ← fetch (fun st => _syncEvent st.2);
  status ← on_fst (call (cl_event_status e));
  if negb (status =? CL_COMPLETE) then mret false else
  _ ← finalizeStream;
  mret true.

End Operations.
End OpenclExecutionState.

(** ** Processing units *)

Module OpenclProcessingUnit.
Import Opencl OpenclExecutionState.

Record unit_t : Type := mkUnit {
  _unitQueue : nat;
  _executionState : option (ExecutionState.t OpenclExecutionState.t)
}.

Section Operations.
Context {L : Type} {M : OPENCL L} (hwloc : gmap nat HwlocMemorySpace.t).

Abbreviation state := (Machine (Opencl.t L) * ProcessingUnit.t unit_t)%type (only parsing).

(** The constructor; [None] stands for a compute resource of another backend. *)
Definition make (computeResource : option OpenclComputeResource.t) : prog (Machine (Opencl.t L)) unit_t :=
  match computeResource with
  | None => Raise logic
  | Some c =>
      d ← fetch (fun m => weak ← OpenclComputeResource.getDevice c; cl_devices (backend m) !! weak);
      queue ← call (cl_command_queue (OpenclDevice.getOpenCLDevice d));
      mret (mkUnit queue None)
  end.

Definition set_executionState (e : option (ExecutionState.t OpenclExecutionState.t)) (u : unit_t) : unit_t := mkUnit (_unitQueue u) e.

(** What the unit does with its execution state; a null pointer is dereferenced. *)
Definition on_state {A : Type} (p : prog (Machine (Opencl.t L) * ExecutionState.t OpenclExecutionState.t) A) : prog state A :=
  zoom (fun st => e ← _executionState (ProcessingUnit.impl st.2); Some (st.1, e))
       (fun me st => (me.1, ProcessingUnit.set_impl (set_executionState (Some me.2)) st.2)) p.

Definition initialize : prog state unit := mret tt.

(** [None] stands for an execution state of another backend. *)
Definition start (executionState : option (ExecutionState.t OpenclExecutionState.t)) : prog state unit :=
  match executionState with
  | None => Raise logic
  | Some e =>
      _ ← set_this (ProcessingUnit.set_impl (set_executionState (Some e)));
      queue ← this (fun u => _unitQueue (ProcessingUnit.impl u));
      _ ← on_state (set_this (ExecutionState.set_impl (setQueue queue)));
      on_state (StateOps.resume (resumeImpl hwloc))
  end.

Definition await : prog state unit := on_state (StateOps.on_impl finalizeStream).

(** Suspending and resuming are refused by the compute manager, which has nothing to
    do for a termination. *)
Definition not_supported : prog state unit := Raise runtime.

Definition terminate : prog state unit := mret tt.

(** The compute manager. *)
Definition opencl_compute : ComputeBackend (Machine (Opencl.t L)) unit_t (option (ExecutionState.t OpenclExecutionState.t)) := {|
  initializeImpl := initialize;
  startImpl := start;
  Compute.suspendImpl := not_supported;
  Compute.resumeImpl := not_supported;
  terminateImpl := terminate;
  awaitImpl := await
|}.

End Operations.
End OpenclProcessingUnit.
