(* ===== verification/OpenclSpec.v ===== *)
(** * The OpenCL backend: what is relied on of the library, and the store of slots

    [OpenclSpec] describes the functions of the library by what they do to a
    [cl_view] of its state.  Commands take effect when they are put into a queue: a
    queue executes them in order, and the host looks at their effect only behind a
    blocking map or a wait.

    [store m σ U]: the slots of the backend hold the values [σ], in the memory of the
    host where their buffers are mapped and in the buffers of [U], which are not. *)

From S2P Require Import Prelude Memory CommunicationManager HwlocTopology MemoryManager Mpi Opencl OpenclCompute.
From Stdlib Require Import ZArith Lia.
From Stdlib.Strings Require Import Byte.
From stdpp Require Import base list gmap option.

Local Open Scope Z_scope.
Local Open Scope hicr_scope.

(** [cv_contents]: the buffers.  [cv_mapped]: where buffers are mapped.  [cv_args]: the
    arguments of kernels, by their position. *)
Record cl_view : Type := mkClView {
  cv_contents : gmap nat (list byte);
  cv_mapped : gmap nat ptr;
  cv_args : gmap nat (gmap nat nat)
}.

Definition args_of (v : cl_view) (k : nat) : gmap nat nat := default ∅ (cv_args v !! k).

(** The part of a store that a kernel sees. *)
Definition restrict {A : Type} (a : gmap nat nat) (σ : gmap nat A) : gmap nat A := filter (fun bx => bx.1 ∈ (map_img a : gset nat)) σ.

(** Buffers are mapped to different regions. *)
Definition disjoint_maps (v : cl_view) : Prop :=
  forall b1 b2 p1 p2 c1 c2, b1 <> b2 -> cv_mapped v !! b1 = Some p1 -> cv_mapped v !! b2 = Some p2 ->
    cv_contents v !! b1 = Some c1 -> cv_contents v !! b2 = Some c2 -> disjoint_ranges p1 (Z.of_nat (length c1)) p2 (Z.of_nat (length c2)).

(** Memory outside of a region keeps its content. *)
Definition outside_kept (p : ptr) (n : Z) (h h' : memory) : Prop :=
  forall q k xs, disjoint_ranges p n q k -> mem_load h q k = Some xs -> mem_load h' q k = Some xs.

(** The same buffers with the same sizes. *)
Definition same_shape (c c' : gmap nat (list byte)) : Prop := forall b, length <$> (c' !! b) = length <$> (c !! b).

Class OpenclSpec (L : Type) {M : OPENCL L} : Type := {
  cl_look : L -> cl_view;
  cl_effect : nat -> list Z -> list Z -> list Z -> gmap nat nat -> gmap nat (list byte) -> gmap nat (list byte);
  effect_shape : forall k o g n a c, same_shape c (cl_effect k o g n a c);
  (** A new buffer, unless the library has no memory for it. *)
  buffer_ok : forall q fl n h l, (forall p, fl <> USE_HOST_PTR p) -> 0 <= n -> exists r l', run (cl_buffer q fl n) (h, l) = Done r (h, l') /\
      (r.1 <> CL_SUCCESS /\ cl_look l' = cl_look l \/
       r.1 = CL_SUCCESS /\ exists bs, Z.of_nat (length bs) = n /\ cv_contents (cl_look l) !! r.2 = None /\ cv_mapped (cl_look l) !! r.2 = None /\
         cl_look l' = mkClView (<[r.2 := bs]> (cv_contents (cl_look l))) (cv_mapped (cl_look l)) (cv_args (cl_look l)));
  (** A buffer that is mapped is in the memory of the host, one that is unmapped goes back. *)
  map_ok : forall q b bs h l, cv_contents (cl_look l) !! b = Some bs -> cv_mapped (cl_look l) !! b = None -> disjoint_maps (cl_look l) ->
    exists p h' l', run (enqueueMapBuffer q b (Z.of_nat (length bs))) (h, l) = Done (CL_SUCCESS, p) (h', l') /\ p <> nullptr /\
      mem_load h' p (Z.of_nat (length bs)) = Some bs /\ outside_kept p (Z.of_nat (length bs)) h h' /\
      cl_look l' = mkClView (cv_contents (cl_look l)) (<[b := p]> (cv_mapped (cl_look l))) (cv_args (cl_look l)) /\ disjoint_maps (cl_look l');
  unmap_ok : forall q b p cs bs h l, cv_mapped (cl_look l) !! b = Some p -> cv_contents (cl_look l) !! b = Some cs ->
    mem_load h p (Z.of_nat (length cs)) = Some bs -> exists h' l', run (enqueueUnmapMemObject q b p) (h, l) = Done CL_SUCCESS (h', l') /\
      outside_kept p (Z.of_nat (length cs)) h h' /\
      cl_look l' = mkClView (<[b := bs]> (cv_contents (cl_look l))) (delete b (cv_mapped (cl_look l))) (cv_args (cl_look l));
  unmap_invalid : forall q b p h l, cv_mapped (cl_look l) !! b <> Some p -> exists st l', run (enqueueUnmapMemObject q b p) (h, l) = Done st (h, l') /\
      st <> CL_SUCCESS /\ cl_look l' = cl_look l;
  (** Commands on buffers that are not mapped. *)
  copy_ok : forall q b1 b2 o1 o2 n xs ys bs ys' h l, b1 <> b2 -> cv_mapped (cl_look l) !! b1 = None -> cv_mapped (cl_look l) !! b2 = None ->
    cv_contents (cl_look l) !! b1 = Some xs -> cv_contents (cl_look l) !! b2 = Some ys -> 0 <= o1 -> 0 <= o2 -> 0 <= n ->
    read_at (Z.to_nat o1) (Z.to_nat n) xs = Some bs -> write_at (Z.to_nat o2) bs ys = Some ys' -> exists e l',
      run (enqueueCopyBuffer q b1 b2 o1 o2 n) (h, l) = Done (CL_SUCCESS, e) (h, l') /\
      cl_look l' = mkClView (<[b2 := ys']> (cv_contents (cl_look l))) (cv_mapped (cl_look l)) (cv_args (cl_look l));
  kernel_ok : forall q k o g n h l, (forall i b, args_of (cl_look l) k !! i = Some b -> cv_mapped (cl_look l) !! b = None) -> exists l',
      run (enqueueNDRangeKernel q k o g n) (h, l) = Done CL_SUCCESS (h, l') /\
      cl_look l' = mkClView (cl_effect k o g n (args_of (cl_look l) k) (restrict (args_of (cl_look l) k) (cv_contents (cl_look l))) ∪ cv_contents (cl_look l))
                     (cv_mapped (cl_look l)) (cv_args (cl_look l));
  set_arg_ok : forall k i b h l, exists l', run (setArg k i b) (h, l) = Done CL_SUCCESS (h, l') /\
      cl_look l' = mkClView (cv_contents (cl_look l)) (cv_mapped (cl_look l)) (<[k := <[i := b]> (args_of (cl_look l) k)]> (cv_args (cl_look l)));
  (** Events. *)
  marker_ok : forall q h l, exists e l', run (enqueueMarkerWithWaitList q) (h, l) = Done (CL_SUCCESS, e) (h, l') /\ cl_look l' = cl_look l;
  wait_ok : forall e h l, exists l', run (cl_event_wait e) (h, l) = Done CL_SUCCESS (h, l') /\ cl_look l' = cl_look l;
  status_ok : forall e h l, exists st l', run (cl_event_status e) (h, l) = Done st (h, l') /\ cl_look l' = cl_look l
}.

(** ** Calls *)

Section Calls.
Context {L : Type} {M : OPENCL L}.
Implicit Types (m : Machine (Opencl.t L)) (l : L).
Import Opencl.

Definition cl_after (h : memory) (l : L) (m : Machine (Opencl.t L)) : Machine (Opencl.t L) :=
  set_backend (set_library l (backend m)) (set_heap h m).

Abbreviation lib m := (Opencl.library (backend m)) (only parsing).

Lemma run_cl_call {A : Type} (p : prog (memory * L) A) m :
  run (call p) m =
  match run p (heap m, lib m) with
  | Done a s => Done a (cl_after s.1 s.2 m)
  | Thrown e s => Thrown e (cl_after s.1 s.2 m)
  | Crashed c s => Crashed c (cl_after s.1 s.2 m)
  | Blocked s => Blocked (cl_after s.1 s.2 m)
  end.
Proof.
  unfold call. erewrite run_zoom; [reflexivity|reflexivity|by destruct m as [? ? ? ? []]|by intros [] [? ? ? ? []]|by intros [] [] [? ? ? ? []]].
Qed.

Lemma run_cl_check p m h l : run p (heap m, lib m) = Done CL_SUCCESS (h, l) -> run (check p) m = Done tt (cl_after h l m).
Proof. intros E. unfold check. rewrite run_bind, run_cl_call, E. by rewrite Z.eqb_refl. Qed.

Lemma run_cl_check_failed p m st h l : run p (heap m, lib m) = Done st (h, l) -> st <> CL_SUCCESS -> run (check p) m = Thrown runtime (cl_after h l m).
Proof. intros E Hs. unfold check. rewrite run_bind, run_cl_call, E. cbn. apply Z.eqb_neq in Hs. by rewrite Hs. Qed.

Lemma run_cl_check_value {A : Type} (p : prog (memory * L) (Z * A)) m a h l :
  run p (heap m, lib m) = Done (CL_SUCCESS, a) (h, l) -> run (check_value p) m = Done a (cl_after h l m).
Proof. intros E. unfold check_value. rewrite run_bind, run_cl_call, E. cbn. by rewrite Z.eqb_refl. Qed.

Lemma run_cl_check_value_failed {A : Type} (p : prog (memory * L) (Z * A)) m r h l :
  run p (heap m, lib m) = Done r (h, l) -> r.1 <> CL_SUCCESS -> run (check_value p) m = Thrown runtime (cl_after h l m).
Proof. intros E Hr. unfold check_value. rewrite run_bind, run_cl_call, E. cbn. apply Z.eqb_neq in Hr. by rewrite Hr. Qed.

End Calls.

(** ** The store *)

Section Store.
Context {L : Type} {M : OPENCL L} {Sp : OpenclSpec L}.
Implicit Types (m : Machine (Opencl.t L)) (l : L) (σ : gmap nat (list byte)) (U : gset nat).
Import Opencl.

Abbreviation lib m := (Opencl.library (backend m)) (only parsing).
Abbreviation view m := (cl_look (Opencl.library (backend m))) (only parsing).

(** A slot and the value of its buffer. *)
Definition slot_holds m σ U (i b : nat) : Prop :=
  exists s bs cs, locals m !! i = Some s /\ σ !! b = Some bs /\ LocalMemorySlot._size s = Z.of_nat (length bs) /\
    cv_contents (view m) !! b = Some cs /\ length cs = length bs /\
    if decide (b ∈ U) then cv_mapped (view m) !! b = None /\ cs = bs
    else cv_mapped (view m) !! b = Some (LocalMemorySlot._pointer s) /\ mem_load (heap m) (LocalMemorySlot._pointer s) (Z.of_nat (length bs)) = Some bs.

Record store m σ U : Prop := mkStore {
  store_slots : forall i b, cl_slots (backend m) !! i = Some b -> slot_holds m σ U i b;
  store_inj : forall i j b, cl_slots (backend m) !! i = Some b -> cl_slots (backend m) !! j = Some b -> i = j;
  store_disjoint : disjoint_maps (view m)
}.

(** The same objects; slots may be mapped elsewhere. *)
Record kept_objects m m' : Prop := mkKept {
  kept_slots : cl_slots (backend m') = cl_slots (backend m);
  kept_devices : cl_devices (backend m') = cl_devices (backend m);
  kept_spaces : cl_spaces (backend m') = cl_spaces (backend m);
  kept_managers : cl_managers (backend m') = cl_managers (backend m);
  kept_args : cv_args (view m') = cv_args (view m);
  kept_sizes : forall i, (fun s => (LocalMemorySlot._size s, LocalMemorySlot._memorySpace s)) <$> locals m' !! i =
                         (fun s => (LocalMemorySlot._size s, LocalMemorySlot._memorySpace s)) <$> locals m !! i
}.

#[global] Instance kept_objects_preorder : PreOrder kept_objects.
Proof. split; [done|]. intros x y z [] []. split; try congruence. Qed.

Lemma run_store_unmap q i b m σ U : store m σ U -> cl_slots (backend m) !! i = Some b -> b ∉ U ->
  exists m', run (OpenclCommunicationManager.unmap q i b) m = Done tt m' /\ store m' σ ({[b]} ∪ U) /\ kept_objects m m'.
Proof.
  intros Hst Hi Hb. destruct (store_slots _ _ _ Hst i b Hi) as (s & bs & cs & Hs & Hv & Hsz & Hc & Hlen & Hm). rewrite decide_False in Hm by done.
  destruct Hm as [Hm Hl]. unfold OpenclCommunicationManager.unmap.
  assert (Hat : slot_at m i (LocalMemorySlot._pointer s) (LocalMemorySlot._size s)) by (by exists s).
  rewrite (run_bind_Done _ _ _ _ _ (run_getPointer _ _ _ _ Hat)). rewrite <- Hlen in Hl.
  destruct (unmap_ok q b _ cs bs (heap m) (lib m) Hm Hc Hl) as (h' & l' & E & Hk & V). eexists. split; [by apply run_cl_check|].
  split; [|split; try done; cbn; by rewrite V]. split.
  - intros j b' Hj. change (cl_slots (backend m) !! j = Some b') in Hj.
    destruct (store_slots _ _ _ Hst j b' Hj) as (s' & bs' & cs' & Hs' & Hv' & Hsz' & Hc' & Hlen' & Hm'). destruct (decide (b' = b)) as [->|Hne].
    + assert (j = i) as -> by (by eapply store_inj). rewrite Hs in Hs'. injection Hs' as <-. rewrite Hv in Hv'. injection Hv' as <-.
      exists s, bs, bs. cbn. rewrite V. cbn. rewrite lookup_insert_eq, lookup_delete_eq, decide_True by set_solver. by split_and!.
    + exists s', bs', cs'. cbn. rewrite V. cbn. rewrite lookup_insert_ne, lookup_delete_ne by done. split_and!; try done.
      destruct (decide (b' ∈ U)) as [HU|HU]; [rewrite decide_True by set_solver; done|]. rewrite decide_False by set_solver.
      destruct Hm' as [Hm' Hl']. split; [done|]. apply Hk; [|done]. rewrite <- Hlen'. by apply (store_disjoint _ _ _ Hst b b').
  - apply (store_inj _ _ _ Hst).
  - cbn. rewrite V. intros b1 b2 p1 p2 c1 c2 Hne H1 H2 C1 C2. cbn in *. apply lookup_delete_Some in H1 as [N1 H1], H2 as [N2 H2].
    rewrite lookup_insert_ne in C1, C2 by done. by apply (store_disjoint _ _ _ Hst b1 b2).
Qed.

Lemma run_store_map q i b m σ U : store m σ U -> cl_slots (backend m) !! i = Some b -> b ∈ U ->
  exists m', run (OpenclCommunicationManager.map q i b) m = Done tt m' /\ store m' σ (U ∖ {[b]}) /\ kept_objects m m'.
Proof.
  intros Hst Hi Hb. destruct (store_slots _ _ _ Hst i b Hi) as (s & bs & cs & Hs & Hv & Hsz & Hc & Hlen & Hm). rewrite decide_True in Hm by done.
  destruct Hm as [Hm ->]. unfold OpenclCommunicationManager.map.
  assert (Hat : slot_at m i (LocalMemorySlot._pointer s) (LocalMemorySlot._size s)) by (by exists s).
  rewrite (run_bind_Done _ _ _ _ _ (run_getSize _ _ _ _ Hat)), Hsz.
  destruct (map_ok q b bs (heap m) (lib m) Hc Hm (store_disjoint _ _ _ Hst)) as (p & h' & l' & E & Hp & Hl & Hk & V & Hd).
  rewrite run_bind, run_cl_call, E. cbn [fst snd]. unfold set_pointer, update_local.
  erewrite run_bind_Done; [|apply run_update; cbn; rewrite Hs; reflexivity]. rewrite Z.eqb_refl. cbn [negb throw_if run].
  eexists. split; [reflexivity|]. split; [split|split; try done; cbn].
  - intros j b' Hj. change (cl_slots (backend m) !! j = Some b') in Hj.
    destruct (store_slots _ _ _ Hst j b' Hj) as (s' & bs' & cs' & Hs' & Hv' & Hsz' & Hc' & Hlen' & Hm'). destruct (decide (b' = b)) as [->|Hne].
    + assert (j = i) as -> by (by eapply store_inj). rewrite Hv in Hv'. injection Hv' as <-.
      eexists _, bs, bs. cbn. rewrite lookup_insert_eq, V. cbn. rewrite lookup_insert_eq, decide_False by set_solver. by split_and!.
    + assert (i <> j) by (intros ->; congruence). exists s', bs', cs'. cbn. rewrite lookup_insert_ne, V by done. cbn. rewrite lookup_insert_ne by done. split_and!; try done.
      destruct (decide (b' ∈ U)) as [HU|HU]; [rewrite decide_True by set_solver; done|]. rewrite decide_False by set_solver.
      destruct Hm' as [Hm' Hl']. split; [done|]. apply Hk; [|done]. rewrite <- Hlen'.
      rewrite V in Hd. apply (Hd b b' p _ bs cs'); cbn; [done|apply lookup_insert_eq|by rewrite lookup_insert_ne|done|done].
  - apply (store_inj _ _ _ Hst).
  - exact Hd.
  - by rewrite V.
  - intros j. rewrite lookup_insert. case_decide; [subst; by rewrite Hs|done].
Qed.

(** A store says nothing about buffers that are of no slot. *)
Lemma store_ext m σ U U' : (forall i b, cl_slots (backend m) !! i = Some b -> b ∈ U <-> b ∈ U') -> store m σ U -> store m σ U'.
Proof.
  intros HU [Hs Hi Hd]. split; [|done|done]. intros i b Hb. destruct (Hs i b Hb) as (s & bs & cs & H). exists s, bs, cs.
  destruct (decide (b ∈ U)) as [Hin|Hin]; [rewrite decide_True by (by rewrite <- HU)|rewrite decide_False by (by rewrite <- HU)]; exact H.
Qed.

(** Buffers of slots that are not mapped. *)
Lemma store_unmapped i b m σ U : store m σ U -> cl_slots (backend m) !! i = Some b -> b ∈ U ->
  exists bs, σ !! b = Some bs /\ cv_contents (view m) !! b = Some bs /\ cv_mapped (view m) !! b = None.
Proof.
  intros Hst Hi Hb. destruct (store_slots _ _ _ Hst i b Hi) as (s & bs & cs & _ & Hv & _ & Hc & _ & Hm). rewrite decide_True in Hm by done.
  destruct Hm as [Hm ->]. by exists bs.
Qed.

(** A command that acts on unmapped buffers only. *)
Lemma store_command l c' σ' m σ U :
  store m σ U -> cl_look l = mkClView c' (cv_mapped (view m)) (cv_args (view m)) -> same_shape (cv_contents (view m)) c' ->
  (forall i b, cl_slots (backend m) !! i = Some b -> σ' !! b = if decide (b ∈ U) then c' !! b else σ !! b) ->
  store (cl_after (heap m) l m) σ' U /\ kept_objects m (cl_after (heap m) l m).
Proof.
  intros [Hs Hi Hd] V Hsh Hσ. split; [split; [|exact Hi|]|split; try done; cbn; by rewrite V].
  - intros i b Hb. change (cl_slots (backend m) !! i = Some b) in Hb. destruct (Hs i b Hb) as (s & bs & cs & Hl & Hv & Hsz & Hc & Hlen & Hm).
    specialize (Hσ i b Hb). pose proof (Hsh b) as Hb'. rewrite Hc in Hb'. destruct (c' !! b) as [cs'|] eqn:Ec; [|done]. injection Hb' as Hb'.
    exists s, (if decide (b ∈ U) then cs' else bs), cs'. cbn. rewrite V. cbn. split_and!; [done| | |done| |].
    + rewrite Hσ. by case_decide.
    + case_decide; [rewrite Hb', Hlen|]; done.
    + case_decide; [done|]. congruence.
    + case_decide; [tauto|done].
  - cbn. rewrite V. intros b1 b2 p1 p2 c1 c2 Hne H1 H2 C1 C2. cbn in *. pose proof (Hsh b1) as S1. pose proof (Hsh b2) as S2. rewrite C1 in S1. rewrite C2 in S2.
    destruct (cv_contents (view m) !! b1) as [d1|] eqn:E1; [|done]. destruct (cv_contents (view m) !! b2) as [d2|] eqn:E2; [|done].
    injection S1 as ->. injection S2 as ->. by apply (Hd b1 b2).
Qed.

(** A call that the view does not show. *)
Lemma store_unseen l m σ U : store m σ U -> cl_look l = view m -> store (cl_after (heap m) l m) σ U /\ kept_objects m (cl_after (heap m) l m).
Proof.
  intros Hst V. apply (store_command _ (cv_contents (view m)) σ _ σ); [exact Hst|rewrite V; by destruct (view m)|by intros b|].
  intros i b Hi. case_decide; [|done]. destruct (store_unmapped _ _ _ _ _ Hst Hi) as (? & ? & ? & _); congruence.
Qed.

(** What a store depends on of the machine; message counters are not part of it. *)
Lemma store_locals x m σ U : locals_sim (locals m) x -> store m σ U -> store (set_locals x m) σ U /\ kept_objects m (set_locals x m).
Proof.
  intros Hx [Hs Hi Hd]. split; [split; [|exact Hi|exact Hd]|split; try done].
  - intros i b Hb. destruct (Hs i b Hb) as (s & bs & cs & Hl & H). destruct (locals_sim_lookup _ _ _ _ Hx Hl) as (s' & Hl' & (Ep & Es & _)).
    exists s', bs, cs. cbn. rewrite <- Ep, <- Es. by split.
  - intros i. cbn. pose proof (Hx i) as Hxi. destruct Hxi as [a b (? & ? & ?)|]; cbn; congruence.
Qed.

End Store.
