(* ===== verification/OpenclKernels.v ===== *)
(** * The OpenCL backend: copies and kernels refine operations on the values of slots

    Copies and kernels unmap the buffers they work on and map them again, at other
    addresses in general.  [store m σ ∅] says that the values of the buffers, which the
    slots give access to, are [σ]; on them a copy is [copy_sem] and a kernel is
    [kernel_sem]. *)

From S2P Require Import Prelude Memory CommunicationManager HwlocTopology Mpi Tasking Compute Accelerators Opencl OpenclCompute OpenclSpec.
From Stdlib Require Import ZArith Lia.
From Stdlib.Strings Require Import Byte.
From stdpp Require Import base list gmap option.

Local Open Scope Z_scope.
Local Open Scope hicr_scope.

(** ** Operations on the values of buffers *)

Definition copy_sem (b1 : nat) (o1 : Z) (b2 : nat) (o2 n : Z) (σ : gmap nat (list byte)) : option (gmap nat (list byte)) :=
  if bool_decide (b1 <> b2 /\ 0 <= o1 /\ 0 <= o2 /\ 0 <= n)
  then xs ← σ !! b1; ys ← σ !! b2; bs ← read_at (Z.to_nat o1) (Z.to_nat n) xs; ys' ← write_at (Z.to_nat o2) bs ys; Some (<[b2 := ys']> σ)
  else None.

Lemma copy_sem_inv b1 o1 b2 o2 n σ σ' : copy_sem b1 o1 b2 o2 n σ = Some σ' ->
  b1 <> b2 /\ 0 <= o1 /\ 0 <= o2 /\ 0 <= n /\ exists xs ys bs ys', σ !! b1 = Some xs /\ σ !! b2 = Some ys /\
    read_at (Z.to_nat o1) (Z.to_nat n) xs = Some bs /\ write_at (Z.to_nat o2) bs ys = Some ys' /\ σ' = <[b2 := ys']> σ.
Proof.
  unfold copy_sem. case_bool_decide as Hc; [|done]. intros (xs & Hx & (ys & Hy & (bs & Hb & (ys' & Hy' & E)%bind_Some)%bind_Some)%bind_Some)%bind_Some.
  injection E as <-. destruct Hc as (? & ? & ? & ?). split_and!; [done..|]. by exists xs, ys, bs, ys'.
Qed.

Section Kernels.
Context {L : Type} {M : OPENCL L} {Sp : OpenclSpec L} (hwloc : gmap nat HwlocMemorySpace.t).
Implicit Types (m : Machine (Opencl.t L)) (l : L) (σ : gmap nat (list byte)) (U : gset nat).
Import Opencl.

Abbreviation lib m := (Opencl.library (backend m)) (only parsing).
Abbreviation view m := (cl_look (Opencl.library (backend m))) (only parsing).

(** ** Copies *)

Lemma run_cast_slot i b m : cl_slots (backend m) !! i = Some b -> run (cast_slot i) m = Done (Some b) m.
Proof. intros E. unfold cast_slot. by rewrite run_gets, E. Qed.

Lemma store_copy q b1 o1 b2 o2 n i1 i2 m σ σ' U :
  store m σ U -> cl_slots (backend m) !! i1 = Some b1 -> cl_slots (backend m) !! i2 = Some b2 -> b1 ∈ U -> b2 ∈ U -> copy_sem b1 o1 b2 o2 n σ = Some σ' ->
  exists e m', run (check_value (enqueueCopyBuffer q b1 b2 o1 o2 n)) m = Done e m' /\ store m' σ' U /\ kept_objects m m'.
Proof.
  intros Hst H1 H2 U1 U2 Hc. destruct (copy_sem_inv _ _ _ _ _ _ _ Hc) as (Hne & ? & ? & ? & xs & ys & bs & ys' & Hx & Hy & Hr & Hw & ->).
  destruct (store_unmapped _ _ _ _ _ Hst H1 U1) as (? & V1 & C1 & M1), (store_unmapped _ _ _ _ _ Hst H2 U2) as (? & V2 & C2 & M2). simplify_eq.
  destruct (copy_ok q b1 b2 o1 o2 n xs ys bs ys' (heap m) (lib m) Hne M1 M2 C1 C2) as (e & l' & E & V); [done..|].
  exists e, (cl_after (heap m) l' m). split; [by apply run_cl_check_value|]. eapply store_command; [exact Hst|exact V| |].
  - intros b. rewrite lookup_insert. case_decide; [subst|done]. rewrite C2. cbn. f_equal. by eapply write_at_length.
  - intros i b Hi. rewrite !lookup_insert. case_decide; [subst; by rewrite decide_True|]. case_decide; [|done].
    destruct (store_unmapped _ _ _ _ _ Hst Hi) as (? & ? & ? & _); congruence.
Qed.

(** The wait, which is skipped for an asynchronous copy. *)
Lemma run_wait (queue : option nat) e m σ U : store m σ U ->
  exists m', run (match queue with Some _ => mret tt | None => _ ← call (cl_event_wait e); mret tt end) m = Done tt m' /\ store m' σ U /\ kept_objects m m'.
Proof.
  intros Hst. destruct queue as [q|]; [by exists m|]. destruct (wait_ok e (heap m) (lib m)) as (l' & E & V). exists (cl_after (heap m) l' m). split.
  - by rewrite run_bind, run_cl_call, E.
  - by apply store_unseen.
Qed.

Lemma kept_slot m m' i b : kept_objects m m' -> cl_slots (backend m) !! i = Some b -> cl_slots (backend m') !! i = Some b.
Proof. intros Hk. by rewrite (kept_slots _ _ Hk). Qed.

Lemma store_counted dst src m σ U : store m σ U -> store (counted dst src m) σ U /\ kept_objects m (counted dst src m).
Proof. intros Hst. apply store_locals; [|done]. apply (counted_sim dst src m). Qed.

Lemma run_cl_memcpy this dst b2 o2 src b1 o1 n queue q m σ σ' :
  store m σ ∅ -> cl_slots (backend m) !! src = Some b1 -> cl_slots (backend m) !! dst = Some b2 -> copy_sem b1 o1 b2 o2 n σ = Some σ' ->
  run (match queue with Some q => mret q | None => OpenclCommunicationManager.getQueue hwloc this dst end) m = Done q m ->
  exists m', run (OpenclCommunicationManager.memcpyInternal hwloc this dst o2 src o1 n queue) m = Done tt m' /\ store m' σ' ∅ /\ kept_objects m m'.
Proof.
  intros Hst H1 H2 Hc Hq. destruct (copy_sem_inv _ _ _ _ _ _ _ Hc) as (Hne & _). unfold OpenclCommunicationManager.memcpyInternal.
  rewrite (run_bind_Done _ _ _ _ _ (run_cast_slot _ _ _ H1)), (run_bind_Done _ _ _ _ _ (run_cast_slot _ _ _ H2)). cbn [or_raise]. rewrite !(run_bind_Done _ _ _ _ _ (run_ret _ _)), (run_bind_Done _ _ _ _ _ Hq).
  destruct (run_store_unmap q src b1 m σ ∅ Hst H1) as (m1 & E1 & S1 & K1); [set_solver|]. rewrite (run_bind_Done _ _ _ _ _ E1).
  destruct (run_store_unmap q dst b2 m1 σ _ S1) as (m2 & E2 & S2 & K2); [by eapply kept_slot|set_solver|]. rewrite (run_bind_Done _ _ _ _ _ E2).
  assert (K : kept_objects m m2) by (by etrans).
  destruct (store_copy q b1 o1 b2 o2 n src dst m2 σ σ' _ S2) as (e & m3 & E3 & S3 & K3); [by eapply kept_slot|by eapply kept_slot|set_solver|set_solver|done|].
  rewrite (run_bind_Done _ _ _ _ _ E3). destruct (run_wait queue e m3 σ' _ S3) as (m4 & E4 & S4 & K4). rewrite (run_bind_Done _ _ _ _ _ E4).
  assert (K' : kept_objects m m4) by (etrans; [exact K|by etrans]). clear K K1 K2 K3 K4.
  destruct (run_store_map q src b1 m4 σ' _ S4) as (m5 & E5 & S5 & K5); [by eapply kept_slot|set_solver|]. rewrite (run_bind_Done _ _ _ _ _ E5).
  destruct (run_store_map q dst b2 m5 σ' _ S5) as (m6 & E6 & S6 & K6); [eapply kept_slot; [exact K5|by eapply kept_slot]|set_solver|]. rewrite (run_bind_Done _ _ _ _ _ E6).
  assert (K : kept_objects m m6) by (etrans; [exact K'|by etrans]).
  assert (Hl : forall i b, cl_slots (backend m) !! i = Some b -> is_Some (locals m6 !! i)).
  { intros i b Hi. destruct (store_slots _ _ _ S6 i b) as (s & ? & ? & -> & _); [by eapply kept_slot|by eexists]. }
  exists (counted dst src m6). split; [apply run_copy_count; by eapply Hl|]. destruct (store_counted dst src m6 σ' _ S6) as [S7 K7].
  split; [|by etrans]. eapply store_ext; [|exact S7]. intros i b _. set_solver.
Qed.

(** ** Kernels *)

Definition args_buffers m (args : list nat) : gset nat := list_to_set (omap (fun i => cl_slots (backend m) !! i) args).

(** The arguments of a kernel in the library are slots of its argument list. *)
Definition bound m (k : OpenclKernel.computation_kernel) : Prop :=
  Forall (fun i => is_Some (cl_slots (backend m) !! i)) (OpenclKernel._args k) /\
  forall n b, args_of (view m) (OpenclKernel._kernel k) !! n = Some b -> exists i, i ∈ OpenclKernel._args k /\ cl_slots (backend m) !! i = Some b.

(** The slots of [S] are those whose buffers are in [U]. *)
Definition unmapped_by m (S : gset nat) U : Prop := forall i b, cl_slots (backend m) !! i = Some b -> b ∈ U <-> i ∈ S.

Lemma unmapped_by_kept m m' S U : kept_objects m m' -> unmapped_by m S U -> unmapped_by m' S U.
Proof. intros Hk HU i b. rewrite (kept_slots _ _ Hk). apply HU. Qed.

Lemma slots_kept m m' args : kept_objects m m' -> Forall (fun i => is_Some (cl_slots (backend m) !! i)) args -> Forall (fun i => is_Some (cl_slots (backend m') !! i)) args.
Proof. intros Hk. by rewrite (kept_slots _ _ Hk). Qed.

Lemma run_unmap_args q args S m σ U :
  store m σ U -> unmapped_by m S U -> Forall (fun i => is_Some (cl_slots (backend m) !! i)) args ->
  exists U' m', run (OpenclKernel.unmap_args q args S) m = Done (list_to_set args ∪ S) m' /\ store m' σ U' /\ unmapped_by m' (list_to_set args ∪ S) U' /\ kept_objects m m'.
Proof.
  revert S U m. induction args as [|a args IH]; intros S U m Hst HU Hargs.
  - exists U, m. cbn [OpenclKernel.unmap_args list_to_set]. rewrite (union_empty_l_L S). by split_and!.
  - apply Forall_cons_1 in Hargs as [[b Hb] Hargs]. cbn [OpenclKernel.unmap_args list_to_set]. unfold OpenclKernel.getArgument.
    rewrite run_bind, run_bind, (run_cast_slot _ _ _ Hb). cbn [or_raise run mret prog_mret]. case_bool_decide as Ha.
    + destruct (IH S U m Hst HU Hargs) as (U' & m' & E & H). exists U', m'. replace ({[a]} ∪ list_to_set args ∪ S) with (list_to_set args ∪ S) by set_solver. by split.
    + destruct (run_store_unmap q a b m σ U Hst Hb) as (m1 & E1 & S1 & K1); [by rewrite (HU a b Hb)|]. unfold OpenclCommunicationManager.unmap in E1.
      rewrite <- run_bind_assoc, (run_bind_Done _ _ _ _ _ E1). destruct (IH ({[a]} ∪ S) ({[b]} ∪ U) m1 S1) as (U' & m' & E & S' & H' & K').
      { eapply unmapped_by_kept; [exact K1|]. intros i b' Hi. rewrite !elem_of_union, !elem_of_singleton, (HU i b' Hi).
        split; (intros [->|]; [left|by right]); [by apply (store_inj _ _ _ Hst i a b)|congruence]. }
      { by eapply slots_kept. }
      exists U', m'. replace ({[a]} ∪ list_to_set args ∪ S) with (list_to_set args ∪ ({[a]} ∪ S)) by set_solver. split_and!; [done..|by etrans].
Qed.

Lemma run_map_args q args S m σ U :
  store m σ U -> unmapped_by m S U -> Forall (fun i => is_Some (cl_slots (backend m) !! i)) args -> S ⊆ list_to_set args ->
  exists m', run (OpenclKernel.map_args q args S) m = Done tt m' /\ store m' σ ∅ /\ kept_objects m m'.
Proof.
  assert (Hend : forall m U, store m σ U -> unmapped_by m ∅ U -> store m σ ∅).
  { intros m0 U0 Hst HU. eapply store_ext; [|exact Hst]. intros i b Hi. rewrite (HU i b Hi). set_solver. }
  revert S U m. induction args as [|a args IH]; intros S U m Hst HU Hargs HS.
  - assert (S = ∅) as -> by set_solver. exists m. split_and!; [done|by eapply Hend|done].
  - apply Forall_cons_1 in Hargs as [[b Hb] Hargs]. cbn [OpenclKernel.map_args]. unfold OpenclKernel.getArgument.
    rewrite run_bind, run_bind, (run_cast_slot _ _ _ Hb). cbn [or_raise run mret prog_mret]. case_bool_decide as He.
    { subst. exists m. split_and!; [done|by eapply Hend|done]. }
    case_bool_decide as Ha; [apply (IH S U); set_solver|].
    destruct (run_store_map q a b m σ U Hst Hb) as (m1 & E1 & S1 & K1); [by rewrite (HU a b Hb)|]. rewrite (run_bind_Done _ _ _ _ _ E1).
    destruct (IH (S ∖ {[a]}) (U ∖ {[b]}) m1 S1) as (m' & E & S' & K'); [|by eapply slots_kept|set_solver|].
    { eapply unmapped_by_kept; [exact K1|]. intros i b' Hi. rewrite !elem_of_difference, !elem_of_singleton, (HU i b' Hi).
      split; (intros [? Hn]; split; [done|]; contradict Hn); [by subst; simplify_eq|subst; by apply (store_inj _ _ _ Hst i a b)]. }
    exists m'. split_and!; [done..|by etrans].
Qed.

(** What a kernel does to the values. *)
Definition kernel_sem m (k : OpenclKernel.t) σ : option (gmap nat (list byte)) :=
  match k with
  | OpenclKernel.MemoryKernel k =>
      b1 ← cl_slots (backend m) !! OpenclKernel._src k;
      b2 ← cl_slots (backend m) !! OpenclKernel._dst k;
      copy_sem b1 (OpenclKernel._srcOffset k) b2 (OpenclKernel._dstOffset k) (OpenclKernel._size k) σ
  | OpenclKernel.ComputationKernel k =>
      let a := args_of (view m) (OpenclKernel._kernel k) in
      Some (cl_effect (OpenclKernel._kernel k) (OpenclKernel._offset k) (OpenclKernel._global k) (OpenclKernel._local k) a (restrict a σ) ∪ σ)
  end.

Definition kernel_ready m (k : OpenclKernel.t) : Prop :=
  match k with OpenclKernel.MemoryKernel _ => True | OpenclKernel.ComputationKernel k => bound m k end.

Lemma kernel_sem_kept m m' k σ : kept_objects m m' -> kernel_sem m' k σ = kernel_sem m k σ.
Proof. intros Hk. unfold kernel_sem, args_of. by rewrite (kept_slots _ _ Hk), (kept_args _ _ Hk). Qed.

Lemma kernel_ready_kept m m' k : kept_objects m m' -> kernel_ready m k -> kernel_ready m' k.
Proof. intros Hk. destruct k as [k|k]; [done|]. unfold kernel_ready, bound, args_of. by rewrite (kept_slots _ _ Hk), (kept_args _ _ Hk). Qed.

Lemma restrict_lookup {A : Type} a (c : gmap nat A) b : restrict a c !! b = if bool_decide (b ∈ (map_img a : gset nat)) then c !! b else None.
Proof.
  unfold restrict. case_bool_decide as H; [destruct (c !! b) as [x|] eqn:E; [by apply map_lookup_filter_Some_2|]|].
  - apply map_lookup_filter_None. by left.
  - apply map_lookup_filter_None. by right.
Qed.

Lemma store_kernel q k o g n m σ U :
  store m σ U -> (forall i b, args_of (view m) k !! i = Some b -> b ∈ U /\ exists j, cl_slots (backend m) !! j = Some b) ->
  let a := args_of (view m) k in
  exists m', run (check (enqueueNDRangeKernel q k o g n)) m = Done tt m' /\ store m' (cl_effect k o g n a (restrict a σ) ∪ σ) U /\ kept_objects m m'.
Proof.
  intros Hst Ha a. destruct (kernel_ok q k o g n (heap m) (lib m)) as (l' & E & V).
  { intros i b Hi. destruct (Ha i b Hi) as (Hb & j & Hj). by destruct (store_unmapped _ _ _ _ _ Hst Hj Hb) as (_ & _ & _ & ?). }
  exists (cl_after (heap m) l' m). split; [by apply run_cl_check|]. fold a in Ha, V.
  assert (Hr : restrict a (cv_contents (view m)) = restrict a σ).
  { apply map_eq. intros b. rewrite !restrict_lookup. case_bool_decide as Hb; [|done]. apply elem_of_map_img in Hb as [i Hi].
    destruct (Ha i b Hi) as (Hb & j & Hj). destruct (store_unmapped _ _ _ _ _ Hst Hj Hb) as (? & ? & ? & _). congruence. }
  assert (Hout : forall b, b ∉ U -> cl_effect k o g n a (restrict a σ) !! b = None).
  { intros b Hb. pose proof (effect_shape k o g n a (restrict a σ) b) as Hs. rewrite restrict_lookup, bool_decide_false in Hs.
    - by destruct (_ !! b).
    - intros [i Hi]%elem_of_map_img. by destruct (Ha i b Hi). }
  eapply store_command; [exact Hst|exact V| |]; rewrite Hr.
  - intros b. rewrite lookup_union. pose proof (effect_shape k o g n a (restrict a σ) b) as Hs. destruct (cl_effect _ _ _ _ _ _ !! b) as [x|]; [|by destruct (cv_contents _ !! b)].
    rewrite <- Hr, restrict_lookup in Hs. case_bool_decide; [|done]. by destruct (cv_contents _ !! b).
  - intros i b Hi. rewrite !lookup_union. case_decide as Hb.
    + destruct (store_unmapped _ _ _ _ _ Hst Hi Hb) as (? & -> & -> & _). done.
    + rewrite Hout by done. by destruct (σ !! b).
Qed.

Lemma run_store_start q k m σ σ' : store m σ ∅ -> kernel_ready m k -> kernel_sem m k σ = Some σ' ->
  exists m', run (OpenclKernel.start hwloc q k) m = Done tt m' /\ store m' σ' ∅ /\ kept_objects m m'.
Proof.
  intros Hst Hk Hsem. destruct k as [k|k]; cbn [OpenclKernel.start kernel_sem] in *.
  - apply bind_Some in Hsem as (b1 & H1 & (b2 & H2 & Hc)%bind_Some). by apply (run_cl_memcpy _ _ b2 _ _ b1 _ _ (Some q) q m σ σ').
  - injection Hsem as <-. destruct Hk as [Hargs Hb].
    destruct (run_unmap_args q (OpenclKernel._args k) ∅ m σ ∅ Hst) as (U & m1 & E1 & S1 & U1 & K1); [by intros i b|done|]. rewrite union_empty_r_L in E1, U1.
    rewrite (run_bind_Done _ _ _ _ _ E1).
    destruct (store_kernel q (OpenclKernel._kernel k) (OpenclKernel._offset k) (OpenclKernel._global k) (OpenclKernel._local k) m1 σ U S1) as (m2 & E2 & S2 & K2).
    { intros i b Hi. unfold args_of in Hi. rewrite (kept_args _ _ K1) in Hi. destruct (Hb i b Hi) as (j & Hj & Hs). pose proof (kept_slot _ _ _ _ K1 Hs) as Hs'.
      split; [|by exists j]. apply (U1 j b Hs'). by apply elem_of_list_to_set. }
    rewrite (run_bind_Done _ _ _ _ _ E2). assert (K : kept_objects m m2) by (by etrans).
    destruct (run_map_args q (OpenclKernel._args k) _ m2 _ U S2 (unmapped_by_kept _ _ _ _ K2 U1)) as (m3 & E3 & S3 & K3); [by eapply slots_kept|done|].
    exists m3. split; [done|]. unfold args_of in S3 |- *. rewrite (kept_args _ _ K1) in S3. split; [done|by etrans].
Qed.

(** What a sequence of kernels does. *)
Fixpoint kernels_sem m (ks : list OpenclKernel.t) σ : option (gmap nat (list byte)) :=
  match ks with
  | [] => Some σ
  | k :: ks' => σ1 ← kernel_sem m k σ; kernels_sem m ks' σ1
  end.

Lemma kernels_sem_kept m m' ks σ : kept_objects m m' -> kernels_sem m' ks σ = kernels_sem m ks σ.
Proof.
  intros Hk. revert σ. induction ks as [|k ks IH]; intros σ; [done|]. cbn. rewrite (kernel_sem_kept _ _ _ _ Hk).
  destruct (kernel_sem m k σ); [apply IH|done].
Qed.

Lemma run_store_start_all q ks m σ σ' : store m σ ∅ -> Forall (kernel_ready m) ks -> kernels_sem m ks σ = Some σ' ->
  exists m', run (OpenclKernel.start_all hwloc q ks) m = Done tt m' /\ store m' σ' ∅ /\ kept_objects m m'.
Proof.
  unfold OpenclKernel.start_all. revert m σ. induction ks as [|k ks IH]; intros m σ Hst Hks Hsem.
  - injection Hsem as <-. by exists m.
  - apply Forall_cons_1 in Hks as [Hk Hks]. apply bind_Some in Hsem as (σ1 & H1 & H2). destruct (run_store_start q k m σ σ1 Hst Hk H1) as (m1 & E1 & S1 & K1).
    cbn [for_each]. rewrite (run_bind_Done _ _ _ _ _ E1). destruct (IH m1 σ1 S1) as (m2 & E2 & S2 & K2).
    { eapply Forall_impl; [|exact Hks]. intros k'. by apply kernel_ready_kept. }
    { by rewrite (kernels_sem_kept _ _ _ _ K1). }
    exists m2. split_and!; [done..|by etrans].
Qed.

(** ** Making kernels *)

(** The arguments of a kernel, by position. *)
Lemma run_set_args k i args m σ : store m σ ∅ -> Forall (fun a => is_Some (cl_slots (backend m) !! a)) args ->
  exists m', run (OpenclKernel.set_args k i args) m = Done tt m' /\ store m' σ ∅ /\ cl_slots (backend m') = cl_slots (backend m) /\
    forall n, args_of (view m') k !! n = if bool_decide (i <= n < i + length args)%nat then (a ← args !! (n - i)%nat; cl_slots (backend m) !! a) else args_of (view m) k !! n.
Proof.
  revert i m. induction args as [|a args IH]; intros i m Hst Hargs.
  - exists m. split_and!; [done..|]. intros n. by rewrite bool_decide_false by (cbn; lia).
  - apply Forall_cons_1 in Hargs as [[b Hb] Hargs]. cbn [OpenclKernel.set_args]. unfold OpenclKernel.getArgument.
    rewrite run_bind, run_bind, (run_cast_slot _ _ _ Hb). cbn [or_raise run mret prog_mret].
    destruct (set_arg_ok k i b (heap m) (lib m)) as (l1 & E1 & V1). rewrite (run_bind_Done _ _ _ _ _ (run_cl_check _ m _ _ E1)).
    destruct (IH (S i) (cl_after (heap m) l1 m)) as (m2 & E2 & S2 & C2 & A2); [|done|].
    { destruct Hst as [H1 H2 H3]. split; [intros j c Hj|done|cbn; by rewrite V1].
      destruct (H1 j c Hj) as (s & bs & cs & H). exists s, bs, cs. cbn. rewrite V1. exact H. }
    exists m2. split_and!; [done..|]. intros n. rewrite A2. unfold args_of at 1. cbn [Opencl.library cl_after backend set_backend set_library]. cbn. rewrite V1. cbn.
    rewrite lookup_insert_eq. cbn. destruct (decide (n = i)) as [->|Hn].
    + rewrite bool_decide_false, lookup_insert_eq, bool_decide_true, Nat.sub_diag by lia. done.
    + rewrite lookup_insert_ne by done. destruct (decide (S i <= n < S i + length args)%nat) as [Hi|Hi].
      * rewrite !bool_decide_true by lia. by replace (n - i)%nat with (S (n - S i))%nat by lia.
      * rewrite !bool_decide_false by lia. done.
Qed.

Lemma run_make_computation k args o g n m σ : store m σ ∅ -> Forall (fun a => is_Some (cl_slots (backend m) !! a)) args -> args_of (view m) k = ∅ ->
  exists m', run (OpenclKernel.make_computation k args o g n) m = Done (OpenclKernel.mkComputation k args o g n) m' /\ store m' σ ∅ /\
    cl_slots (backend m') = cl_slots (backend m) /\ bound m' (OpenclKernel.mkComputation k args o g n) /\
    forall i, args_of (view m') k !! i = (a ← args !! i; cl_slots (backend m) !! a).
Proof.
  intros Hst Hargs H0. destruct (run_set_args k 0 args m σ Hst Hargs) as (m' & E & S' & C & A). exists m'.
  assert (HA : forall i, args_of (view m') k !! i = (a ← args !! i; cl_slots (backend m) !! a)).
  { intros i. rewrite A, H0, lookup_empty, Nat.sub_0_r. case_bool_decide; [done|]. rewrite (lookup_ge_None_2 args) by lia. done. }
  unfold OpenclKernel.make_computation. split_and!; [by rewrite (run_bind_Done _ _ _ _ _ E)|done|done| |done]. split; cbn; [by rewrite C|].
  intros i b. rewrite HA. intros (a & Ha & Hb)%bind_Some. exists a. rewrite C. split; [by eapply list_elem_of_lookup_2|done].
Qed.

End Kernels.

(** ** Copies between slots *)

(** Copying between two OpenCL slots.  The values of the slots change as a copy between
    their buffers does, every slot of the backend can be read again when the call
    returns, at the address where its buffer is mapped then, and the other slots keep
    their values. *)
Theorem opencl_copy_refines {L : Type} {M : OPENCL L} {Sp : OpenclSpec L} hwloc this dst b2 o2 src b1 o1 n q (m : Machine (Opencl.t L)) σ σ' :
  let slots := Opencl.cl_slots (backend m) in
  store m σ ∅ -> slots !! src = Some b1 -> slots !! dst = Some b2 -> is_size (n + o1) -> is_size (n + o2) -> copy_sem b1 o1 b2 o2 n σ = Some σ' ->
  run (OpenclCommunicationManager.getQueue hwloc this dst) m = Done q m ->
  exists m', run (CommunicationManager.memcpyLL (B := OpenclCommunicationManager.opencl_backend hwloc) this dst o2 src o1 n) m = Done tt m' /\
    store m' σ' ∅ /\ kept_objects m m' /\
    forall i b, slots !! i = Some b -> exists p size bs, slot_at m' i p size /\ σ' !! b = Some bs /\ mem_load (heap m') p size = Some bs.
Proof.
  intros slots Hst H1 H2 N1 N2 Hc Hq. destruct (run_cl_memcpy hwloc this dst b2 o2 src b1 o1 n None q m σ σ' Hst H1 H2 Hc Hq) as (m' & E & S' & K').
  exists m'. split_and!; [|done|done|].
  - destruct (copy_sem_inv _ _ _ _ _ _ _ Hc) as (_ & ? & ? & ? & xs & ys & bs & ys' & Hx & Hy & Hr & Hw & _).
    destruct (store_slots _ _ _ Hst _ _ H1) as (s1 & ? & ? & L1 & V1 & Z1 & _), (store_slots _ _ _ Hst _ _ H2) as (s2 & ? & ? & L2 & V2 & Z2 & _). simplify_eq.
    apply read_at_Some in Hr as [Hn Hle]. unfold write_at in Hw. case_bool_decide; [|done]. unfold CommunicationManager.memcpyLL.
    rewrite (run_checked_copy _ _ _ (LocalMemorySlot._pointer s2) (LocalMemorySlot._size s2) _ _ (LocalMemorySlot._pointer s1) (LocalMemorySlot._size s1));
      [exact E|by exists s2|by exists s1|done|lia|done|lia].
  - intros i b Hi. destruct (store_slots _ _ _ S' i b) as (s & v & cs & Hs & Hv & Hsz & _ & _ & Hm); [by eapply kept_slot|]. rewrite decide_False in Hm by set_solver.
    exists (LocalMemorySlot._pointer s), (LocalMemorySlot._size s), v. split_and!; [by exists s|done|]. rewrite Hsz. apply Hm.
Qed.

(** A copy within one OpenCL slot is refused after the slot has been unmapped once: its
    buffer stays unmapped, so that the pointer of the slot does not lead to its value. *)
Theorem opencl_self_copy_unmaps {L : Type} {M : OPENCL L} {Sp : OpenclSpec L} hwloc this i b o2 o1 n p size q (m : Machine (Opencl.t L)) σ :
  store m σ ∅ -> Opencl.cl_slots (backend m) !! i = Some b -> slot_at m i p size -> is_size (n + o1) -> is_size (n + o2) -> n + o1 <= size -> n + o2 <= size ->
  run (OpenclCommunicationManager.getQueue hwloc this i) m = Done q m ->
  exists m', run (CommunicationManager.memcpyLL (B := OpenclCommunicationManager.opencl_backend hwloc) this i o2 i o1 n) m = Thrown runtime m' /\
    store m' σ {[b]} /\ cv_mapped (cl_look (Opencl.library (backend m'))) !! b = None.
Proof.
  intros Hst Hi Hat N1 N2 Z1 Z2 Hq. unfold CommunicationManager.memcpyLL. rewrite (run_checked_copy _ _ _ _ _ _ _ _ _ _ _ _ Hat Hat) by done.
  cbn [memcpyImplLL OpenclCommunicationManager.opencl_backend]. unfold OpenclCommunicationManager.memcpyImpl, OpenclCommunicationManager.memcpyInternal.
  rewrite !(run_bind_Done _ _ _ _ _ (run_cast_slot _ _ _ Hi)). cbn [Opencl.or_raise]. rewrite !(run_bind_Done _ _ _ _ _ (run_ret _ _)), (run_bind_Done _ _ _ _ _ Hq).
  destruct (run_store_unmap q i b m σ ∅ Hst Hi) as (m1 & E1 & S1 & K1); [set_solver|]. rewrite (run_bind_Done _ _ _ _ _ E1).
  pose proof (kept_slot _ _ _ _ K1 Hi) as Hi1. destruct (store_unmapped _ _ _ _ _ S1 Hi1) as (bs & Hv & Hc & Hm); [set_solver|].
  destruct (store_slots _ _ _ S1 _ _ Hi1) as (s & _ & _ & Hs & _).
  destruct (unmap_invalid q b (LocalMemorySlot._pointer s) (heap m1) (Opencl.library (backend m1))) as (st & l2 & E2 & Hne & V2); [by rewrite Hm|].
  exists (cl_after (heap m1) l2 m1). split.
  - rewrite run_bind. unfold OpenclCommunicationManager.unmap. rewrite (run_bind_Done _ _ _ _ _ (run_getPointer m1 i _ (LocalMemorySlot._size s) ltac:(by exists s))).
    by rewrite (run_cl_check_failed _ m1 st _ _ E2 Hne).
  - split; [|cbn; by rewrite V2]. eapply store_ext; [|by apply store_unseen]. intros j b' _. set_solver.
Qed.
