(* ===== verification/OpenclUnits.v ===== *)
(** * The OpenCL backend: processing units run their kernels

    A processing unit is started with a sequence of kernels, asked whether they are
    complete, and waited for; what the kernels do to the values of slots is
    [kernels_sem]. *)

From S2P Require Import Prelude Memory CommunicationManager HwlocTopology Mpi Tasking Compute Accelerators Opencl OpenclCompute OpenclSpec OpenclKernels.
From Stdlib Require Import ZArith Lia.
From Stdlib.Strings Require Import Byte.
From stdpp Require Import base list gmap option.

Local Open Scope Z_scope.
Local Open Scope hicr_scope.

Section Units.
Context {L : Type} {M : OPENCL L} {Sp : OpenclSpec L} (hwloc : gmap nat HwlocMemorySpace.t).
Implicit Types (m : Machine (Opencl.t L)) (σ : gmap nat (list byte)).
Import Opencl OpenclExecutionState OpenclProcessingUnit.

Abbreviation lib m := (Opencl.library (backend m)) (only parsing).
Abbreviation pu := (ProcessingUnit.t unit_t) (only parsing).

(** ** Execution states *)

(** The kernels have been put into the queue, and an event behind them. *)
Definition enqueued (x : OpenclExecutionState.t) : Prop := is_Some (_syncEvent x).

(** What an operation does when it leaves the values alone. *)
Definition leaves {A : Type} (p : prog (Machine (Opencl.t L) * OpenclExecutionState.t) A) : Prop :=
  forall m x σ, store m σ ∅ -> enqueued x -> exists a m' x', run p (m, x) = Done a (m', x') /\ store m' σ ∅ /\ kept_objects m m' /\ enqueued x'.

Lemma run_cl_resumeImpl q ks m σ σ' ev b : store m σ ∅ -> Forall (kernel_ready m) ks -> kernels_sem m ks σ = Some σ' ->
  exists m' x', run (resumeImpl hwloc) (m, OpenclExecutionState.mk ks ev (Some q) b) = Done tt (m', x') /\ store m' σ' ∅ /\ kept_objects m m' /\
    enqueued x' /\ _isStreamActive x' = true.
Proof.
  intros Hst Hks Hsem. unfold resumeImpl. rewrite !(run_bind_Done _ _ _ _ _ (run_set_this _ _ _)). cbn [set_event set_active _executionUnit _syncEvent _queue _isStreamActive].
  erewrite run_bind_Done; [|by apply (run_fetch (fun st => _queue st.2))]. rewrite (run_bind_Done _ _ _ _ _ (run_this _ _ _)). cbn [_executionUnit].
  destruct (run_store_start_all hwloc q ks m σ σ' Hst Hks Hsem) as (m1 & E1 & S1 & K1). rewrite (run_bind_Done _ _ _ _ _ (run_on_fst_Done _ _ _ _ _ E1)).
  destruct (marker_ok q (heap m1) (lib m1)) as (e & l2 & E2 & V2). rewrite (run_bind_Done _ _ _ _ _ (run_on_fst_Done _ _ _ _ _ (run_cl_check_value _ m1 _ _ _ E2))).
  destruct (store_unseen _ _ _ _ S1 V2) as [S2 K2]. eexists _, _. split_and!; [apply run_set_this|exact S2|by etrans|by eexists|done].
Qed.

Lemma finalizeStream_leaves : leaves finalizeStream.
Proof.
  intros m x σ Hst [e He]. unfold finalizeStream. rewrite (run_bind_Done _ _ _ _ _ (run_this _ _ _)). destruct (_isStreamActive x).
  - rewrite (run_bind_Done _ _ _ _ _ (run_this _ _ _)), He. destruct (wait_ok e (heap m) (lib m)) as (l1 & E1 & V1).
    rewrite (run_bind_Done _ _ _ _ _ (run_on_fst_Done _ _ _ _ _ (run_cl_check _ m _ _ E1))). destruct (store_unseen _ _ _ _ Hst V1) as [S1 K1].
    eexists _, _, _. split_and!; [apply run_set_this|done|done|by exists e].
  - exists tt, m, x. split_and!; [done..|by exists e].
Qed.

Lemma checkFinalizationImpl_leaves : leaves checkFinalizationImpl.
Proof.
  intros m x σ Hst [e He]. unfold checkFinalizationImpl. erewrite run_bind_Done; [|by apply (run_fetch (fun st => _syncEvent st.2))].
  destruct (status_ok e (heap m) (lib m)) as (st & l1 & E1 & V1). destruct (store_unseen _ _ _ _ Hst V1) as [S1 K1].
  assert (E : run (on_fst (call (cl_event_status e))) (m, x) = Done st (cl_after (heap m) l1 m, x)) by (apply run_on_fst_Done; by rewrite run_cl_call, E1).
  rewrite (run_bind_Done _ _ _ _ _ E). case_match; [exists false, (cl_after (heap m) l1 m), x; split_and!; [done..|by exists e]|].
  destruct (finalizeStream_leaves _ x σ S1) as ([] & m2 & x2 & E2 & S2 & K2 & Hx); [by exists e|]. rewrite (run_bind_Done _ _ _ _ _ E2).
  exists true, m2, x2. split_and!; [done..|by etrans|done].
Qed.

(** ** Processing units *)

Lemma run_cl_on_state {A : Type} (p : prog (Machine (Opencl.t L) * ExecutionState.t OpenclExecutionState.t) A) m (u : ProcessingUnit.t unit_t) e :
  _executionState (ProcessingUnit.impl u) = Some e ->
  run (on_state p) (m, u) =
  let put := fun me : Machine (Opencl.t L) * ExecutionState.t OpenclExecutionState.t => (me.1, ProcessingUnit.set_impl (set_executionState (Some me.2)) u) in
  match run p (m, e) with
  | Done a s => Done a (put s)
  | Thrown x s => Thrown x (put s)
  | Crashed c s => Crashed c (put s)
  | Blocked s => Blocked (put s)
  end.
Proof.
  intros He. unfold on_state. erewrite run_zoom; [reflexivity|cbn; by rewrite He| |by intros [] [? []] _|by intros [] [] [? []]].
  destruct u as [st r []]. cbn in *. by rewrite He.
Qed.

Definition cl_owning (u : ProcessingUnit.t unit_t) : Prop := exists e, _executionState (ProcessingUnit.impl u) = Some e /\ enqueued (ExecutionState.impl e).

(** The client asks at most [n] times whether the kernels are complete. *)
Fixpoint cl_poll (n : nat) : prog (Machine (Opencl.t L) * ProcessingUnit.t unit_t) bool :=
  match n with
  | O => mret false
  | S n' =>
      b ← on_state (StateOps.checkFinalization checkFinalizationImpl);
      if b : bool then mret true else cl_poll n'
  end.

Lemma run_cl_poll n m (u : ProcessingUnit.t unit_t) σ : store m σ ∅ -> cl_owning u ->
  exists b m' u', run (cl_poll n) (m, u) = Done b (m', u') /\ store m' σ ∅ /\ kept_objects m m' /\ ProcessingUnit._state u' = ProcessingUnit._state u /\ cl_owning u'.
Proof.
  revert m u. induction n as [|n IH]; intros m u Hst (x & Hx & He); [exists false, m, u; split_and!; try done; by exists x|].
  destruct (checkFinalizationImpl_leaves m _ σ Hst He) as (b & m1 & x1 & E1 & S1 & K1 & He1). cbn [cl_poll].
  assert (E : exists x', run (on_state (StateOps.checkFinalization checkFinalizationImpl)) (m, u) = Done b (m1, ProcessingUnit.set_impl (set_executionState (Some x')) u) /\ ExecutionState.impl x' = x1).
  { rewrite (run_cl_on_state _ _ _ _ Hx). unfold StateOps.checkFinalization. rewrite run_bind, run_on_impl, E1. cbn zeta. destruct b; by eexists. }
  destruct E as (x' & E & <-). rewrite (run_bind_Done _ _ _ _ _ E). destruct b.
  - eexists true, m1, _. split_and!; [done..|]. by exists x'.
  - destruct (IH m1 (ProcessingUnit.set_impl (set_executionState (Some x')) u) S1) as (b & m2 & u2 & E2 & S2 & K2 & U2 & H2); [by exists x'|].
    exists b, m2, u2. split_and!; [done|done|by etrans|done|done].
Qed.

Lemma run_cl_unit_start ks m (u : ProcessingUnit.t unit_t) σ σ' :
  ProcessingUnit._state u = ProcessingUnit.ready -> store m σ ∅ -> Forall (kernel_ready m) ks -> kernels_sem m ks σ = Some σ' ->
  exists m' u', run (ComputeManager.start (B := opencl_compute hwloc) _ (Some (ExecutionState.make (OpenclExecutionState.mk ks None None false)))) (m, u) = Done tt (m', u') /\
    store m' σ' ∅ /\ kept_objects m m' /\ ProcessingUnit._state u' = ProcessingUnit.running /\ cl_owning u'.
Proof.
  intros Hs Hst Hks Hsem. unfold ComputeManager.start. rewrite (run_bind_Done _ _ _ _ _ (run_this _ _ _)).
  unfold ProcessingUnit.getState. rewrite Hs. rewrite (run_bind_Done _ _ _ _ _ (run_throw_if_false _ _ _ eq_refl)), (run_bind_Done _ _ _ _ _ (run_set_this _ _ _)).
  cbn [startImpl opencl_compute]. unfold OpenclProcessingUnit.start. rewrite (run_bind_Done _ _ _ _ _ (run_set_this _ _ _)), (run_bind_Done _ _ _ _ _ (run_this _ _ _)).
  set (q := _unitQueue _). erewrite run_bind_Done; [|erewrite run_cl_on_state; [reflexivity|reflexivity]]. erewrite run_cl_on_state; [|reflexivity].
  match goal with |- context [StateOps.resume ?p] => change (run (StateOps.resume p) _) with (run (StateOps.resume p) (m, ExecutionState.mk ExecutionState.initialized (OpenclExecutionState.mk ks None (Some q) false))) end.
  unfold StateOps.resume. rewrite (run_bind_Done _ _ _ _ _ (run_this _ _ _)). cbn [ExecutionState._state]. rewrite (run_bind_Done _ _ _ _ _ (run_throw_if_false _ _ _ eq_refl)), (run_bind_Done _ _ _ _ _ (run_set_this _ _ _)).
  destruct (run_cl_resumeImpl q ks m σ σ' None false Hst Hks Hsem) as (m1 & x1 & E1 & S1 & K1 & He & _).
  rewrite run_on_impl. cbn [ExecutionState.impl ExecutionState.set_state]. rewrite E1. cbn zeta.
  eexists m1, _. split_and!; [reflexivity|done|done|done|]. eexists. split; [reflexivity|]. done.
Qed.

Lemma run_cl_unit_await m (u : ProcessingUnit.t unit_t) σ : ProcessingUnit._state u = ProcessingUnit.running -> store m σ ∅ -> cl_owning u ->
  exists m' u', run (ComputeManager.await (B := opencl_compute hwloc) (option (ExecutionState.t OpenclExecutionState.t))) (m, u) = Done tt (m', u') /\
    store m' σ ∅ /\ kept_objects m m' /\ ProcessingUnit._state u' = ProcessingUnit.terminated.
Proof.
  intros Hs Hst (x & Hx & He). unfold ComputeManager.await. rewrite (run_bind_Done _ _ _ _ _ (run_this _ _ _)). unfold ProcessingUnit.getState. rewrite Hs.
  rewrite bool_decide_false by tauto. cbn [awaitImpl opencl_compute]. unfold OpenclProcessingUnit.await.
  destruct (finalizeStream_leaves m _ σ Hst He) as ([] & m1 & x1 & E1 & S1 & K1 & _).
  erewrite run_bind_Done; [|rewrite (run_cl_on_state _ _ _ _ Hx), run_on_impl, E1; reflexivity].
  eexists m1, _. split_and!; [apply run_set_this|done|done|done].
Qed.

End Units.

(** C22: a processing unit of an OpenCL device, started with a sequence of kernels, asked any
    number of times whether they are complete and waited for.  The values of the slots
    are in the end those that the kernels make one after the other, whatever arguments
    the kernels share, and all slots are mapped again. *)
Theorem opencl_unit_runs_kernels {L : Type} {M : OPENCL L} {Sp : OpenclSpec L} hwloc ks n (m : Machine (Opencl.t L)) (u : ProcessingUnit.t OpenclProcessingUnit.unit_t) σ σ' :
  ProcessingUnit._state u = ProcessingUnit.ready -> store m σ ∅ -> Forall (kernel_ready m) ks -> kernels_sem m ks σ = Some σ' ->
  exists b m' u', run (_ ← ComputeManager.start (B := OpenclProcessingUnit.opencl_compute hwloc) _ (Some (ExecutionState.make (OpenclExecutionState.mk ks None None false)));
                       b ← cl_poll n;
                       _ ← ComputeManager.await (B := OpenclProcessingUnit.opencl_compute hwloc) (option (ExecutionState.t OpenclExecutionState.t));
                       mret b) (m, u) = Done b (m', u') /\
    store m' σ' ∅ /\ kept_objects m m' /\ ProcessingUnit._state u' = ProcessingUnit.terminated.
Proof.
  intros Hs Hst Hks Hsem. destruct (run_cl_unit_start hwloc ks m u σ σ' Hs Hst Hks Hsem) as (m1 & u1 & E1 & S1 & K1 & U1 & O1).
  rewrite (run_bind_Done _ _ _ _ _ E1). destruct (run_cl_poll n m1 u1 σ' S1 O1) as (b & m2 & u2 & E2 & S2 & K2 & U2 & O2).
  rewrite (run_bind_Done _ _ _ _ _ E2). destruct (run_cl_unit_await hwloc m2 u2 σ' (eq_trans U2 U1) S2 O2) as (m3 & u3 & E3 & S3 & K3 & U3).
  rewrite (run_bind_Done _ _ _ _ _ E3). exists b, m3, u3. split_and!; [done|done| |done]. etrans; [exact K1|by etrans].
Qed.
