(* ===== verification/OpenclMemory.v ===== *)
(** * The OpenCL backend: memory slots

    A new slot has a buffer of its own, mapped apart from those of the other slots;
    freeing it unmaps the buffer. *)

From S2P Require Import Prelude Memory CommunicationManager HwlocTopology MemoryManager Mpi Accelerators Opencl OpenclCompute OpenclSpec OpenclKernels.
From Stdlib Require Import ZArith Lia.
From Stdlib.Strings Require Import Byte.
From stdpp Require Import base list gmap option.

Local Open Scope Z_scope.
Local Open Scope hicr_scope.

Section Slots.
Context {L : Type} {M : OPENCL L} {Sp : OpenclSpec L} (hwloc : gmap nat HwlocMemorySpace.t).
Implicit Types (m : Machine (Opencl.t L)) (l : L) (σ : gmap nat (list byte)).
Import Opencl OpenclMemoryManager.

Abbreviation lib m := (Opencl.library (backend m)) (only parsing).
Abbreviation view m := (cl_look (Opencl.library (backend m))) (only parsing).
Abbreviation allocate r n := (MemoryManager.allocateLocalMemorySlot (B := opencl_memory hwloc) r n) (only parsing).
Abbreviation release i := (MemoryManager.freeLocalMemorySlot (B := opencl_memory hwloc) i) (only parsing).

(** A manager has a queue for the device of a memory space. *)
Definition queue_for (queues : list (Z * nat)) (id q : nat) m : Prop :=
  exists sp d x k, cl_spaces (backend m) !! id = Some sp /\ OpenclMemorySpace._device sp = Some d /\ cl_devices (backend m) !! d = Some x /\
    find (fun kq => bool_decide (kq.1 = OpenclDevice._id x)) queues = Some (k, q).

Lemma run_space_queue queues id q m : queue_for queues id q m -> run (space_queue queues (other_space id)) m = Done q m.
Proof.
  intros (sp & d & x & k & Hsp & Hd & Hx & Hf). unfold space_queue. rewrite run_bind, run_gets, Hsp.
  erewrite run_bind_Done; [|apply run_fetch; unfold OpenclMemorySpace.getDevice; rewrite Hd; exact Hx]. unfold OpenclDevice.getId. by rewrite Hf.
Qed.

(** The state with a new slot. *)
Definition with_cl_slot (p : ptr) (n : Z) (b id : nat) m : Machine (Opencl.t L) :=
  let i := fresh (dom (locals m)) in
  set_backend (set_slots (<[i := b]> (cl_slots (backend m))) (backend m)) (set_locals (<[i := LocalMemorySlot.make p n (Some id)]> (locals m)) m).

Lemma store_with_slot p b bs id h l m σ :
  store m σ ∅ -> cv_contents (view m) !! b = None -> mem_load h p (Z.of_nat (length bs)) = Some bs -> outside_kept p (Z.of_nat (length bs)) (heap m) h ->
  cl_look l = mkClView (<[b := bs]> (cv_contents (view m))) (<[b := p]> (cv_mapped (view m))) (cv_args (view m)) -> disjoint_maps (cl_look l) ->
  store (with_cl_slot p (Z.of_nat (length bs)) b id (cl_after h l m)) (<[b := bs]> σ) ∅.
Proof.
  intros [Hs Hi Hd] Hc Hl Hk V Hd'. set (i := fresh (dom (locals m))).
  assert (Hnew : forall j b', cl_slots (backend m) !! j = Some b' -> j <> i /\ b' <> b).
  { intros j b' Hj. destruct (Hs j b' Hj) as (s & v & cs & Hlo & _ & _ & Hcs & _). split; [|congruence].
    intros ->. apply elem_of_dom_2 in Hlo. by apply is_fresh in Hlo. }
  split; [| |exact Hd'].
  - intros j b' Hj. change (<[i := b]> (cl_slots (backend m)) !! j = Some b') in Hj. rewrite lookup_insert in Hj. case_decide as Hij.
    + injection Hj as <-. subst j. eexists _, bs, bs. cbn. rewrite V. cbn. fold i. rewrite !lookup_insert_eq, decide_False by set_solver. by split_and!.
    + destruct (Hs j b' Hj) as (s & v & cs & Hlo & Hv & Hsz & Hcs & Hlen & Hm). rewrite decide_False in Hm by set_solver. destruct Hm as [Hm Hld].
      destruct (Hnew j b' Hj) as [_ Hb]. exists s, v, cs. cbn. rewrite V. cbn. fold i. rewrite !lookup_insert_ne, decide_False by (done || set_solver).
      split_and!; try done. apply Hk; [|done]. rewrite V in Hd'. rewrite <- Hlen. apply (Hd' b b' p _ bs cs); cbn; rewrite ?lookup_insert_eq, ?lookup_insert_ne by done; done.
  - intros j k b' Hj Hk'. change (<[i := b]> (cl_slots (backend m)) !! j = Some b') in Hj. change (<[i := b]> (cl_slots (backend m)) !! k = Some b') in Hk'.
    apply lookup_insert_Some in Hj as [[<- <-]|[_ Hj]], Hk' as [[<- ?]|[_ Hk']]; [done|by destruct (Hnew _ _ Hk')|subst; by destruct (Hnew _ _ Hj)|by apply (Hi j k b')].
Qed.

(** Making a slot, for a buffer that the library allocates. *)
Lemma run_make_slot fl r n queues q m σ :
  store m σ ∅ -> run (space_queue queues r) m = Done q m -> (forall p, fl <> USE_HOST_PTR p) -> 0 <= n ->
  (exists m', run (make_slot fl r n) (m, queues) = Thrown runtime (m', queues) /\ store m' σ ∅ /\ locals m' = locals m) \/
  (exists b p bs h l, Z.of_nat (length bs) = n /\ cv_contents (view m) !! b = None /\
    run (make_slot fl r n) (m, queues) = Done (fresh (dom (locals m))) (with_cl_slot p n b (space_id r) (cl_after h l m), queues) /\
    store (with_cl_slot p n b (space_id r) (cl_after h l m)) (<[b := bs]> σ) ∅).
Proof.
  intros Hst Hq Hfl Hn. unfold make_slot, OpenclMemoryManager.getQueue. rewrite run_bind, (run_bind_Done _ _ _ _ _ (run_this _ _ _)), (run_on_fst_Done _ _ _ _ _ Hq).
  destruct (buffer_ok q fl n (heap m) (lib m) Hfl Hn) as ([st b] & l1 & E1 & [[Hf V1]|[Hs (bs & Hlen & Hc & Hm & V1)]]); cbn [fst snd] in *.
  { left. rewrite run_bind, run_on_fst, (run_cl_check_value_failed _ m _ _ _ E1 Hf). eexists. split; [reflexivity|]. split; [by apply store_unseen|done]. }
  right. subst st n. rewrite (run_bind_Done _ _ _ _ _ (run_on_fst_Done _ _ _ _ _ (run_cl_check_value _ m _ _ _ E1))). set (m1 := cl_after (heap m) l1 m).
  destruct (map_ok q b bs (heap m) l1) as (p & h2 & l2 & E2 & Hp & Hl & Hk & V2 & Hd2); [rewrite V1; apply lookup_insert_eq|by rewrite V1| |].
  { rewrite V1. intros b1 b2 p1 p2 c1 c2 Hne H1 H2 C1 C2. cbn in *. rewrite lookup_insert_ne in C1, C2 by congruence. by apply (store_disjoint _ _ _ Hst b1 b2). }
  rewrite (run_bind_Done _ _ _ _ _ (run_on_fst_Done _ _ _ _ _ (run_cl_check_value _ m1 _ _ _ E2))). rewrite bool_decide_false by done.
  exists b, p, bs, h2, l2. rewrite V1 in V2. cbn in V2. split_and!; [done|done|reflexivity|]. by apply store_with_slot.
Qed.

(** Freeing unmaps the buffer of the slot. *)
Lemma run_cl_free i b id queues q m σ :
  store m σ ∅ -> cl_slots (backend m) !! i = Some b -> (exists s, locals m !! i = Some s /\ LocalMemorySlot._memorySpace s = Some id) -> hwloc !! id = None ->
  queue_for queues id q m ->
  exists m', run (release i) (m, queues) = Done tt (m', queues) /\ store m' σ {[b]} /\ kept_objects m m'.
Proof.
  intros Hst Hi (s & Hs & Hid) Hh Hq%run_space_queue. unfold MemoryManager.freeLocalMemorySlot. cbn [MemoryManager.freeLocalMemorySlotImpl opencl_memory]. unfold freeLocalMemorySlotImpl.
  rewrite (run_bind_Done _ _ _ _ _ (run_on_fst_Done _ _ _ _ _ (run_cast_slot _ _ _ Hi))). cbn [or_raise]. rewrite (run_bind_Done _ _ _ _ _ (run_on_fst_Done _ _ _ _ _ (run_ret b m))).
  assert (E : run (space_of_slot hwloc i) m = Done (other_space id) m).
  { unfold space_of_slot. by rewrite (run_bind_Done _ _ _ _ _ (run_local_slot _ _ _ Hs)), Hid, Hh. }
  rewrite (run_bind_Done _ _ _ _ _ (run_on_fst_Done _ _ _ _ _ E)). unfold OpenclMemoryManager.getQueue.
  rewrite run_bind, (run_bind_Done _ _ _ _ _ (run_this _ _ _)), (run_on_fst_Done _ _ _ _ _ Hq).
  destruct (run_store_unmap q i b m σ ∅ Hst Hi) as (m' & E' & S' & K'); [set_solver|]. exists m'. split_and!; [| |done].
  - unfold OpenclCommunicationManager.unmap in E'. apply run_bind_inv in E' as (p & m1 & Ep & Eu).
    rewrite (run_bind_Done _ _ _ _ _ (run_on_fst_Done _ _ _ _ _ Ep)). by apply run_on_fst_Done.
  - eapply store_ext; [|exact S']. intros j b' _. set_solver.
Qed.

(** C36: memory for a slot of an OpenCL device.  When the library has a buffer for it, the new
    slot has the given size and a buffer of its own, whose content it gives access to, and
    the other slots keep their values, also when it is freed, which unmaps its buffer;
    otherwise a runtime error is thrown and no slot is made. *)
Theorem opencl_allocate_free id n queues q m σ :
  store m σ ∅ -> queue_for queues id q m -> hwloc !! id = None -> 0 <= n ->
  (exists m', run (allocate (other_space id) n) (m, queues) = Thrown runtime (m', queues) /\ store m' σ ∅ /\ locals m' = locals m) \/
  (exists i b bs m1 m2, run (allocate (other_space id) n) (m, queues) = Done i (m1, queues) /\ locals m !! i = None /\ Z.of_nat (length bs) = n /\
    cl_slots (backend m1) = <[i := b]> (cl_slots (backend m)) /\ (forall j, cl_slots (backend m) !! j <> Some b) /\ store m1 (<[b := bs]> σ) ∅ /\
    run (release i) (m1, queues) = Done tt (m2, queues) /\ store m2 (<[b := bs]> σ) {[b]}).
Proof.
  intros Hst Hq Hh Hn. pose proof Hq as (sp & _ & _ & _ & Hsp & _). unfold MemoryManager.allocateLocalMemorySlot. cbn [MemoryManager.allocateLocalMemorySlotImpl opencl_memory]. unfold allocateLocalMemorySlotImpl.
  rewrite !(run_bind_Done _ _ _ _ _ (run_on_fst_Done _ m m queues _ (run_gets _ m))), Hsp. unfold allocateLocalHostMemorySlot.
  destruct (run_make_slot ALLOC_HOST_PTR (other_space id) n queues q m σ Hst) as [(m' & E & H)|(b & p & bs & h & l & Hlen & Hb & E & S1)]; [by apply run_space_queue|done|done|left; by exists m'|].
  right. set (i := fresh (dom (locals m))) in *. match type of S1 with store ?x _ _ => set (m1 := x) in * end.
  destruct (run_cl_free i b id queues q m1 _ S1) as (m2 & E2 & S2 & _); [apply lookup_insert_eq| |done|exact Hq|].
  { eexists. split; [apply lookup_insert_eq|done]. }
  exists i, b, bs, m1, m2. split_and!; [done|apply not_elem_of_dom, is_fresh|done|done| |done|done|done].
  intros j Hj. destruct (store_slots _ _ _ Hst j b Hj) as (? & ? & ? & _ & _ & _ & Hc & _). congruence.
Qed.

End Slots.
