(* ===== verification/OpenclTopology.v ===== *)
(** * The OpenCL backend: theorems on topologies

    [queryTopology] finds the devices of all platforms, every one with the identifier
    zero and without a type of the base class: their topology is lost when it is
    serialized and read again.  No serialized device is ever read by this backend. *)

From S2P Require Import Prelude Json Topology TopologySpec Memory Mpi HwlocTopology Accelerators Opencl OpenclSpec.
From Stdlib Require Import ZArith Lia String.
From stdpp Require Import base list gmap option strings.

Local Open Scope string_scope.
Local Open Scope Z_scope.
Local Open Scope list_scope.
Local Open Scope hicr_scope.

(** ** What the library tells about its devices *)

Class OpenclDevices (L : Type) {M : OPENCL L} : Type := {
  platform_list : list nat;
  devices_of : nat -> list nat;
  type_of : nat -> cl_device_type;
  memory_of : nat -> Z;
  platforms_ok : forall h l, exists l', run cl_platforms (h, l) = Done platform_list (h, l');
  devices_ok : forall p h l, exists l', run (cl_platform_devices p) (h, l) = Done (devices_of p) (h, l');
  type_ok : forall d h l, exists l', run (cl_device_info_type d) (h, l) = Done (type_of d) (h, l');
  size_ok : forall d h l, exists l', run (cl_device_info_size d) (h, l) = Done (memory_of d) (h, l')
}.

Section Query.
Context {L : Type} {M : OPENCL L} {D : OpenclDevices L}.
Implicit Types (m : Machine (Opencl.t L)) (l : L).
Import Opencl OpenclTopologyManager.

Abbreviation lib m := (Opencl.library (backend m)) (only parsing).

(** ** Discovery *)

(** Everything but the devices and memory spaces stays. *)
Record cl_discovering (m m' : Machine (Opencl.t L)) : Prop := mkClDiscovering {
  cd_heap : heap m' = heap m;
  cd_locals : locals m' = locals m;
  cd_slots : cl_slots (backend m') = cl_slots (backend m);
  cd_devices : cl_devices (backend m) ⊆ cl_devices (backend m');
  cd_spaces : cl_spaces (backend m) ⊆ cl_spaces (backend m')
}.

#[local] Instance cl_discovering_preorder : PreOrder cl_discovering.
Proof. split; [done|]. intros x y z [] []. split; try congruence; by etrans. Qed.

Definition cl_device (type : string) (x d : nat) : OpenclDevice.t :=
  OpenclDevice.mk "" type 0 x [OpenclComputeResource.make d] [OpenclMemorySpace.make d (memory_of x)].

(** The device [x] of the library and the object made for it. *)
Definition cl_found m (x d : nat) : Prop :=
  exists type, device_type_name (type_of x) = Some type /\ cl_devices (backend m) !! d = Some (cl_device type x d).

Lemma cl_found_later m m' x d : cl_discovering m m' -> cl_found m x d -> cl_found m' x d.
Proof. intros H (t & Ht & Hd). exists t. split; [done|]. eapply lookup_weaken; [exact Hd|apply H]. Qed.

Lemma discovering_after l m : cl_discovering m (cl_after (heap m) l m).
Proof. by split. Qed.

Lemma run_cl_query_device x m : is_Some (device_type_name (type_of x)) ->
  exists d m', run (query_device 0 x) m = Done d m' /\ cl_found m' x d /\ cl_discovering m m'.
Proof.
  intros [t Ht]. unfold query_device.
  destruct (type_ok x (heap m) (lib m)) as (l1 & E1). rewrite run_bind, run_cl_call, E1. cbn [fst snd].
  destruct (size_ok x (heap m) l1) as (l2 & E2). rewrite run_bind, run_cl_call. cbn [cl_after heap backend set_backend set_library library set_heap]. rewrite E2. cbn [fst snd].
  rewrite Ht. cbn [or_raise]. rewrite (run_bind_Done _ _ _ _ _ (run_ret _ _)). set (d := fresh (dom (cl_devices (backend m)))).
  assert (Hd : cl_devices (backend m) !! d = None) by apply not_elem_of_dom, is_fresh.
  erewrite run_bind_Done; [|reflexivity]. cbn zeta. rewrite run_bind, run_modify.
  do 2 (erewrite run_bind_Done; [|by apply run_update; cbn; rewrite lookup_insert_eq; cbn; rewrite insert_insert_eq]).
  eexists d, _. split_and!; [reflexivity| |split; try done; cbn].
  - exists t. split; [done|]. cbn. rewrite lookup_insert_eq. done.
  - by apply insert_subseteq.
  - apply insert_subseteq, not_elem_of_dom, is_fresh.
Qed.

Lemma run_query_platform p m : Forall (fun x => is_Some (device_type_name (type_of x))) (devices_of p) ->
  exists ds m', run (query_platform p) m = Done ds m' /\ Forall2 (cl_found m') (devices_of p) ds /\ cl_discovering m m'.
Proof.
  intros Ht. unfold query_platform. destruct (devices_ok p (heap m) (lib m)) as (l1 & E1). rewrite run_bind, run_cl_call, E1. cbn [fst snd].
  destruct (run_map_each_rel cl_discovering cl_found cl_found_later (query_device 0) (devices_of p) (cl_after (heap m) l1 m)) as (ds & m' & E & F & Hd).
  { eapply Forall_impl; [exact Ht|]. intros x Hx m0. by apply run_cl_query_device. }
  exists ds, m'. split_and!; [done|done|]. etrans; [apply discovering_after|exact Hd].
Qed.

Lemma run_cl_queryTopology m : platform_list <> [] -> Forall (fun x => is_Some (device_type_name (type_of x))) (concat (map devices_of platform_list)) ->
  exists ds m', run queryTopology m = Done ds m' /\ Forall2 (cl_found m') (concat (map devices_of platform_list)) ds /\ cl_discovering m m'.
Proof.
  intros Hp Ht. unfold queryTopology. destruct (platforms_ok (heap m) (lib m)) as (l1 & E1). rewrite run_bind, run_cl_call, E1. cbn [fst snd].
  rewrite bool_decide_false by done. rewrite (run_bind_Done _ _ _ _ _ (run_throw_if_false _ _ _ eq_refl)).
  destruct (run_map_each_rel cl_discovering (fun m p ds => Forall2 (cl_found m) (devices_of p) ds)
    ltac:(intros m0 m1 p ds Hd HF; eapply Forall2_impl; [exact HF|]; intros; by eapply cl_found_later) query_platform platform_list (cl_after (heap m) l1 m)) as (dss & m' & E & F & Hd).
  { rewrite Forall_concat, Forall_map in Ht. eapply Forall_impl; [exact Ht|]. intros p Hx m0. by apply run_query_platform. }
  rewrite (run_bind_Done _ _ _ _ _ E). exists (concat dss), m'. split_and!; [done| |etrans; [apply discovering_after|exact Hd]].
  clear -F. induction F as [|p ds ps dss H _ IH]; [done|]. cbn. by apply Forall2_app.
Qed.

(** The errors of [queryTopology]. *)
Lemma query_no_platform m : platform_list = [] -> exists m', run queryTopology m = Thrown runtime m'.
Proof.
  intros Hp. unfold queryTopology. destruct (platforms_ok (heap m) (lib m)) as (l1 & E1). rewrite run_bind, run_cl_call, E1, Hp. by eexists.
Qed.

(** ** The topology that is found *)

(** The devices of the library as they are seen in the topology. *)
Definition cl_device_of (x d : nat) : Device.t := OpenclDevice.base (cl_device (default "" (device_type_name (type_of x))) x d).

Lemma cl_topology_of_found m xs ds : Forall2 (cl_found m) xs ds -> topology_of ds m = Topology.mk Json.null (zip_with cl_device_of xs ds).
Proof.
  intros HF. unfold topology_of. f_equal. induction HF as [|x d xs ds (t & Ht & Hd) _ IH]; [done|]. cbn [omap list_omap]. rewrite Hd.
  cbn [map zip_with]. unfold cl_device_of at 1. by rewrite Ht, IH.
Qed.

Lemma cl_device_adds d : device_adds (OpenclDevice.base d).
Proof.
  split; cbn.
  - intros j Hj. unfold OpenclDevice.serializeImpl. destruct (adds_assign "Device Identifier" (Json.number_unsigned (OpenclDevice._id d)) ltac:(done) j Hj) as (j1 & E1 & K1 & T1).
    destruct (adds_assign "Device Type" (Json.string_ (OpenclDevice._openclType d)) ltac:(done) j1 K1) as (j2 & E2 & K2 & T2).
    exists j2. rewrite E1. cbn. rewrite E2. split_and!; [done|done|congruence].
  - apply Forall_fmap, Forall_forall. intros r _. by apply adds_assign.
  - apply Forall_fmap, Forall_forall. intros r _. by apply adds_assign.
Qed.

(** [queryTopology] finds every device of every platform: each has the identifier zero,
    one compute resource and one memory space with the memory that the library tells
    for it.  The topology that it returns is serialized without error, but its devices
    have no type, and the topology manager that reads the result finds no device. *)
Theorem opencl_topology_lost {S : Type} m (s : S) :
  platform_list <> [] -> Forall (fun x => is_Some (device_type_name (type_of x))) (concat (map devices_of platform_list)) ->
  exists ds m' j, run queryTopology m = Done ds m' /\ cl_discovering m m' /\
    topology_of ds m' = Topology.mk Json.null (zip_with cl_device_of (concat (map devices_of platform_list)) ds) /\
    length ds = length (concat (map devices_of platform_list)) /\
    Topology.serialize (topology_of ds m') = Some j /\ run (deserializeTopology j) s = Done Topology.empty s.
Proof.
  intros Hp Ht. destruct (run_cl_queryTopology m Hp Ht) as (ds & m' & E & F & Hd). pose proof (cl_topology_of_found _ _ _ F) as Et. apply Forall2_length in F.
  destruct (run_read_topology recognized OpenclDevice.make_from (fun _ => None) (zip_with cl_device_of (concat (map devices_of platform_list)) ds) Json.null s) as (j & Ej & Er).
  - apply Forall_forall. intros y Hy. apply elem_of_lookup_zip_with in Hy as (k & x & d & -> & _). split; [apply cl_device_adds|done].
  - exists ds, m', j. rewrite Et. split_and!; [done..|]. unfold deserializeTopology. rewrite Er. unfold Topology.empty. do 2 f_equal.
    generalize (zip_with cl_device_of (concat (map devices_of platform_list)) ds). intros l. induction l as [|y l IH]; [done|]. by cbn.
Qed.

End Query.

(** ** Reading serialized devices *)

(** The type of a device is required to be a number and then read as a string. *)
Lemma never_read input d s : run (OpenclDevice.deserializeImpl input) d <> Done tt s.
Proof.
  unfold OpenclDevice.deserializeImpl. rewrite run_bind, run_require. destruct (Json.find input "Device Identifier") as [idv|]; [|done].
  destruct (Json.is_number idv); [|done]. rewrite run_bind, run_require. destruct (Json.find input "Device Type") as [tv|]; [|done].
  destruct (Json.is_number tv) eqn:Hn; [|done]. intros (id & s1 & _ & (ty & s2 & Ht & _)%run_bind_inv)%run_bind_inv. by destruct tv.
Qed.

Lemma make_never_read {S : Type} input (s : S) d s' : run (OpenclDevice.make_from input) s <> Done d s'.
Proof.
  unfold OpenclDevice.make_from. rewrite run_construct. destruct (run (Device.deserialize_with _ _) _) as [[] x| | |] eqn:E; [|done..]. intros _. revert E. unfold Device.deserialize_with.
  intros (ty & s1 & _ & (u & s2 & _ & (u2 & s3 & _ & (u3 & s4 & _ & ([] & s5 & E & _)%run_bind_inv)%run_bind_inv)%run_bind_inv)%run_bind_inv)%run_bind_inv.
  by apply never_read in E.
Qed.

Lemma run_at_key_inv {S : Type} j k v (s s' : S) : run (Json.at_key j k) s = Done v s' -> Json.find j k = Some v /\ s' = s.
Proof. unfold Json.at_key. destruct (Json.is_object j); [|done]. destruct (Json.find j k); [|done]. by intros [= <- <-]. Qed.

Lemma never_read_list l t t' :
  run (for_each l (fun device => v ← Json.at_key device "Type"; ty ← Json.get_string v;
    if OpenclTopologyManager.recognized ty then d ← OpenclDevice.make_from device; Topology.addDevice d else mret tt)) t = Done tt t' ->
  t' = t /\ Forall (fun d => exists ty, Json.find d "Type" = Some (Json.string_ ty) /\ OpenclTopologyManager.recognized ty = false) l.
Proof.
  revert t. induction l as [|d l IH]; intros t; [by intros [= <-]|]. cbn [for_each].
  intros ([] & t1 & (v & t2 & (Ev & ->)%run_at_key_inv & (ty & t3 & Et & Ed)%run_bind_inv)%run_bind_inv & El)%run_bind_inv.
  destruct v; try done. injection Et as <- <-. destruct (OpenclTopologyManager.recognized _) eqn:Hr.
  - apply run_bind_inv in Ed as (x & t4 & Ex & _). by apply make_never_read in Ex.
  - injection Ed as <-. apply IH in El as [-> Hl]. split; [done|]. constructor; [by eexists|done].
Qed.

(** C38: whatever the topology manager is given, it reads no OpenCL device: a topology that
    is read has no device at all, and one with a device whose type names OpenCL is
    not read. *)
Theorem opencl_devices_never_read {S : Type} (topology : Json.t) (s : S) :
  match run (OpenclTopologyManager.deserializeTopology topology) s with
  | Done t _ => t = Topology.empty /\
      exists devices, Json.find topology "Devices" = Some devices /\
        Forall (fun d => exists ty, Json.find d "Type" = Some (Json.string_ ty) /\ OpenclTopologyManager.recognized ty = false) (Json.elements devices)
  | _ => True
  end.
Proof.
  destruct (run _ s) as [t s'| | |] eqn:E; [|done..]. revert E. unfold OpenclTopologyManager.deserializeTopology, read_topology.
  intros (u & s1 & _ & (dv & s2 & (Ed & _)%run_at_key_inv & E)%run_bind_inv)%run_bind_inv. rewrite run_construct in E.
  destruct (run (for_each _ _) _) as [[] t'| | |] eqn:El; [|done..]. injection E as <- _. apply never_read_list in El as [-> Hl].
  split; [done|]. by exists dv.
Qed.
