(* ===== verification/OpenclDemo.v ===== *)
(** * A small OpenCL library, and the theorems on it

    The library keeps the [cl_view] as its state.  A buffer is mapped to new memory.
    Its kernels write the bytes of their first argument to their second argument in
    reverse, when the two have the same size. *)

From S2P Require Import Prelude Json Topology Memory CommunicationManager HwlocTopology Mpi Tasking Compute Accelerators.
From S2P Require Import MemoryManager Opencl OpenclCompute OpenclSpec OpenclKernels OpenclUnits OpenclMemory OpenclTopology.
From Stdlib Require Import ZArith Lia String.
From Stdlib.Strings Require Import Byte.
From stdpp Require Import base list gmap option strings.

Local Open Scope Z_scope.
Local Open Scope hicr_scope.

Module OpenclLibrary.

Definition act {A : Type} (f : memory -> cl_view -> A * (memory * cl_view)) : prog (memory * cl_view) A :=
  Step (fun s => (f s.1 s.2).2) (fun s => Ret (f s.1 s.2).1).

Definition block_of (p : ptr) : option nat := match p with Ptr b _ => Some b | _ => None end.

(** The blocks in use. *)
Definition used (h : memory) (v : cl_view) : gset nat := dom h ∪ list_to_set (omap block_of (map_to_list (cv_mapped v)).*2).

Definition map_buffer (b : nat) : prog (memory * cl_view) (Z * ptr) :=
  act (fun h v =>
    match cv_contents v !! b, cv_mapped v !! b with
    | Some bs, None => let blk := fresh (used h v) in
        ((0, Ptr blk 0), (<[blk := bs]> h, mkClView (cv_contents v) (<[b := Ptr blk 0]> (cv_mapped v)) (cv_args v)))
    | _, _ => ((-1, nullptr), (h, v))
    end).

Definition unmap_buffer (b : nat) (p : ptr) : prog (memory * cl_view) Z :=
  act (fun h v =>
    match (if bool_decide (cv_mapped v !! b = Some p) then cs ← cv_contents v !! b; mem_load h p (Z.of_nat (List.length cs)) else None) with
    | Some bs => (0, (h, mkClView (<[b := bs]> (cv_contents v)) (delete b (cv_mapped v)) (cv_args v)))
    | None => (-1, (h, v))
    end).

Definition copy_buffer (b1 b2 : nat) (o1 o2 n : Z) : prog (memory * cl_view) (Z * nat) :=
  act (fun h v =>
    match xs ← cv_contents v !! b1; ys ← cv_contents v !! b2; bs ← read_at (Z.to_nat o1) (Z.to_nat n) xs; write_at (Z.to_nat o2) bs ys with
    | Some ys' => ((0, O), (h, mkClView (<[b2 := ys']> (cv_contents v)) (cv_mapped v) (cv_args v)))
    | None => ((-1, O), (h, v))
    end).

Definition reverse_args (a : gmap nat nat) (c : gmap nat (list byte)) : gmap nat (list byte) :=
  match b0 ← a !! 0%nat; xs ← c !! b0; b1 ← a !! 1%nat; ys ← c !! b1; Some (xs, b1, ys) with
  | Some (xs, b1, ys) => if bool_decide (List.length xs = List.length ys) then <[b1 := reverse xs]> c else c
  | None => c
  end.

Definition run_kernel (k : nat) : prog (memory * cl_view) Z :=
  act (fun h v => (0, (h, mkClView (reverse_args (args_of v k) (restrict (args_of v k) (cv_contents v)) ∪ cv_contents v) (cv_mapped v) (cv_args v)))).

End OpenclLibrary.

Import OpenclLibrary.

#[global] Instance demo_opencl : OPENCL cl_view := {
  CL_SUCCESS := 0;
  cl_platforms := act (fun h v => ([1%nat], (h, v)));
  cl_platform_devices := fun _ => act (fun h v => ([2%nat; 3%nat], (h, v)));
  cl_device_info_type := fun d => act (fun h v => (if bool_decide (d = 2%nat) then CL_GPU else CL_CPU, (h, v)));
  cl_device_info_size := fun d => act (fun h v => (1024 * Z.of_nat d, (h, v)));
  cl_command_queue := fun d => act (fun h v => (d, (h, v)));
  cl_buffer := fun _ _ n => act (fun h v => let b := fresh (dom (cv_contents v) ∪ dom (cv_mapped v)) in
    ((0, b), (h, mkClView (<[b := replicate (Z.to_nat n) x00]> (cv_contents v)) (cv_mapped v) (cv_args v))));
  enqueueMapBuffer := fun _ b _ => map_buffer b;
  enqueueUnmapMemObject := fun _ b p => unmap_buffer b p;
  enqueueCopyBuffer := fun _ b1 b2 o1 o2 n => copy_buffer b1 b2 o1 o2 n;
  enqueueFillBuffer := fun _ _ _ _ => act (fun h v => ((-1, O), (h, v)));
  enqueueNDRangeKernel := fun _ k _ _ _ => run_kernel k;
  setArg := fun k i b => act (fun h v => (0, (h, mkClView (cv_contents v) (cv_mapped v) (<[k := <[i := b]> (args_of v k)]> (cv_args v)))));
  enqueueMarkerWithWaitList := fun _ => act (fun h v => ((0, O), (h, v)));
  cl_event_wait := fun _ => act (fun h v => (0, (h, v)));
  cl_event_status := fun _ => act (fun h v => (0, (h, v)));
  CL_COMPLETE := 0
}.

Lemma used_fresh h v : let blk := fresh (used h v) in h !! blk = None /\ forall b p, cv_mapped v !! b = Some p -> block_of p <> Some blk.
Proof.
  intros blk. pose proof (is_fresh (used h v)) as Hf. fold blk in Hf. unfold used in Hf. apply not_elem_of_union in Hf as [H1 H2].
  split; [by apply not_elem_of_dom|]. intros b p Hp Hb. apply H2, elem_of_list_to_set, list_elem_of_omap. exists p. split; [|done].
  apply list_elem_of_fmap. exists (b, p). split; [done|]. by apply elem_of_map_to_list.
Qed.

Lemma new_block_kept blk bs n h : h !! blk = None -> outside_kept (Ptr blk 0) n h (<[blk := bs]> h).
Proof.
  intros Hb q k xs _ Hl. destruct q as [|b o]; [done|]. unfold mem_load in *. destruct (decide (blk = b)) as [<-|Hne]; [by rewrite Hb in Hl|]. by rewrite lookup_insert_ne.
Qed.

Lemma reverse_args_shape a c : same_shape c (reverse_args a c).
Proof.
  intros b. unfold reverse_args. destruct (b0 ← a !! 0%nat; xs ← c !! b0; b1 ← a !! 1%nat; ys ← c !! b1; Some (xs, b1, ys)) as [[[xs b1] ys]|] eqn:E; [|done].
  case_bool_decide as Hl; [|done]. apply bind_Some in E as (b0 & _ & (xs' & _ & (b1' & _ & (ys' & Hy & [= -> -> ->])%bind_Some)%bind_Some)%bind_Some).
  rewrite lookup_insert. case_decide; [subst|done]. rewrite Hy. cbn. by rewrite length_reverse, Hl.
Qed.

#[global, refine] Instance demo_opencl_spec : OpenclSpec cl_view := {
  cl_look := id;
  cl_effect := fun _ _ _ _ a c => reverse_args a c
}.
Proof.
  - intros _ _ _ _ a c. apply reverse_args_shape.
  - intros q fl n h l _ Hn. eexists _, _. split; [reflexivity|]. right. split; [done|]. cbn. pose proof (is_fresh (dom (cv_contents l) ∪ dom (cv_mapped l))) as Hf.
    apply not_elem_of_union in Hf as [H1 H2]. eexists. split_and!; [|by apply not_elem_of_dom|by apply not_elem_of_dom|reflexivity]. rewrite length_replicate. lia.
  - intros q b bs h l Hc Hm Hd. cbn in *. unfold id in *. destruct (used_fresh h l) as [Hb Hp]. set (blk := fresh (used h l)) in *.
    eexists (Ptr blk 0), _, _. rewrite Hc, Hm. split_and!; [reflexivity|done| |by apply new_block_kept|reflexivity|].
    + cbn. rewrite lookup_insert_eq. cbn. rewrite bool_decide_true by lia. rewrite Nat2Z.id. unfold read_at. rewrite bool_decide_true by done. cbn. by rewrite drop_0, firstn_all.
    + intros b1 b2 p1 p2 c1 c2 Hne. cbn. rewrite !lookup_insert. repeat case_decide; subst; [done| | |by apply Hd].
      * intros [= <-] H2 _ _. destruct p2 as [|x o]; [done|]. left. intros <-. by apply (Hp _ _ H2).
      * intros H1 [= <-] _ _. destruct p1 as [|x o]; [done|]. left. intros ->. by apply (Hp _ _ H1).
  - intros q b p cs bs h l Hm Hc Hl. cbn in *. unfold id in *. rewrite bool_decide_true by done. rewrite Hc. cbn. rewrite Hl. eexists _, _. split_and!; try reflexivity. by intros ? ? ?.
  - intros q b p h l Hm. cbn in *. unfold id in *. rewrite bool_decide_false by done. by eexists _, _.
  - intros q b1 b2 o1 o2 n xs ys bs ys' h l _ _ _ Hx Hy _ _ _ Hr Hw. cbn in *. unfold id in *. rewrite Hx. cbn. rewrite Hy. cbn. rewrite Hr. cbn. rewrite Hw. eexists _, _. split; reflexivity.
  - intros q k o g n h l _. eexists. split; reflexivity.
  - intros k i b h l. eexists. split; reflexivity.
  - intros q h l. eexists _, _. split; reflexivity.
  - intros e h l. eexists. split; reflexivity.
  - intros e h l. eexists _, _. split; reflexivity.
Defined.

#[global, refine] Instance demo_opencl_devices : OpenclDevices cl_view := {
  platform_list := [1%nat];
  devices_of := fun _ => [2%nat; 3%nat];
  type_of := fun d => if bool_decide (d = 2%nat) then CL_GPU else CL_CPU;
  memory_of := fun d => 1024 * Z.of_nat d
}.
Proof.
  - intros h l. by eexists.
  - intros p h l. by eexists.
  - intros d h l. by eexists.
  - intros d h l. by eexists.
Defined.

(** A machine with two slots, 10 and 11, whose buffers 30 and 31 are mapped to the
    blocks 0 and 1. *)
Module OpenclDemo.

Definition words : list byte := [x01; x02; x03; x04].
Definition zeros : list byte := replicate 4 x00.

Definition library : cl_view :=
  mkClView {[30%nat := zeros; 31%nat := zeros]} {[30%nat := Ptr 0 0; 31%nat := Ptr 1 0]} {[50%nat := {[0%nat := 31%nat; 1%nat := 30%nat; 2%nat := 31%nat]}]}.

Definition device : OpenclDevice.t := OpenclDevice.mk "" "OpenCL GPU" 0 2 [OpenclComputeResource.make 7] [OpenclMemorySpace.make 7 2048].

Definition machine : Machine (Opencl.t cl_view) :=
  mkMachine {[0%nat := words; 1%nat := zeros]}
    {[10%nat := LocalMemorySlot.make (Ptr 0 0) 4 (Some 20%nat); 11%nat := LocalMemorySlot.make (Ptr 1 0) 4 (Some 20%nat)]} ∅ ∅
    (Opencl.mk {[7%nat := device]} {[20%nat := OpenclMemorySpace.make 7 2048]} {[10%nat := 30%nat; 11%nat := 31%nat]} {[5%nat := [(0, 40%nat)]]} library).

(** The values, before. *)
Definition values : gmap nat (list byte) := {[30%nat := words; 31%nat := zeros]}.

Lemma two_keys {A : Type} (a b k : nat) (x y v : A) : ({[a := x; b := y]} : gmap nat A) !! k = Some v -> k = a /\ v = x \/ k = b /\ v = y.
Proof. rewrite lookup_insert. case_decide; [intros [= <-]; auto|]. rewrite lookup_singleton_Some. naive_solver. Qed.

Lemma machine_store : store machine values ∅.
Proof.
  split.
  - intros i b [[-> ->]|[-> ->]]%two_keys; eexists _, _, _; (split_and!; [reflexivity..|]); rewrite decide_False by set_solver; done.
  - intros i j b [[-> ->]|[-> ->]]%two_keys [[-> ?]|[-> ?]]%two_keys; done.
  - intros b1 b2 p1 p2 c1 c2 Hne [[-> ->]|[-> ->]]%two_keys [[-> ->]|[-> ->]]%two_keys _ _; cbn; first [done|by left].
Qed.

Lemma opencl_copy_refines_witness : exists m' p,
  run (CommunicationManager.memcpyLL (B := OpenclCommunicationManager.opencl_backend ∅) 5 11 1 10 0 3) machine = Done tt m' /\
  slot_at m' 11 p 4 /\ mem_load (heap m') p 4 = Some [x00; x01; x02; x03].
Proof.
  destruct (opencl_copy_refines ∅ 5 11 31 1 10 30 0 3 40 machine values (<[31%nat := [x00; x01; x02; x03]]> values)) as (m' & E & _ & K & H).
  - apply machine_store.
  - done.
  - done.
  - split; [lia|done].
  - split; [lia|done].
  - by vm_compute.
  - by vm_compute.
  - destruct (H 11%nat 31%nat) as (p & size & bs & Hat & Hv & Hl); [done|]. rewrite lookup_insert_eq in Hv. injection Hv as <-.
    assert (size = 4) as ->.
    { destruct Hat as (s & Hs & _ & <-). pose proof (kept_sizes _ _ K 11) as Hk. rewrite Hs in Hk. cbn in Hk. by injection Hk. }
    by exists m', p.
Defined.

Lemma opencl_self_copy_unmaps_witness : exists m',
  run (CommunicationManager.memcpyLL (B := OpenclCommunicationManager.opencl_backend ∅) 5 10 2 10 0 2) machine = Thrown runtime m' /\
  cv_mapped (Opencl.library (backend m')) !! 30%nat = None.
Proof.
  destruct (opencl_self_copy_unmaps ∅ 5 10 30 2 0 2 (Ptr 0 0) 4 40 machine values) as (m' & E & _ & Hm).
  - apply machine_store.
  - done.
  - by eexists.
  - split; [lia|done].
  - split; [lia|done].
  - lia.
  - lia.
  - by vm_compute.
  - by exists m'.
Defined.

Lemma opencl_allocate_free_witness : exists i b bs m1 m2,
  run (MemoryManager.allocateLocalMemorySlot (B := OpenclMemoryManager.opencl_memory ∅) (other_space 20) 8) (machine, [(0, 40%nat)]) = Done i (m1, [(0, 40%nat)]) /\
  store m1 (<[b := bs]> values) ∅ /\
  run (MemoryManager.freeLocalMemorySlot (B := OpenclMemoryManager.opencl_memory ∅) i) (m1, [(0, 40%nat)]) = Done tt (m2, [(0, 40%nat)]).
Proof.
  destruct (opencl_allocate_free ∅ 20 8 [(0, 40%nat)] 40 machine values) as [(m' & E & _)|(i & b & bs & m1 & m2 & E1 & _ & _ & _ & _ & S1 & E2 & _)].
  - apply machine_store.
  - by exists (OpenclMemorySpace.make 7 2048), 7%nat, device, 0.
  - done.
  - lia.
  - exfalso. by vm_compute in E.
  - exists i, b, bs, m1, m2. split_and!; [exact E1|exact S1|exact E2].
Defined.

(** The words are copied to the second slot, and reversed from there to the first. *)
Definition kernels : list OpenclKernel.t :=
  [OpenclKernel.MemoryKernel (OpenclKernel.mkMemory 5 11 0 10 0 4);
   OpenclKernel.ComputationKernel (OpenclKernel.mkComputation 50 [11; 10; 11]%nat [0] [4] [1])].

Definition unit_ : ProcessingUnit.t OpenclProcessingUnit.unit_t :=
  ProcessingUnit.setState ProcessingUnit.ready (ProcessingUnit.make 0 (OpenclProcessingUnit.mkUnit 40 None)).

Lemma kernels_ready : Forall (kernel_ready machine) kernels.
Proof.
  constructor; [done|constructor; [|constructor]]. split.
  - repeat constructor; by eexists.
  - intros i b Hi. change (({[0%nat := 31%nat; 1%nat := 30%nat; 2%nat := 31%nat]} : gmap nat nat) !! i = Some b) in Hi. rewrite lookup_insert in Hi. case_decide.
    + injection Hi as <-. exists 11%nat. split; [by left|done].
    + destruct (two_keys _ _ _ _ _ _ Hi) as [[_ ->]|[_ ->]]; [exists 10%nat|exists 11%nat]; (split; [cbn; set_solver|done]).
Qed.

Lemma opencl_unit_runs_kernels_witness : exists b m' u',
  run (_ ← ComputeManager.start (B := OpenclProcessingUnit.opencl_compute ∅) _ (Some (ExecutionState.make (OpenclExecutionState.mk kernels None None false)));
       b ← cl_poll 2;
       _ ← ComputeManager.await (B := OpenclProcessingUnit.opencl_compute ∅) (option (ExecutionState.t OpenclExecutionState.t));
       mret b) (machine, unit_) = Done b (m', u') /\ store m' {[30%nat := reverse words; 31%nat := words]} ∅.
Proof.
  destruct (opencl_unit_runs_kernels ∅ kernels 2 machine unit_ values {[30%nat := reverse words; 31%nat := words]}) as (b & m' & u' & E & S' & _).
  - done.
  - apply machine_store.
  - apply kernels_ready.
  - by vm_compute.
  - exists b, m', u'. split; [exact E|exact S'].
Defined.

Lemma opencl_topology_lost_witness : exists ds m' j, run OpenclTopologyManager.queryTopology machine = Done ds m' /\
  length (Topology.getDevices (OpenclTopologyManager.topology_of ds m')) = 2%nat /\ Topology.serialize (OpenclTopologyManager.topology_of ds m') = Some j /\
  run (OpenclTopologyManager.deserializeTopology j) tt = Done Topology.empty tt.
Proof.
  destruct (opencl_topology_lost machine tt) as (ds & m' & j & E & _ & Et & Hl & Ej & Er).
  - done.
  - repeat constructor; by eexists.
  - exists ds, m', j. split_and!; [exact E| |exact Ej|exact Er]. rewrite Et. cbn [Topology.getDevices Topology._deviceList]. rewrite length_zip_with, Hl. done.
Defined.

End OpenclDemo.
