(* ===== verification/PthreadsThreads.v ===== *)
(** * The threads of pthreads processing units

    Models the thread side of [backends/pthreads/processingUnit.hpp]: the creation of
    the thread, its wrapper function, the initialization barrier, and the signals that
    suspend and resume it.  [Compute] has the same operations over a table of threads;
    here the thread takes its own steps, between those of the thread that started it.

    A signal is pending from [pthread_kill] until it is delivered; that is a step of
    its own ([deliver_suspend], [deliver_resume]), which runs the handler.  A thread
    that is in the handler of the suspend signal makes no step.

    The affinity of a thread ([updateAffinity], [getAffinity] of the same file) comes
    first: the sets of processing units that the operating system keeps for a thread and
    for its process, and whether its two interfaces accept a request. *)

From S2P Require Import Prelude Tasking Compute Accelerators.
From Stdlib Require Import ZArith Lia.
From stdpp Require Import base gmap option list.

Local Open Scope Z_scope.
Local Open Scope hicr_scope.

Module PthreadsAffinity.

(** [CPU_SETSIZE]: a [cpu_set_t] holds that many bits. *)
Definition CPU_SETSIZE : Z := 1024.

(** [accepts] tells for which sets [pthread_setaffinity_np] succeeds,
    [pthread_answers] and [sched_answers] whether [pthread_getaffinity_np] and
    [sched_getaffinity] do. *)
Record os_t : Type := mkOs {
  thread_set : gset Z;
  process_set : gset Z;
  accepts : gset Z -> bool;
  pthread_answers : bool;
  sched_answers : bool
}.

Definition set_thread (s : gset Z) (o : os_t) : os_t :=
  mkOs s (process_set o) (accepts o) (pthread_answers o) (sched_answers o).

(** [CPU_SET_S] of every element; what does not fit in the set is ignored. *)
Definition cpuset_of (affinity : gset Z) : gset Z := filter (fun c => 0 <= c < CPU_SETSIZE) affinity.

(** The second interface is asked for the affinity, not to set it. *)
Definition updateAffinity (affinity : gset Z) : prog os_t unit :=
  let cpuset := cpuset_of affinity in
  ok ← gets (fun o => accepts o cpuset);
  _ ← (if ok : bool then modify (set_thread cpuset) else mret tt);
  sched ← gets sched_answers;
  let status := ok || sched in
  throw_if (negb status) runtime.

(** [CPU_ISSET] for every bit. *)
Definition elements_of (cpuset : gset Z) : gset Z := list_to_set (filter (fun i => i ∈ cpuset) (seqZ 0 CPU_SETSIZE)).

Definition getAffinity : prog os_t (gset Z) :=
  ok ← gets pthread_answers;
  if ok : bool then cpuset ← gets thread_set; mret (elements_of cpuset) else
  sched ← gets sched_answers;
  _ ← throw_if (negb sched) runtime;
  cpuset ← gets process_set;
  mret (elements_of cpuset).

End PthreadsAffinity.

Module UnitThread.

(** The two that meet at the initialization barrier. *)
Definition creator : nat := 0.
Definition thread : nat := 1.

(** What the operating system knows of the thread, and [user], the rest of the
    world.  [handlers]: the handlers of the two signals are installed; [arrived]: who has
    arrived at the initialization barrier; [in_handler]: the thread waits in the handler of
    the suspend signal; [can_create]: whether [pthread_create] succeeds. *)
Record world (V : Type) : Type := mkWorld {
  created : bool;
  exited : bool;
  handlers : bool;
  arrived : gset nat;
  suspend_pending : bool;
  resume_pending : bool;
  in_handler : bool;
  can_create : bool;
  os : PthreadsAffinity.os_t;
  user : V
}.

Arguments mkWorld {V} _ _ _ _ _ _ _ _ _ _.
Arguments created {V} _.
Arguments exited {V} _.
Arguments handlers {V} _.
Arguments arrived {V} _.
Arguments suspend_pending {V} _.
Arguments resume_pending {V} _.
Arguments in_handler {V} _.
Arguments can_create {V} _.
Arguments os {V} _.
Arguments user {V} _.

(** The unit: the processor of its compute resource, and the execution state. *)
Record t (E : Type) : Type := mk { _processorId : Z; _executionState : option E }.
Arguments mk {E} _ _.
Arguments _processorId {E} _.
Arguments _executionState {E} _.

Section Operations.
Context {V I : Type} (resumeImpl : prog (V * I) unit).

Abbreviation exec_t := (ExecutionState.t I) (only parsing).
Abbreviation state := (world V * ProcessingUnit.t (t (ExecutionState.t I)))%type (only parsing).

(** A new thread has no pending signals; the handlers belong to the process. *)
Definition set_created (w : world V) : world V :=
  mkWorld true false (handlers w) (arrived w) false false false (can_create w) (os w) (user w).
Definition set_exited (w : world V) : world V :=
  mkWorld (created w) true (handlers w) (arrived w) (suspend_pending w) (resume_pending w) (in_handler w) (can_create w) (os w) (user w).
Definition set_handlers (w : world V) : world V :=
  mkWorld (created w) (exited w) true (arrived w) (suspend_pending w) (resume_pending w) (in_handler w) (can_create w) (os w) (user w).
Definition set_arrived (a : gset nat) (w : world V) : world V :=
  mkWorld (created w) (exited w) (handlers w) a (suspend_pending w) (resume_pending w) (in_handler w) (can_create w) (os w) (user w).
Definition set_signals (s r i : bool) (w : world V) : world V :=
  mkWorld (created w) (exited w) (handlers w) (arrived w) s r i (can_create w) (os w) (user w).
Definition set_os (o : PthreadsAffinity.os_t) (w : world V) : world V :=
  mkWorld (created w) (exited w) (handlers w) (arrived w) (suspend_pending w) (resume_pending w) (in_handler w) (can_create w) o (user w).
Definition set_user (v : V) (w : world V) : world V :=
  mkWorld (created w) (exited w) (handlers w) (arrived w) (suspend_pending w) (resume_pending w) (in_handler w) (can_create w) (os w) v.

(** The constructor; [None] stands for a compute resource of another backend. *)
Definition make {S : Type} (processorId : option Z) : prog S (t (ExecutionState.t I)) :=
  match processorId with
  | None => Raise logic
  | Some p => mret (mk p None)
  end.

(** [pthread_barrier_wait]: the last of two to arrive lets both go on. *)
Definition barrier_wait (who : nat) : prog state unit :=
  _ ← modify (fun s => (set_arrived ({[who]} ∪ arrived s.1) s.1, s.2));
  Await (fun s => bool_decide (2 <= size (arrived s.1))%nat) (Ret tt).

(** *** The thread that owns the unit *)

Definition initialize : prog state unit := mret tt.

Definition start (executionState : ExecutionState.t I) : prog state unit :=
  _ ← modify (fun s => (set_arrived ∅ s.1, s.2));
  _ ← set_this (ProcessingUnit.set_impl (fun u => mk (_processorId u) (Some executionState)));
  ok ← gets (fun s => can_create s.1);
  _ ← throw_if (negb ok) runtime;
  _ ← modify (fun s => (set_created s.1, s.2));
  barrier_wait creator.

(** [pthread_kill]: undefined for a thread that was never created; a signal to a thread
    that has ended does nothing.  A signal that is already pending is not queued. *)
Definition pthread_kill (pending : world V -> world V) : prog state unit :=
  update (fun s => if created s.1 then Some (if exited s.1 then s else (pending s.1, s.2)) else None).

Definition suspend : prog state unit := pthread_kill (fun w => set_signals true (resume_pending w) (in_handler w) w).

Definition resume : prog state unit := pthread_kill (fun w => set_signals (suspend_pending w) true (in_handler w) w).

Definition terminate : prog state unit := mret tt.

(** [pthread_join]. *)
Definition await : prog state unit := Await (fun s => created s.1 && exited s.1) (Ret tt).

(** *** The thread of the unit *)

Definition on_os {A : Type} (p : prog PthreadsAffinity.os_t A) : prog state A :=
  zoom (fun s => Some (os s.1)) (fun o s => (set_os o s.1, s.2)) p.

Definition get_exec (s : world V * ProcessingUnit.t (t (ExecutionState.t I))) : option (V * ExecutionState.t I) :=
  e ← _executionState (ProcessingUnit.impl s.2); Some (user s.1, e).

Definition put_exec (ve : V * ExecutionState.t I) (s : world V * ProcessingUnit.t (t (ExecutionState.t I))) : world V * ProcessingUnit.t (t (ExecutionState.t I)) :=
  (set_user ve.1 s.1, ProcessingUnit.set_impl (fun u => mk (_processorId u) (Some ve.2)) s.2).

(** What the thread does with the execution state; a null pointer is dereferenced. *)
Definition on_exec {A : Type} (p : prog (V * ExecutionState.t I) A) : prog state A := zoom get_exec put_exec p.

(** A step is made only when the thread is not in the handler of the suspend signal. *)
Fixpoint interruptible {A : Type} (p : prog state A) : prog state A :=
  match p with
  | Step f k => Await (fun s => negb (in_handler s.1)) (Step f (fun s => interruptible (k s)))
  | Await c k => Await (fun s => negb (in_handler s.1) && c s) (interruptible k)
  | p => p
  end.

(** An exception that leaves the function ends the process. *)
Definition launchWrapper : prog state unit :=
  noexcept (
    _ ← modify (fun s => (set_handlers s.1, s.2));
    processorId ← this (fun u => _processorId (ProcessingUnit.impl u));
    _ ← on_os (PthreadsAffinity.updateAffinity {[processorId]});
    _ ← barrier_wait thread;
    on_exec (StateOps.resume resumeImpl)).

(** The thread runs from its creation to its end. *)
Definition thread_of_unit : prog state unit :=
  Await (fun s => created s.1)
    (_ ← interruptible launchWrapper;
     modify (fun s => (set_exited s.1, s.2))).

(** *** The handlers *)

(** Without a handler the signal ends the process.  A second suspend signal is blocked,
    and stays pending, while the handler runs. *)
Definition deliver_suspend : prog state unit :=
  Await (fun s => suspend_pending s.1 && negb (in_handler s.1) && negb (exited s.1))
    (update (fun s => if handlers s.1 then Some (set_signals false (resume_pending s.1) true s.1, s.2) else None)).

(** A thread that waits in the other handler goes on; otherwise the handler does
    nothing. *)
Definition deliver_resume : prog state unit :=
  Await (fun s => resume_pending s.1 && negb (exited s.1))
    (update (fun s => if handlers s.1 then Some (set_signals (suspend_pending s.1) false false s.1, s.2) else None)).

(** The compute manager. *)
#[global] Instance threads_compute : ComputeBackend (world V) (t (ExecutionState.t I)) (ExecutionState.t I) := {
  initializeImpl := initialize;
  startImpl := start;
  suspendImpl := suspend;
  Compute.resumeImpl := resume;
  terminateImpl := terminate;
  awaitImpl := await
}.

End Operations.
End UnitThread.

(** ** Facts on affinities *)

Section Facts.
Import PthreadsAffinity.

Lemma elements_of_cpuset s : elements_of (cpuset_of s) = cpuset_of s.
Proof.
  apply set_eq. intros x. unfold elements_of, cpuset_of. rewrite elem_of_list_to_set, list_elem_of_filter, elem_of_seqZ, elem_of_filter.
  unfold CPU_SETSIZE. intuition lia.
Qed.

(** An affinity that the thread interface accepts is the one that is read back, as
    far as it fits in a [cpu_set_t]. *)
Theorem affinity_roundtrip s o :
  accepts o (cpuset_of s) = true -> pthread_answers o = true ->
  exists o', run (_ ← updateAffinity s; getAffinity) o = Done (cpuset_of s) o' /\ thread_set o' = cpuset_of s.
Proof.
  intros Ha Hp. exists (set_thread (cpuset_of s) o). split; [|done].
  assert (E : run (updateAffinity s) o = Done tt (set_thread (cpuset_of s) o)).
  { unfold updateAffinity. rewrite run_bind, run_gets, Ha, run_bind, run_modify, run_bind, run_gets. by apply run_throw_if_false. }
  rewrite (run_bind_Done _ _ _ _ _ E). unfold getAffinity. rewrite run_bind, run_gets. cbn [pthread_answers set_thread]. rewrite Hp.
  rewrite run_bind, run_gets. cbn [thread_set set_thread]. by rewrite elements_of_cpuset.
Qed.

(** An affinity that the thread interface refuses is not set, and [updateAffinity]
    returns normally all the same when [sched_getaffinity] answers. *)
Theorem affinity_not_set s o :
  accepts o (cpuset_of s) = false -> run (updateAffinity s) o = if sched_answers o then Done tt o else Thrown runtime o.
Proof.
  intros Ha. unfold updateAffinity. rewrite run_bind, run_gets, Ha, run_bind. cbn [run mret prog_mret]. rewrite run_bind, run_gets.
  cbn [orb]. by destruct (sched_answers o).
Qed.

End Facts.

Module AffinityDemo.
Import PthreadsAffinity.

(** An operating system with four processing units. *)
Definition os : os_t := mkOs {[0; 1]} {[0; 1; 2; 3]} (fun s => bool_decide (s ⊆ {[0; 1; 2; 3]})) true true.

Lemma affinity_roundtrip_witness :
  exists o', run (_ ← updateAffinity {[2; 3]}; getAffinity) os = Done (cpuset_of {[2; 3]}) o' /\ thread_set o' = cpuset_of {[2; 3]}.
Proof. apply affinity_roundtrip; by vm_compute. Defined.

Lemma affinity_not_set_witness : run (updateAffinity {[7]}) os = Done tt os.
Proof. apply (affinity_not_set {[7]} os). by vm_compute. Defined.

End AffinityDemo.
