(* ===== verification/PthreadsThreadsSpec.v ===== *)
(** * The threads of pthreads processing units: theorems

    A unit that is started and awaited has run its execution state, in a thread that is
    bound to the processor of the unit when [start] returns; this holds for every
    interleaving of the two threads.  A unit that is suspended and resumed may stay
    suspended: when the resume signal is delivered first it is lost. *)

From S2P Require Import Prelude Concurrency Interference Tasking Compute Accelerators PthreadsThreads.
From Stdlib Require Import ZArith Lia.
From stdpp Require Import base gmap option list relations.

Local Open Scope Z_scope.
Local Open Scope hicr_scope.

Section Threads.
Context {V I : Type} (resumeImpl : prog (V * I) unit).
Import UnitThread.

Abbreviation state := (world V * ProcessingUnit.t (t (ExecutionState.t I)))%type (only parsing).
Implicit Types (s : world V * ProcessingUnit.t (t (ExecutionState.t I))).

(** Being interruptible makes no difference to a thread that is not interrupted. *)
Lemma safe_interruptible {A : Type} (c : contract state) `{!Contract c} (p : prog state A) Q s :
  (forall u u', rely c u u' \/ guar c u u' -> in_handler u.1 = false -> in_handler u'.1 = false) ->
  in_handler s.1 = false -> safe c p Q s -> safe c (interruptible p) Q s.
Proof.
  intros Hk. revert s. induction p as [a|e|x|f k IH|b k IH]; intros s Hs H; cbn in *; try done.
  - intros s1 H1. pose proof (Hk _ _ (or_introl H1) Hs) as Hs1. rewrite Hs1. split; [done|]. intros _ s2 H2.
    destruct (H s2) as [HG Hn]; [by etrans|]. split; [done|]. apply IH; [|done]. eapply Hk; [by right|]. by eapply Hk; [left|].
  - intros s1 H1. pose proof (Hk _ _ (or_introl H1) Hs) as Hs1. destruct (H s1 H1) as [Hf Ht]. rewrite Hs1. cbn. split; [done|]. intros Hb. apply IH; auto.
Qed.

(** ** Contracts *)

Variables (pid : Z) (v0 v1 : V) (i0 i1 : I).
Hypothesis Hrun : run resumeImpl (v0, i0) = Done tt (v1, i1).

Let e0 : ExecutionState.t I := ExecutionState.make i0.
Let e1 : ExecutionState.t I := ExecutionState.mk ExecutionState.running i1.

Abbreviation exec s := (_executionState (ProcessingUnit.impl s.2)) (only parsing).
Abbreviation proc s := (_processorId (ProcessingUnit.impl s.2)) (only parsing).

(** The thread has been set up. *)
Definition set_up s : Prop := handlers s.1 = true /\ PthreadsAffinity.thread_set (os s.1) = PthreadsAffinity.cpuset_of {[pid]}.

Record meeting s : Prop := mkMeeting {
  meet_who : arrived s.1 ⊆ {[creator; thread]};
  meet_setup : thread ∈ arrived s.1 -> set_up s;
  meet_end : exited s.1 = true -> thread ∈ arrived s.1 /\ user s.1 = v1 /\ exec s = Some e1
}.

(** A step of the thread that owns the unit. *)
Record owner_step s s' : Prop := mkOwnerStep {
  own_handler : in_handler s'.1 = in_handler s.1;
  own_exited : exited s'.1 = exited s.1;
  own_handlers : handlers s'.1 = handlers s.1;
  own_os : os s'.1 = os s.1;
  own_user : user s'.1 = user s.1;
  own_proc : proc s' = proc s;
  own_created : created s.1 = true -> created s'.1 = true /\ exec s' = exec s /\ (thread ∈ arrived s'.1 <-> thread ∈ arrived s.1) /\ arrived s.1 ⊆ arrived s'.1 /\ (arrived s.1 ⊆ {[creator; thread]} -> arrived s'.1 ⊆ {[creator; thread]});
  own_start : created s.1 = false -> created s'.1 = true -> exec s' = Some e0 /\ (thread ∉ arrived s'.1) /\ arrived s'.1 ⊆ {[creator; thread]}
}.

(** A step of the thread of the unit. *)
Record unit_step s s' : Prop := mkUnitStep {
  un_idle : created s.1 = false -> s' = s;
  un_created : created s'.1 = created s.1;
  un_state : ProcessingUnit._state s'.2 = ProcessingUnit._state s.2;
  un_proc : proc s' = proc s;
  un_handler : in_handler s'.1 = in_handler s.1;
  un_creator : creator ∈ arrived s'.1 <-> creator ∈ arrived s.1;
  un_thread : thread ∈ arrived s.1 -> thread ∈ arrived s'.1;
  un_exited : exited s.1 = true -> exited s'.1 = true;
  un_meeting : meeting s -> meeting s'
}.

#[local] Instance owner_step_preorder : PreOrder owner_step.
Proof.
  split; [intros s; split; try done; congruence|]. intros x y z [] []. split; try congruence.
  - intros Hx. destruct (own_created0 Hx) as (Hy & ? & ? & ? & ?). destruct (own_created1 Hy) as (? & ? & ? & ? & ?). split_and!; try congruence; [tauto|by etrans|by auto].
  - intros Hx Hz. destruct (created y.1) eqn:Hy.
    + destruct (own_start0 Hx eq_refl) as (? & ? & ?). destruct (own_created1 eq_refl) as (? & ? & ? & ? & ?). split_and!; [congruence|tauto|by auto].
    + by apply own_start1.
Qed.

#[local] Instance unit_step_preorder : PreOrder unit_step.
Proof.
  split; [by intros s; split|]. intros x y z [] []. split; try congruence; [|tauto|tauto|tauto|tauto].
  intros Hx. rewrite un_idle1; [by apply un_idle0|congruence].
Qed.

Definition owner_contract : contract state :=
  mkContract unit_step owner_step (fun s => created s.1 = true /\ creator ∈ arrived s.1 /\ ((thread ∉ arrived s.1) \/ exited s.1 = false)).

Definition unit_contract : contract state :=
  mkContract owner_step unit_step (fun s => created s.1 = false \/ thread ∈ arrived s.1 /\ (creator ∉ arrived s.1)).

#[local] Instance owner_Contract : Contract owner_contract.
Proof. split; apply _. Qed.

#[local] Instance unit_Contract : Contract unit_contract.
Proof. split; apply _. Qed.

(** ** The thread of the unit *)

(** Before it arrives at the barrier: what is known when it has been created. *)
Record preparing (v : V) (e : ExecutionState.t I) s : Prop := mkPreparing {
  pre_created : created s.1 = true;
  pre_exited : exited s.1 = false;
  pre_handler : in_handler s.1 = false;
  pre_proc : proc s = pid;
  pre_user : user s.1 = v;
  pre_exec : exec s = Some e;
  pre_arrived : thread ∉ arrived s.1
}.

(** Afterwards. *)
Record met s : Prop := mkMet {
  met_created : created s.1 = true;
  met_exited : exited s.1 = false;
  met_handler : in_handler s.1 = false;
  met_arrived : thread ∈ arrived s.1
}.

Lemma preparing_stable v e : stable unit_contract (preparing v e).
Proof.
  intros s s' [] []. destruct (own_created0 pre_created0) as (? & ? & ? & ? & ?). split; try congruence. tauto.
Qed.

Lemma met_stable : stable unit_contract met.
Proof. intros s s' [] []. destruct (own_created0 met_created0) as (? & ? & ? & ? & ?). split; try congruence. tauto. Qed.

Lemma met_exec_stable x : stable unit_contract (fun s => met s /\ get_exec s = x).
Proof.
  intros s s' [Hm Hg] Hr. split; [by eapply met_stable|]. unfold get_exec in *. destruct (own_created _ _ Hr (met_created _ Hm)) as (_ & -> & _).
  by rewrite (own_user _ _ Hr).
Qed.

(** A step before the barrier. *)
Lemma preparing_step v e s w : preparing v e s -> created w = true -> exited w = false -> in_handler w = false -> user w = v -> arrived w = arrived s.1 ->
  unit_step s (w, s.2) /\ preparing v e (w, s.2).
Proof.
  intros [] ? ? ? ? Ha. split; [|split; cbn; rewrite ?Ha; done]. split; cbn; rewrite ?Ha; try done; try congruence.
  intros []. split; cbn; rewrite ?Ha; [done|tauto|]. congruence.
Qed.

Lemma run_unit_resume : run (StateOps.resume resumeImpl) (v0, e0) = Done tt (v1, e1).
Proof.
  unfold StateOps.resume. rewrite (run_bind_Done _ _ _ _ _ (run_this _ _ _)). cbn [e0 ExecutionState.make ExecutionState._state].
  rewrite (run_bind_Done _ _ _ _ _ (run_throw_if_false _ _ _ eq_refl)), (run_bind_Done _ _ _ _ _ (run_set_this _ _ _)).
  rewrite run_on_impl. change (run resumeImpl _) with (run resumeImpl (v0, i0)). by rewrite Hrun.
Qed.

Lemma safe_affinity o v e s :
  PthreadsAffinity.accepts o (PthreadsAffinity.cpuset_of {[pid]}) = true -> preparing v e s -> handlers s.1 = true -> os s.1 = o ->
  safe unit_contract (on_os (PthreadsAffinity.updateAffinity {[pid]})) (fun _ u => preparing v e u /\ set_up u) s.
Proof.
  intros Ha Hp Hh Ho. eapply safe_mono; cycle 1.
  - apply (safe_zoom unit_contract _ _ (fun u => preparing v e u /\ handlers u.1 = true) _ o tt (PthreadsAffinity.set_thread (PthreadsAffinity.cpuset_of {[pid]}) o)).
    + intros u u' [Hu Hhu] Hr. split; [split; [by eapply preparing_stable|rewrite (own_handlers _ _ Hr); done]|]. by rewrite (own_os _ _ Hr).
    + intros u y z [Hu Hhu] _. destruct (preparing_step v e u (set_os z u.1) Hu) as [HG HP]; [apply Hu..|done|]. done.
    + unfold PthreadsAffinity.updateAffinity. rewrite run_bind, run_gets, Ha, run_bind, run_modify, run_bind, run_gets. by apply run_throw_if_false.
    + by rewrite Ho.
    + done.
  - intros [] u (_ & [Hu Hhu] & [= Ho']). split; [done|]. split; [done|]. by rewrite Ho'.
Qed.

(** Arriving at the barrier and waiting there. *)
Lemma triple_unit_barrier : triple unit_contract (fun s => preparing v0 e0 s /\ set_up s) (barrier_wait thread) (fun _ s => met s /\ get_exec s = Some (v0, e0)).
Proof.
  unfold barrier_wait. apply triple_bind with (fun _ s => met s /\ get_exec s = Some (v0, e0)).
  - apply triple_modify.
    + intros s s' [Hp [H1 H2]] Hr. split; [by eapply preparing_stable|]. split; [by rewrite (own_handlers _ _ Hr)|by rewrite (own_os _ _ Hr)].
    + intros s [[] Hs]. cbn. split; [|split; [split; cbn; try done; set_solver|unfold get_exec; cbn; by rewrite pre_exec0, pre_user0]].
      split; cbn; try done; try congruence; try set_solver. intros []. split; cbn; [set_solver|done|]. congruence.
  - intros []. apply triple_await with (fun s => met s /\ get_exec s = Some (v0, e0)); [| |done|by apply triple_ret].
    + apply met_exec_stable.
    + intros s [Hm _]. case_bool_decide as Hb; [done|]. intros _. right. split; [apply Hm|]. intros Hc. apply Hb.
      replace 2%nat with (size ({[creator; thread]} : gset nat)) by done. apply subseteq_size. pose proof (met_arrived _ Hm). set_solver.
Qed.

Lemma safe_unit_body s : met s -> get_exec s = Some (v0, e0) ->
  safe unit_contract (on_exec (StateOps.resume resumeImpl)) (fun _ u => met u /\ get_exec u = Some (v1, e1)) s.
Proof.
  intros Hm Hg. eapply safe_mono; cycle 1.
  - apply (safe_zoom unit_contract get_exec put_exec met _ (v0, e0) tt (v1, e1)); [| |apply run_unit_resume|done|done].
    + intros u u' Hu Hr. by apply (met_exec_stable (get_exec u) u u').
    + intros u y z [] _. split_and!; [|done|by destruct z]. split; cbn; try done; [congruence|]. intros []. split; cbn; [done|done|]. congruence.
  - intros [] u (_ & ? & ?). done.
Qed.

Definition after_unit s : Prop := created s.1 = true /\ exited s.1 = true /\ thread ∈ arrived s.1.

Lemma triple_thread_of_unit o :
  PthreadsAffinity.accepts o (PthreadsAffinity.cpuset_of {[pid]}) = true ->
  triple unit_contract (fun s => exited s.1 = false /\ in_handler s.1 = false /\ proc s = pid /\ user s.1 = v0 /\ os s.1 = o /\ (created s.1 = true -> preparing v0 e0 s))
    (thread_of_unit resumeImpl) (fun _ => after_unit).
Proof.
  intros Ha. unfold thread_of_unit. apply triple_await with (fun s => preparing v0 e0 s /\ os s.1 = o).
  - intros s s' (He & Hh & Hp & Hu & Ho & Hc) Hr. split_and!; [by rewrite (own_exited _ _ Hr)|by rewrite (own_handler _ _ Hr)|by rewrite (own_proc _ _ Hr)|by rewrite (own_user _ _ Hr)|by rewrite (own_os _ _ Hr)|].
    intros Hc'. destruct (created s.1) eqn:Ec; [by eapply preparing_stable; [apply Hc|]|]. destruct (own_start _ _ Hr Ec Hc') as (? & ? & ?).
    destruct Hr. split; try congruence.
  - intros s _ Hc. by left.
  - intros s (_ & _ & _ & _ & Ho & Hc) Hb. by split; [apply Hc|].
  - apply triple_bind with (fun _ s => met s /\ get_exec s = Some (v1, e1)).
    + intros s [Hp Ho]. apply safe_interruptible; [apply _| | |].
      { intros u u' [Hr|Hg] Hi; [by rewrite (own_handler _ _ Hr)|by rewrite (un_handler _ _ Hg)]. }
      { apply Hp. }
      apply triple_noexcept with (fun u => preparing v0 e0 u /\ os u.1 = o); [|done]. clear s Hp Ho.
      apply triple_bind with (fun _ u => preparing v0 e0 u /\ os u.1 = o /\ handlers u.1 = true).
      { apply triple_modify.
        - intros u u' [Hu Ho] Hr. split; [by eapply preparing_stable|by rewrite (own_os _ _ Hr)].
        - intros u [Hu Ho]. destruct (preparing_step v0 e0 u (set_handlers u.1) Hu) as [HG HP]; [apply Hu..|done|]. done. }
      intros []. assert (Hst : stable unit_contract (fun u => preparing v0 e0 u /\ os u.1 = o /\ handlers u.1 = true)).
      { intros u u' (Hu & Ho & Hh) Hr. split_and!; [by eapply preparing_stable|by rewrite (own_os _ _ Hr)|by rewrite (own_handlers _ _ Hr)]. }
      apply triple_bind with (fun p u => p = pid /\ preparing v0 e0 u /\ os u.1 = o /\ handlers u.1 = true).
      { apply triple_gets; [apply _|done|]. intros u Hu. split; [apply Hu|done]. }
      intros p. apply triple_pure. intros ->. apply triple_bind with (fun _ u => preparing v0 e0 u /\ set_up u).
      { intros u (Hu & Ho & Hh). by apply safe_affinity with o. }
      intros []. eapply triple_bind; [apply triple_unit_barrier|]. intros [] u [Hm Hg]. by apply safe_unit_body.
    + intros []. apply triple_modify.
      * apply met_exec_stable.
      * intros u [[] Hg]. unfold get_exec in Hg. apply bind_Some in Hg as (e & He & Hue). injection Hue as Hu ->. split; [|done].
        split; cbn; try done; try congruence. intros [Hw Hsu _]. split; cbn; [exact Hw|exact Hsu|done].
Qed.

(** ** The thread that owns the unit *)

(** Before the creation. *)
Definition unstarted (st : ProcessingUnit.state_t) s : Prop :=
  created s.1 = false /\ exited s.1 = false /\ can_create s.1 = true /\ in_handler s.1 = false /\ ProcessingUnit._state s.2 = st.

(** From the creation on. *)
Record started (st : ProcessingUnit.state_t) (here : bool) s : Prop := mkStarted {
  sta_created : created s.1 = true;
  sta_state : ProcessingUnit._state s.2 = st;
  sta_here : if here then creator ∈ arrived s.1 else creator ∉ arrived s.1;
  sta_meeting : meeting s
}.

Lemma unstarted_stable st : stable owner_contract (unstarted st).
Proof. intros s s' (Hc & H) Hr. by rewrite (un_idle _ _ Hr Hc). Qed.

Lemma started_stable st here : stable owner_contract (started st here).
Proof. intros s s' [] []. split; [congruence|congruence|destruct here; tauto|by auto]. Qed.

(** The owner's steps on what only it uses. *)
Lemma owner_sets f s : proc (s.1, f s.2) = proc s -> exec (s.1, f s.2) = exec s -> owner_step s (s.1, f s.2).
Proof. intros Hp He. split; try done. cbn. congruence. Qed.

Lemma triple_owner_start : triple owner_contract (unstarted ProcessingUnit.ready) (ComputeManager.start _ e0) (fun _ s => started ProcessingUnit.running true s /\ thread ∈ arrived s.1).
Proof.
  unfold ComputeManager.start. apply triple_bind with (fun st s => st = ProcessingUnit.ready /\ unstarted ProcessingUnit.ready s).
  { apply triple_gets; [apply _|apply unstarted_stable|]. intros s Hs. split; [apply Hs|done]. }
  intros st. apply triple_pure. intros ->. apply triple_throw_if; [done|].
  apply triple_bind with (fun _ => unstarted ProcessingUnit.running).
  { apply triple_modify; [apply unstarted_stable|]. intros s (? & ? & ? & ? & ?). split; [by apply owner_sets|done]. }
  intros []. cbn [startImpl threads_compute]. unfold UnitThread.start.
  apply triple_bind with (fun _ s => unstarted ProcessingUnit.running s /\ arrived s.1 = ∅).
  { apply triple_modify; [apply unstarted_stable|]. intros s (? & ? & ? & ? & ?). split; [|done]. split; try done; cbn; congruence. }
  assert (Hst : forall P : _ -> Prop, stable owner_contract (fun s => unstarted ProcessingUnit.running s /\ P s)).
  { intros P s s' [Hs HP] Hr. by rewrite (un_idle _ _ Hr (proj1 Hs)). }
  intros []. apply triple_bind with (fun _ s => unstarted ProcessingUnit.running s /\ arrived s.1 = ∅ /\ exec s = Some e0).
  { apply triple_modify; [apply Hst|]. intros s [(? & ? & ? & ? & ?) ?]. split; [|done]. split; try done; cbn; congruence. }
  intros []. apply triple_bind with (fun ok s => ok = true /\ unstarted ProcessingUnit.running s /\ arrived s.1 = ∅ /\ exec s = Some e0).
  { apply triple_gets; [apply _|apply Hst|]. intros s Hs. split; [apply Hs|done]. }
  intros ok. apply triple_pure. intros ->. apply triple_throw_if; [done|].
  apply triple_bind with (fun _ => started ProcessingUnit.running false).
  { apply triple_modify; [apply Hst|]. intros s [(Hc & He & Ho & Hi & Hs) [Ha Hx]]. split.
    - split; cbn; try done; try congruence. intros _ _. rewrite Ha. split_and!; [done|set_solver|set_solver].
    - split; cbn; try done; [rewrite Ha; set_solver|]. split; cbn; rewrite ?Ha, ?He; [set_solver|set_solver|done]. }
  intros []. unfold barrier_wait. apply triple_bind with (fun _ => started ProcessingUnit.running true).
  { apply triple_modify; [apply started_stable|]. intros s [Hc Hs Hh [Hw Hsu Hen]]. split.
    - split; cbn; try done; [|congruence]. intros _. split_and!; try done; set_solver.
    - split; cbn; try done; [set_solver|]. split; cbn; [set_solver|intros; apply Hsu; set_solver|]. intros He. destruct (Hen He) as (? & ? & ?). split_and!; [set_solver|done|done]. }
  intros []. apply triple_await with (fun s => started ProcessingUnit.running true s /\ thread ∈ arrived s.1); [apply started_stable| | |by apply triple_ret].
  - intros s [Hc Hs Hh [Hw Hsu Hen]]. case_bool_decide as Hb; [done|]. intros _. split_and!; [done|done|left]. intros Ht. apply Hb.
    replace 2%nat with (size ({[creator; thread]} : gset nat)) by done. apply subseteq_size. set_solver.
  - intros s Hs. case_bool_decide as Hb; [|done]. intros _. split; [done|]. destruct Hs as [Hc Hs Hh [Hw Hsu Hen]].
    destruct (decide (thread ∈ arrived s.1)) as [|Hn]; [done|]. exfalso. assert (Hsub : arrived s.1 ⊆ {[creator]}) by set_solver.
    apply subseteq_size in Hsub. rewrite size_singleton in Hsub. lia.
Qed.

Definition after_owner s : Prop := started ProcessingUnit.terminated true s /\ exited s.1 = true.

Lemma triple_owner_await : triple owner_contract (started ProcessingUnit.running true) (ComputeManager.await (ExecutionState.t I)) (fun _ => after_owner).
Proof.
  unfold ComputeManager.await. apply triple_bind with (fun st s => st = ProcessingUnit.running /\ started ProcessingUnit.running true s).
  { apply triple_gets; [apply _|apply started_stable|]. intros s Hs. split; [apply Hs|done]. }
  intros st. apply triple_pure. intros ->. rewrite bool_decide_false by tauto. cbn [awaitImpl threads_compute].
  assert (Hst : forall st, stable owner_contract (fun s => started st true s /\ exited s.1 = true)).
  { intros st s s' [Hs He] Hr. split; [by eapply started_stable|]. by apply (un_exited _ _ Hr). }
  apply triple_bind with (fun _ s => started ProcessingUnit.running true s /\ exited s.1 = true).
  { unfold UnitThread.await. apply triple_await with (fun s => started ProcessingUnit.running true s /\ exited s.1 = true); [apply started_stable| | |by apply triple_ret].
    - intros s Hs. rewrite (sta_created _ _ _ Hs). intros He. split_and!; [apply Hs|apply (sta_here _ _ _ Hs)|by right].
    - intros s Hs [_ He]%andb_prop. by split. }
  intros []. apply triple_modify; [apply Hst|]. intros s [[Hc Hs Hh [Hw Hsu Hen]] He]. split; [by apply owner_sets|]. split; [|done]. by split.
Qed.

(** ** Both together *)

(** The owner starts the unit, looks at the affinity of the thread, and waits for its end. *)
Definition client : prog state (gset Z) :=
  _ ← ComputeManager.start _ e0;
  a ← gets (fun s => PthreadsAffinity.thread_set (os s.1));
  _ ← ComputeManager.await (ExecutionState.t I);
  mret a.

Definition unit_thread : prog state (gset Z) := _ ← thread_of_unit resumeImpl; mret ∅.

Definition pair_contract (i : nat) : contract state := match i with O => owner_contract | S _ => unit_contract end.

Definition pair_post (i : nat) (r : gset Z) s : Prop :=
  match i with O => r = PthreadsAffinity.cpuset_of {[pid]} /\ after_owner s | S _ => r = ∅ /\ after_unit s end.

Lemma triple_client : triple owner_contract (unstarted ProcessingUnit.ready) client (pair_post 0).
Proof.
  unfold client. eapply triple_bind; [apply triple_owner_start|]. intros [].
  apply triple_bind with (fun a s => a = PthreadsAffinity.cpuset_of {[pid]} /\ started ProcessingUnit.running true s).
  { apply triple_gets; [apply _| |].
    - intros s s' [Hs Ht] Hr. split; [by eapply started_stable|by apply (un_thread _ _ Hr)].
    - intros s [Hs Ht]. split; [|done]. by apply (meet_setup _ (sta_meeting _ _ _ Hs)). }
  intros a. apply triple_pure. intros ->. eapply triple_bind; [apply triple_owner_await|]. intros []. by apply triple_ret.
Qed.

Lemma pair_compatible : compatible 2 pair_contract pair_post.
Proof.
  split.
  - intros [|i] _; apply _.
  - intros [|i] r _ s s'; cbn.
    + intros [-> [Hs He]] Hr. split; [done|]. split; [by eapply started_stable|by apply (un_exited _ _ Hr)].
    + intros [-> (Hc & He & Ha)] Hr. split; [done|]. destruct (own_created _ _ Hr Hc) as (? & ? & ? & ? & ?). split_and!; [done|by rewrite (own_exited _ _ Hr)|tauto].
  - intros [|[|i]] [|[|j]] s s' ?? Hij HG; cbn in *; [done|exact HG|lia|exact HG|done|lia..].
Qed.

Definition pair_done (ps : list (prog state (gset Z))) s : Prop :=
  ps = [Ret (PthreadsAffinity.cpuset_of {[pid]}); Ret ∅] /\ user s.1 = v1 /\ exec s = Some e1 /\ ProcessingUnit._state s.2 = ProcessingUnit.terminated.

Lemma pair_progress ps s : length ps = 2%nat -> pool_safe pair_contract pair_post ps s -> pair_done ps s \/ exists st, pool_step (ps, s) st.
Proof.
  intros Hl HI. destruct ps as [|p1 [|p2 [|]]]; try done.
  assert (Hmove : forall i q q' s', [p1; p2] !! i = Some q -> thread_step q s q' s' -> exists st, pool_step ([p1; p2], s) st)
    by (intros; eexists; by eapply pool_act).
  destruct (safe_progress owner_contract p1 _ s (HI 0%nat p1 eq_refl)) as [(r1 & -> & -> & Hs1 & He1)|[(q & s' & Ht)|(_ & Hc1 & Hh1 & Hw1)]];
    [|right; by eapply (Hmove 0%nat)|];
  (destruct (safe_progress unit_contract p2 _ s (HI 1%nat p2 eq_refl)) as [(r2 & -> & -> & Hc2 & He2 & Ha2)|[(q & s' & Ht)|(_ & Hw2)]];
    [|right; by eapply (Hmove 1%nat)|]).
  - left. destruct Hs1 as [_ Hst _ [_ _ Hen]]. destruct (Hen He1) as (_ & ? & ?). by split_and!.
  - destruct Hs1 as [Hc _ Hh _]. destruct Hw2 as [|[? ?]]; [congruence|done].
  - destruct Hw1; [done|congruence].
  - destruct Hw2 as [|[? ?]]; [congruence|done].
Qed.

End Threads.

(** C10: a pthreads processing unit that is started with an execution state and awaited,
    while its thread takes steps of its own.  In whatever order the two threads take
    their steps, none of them throws or crashes, they are never stuck, the thread is bound
    to the processor of the unit when [start] returns, and when [await] returns the
    execution state has run to its end in that thread. *)
Theorem pthreads_unit_completes {V I : Type} (resumeImpl : prog (V * I) unit) pid v0 v1 i0 i1 (w : UnitThread.world V) (u : ProcessingUnit.t (UnitThread.t (ExecutionState.t I))) :
  run resumeImpl (v0, i0) = Done tt (v1, i1) -> PthreadsAffinity.accepts (UnitThread.os w) (PthreadsAffinity.cpuset_of {[pid]}) = true ->
  UnitThread.created w = false -> UnitThread.exited w = false -> UnitThread.in_handler w = false -> UnitThread.can_create w = true -> UnitThread.user w = v0 ->
  ProcessingUnit._state u = ProcessingUnit.ready -> UnitThread._processorId (ProcessingUnit.impl u) = pid ->
  forall ps' s', pool_steps ([client i0; unit_thread resumeImpl], (w, u)) (ps', s') ->
    (forall i e x, ps' !! i <> Some (Raise e) /\ ps' !! i <> Some (Crash x)) /\
    (pair_done pid v1 i1 ps' s' \/ exists st, pool_step (ps', s') st) /\
    exists ps2 s2, pool_steps (ps', s') (ps2, s2) /\ pair_done pid v1 i1 ps2 s2.
Proof.
  intros Hrun Ha Hc He Hi Hk Hv Hst Hp ps' s' Hsteps.
  assert (HI : length ps' = 2%nat /\ pool_safe (pair_contract pid v1 i0 i1) (pair_post pid v1 i1) ps' s').
  { split; [by rewrite (pool_steps_length _ _ _ _ Hsteps)|]. apply (pool_safe_steps _ _ [client i0; unit_thread resumeImpl] (w, u)); [apply pair_compatible| |exact Hsteps].
    intros [|[|i]] p E; [injection E as <-|injection E as <-|done].
    - apply (triple_client resumeImpl pid v0 v1 i0 i1 Hrun (w, u)). by split_and!.
    - apply safe_bind. eapply safe_mono; [|apply (triple_thread_of_unit resumeImpl pid v0 v1 i0 i1 Hrun (UnitThread.os w) Ha (w, u))]; [by intros []|].
      split_and!; try done. cbn. congruence. }
  split_and!.
  - intros i e x. split; intros Hx; by apply (proj2 HI) in Hx.
  - apply (pair_progress pid v1 i0 i1); apply HI.
  - refine (pool_reaches (fun qs v => length qs = 2%nat /\ pool_safe (pair_contract pid v1 i0 i1) (pair_post pid v1 i1) qs v) _ ps' s' _ _ HI).
    + intros qs v qs' v' [Hl Hs] Hstep. split; [by inversion Hstep; subst; rewrite length_insert|].
      eapply pool_safe_step; [|exact Hs|exact Hstep]. rewrite Hl. apply pair_compatible.
    + intros qs v [Hl Hs]. by apply (pair_progress pid v1 i0 i1).
Qed.

(** ** Signals *)

Section Signals.
Context {V I : Type} (resumeImpl : prog (V * I) unit).
Import UnitThread.

(** The owner starts the unit, suspends it, resumes it and waits for its end. *)
Definition pausing_client (i : I) : prog (world V * ProcessingUnit.t (t (ExecutionState.t I))) unit :=
  _ ← ComputeManager.start _ (ExecutionState.make i);
  _ ← ComputeManager.suspend (ExecutionState.t I);
  _ ← ComputeManager.resume (ExecutionState.t I);
  ComputeManager.await (ExecutionState.t I).

(** A system that grants every request. *)
Definition fresh_world (v : V) : world V :=
  mkWorld false false false ∅ false false false true (PthreadsAffinity.mkOs {[0]} {[0]} (fun _ => true) true true) v.

Definition fresh_unit (pid : Z) : ProcessingUnit.t (t (ExecutionState.t I)) := ProcessingUnit.mk ProcessingUnit.ready 0 (mk pid None).

(** The owner runs up to the barrier, the thread too, and the owner sends both signals;
    then the second is delivered before the first. *)
Definition losing_schedule : list nat :=
  (repeat 0 7 ++ repeat 1 14 ++ repeat 0 8 ++ [3; 3] ++ [2; 2])%nat.

End Signals.

Lemma pool_stuck {S A : Type} (ps : list (prog S A)) (s : S) : Forall (fun p => step_thread p s = None) ps -> forall st, ~ pool_step (ps, s) st.
Proof.
  intros H st Hst. inversion Hst as [? k p p' ? s' Hk Ht]; subst. apply step_thread_step in Ht. eapply Forall_lookup_1 in H; [|exact Hk]. congruence.
Qed.

(** C40: a unit that is suspended and resumed may stay suspended for ever.  The two signals
    are pending at the same time, and when the second is delivered first, its handler
    does nothing; the owner has been told that the unit is running and waits for its end,
    the thread waits for a signal that has already been used, and nobody can move. *)
Theorem resume_lost {V I : Type} (resumeImpl : prog (V * I) unit) (v : V) (i : I) :
  exists ps' s', pool_steps ([pausing_client i; UnitThread.thread_of_unit resumeImpl; UnitThread.deliver_suspend; UnitThread.deliver_resume], (fresh_world v, fresh_unit 2)) (ps', s') /\
    ProcessingUnit._state s'.2 = ProcessingUnit.running /\ UnitThread.in_handler s'.1 = true /\ UnitThread.exited s'.1 = false /\
    UnitThread.suspend_pending s'.1 = false /\ UnitThread.resume_pending s'.1 = false /\ UnitThread.user s'.1 = v /\
    forall st, ~ pool_step (ps', s') st.
Proof.
  eexists _, _. split; [apply (schedule_steps losing_schedule); vm_compute; reflexivity|]. split_and!; try reflexivity.
  apply pool_stuck. repeat constructor.
Qed.

Module UnitThreadDemo.

(** A function that counts, in a thread on processor 2. *)
Definition count : prog (Z * unit) unit := modify (fun vi => (vi.1 + 1, vi.2)).

Lemma pthreads_unit_completes_witness : exists ps2 s2,
  pool_steps ([client tt; unit_thread count], (fresh_world 41, fresh_unit 2)) (ps2, s2) /\ pair_done 2 42 tt ps2 s2.
Proof.
  destruct (pthreads_unit_completes count 2 41 42 tt tt (fresh_world 41) (fresh_unit 2)) with
    (ps' := [client tt; unit_thread count]) (s' := (fresh_world 41, fresh_unit (I := unit) 2)) as (_ & _ & H); [done..|apply rtc_refl|exact H].
Defined.

End UnitThreadDemo.
